(* ===== verification/_CoqProject ===== *)
-Q . S2P
Prelude.v
SimTime.v
Rng.v
Entities.v
TelemetryRecords.v
TelemetryMetrics.v
TelemetrySummary.v
TelemetryRecorder.v
TelemetryLaws.v
TelemetryAttribution.v
TelemetrySampling.v
TelemetryTheorems.v
EventQueue.v
Trace.v
Simulation.v
SimulationLaws.v
SimulationRun.v
SimContext.v
Timing.v
LinkQueue.v
LinkService.v
LinkServiceLaws.v
Bfs.v
Topology.v
TopologyLaws.v
ShortestPath.v
Transport.v
TransportLaws.v
TransportInv.v
TransportSteps.v
TransportSubmit.v
TransportReach.v
TransportTheorems.v
CollectivePlan.v
RoutingPaths.v
RoutingPathsLaws.v
RoutingCache.v
RoutingPolicy.v
Router.v
RouterTheorems.v
CollectiveRuntime.v
CollectiveLaws.v
CollectiveSteps.v
CollectiveFabric.v
CollectiveTheorems.v
Scheduling.v
SchedulingLaws.v
SchedulingTheorems.v
Workload.v
WorkloadRuntime.v
WorkloadLaws.v
WorkloadInv.v
WorkloadSteps.v
WorkloadHandlers.v
WorkloadAdmission.v
WorkloadReach.v
WorkloadCluster.v
WorkloadTheorems.v
Dispatcher.v
DispatcherLaws.v
DispatcherTheorems.v
TopologyFamilies.v
TopologyClos.v
Run.v
TopologyValidation.v
TopologyMembers.v
ValidationLaws.v
FamiliesLaws.v
FamiliesLoops.v
FamiliesClos.v
FamiliesTheorems.v
Yaml.v
TopologyExport.v
TopologyImport.v
ImportReading.v
ImportCanonical.v
ImportReplay.v
ImportTheorems.v
RunTheorems.v
Scenario.v
