(* ===== verification/Prelude.v ===== *)
(** * NexusLab: a verification development

    NexusLab ([src/simulator]) is a deterministic discrete-event simulator of AI
    training clusters.  An event kernel ([sim/]) dispatches events in a total
    order; a topology graph ([topology/]) holds nodes, ports and links with
    their operational state; the transport ([transport/]) cuts transfers into
    chunks and moves them hop by hop through bounded link queues.  Above it the
    router ([routing/]) chooses shortest paths, the ring executor
    ([collective/]) runs collectives round by round, and the workload engine
    ([workload/], with the inventory of [scheduling/]) runs training jobs; the
    training dispatcher hands each event to one of them and passes the outcomes
    upwards.  All components report to the telemetry session ([telemetry/]).
    This development models the code as Rocq functions on explicit states and
    proves what makes each part correct.

    ** How the code is modelled

    - Integers are [Z] with their width written out: [u64]/[u64_wrap] for
      [std::uint64_t] and [std::size_t] (64 bits), [u32_wrap] for
      [std::uint32_t].  Checked arithmetic of the code is checked in the model.
    - Stateful, throwing code lives in the state-and-exception monad [M S A]
      below: a run from a state gives a state and an [outcome], [Ret] or
      [Throw].  A throw keeps the state reached so far, as C++ does.  Exceptions
      are the [std::exception]s the source throws, with their messages; memory
      exhaustion is not modelled.
    - Classes are records, enums inductive types with the source's enumerators
      (casts of integers outside an enum are not modelled), [std::map] is
      [gmap] iterated in key order, or in the registry of metrics the list of
      its entries in that order, [std::vector] a list, and an indexing that
      would be out of range is a throw that the theorems show unreachable.
    - [std::priority_queue] is a bag from which an event with no earlier one is
      extracted; [pop_layout_independent] shows that its array layout cannot
      matter.  [std::sort] is a merge sort where its comparator orders any two
      different elements.  [std::mt19937_64] is written out from the C++
      standard.
    - Loops that are not structural take fuel, and a theorem shows how much is
      enough: the rejection sampling needs a draw outside the rejection zone,
      the run loop the live events plus the events handlers schedule, the
      breadth-first searches one turn per node ([visit_fuel] in the validator),
      the walk over shortest paths one turn per hop, the eviction loop of the
      path cache one turn per cached pair, the search for a live event the
      length of the queue, the loop over samples one turn per multiple of the
      interval ([sample_fuel]), the list of collectives one turn per record,
      and the pump of the dispatcher [pump_fuel] turns, the collectives under
      way and the buckets ready to be sent.  [run_training] takes the fuel of
      its run loop; a report does not depend on it once there is one.

    ** Interfaces

    A component is proved against classes, which the components below it
    discharge:
    - [SimContext]/[SimContextLaws], what handlers see of the simulation: the
      kernel;
    - [TelemetrySession]/[TelemetrySessionLaws], the session a sink writes to:
      the session of [TelemetryRecorder];
    - [Fabric]/[FabricLaws], what the ring executor uses of router, topology
      and context: the router over the transport ([CollectiveFabric]);
    - [Cluster]/[ClusterLaws], what the workload engine uses of collectives,
      topology and context: the executor over that router ([WorkloadCluster]);
    - [KernelLens]/[ContextOnly], a dispatcher that uses the kernel through
      its context only, on return and on every throw, as the theorems on the run
      loop ask: a small program at the end of [SimulationRun]; for the training
      dispatcher, [DispatcherLaws] relates runs that do not fail to steps of the
      engine;
    - [Yaml]/[YamlLaws], the library [yaml-cpp], which the program only calls:
      a concrete instance shows that the laws can hold.

    ** Files

    - [Prelude]: machine words, the monad and its weakest preconditions,
      automation, and lemmas on lists and maps.
    - [SimTime], [Rng], [EventQueue], [Trace]: [sim/time.hpp], [sim/event_id],
      [sim/deterministic_rng], [sim/event_queue], [sim/trace].
    - [Simulation], [SimulationLaws], [SimulationRun], [SimContext]:
      [sim/simulation]; the kernel refines a map of live events, and the run
      loop over an arbitrary dispatcher ends and dispatches in order.
    - [TelemetryRecords], [TelemetryMetrics], [TelemetrySummary],
      [TelemetryRecorder]: [telemetry/records], [telemetry/metrics],
      [telemetry/summary], [telemetry/session] and [telemetry/samples];
      [TelemetryLaws], [TelemetryAttribution], [TelemetrySampling] and
      [TelemetryTheorems]: registries, the accounts of jobs, samples and
      records as functions of the observations accepted.
    - [Entities], [Topology], [TopologyLaws], [Bfs], [ShortestPath]:
      [topology/entities], [topology/graph], and the invariant that all
      breadth-first searches of the program share.
    - [TopologyFamilies], [TopologyClos], [TopologyValidation]:
      [topology/families], [topology/summary], [topology/clos],
      [topology/validation]; [TopologyMembers], [ValidationLaws] and the files
      [FamiliesLaws] to [FamiliesTheorems]: what a buildable graph is like, what
      the generators build in terms of skeletons, and what validation finds.
    - [Yaml], [TopologyExport], [TopologyImport]: [topology/export],
      [topology/import]; [ImportReading], [ImportCanonical], [ImportReplay] and
      [ImportTheorems]: the document is read back, and replaying it makes the
      same graph.
    - [Timing], [LinkQueue], [LinkService], [LinkServiceLaws]:
      [transport/timing], [transport/link_queue], [transport/link_service].
    - [Transport] and the files [TransportLaws] to [TransportTheorems]:
      [transport/runtime], [transport/progress], [transport/failure],
      [transport/telemetry]; its invariant [runtime_ok], that every operation
      keeps it, and the theorems about reachable runtimes.
    - [RoutingPaths], [RoutingPathsLaws], [RoutingCache]: [routing/paths].
    - [RoutingPolicy], [Router], [RouterTheorems]: [routing/policy],
      [routing/router], and their composition with the transport.
    - [CollectivePlan]: [collective/model], [collective/planner].
    - [CollectiveRuntime] and the files [CollectiveLaws] to
      [CollectiveTheorems]: [collective/runtime]; the books of the executor, that
      every operation keeps them, and that the router is a lawful fabric.
    - [Scheduling], [SchedulingLaws], [SchedulingTheorems]:
      [scheduling/inventory], [scheduling/policy].
    - [Workload], [WorkloadRuntime] and the files [WorkloadLaws] to
      [WorkloadTheorems]: [workload/model], [workload/engine],
      [workload/scheduling], [workload/metrics], [workload/telemetry]; the
      invariant [engine_ok] of [WorkloadSteps], that every operation keeps it, and that the
      executor is a lawful cluster.
    - [Dispatcher], [DispatcherLaws], [DispatcherTheorems]:
      [workload/dispatcher.hpp] over the composition of all of the above.
    - [Run], [RunTheorems]: [workload/run], [workload/digest]; the program from
      its constructors to its report.
    - [Scenario]: [workload/scenario], the reading of a scenario.

    ** What the theorems show

    Kernel.  It implements a map of live events: scheduling inserts, cancelling
    deletes, the next event is the least one, a run dispatches in time order,
    each event at most once, and ends.  The trace hash is computed over an
    injective encoding.  Random draws are unbiased.

    Transport.  Serialization delays are exact although computed in 64 bits.  A
    link queue is a bounded FIFO.  A link conserves traffic, whatever the rest
    of the program does to the simulation: its steps start service only with a
    completion event in the queue for the right time, and it accepts a
    completion only when the event handled is the one expected and names the
    chunk in service.  In every state the transport can reach, the chunks of a
    transfer are accounted for, queued exactly where their records say, move
    only forward, and completions are reported exactly once.

    Topology.  Every graph that can be built is well formed, the path search
    finds distances, the generators build the fabrics asked for and refuse
    exactly the others, validation reports exactly the faults a graph can have,
    and a valid graph survives its file, while nothing invalid is imported.

    Routing and collectives.  Routing offers all shortest operational paths and
    nothing else, also from its cache, and the transport accepts every path it
    offers.  The ring plan is an all-reduce; along every run of the executor
    its bytes are accounted for, local completions are never stale and results
    are reported exactly once.

    Workload.  GPUs are allocated to one job at a time, and placement policies
    answer exactly what allocation accepts.  Admission considers waiting jobs by
    priority, then arrival, then identifier.  Every job that has not ended has
    an event or a collective to wait for, or waits for resources; every job is
    reported once.  Its compute time is that of the completed steps and, for
    each worker, of the part of the step under way that had passed, by now or
    when the job ended; these are computed from the record of the step, not
    from the field that accumulates them.

    Telemetry.  A session retains what it accepts within its limits and is
    unchanged by what it refuses; metrics are folds over the accepted
    observations; samples are taken at every multiple of the interval; and the
    time of a job is attributed to the phase its history of transitions says.
    That phase ([phase_of]) is read off the history, and [phase_of_snoc] shows
    that the state machine of the code computes it.

    Program.  The loop of the dispatcher ends, a run of the program is a run of
    the engine over its lawful cluster, and a report accounts for every job and
    every collective; the digest tells outcomes apart.  A scenario that is read
    meets the hypotheses of the theorem on reports.

    The handlers of the transport run inside [Simulation::run], which catches a
    throw and ends the run; the invariants of transport, router, executor and
    engine are stated for the calls that return, in any order, with arbitrary
    changes of the kernel and, below the workload, of the topology in between.

    ** Not modelled

    The text of telemetry ([telemetry/serialization]) and of a topology summary
    ([format_topology_summary]), and the listing of policy names, which only
    print; the command line and the version; benchmarks and tests, which call
    the modelled code.  Memory exhaustion, as said above. *)

From stdpp Require Export base tactics option list gmap strings fin_maps sorting.
From Stdlib Require Export ZArith Lia.

Set Default Goal Selector "!".
#[global] Open Scope Z_scope.

(** ** Unsigned machine words

    The simulator computes on [std::uint64_t] and [std::size_t], both 64 bits
    wide.  A word is an integer of [Z]; [u64] is its range and [u64_wrap] the
    reduction that every unsigned C++ operation performs. *)

Definition u64_modulus : Z := 2 ^ 64.

Definition u64_max : Z := 18446744073709551615.

Definition u64 (x : Z) : Prop := 0 <= x <= u64_max.

Definition u64_wrap (x : Z) : Z := x mod u64_modulus.

Definition u32_max : Z := 4294967295.

Definition u32 (x : Z) : Prop := 0 <= x <= u32_max.

Definition u32_wrap (x : Z) : Z := x mod 2 ^ 32.

Ltac u64_unfold := unfold u64, u32, u64_wrap, u32_wrap, u64_modulus, u64_max, u32_max in *.

(** [lia] after exposing the numeric bounds. *)
Ltac word_lia := u64_unfold; change (2 ^ 64) with 18446744073709551616 in *;
  change (2 ^ 32) with 4294967296 in *; lia.

(** Closed decidable goals by evaluation. *)
Ltac decide_now := apply (bool_decide_unpack _); vm_compute; exact I.

Create HintDb nexus.

Lemma u64_wrap_id x : u64 x -> u64_wrap x = x.
Proof. intros H. unfold u64_wrap. apply Z.mod_small. word_lia. Qed.

Lemma u64_wrap_range x : u64 (u64_wrap x).
Proof.
  unfold u64, u64_wrap. pose proof (Z.mod_pos_bound x u64_modulus ltac:(word_lia)).
  word_lia.
Qed.

Lemma u64_wrap_lt x : 0 <= x < u64_modulus -> u64_wrap x = x.
Proof. intros H. apply u64_wrap_id. word_lia. Qed.

Lemma u64_iff_bits x : u64 x <-> 0 <= x < 2 ^ 64.
Proof. split; word_lia. Qed.

(** Bit operations stay inside the word. *)
Lemma bits_below_lt x n :
  0 <= n -> 0 <= x -> (forall i, n <= i -> Z.testbit x i = false) -> x < 2 ^ n.
Proof.
  intros Hn Hx Hb.
  destruct (Z.eq_dec x 0) as [-> | Hne]; [apply Z.pow_pos_nonneg; lia |].
  assert (Z.log2 x < n) as Hl.
  { destruct (Z.lt_ge_cases (Z.log2 x) n) as [| Hge]; [done |].
    pose proof (Z.bit_log2 x ltac:(lia)) as Ht. rewrite Hb in Ht; done. }
  apply Z.log2_lt_pow2; lia.
Qed.

Lemma bits_above_false x n i : 0 <= x < 2 ^ n -> n <= i -> Z.testbit x i = false.
Proof.
  intros Hx Hi. destruct (Z.eq_dec x 0) as [-> | Hne]; [apply Z.testbit_0_l |].
  apply Z.bits_above_log2; [lia |].
  apply Z.lt_le_trans with n; [| done]. apply Z.log2_lt_pow2; lia.
Qed.

Lemma u64_lxor x y : u64 x -> u64 y -> u64 (Z.lxor x y).
Proof.
  rewrite !u64_iff_bits. intros Hx Hy. split; [apply Z.lxor_nonneg; lia |].
  apply bits_below_lt; [lia | apply Z.lxor_nonneg; lia |].
  intros i Hi. rewrite Z.lxor_spec, !(bits_above_false _ 64 i) by done. done.
Qed.

Lemma u64_lor x y : u64 x -> u64 y -> u64 (Z.lor x y).
Proof.
  rewrite !u64_iff_bits. intros Hx Hy. split; [apply Z.lor_nonneg; lia |].
  apply bits_below_lt; [lia | apply Z.lor_nonneg; lia |].
  intros i Hi. rewrite Z.lor_spec, !(bits_above_false _ 64 i) by done. done.
Qed.

Lemma u64_land_r x y : u64 y -> u64 (Z.land x y).
Proof.
  rewrite !u64_iff_bits. intros Hy.
  split; [apply Z.land_nonneg; lia |].
  apply bits_below_lt; [lia | apply Z.land_nonneg; lia |].
  intros i Hi. rewrite Z.land_spec, (bits_above_false y 64 i) by done.
  apply andb_false_r.
Qed.

Lemma u64_shiftr x n : u64 x -> 0 <= n -> u64 (Z.shiftr x n).
Proof.
  rewrite !u64_iff_bits. intros Hx Hn. rewrite Z.shiftr_div_pow2 by done.
  pose proof (Z.pow_pos_nonneg 2 n ltac:(lia) Hn).
  split; [apply Z.div_pos; lia |]. apply Z.div_lt_upper_bound; nia.
Qed.

#[export] Hint Resolve u64_wrap_range u64_lxor u64_lor u64_land_r u64_shiftr : nexus.

(** ** Exceptions and the state-and-exception monad

    A throwing C++ function keeps every mutation it made before the throw, so
    a computation returns the final state in both cases: this is what
    [Simulation::run] observes when it catches an exception of a handler. *)

Inductive exn : Type :=
  | invalid_argument (what : string)
  | logic_error (what : string)
  | overflow_error (what : string)
  | length_error (what : string)
  | out_of_range (what : string)
  | runtime_error (what : string)
  | TopologyYamlError (what : string).

Definition what (e : exn) : string :=
  match e with
  | invalid_argument w | logic_error w | overflow_error w
  | length_error w | out_of_range w | runtime_error w | TopologyYamlError w => w
  end.

Inductive outcome (A : Type) : Type :=
  | Ret (a : A)
  | Throw (e : exn).
Arguments Ret {A} a.
Arguments Throw {A} e.

Definition M (S A : Type) : Type := S -> S * outcome A.

Definition ret {S A} (a : A) : M S A := fun s => (s, Ret a).

Definition throw {S A} (e : exn) : M S A := fun s => (s, Throw e).

Definition bind {S A B} (m : M S A) (k : A -> M S B) : M S B :=
  fun s => match m s with
           | (s', Ret a) => k a s'
           | (s', Throw e) => (s', Throw e)
           end.

Definition gets {S A} (f : S -> A) : M S A := fun s => (s, Ret (f s)).

Definition modify {S} (f : S -> S) : M S unit := fun s => (f s, Ret tt).

Definition throw_if {S} (b : bool) (e : exn) : M S unit :=
  if b then throw e else ret tt.

Definition when {S} (b : bool) (m : M S unit) : M S unit :=
  if b then m else ret tt.

(** [try { m } catch (...) { h }]: the handler decides how to go on. *)
Definition try_catch {S A} (m : M S A) (h : exn -> M S A) : M S A :=
  fun s => match m s with
           | (s', Ret a) => (s', Ret a)
           | (s', Throw e) => h e s'
           end.

Definition of_outcome {S A} (o : outcome A) : M S A := fun s => (s, o).

Definition of_option {S A} (e : exn) (o : option A) : M S A :=
  match o with Some a => ret a | None => throw e end.

(** A member function of a part of the state. *)
Definition zoom {S P A} (get : S -> P) (set : P -> S -> S) (m : M P A) : M S A :=
  fun s => let '(p, r) := m (get s) in (set p s, r).

(** A range-based [for] loop. *)
Fixpoint for_each {S A} (l : list A) (f : A -> M S unit) : M S unit :=
  match l with
  | [] => ret tt
  | x :: l' => bind (f x) (fun _ => for_each l' f)
  end.

Declare Scope nexus_scope.
Delimit Scope nexus_scope with nexus.
Notation "'let!' x ':=' m 'in' k" := (bind m (fun x => k))
  (at level 10, x pattern, m at level 100, k at level 200,
   format "'[v' 'let!'  x  ':='  m  'in' '/' k ']'") : nexus_scope.
Notation "'do!' m 'in' k" := (bind m (fun _ => k))
  (at level 10, m at level 100, k at level 200,
   format "'[v' 'do!'  m  'in' '/' k ']'") : nexus_scope.
#[global] Open Scope nexus_scope.

(** Running the first statement of a sequence. *)

Lemma run_throw_if {S A} b e (k : unit -> M S A) s :
  bind (throw_if b e) k s = if b then (s, Throw e) else k tt s.
Proof. by destruct b. Qed.

Lemma run_gets {S A B} (f : S -> A) (k : A -> M S B) s : bind (gets f) k s = k (f s) s.
Proof. done. Qed.

Lemma run_of_outcome {S A B} (o : outcome A) (k : A -> M S B) s :
  bind (of_outcome o) k s = match o with Ret a => k a s | Throw e => (s, Throw e) end.
Proof. by destruct o. Qed.

Lemma run_bind_Ret {S A B} (m : M S A) (k : A -> M S B) s s' a :
  m s = (s', Ret a) -> bind m k s = k a s'.
Proof. unfold bind. by intros ->. Qed.

Lemma run_bind_Throw {S A B} (m : M S A) (k : A -> M S B) s s' e :
  m s = (s', Throw e) -> bind m k s = (s', Throw e).
Proof. unfold bind. by intros ->. Qed.

(** What [m] returned is passed on after [f]. *)
Lemma run_after {S A B} (m : M S A) (f : A -> M S unit) (k : A -> M S B) s s' a :
  bind m (fun x => bind (f x) (fun _ => ret x)) s = (s', Ret a) ->
  bind m (fun x => bind (f x) (fun _ => k x)) s = k a s'.
Proof.
  unfold bind, ret. destruct (m s) as [s1 [x | e]]; [| done].
  destruct (f x s1) as [s2 [[] | e]]; [| done]. by intros [= -> ->].
Qed.

(** ** Weakest preconditions

    [wp m Q E s]: running [m] from [s] ends in a state and value that satisfy
    [Q] when it returns, and in a state and exception that satisfy [E] when it
    throws. *)

Definition wp {S A} (m : M S A) (Q : S -> A -> Prop) (E : S -> exn -> Prop) (s : S) : Prop :=
  match m s with
  | (s', Ret a) => Q s' a
  | (s', Throw e) => E s' e
  end.

(** The invariant [I] survives [m], on return and on every throw. *)
Definition preserves {S A} (I : S -> Prop) (m : M S A) : Prop :=
  forall s, I s -> wp m (fun s' _ => I s') (fun s' _ => I s') s.

Section WeakestPreconditions.
Context {S : Type}.
Implicit Types (s : S).

Lemma wp_ret {A} (a : A) (Q : S -> A -> Prop) E s : Q s a -> wp (ret a) Q E s.
Proof. done. Qed.

Lemma wp_throw {A} e (Q : S -> A -> Prop) (E : S -> exn -> Prop) s :
  E s e -> wp (throw e) Q E s.
Proof. done. Qed.

Lemma wp_bind {A B} (m : M S A) (k : A -> M S B) Q E s :
  wp m (fun s' a => wp (k a) Q E s') E s -> wp (bind m k) Q E s.
Proof. unfold wp, bind. destruct (m s) as [s' [a | e]]; done. Qed.

Lemma wp_bind_iff {A B} (m : M S A) (k : A -> M S B) Q E s :
  wp (bind m k) Q E s <-> wp m (fun s' a => wp (k a) Q E s') E s.
Proof. unfold wp, bind. destruct (m s) as [s' [a | e]]; done. Qed.

Lemma wp_gets {A} (f : S -> A) (Q : S -> A -> Prop) E s : Q s (f s) -> wp (gets f) Q E s.
Proof. done. Qed.

Lemma wp_modify f (Q : S -> unit -> Prop) E s : Q (f s) tt -> wp (modify f) Q E s.
Proof. done. Qed.

Lemma wp_throw_if b e (Q : S -> unit -> Prop) (E : S -> exn -> Prop) s :
  (b = true -> E s e) -> (b = false -> Q s tt) -> wp (throw_if b e) Q E s.
Proof. intros HE HQ. unfold throw_if. destruct b; [by apply HE | by apply HQ]. Qed.

Lemma wp_when b m (Q : S -> unit -> Prop) E s :
  (b = true -> wp m Q E s) -> (b = false -> Q s tt) -> wp (when b m) Q E s.
Proof. intros H1 H2. unfold when. destruct b; [by apply H1 | by apply H2]. Qed.

Lemma wp_of_option {A} e (o : option A) (Q : S -> A -> Prop) (E : S -> exn -> Prop) s :
  (forall a, o = Some a -> Q s a) -> (o = None -> E s e) -> wp (of_option e o) Q E s.
Proof. intros HQ HE. destruct o as [a |]; [by apply HQ | by apply HE]. Qed.

Lemma wp_of_outcome {A} (o : outcome A) (Q : S -> A -> Prop) (E : S -> exn -> Prop) s :
  (forall a, o = Ret a -> Q s a) -> (forall e, o = Throw e -> E s e) ->
  wp (of_outcome o) Q E s.
Proof. intros HQ HE. destruct o as [a | e]; [by apply HQ | by apply HE]. Qed.

Lemma wp_try_catch {A} (m : M S A) h (Q : S -> A -> Prop) E s :
  wp m Q (fun s' e => wp (h e) Q E s') s -> wp (try_catch m h) Q E s.
Proof. unfold wp, try_catch. destruct (m s) as [s' [a | e]]; done. Qed.

Lemma wp_zoom {P A} get set (m : M P A) (Q : S -> A -> Prop) (E : S -> exn -> Prop) s :
  wp m (fun p a => Q (set p s) a) (fun p e => E (set p s) e) (get s) ->
  wp (zoom get set m) Q E s.
Proof. unfold wp, zoom. destruct (m (get s)) as [p [a | e]]; done. Qed.

Lemma wp_conseq {A} (m : M S A) (Q Q' : S -> A -> Prop) (E E' : S -> exn -> Prop) s :
  wp m Q E s -> (forall s' a, Q s' a -> Q' s' a) -> (forall s' e, E s' e -> E' s' e) ->
  wp m Q' E' s.
Proof. unfold wp. destruct (m s) as [s' [a | e]]; eauto. Qed.

(** What is known about the result of one run, in equational form. *)
Lemma wp_run {A} (m : M S A) (Q : S -> A -> Prop) E s s' a :
  wp m Q E s -> m s = (s', Ret a) -> Q s' a.
Proof. unfold wp. intros H Hr. by rewrite Hr in H. Qed.

Lemma wp_run_throw {A} (m : M S A) (Q : S -> A -> Prop) (E : S -> exn -> Prop) s s' e :
  wp m Q E s -> m s = (s', Throw e) -> E s' e.
Proof. unfold wp. intros H Hr. by rewrite Hr in H. Qed.

Lemma wp_for_each {A} (I : S -> Prop) (E : S -> exn -> Prop) (l : list A) f s :
  (forall x s', x ∈ l -> I s' -> wp (f x) (fun s'' _ => I s'') E s') ->
  I s -> wp (for_each l f) (fun s' _ => I s') E s.
Proof.
  revert s. induction l as [| x l IH]; intros s Hf HI; [done |].
  simpl. apply wp_bind. eapply wp_conseq; [apply Hf; [left | done] | | done].
  intros s' u HI'. apply IH; [| done]. intros y s'' Hy. apply Hf. by right.
Qed.

(** A loop that consumes its list. *)
Lemma wp_for_each_rest {A} (I : list A -> S -> Prop) (E : S -> exn -> Prop) (l : list A) f s :
  (forall x rest s', I (x :: rest) s' -> wp (f x) (fun s'' _ => I rest s'') E s') ->
  I l s -> wp (for_each l f) (fun s' _ => I [] s') E s.
Proof.
  intros Hf. revert s. induction l as [| x l IH]; intros s HI; [done |].
  simpl. apply wp_bind. eapply wp_conseq; [by apply Hf | | done]. intros s' u HI'. by apply IH.
Qed.

(** A counting loop. *)
Lemma wp_for_each_seqZ (I : Z -> S -> Prop) (E : S -> exn -> Prop) n f s :
  (forall k s', 0 <= k < n -> I k s' -> wp (f k) (fun s'' _ => I (k + 1) s'') E s') ->
  I 0 s -> 0 <= n -> wp (for_each (seqZ 0 n) f) (fun s' _ => I n s') E s.
Proof.
  intros Hf HI Hn. enough (forall m k s', k + Z.of_nat m = n -> 0 <= k -> I k s' ->
    wp (for_each (seqZ k (Z.of_nat m)) f) (fun s' _ => I n s') E s') as Hgen
    by (specialize (Hgen (Z.to_nat n) 0 s); rewrite Z2Nat.id in Hgen by done; by apply Hgen).
  induction m as [| m IH]; intros k s' Hk H0 HIk.
  - rewrite seqZ_nil by done. by replace n with k by lia.
  - rewrite seqZ_cons by lia. cbn [for_each]. apply wp_bind. eapply wp_conseq; [apply Hf; [lia | done] | | done].
    intros s'' u HI'. rewrite Nat2Z.inj_succ, Z.pred_succ. apply IH; [lia | lia | by rewrite <- Z.add_1_r].
Qed.
End WeakestPreconditions.

(** One step of symbolic execution; [wp_auto] repeats it. *)
Ltac wp_step :=
  lazymatch goal with
  | |- wp (bind _ _) _ _ _ => apply wp_bind
  | |- wp (ret _) _ _ _ => apply wp_ret
  | |- wp (throw _) _ _ _ => apply wp_throw
  | |- wp (gets _) _ _ _ => apply wp_gets
  | |- wp (modify _) _ _ _ => apply wp_modify
  | |- wp (throw_if _ _) _ _ _ => apply wp_throw_if; intros ?
  | |- wp (when _ _) _ _ _ => apply wp_when; intros ?
  | |- wp (of_option _ _) _ _ _ => apply wp_of_option; intros
  | |- wp (of_outcome _) _ _ _ => apply wp_of_outcome; intros
  | |- wp (try_catch _ _) _ _ _ => apply wp_try_catch
  | |- wp (if ?b then _ else _) _ _ _ => destruct b eqn:?; cbv iota
  | |- wp (match ?o with Some _ => _ | None => _ end) _ _ _ => destruct o eqn:?; cbv iota
  end.

Ltac wp_auto := repeat (wp_step; cbv beta).

Lemma preserves_bind {S A B} (I : S -> Prop) (m : M S A) (k : A -> M S B) :
  preserves I m -> (forall a, preserves I (k a)) -> preserves I (bind m k).
Proof.
  intros Hm Hk s Hs. apply wp_bind. eapply wp_conseq; [by apply Hm | | done].
  intros s' a Hs'. by apply Hk.
Qed.

Lemma preserves_for_each {S A} (I : S -> Prop) (l : list A) (f : A -> M S unit) :
  (forall x, preserves I (f x)) -> preserves I (for_each l f).
Proof. intros Hf s Hs. apply wp_for_each; [| done]. intros x s' _ Hs'. by apply Hf. Qed.

(** ** Lists of numbers *)

Definition sumZ (l : list Z) : Z := foldr Z.add 0 l.

Lemma sumZ_cons x l : sumZ (x :: l) = x + sumZ l.
Proof. done. Qed.

Lemma sumZ_app l1 l2 : sumZ (l1 ++ l2) = sumZ l1 + sumZ l2.
Proof. induction l1; simpl; lia. Qed.

Lemma sumZ_perm l1 l2 : l1 ≡ₚ l2 -> sumZ l1 = sumZ l2.
Proof. induction 1; simpl; lia. Qed.

Lemma sumZ_nonneg l : Forall (fun x => 0 <= x) l -> 0 <= sumZ l.
Proof. induction 1; simpl; lia. Qed.

#[global] Instance sumZ_proper : Proper ((≡ₚ) ==> (=)) sumZ.
Proof. intros l1 l2. apply sumZ_perm. Qed.

Lemma sumZ_replicate n x : sumZ (replicate n x) = Z.of_nat n * x.
Proof. induction n as [| n IH]; [done |]. rewrite replicate_S. simpl sumZ. rewrite IH. lia. Qed.

Lemma filter_ext_in {A} (P Q : A -> Prop) `{!forall x, Decision (P x)} `{!forall x, Decision (Q x)}
    (l : list A) :
  (forall x, x ∈ l -> P x <-> Q x) -> filter P l = filter Q l.
Proof.
  induction l as [| x l IH]; intros Hpq; [done |]. rewrite !filter_cons.
  rewrite IH by (intros y Hy; apply Hpq; by right).
  destruct (decide (P x)) as [Hp | Hp], (decide (Q x)) as [Hq | Hq]; try done;
    exfalso; pose proof (Hpq x ltac:(left)); tauto.
Qed.

Section Filter.
Context {A : Type} (P : A -> Prop) `{!forall x, Decision (P x)}.
Implicit Types (l : list A).

Lemma filter_all l : (forall x, x ∈ l -> P x) -> filter P l = l.
Proof.
  induction l as [| x l IH]; intros Hall; [done |]. rewrite filter_cons_True by (apply Hall; left).
  f_equal. apply IH. intros y Hy. apply Hall. by right.
Qed.

Lemma filter_none l : (forall x, x ∈ l -> ~ P x) -> filter P l = [].
Proof.
  induction l as [| x l IH]; intros Hall; [done |]. rewrite filter_cons_False by (apply Hall; left).
  apply IH. intros y Hy. apply Hall. by right.
Qed.

Lemma filter_length_full l : length (filter P l) = length l -> filter P l = l.
Proof.
  induction l as [| x l IH]; [done |]. rewrite filter_cons. pose proof (length_filter P l).
  case_decide; cbn; intros Hl; [f_equal; apply IH; lia | lia].
Qed.
End Filter.

(** [std::vector::size] and its relatives. *)
Definition zlength {A} (l : list A) : Z := Z.of_nat (length l).

Lemma zlength_app {A} (l1 l2 : list A) : zlength (l1 ++ l2) = zlength l1 + zlength l2.
Proof. unfold zlength. rewrite length_app. lia. Qed.

Lemma zlength_cons {A} (x : A) l : zlength (x :: l) = 1 + zlength l.
Proof. unfold zlength. cbn. lia. Qed.

Lemma zlength_fmap {A B} (f : A -> B) (l : list A) : zlength (f <$> l) = zlength l.
Proof. unfold zlength. by rewrite length_fmap. Qed.

Lemma zlength_nonneg {A} (l : list A) : 0 <= zlength l.
Proof. unfold zlength. lia. Qed.

(** One element more. *)
Lemma filter_length_flip {A} (P Q : A -> Prop) `{!forall x, Decision (P x)} `{!forall x, Decision (Q x)} l x :
  NoDup l -> x ∈ l -> ~ P x -> Q x -> (forall y, y ∈ l -> y <> x -> Q y <-> P y) ->
  zlength (filter Q l) = 1 + zlength (filter P l).
Proof.
  intros Hnd Hx HP HQ Heq. induction Hnd as [| y l Hy Hnd IH]; [by apply elem_of_nil in Hx |].
  rewrite !filter_cons. apply elem_of_cons in Hx as [<- | Hx].
  - rewrite decide_True, decide_False, zlength_cons by done. do 2 f_equal. apply filter_ext_in.
    intros z Hz. apply Heq; [by right |]. intros ->. done.
  - assert (y <> x) as Hne by (by intros ->). specialize (IH Hx ltac:(intros z Hz; apply Heq; by right)).
    pose proof (Heq y ltac:(left) Hne). destruct (decide (Q y)), (decide (P y)); try tauto; rewrite ?zlength_cons; lia.
Qed.

Definition zsize {A} `{Countable A} (X : gset A) : Z := Z.of_nat (size X).

(** ** Sums over maps *)

Definition weigh {K V} `{Countable K} (f : V -> Z) (m : gmap K V) : Z :=
  map_fold (fun _ v total => f v + total) 0 m.

Section Weigh.
Context {K V : Type} `{Countable K} (f : V -> Z).
Implicit Types (m : gmap K V).

Lemma weigh_insert m k v : m !! k = None -> weigh f (<[k := v]> m) = f v + weigh f m.
Proof.
  intros Hk. unfold weigh. rewrite map_fold_insert_L; [done | | done]. intros. lia.
Qed.

Lemma weigh_delete m k v : m !! k = Some v -> weigh f (delete k m) = weigh f m - f v.
Proof.
  intros Hk. unfold weigh. rewrite (map_fold_delete_L _ _ k v m); [lia | | done]. intros. lia.
Qed.

Lemma weigh_mono (g : V -> Z) m :
  (forall k v, m !! k = Some v -> f v <= g v) -> weigh f m <= weigh g m.
Proof.
  induction m as [| k v m Hk IH] using map_ind; intros Hle; [done |].
  unfold weigh. rewrite !map_fold_insert_L by (done || (intros; lia)). fold (weigh f m) (weigh g m).
  pose proof (Hle k v (lookup_insert_eq _ _ _)). enough (weigh f m <= weigh g m) by lia.
  apply IH. intros k' v' Hv. apply (Hle k'). rewrite lookup_insert_ne; [done |]. intros <-. congruence.
Qed.
End Weigh.

Lemma weigh_zero {K V} `{Countable K} (m : gmap K V) : weigh (fun _ => 0) m = 0.
Proof.
  induction m as [| k v m Hk IH] using map_ind; [done |]. by rewrite weigh_insert, IH.
Qed.

Lemma weigh_nonneg {K V} `{Countable K} (f : V -> Z) (m : gmap K V) :
  (forall k v, m !! k = Some v -> 0 <= f v) -> 0 <= weigh f m.
Proof. intros Hf. rewrite <- (weigh_zero m). by apply weigh_mono. Qed.

(** An entry weighs no more than the map. *)
Lemma weigh_lookup {K V} `{Countable K} (f : V -> Z) (m : gmap K V) k v :
  (forall k v, m !! k = Some v -> 0 <= f v) -> m !! k = Some v -> f v <= weigh f m.
Proof.
  intros Hf Hk. pose proof (weigh_delete f m k v Hk) as Hd.
  assert (0 <= weigh f (delete k m)); [| lia].
  apply weigh_nonneg. intros k' v' [_ Hv]%lookup_delete_Some. by apply (Hf k').
Qed.

Lemma weigh_all_zero {K V} `{Countable K} (f : V -> Z) (m : gmap K V) :
  (forall k v, m !! k = Some v -> f v = 0) -> weigh f m = 0.
Proof.
  intros Hf. apply Z.le_antisymm; rewrite <- (weigh_zero m); apply weigh_mono;
    intros k v Hv; by rewrite (Hf k v).
Qed.
