(* ===== verification/SimTime.v ===== *)
(** * Simulated time and identifier generators

    Models [include/nexuslab/sim/time.hpp] (durations, timestamps and their
    checked arithmetic), [sim/event_id.{hpp,cpp}], [topology/id.hpp] and
    [transport/types.hpp] (the three sequential identifier generators). *)

From S2P Require Import Prelude.

(** [SimDurationNs] and [SimTimeNs] wrap one [std::uint64_t] each. *)
Abbreviation SimDurationNs := Z (only parsing).
Abbreviation SimTimeNs := Z (only parsing).

Inductive SimTimeUnit : Type := Nanoseconds | Microseconds | Milliseconds | Seconds.

Definition unit_multiplier (unit : SimTimeUnit) : Z :=
  match unit with
  | Nanoseconds => 1
  | Microseconds => 1000
  | Milliseconds => 1000000
  | Seconds => 1000000000
  end.

Definition checked_duration_from (count : Z) (unit : SimTimeUnit) : option SimDurationNs :=
  let multiplier := unit_multiplier unit in
  if (multiplier =? 0) || (count >? u64_max / multiplier)
  then None
  else Some (u64_wrap (count * multiplier)).

Definition checked_add (time : SimTimeNs) (duration : SimDurationNs) : option SimTimeNs :=
  if duration >? u64_max - time then None else Some (u64_wrap (time + duration)).

Lemma checked_add_u64 t u v : checked_add t u = Some v -> u64 v.
Proof. unfold checked_add. destruct (_ >? _); [done |]. intros [= <-]. apply u64_wrap_range. Qed.

Definition checked_difference (end_ begin : SimTimeNs) : option SimDurationNs :=
  if end_ <? begin then None else Some (u64_wrap (end_ - begin)).

(** ** Checked arithmetic is exact *)

Lemma checked_add_Some t d r :
  u64 t -> u64 d -> checked_add t d = Some r <-> r = t + d /\ t + d <= u64_max.
Proof.
  intros Ht Hd. unfold checked_add. destruct (d >? u64_max - t) eqn:Hc.
  - split; [done | word_lia].
  - rewrite u64_wrap_id by word_lia. split; [intros [= <-]; word_lia | intros [-> _]; done].
Qed.

Lemma checked_add_None t d : u64 t -> checked_add t d = None <-> u64_max < t + d.
Proof.
  intros Ht. unfold checked_add. destruct (d >? u64_max - t) eqn:Hc; split; (done || word_lia).
Qed.

Lemma checked_difference_Some e b r :
  u64 e -> u64 b -> checked_difference e b = Some r <-> r = e - b /\ b <= e.
Proof.
  intros He Hb. unfold checked_difference. destruct (e <? b) eqn:Hc.
  - split; [done | lia].
  - rewrite u64_wrap_id by word_lia. split; [intros [= <-]; lia | intros [-> _]; done].
Qed.

(** The exact meaning of the three checked operations of [time.hpp]: each
    yields the mathematical result when that result fits 64 bits and nothing
    otherwise, so no timestamp ever wraps. *)
Lemma checked_duration_exact count unit :
  u64 count ->
  checked_duration_from count unit =
    if decide (count * unit_multiplier unit <= u64_max)
    then Some (count * unit_multiplier unit) else None.
Proof.
  intros Hc. unfold checked_duration_from.
  assert (0 < unit_multiplier unit) as Hm by (destruct unit; simpl; lia).
  replace (unit_multiplier unit =? 0) with false by lia.
  rewrite orb_false_l.
  pose proof (Z.div_mod u64_max (unit_multiplier unit) ltac:(lia)) as Hdm.
  pose proof (Z.mod_pos_bound u64_max (unit_multiplier unit) Hm) as Hr.
  assert (0 <= u64_max) by word_lia.
  destruct (count >? u64_max / unit_multiplier unit) eqn:Hg; case_decide as Hd.
  - exfalso. nia.
  - done.
  - rewrite u64_wrap_id; [done |]. unfold u64 in *. nia.
  - exfalso. nia.
Qed.

(** ** Sequential identifier generators

    [EventIdGenerator], [SequentialIdGenerator] and
    [SequentialTransportIdGenerator] share one representation. *)

Record IdGenerator : Type := mkIdGenerator { next_value_ : Z; exhausted_ : bool }.

Definition generator (next_value : Z) : IdGenerator := mkIdGenerator next_value false.

(** The part of [next] after its guard. *)
Definition issue (g : IdGenerator) : Z * IdGenerator :=
  (next_value_ g,
   if next_value_ g =? u64_max
   then {| g with exhausted_ := true |}
   else {| g with next_value_ := u64_wrap (next_value_ g + 1) |}).

Module EventIdGenerator.

Definition next : M IdGenerator Z := fun g =>
  if exhausted_ g
  then (g, Throw (overflow_error "event ID sequence exhausted"))
  else let '(result, g') := issue g in (g', Ret result).

End EventIdGenerator.

Module SequentialIdGenerator.

Definition next : M IdGenerator Z := fun g =>
  if exhausted_ g
  then (g, Throw (overflow_error "topology ID sequence exhausted"))
  else let '(result, g') := issue g in (g', Ret result).

End SequentialIdGenerator.

Module SequentialTransportIdGenerator.

Definition can_generate (count : Z) (g : IdGenerator) : bool :=
  if count =? 0 then true
  else if exhausted_ g then false
  else u64_wrap (count - 1) <=? u64_max - next_value_ g.

Definition next : M IdGenerator Z := fun g =>
  if negb (can_generate 1 g)
  then (g, Throw (overflow_error "transport ID sequence exhausted"))
  else let '(result, g') := issue g in (g', Ret result).

Definition advance_past (id : Z) (g : IdGenerator) : IdGenerator :=
  if exhausted_ g || (id <? next_value_ g) then g
  else if id =? u64_max then {| g with exhausted_ := true |}
  else {| g with next_value_ := u64_wrap (id + 1) |}.

End SequentialTransportIdGenerator.

(** ** What the generators promise

    [remaining] is the number of identifiers a generator can still issue. *)

Definition generator_ok (g : IdGenerator) : Prop := u64 (next_value_ g).

Definition remaining (g : IdGenerator) : Z :=
  if exhausted_ g then 0 else u64_max - next_value_ g + 1.

(** The first identifier the generator may still issue; all later ones are
    larger. *)
Definition frontier (g : IdGenerator) : Z :=
  if exhausted_ g then u64_max + 1 else next_value_ g.

(** [count] calls of a [next] function in a row. *)
Fixpoint draw_ids (next : M IdGenerator Z) (count : nat) : M IdGenerator (list Z) :=
  match count with
  | O => ret []
  | S n => let! id := next in let! ids := draw_ids next n in ret (id :: ids)
  end.

(** The contract the three [next] functions share. *)
Class SequentialIds (next : M IdGenerator Z) : Prop := {
  next_exhausted g : exhausted_ g = true ->
    exists w, next g = (g, Throw (overflow_error w));
  next_issues g : generator_ok g -> exhausted_ g = false ->
    exists g', next g = (g', Ret (next_value_ g)) /\ generator_ok g' /\
      frontier g' = next_value_ g + 1;
}.

Lemma issue_spec g :
  generator_ok g -> exhausted_ g = false ->
  fst (issue g) = next_value_ g /\ generator_ok (snd (issue g)) /\
  frontier (snd (issue g)) = next_value_ g + 1.
Proof.
  intros Hok He. unfold issue, generator_ok, frontier in *. simpl.
  destruct (next_value_ g =? u64_max) eqn:Hm; simpl.
  - split_and!; [done | done | lia].
  - rewrite He. rewrite u64_wrap_id by word_lia. split_and!; [done | word_lia | lia].
Qed.

#[global] Instance event_ids_sequential : SequentialIds EventIdGenerator.next.
Proof.
  split; intros g; unfold EventIdGenerator.next.
  - intros ->. eauto.
  - intros Hok He. rewrite He. destruct (issue_spec g Hok He) as (H1 & H2 & H3).
    destruct (issue g) as [r g']. simpl in *. subst r. exists g'. done.
Qed.

#[global] Instance topology_ids_sequential : SequentialIds SequentialIdGenerator.next.
Proof.
  split; intros g; unfold SequentialIdGenerator.next.
  - intros ->. eauto.
  - intros Hok He. rewrite He. destruct (issue_spec g Hok He) as (H1 & H2 & H3).
    destruct (issue g) as [r g']. simpl in *. subst r. exists g'. done.
Qed.

Lemma can_generate_spec count g :
  generator_ok g -> u64 count ->
  SequentialTransportIdGenerator.can_generate count g = true <-> count <= remaining g.
Proof.
  intros Hok Hc. unfold SequentialTransportIdGenerator.can_generate, remaining, generator_ok in *.
  destruct (count =? 0) eqn:H0; [destruct (exhausted_ g); word_lia |].
  destruct (exhausted_ g); [split; [done | word_lia] |].
  rewrite u64_wrap_id by word_lia. split; word_lia.
Qed.

#[global] Instance transport_ids_sequential : SequentialIds SequentialTransportIdGenerator.next.
Proof.
  split; intros g; unfold SequentialTransportIdGenerator.next.
  - intros He. unfold SequentialTransportIdGenerator.can_generate. rewrite He. simpl. eauto.
  - intros Hok He.
    assert (SequentialTransportIdGenerator.can_generate 1 g = true) as ->.
    { apply can_generate_spec; [done | word_lia |]. unfold remaining, generator_ok in *.
      rewrite He. word_lia. }
    cbn [negb]. destruct (issue_spec g Hok He) as (H1 & H2 & H3).
    destruct (issue g) as [r g']. simpl in *. subst r. exists g'. done.
Qed.

Lemma remaining_frontier g : remaining g = u64_max + 1 - frontier g.
Proof. unfold remaining, frontier. destruct (exhausted_ g); lia. Qed.

Lemma exhausted_remaining g : generator_ok g -> exhausted_ g = false -> 0 < remaining g.
Proof. unfold remaining, generator_ok. intros H ->. word_lia. Qed.

Lemma frontier_next_value g : exhausted_ g = false -> frontier g = next_value_ g.
Proof. unfold frontier. by intros ->. Qed.

Lemma frontier_u64 g : generator_ok g -> 1 <= remaining g -> u64 (frontier g).
Proof. unfold generator_ok, remaining, frontier, u64. destruct (exhausted_ g); lia. Qed.

(** Any number of draws within the remaining supply yields the consecutive
    identifiers from the frontier on. *)
Lemma draw_ids_within next `{SequentialIds next} count g :
  generator_ok g -> Z.of_nat count <= remaining g ->
  exists g', draw_ids next count g = (g', Ret (seqZ (frontier g) (Z.of_nat count))) /\
    generator_ok g' /\ frontier g' = frontier g + Z.of_nat count.
Proof.
  revert g. induction count as [| n IH]; intros g Hok Hr.
  { exists g. split_and!; [done | done | lia]. }
  assert (exhausted_ g = false) as He.
  { destruct (exhausted_ g) eqn:E; [| done]. unfold remaining in Hr. rewrite E in Hr. lia. }
  destruct (next_issues g Hok He) as (g1 & Hn & Hok1 & Hf1).
  rewrite <- (frontier_next_value g He) in Hf1, Hn.
  destruct (IH g1 Hok1) as (g2 & Hd & Hok2 & Hf2).
  { rewrite remaining_frontier in *. lia. }
  exists g2. simpl. unfold bind. rewrite Hn, Hd. simpl. split_and!; [| done | lia].
  rewrite (seqZ_cons (frontier g)) by lia. rewrite Hf1.
  replace (Z.pred (Z.of_nat (S n))) with (Z.of_nat n) by lia.
  by rewrite Z.add_1_r.
Qed.

(** A sequential generator (of events, topology entities, or transfers and
    chunks) issues exactly the consecutive identifiers from its start up to the
    largest 64-bit value, each once: [count] calls succeed precisely when that
    many identifiers remain, and then return the consecutive block. *)
Theorem draw_ids_consecutive next (Hseq : SequentialIds next) start count :
  u64 start ->
  (Z.of_nat count <= u64_max + 1 - start ->
     exists g', draw_ids next count (generator start) =
       (g', Ret (seqZ start (Z.of_nat count)))) /\
  (u64_max + 1 - start < Z.of_nat count ->
     exists g' w, draw_ids next count (generator start) = (g', Throw (overflow_error w))).
Proof.
  intros Hs. split.
  - intros Hc. destruct (draw_ids_within next count (generator start)) as (g' & Hd & _);
      [done | rewrite remaining_frontier; unfold frontier; simpl; lia |].
    exists g'. by rewrite Hd.
  - intros Hc.
    enough (forall n g, generator_ok g -> remaining g < Z.of_nat n ->
              exists g' w, draw_ids next n g = (g', Throw (overflow_error w))) as Hgen.
    { apply Hgen; [done |]. rewrite remaining_frontier. unfold frontier. simpl. lia. }
    clear start count Hs Hc. induction n as [| n IH]; intros g Hok Hr.
    { rewrite remaining_frontier in Hr. unfold frontier, generator_ok in *.
      destruct (exhausted_ g); word_lia. }
    simpl. unfold bind. destruct (exhausted_ g) eqn:He.
    + destruct (next_exhausted g He) as [w Hw]. rewrite Hw. eauto.
    + destruct (next_issues g Hok He) as (g1 & Hn & Hok1 & Hf1). rewrite Hn.
      rewrite <- (frontier_next_value g He) in Hf1.
      destruct (IH g1 Hok1) as (g' & w & Hd); [rewrite remaining_frontier in *; lia |].
      rewrite Hd. eauto.
Qed.

(** [advance_past] moves the frontier beyond the given identifier and never
    back, so identifiers registered by hand are never issued again. *)
Lemma advance_past_frontier id g :
  generator_ok g -> u64 id ->
  generator_ok (SequentialTransportIdGenerator.advance_past id g) /\
  frontier (SequentialTransportIdGenerator.advance_past id g) = Z.max (frontier g) (id + 1).
Proof.
  intros Hok Hid. unfold SequentialTransportIdGenerator.advance_past, frontier, generator_ok in *.
  destruct (exhausted_ g) eqn:He; simpl; [rewrite He; split; [done | word_lia] |].
  destruct (id <? next_value_ g) eqn:Hl; [rewrite He; split; [done | word_lia] |].
  destruct (id =? u64_max) eqn:Hm; simpl; [split; [done | word_lia] |].
  rewrite ?He, u64_wrap_id by word_lia. split; word_lia.
Qed.

Lemma next_run next (Hseq : SequentialIds next) g g' r :
  generator_ok g -> next g = (g', r) ->
  generator_ok g' /\ frontier g <= frontier g' /\
  (forall id, r = Ret id -> id = frontier g /\ frontier g' = id + 1 /\ u64 id).
Proof.
  intros Hok Hn. destruct (exhausted_ g) eqn:He.
  - destruct (next_exhausted g He) as [w Hw]. rewrite Hw in Hn. simplify_eq.
    split_and!; [done | lia | done].
  - destruct (next_issues g Hok He) as (g1 & Hn1 & Hok1 & Hf1). rewrite Hn1 in Hn. simplify_eq.
    rewrite (frontier_next_value g He). split_and!; [done | lia |].
    intros id [= <-]. split_and!; [done | lia | done].
Qed.

(** The checked time arithmetic of the simulator is exact: adding a
    duration gives a timestamp whose difference to the start is that duration,
    and it is refused exactly when the sum exceeds the 64-bit clock. *)
Lemma checked_add_difference t d :
  u64 t -> u64 d ->
  match checked_add t d with
  | Some r => r = t + d /\ u64 r /\ checked_difference r t = Some d
  | None => u64_max < t + d
  end.
Proof.
  intros Ht Hd. destruct (checked_add t d) as [r |] eqn:Ha.
  - apply checked_add_Some in Ha as [-> Hb]; [| done | done].
    split_and!; [done | word_lia |].
    apply checked_difference_Some; [word_lia | done | word_lia].
  - by apply checked_add_None in Ha.
Qed.
