(* ===== verification/Rng.v ===== *)
(** * Deterministic random numbers

    Models [sim/deterministic_rng.{hpp,cpp}].  The engine it wraps,
    [std::mt19937_64], is fully specified by the C++ standard (word size 64,
    state size 312); it is written out here so that draws evaluate. *)

From S2P Require Import Prelude.

(** ** [std::mt19937_64] *)
Module mt19937_64.

Definition state_size : nat := 312.

Definition shift_size : nat := 156.

Record engine : Type := mkEngine { words : list Z; index : nat }.

(** [x_i = f * (x_(i-1) xor (x_(i-1) >> 62)) + i mod 2^64]. *)
Fixpoint seed_words (fuel : nat) (i : Z) (previous : Z) : list Z :=
  match fuel with
  | O => []
  | S n =>
      let x := u64_wrap
        (6364136223846793005 * Z.lxor previous (Z.shiftr previous 62) + i) in
      x :: seed_words n (i + 1) x
  end.

Definition seed (value : Z) : engine :=
  let x0 := u64_wrap value in
  mkEngine (x0 :: seed_words (state_size - 1) 1 x0) state_size.

(** The recurrence: upper 33 bits of one word, lower 31 bits of the next. *)
Definition mix_words (upper lower shifted : Z) : Z :=
  let y := Z.lor (Z.land upper 0xFFFFFFFF80000000) (Z.land lower 0x7FFFFFFF) in
  Z.lxor (Z.lxor shifted (Z.shiftr y 1))
    (if Z.odd y then 0xB5026F5AA96619E9 else 0).

Fixpoint mix_all (upper lower shifted : list Z) : list Z :=
  match upper, lower, shifted with
  | u :: us, l :: ls, s :: ss => mix_words u l s :: mix_all us ls ss
  | _, _, _ => []
  end.

(** One in-place regeneration of the 312 words: the second half uses the new
    words of the first half. *)
Definition twist (x : list Z) : list Z :=
  let low := mix_all (take shift_size x) (drop 1 x) (drop shift_size x) in
  let high := mix_all (drop shift_size x) (drop (shift_size + 1) x ++ take 1 low) low in
  low ++ high.

Definition temper (z0 : Z) : Z :=
  let z1 := Z.lxor z0 (Z.land (Z.shiftr z0 29) 0x5555555555555555) in
  let z2 := Z.lxor z1 (Z.land (Z.shiftl z1 17) 0x71D67FFFEDA60000) in
  let z3 := Z.lxor z2 (Z.land (Z.shiftl z2 37) 0xFFF7EEE000000000) in
  Z.lxor z3 (Z.shiftr z3 43).

Definition draw (e : engine) : Z * engine :=
  let e1 := if decide (index e < state_size)%nat then e else mkEngine (twist (words e)) 0 in
  (temper (nth (index e1) (words e1) 0), mkEngine (words e1) (S (index e1))).

Fixpoint draws (n : nat) (e : engine) : engine :=
  match n with O => e | S k => draws k (snd (draw e)) end.

(** The check value of the standard: the 10000th draw of the default seed. *)
Example standard_check_value :
  fst (draw (draws (Z.to_nat 9999) (seed 5489))) = 9981545732273789042.
Proof. vm_compute. reflexivity. Qed.

(** Every word of the engine and every draw is a 64-bit word. *)
Definition engine_ok (e : engine) : Prop := Forall u64 (words e).

Lemma seed_words_ok n i p : Forall u64 (seed_words n i p).
Proof. revert i p. induction n; simpl; constructor; auto with nexus. Qed.

Lemma seed_ok value : engine_ok (seed value).
Proof. unfold engine_ok, seed. cbn [words]. apply Forall_cons. split; [auto with nexus | apply seed_words_ok]. Qed.

Lemma mix_words_ok u l s : u64 s -> u64 (mix_words u l s).
Proof.
  intros Hs. unfold mix_words. apply u64_lxor.
  - apply u64_lxor; [done |]. apply u64_shiftr; [| lia].
    apply u64_lor; apply u64_land_r; word_lia.
  - destruct (Z.odd _); word_lia.
Qed.

Lemma mix_all_ok us ls ss : Forall u64 ss -> Forall u64 (mix_all us ls ss).
Proof.
  intros Hss. revert us ls. induction Hss as [| s ss Hs Hss IH]; intros [| u us] [| l ls];
    simpl; constructor; auto using mix_words_ok.
Qed.

Lemma twist_ok x : Forall u64 x -> Forall u64 (twist x).
Proof.
  intros Hx. unfold twist. apply Forall_app. split; apply mix_all_ok.
  - by apply Forall_drop.
  - apply mix_all_ok. by apply Forall_drop.
Qed.

Lemma temper_ok z : u64 z -> u64 (temper z).
Proof.
  intros Hz. unfold temper.
  assert (forall a b m, u64 a -> u64 m -> u64 (Z.lxor a (Z.land b m))) as Hstep
    by auto with nexus.
  apply u64_lxor; [| apply u64_shiftr; [| lia]];
    repeat apply Hstep; (done || word_lia).
Qed.

Lemma draw_ok e : engine_ok e -> u64 (fst (draw e)) /\ engine_ok (snd (draw e)).
Proof.
  unfold engine_ok, draw. intros He.
  set (e1 := if decide _ then _ else _).
  assert (Forall u64 (words e1)) as He1.
  { subst e1. case_decide; [done |]. by apply twist_ok. }
  split; [| done]. simpl. apply temper_ok.
  destruct (decide (index e1 < length (words e1))%nat) as [Hl | Hl].
  - rewrite Forall_forall in He1. apply He1. apply list_elem_of_In. by apply nth_In.
  - rewrite nth_overflow by lia. word_lia.
Qed.

End mt19937_64.

(** ** [DeterministicRng] *)

Record DeterministicRng : Type := mkDeterministicRng {
  engine_ : mt19937_64.engine;
  draw_count_ : Z;
}.

Definition DeterministicRng_seed (seed : Z) : DeterministicRng :=
  mkDeterministicRng (mt19937_64.seed seed) 0.

Definition next_u64 (rng : DeterministicRng) : Z * DeterministicRng :=
  let '(value, e) := mt19937_64.draw (engine_ rng) in
  (value, mkDeterministicRng e (u64_wrap (draw_count_ rng + 1))).

(** [(0 - upper_exclusive) % upper_exclusive] in 64-bit arithmetic. *)
Definition rejection_threshold (upper_exclusive : Z) : Z :=
  u64_wrap (0 - upper_exclusive) mod upper_exclusive.

(** The rejection loop.  It has no bound in the source, so the model carries
    fuel; [None] is a loop still running. *)
Fixpoint uniform_loop (fuel : nat) (upper_exclusive threshold : Z) (rng : DeterministicRng)
    : option (DeterministicRng * Z) :=
  match fuel with
  | O => None
  | S n =>
      let '(value, rng') := next_u64 rng in
      if value >=? threshold then Some (rng', value mod upper_exclusive)
      else uniform_loop n upper_exclusive threshold rng'
  end.

Definition uniform_below (fuel : nat) (upper_exclusive : Z) (rng : DeterministicRng)
    : option (DeterministicRng * outcome Z) :=
  if upper_exclusive =? 0
  then Some (rng, Throw (invalid_argument "uniform_below requires a nonzero upper bound"))
  else match uniform_loop fuel upper_exclusive (rejection_threshold upper_exclusive) rng with
       | Some (rng', value) => Some (rng', Ret value)
       | None => None
       end.

(** The values [next_u64] returns one after the other. *)
Fixpoint stream (n : nat) (rng : DeterministicRng) : list Z :=
  match n with
  | O => []
  | S k => fst (next_u64 rng) :: stream k (snd (next_u64 rng))
  end.

Definition rng_ok (rng : DeterministicRng) : Prop := mt19937_64.engine_ok (engine_ rng).

Lemma next_u64_ok rng : rng_ok rng -> u64 (fst (next_u64 rng)) /\ rng_ok (snd (next_u64 rng)).
Proof.
  unfold rng_ok, next_u64. intros H. pose proof (mt19937_64.draw_ok _ H).
  destruct (mt19937_64.draw _). done.
Qed.

Lemma rejection_threshold_spec n :
  0 < n <= u64_max ->
  0 <= rejection_threshold n < n /\ (u64_modulus - rejection_threshold n) mod n = 0.
Proof.
  intros Hn. unfold rejection_threshold.
  assert (u64_wrap (0 - n) = u64_modulus - n) as ->.
  { unfold u64_wrap. replace (0 - n) with (u64_modulus - n + (-1) * u64_modulus) by lia.
    rewrite Z.mod_add by word_lia. apply Z.mod_small. word_lia. }
  split; [apply Z.mod_pos_bound; lia |].
  rewrite Zminus_mod, Zmod_mod. rewrite <- Zminus_mod.
  replace (u64_modulus - (u64_modulus - n)) with n by lia. apply Z.mod_same. lia.
Qed.

(** [uniform_below] is unbiased.  The accepted 64-bit values are those not
    below the rejection threshold; they split evenly over the residues, the
    residue [r] being hit by exactly the accepted values [threshold + q] with
    [q] in one arithmetic progression of [(2^64 - threshold) / n] terms, and
    more than half of all values are accepted. *)
Theorem uniform_below_unbiased n :
  0 < n <= u64_max ->
  let t := rejection_threshold n in
  exists blocks,
    u64_modulus - t = n * blocks /\ 0 < blocks /\ u64_modulus < 2 * (u64_modulus - t) /\
    forall r, 0 <= r < n ->
      exists first, t <= first < t + n /\
        forall v, t <= v < u64_modulus ->
          v mod n = r <-> exists k, 0 <= k < blocks /\ v = first + n * k.
Proof.
  intros Hn t. destruct (rejection_threshold_spec n Hn) as [Ht Hdiv]. fold t in Ht, Hdiv.
  apply Z.mod_divide in Hdiv as [blocks Hb]; [| lia].
  exists blocks. split; [lia |]. split; [word_lia |]. split.
  { unfold t, rejection_threshold in *. destruct (Z.le_gt_cases (2 * n) u64_modulus); [word_lia |].
    replace (u64_wrap (0 - n)) with (u64_modulus - n).
    - rewrite Z.mod_small by word_lia. word_lia.
    - unfold u64_wrap. replace (0 - n) with (u64_modulus - n + (-1) * u64_modulus) by lia.
      rewrite Z.mod_add by word_lia. symmetry. apply Z.mod_small. word_lia. }
  intros r Hr. exists (t + (r - t) mod n).
  pose proof (Z.mod_pos_bound (r - t) n ltac:(lia)) as Hm. split; [lia |].
  intros v Hv. split.
  - intros Hvr. exists ((v - t) / n).
    assert ((v - t) mod n = (r - t) mod n) as He.
    { rewrite <- Hvr. rewrite Zminus_mod_idemp_l. done. }
    pose proof (Z.div_mod (v - t) n ltac:(lia)) as Hdm. rewrite He in Hdm.
    split; [| lia]. split; [apply Z.div_pos; lia |].
    apply Z.div_lt_upper_bound; [lia |]. lia.
  - intros (k & Hk & ->). rewrite (Z.mul_comm n k), Z.mod_add by lia.
    rewrite Zplus_mod_idemp_r. replace (t + (r - t)) with r by lia. apply Z.mod_small. lia.
Qed.

(** [uniform_below] is total on engines that ever leave the rejection zone:
    with the upper bound nonzero, as soon as the fuel covers a draw that is not
    below the threshold it returns the residue of the first such draw, a value
    below the bound; zero bounds are refused without a draw. *)
Theorem uniform_below_first_accepted fuel n rng k value :
  0 < n <= u64_max ->
  stream fuel rng !! k = Some value -> rejection_threshold n <= value ->
  Forall (fun w => w < rejection_threshold n) (take k (stream fuel rng)) ->
  exists rng', uniform_below fuel n rng = Some (rng', Ret (value mod n)) /\
    0 <= value mod n < n /\
    uniform_below fuel 0 rng =
      Some (rng, Throw (invalid_argument "uniform_below requires a nonzero upper bound")).
Proof.
  intros Hn Hk Hv Hbelow. unfold uniform_below. replace (n =? 0) with false by lia.
  enough (exists rng', uniform_loop fuel n (rejection_threshold n) rng = Some (rng', value mod n))
    as [rng' ->].
  { exists rng'. split_and!; [done | apply Z.mod_pos_bound; lia .. | done]. }
  revert Hv Hbelow. generalize (rejection_threshold n) as t. intros t Hv.
  revert rng k Hk. induction fuel as [| fuel IH]; intros rng k Hk Hbelow; [done |].
  cbn [stream uniform_loop] in *. destruct (next_u64 rng) as [w rng1]. cbn [fst snd] in *.
  destruct k as [| k]; cbn in Hk, Hbelow.
  - simplify_eq. replace (value >=? t) with true by lia. eauto.
  - apply Forall_cons in Hbelow as [Hw1 Hrest].
    replace (w >=? t) with false by lia. by apply (IH rng1 k).
Qed.

