(* ===== verification/Entities.v ===== *)
(** * Shared vocabulary of the simulator

    The value types that components exchange: topology identifiers and
    entities ([topology/id.hpp], [topology/entities.{hpp,cpp}]), the payloads
    of transport, workload and collective events, and the event envelope of
    the simulation kernel ([sim/event.hpp]).  A strong identifier is its
    64-bit value.  Enumerations carry exactly the source's enumerators; the
    [_value] functions give the underlying numbers where the code uses them
    ([static_cast], comparison). *)

From S2P Require Import Prelude SimTime.

(** ** Identifiers *)

Abbreviation EventId := Z (only parsing).
Abbreviation GpuId := Z (only parsing).
Abbreviation NicId := Z (only parsing).
Abbreviation SwitchId := Z (only parsing).
Abbreviation RackId := Z (only parsing).
Abbreviation PortId := Z (only parsing).
Abbreviation LinkId := Z (only parsing).
Abbreviation JobId := Z (only parsing).
Abbreviation CollectiveId := Z (only parsing).
Abbreviation TransferId := Z (only parsing).
Abbreviation ChunkId := Z (only parsing).
Abbreviation ByteCount := Z (only parsing).
Abbreviation BitsPerSecond := Z (only parsing).

(** ** Topology entities *)

Inductive NodeKind : Type := NodeKind_Gpu | NodeKind_Nic | NodeKind_Switch.

Definition NodeKind_value (k : NodeKind) : Z :=
  match k with NodeKind_Gpu => 1 | NodeKind_Nic => 2 | NodeKind_Switch => 3 end.

Inductive SwitchRole : Type := Leaf | Spine.

Inductive PortRole : Type := Local | FabricDownlink | FabricUplink.

Inductive LinkKind : Type := LocalAttachment | Fabric.

Inductive OperationalState : Type := Up | Down.

Inductive LinkDirection : Type := AToB | BToA.

Definition LinkDirection_value (d : LinkDirection) : Z :=
  match d with AToB => 1 | BToA => 2 end.

Record NodeId : Type := mkNodeId { node_kind : NodeKind; node_value : Z }.

Definition gpu_node (id : GpuId) : NodeId := mkNodeId NodeKind_Gpu id.

Definition nic_node (id : NicId) : NodeId := mkNodeId NodeKind_Nic id.

Definition switch_node (id : SwitchId) : NodeId := mkNodeId NodeKind_Switch id.

Record GpuWorker : Type := mkGpuWorker {
  gpu_id : GpuId;
  gpu_rack : RackId;
  gpu_attached_nic : NicId;
  gpu_port : PortId;
}.

Record Nic : Type := mkNic {
  nic_id : NicId;
  nic_rack : RackId;
  nic_attached_gpus : list GpuId;
  nic_ports : list PortId;
}.

Record Switch : Type := mkSwitch {
  switch_id : SwitchId;
  switch_rack : option RackId;
  switch_role : SwitchRole;
  switch_ports : list PortId;
  switch_state : OperationalState;
}.

Record Rack : Type := mkRack {
  rack_id : RackId;
  rack_gpus : list GpuId;
  rack_nics : list NicId;
  rack_leaf_switches : list SwitchId;
}.

Record Port : Type := mkPort {
  port_id : PortId;
  port_owner : NodeId;
  port_role : PortRole;
  port_state : OperationalState;
}.

Record PhysicalLink : Type := mkPhysicalLink {
  link_id : LinkId;
  link_endpoint_a : PortId;
  link_endpoint_b : PortId;
  link_kind : LinkKind;
  link_state : OperationalState;
}.

Record DirectedLinkId : Type := mkDirectedLinkId {
  dl_link : LinkId;
  dl_direction : LinkDirection;
}.

Record DirectedLink : Type := mkDirectedLink {
  arc_id : DirectedLinkId;
  arc_source : PortId;
  arc_destination : PortId;
}.

(** The two arcs of a physical link, A to B first. *)
Definition directed_links (link : PhysicalLink) : DirectedLink * DirectedLink :=
  (mkDirectedLink (mkDirectedLinkId (link_id link) AToB)
     (link_endpoint_a link) (link_endpoint_b link),
   mkDirectedLink (mkDirectedLinkId (link_id link) BToA)
     (link_endpoint_b link) (link_endpoint_a link)).

#[global] Instance NodeKind_eq_dec : EqDecision NodeKind.
Proof. solve_decision. Defined.

#[global] Instance SwitchRole_eq_dec : EqDecision SwitchRole.
Proof. solve_decision. Defined.

#[global] Instance PortRole_eq_dec : EqDecision PortRole.
Proof. solve_decision. Defined.

#[global] Instance LinkKind_eq_dec : EqDecision LinkKind.
Proof. solve_decision. Defined.

#[global] Instance OperationalState_eq_dec : EqDecision OperationalState.
Proof. solve_decision. Defined.

#[global] Instance LinkDirection_eq_dec : EqDecision LinkDirection.
Proof. solve_decision. Defined.

#[global] Instance NodeId_eq_dec : EqDecision NodeId.
Proof. solve_decision. Defined.

#[global] Instance DirectedLinkId_eq_dec : EqDecision DirectedLinkId.
Proof. solve_decision. Defined.

#[global] Instance DirectedLink_eq_dec : EqDecision DirectedLink.
Proof. solve_decision. Defined.

#[global] Instance NodeKind_countable : Countable NodeKind.
Proof.
  refine (inj_countable' NodeKind_value
    (fun z => if decide (z = 1) then NodeKind_Gpu
              else if decide (z = 2) then NodeKind_Nic else NodeKind_Switch) _).
  by intros [].
Defined.

#[global] Instance NodeId_countable : Countable NodeId.
Proof.
  refine (inj_countable' (fun n => (node_kind n, node_value n))
    (fun p => mkNodeId (fst p) (snd p)) _).
  by intros [].
Defined.

#[global] Instance LinkDirection_countable : Countable LinkDirection.
Proof.
  refine (inj_countable' (fun d => match d with AToB => false | BToA => true end)
    (fun b : bool => if b then BToA else AToB) _).
  by intros [].
Defined.

#[global] Instance DirectedLinkId_countable : Countable DirectedLinkId.
Proof.
  refine (inj_countable' (fun d => (dl_link d, dl_direction d))
    (fun p => mkDirectedLinkId (fst p) (snd p)) _).
  by intros [].
Defined.

(** The order [std::map] uses on directed links: the defaulted [<=>]. *)
Definition DirectedLinkId_le (x y : DirectedLinkId) : Prop :=
  dl_link x < dl_link y \/
  dl_link x = dl_link y /\
    LinkDirection_value (dl_direction x) <= LinkDirection_value (dl_direction y).

#[global] Instance DirectedLinkId_le_dec : RelDecision DirectedLinkId_le.
Proof. intros x y. unfold DirectedLinkId_le. apply _. Defined.

#[global] Instance DirectedLinkId_le_total : Total DirectedLinkId_le.
Proof. intros x y. unfold DirectedLinkId_le. lia. Qed.

#[global] Instance DirectedLinkId_le_trans : Transitive DirectedLinkId_le.
Proof. intros x y z. unfold DirectedLinkId_le. lia. Qed.

(** ** Event payloads *)

Record ChunkArrivalEvent : Type := mkChunkArrivalEvent {
  ca_chunk : ChunkId;
  ca_hop_index : Z;
}.

Record TransmissionCompleteEvent : Type := mkTransmissionCompleteEvent {
  tc_link : LinkId;
  tc_chunk : ChunkId;
  tc_hop_index : Z;
  tc_direction : LinkDirection;
}.

Record LinkStateChangeEvent : Type := mkLinkStateChangeEvent {
  lsc_link : LinkId;
  lsc_state : OperationalState;
}.

Record PortStateChangeEvent : Type := mkPortStateChangeEvent {
  psc_port : PortId;
  psc_state : OperationalState;
}.

Record SwitchStateChangeEvent : Type := mkSwitchStateChangeEvent {
  ssc_network_switch : SwitchId;
  ssc_state : OperationalState;
}.

Inductive WorkloadEventKind : Type :=
  Arrival | ComputeReady | Cancel | WorkerFailure | GpuDown | GpuUp.

Record WorkloadEvent : Type := mkWorkloadEvent {
  we_job : JobId;
  we_kind : WorkloadEventKind;
  we_worker : Z;
  we_step : Z;
  we_bucket : Z;
}.

Inductive Phase : Type :=
  ReduceScatter | AllGather | Phase_Succeeded | Phase_Failed | Phase_Cancelled.

Record LocalCompletionEvent : Type := mkLocalCompletionEvent {
  lc_collective : CollectiveId;
  lc_round : Z;
  lc_rank : Z;
  lc_phase : Phase;
}.

(** ** The event envelope *)

Inductive EventPriority : Type := Critical | Control | Normal | Background.

Definition EventPriority_value (p : EventPriority) : Z :=
  match p with Critical => 0 | Control => 64 | Normal => 128 | Background => 192 end.

Inductive EventPayload : Type :=
  | NoOpEvent (token : Z)
  | ChunkArrival_ (e : ChunkArrivalEvent)
  | TransmissionComplete_ (e : TransmissionCompleteEvent)
  | LinkStateChange_ (e : LinkStateChangeEvent)
  | PortStateChange_ (e : PortStateChangeEvent)
  | SwitchStateChange_ (e : SwitchStateChangeEvent)
  | Workload_ (e : WorkloadEvent)
  | LocalCompletion_ (e : LocalCompletionEvent).

Record EventSpec : Type := mkEventSpec {
  spec_timestamp : SimTimeNs;
  spec_priority : EventPriority;
  spec_payload : EventPayload;
}.

Record Event : Type := mkEvent {
  ev_timestamp : SimTimeNs;
  ev_priority : EventPriority;
  ev_id : EventId;
  ev_cause : option EventId;
  ev_payload : EventPayload;
}.

#[global] Instance WorkloadEventKind_eq_dec : EqDecision WorkloadEventKind.
Proof. solve_decision. Defined.

#[global] Instance Phase_eq_dec : EqDecision Phase.
Proof. solve_decision. Defined.

#[global] Instance EventPriority_eq_dec : EqDecision EventPriority.
Proof. solve_decision. Defined.

#[global] Instance LocalCompletionEvent_eq_dec : EqDecision LocalCompletionEvent.
Proof. solve_decision. Defined.

#[global] Instance WorkloadEvent_eq_dec : EqDecision WorkloadEvent.
Proof. solve_decision. Defined.
