(* ===== verification/TelemetryRecords.v ===== *)
(** * Telemetry observations and the session interface

    The observation vocabulary of [telemetry/records.hpp] and the metric
    identifiers and labels of [telemetry/metrics.hpp], with the interface the
    instrumented components use: a [TelemetrySink] is either detached (the
    default-constructed sink) or bound to the one session of the run. *)

From S2P Require Import Prelude SimTime Entities.

(** ** Metrics *)

Inductive MetricLabel : Type :=
  | MetricLabel_Job | MetricLabel_Collective | MetricLabel_Link | MetricLabel_Direction
  | MetricLabel_Policy | MetricLabel_Outcome | MetricLabel_Reason | MetricLabel_Failure
  | MetricLabel_Resource.

Definition MetricLabel_value (l : MetricLabel) : Z :=
  match l with
  | MetricLabel_Job => 1 | MetricLabel_Collective => 2 | MetricLabel_Link => 3
  | MetricLabel_Direction => 4 | MetricLabel_Policy => 5 | MetricLabel_Outcome => 6
  | MetricLabel_Reason => 7 | MetricLabel_Failure => 8 | MetricLabel_Resource => 9
  end.

Record MetricLabelValue : Type := mkMetricLabelValue {
  mlv_label : MetricLabel;
  mlv_value : Z;
}.

(** The stored labels, sorted by the defaulted [<=>]. *)
Abbreviation MetricLabels := (list MetricLabelValue) (only parsing).

Definition MetricLabelValue_le (x y : MetricLabelValue) : Prop :=
  MetricLabel_value (mlv_label x) < MetricLabel_value (mlv_label y) \/
  MetricLabel_value (mlv_label x) = MetricLabel_value (mlv_label y) /\
    mlv_value x <= mlv_value y.

#[global] Instance MetricLabelValue_le_dec : RelDecision MetricLabelValue_le.
Proof. intros x y. unfold MetricLabelValue_le. apply _. Defined.

#[global] Instance MetricLabel_eq_dec : EqDecision MetricLabel.
Proof. solve_decision. Defined.

(** [std::adjacent_find] on equal labels. *)
Fixpoint adjacent_duplicate (l : list MetricLabelValue) : bool :=
  match l with
  | x :: ((y :: _) as rest) =>
      bool_decide (mlv_label x = mlv_label y) || adjacent_duplicate rest
  | _ => false
  end.

Definition MetricLabels_maximum_size : Z := 4.

(** The constructor from an initializer list; every [MetricLabel] enumerator
    has a nonzero mask, so the unknown-label branch has no enumerator. *)
Definition make_labels (values : list MetricLabelValue) : outcome MetricLabels :=
  if zlength values >? MetricLabels_maximum_size
  then Throw (length_error "telemetry metric label limit exceeded")
  else
    let sorted := merge_sort MetricLabelValue_le values in
    if adjacent_duplicate sorted
    then Throw (invalid_argument "duplicate telemetry metric label")
    else Ret sorted.

(** The values of the enumeration [MetricPolicy]. *)
Inductive MetricPolicy : Type :=
  | MetricPolicy_Ecmp | MetricPolicy_ShortestPath | MetricPolicy_LeastLoaded
  | MetricPolicy_QueueAware | MetricPolicy_FirstFit | MetricPolicy_Random
  | MetricPolicy_RackLocal | MetricPolicy_Compact | MetricPolicy_Extension.

Definition MetricPolicy_value (p : MetricPolicy) : Z :=
  match p with
  | MetricPolicy_Ecmp => 1 | MetricPolicy_ShortestPath => 2 | MetricPolicy_LeastLoaded => 3
  | MetricPolicy_QueueAware => 4 | MetricPolicy_FirstFit => 10 | MetricPolicy_Random => 11
  | MetricPolicy_RackLocal => 12 | MetricPolicy_Compact => 13 | MetricPolicy_Extension => 1000
  end.

Definition policy_label_value (policy : string) : Z :=
  MetricPolicy_value
    (if bool_decide (policy = "ecmp"%string) then MetricPolicy_Ecmp else
     if bool_decide (policy = "shortest-path"%string) then MetricPolicy_ShortestPath else
     if bool_decide (policy = "least-loaded"%string) then MetricPolicy_LeastLoaded else
     if bool_decide (policy = "queue-aware"%string) then MetricPolicy_QueueAware else
     if bool_decide (policy = "first-fit"%string) then MetricPolicy_FirstFit else
     if bool_decide (policy = "random"%string) then MetricPolicy_Random else
     if bool_decide (policy = "rack-local"%string) then MetricPolicy_RackLocal else
     if bool_decide (policy = "compact"%string) then MetricPolicy_Compact else
     MetricPolicy_Extension).

Inductive MetricId : Type :=
  | SimulationDispatchedEvents | SimulationCancelledEvents | SimulationFinalTimeNs
  | SimulationRngDraws | SimulationTerminalTotal
  | JobCompletionTimeNs | JobSchedulingWaitNs | JobComputeGpuNs | JobCommunicationNs
  | JobSynchronizationWaitNs | JobStragglerDelayNs | JobGpuIdleNs | JobCompletedSteps
  | JobTerminalTotal
  | CollectiveDurationNs | CollectivePlannedBytes | CollectiveIssuedFabricBytes
  | CollectiveIssuedLocalBytes | CollectiveDeliveredBytes
  | LinkAcceptedBytes | LinkAcceptedChunks | LinkSerializedBytes | LinkSerializedChunks
  | LinkMarkedBytes | LinkMarkedChunks | LinkDroppedBufferFullBytes
  | LinkDroppedBufferFullChunks | LinkDroppedDownBytes | LinkDroppedDownChunks
  | LinkQueueWaitingBytes | LinkQueueWaitingChunks | LinkMaximumWaitingBytes
  | LinkSerializerBusyNs | LinkUtilizationPpm
  | TransferTerminalTotal
  | RoutingDecisionTotal | PlacementDecisionTotal | PlacementCrossRackRingEdges
  | PlacementRackCount | PlacementNicCount
  | FailureStateTransitionTotal | FailureAffectedJobs | FailureAffectedTrafficBytes
  | FailureDetectionTimeNs | FailureRecoveryTimeNs.

(** ** Correlations and observations *)

Record Correlation : Type := mkCorrelation {
  corr_gpu : option GpuId;
  corr_nic : option NicId;
  corr_switch_entity : option SwitchId;
  corr_port : option PortId;
  corr_rack : option RackId;
  corr_link : option DirectedLinkId;
  corr_event : option EventId;
  corr_cause : option EventId;
  corr_job : option JobId;
  corr_collective : option CollectiveId;
  corr_transfer : option TransferId;
  corr_chunk : option ChunkId;
  corr_routing_decision : option Z;
  corr_placement_decision : option Z;
  corr_failure : option Z;
}.

Definition no_correlation : Correlation :=
  mkCorrelation None None None None None None None None None None None None None None None.

Definition has_value {A} (o : option A) : bool := bool_decide (is_Some o).

Definition correlation_edge_count (c : Correlation) : Z :=
  Z.b2z (has_value (corr_gpu c)) + Z.b2z (has_value (corr_nic c)) +
  Z.b2z (has_value (corr_switch_entity c)) + Z.b2z (has_value (corr_port c)) +
  Z.b2z (has_value (corr_rack c)) + Z.b2z (has_value (corr_link c)) +
  Z.b2z (has_value (corr_event c)) + Z.b2z (has_value (corr_cause c)) +
  Z.b2z (has_value (corr_job c)) + Z.b2z (has_value (corr_collective c)) +
  Z.b2z (has_value (corr_transfer c)) + Z.b2z (has_value (corr_chunk c)) +
  Z.b2z (has_value (corr_routing_decision c)) +
  Z.b2z (has_value (corr_placement_decision c)) +
  Z.b2z (has_value (corr_failure c)).

Inductive SimulationTransition : Type :=
  | SimulationTransition_RunStarted | SimulationTransition_EventScheduled
  | SimulationTransition_EventDispatched | SimulationTransition_EventCancelled
  | SimulationTransition_StopRequested | SimulationTransition_RunSucceeded
  | SimulationTransition_RunFailed | SimulationTransition_RunStopped.

Inductive JobTransition : Type :=
  | JobTransition_Arrived | JobTransition_Waiting | JobTransition_Admitted
  | JobTransition_ComputeStarted | JobTransition_ComputeCompleted
  | JobTransition_CollectiveStarted | JobTransition_CollectiveCompleted
  | JobTransition_StepCompleted | JobTransition_Succeeded | JobTransition_Failed
  | JobTransition_Cancelled | JobTransition_SynchronizationStarted
  | JobTransition_StragglerStarted.

Inductive CollectiveTransition : Type :=
  | CollectiveTransition_Submitted | CollectiveTransition_PhaseStarted
  | CollectiveTransition_RoundStarted | CollectiveTransition_RoundCompleted
  | CollectiveTransition_TransferIssued | CollectiveTransition_Succeeded
  | CollectiveTransition_Failed | CollectiveTransition_Cancelled.

Inductive TransferTransition : Type :=
  | TransferTransition_Submitted | TransferTransition_ChunkQueued
  | TransferTransition_ChunkServiceStarted | TransferTransition_ChunkSerialized
  | TransferTransition_ChunkDelivered | TransferTransition_ChunkDropped
  | TransferTransition_Succeeded | TransferTransition_Failed.

Inductive TransferReason : Type :=
  TransferReason_None | TransferReason_BufferFull | TransferReason_ResourceDown.

Inductive QueueTransition : Type :=
  | QueueTransition_Enqueued | QueueTransition_ServiceStarted
  | QueueTransition_ServiceCompleted | QueueTransition_Marked | QueueTransition_Dropped.

Inductive RoutingDecisionOutcome : Type :=
  | RoutingDecisionOutcome_Selected | RoutingDecisionOutcome_NoRoute
  | RoutingDecisionOutcome_Rejected.

Definition RoutingDecisionOutcome_value (o : RoutingDecisionOutcome) : Z :=
  match o with
  | RoutingDecisionOutcome_Selected => 1 | RoutingDecisionOutcome_NoRoute => 2
  | RoutingDecisionOutcome_Rejected => 3
  end.

Inductive PlacementDecisionOutcome : Type :=
  | PlacementDecisionOutcome_Placed | PlacementDecisionOutcome_Waiting
  | PlacementDecisionOutcome_Rejected.

Record RoutingDecisionObservation : Type := mkRoutingDecisionObservation {
  rdo_decision : Z;
  rdo_policy : string;
  rdo_policy_version : Z;
  rdo_operational_revision : Z;
  rdo_candidate_count : Z;
  rdo_selected_path : list DirectedLinkId;
  rdo_score : Z;
  rdo_reason : string;
  rdo_transfer : option TransferId;
  rdo_outcome : RoutingDecisionOutcome;
}.

Record PlacementDecisionObservation : Type := mkPlacementDecisionObservation {
  pdo_decision : Z;
  pdo_policy : string;
  pdo_policy_version : Z;
  pdo_priority : Z;
  pdo_requested_workers : Z;
  pdo_selected_workers : list GpuId;
  pdo_rack_count : Z;
  pdo_nic_count : Z;
  pdo_cross_rack_ring_edges : Z;
  pdo_reason : string;
  pdo_outcome : PlacementDecisionOutcome;
}.

Inductive FailureTransition : Type :=
  | FailureTransition_Scheduled | FailureTransition_Detected | FailureTransition_Applied
  | FailureTransition_RecoveryStarted | FailureTransition_Recovered.

Inductive FailureResourceKind : Type :=
  | FailureResourceKind_Link | FailureResourceKind_Port | FailureResourceKind_Switch
  | FailureResourceKind_Gpu | FailureResourceKind_Nic.

Inductive TelemetryObservation : Type :=
  | CounterObservation (metric : MetricId) (labels : MetricLabels) (amount : Z)
  | GaugeObservation (metric : MetricId) (labels : MetricLabels) (value : Z)
  | HistogramObservation (metric : MetricId) (labels : MetricLabels) (value : Z)
  | SimulationObservation (transition : SimulationTransition) (pending_events : Z)
  | JobObservation (transition : JobTransition) (step bucket worker allocated_workers : Z)
  | CollectiveObservation (transition : CollectiveTransition) (phase : Phase) (round bytes : Z)
  | TransferObservation (transition : TransferTransition) (bytes hop : Z) (reason : TransferReason)
  | QueueObservation (transition : QueueTransition)
      (chunk_bytes waiting_bytes waiting_chunks : Z)
  | RoutingDecisionObservation_ (o : RoutingDecisionObservation)
  | PlacementDecisionObservation_ (o : PlacementDecisionObservation)
  | FailureObservation (failure : Z) (transition : FailureTransition)
      (resource_kind : FailureResourceKind) (resource_id affected_bytes : Z).

Inductive TelemetryRecordKind : Type :=
  | TelemetryRecordKind_Counter | TelemetryRecordKind_Gauge | TelemetryRecordKind_Histogram | TelemetryRecordKind_Simulation
  | TelemetryRecordKind_Job | TelemetryRecordKind_Collective | TelemetryRecordKind_Transfer | TelemetryRecordKind_Queue
  | TelemetryRecordKind_Failure | TelemetryRecordKind_RoutingDecision | TelemetryRecordKind_PlacementDecision.

Definition record_kind (o : TelemetryObservation) : TelemetryRecordKind :=
  match o with
  | CounterObservation _ _ _ => TelemetryRecordKind_Counter
  | GaugeObservation _ _ _ => TelemetryRecordKind_Gauge
  | HistogramObservation _ _ _ => TelemetryRecordKind_Histogram
  | SimulationObservation _ _ => TelemetryRecordKind_Simulation
  | JobObservation _ _ _ _ _ => TelemetryRecordKind_Job
  | CollectiveObservation _ _ _ _ => TelemetryRecordKind_Collective
  | TransferObservation _ _ _ _ => TelemetryRecordKind_Transfer
  | QueueObservation _ _ _ _ => TelemetryRecordKind_Queue
  | RoutingDecisionObservation_ _ => TelemetryRecordKind_RoutingDecision
  | PlacementDecisionObservation_ _ => TelemetryRecordKind_PlacementDecision
  | FailureObservation _ _ _ _ _ => TelemetryRecordKind_Failure
  end.

Definition is_decision_observation (o : TelemetryObservation) : bool :=
  match o with
  | RoutingDecisionObservation_ _ | PlacementDecisionObservation_ _ => true
  | _ => false
  end.

Definition is_metric_observation (o : TelemetryObservation) : bool :=
  match o with
  | CounterObservation _ _ _ | GaugeObservation _ _ _ | HistogramObservation _ _ _ => true
  | _ => false
  end.

(** ** The session interface

    What instrumented components rely on: whether the session is enabled is
    fixed, and recording may update it or throw. *)

Class TelemetrySession (T : Type) : Type := {
  session_enabled : T -> bool;
  session_record : SimTimeNs -> Correlation -> TelemetryObservation -> M T unit;
}.

Class TelemetrySessionLaws (T : Type) `{TelemetrySession T} : Prop := {
  session_record_enabled ts corr obs t :
    session_enabled (fst (session_record ts corr obs t)) = session_enabled t;
}.

(** [TelemetrySink]: [true] when bound to the session. *)
Abbreviation TelemetrySink := bool (only parsing).

Definition sink_enabled {T} `{TelemetrySession T} (sink : TelemetrySink) (t : T) : bool :=
  sink && session_enabled t.

Definition sink_record {T} `{TelemetrySession T} (sink : TelemetrySink)
    (ts : SimTimeNs) (corr : Correlation) (obs : TelemetryObservation) : M T unit :=
  fun t => if sink_enabled sink t then session_record ts corr obs t else (t, Ret tt).

(** The session of a run without telemetry: no sink is ever bound to it. *)
#[global] Instance unit_session : TelemetrySession unit := {
  session_enabled := fun _ => false;
  session_record := fun _ _ _ => ret tt;
}.

#[global] Instance unit_session_laws : TelemetrySessionLaws unit.
Proof. split. by intros ts corr obs []. Qed.
