(* ===== verification/TelemetryMetrics.v ===== *)
(** * Metrics

    Models [telemetry/metrics.{hpp,cpp}]: the configuration of a session, the
    catalogue of metrics and the registry of metric series.  A [std::map] is the
    list of its entries in the order of their keys. *)

From S2P Require Import Prelude SimTime Entities TelemetryRecords.

(** Sequencing of computations without a state. *)
Definition obind {A B} (o : outcome A) (k : A -> outcome B) : outcome B :=
  match o with Ret a => k a | Throw e => Throw e end.

Notation "'try!' x ':=' o 'in' k" := (obind o (fun x => k))
  (at level 10, x pattern, o at level 100, k at level 200) : nexus_scope.

Definition require (b : bool) (e : exn) : outcome unit := if b then Ret tt else Throw e.

(** ** Modes and limits *)

Inductive TelemetryMode : Type := TelemetryMode_Off | TelemetryMode_Summary | TelemetryMode_Sampled | TelemetryMode_Full.

#[global] Instance TelemetryMode_eq_dec : EqDecision TelemetryMode.
Proof. solve_decision. Defined.

Definition mode_name (mode : TelemetryMode) : string :=
  match mode with
  | TelemetryMode_Off => "off" | TelemetryMode_Summary => "summary"
  | TelemetryMode_Sampled => "sampled" | TelemetryMode_Full => "full"
  end.

Definition parse_mode (mode : string) : outcome TelemetryMode :=
  if bool_decide (mode = "off"%string) then Ret TelemetryMode_Off else
  if bool_decide (mode = "summary"%string) then Ret TelemetryMode_Summary else
  if bool_decide (mode = "sampled"%string) then Ret TelemetryMode_Sampled else
  if bool_decide (mode = "full"%string) then Ret TelemetryMode_Full else
  Throw (invalid_argument "unknown telemetry mode").

Record TelemetryLimits : Type := mkTelemetryLimits {
  tl_metric_series : Z;
  tl_decision_records : Z;
  tl_domain_records : Z;
  tl_samples : Z;
  tl_histogram_boundaries : Z;
  tl_correlation_edges : Z;
  tl_serialized_bytes : Z;
}.

Definition default_limits : TelemetryLimits := mkTelemetryLimits 100000 100000 1000000 1000000 64 4000000 1073741824.

Record TelemetryConfiguration : Type := mkTelemetryConfiguration {
  tc_mode : TelemetryMode;
  tc_sample_interval_ns : Z;
  tc_limits : TelemetryLimits;
}.

(** ** The catalogue *)

Inductive MetricKind : Type := MetricKind_Counter | MetricKind_Gauge | MetricKind_Histogram | MetricKind_DerivedSummary.

#[global] Instance MetricKind_eq_dec : EqDecision MetricKind.
Proof. solve_decision. Defined.

Inductive MetricUnit : Type :=
  | MetricUnit_Count | MetricUnit_Bytes | MetricUnit_Chunks | MetricUnit_Nanoseconds | MetricUnit_BitsPerSecond
  | MetricUnit_RatioPartsPerMillion.

Definition kind_name (kind : MetricKind) : string :=
  match kind with
  | MetricKind_Counter => "counter" | MetricKind_Gauge => "gauge" | MetricKind_Histogram => "histogram"
  | MetricKind_DerivedSummary => "derived_summary"
  end.

Definition unit_name (unit : MetricUnit) : string :=
  match unit with
  | MetricUnit_Count => "count" | MetricUnit_Bytes => "bytes" | MetricUnit_Chunks => "chunks"
  | MetricUnit_Nanoseconds => "nanoseconds" | MetricUnit_BitsPerSecond => "bits_per_second"
  | MetricUnit_RatioPartsPerMillion => "ratio_parts_per_million"
  end.

(** [MetricLabelMask{1} << (value - 1)] in 32 bits. *)
Definition label_mask (label : MetricLabel) : Z := Z.shiftl 1 (MetricLabel_value label - 1).

Definition labels_mask (labels : MetricLabels) : Z :=
  fold_left (fun result value => Z.lor result (label_mask (mlv_label value))) labels 0.

Definition MetricId_value (id : MetricId) : Z :=
  match id with
  | SimulationDispatchedEvents => 1 | SimulationCancelledEvents => 2 | SimulationFinalTimeNs => 3
  | SimulationRngDraws => 4 | SimulationTerminalTotal => 5 | JobCompletionTimeNs => 10
  | JobSchedulingWaitNs => 11 | JobComputeGpuNs => 12 | JobCommunicationNs => 13
  | JobSynchronizationWaitNs => 14 | JobStragglerDelayNs => 15 | JobGpuIdleNs => 16
  | JobCompletedSteps => 17 | JobTerminalTotal => 18 | CollectiveDurationNs => 30
  | CollectivePlannedBytes => 31 | CollectiveIssuedFabricBytes => 32
  | CollectiveIssuedLocalBytes => 33 | CollectiveDeliveredBytes => 34 | LinkAcceptedBytes => 50
  | LinkAcceptedChunks => 51 | LinkSerializedBytes => 52 | LinkSerializedChunks => 53
  | LinkMarkedBytes => 54 | LinkMarkedChunks => 55 | LinkDroppedBufferFullBytes => 56
  | LinkDroppedBufferFullChunks => 57 | LinkDroppedDownBytes => 58 | LinkDroppedDownChunks => 59
  | LinkQueueWaitingBytes => 60 | LinkQueueWaitingChunks => 61 | LinkMaximumWaitingBytes => 62
  | LinkSerializerBusyNs => 63 | LinkUtilizationPpm => 64 | TransferTerminalTotal => 70
  | RoutingDecisionTotal => 80 | PlacementDecisionTotal => 81 | PlacementCrossRackRingEdges => 82
  | PlacementRackCount => 83 | PlacementNicCount => 84 | FailureStateTransitionTotal => 100
  | FailureAffectedJobs => 101 | FailureAffectedTrafficBytes => 102 | FailureDetectionTimeNs => 103
  | FailureRecoveryTimeNs => 104
  end.

Definition metric_ids : list MetricId :=
  [SimulationDispatchedEvents; SimulationCancelledEvents; SimulationFinalTimeNs; SimulationRngDraws;
   SimulationTerminalTotal; JobCompletionTimeNs; JobSchedulingWaitNs; JobComputeGpuNs;
   JobCommunicationNs; JobSynchronizationWaitNs; JobStragglerDelayNs; JobGpuIdleNs; JobCompletedSteps;
   JobTerminalTotal; CollectiveDurationNs; CollectivePlannedBytes; CollectiveIssuedFabricBytes;
   CollectiveIssuedLocalBytes; CollectiveDeliveredBytes; LinkAcceptedBytes; LinkAcceptedChunks;
   LinkSerializedBytes; LinkSerializedChunks; LinkMarkedBytes; LinkMarkedChunks;
   LinkDroppedBufferFullBytes; LinkDroppedBufferFullChunks; LinkDroppedDownBytes;
   LinkDroppedDownChunks; LinkQueueWaitingBytes; LinkQueueWaitingChunks; LinkMaximumWaitingBytes;
   LinkSerializerBusyNs; LinkUtilizationPpm; TransferTerminalTotal; RoutingDecisionTotal;
   PlacementDecisionTotal; PlacementCrossRackRingEdges; PlacementRackCount; PlacementNicCount;
   FailureStateTransitionTotal; FailureAffectedJobs; FailureAffectedTrafficBytes;
   FailureDetectionTimeNs; FailureRecoveryTimeNs].

Definition MetricId_of (value : Z) : option MetricId := head (filter (fun id => MetricId_value id = value) metric_ids).

#[global] Instance MetricId_value_inj : Inj (=) (=) MetricId_value.
Proof.
  assert (forall id, MetricId_of (MetricId_value id) = Some id) as Hid by (intros []; vm_compute; done).
  intros x y Hxy. pose proof (Hid x) as Hx. rewrite Hxy, Hid in Hx. by injection Hx.
Qed.

#[global] Instance MetricId_eq_dec : EqDecision MetricId.
Proof.
  intros x y. destruct (decide (MetricId_value x = MetricId_value y)) as [He | He]; [left; by apply MetricId_value_inj | right; congruence].
Defined.

Record MetricDefinition : Type := mkMetricDefinition {
  md_name : string;
  md_description : string;
  md_histogram_boundaries : list Z;
  md_required_labels : Z;
  md_allowed_labels : Z;
  md_id : MetricId;
  md_kind : MetricKind;
  md_unit : MetricUnit;
}.

Definition outcome_label : Z := label_mask MetricLabel_Outcome.
Definition link_labels : Z := Z.lor (label_mask MetricLabel_Link) (label_mask MetricLabel_Direction).
Definition policy_outcome_labels : Z := Z.lor (label_mask MetricLabel_Policy) (label_mask MetricLabel_Outcome).
Definition failure_labels : Z := Z.lor (label_mask MetricLabel_Failure) (label_mask MetricLabel_Resource).

Definition latency_boundaries : list Z :=
  [1000; 10000; 100000; 1000000; 10000000; 100000000; 1000000000; 10000000000; 60000000000].

Definition count_boundaries : list Z := [0; 1; 2; 4; 8; 16; 32; 64; 128; 256; 512; 1024; 2048; 8192].

Definition definitions : list MetricDefinition :=
  [mkMetricDefinition "simulation_dispatched_events_total"
     "Events dispatched by the simulation kernel" [] 0 0 SimulationDispatchedEvents MetricKind_Counter MetricUnit_Count;
   mkMetricDefinition "simulation_cancelled_events_total"
     "Events cancelled by the simulation kernel" [] 0 0 SimulationCancelledEvents MetricKind_Counter MetricUnit_Count;
   mkMetricDefinition "simulation_final_time_ns"
     "Final simulated timestamp" [] 0 0 SimulationFinalTimeNs MetricKind_Gauge MetricUnit_Nanoseconds;
   mkMetricDefinition "simulation_rng_draws_total"
     "Deterministic random-number draws" [] 0 0 SimulationRngDraws MetricKind_Counter MetricUnit_Count;
   mkMetricDefinition "simulation_terminal_total"
     "Terminal simulation outcomes" [] outcome_label outcome_label SimulationTerminalTotal MetricKind_Counter MetricUnit_Count;
   mkMetricDefinition "job_completion_time_ns"
     "Terminal job elapsed time" latency_boundaries 0 0 JobCompletionTimeNs MetricKind_Histogram MetricUnit_Nanoseconds;
   mkMetricDefinition "job_scheduling_wait_ns"
     "Arrival-to-allocation scheduling wait" latency_boundaries 0 0 JobSchedulingWaitNs MetricKind_Histogram MetricUnit_Nanoseconds;
   mkMetricDefinition "job_compute_gpu_ns"
     "Allocated GPU compute resource time" [] 0 0 JobComputeGpuNs MetricKind_Counter MetricUnit_Nanoseconds;
   mkMetricDefinition "job_communication_ns"
     "Job critical-path communication time" [] 0 0 JobCommunicationNs MetricKind_Counter MetricUnit_Nanoseconds;
   mkMetricDefinition "job_synchronization_wait_ns"
     "Job critical-path synchronization wait" [] 0 0 JobSynchronizationWaitNs MetricKind_Counter MetricUnit_Nanoseconds;
   mkMetricDefinition "job_straggler_delay_ns"
     "Configured worker straggler delay" [] 0 0 JobStragglerDelayNs MetricKind_Counter MetricUnit_Nanoseconds;
   mkMetricDefinition "job_gpu_idle_ns"
     "Allocated idle GPU resource time" [] 0 0 JobGpuIdleNs MetricKind_Counter MetricUnit_Nanoseconds;
   mkMetricDefinition "job_completed_steps"
     "Completed training steps" [] 0 0 JobCompletedSteps MetricKind_Counter MetricUnit_Count;
   mkMetricDefinition "job_terminal_total"
     "Terminal job outcomes" [] outcome_label outcome_label JobTerminalTotal MetricKind_Counter MetricUnit_Count;
   mkMetricDefinition "collective_duration_ns"
     "Terminal collective duration" latency_boundaries 0 0 CollectiveDurationNs MetricKind_Histogram MetricUnit_Nanoseconds;
   mkMetricDefinition "collective_planned_bytes_total"
     "Logical collective bytes planned" [] 0 0 CollectivePlannedBytes MetricKind_Counter MetricUnit_Bytes;
   mkMetricDefinition "collective_issued_fabric_bytes_total"
     "Collective bytes issued to the fabric" [] 0 0 CollectiveIssuedFabricBytes MetricKind_Counter MetricUnit_Bytes;
   mkMetricDefinition "collective_issued_local_bytes_total"
     "Collective bytes issued locally" [] 0 0 CollectiveIssuedLocalBytes MetricKind_Counter MetricUnit_Bytes;
   mkMetricDefinition "collective_delivered_bytes_total"
     "Collective bytes delivered" [] 0 0 CollectiveDeliveredBytes MetricKind_Counter MetricUnit_Bytes;
   mkMetricDefinition "link_accepted_bytes_total"
     "Bytes accepted by a link queue" [] link_labels link_labels LinkAcceptedBytes MetricKind_Counter MetricUnit_Bytes;
   mkMetricDefinition "link_accepted_chunks_total"
     "Chunks accepted by a link queue" [] link_labels link_labels LinkAcceptedChunks MetricKind_Counter MetricUnit_Chunks;
   mkMetricDefinition "link_serialized_bytes_total"
     "Bytes fully serialized" [] link_labels link_labels LinkSerializedBytes MetricKind_Counter MetricUnit_Bytes;
   mkMetricDefinition "link_serialized_chunks_total"
     "Chunks fully serialized" [] link_labels link_labels LinkSerializedChunks MetricKind_Counter MetricUnit_Chunks;
   mkMetricDefinition "link_marked_bytes_total"
     "Bytes congestion marked at a link" [] link_labels link_labels LinkMarkedBytes MetricKind_Counter MetricUnit_Bytes;
   mkMetricDefinition "link_marked_chunks_total"
     "Chunks congestion marked at a link" [] link_labels link_labels LinkMarkedChunks MetricKind_Counter MetricUnit_Chunks;
   mkMetricDefinition "link_dropped_buffer_full_bytes_total"
     "Bytes dropped because the waiting buffer was full" [] link_labels link_labels LinkDroppedBufferFullBytes MetricKind_Counter MetricUnit_Bytes;
   mkMetricDefinition "link_dropped_buffer_full_chunks_total"
     "Chunks dropped because the waiting buffer was full" [] link_labels link_labels LinkDroppedBufferFullChunks MetricKind_Counter MetricUnit_Chunks;
   mkMetricDefinition "link_dropped_down_bytes_total"
     "Bytes dropped because a resource was down" [] link_labels link_labels LinkDroppedDownBytes MetricKind_Counter MetricUnit_Bytes;
   mkMetricDefinition "link_dropped_down_chunks_total"
     "Chunks dropped because a resource was down" [] link_labels link_labels LinkDroppedDownChunks MetricKind_Counter MetricUnit_Chunks;
   mkMetricDefinition "link_queue_waiting_bytes"
     "Current waiting queue bytes" [] link_labels link_labels LinkQueueWaitingBytes MetricKind_Gauge MetricUnit_Bytes;
   mkMetricDefinition "link_queue_waiting_chunks"
     "Current waiting queue chunks" [] link_labels link_labels LinkQueueWaitingChunks MetricKind_Gauge MetricUnit_Chunks;
   mkMetricDefinition "link_maximum_waiting_bytes"
     "Maximum observed waiting queue bytes" [] link_labels link_labels LinkMaximumWaitingBytes MetricKind_Gauge MetricUnit_Bytes;
   mkMetricDefinition "link_serializer_busy_ns_total"
     "Elapsed link serializer busy time" [] link_labels link_labels LinkSerializerBusyNs MetricKind_Counter MetricUnit_Nanoseconds;
   mkMetricDefinition "link_utilization_ratio_ppm"
     "Link serializer utilization in parts per million" [] link_labels link_labels LinkUtilizationPpm MetricKind_DerivedSummary MetricUnit_RatioPartsPerMillion;
   mkMetricDefinition "transfer_terminal_total"
     "Terminal transfer outcomes" [] outcome_label outcome_label TransferTerminalTotal MetricKind_Counter MetricUnit_Count;
   mkMetricDefinition "routing_decision_total"
     "Routing decisions" [] policy_outcome_labels policy_outcome_labels RoutingDecisionTotal MetricKind_Counter MetricUnit_Count;
   mkMetricDefinition "placement_decision_total"
     "Placement decisions" [] policy_outcome_labels policy_outcome_labels PlacementDecisionTotal MetricKind_Counter MetricUnit_Count;
   mkMetricDefinition "placement_cross_rack_ring_edges"
     "Cross-rack edges in the selected rank ring" count_boundaries 0 0 PlacementCrossRackRingEdges MetricKind_Histogram MetricUnit_Count;
   mkMetricDefinition "placement_rack_count"
     "Racks used by a placement" count_boundaries 0 0 PlacementRackCount MetricKind_Histogram MetricUnit_Count;
   mkMetricDefinition "placement_nic_count"
     "NICs used by a placement" count_boundaries 0 0 PlacementNicCount MetricKind_Histogram MetricUnit_Count;
   mkMetricDefinition "failure_state_transition_total"
     "Failure resource-state transitions" [] failure_labels failure_labels FailureStateTransitionTotal MetricKind_Counter MetricUnit_Count;
   mkMetricDefinition "failure_affected_jobs_total"
     "Jobs affected by failures" [] (label_mask MetricLabel_Failure) failure_labels FailureAffectedJobs MetricKind_Counter MetricUnit_Count;
   mkMetricDefinition "failure_affected_traffic_bytes_total"
     "Traffic bytes affected by failures" [] (label_mask MetricLabel_Failure) failure_labels FailureAffectedTrafficBytes MetricKind_Counter MetricUnit_Bytes;
   mkMetricDefinition "failure_detection_time_ns"
     "Failure detection latency" latency_boundaries 0 (label_mask MetricLabel_Resource) FailureDetectionTimeNs MetricKind_Histogram MetricUnit_Nanoseconds;
   mkMetricDefinition "failure_recovery_time_ns"
     "Failure recovery latency" latency_boundaries 0 (label_mask MetricLabel_Resource) FailureRecoveryTimeNs MetricKind_Histogram MetricUnit_Nanoseconds].

Definition metric_catalog : list MetricDefinition := definitions.

(** [std::find_if] over the catalogue. *)
Fixpoint find_definition (id : MetricId) (catalog : list MetricDefinition) : option MetricDefinition :=
  match catalog with
  | [] => None
  | d :: rest => if bool_decide (md_id d = id) then Some d else find_definition id rest
  end.

Definition metric_definition (id : MetricId) : outcome MetricDefinition :=
  match find_definition id definitions with
  | Some d => Ret d
  | None => Throw (invalid_argument "unknown telemetry metric identifier")
  end.

Definition known_label_mask : Z :=
  Z.lor (label_mask MetricLabel_Job) (Z.lor (label_mask MetricLabel_Collective) (Z.lor (label_mask MetricLabel_Link)
    (Z.lor (label_mask MetricLabel_Direction) (Z.lor (label_mask MetricLabel_Policy) (Z.lor (label_mask MetricLabel_Outcome)
    (Z.lor (label_mask MetricLabel_Reason) (Z.lor (label_mask MetricLabel_Failure) (label_mask MetricLabel_Resource)))))))).

Definition character_code (a : Ascii.ascii) : Z := Z.of_nat (Ascii.nat_of_ascii a).

Definition valid_external_name (name : string) : bool :=
  let characters := character_code <$> String.list_ascii_of_string name in
  match characters with
  | [] => false
  | first :: _ =>
      if (first =? 95) || bool_decide (last characters = Some 95) then false else
      forallb (fun c => (97 <=? c) && (c <=? 122) || (48 <=? c) && (c <=? 57) || (c =? 95)) characters
  end.

(** [std::is_sorted] and no two equal neighbours. *)
Fixpoint strictly_sorted (l : list Z) : bool :=
  match l with
  | x :: ((y :: _) as rest) => (x <? y) && strictly_sorted rest
  | _ => true
  end.

Definition validate_definition (prior : list MetricDefinition) (definition : MetricDefinition)
    (maximum_histogram_boundaries : Z) : outcome unit :=
  try! _ := require (valid_external_name (md_name definition) && negb (bool_decide (md_description definition = ""%string)))
              (invalid_argument "invalid telemetry metric definition text") in
  try! _ := require ((Z.ldiff (md_required_labels definition) (md_allowed_labels definition) =? 0) &&
                     (Z.ldiff (md_allowed_labels definition) known_label_mask =? 0))
              (invalid_argument "invalid telemetry metric label mask") in
  try! _ := require (bool_decide (bool_decide (md_kind definition = MetricKind_Histogram) =
                                  negb (bool_decide (md_histogram_boundaries definition = []))))
              (invalid_argument "telemetry histogram boundaries do not match metric kind") in
  try! _ := require ((zlength (md_histogram_boundaries definition) <=? maximum_histogram_boundaries) &&
                     strictly_sorted (md_histogram_boundaries definition))
              (invalid_argument "invalid telemetry histogram boundaries") in
  require (forallb (fun p => negb (bool_decide (md_id p = md_id definition) || bool_decide (md_name p = md_name definition))) prior)
    (invalid_argument "duplicate telemetry metric definition").

Fixpoint validate_definitions (prior catalog : list MetricDefinition) (maximum_histogram_boundaries : Z) : outcome unit :=
  match catalog with
  | [] => Ret tt
  | definition :: rest =>
      try! _ := validate_definition prior definition maximum_histogram_boundaries in
      validate_definitions (prior ++ [definition]) rest maximum_histogram_boundaries
  end.

Definition validate_metric_catalog (catalog : list MetricDefinition) (maximum_histogram_boundaries : Z) : outcome unit :=
  try! _ := require (negb (bool_decide (zlength catalog = 0))) (invalid_argument "telemetry metric catalog must be nonempty") in
  validate_definitions [] catalog maximum_histogram_boundaries.

Definition validate_configuration (configuration : TelemetryConfiguration) : outcome unit :=
  let limits := tc_limits configuration in
  try! _ := require (negb ((tc_sample_interval_ns configuration =? 0) || (tl_metric_series limits =? 0) ||
                           (tl_decision_records limits =? 0) || (tl_domain_records limits =? 0) || (tl_samples limits =? 0) ||
                           (tl_histogram_boundaries limits =? 0) || (tl_correlation_edges limits =? 0) ||
                           (tl_serialized_bytes limits =? 0)))
              (invalid_argument "telemetry limits and sample interval must be positive") in
  validate_metric_catalog metric_catalog (tl_histogram_boundaries limits).

(** ** The registry *)

Definition checked_add (left right : Z) : outcome Z :=
  if right >? u64_max - left then Throw (overflow_error "telemetry metric value overflow") else Ret (u64_wrap (left + right)).

Record MetricSeriesKey : Type := mkMetricSeriesKey {
  sk_metric : MetricId;
  sk_labels : MetricLabels;
}.

#[global] Instance MetricLabelValue_eq_dec : EqDecision MetricLabelValue.
Proof. solve_decision. Defined.

#[global] Instance MetricSeriesKey_eq_dec : EqDecision MetricSeriesKey.
Proof. solve_decision. Defined.

(** The order of the keys: the metric, then the labels lexicographically. *)
Definition label_less (x y : MetricLabelValue) : bool :=
  (MetricLabel_value (mlv_label x) <? MetricLabel_value (mlv_label y)) ||
  (MetricLabel_value (mlv_label x) =? MetricLabel_value (mlv_label y)) && (mlv_value x <? mlv_value y).

Fixpoint labels_less (l r : MetricLabels) : bool :=
  match l, r with
  | [], [] => false
  | [], _ :: _ => true
  | _ :: _, [] => false
  | x :: l, y :: r => label_less x y || bool_decide (x = y) && labels_less l r
  end.

Definition key_less (x y : MetricSeriesKey) : bool :=
  (MetricId_value (sk_metric x) <? MetricId_value (sk_metric y)) ||
  (MetricId_value (sk_metric x) =? MetricId_value (sk_metric y)) && labels_less (sk_labels x) (sk_labels y).

Record MetricSeriesState : Type := mkMetricSeriesState {
  ms_kind : MetricKind;
  ms_scalar : Z;
  ms_histogram_buckets : list Z;
  ms_histogram_count : Z;
  ms_histogram_sum : Z;
}.

Record MetricSeriesSnapshot : Type := mkMetricSeriesSnapshot {
  mss_metric : MetricId;
  mss_labels : MetricLabels;
  mss_kind : MetricKind;
  mss_scalar : Z;
  mss_histogram_buckets : list Z;
  mss_histogram_count : Z;
  mss_histogram_sum : Z;
}.

Record MetricRegistry : Type := mkMetricRegistry {
  mr_maximum_series : Z;
  mr_series : list (MetricSeriesKey * MetricSeriesState);
}.

(** [find], [emplace] of a new key, and assignment through the reference to a known one. *)
Fixpoint find_series (key : MetricSeriesKey) (series : list (MetricSeriesKey * MetricSeriesState)) : option MetricSeriesState :=
  match series with
  | [] => None
  | (k, state) :: rest => if bool_decide (k = key) then Some state else find_series key rest
  end.

Fixpoint emplace (key : MetricSeriesKey) (state : MetricSeriesState) (series : list (MetricSeriesKey * MetricSeriesState))
    : list (MetricSeriesKey * MetricSeriesState) :=
  match series with
  | [] => [(key, state)]
  | (k, s) :: rest => if key_less key k then (key, state) :: series else (k, s) :: emplace key state rest
  end.

Definition assign_entry (key : MetricSeriesKey) (state : MetricSeriesState) (series : list (MetricSeriesKey * MetricSeriesState))
    : list (MetricSeriesKey * MetricSeriesState) :=
  (fun e => if bool_decide (fst e = key) then (key, state) else e) <$> series.

Definition new_registry (maximum_series maximum_histogram_boundaries : Z) : outcome MetricRegistry :=
  try! _ := require (negb ((maximum_series =? 0) || (maximum_histogram_boundaries =? 0)))
              (invalid_argument "telemetry metric catalog limits must be positive") in
  try! _ := validate_metric_catalog metric_catalog maximum_histogram_boundaries in
  Ret (mkMetricRegistry maximum_series []).

Definition validate_labels (definition : MetricDefinition) (labels : MetricLabels) : outcome unit :=
  let supplied := labels_mask labels in
  try! _ := require (Z.land supplied (md_required_labels definition) =? md_required_labels definition)
              (invalid_argument "telemetry metric is missing a required label") in
  require (Z.ldiff supplied (md_allowed_labels definition) =? 0)
    (invalid_argument "telemetry metric received an unsupported label").

(** The state of a known series; [None] when there is room for a new one. *)
Definition validate_series (metric : MetricId) (labels : MetricLabels) (expected : MetricKind) (r : MetricRegistry)
    : outcome (option MetricSeriesState) :=
  try! definition := metric_definition metric in
  try! _ := validate_labels definition labels in
  try! _ := require (bool_decide (md_kind definition = expected))
              (invalid_argument "telemetry metric operation does not match metric kind") in
  match find_series (mkMetricSeriesKey metric labels) (mr_series r) with
  | Some state => Ret (Some state)
  | None =>
      if zlength (mr_series r) >=? mr_maximum_series r
      then Throw (length_error "telemetry metric series limit exceeded") else Ret None
  end.

(** The series, created when it is new. *)
Definition require_series (metric : MetricId) (labels : MetricLabels) (expected : MetricKind) : M MetricRegistry MetricSeriesState :=
  let! r := gets (fun r => r) in
  let! found := of_outcome (validate_series metric labels expected r) in
  match found with
  | Some state => ret state
  | None =>
      let! definition := of_outcome (metric_definition metric) in
      let state := mkMetricSeriesState expected 0
        (if bool_decide (expected = MetricKind_Histogram)
         then replicate (S (length (md_histogram_boundaries definition))) 0 else []) 0 0 in
      do! modify (fun r => {| r with mr_series := emplace (mkMetricSeriesKey metric labels) state (mr_series r) |}) in
      ret state
  end.

Definition assign_series (metric : MetricId) (labels : MetricLabels) (state : MetricSeriesState) : M MetricRegistry unit :=
  modify (fun r => {| r with mr_series := assign_entry (mkMetricSeriesKey metric labels) state (mr_series r) |}).

Definition increment (metric : MetricId) (labels : MetricLabels) (amount : Z) : M MetricRegistry unit :=
  let! series := require_series metric labels MetricKind_Counter in
  let! scalar := of_outcome (checked_add (ms_scalar series) amount) in
  assign_series metric labels {| series with ms_scalar := scalar |}.

Definition set_gauge (metric : MetricId) (labels : MetricLabels) (value : Z) : M MetricRegistry unit :=
  let! series := require_series metric labels MetricKind_Gauge in
  assign_series metric labels {| series with ms_scalar := value |}.

(** [std::lower_bound] on sorted boundaries: the first that is not less. *)
Fixpoint lower_bound (boundaries : list Z) (value : Z) : nat :=
  match boundaries with
  | [] => 0
  | b :: rest => if b <? value then S (lower_bound rest value) else 0
  end.

(** The next bucket, count and sum; a bucket out of range does not exist. *)
Definition observed (definition : MetricDefinition) (series : MetricSeriesState) (value : Z) : outcome MetricSeriesState :=
  let bucket := lower_bound (md_histogram_boundaries definition) value in
  try! next_bucket := checked_add (default 0 (ms_histogram_buckets series !! bucket)) 1 in
  try! next_count := checked_add (ms_histogram_count series) 1 in
  try! next_sum := checked_add (ms_histogram_sum series) value in
  Ret {| series with ms_histogram_buckets := <[bucket := next_bucket]> (ms_histogram_buckets series);
                     ms_histogram_count := next_count;
                     ms_histogram_sum := next_sum |}.

Definition observe (metric : MetricId) (labels : MetricLabels) (value : Z) : M MetricRegistry unit :=
  let! series := require_series metric labels MetricKind_Histogram in
  let! definition := of_outcome (metric_definition metric) in
  let! next := of_outcome (observed definition series value) in
  assign_series metric labels next.

Definition validate_increment (metric : MetricId) (labels : MetricLabels) (amount : Z) (r : MetricRegistry) : outcome unit :=
  try! series := validate_series metric labels MetricKind_Counter r in
  match series with
  | Some state => try! _ := checked_add (ms_scalar state) amount in Ret tt
  | None => Ret tt
  end.

Definition validate_set_gauge (metric : MetricId) (labels : MetricLabels) (value : Z) (r : MetricRegistry) : outcome unit :=
  try! _ := validate_series metric labels MetricKind_Gauge r in Ret tt.

Definition validate_observe (metric : MetricId) (labels : MetricLabels) (value : Z) (r : MetricRegistry) : outcome unit :=
  try! series := validate_series metric labels MetricKind_Histogram r in
  match series with
  | None => Ret tt
  | Some state =>
      try! definition := metric_definition metric in
      let bucket := lower_bound (md_histogram_boundaries definition) value in
      try! _ := checked_add (default 0 (ms_histogram_buckets state !! bucket)) 1 in
      try! _ := checked_add (ms_histogram_count state) 1 in
      try! _ := checked_add (ms_histogram_sum state) value in
      Ret tt
  end.

Definition make_snapshot (key : MetricSeriesKey) (state : MetricSeriesState) : MetricSeriesSnapshot :=
  mkMetricSeriesSnapshot (sk_metric key) (sk_labels key) (ms_kind state) (ms_scalar state) (ms_histogram_buckets state)
    (ms_histogram_count state) (ms_histogram_sum state).

Definition find_snapshot (metric : MetricId) (labels : MetricLabels) (r : MetricRegistry) : option MetricSeriesSnapshot :=
  let key := mkMetricSeriesKey metric labels in make_snapshot key <$> find_series key (mr_series r).

Definition registry_find (metric : MetricId) (labels : MetricLabels) (r : MetricRegistry) : outcome (option MetricSeriesSnapshot) :=
  try! _ := metric_definition metric in Ret (find_snapshot metric labels r).

Definition snapshots (r : MetricRegistry) : list MetricSeriesSnapshot := (fun e => make_snapshot (fst e) (snd e)) <$> mr_series r.

Definition registry_size (r : MetricRegistry) : Z := zlength (mr_series r).
