(* ===== verification/TelemetrySummary.v ===== *)
(** * The summary of a run

    Models [telemetry/summary.{hpp,cpp}]: the metrics and, for each job, the time
    it spent in each phase, from the observations of a session. *)

From S2P Require Import Prelude SimTime Entities TelemetryRecords TelemetryMetrics.

Definition checked_add (left right : Z) : outcome Z :=
  if right >? u64_max - left then Throw (overflow_error "telemetry attribution duration overflow") else Ret (u64_wrap (left + right)).

Record JobAttributionSnapshot : Type := mkJobAttributionSnapshot {
  ja_job : JobId;
  ja_scheduling_wait_ns : Z;
  ja_compute_ns : Z;
  ja_communication_ns : Z;
  ja_synchronization_wait_ns : Z;
  ja_straggler_delay_ns : Z;
  ja_terminal_other_ns : Z;
  ja_terminal : bool;
}.

Definition accounted_ns (s : JobAttributionSnapshot) : outcome Z :=
  try! result := checked_add (ja_scheduling_wait_ns s) (ja_compute_ns s) in
  try! result := checked_add result (ja_communication_ns s) in
  try! result := checked_add result (ja_synchronization_wait_ns s) in
  try! result := checked_add result (ja_straggler_delay_ns s) in
  checked_add result (ja_terminal_other_ns s).

Inductive JobPhase : Type :=
  | JobPhase_SchedulingWait | JobPhase_Compute | JobPhase_Communication | JobPhase_SynchronizationWait
  | JobPhase_StragglerDelay | JobPhase_TerminalOther | JobPhase_Terminal.

#[global] Instance JobPhase_eq_dec : EqDecision JobPhase.
Proof. solve_decision. Defined.

#[global] Instance JobTransition_eq_dec : EqDecision JobTransition.
Proof. solve_decision. Defined.

Record JobPhaseState : Type := mkJobPhaseState {
  jp_snapshot : JobAttributionSnapshot;
  jp_last_transition : SimTimeNs;
  jp_phase : JobPhase;
}.

Record SummaryBuilder : Type := mkSummaryBuilder {
  sb_metrics_ : MetricRegistry;
  sb_jobs_ : gmap Z JobPhaseState;
  sb_last_timestamp_ : option SimTimeNs;
  sb_maximum_metric_series_ : Z;
  sb_finalized_ : bool;
}.

Definition new_summary (maximum_metric_series maximum_histogram_boundaries : Z) : outcome SummaryBuilder :=
  try! metrics := new_registry maximum_metric_series maximum_histogram_boundaries in
  Ret (mkSummaryBuilder metrics ∅ None maximum_metric_series false).

(** ** Observations of metrics *)

Definition validate_metric_observation (metrics : MetricRegistry) (observation : TelemetryObservation) : outcome unit :=
  match observation with
  | CounterObservation metric labels amount => validate_increment metric labels amount metrics
  | GaugeObservation metric labels value => validate_set_gauge metric labels value metrics
  | HistogramObservation metric labels value => validate_observe metric labels value metrics
  | _ => Ret tt
  end.

Definition apply_metric_observation (observation : TelemetryObservation) : M MetricRegistry unit :=
  match observation with
  | CounterObservation metric labels amount => increment metric labels amount
  | GaugeObservation metric labels value => set_gauge metric labels value
  | HistogramObservation metric labels value => observe metric labels value
  | _ => ret tt
  end.

(** ** The phases of a job *)

Definition terminal_transition (transition : JobTransition) : bool :=
  match transition with
  | JobTransition_Succeeded | JobTransition_Failed | JobTransition_Cancelled => true
  | _ => false
  end.

Definition next_phase (current : JobPhase) (transition : JobTransition) (collective_active : bool) : JobPhase :=
  let busy := bool_decide (current = JobPhase_Compute) || bool_decide (current = JobPhase_StragglerDelay) in
  match transition with
  | JobTransition_Waiting => JobPhase_SchedulingWait
  | JobTransition_Admitted | JobTransition_CollectiveCompleted | JobTransition_StepCompleted =>
      if busy then current else JobPhase_TerminalOther
  | JobTransition_ComputeStarted => JobPhase_Compute
  | JobTransition_StragglerStarted => JobPhase_StragglerDelay
  | JobTransition_SynchronizationStarted => JobPhase_SynchronizationWait
  | JobTransition_ComputeCompleted => if collective_active then JobPhase_Communication else JobPhase_SynchronizationWait
  | JobTransition_CollectiveStarted => if busy then current else JobPhase_Communication
  | JobTransition_Succeeded | JobTransition_Failed | JobTransition_Cancelled => JobPhase_Terminal
  | JobTransition_Arrived => JobPhase_SchedulingWait
  end.

Definition add_interval (s : JobAttributionSnapshot) (phase : JobPhase) (duration : Z) : outcome JobAttributionSnapshot :=
  match phase with
  | JobPhase_SchedulingWait =>
      try! v := checked_add (ja_scheduling_wait_ns s) duration in Ret {| s with ja_scheduling_wait_ns := v |}
  | JobPhase_Compute => try! v := checked_add (ja_compute_ns s) duration in Ret {| s with ja_compute_ns := v |}
  | JobPhase_Communication =>
      try! v := checked_add (ja_communication_ns s) duration in Ret {| s with ja_communication_ns := v |}
  | JobPhase_SynchronizationWait =>
      try! v := checked_add (ja_synchronization_wait_ns s) duration in Ret {| s with ja_synchronization_wait_ns := v |}
  | JobPhase_StragglerDelay =>
      try! v := checked_add (ja_straggler_delay_ns s) duration in Ret {| s with ja_straggler_delay_ns := v |}
  | JobPhase_TerminalOther =>
      try! v := checked_add (ja_terminal_other_ns s) duration in Ret {| s with ja_terminal_other_ns := v |}
  | JobPhase_Terminal => Ret s
  end.

Definition new_attribution (job : JobId) : JobAttributionSnapshot := mkJobAttributionSnapshot job 0 0 0 0 0 0 false.

Definition transition (current : option JobPhaseState) (job : JobId) (timestamp : SimTimeNs) (transition_value : JobTransition)
    (collective_active : bool) : outcome JobPhaseState :=
  match current with
  | None =>
      try! _ := require (bool_decide (transition_value = JobTransition_Arrived) || terminal_transition transition_value)
                  (logic_error "job attribution must begin with arrival or termination") in
      let snapshot := new_attribution job in
      Ret (if terminal_transition transition_value
           then mkJobPhaseState {| snapshot with ja_terminal := true |} timestamp JobPhase_Terminal
           else mkJobPhaseState snapshot timestamp JobPhase_SchedulingWait)
  | Some state =>
      try! _ := require (negb (ja_terminal (jp_snapshot state)))
                  (logic_error "job attribution received a transition after termination") in
      try! _ := require (negb (bool_decide (transition_value = JobTransition_Arrived)))
                  (logic_error "job attribution received duplicate arrival") in
      try! _ := require (negb (timestamp <? jp_last_transition state)) (invalid_argument "job attribution timestamp regressed") in
      try! snapshot := add_interval (jp_snapshot state) (jp_phase state) (u64_wrap (timestamp - jp_last_transition state)) in
      let phase := next_phase (jp_phase state) transition_value collective_active in
      Ret (mkJobPhaseState {| snapshot with ja_terminal := bool_decide (phase = JobPhase_Terminal) |} timestamp phase)
  end.

(** ** Validation and consumption *)

Definition terminal_metrics (s : JobAttributionSnapshot) : list (MetricId * Z) :=
  [(JobCommunicationNs, ja_communication_ns s); (JobSynchronizationWaitNs, ja_synchronization_wait_ns s);
   (JobStragglerDelayNs, ja_straggler_delay_ns s)].

(** The loop counts the series that do not exist yet. *)
Fixpoint validate_terminal_values (metrics : MetricRegistry) (values : list (MetricId * Z)) (missing : Z) : outcome Z :=
  match values with
  | [] => Ret missing
  | (metric, value) :: rest =>
      try! found := registry_find metric [] metrics in
      try! _ := validate_increment metric [] value metrics in
      validate_terminal_values metrics rest (if has_value found then missing else missing + 1)
  end.

Definition validate_terminal_metrics (s : JobPhaseState) (b : SummaryBuilder) : outcome unit :=
  try! missing := validate_terminal_values (sb_metrics_ b) (terminal_metrics (jp_snapshot s)) 0 in
  require (negb (missing >? u64_wrap (sb_maximum_metric_series_ b - registry_size (sb_metrics_ b))))
    (length_error "telemetry metric series limit exceeded").

Definition on_metrics {A} (m : M MetricRegistry A) : M SummaryBuilder A :=
  zoom sb_metrics_ (fun r b => {| b with sb_metrics_ := r |}) m.

Definition apply_terminal_metrics (s : JobPhaseState) : M SummaryBuilder unit :=
  for_each (terminal_metrics (jp_snapshot s)) (fun '(metric, value) => on_metrics (increment metric [] value)).

Definition summary_validate (timestamp : SimTimeNs) (correlation : Correlation) (observation : TelemetryObservation)
    (b : SummaryBuilder) : outcome unit :=
  try! _ := require (negb (sb_finalized_ b)) (logic_error "cannot add to a finalized telemetry summary") in
  try! _ := require (match sb_last_timestamp_ b with Some last => negb (timestamp <? last) | None => true end)
              (invalid_argument "telemetry summary timestamp regressed") in
  try! _ := validate_metric_observation (sb_metrics_ b) observation in
  match observation with
  | JobObservation transition_value _ _ _ _ =>
      match corr_job correlation with
      | None => Throw (invalid_argument "job telemetry observation requires job correlation")
      | Some job =>
          try! next := transition (sb_jobs_ b !! job) job timestamp transition_value (has_value (corr_collective correlation)) in
          if ja_terminal (jp_snapshot next) then validate_terminal_metrics next b else Ret tt
      end
  | _ => Ret tt
  end.

Definition consume (timestamp : SimTimeNs) (correlation : Correlation) (observation : TelemetryObservation) : M SummaryBuilder unit :=
  let! b := gets (fun b => b) in
  do! of_outcome (summary_validate timestamp correlation observation b) in
  do! on_metrics (apply_metric_observation observation) in
  do! match observation with
      | JobObservation transition_value _ _ _ _ =>
          match corr_job correlation with
          | None => throw (logic_error "validated job telemetry lost its correlation")
          | Some job =>
              let! b := gets (fun b => b) in
              let! next := of_outcome (transition (sb_jobs_ b !! job) job timestamp transition_value
                             (has_value (corr_collective correlation))) in
              do! when (ja_terminal (jp_snapshot next)) (apply_terminal_metrics next) in
              modify (fun b => {| b with sb_jobs_ := <[job := next]> (sb_jobs_ b) |})
          end
      | _ => ret tt
      end in
  modify (fun b => {| b with sb_last_timestamp_ := Some timestamp |}).

(** The jobs in the order of their identifiers. *)
Definition job_order (b : SummaryBuilder) : list JobId := merge_sort Z.le (elements (dom (sb_jobs_ b))).

Definition finalize_job (timestamp : SimTimeNs) (job : JobId) : M SummaryBuilder unit :=
  let! b := gets (fun b => b) in
  match sb_jobs_ b !! job with
  | None => ret tt
  | Some state =>
      if ja_terminal (jp_snapshot state) then ret tt else
      let! snapshot := of_outcome (add_interval (jp_snapshot state) (jp_phase state) (u64_wrap (timestamp - jp_last_transition state))) in
      modify (fun b => {| b with sb_jobs_ := <[job := mkJobPhaseState snapshot timestamp (jp_phase state)]> (sb_jobs_ b) |})
  end.

Definition summary_finalize (timestamp : SimTimeNs) : M SummaryBuilder unit :=
  let! b := gets (fun b => b) in
  do! throw_if (sb_finalized_ b) (logic_error "telemetry summary is already finalized") in
  do! throw_if (match sb_last_timestamp_ b with Some last => timestamp <? last | None => false end)
        (invalid_argument "telemetry summary final timestamp regressed") in
  do! for_each (job_order b) (finalize_job timestamp) in
  modify (fun b => {| b with sb_last_timestamp_ := Some timestamp; sb_finalized_ := true |}).

Definition find_metric (metric : MetricId) (labels : MetricLabels) (b : SummaryBuilder) : outcome (option MetricSeriesSnapshot) :=
  registry_find metric labels (sb_metrics_ b).

Definition metric_snapshots (b : SummaryBuilder) : list MetricSeriesSnapshot := snapshots (sb_metrics_ b).

Definition job_attributions (b : SummaryBuilder) : list JobAttributionSnapshot :=
  omap (fun job => jp_snapshot <$> sb_jobs_ b !! job) (job_order b).
