(* ===== verification/TelemetryRecorder.v ===== *)
(** * The telemetry session

    Models [telemetry/session.{hpp,cpp}] and [telemetry/samples.{hpp,cpp}]: what a
    session retains of the observations, in each mode and within its limits, and
    the samples it takes at fixed intervals of simulated time.  It implements the
    interface through which the components record. *)

From S2P Require Import Prelude SimTime Entities TelemetryRecords TelemetryMetrics TelemetrySummary.

Record TelemetryRecord : Type := mkTelemetryRecord {
  tr_correlation : Correlation;
  tr_observation : TelemetryObservation;
  tr_id : Z;
  tr_timestamp : SimTimeNs;
}.

Record MetricSample : Type := mkMetricSample {
  sm_metric : MetricId;
  sm_labels : MetricLabels;
  sm_kind : MetricKind;
  sm_value : Z;
  sm_timestamp : SimTimeNs;
}.

Definition is_sampled_metric_kind (kind : MetricKind) : bool :=
  bool_decide (kind = MetricKind_Counter) || bool_decide (kind = MetricKind_Gauge).

(** [TelemetrySession::Impl]; the summary is a null pointer when the mode is off. *)
Record Session : Type := mkSession {
  ss_configuration : TelemetryConfiguration;
  ss_summary : option SummaryBuilder;
  ss_records : list TelemetryRecord;
  ss_samples : list MetricSample;
  ss_last_timestamp : option SimTimeNs;
  ss_next_sample_timestamp : option SimTimeNs;
  ss_retained_edges : Z;
  ss_retained_decisions : Z;
  ss_retained_domain_records : Z;
  ss_next_record_id : Z;
  ss_record_ids_exhausted : bool;
  ss_is_finalized : bool;
}.

Definition new_session (configuration : TelemetryConfiguration) : outcome Session :=
  try! _ := validate_configuration configuration in
  try! summary :=
    (if bool_decide (tc_mode configuration = TelemetryMode_Off) then Ret None else
     try! b := new_summary (tl_metric_series (tc_limits configuration)) (tl_histogram_boundaries (tc_limits configuration)) in
     Ret (Some b)) in
  Ret (mkSession configuration summary [] [] None (Some (tc_sample_interval_ns configuration)) 0 0 0 0 false false).

Definition checked_add_size (left right : Z) : outcome Z :=
  if right >? u64_max - left then Throw (overflow_error "telemetry correlation edge overflow") else Ret (u64_wrap (left + right)).

Definition limits (s : Session) : TelemetryLimits := tc_limits (ss_configuration s).

Definition interval (s : Session) : Z := tc_sample_interval_ns (ss_configuration s).

Definition retains_samples (s : Session) : bool :=
  bool_decide (tc_mode (ss_configuration s) = TelemetryMode_Sampled) || bool_decide (tc_mode (ss_configuration s) = TelemetryMode_Full).

(** The summary is there whenever the mode is not off. *)
Definition on_summary {A} (m : M SummaryBuilder A) : M Session A :=
  fun s => match ss_summary s with
           | None => (s, Throw (logic_error "null dereference"))
           | Some b => let '(b', r) := m b in ({| s with ss_summary := Some b' |}, r)
           end.

Definition summary_snapshots (s : Session) : list MetricSeriesSnapshot :=
  match ss_summary s with Some b => metric_snapshots b | None => [] end.

(** ** Samples *)

Definition advanced (s : Session) (current : SimTimeNs) : option SimTimeNs :=
  if interval s >? u64_max - current then None else Some (u64_wrap (current + interval s)).

Definition advance_sample_timestamp (current : SimTimeNs) : M Session unit :=
  modify (fun s => {| s with ss_next_sample_timestamp := advanced s current |}).

Definition sampled (s : Session) : list MetricSeriesSnapshot :=
  filter (fun x => is_sampled_metric_kind (mss_kind x) = true) (summary_snapshots s).

Definition append_sample_frame (timestamp : SimTimeNs) : M Session unit :=
  let! s := gets (fun s => s) in
  let frame := sampled s in
  do! throw_if (zlength frame >? u64_wrap (tl_samples (limits s) - zlength (ss_samples s)))
        (length_error "telemetry sample limit exceeded") in
  modify (fun s => {| s with ss_samples := ss_samples s ++
    ((fun x => mkMetricSample (mss_metric x) (mss_labels x) (mss_kind x) (mss_scalar x) timestamp) <$> frame) |}).

Definition eligible (next timestamp : SimTimeNs) (inclusive : bool) : bool :=
  (next <? timestamp) || inclusive && (next =? timestamp).

(** The [while] loop; [None] is a loop that is not at its end. *)
Fixpoint sample_loop (fuel : nat) (timestamp : SimTimeNs) (inclusive : bool) (s : Session) : option (Session * outcome unit) :=
  match ss_next_sample_timestamp s with
  | None => Some (s, Ret tt)
  | Some next =>
      if negb (eligible next timestamp inclusive) then Some (s, Ret tt) else
      match fuel with
      | O => None
      | S n =>
          match (do! append_sample_frame next in advance_sample_timestamp next) s with
          | (s', Ret _) => sample_loop n timestamp inclusive s'
          | (s', Throw e) => Some (s', Throw e)
          end
      end
  end.

(** Boundaries are one interval apart and the first is not zero. *)
Definition sample_fuel (timestamp : SimTimeNs) (s : Session) : nat := S (Z.to_nat (timestamp / interval s)).

Definition skip_empty_sample_boundaries (timestamp : SimTimeNs) (inclusive : bool) : M Session unit :=
  modify (fun s =>
    match ss_next_sample_timestamp s with
    | None => s
    | Some first =>
        if negb inclusive && (timestamp =? 0) then s else
        let last_eligible := if inclusive then timestamp else u64_wrap (timestamp - 1) in
        if first >? last_eligible then s else
        let complete_intervals := u64_wrap (last_eligible - first) / interval s in
        let last_boundary := u64_wrap (first + u64_wrap (complete_intervals * interval s)) in
        {| s with ss_next_sample_timestamp := advanced s last_boundary |}
    end).

Definition emit_samples_until (timestamp : SimTimeNs) (inclusive : bool) : M Session unit :=
  let! s := gets (fun s => s) in
  if negb (retains_samples s) then ret tt else
  if negb (existsb (fun x => is_sampled_metric_kind (mss_kind x)) (summary_snapshots s))
  then skip_empty_sample_boundaries timestamp inclusive else
  fun s =>
    match sample_loop (sample_fuel timestamp s) timestamp inclusive s with
    | Some r => r
    | None => (s, Throw (logic_error "the loop does not end"))
    end.

(** ** Recording *)

(** The guards of a record that is retained; the edges it leads to. *)
Definition retention (correlation : Correlation) (decision : bool) (s : Session) : outcome Z :=
  try! _ := require (negb (decision && (ss_retained_decisions s >=? tl_decision_records (limits s))))
              (length_error "telemetry decision record limit exceeded") in
  try! _ := require (negb (negb decision && (ss_retained_domain_records s >=? tl_domain_records (limits s))))
              (length_error "telemetry domain record limit exceeded") in
  try! edges := checked_add_size (ss_retained_edges s) (correlation_edge_count correlation) in
  try! _ := require (negb (edges >? tl_correlation_edges (limits s))) (length_error "telemetry correlation edge limit exceeded") in
  try! _ := require (negb (ss_record_ids_exhausted s)) (overflow_error "telemetry record ID sequence exhausted") in
  Ret edges.

Definition retained (decision : bool) (s : Session) : bool :=
  bool_decide (tc_mode (ss_configuration s) = TelemetryMode_Full) ||
  bool_decide (tc_mode (ss_configuration s) = TelemetryMode_Sampled) && decision.

Definition retain_record (timestamp : SimTimeNs) (correlation : Correlation) (observation : TelemetryObservation)
    (edges : Z) : M Session unit :=
  modify (fun s =>
    let decision := is_decision_observation observation in
    let last := ss_next_record_id s =? u64_max in
    {| s with ss_records := ss_records s ++ [mkTelemetryRecord correlation observation (ss_next_record_id s) timestamp];
              ss_retained_edges := edges;
              ss_retained_decisions := if decision then ss_retained_decisions s + 1 else ss_retained_decisions s;
              ss_retained_domain_records := if decision then ss_retained_domain_records s else ss_retained_domain_records s + 1;
              ss_record_ids_exhausted := if last then true else ss_record_ids_exhausted s;
              ss_next_record_id := if last then ss_next_record_id s else ss_next_record_id s + 1 |}).

Definition record (timestamp : SimTimeNs) (correlation : Correlation) (observation : TelemetryObservation) : M Session unit :=
  let! s := gets (fun s => s) in
  if bool_decide (tc_mode (ss_configuration s) = TelemetryMode_Off) then ret tt else
  do! throw_if (ss_is_finalized s) (logic_error "cannot record telemetry after finalization") in
  do! throw_if (match ss_last_timestamp s with Some last => timestamp <? last | None => false end)
        (invalid_argument "telemetry observation timestamp regressed") in
  let decision := is_decision_observation observation in
  let retain := retained decision s in
  let! edges := of_outcome (if retain then retention correlation decision s else Ret (ss_retained_edges s)) in
  do! on_summary (fun b => (b, summary_validate timestamp correlation observation b)) in
  do! emit_samples_until timestamp false in
  do! on_summary (consume timestamp correlation observation) in
  do! when retain (retain_record timestamp correlation observation edges) in
  modify (fun s => {| s with ss_last_timestamp := Some timestamp |}).

Definition finalize (timestamp : SimTimeNs) : M Session unit :=
  let! s := gets (fun s => s) in
  do! throw_if (ss_is_finalized s) (logic_error "telemetry session is already finalized") in
  do! throw_if (negb (bool_decide (tc_mode (ss_configuration s) = TelemetryMode_Off)) &&
                match ss_last_timestamp s with Some last => timestamp <? last | None => false end)
        (invalid_argument "telemetry final timestamp regressed") in
  do! emit_samples_until timestamp true in
  let! s := gets (fun s => s) in
  do! when (has_value (ss_summary s)) (on_summary (summary_finalize timestamp)) in
  modify (fun s => {| s with ss_last_timestamp := Some timestamp; ss_is_finalized := true |}).

(** ** Queries *)

Definition enabled (s : Session) : bool := negb (bool_decide (tc_mode (ss_configuration s) = TelemetryMode_Off)).

Record TelemetrySnapshot : Type := mkTelemetrySnapshot {
  ts_configuration : TelemetryConfiguration;
  ts_metrics : list MetricSeriesSnapshot;
  ts_job_attributions : list JobAttributionSnapshot;
  ts_records : list TelemetryRecord;
  ts_samples : list MetricSample;
  ts_retained_correlation_edges : Z;
  ts_finalized : bool;
}.

Definition session_find_metric (metric : MetricId) (labels : MetricLabels) (s : Session) : outcome (option MetricSeriesSnapshot) :=
  if negb (enabled s) then Ret None else
  match ss_summary s with Some b => find_metric metric labels b | None => Ret None end.

Definition session_job_attributions (s : Session) : list JobAttributionSnapshot :=
  if negb (enabled s) then [] else match ss_summary s with Some b => job_attributions b | None => [] end.

Definition session_metric_snapshots (s : Session) : list MetricSeriesSnapshot :=
  if negb (enabled s) then [] else summary_snapshots s.

Definition session_snapshot (s : Session) : TelemetrySnapshot :=
  mkTelemetrySnapshot (ss_configuration s) (session_metric_snapshots s) (session_job_attributions s) (ss_records s) (ss_samples s)
    (ss_retained_edges s) (ss_is_finalized s).

(** ** The interface *)

#[global] Instance session_telemetry : TelemetrySession Session := {
  session_enabled := enabled;
  session_record := record;
}.
