(* ===== verification/TelemetryLaws.v ===== *)
(** * Laws of metrics and summaries

    The registry as a map from keys to series, the exactness of validation, and
    the time accounts of jobs. *)

From S2P Require Import Prelude SimTime Entities TelemetryRecords TelemetryMetrics TelemetrySummary.

(** ** Checked addition *)

Lemma metric_add left right : 0 <= left -> 0 <= right ->
  TelemetryMetrics.checked_add left right =
  if decide (left + right <= u64_max) then Ret (left + right) else Throw (overflow_error "telemetry metric value overflow").
Proof.
  intros Hl Hr. unfold TelemetryMetrics.checked_add. case_decide as Hd.
  - destruct (Z.gtb_spec right (u64_max - left)); [lia |]. by rewrite u64_wrap_id by (split; lia).
  - destruct (Z.gtb_spec right (u64_max - left)); [done | lia].
Qed.

Lemma duration_add left right : 0 <= left -> 0 <= right ->
  TelemetrySummary.checked_add left right =
  if decide (left + right <= u64_max) then Ret (left + right) else Throw (overflow_error "telemetry attribution duration overflow").
Proof.
  intros Hl Hr. unfold TelemetrySummary.checked_add. case_decide as Hd.
  - destruct (Z.gtb_spec right (u64_max - left)); [lia |]. by rewrite u64_wrap_id by (split; lia).
  - destruct (Z.gtb_spec right (u64_max - left)); [done | lia].
Qed.

(** ** The map of series *)

Abbreviation Series := (list (MetricSeriesKey * MetricSeriesState)) (only parsing).

Lemma find_emplace key state (l : Series) k : find_series key l = None ->
  find_series k (emplace key state l) = if decide (k = key) then Some state else find_series k l.
Proof.
  induction l as [| [k' s'] l IH]; intros Hf; cbn [emplace find_series] in *.
  - rewrite (bool_decide_ext (key = k) (k = key)) by (split; congruence). case_decide as Hd; case_bool_decide; done.
  - case_bool_decide as Hk'; [done |]. destruct (key_less key k'); cbn [find_series].
    + case_decide as Hd; case_bool_decide as Hb; try congruence; done.
    + case_bool_decide as Hb; [by rewrite decide_False by congruence |]. by apply IH.
Qed.

Lemma emplace_length key state (l : Series) : length (emplace key state l) = S (length l).
Proof. induction l as [| [k s] l IH]; [done |]. cbn [emplace]. destruct (key_less key k); cbn; by rewrite ?IH. Qed.

Lemma find_assign key state (l : Series) k : is_Some (find_series key l) ->
  find_series k (assign_entry key state l) = if decide (k = key) then Some state else find_series k l.
Proof.
  unfold assign_entry. induction l as [| [k' s'] l IH]; [by intros [? ?] |]. cbn [find_series]. rewrite fmap_cons. cbn [fst].
  intros Hs. destruct (decide (k' = key)) as [-> | Hne].
  - rewrite (bool_decide_eq_true_2 (key = key)) by done. cbn [find_series]. case_decide as Hd.
    + subst k. by rewrite bool_decide_eq_true_2.
    + rewrite bool_decide_eq_false_2 by congruence. clear IH Hs. induction l as [| [k2 s2] l IH]; [done |]. rewrite fmap_cons. cbn [fst].
      destruct (decide (k2 = key)) as [-> | Hne].
      * rewrite bool_decide_eq_true_2 by done. cbn [find_series]. rewrite !bool_decide_eq_false_2 by congruence. done.
      * rewrite bool_decide_eq_false_2 by done. cbn [find_series]. by rewrite IH.
  - rewrite bool_decide_eq_false_2 in Hs by done. rewrite (bool_decide_eq_false_2 (k' = key)) by done. cbn [find_series].
    case_bool_decide as Hb; [by rewrite decide_False by congruence |]. by apply IH.
Qed.

Lemma assign_length key state (l : Series) : length (assign_entry key state l) = length l.
Proof. unfold assign_entry. by rewrite length_fmap. Qed.

(** ** Well-formed registries *)

(** Every identifier is in the catalogue. *)
Definition definition_of (metric : MetricId) : MetricDefinition :=
  match find_definition metric definitions with Some d => d | None => mkMetricDefinition "" "" [] 0 0 metric MetricKind_Counter MetricUnit_Count end.

Lemma metric_definition_known metric : metric_definition metric = Ret (definition_of metric).
Proof. by destruct metric; vm_compute. Qed.

(** The first state of a series. *)
Definition fresh_series (metric : MetricId) : MetricSeriesState :=
  let d := definition_of metric in
  mkMetricSeriesState (md_kind d) 0
    (if bool_decide (md_kind d = MetricKind_Histogram) then replicate (S (length (md_histogram_boundaries d))) 0 else []) 0 0.

Record series_ok (key : MetricSeriesKey) (s : MetricSeriesState) : Prop := {
  so_kind : ms_kind s = md_kind (definition_of (sk_metric key));
  so_scalar : u64 (ms_scalar s);
  so_buckets : length (ms_histogram_buckets s) = length (ms_histogram_buckets (fresh_series (sk_metric key)));
  so_values : Forall u64 (ms_histogram_buckets s);
  so_count : u64 (ms_histogram_count s) /\ sumZ (ms_histogram_buckets s) = ms_histogram_count s;
  so_sum : u64 (ms_histogram_sum s);
}.

Record registry_ok (r : MetricRegistry) : Prop := {
  ro_size : 0 < mr_maximum_series r <= u64_max /\ registry_size r <= mr_maximum_series r;
  ro_series key s : find_series key (mr_series r) = Some s -> series_ok key s;
}.

Lemma fresh_ok key : series_ok key (fresh_series (sk_metric key)).
Proof.
  split; cbn [fresh_series ms_kind ms_scalar ms_histogram_buckets ms_histogram_count ms_histogram_sum]; try done; try (split; vm_compute; congruence).
  - case_bool_decide; [| done]. apply Forall_replicate. split; vm_compute; congruence.
  - split; [split; vm_compute; congruence |]. case_bool_decide; [| done]. rewrite sumZ_replicate. lia.
Qed.

(** ** Operations *)

Definition series_at (r : MetricRegistry) (metric : MetricId) (labels : MetricLabels) : MetricSeriesState :=
  default (fresh_series metric) (find_series (mkMetricSeriesKey metric labels) (mr_series r)).

(** The series has a new state, which may be its first. *)
Record stored (r r' : MetricRegistry) (metric : MetricId) (labels : MetricLabels) (s : MetricSeriesState) : Prop := {
  sd_find k : find_series k (mr_series r') =
    if decide (k = mkMetricSeriesKey metric labels) then Some s else find_series k (mr_series r);
  sd_maximum : mr_maximum_series r' = mr_maximum_series r;
  sd_size : registry_size r' =
    registry_size r + (match find_series (mkMetricSeriesKey metric labels) (mr_series r) with Some _ => 0 | None => 1 end);
}.

Section Operations.
Context (r : MetricRegistry) (metric : MetricId) (labels : MetricLabels).
#[local] Abbreviation key := (mkMetricSeriesKey metric labels).

(** Room for the series. *)
Definition has_room : Prop := find_series key (mr_series r) = None -> registry_size r < mr_maximum_series r.

Lemma validate_series_found kind found : validate_series metric labels kind r = Ret found ->
  found = find_series key (mr_series r) /\ kind = md_kind (definition_of metric) /\ has_room.
Proof.
  unfold validate_series, has_room. rewrite metric_definition_known. cbn [obind].
  destruct (validate_labels _ _) as [[] | e]; [cbn [obind] | done]. unfold require. case_bool_decide as Hk; [cbn [obind] | done].
  destruct (find_series _ _) as [s |]; [by intros [= <-] |]. unfold registry_size.
  destruct (Z.geb_spec (zlength (mr_series r)) (mr_maximum_series r)); [done |]. intros [= <-]. split; [done | split; [done |]]. lia.
Qed.

Lemma require_series_run kind :
  match validate_series metric labels kind r with
  | Ret _ => exists r1, require_series metric labels kind r = (r1, Ret (series_at r metric labels)) /\
      stored r r1 metric labels (series_at r metric labels) /\ (is_Some (find_series key (mr_series r)) -> r1 = r)
  | Throw e => require_series metric labels kind r = (r, Throw e)
  end.
Proof.
  destruct (validate_series metric labels kind r) as [found | e] eqn:Hv; unfold require_series; rewrite run_gets, run_of_outcome, Hv; [| done].
  destruct (validate_series_found _ _ Hv) as (-> & -> & _). unfold series_at. destruct (find_series key (mr_series r)) as [s |] eqn:Hf.
  - exists r. split; [done |]. split; [| done]. split; [| done | rewrite Hf; lia]. intros k. by case_decide; subst.
  - rewrite run_of_outcome, metric_definition_known. cbn [default]. eexists. split; [done |]. split; [| by intros [? ?]]. split; [| done |]; cbn [mr_series].
    + intros k. rewrite find_emplace by done. done.
    + unfold registry_size. cbn [mr_series]. unfold zlength. rewrite emplace_length, Hf. lia.
Qed.

Lemma assign_stored r1 s0 s : stored r r1 metric labels s0 ->
  exists r2, assign_series metric labels s r1 = (r2, Ret tt) /\ stored r r2 metric labels s.
Proof.
  intros [F M Sz]. eexists. split; [done |]. split; cbn [mr_series mr_maximum_series]; [| done |].
  - intros k. rewrite find_assign by (rewrite F, decide_True by done; by eexists). rewrite F. by repeat case_decide.
  - unfold registry_size in *. cbn [mr_series]. unfold zlength in *. by rewrite assign_length.
Qed.

Lemma stored_ok r' s : registry_ok r -> stored r r' metric labels s -> has_room -> series_ok key s -> registry_ok r'.
Proof.
  intros [[R1 R2] R3] [F M Sz] Hroom Hs. split.
  - rewrite M. split; [done |]. unfold has_room in Hroom. destruct (find_series key (mr_series r)); [lia |]. specialize (Hroom eq_refl). lia.
  - intros k x. rewrite F. case_decide as Hd; [by intros [= <-]; subst | apply R3].
Qed.

Lemma series_at_ok : registry_ok r -> series_ok key (series_at r metric labels).
Proof. intros Hr. unfold series_at. destruct (find_series key (mr_series r)) as [s |] eqn:Hf; [by apply Hr | exact (fresh_ok key)]. Qed.

(** The common part of the operations: what is computed of the series is stored,
    or nothing happens; a first state is never refused. *)
Lemma operation_run kind (next : MetricSeriesState -> outcome MetricSeriesState) (f : MetricSeriesState -> MetricSeriesState) :
  registry_ok r -> (forall s e, series_ok key s -> next s = Throw e -> s <> fresh_series metric) ->
  (forall s s', series_ok key s -> ms_kind s = kind -> next s = Ret s' -> s' = f s /\ series_ok key s') ->
  match (try! _ := validate_series metric labels kind r in next (series_at r metric labels)) with
  | Ret _ => exists r', (let! s := require_series metric labels kind in let! s' := of_outcome (next s) in assign_series metric labels s') r = (r', Ret tt) /\
      stored r r' metric labels (f (series_at r metric labels)) /\ registry_ok r'
  | Throw e => (let! s := require_series metric labels kind in let! s' := of_outcome (next s) in assign_series metric labels s') r = (r, Throw e)
  end.
Proof.
  intros Hr Hfresh Hnext. pose proof (require_series_run kind) as Hreq. pose proof (series_at_ok Hr) as Hok.
  destruct (validate_series metric labels kind r) as [found | e] eqn:Hv; cbn [obind]; [| unfold bind at 1; by rewrite Hreq].
  destruct Hreq as (r1 & Hrun1 & Hst & Hsame), (validate_series_found _ _ Hv) as (_ & Hk & Hroom).
  destruct (next (series_at r metric labels)) as [s' | e] eqn:Hn; unfold bind at 1; rewrite Hrun1, run_of_outcome, Hn.
  - destruct (Hnext _ s' Hok) as [-> Hok']; [by rewrite (so_kind _ _ Hok) | done |].
    destruct (assign_stored r1 _ (f (series_at r metric labels)) Hst) as (r2 & Hrun & Hst2). exists r2.
    split; [exact Hrun | split; [done |]]. by apply (stored_ok _ _ Hr Hst2 Hroom).
  - f_equal. apply Hsame. specialize (Hfresh _ _ Hok Hn). unfold series_at in Hfresh. by destruct (find_series key (mr_series r)).
Qed.
End Operations.

(** A series after an operation. *)
Definition incremented (amount : Z) (s : MetricSeriesState) : MetricSeriesState := {| s with ms_scalar := ms_scalar s + amount |}.

Definition gauged (value : Z) (s : MetricSeriesState) : MetricSeriesState := {| s with ms_scalar := value |}.

Definition bucketed (metric : MetricId) (value : Z) (s : MetricSeriesState) : MetricSeriesState :=
  {| s with ms_histogram_buckets := alter (Z.add 1) (lower_bound (md_histogram_boundaries (definition_of metric)) value) (ms_histogram_buckets s);
            ms_histogram_count := ms_histogram_count s + 1;
            ms_histogram_sum := ms_histogram_sum s + value |}.

(** An operation returns when its validation does, and then stores [f] of the series; else it changes nothing. *)
Definition exact_operation (validate : MetricRegistry -> outcome unit) (run : M MetricRegistry unit) (metric : MetricId) (labels : MetricLabels)
    (f : MetricSeriesState -> MetricSeriesState) : Prop :=
  forall r, registry_ok r ->
  match validate r with
  | Ret _ => exists r', run r = (r', Ret tt) /\ stored r r' metric labels (f (series_at r metric labels)) /\ registry_ok r'
  | Throw e => run r = (r, Throw e)
  end.

(** Validation looks at the state of a known series only; of a new one it need not. *)
Lemma validates r metric labels kind (next : MetricSeriesState -> outcome MetricSeriesState) (check : MetricSeriesState -> outcome unit) :
  (forall s, check s = try! _ := next s in Ret tt) -> (exists s, next (fresh_series metric) = Ret s) ->
  (try! found := validate_series metric labels kind r in match found with Some s => check s | None => Ret tt end) =
  (try! _ := (try! _ := validate_series metric labels kind r in next (series_at r metric labels)) in Ret tt).
Proof.
  intros Hc [s0 Hs0]. destruct (validate_series metric labels kind r) as [found | e] eqn:Hv; [cbn [obind] | done].
  destruct (validate_series_found _ _ _ _ _ Hv) as (-> & _ & _). unfold series_at. destruct (find_series _ _); cbn [default]; [apply Hc | by rewrite Hs0].
Qed.

Definition add_scalar (amount : Z) (s : MetricSeriesState) : outcome MetricSeriesState :=
  try! v := TelemetryMetrics.checked_add (ms_scalar s) amount in Ret {| s with ms_scalar := v |}.

Lemma add_scalar_run amount s : u64 amount -> u64 (ms_scalar s) ->
  add_scalar amount s = if decide (ms_scalar s + amount <= u64_max) then Ret (incremented amount s)
                        else Throw (overflow_error "telemetry metric value overflow").
Proof. intros [A1 A2] [B1 B2]. unfold add_scalar. rewrite metric_add by lia. by case_decide. Qed.

(** From the common part to an operation. *)
Lemma exact_from metric labels kind next f validate run :
  (forall r, validate r = try! _ := (try! _ := validate_series metric labels kind r in next (series_at r metric labels)) in Ret tt) ->
  (forall r, run r = (let! s := require_series metric labels kind in let! s' := of_outcome (next s) in assign_series metric labels s') r) ->
  (forall s e, series_ok (mkMetricSeriesKey metric labels) s -> next s = Throw e -> s <> fresh_series metric) ->
  (forall s s', series_ok (mkMetricSeriesKey metric labels) s -> ms_kind s = kind -> next s = Ret s' ->
     s' = f s /\ series_ok (mkMetricSeriesKey metric labels) s') ->
  exact_operation validate run metric labels f.
Proof.
  intros Hval Hrun Hfresh Hnext r Hr. rewrite Hval, Hrun. pose proof (operation_run r metric labels kind next f Hr Hfresh Hnext) as Hop.
  by destruct (try! _ := validate_series metric labels kind r in next (series_at r metric labels)).
Qed.

Lemma increment_exact metric labels amount : u64 amount ->
  exact_operation (validate_increment metric labels amount) (increment metric labels amount) metric labels (incremented amount).
Proof.
  intros Ha. apply (exact_from _ _ MetricKind_Counter (add_scalar amount)).
  - intros r. apply (validates r metric labels MetricKind_Counter (add_scalar amount)
      (fun s => try! _ := TelemetryMetrics.checked_add (ms_scalar s) amount in Ret tt)).
    + intros s. unfold add_scalar. by destruct (TelemetryMetrics.checked_add _ _).
    + rewrite add_scalar_run by (done || (split; vm_compute; congruence)). cbn [fresh_series ms_scalar]. rewrite decide_True by (destruct Ha; lia). by eexists.
  - intros r. unfold increment. unfold bind at 1 3. destruct (require_series _ _ _ r) as [r1 [s | e]]; [| done].
    unfold add_scalar. rewrite !run_of_outcome. by destruct (TelemetryMetrics.checked_add _ _).
  - intros s e Hok Hn ->. rewrite add_scalar_run in Hn by (done || apply Hok). cbn [fresh_series ms_scalar] in Hn.
    rewrite decide_True in Hn by (destruct Ha; lia). done.
  - intros s s' Hok _ Hn. rewrite add_scalar_run in Hn by (done || apply Hok). case_decide as Hd; [| done]. injection Hn as <-.
    split; [done |]. destruct Hok as [K1 K2 K3 K4 K5 K6]. split; cbn; try done. destruct K2, Ha. split; lia.
Qed.

Lemma set_gauge_exact metric labels value : u64 value ->
  exact_operation (validate_set_gauge metric labels value) (set_gauge metric labels value) metric labels (gauged value).
Proof.
  intros Ha. apply (exact_from _ _ MetricKind_Gauge (fun s => Ret (gauged value s))).
  - intros r. unfold validate_set_gauge. by destruct (validate_series _ _ _ _).
  - intros r. unfold set_gauge. unfold bind at 1 2. by destruct (require_series _ _ _ r) as [r1 [s | e]].
  - intros s e _ [=].
  - intros s s' [K1 K2 K3 K4 K5 K6] _ [= <-]. split; [done |]. by split.
Qed.

Lemma lower_bound_le boundaries value : (lower_bound boundaries value <= length boundaries)%nat.
Proof. induction boundaries as [| b l IH]; cbn; [done |]. destruct (b <? value); lia. Qed.

Lemma sum_alter l i : (i < length l)%nat -> sumZ (alter (Z.add 1) i l) = sumZ l + 1.
Proof.
  revert i. induction l as [| x l IH]; intros [| i] Hi; cbn in Hi; try lia.
  - change (sumZ (1 + x :: l) = sumZ (x :: l) + 1). rewrite !sumZ_cons. lia.
  - change (sumZ (x :: alter (Z.add 1) i l) = sumZ (x :: l) + 1). rewrite !sumZ_cons, IH by lia. lia.
Qed.

Lemma alter_insert (l : list Z) i x : l !! i = Some x -> alter (Z.add 1) i l = <[i := x + 1]> l.
Proof.
  revert i. induction l as [| y l IH]; intros [| i] Hi; [done | done | |].
  - injection Hi as ->. change (1 + x :: l = x + 1 :: l). f_equal. lia.
  - change (y :: alter (Z.add 1) i l = y :: <[i := x + 1]> l). f_equal. by apply IH.
Qed.

Lemma observed_returns metric labels s value : u64 value -> series_ok (mkMetricSeriesKey metric labels) s -> ms_kind s = MetricKind_Histogram ->
  forall s', observed (definition_of metric) s value = Ret s' ->
  s' = bucketed metric value s /\ series_ok (mkMetricSeriesKey metric labels) s'.
Proof.
  intros [V1 V2] [K1 K2 K3 K4 [[C1 C2] K5] [S1 S2]] Hk s'. unfold observed. set (i := lower_bound _ value).
  cbn [sk_metric] in K1, K3. rewrite Hk in K1. cbn [fresh_series ms_histogram_buckets] in K3. rewrite bool_decide_eq_true_2, length_replicate in K3 by done.
  pose proof (lower_bound_le (md_histogram_boundaries (definition_of metric)) value) as Hi. fold i in Hi.
  destruct (lookup_lt_is_Some_2 (ms_histogram_buckets s) i) as [x Hx]; [lia |]. rewrite Hx. cbn [default id].
  assert (u64 x) as [X1 X2] by (rewrite Forall_forall in K4; apply K4; by eapply list_elem_of_lookup_2).
  rewrite !metric_add by lia. repeat (case_decide; cbn [obind]; [| done]). intros [= <-].
  assert (bucketed metric value s = {| s with ms_histogram_buckets := <[i := x + 1]> (ms_histogram_buckets s);
    ms_histogram_count := ms_histogram_count s + 1; ms_histogram_sum := ms_histogram_sum s + value |}) as Hb.
  { unfold bucketed. fold i. by rewrite (alter_insert _ _ _ Hx). }
  split; [done |]. split; cbn [ms_kind ms_scalar ms_histogram_buckets ms_histogram_count ms_histogram_sum sk_metric]; try done.
  - by rewrite Hk.
  - rewrite length_insert, K3. cbn [fresh_series ms_histogram_buckets]. by rewrite bool_decide_eq_true_2, length_replicate.
  - apply Forall_insert; [done | split; lia].
  - split; [split; lia |]. rewrite <- (alter_insert _ _ _ Hx), sum_alter by lia. lia.
  - split; lia.
Qed.

Lemma observed_fresh metric value : u64 value -> exists s, observed (definition_of metric) (fresh_series metric) value = Ret s.
Proof.
  intros [V1 V2]. unfold observed. cbn [fresh_series ms_histogram_buckets ms_histogram_count ms_histogram_sum].
  assert (forall i, default 0 ((if bool_decide (md_kind (definition_of metric) = MetricKind_Histogram)
    then replicate (S (length (md_histogram_boundaries (definition_of metric)))) 0 else []) !! i) = 0) as Hz.
  { intros i. case_bool_decide; [| done]. destruct (replicate _ 0 !! i) as [x |] eqn:Hx; [| done]. by apply lookup_replicate in Hx as [-> _]. }
  rewrite Hz, !metric_add by lia. repeat (rewrite decide_True by (unfold u64_max in *; lia); cbn [obind]). by eexists.
Qed.

Lemma observe_exact metric labels value : u64 value ->
  exact_operation (validate_observe metric labels value) (TelemetryMetrics.observe metric labels value) metric labels (bucketed metric value).
Proof.
  intros Hv. apply (exact_from _ _ MetricKind_Histogram (fun s => observed (definition_of metric) s value)).
  - intros r. unfold validate_observe.
    rewrite <- (validates r metric labels MetricKind_Histogram (fun s => observed (definition_of metric) s value)
      (fun s => try! _ := observed (definition_of metric) s value in Ret tt)) by (done || by apply observed_fresh).
    destruct (validate_series _ _ _ _) as [[s |] | e]; cbn [obind]; try done. rewrite metric_definition_known. cbn [obind]. unfold observed.
    repeat (destruct (TelemetryMetrics.checked_add _ _); cbn [obind]; [| done]). done.
  - intros r. unfold TelemetryMetrics.observe. unfold bind at 1 4. destruct (require_series _ _ _ r) as [r1 [s | e]]; [| done].
    by rewrite run_of_outcome, metric_definition_known.
  - intros s e _ Hn ->. destruct (observed_fresh metric value Hv) as [s' Hs']. congruence.
  - intros s s' Hok Hk Hn. by apply (observed_returns metric labels s value).
Qed.

(** ** The metrics of a job that ends *)

(** The increment is refused for lack of room at most. *)
Definition fits (r : MetricRegistry) (e : MetricId * Z) : Prop :=
  validate_labels (definition_of (fst e)) [] = Ret tt /\ md_kind (definition_of (fst e)) = MetricKind_Counter /\
  match find_series (mkMetricSeriesKey (fst e) []) (mr_series r) with Some s => ms_scalar s + snd e <= u64_max | None => True end.

Definition missing (r : MetricRegistry) (values : list (MetricId * Z)) : Z :=
  zlength (filter (fun e => find_series (mkMetricSeriesKey (fst e) []) (mr_series r) = None) values).

Lemma missing_cons r e values : missing r (e :: values) =
  (match find_series (mkMetricSeriesKey (fst e) []) (mr_series r) with Some _ => 0 | None => 1 end) + missing r values.
Proof.
  unfold missing. rewrite filter_cons. destruct (find_series _ _) eqn:Hf; [rewrite decide_False by done | rewrite decide_True by done];
    rewrite ?zlength_cons; lia.
Qed.

Lemma validate_increment_fits r metric value : registry_ok r -> u64 value ->
  validate_increment metric [] value r = Ret tt <-> fits r (metric, value) /\ has_room r metric [].
Proof.
  intros Hr [V1 V2]. unfold validate_increment, validate_series, fits, has_room. cbn [fst snd]. rewrite metric_definition_known. cbn [obind].
  destruct (validate_labels (definition_of metric) []) as [[] | e]; cbn [obind]; [| by split; [| intros [[? _] _]]].
  unfold require. case_bool_decide as Hk; cbn [obind]; [| by split; [| intros [(_ & ? & _) _]]].
  unfold registry_size. destruct (find_series _ _) as [s |] eqn:Hf; cbn [obind].
  - pose proof (so_scalar _ _ (ro_series _ Hr _ _ Hf)) as [S1 S2]. rewrite metric_add by lia. case_decide; cbn [obind]; split; try done.
    by intros [(_ & _ & ?) _].
  - destruct (Z.geb_spec (zlength (mr_series r)) (mr_maximum_series r)); cbn [obind]; split; try done.
    intros [_ Hroom]. specialize (Hroom eq_refl). lia.
Qed.

Lemma terminal_values_fit r values : registry_ok r -> Forall (fun e => u64 (snd e)) values -> forall k m,
  validate_terminal_values r values k = Ret m -> Forall (fits r) values /\ m = k + missing r values.
Proof.
  intros Hr Hw. induction values as [| [metric value] values IH]; intros k m; cbn [validate_terminal_values].
  - intros [= <-]. split; [by constructor |]. unfold missing. rewrite filter_nil. unfold zlength. cbn. lia.
  - apply Forall_cons in Hw as [Hv Hw]. unfold registry_find at 1. rewrite metric_definition_known. cbn [obind].
    destruct (validate_increment metric [] value r) as [[] | e] eqn:Hi; [cbn [obind] | done].
    apply validate_increment_fits in Hi as [Hfit Hroom]; [| done ..]. intros [Hall ->]%IH; [| done]. split; [by constructor |].
    rewrite missing_cons. cbn [fst]. unfold find_snapshot. destruct (find_series _ _); cbn; lia.
Qed.

Lemma terminal_increments r values : registry_ok r -> Forall (fun e => u64 (snd e)) values -> NoDup (fst <$> values) ->
  Forall (fits r) values -> registry_size r + missing r values <= mr_maximum_series r ->
  exists r', for_each values (fun '(metric, value) => increment metric [] value) r = (r', Ret tt) /\ registry_ok r' /\
    mr_maximum_series r' = mr_maximum_series r.
Proof.
  intros Hr Hw. revert r Hr. induction values as [| [metric value] values IH]; intros r Hr Hnd Hfit Hsize; [by exists r |].
  apply Forall_cons in Hw as [Hv Hw], Hfit as [Hf1 Hfit]. rewrite fmap_cons in Hnd. apply NoDup_cons in Hnd as [Hni Hnd].
  rewrite missing_cons in Hsize. cbn [fst] in *. pose proof (zlength_nonneg (filter (fun e => find_series (mkMetricSeriesKey (fst e) []) (mr_series r) = None) values)) as Hm0.
  fold (missing r values) in Hm0.
  pose proof (increment_exact metric [] value Hv r Hr) as Hinc. rewrite (proj2 (validate_increment_fits r metric value Hr Hv)) in Hinc.
  2: { split; [done |]. intros Hn. rewrite Hn in Hsize. lia. }
  destruct Hinc as (r1 & Hrun & [F M Sz] & Hr1).
  assert (forall e, e ∈ values -> find_series (mkMetricSeriesKey (fst e) []) (mr_series r1) = find_series (mkMetricSeriesKey (fst e) []) (mr_series r)) as Hsame.
  { intros e He. rewrite F, decide_False; [done |]. intros [= Heq]. apply Hni. rewrite <- Heq. apply list_elem_of_fmap. eauto. }
  destruct (IH Hw r1 Hr1 Hnd) as (r2 & Hrun2 & Hr2 & Hm).
  - apply Forall_forall. intros e He. rewrite Forall_forall in Hfit. destruct (Hfit e He) as (H1 & H2 & H3). unfold fits. by rewrite Hsame.
  - assert (missing r1 values = missing r values) as ->; [| lia]. unfold missing. f_equal. apply filter_ext_in. intros e He. by rewrite Hsame.
  - exists r2. cbn [for_each]. unfold bind. rewrite Hrun, Hrun2. split; [done | split; [done | congruence]].
Qed.

(** ** A registry holds what its observations say

    Each series of a registry as a function of the accepted observations: the sum
    of the amounts of a counter, the last value of a gauge, and the numbers of
    observations of a histogram by bucket. *)

(** ** The reference *)

Definition key_of (o : TelemetryObservation) : option (MetricSeriesKey * Z) :=
  match o with
  | CounterObservation metric labels v | GaugeObservation metric labels v | HistogramObservation metric labels v =>
      Some (mkMetricSeriesKey metric labels, v)
  | _ => None
  end.

(** The values observed of a series, in order. *)
Definition values_of (key : MetricSeriesKey) (log : list TelemetryObservation) : list Z :=
  omap (fun o => match key_of o with Some (k, v) => if bool_decide (k = key) then Some v else None | None => None end) log.

Definition in_bucket (boundaries : list Z) (values : list Z) (i : nat) : Z :=
  zlength (filter (fun v => lower_bound boundaries v = i) values).

(** The series that values make. *)
Definition reference (metric : MetricId) (values : list Z) : MetricSeriesState :=
  let d := definition_of metric in
  match md_kind d with
  | MetricKind_Counter => mkMetricSeriesState MetricKind_Counter (sumZ values) [] 0 0
  | MetricKind_Gauge => mkMetricSeriesState MetricKind_Gauge (default 0 (last values)) [] 0 0
  | MetricKind_Histogram =>
      mkMetricSeriesState MetricKind_Histogram 0
        (in_bucket (md_histogram_boundaries d) values <$> seq 0 (S (length (md_histogram_boundaries d))))
        (zlength values) (sumZ values)
  | MetricKind_DerivedSummary => fresh_series metric
  end.

Definition described (values : list Z) (metric : MetricId) : option MetricSeriesState :=
  match values with [] => None | _ => Some (reference metric values) end.

Definition describes (r : MetricRegistry) (log : list TelemetryObservation) : Prop :=
  forall key, find_series key (mr_series r) = described (values_of key log) (sk_metric key).

(** Observations one after the other, with those that are accepted. *)
Fixpoint collect (observations : list TelemetryObservation) (r : MetricRegistry) : MetricRegistry * list TelemetryObservation :=
  match observations with
  | [] => (r, [])
  | o :: rest =>
      match apply_metric_observation o r with
      | (r', Ret _) => let '(r'', log) := collect rest r' in (r'', o :: log)
      | (r', Throw _) => collect rest r'
      end
  end.

Definition observation_ok (o : TelemetryObservation) : Prop := match key_of o with Some (_, v) => u64 v | None => True end.

(** ** The reference, one value at a time *)

Lemma values_snoc key log o : values_of key (log ++ [o]) =
  values_of key log ++ match key_of o with Some (k, v) => if bool_decide (k = key) then [v] else [] | None => [] end.
Proof. unfold values_of. rewrite omap_app. f_equal. cbn. destruct (key_of o) as [[k v] |]; [| done]. by case_bool_decide. Qed.

Lemma reference_nil metric : reference metric [] = fresh_series metric.
Proof.
  unfold reference, fresh_series. destruct (md_kind _) eqn:Hk; [done | done | | done]. rewrite bool_decide_eq_true_2 by done. f_equal.
  generalize (S (length (md_histogram_boundaries (definition_of metric)))) as n. generalize 0%nat as i.
  intros i n. revert i. induction n as [| n IH]; intros i; [done |]. cbn [seq]. rewrite fmap_cons, IH. done.
Qed.

Lemma in_bucket_snoc boundaries values v i :
  in_bucket boundaries (values ++ [v]) i = in_bucket boundaries values i + (if decide (lower_bound boundaries v = i) then 1 else 0).
Proof.
  unfold in_bucket. rewrite filter_app, zlength_app. f_equal. rewrite filter_cons, filter_nil. by case_decide.
Qed.

Lemma sumZ_snoc values v : sumZ (values ++ [v]) = sumZ values + v.
Proof. rewrite sumZ_app. cbn. lia. Qed.

Lemma reference_counter metric values v : md_kind (definition_of metric) = MetricKind_Counter ->
  reference metric (values ++ [v]) = incremented v (reference metric values).
Proof. intros Hk. unfold reference, incremented. rewrite Hk. cbn. by rewrite sumZ_snoc. Qed.

Lemma reference_gauge metric values v : md_kind (definition_of metric) = MetricKind_Gauge ->
  reference metric (values ++ [v]) = gauged v (reference metric values).
Proof. intros Hk. unfold reference, gauged. rewrite Hk. cbn. by rewrite last_snoc. Qed.

Lemma reference_histogram metric values v : md_kind (definition_of metric) = MetricKind_Histogram ->
  reference metric (values ++ [v]) = bucketed metric v (reference metric values).
Proof.
  intros Hk. unfold reference, bucketed. rewrite Hk. cbn [ms_kind ms_scalar ms_histogram_buckets ms_histogram_count ms_histogram_sum].
  rewrite sumZ_snoc, zlength_app. change (zlength [v]) with 1. set (b := md_histogram_boundaries _).
  assert ((in_bucket b (values ++ [v]) <$> seq 0 (S (length b))) =
    alter (Z.add 1) (lower_bound b v) (in_bucket b values <$> seq 0 (S (length b)))) as ->; [| done].
  apply list_eq. intros i. destruct (decide (lower_bound b v = i)) as [<- | Hne].
  - rewrite list_lookup_alter_eq, !list_lookup_fmap. destruct (seq _ _ !! _) as [j |] eqn:Hj; [| done]. cbn. apply lookup_seq in Hj as [-> _].
    rewrite in_bucket_snoc, decide_True by lia. f_equal. lia.
  - rewrite list_lookup_alter_ne by done. rewrite !list_lookup_fmap. destruct (seq _ _ !! i) as [j |] eqn:Hj; [| done]. cbn. apply lookup_seq in Hj as [-> _].
    rewrite in_bucket_snoc, decide_False by lia. f_equal. lia.
Qed.

(** ** The registry *)

Lemma describes_series r log metric labels : describes r log ->
  series_at r metric labels = reference metric (values_of (mkMetricSeriesKey metric labels) log).
Proof.
  intros Hd. unfold series_at. rewrite Hd. unfold described. cbn [sk_metric]. by destruct (values_of _ _); [rewrite reference_nil |].
Qed.

Lemma describes_stored r r' log o metric labels v : describes r log -> key_of o = Some (mkMetricSeriesKey metric labels, v) ->
  stored r r' metric labels (reference metric (values_of (mkMetricSeriesKey metric labels) log ++ [v])) -> describes r' (log ++ [o]).
Proof.
  intros Hd Ho [F _ _] key. rewrite F, values_snoc, Ho. case_decide as Hk.
  - subst key. rewrite bool_decide_eq_true_2 by done. cbn [sk_metric]. unfold described. by destruct (values_of _ _).
  - rewrite bool_decide_eq_false_2, app_nil_r by congruence. apply Hd.
Qed.

(** An accepted operation is one more value; a refused one leaves the registry as it was. *)
Lemma exact_describes validate run metric labels kind f o v r log :
  exact_operation validate run metric labels f -> (forall r, validate r = Ret tt -> md_kind (definition_of metric) = kind) ->
  (md_kind (definition_of metric) = kind -> forall values, reference metric (values ++ [v]) = f (reference metric values)) ->
  key_of o = Some (mkMetricSeriesKey metric labels, v) -> registry_ok r -> describes r log ->
  match run r with
  | (r', Ret _) => registry_ok r' /\ describes r' (log ++ [o])
  | (r', Throw e) => r' = r /\ validate r = Throw e
  end.
Proof.
  intros Hex Hkind Href Ho Hr Hd. specialize (Hex r Hr). destruct (validate r) as [[] | e] eqn:Hv; [| by rewrite Hex].
  destruct Hex as (r' & -> & Hst & Hr'). split; [done |]. rewrite (describes_series r log) in Hst by done.
  rewrite <- Href in Hst by (by apply (Hkind r)). by eapply describes_stored.
Qed.

Lemma validate_series_kind metric labels kind r found : validate_series metric labels kind r = Ret found -> md_kind (definition_of metric) = kind.
Proof. intros Hv. by destruct (validate_series_found _ _ _ _ _ Hv) as (_ & -> & _). Qed.

Lemma apply_describes o r log : observation_ok o -> registry_ok r -> describes r log ->
  match apply_metric_observation o r with
  | (r', Ret _) => registry_ok r' /\ describes r' (log ++ [o])
  | (r', Throw e) => r' = r /\ validate_metric_observation r o = Throw e
  end.
Proof.
  intros Ho Hr Hd.
  assert (key_of o = None -> describes r (log ++ [o])) as Hnone.
  { intros Hn key. rewrite values_snoc, Hn, app_nil_r. apply Hd. }
  destruct o; cbn [apply_metric_observation validate_metric_observation] in *; try (split; [done | by apply Hnone]); clear Hnone.
  - eapply (exact_describes _ _ metric labels); [by apply increment_exact | | intros Hk vs; by apply reference_counter | done ..].
    intros r0. unfold validate_increment. destruct (validate_series _ _ _ _) eqn:Hv; [intros _ | done]. by eapply validate_series_kind.
  - eapply (exact_describes _ _ metric labels); [by apply set_gauge_exact | | intros Hk vs; by apply reference_gauge | done ..].
    intros r0. unfold validate_set_gauge. destruct (validate_series _ _ _ _) eqn:Hv; [intros _ | done]. by eapply validate_series_kind.
  - eapply (exact_describes _ _ metric labels); [by apply observe_exact | | intros Hk vs; by apply reference_histogram | done ..].
    intros r0. unfold validate_observe. destruct (validate_series _ _ _ _) eqn:Hv; [intros _ | done]. by eapply validate_series_kind.
Qed.

Lemma collect_describes observations r r' log log' : Forall observation_ok observations -> registry_ok r -> describes r log ->
  collect observations r = (r', log') -> registry_ok r' /\ describes r' (log ++ log').
Proof.
  intros Ho. revert r r' log log'. induction Ho as [| o observations Ho _ IH]; intros r r' log log' Hr Hd; cbn [collect].
  - intros [= <- <-]. by rewrite app_nil_r.
  - pose proof (apply_describes o r log Ho Hr Hd) as Happ. destruct (apply_metric_observation o r) as [r1 [[] | e]].
    + destruct Happ as [Hr1 Hd1]. destruct (collect observations r1) as [r2 log2] eqn:Hc. intros [= <- <-].
      destruct (IH r1 r2 (log ++ [o]) log2 Hr1 Hd1 Hc) as [H1 H2]. split; [done |]. by rewrite <- app_assoc in H2.
    + destruct Happ as [-> _]. by apply IH.
Qed.

Lemma new_registry_ok m h r : u64 m -> new_registry m h = Ret r -> registry_ok r /\ describes r [] /\ mr_maximum_series r = m.
Proof.
  intros [M1 M2]. unfold new_registry, require. destruct (Z.eqb_spec m 0); [done |]. destruct (Z.eqb_spec h 0); [done |]. cbn [orb negb obind].
  destruct (validate_metric_catalog _ _); [cbn [obind] | done]. intros [= <-]. split; [| by split; [intros key |]].
  split; cbn [mr_maximum_series]; [| done]. split; [lia |]. unfold registry_size, zlength. cbn. lia.
Qed.
