(* ===== verification/TelemetryAttribution.v ===== *)
(** * The time accounts of jobs

    The time a job spends in each phase as a function of its accepted transitions,
    and the states of the summary that agree with it. *)

From S2P Require Import Prelude SimTime Entities TelemetryRecords TelemetryMetrics TelemetrySummary TelemetryLaws.

(** ** The reference *)

(** When, what, and whether a collective is active. *)
Abbreviation Step := (SimTimeNs * JobTransition * bool)%type (only parsing).

Definition step_time (step : Step) : Z := fst (fst step).

Definition last_time (history : list Step) : Z := match last history with Some step => step_time step | None => 0 end.

(** The transitions of collectives, steps and admission do not interrupt work
    that goes on. *)
Definition interrupts (step : Step) : Prop :=
  snd (fst step) ∉ [JobTransition_Admitted; JobTransition_CollectiveStarted; JobTransition_CollectiveCompleted; JobTransition_StepCompleted].

#[local] Instance interrupts_dec step : Decision (interrupts step).
Proof. unfold interrupts. apply _. Defined.

(** What the job works at: compute or the delay of a straggler, when that was the
    last thing to begin. *)
Definition work (history : list Step) : option JobPhase :=
  match last (filter interrupts history) with
  | Some (_, JobTransition_ComputeStarted, _) => Some JobPhase_Compute
  | Some (_, JobTransition_StragglerStarted, _) => Some JobPhase_StragglerDelay
  | _ => None
  end.

(** What a job that does not work waits for after a transition; a running
    collective is communication, the end of compute without one is a barrier. *)
Definition waits_after (tr : JobTransition) (collective : bool) : JobPhase :=
  if decide (tr ∈ [JobTransition_Succeeded; JobTransition_Failed; JobTransition_Cancelled]) then JobPhase_Terminal else
  if decide (tr = JobTransition_CollectiveStarted \/ tr = JobTransition_ComputeCompleted /\ collective = true) then JobPhase_Communication else
  if decide (tr ∈ [JobTransition_SynchronizationStarted; JobTransition_ComputeCompleted]) then JobPhase_SynchronizationWait else
  if decide (tr ∈ [JobTransition_Arrived; JobTransition_Waiting]) then JobPhase_SchedulingWait else JobPhase_TerminalOther.

(** The phase a job is in: its work, else what its last transition makes it wait for. *)
Definition phase_of (history : list Step) : JobPhase :=
  match work history, last history with
  | Some phase, _ => phase
  | None, Some (_, tr, c) => waits_after tr c
  | None, None => JobPhase_SchedulingWait
  end.

(** The time between transitions that is spent in a phase. *)
Fixpoint spent (p : JobPhase) (seen rest : list Step) : Z :=
  match rest with
  | [] => 0
  | step :: rest => (if decide (phase_of seen = p) then step_time step - last_time seen else 0) + spent p (seen ++ [step]) rest
  end.

Definition time_in (p : JobPhase) (history : list Step) : Z :=
  match history with [] => 0 | step :: rest => spent p [step] rest end.

Definition first_time (history : list Step) : Z := match history with [] => 0 | step :: _ => step_time step end.

(** The field of a phase. *)
Definition spent_in (s : JobAttributionSnapshot) (p : JobPhase) : Z :=
  match p with
  | JobPhase_SchedulingWait => ja_scheduling_wait_ns s
  | JobPhase_Compute => ja_compute_ns s
  | JobPhase_Communication => ja_communication_ns s
  | JobPhase_SynchronizationWait => ja_synchronization_wait_ns s
  | JobPhase_StragglerDelay => ja_straggler_delay_ns s
  | JobPhase_TerminalOther => ja_terminal_other_ns s
  | JobPhase_Terminal => 0
  end.

Definition total (s : JobAttributionSnapshot) : Z :=
  ja_scheduling_wait_ns s + ja_compute_ns s + ja_communication_ns s + ja_synchronization_wait_ns s + ja_straggler_delay_ns s +
  ja_terminal_other_ns s.

(** ** The reference, one transition at a time *)

(** The state machine of the code computes it. *)
Lemma phase_of_snoc history t tr c : phase_of (history ++ [(t, tr, c)]) = next_phase (phase_of history) tr c.
Proof.
  assert (forall p, work history = Some p -> p = JobPhase_Compute \/ p = JobPhase_StragglerDelay) as Hwork.
  { intros p. unfold work. destruct (last _) as [[[? []] ?] |]; intros [= <-]; auto. }
  assert (work history = None -> phase_of history <> JobPhase_Compute /\ phase_of history <> JobPhase_StragglerDelay) as Hidle.
  { intros Hn. unfold phase_of. rewrite Hn. destruct (last history) as [[[? tr'] c'] |] eqn:Hl; [| done].
    unfold waits_after. repeat case_decide; done. }
  assert (forall p, work history = Some p -> phase_of history = p) as Hp by (intros p; unfold phase_of; by intros ->).
  unfold phase_of at 1, work. rewrite filter_app, last_snoc. unfold next_phase.
  destruct tr; try (rewrite filter_cons_True, filter_nil, last_snoc by (by apply (bool_decide_unpack _)); by destruct c).
  all: rewrite filter_cons_False, filter_nil, app_nil_r by (by apply (bool_decide_unpack _)); fold (work history).
  all: destruct (work history) as [p |];
    [rewrite (Hp p eq_refl); by destruct (Hwork p eq_refl) as [-> | ->] | destruct (Hidle eq_refl); by rewrite !bool_decide_eq_false_2].
Qed.

Lemma last_time_snoc history step : last_time (history ++ [step]) = step_time step.
Proof. unfold last_time. by rewrite last_snoc. Qed.

Lemma first_time_snoc history step : history <> [] -> first_time (history ++ [step]) = first_time history.
Proof. by destruct history. Qed.

Lemma spent_snoc p seen history step : spent p seen (history ++ [step]) = spent p seen history +
  (if decide (phase_of (seen ++ history) = p) then step_time step - last_time (seen ++ history) else 0).
Proof.
  revert seen. induction history as [| s history IH]; intros seen; [cbn [spent app]; rewrite app_nil_r; lia |].
  change ((s :: history) ++ [step]) with (s :: (history ++ [step])). cbn [spent]. rewrite IH, <- app_assoc. cbn [app]. lia.
Qed.

Lemma time_in_snoc p history step : history <> [] -> time_in p (history ++ [step]) = time_in p history +
  (if decide (phase_of history = p) then step_time step - last_time history else 0).
Proof. destruct history as [| s history]; [done |]. intros _. apply (spent_snoc p [s] history step). Qed.

(** ** Fields *)

Record fields_ok (s : JobAttributionSnapshot) : Prop := {
  fo_nonneg p : 0 <= spent_in s p;
  fo_total : total s <= u64_max;
}.

Lemma fields_nonneg s : fields_ok s -> 0 <= ja_scheduling_wait_ns s /\ 0 <= ja_compute_ns s /\ 0 <= ja_communication_ns s /\
  0 <= ja_synchronization_wait_ns s /\ 0 <= ja_straggler_delay_ns s /\ 0 <= ja_terminal_other_ns s.
Proof.
  intros [H _]. pose proof (H JobPhase_SchedulingWait). pose proof (H JobPhase_Compute). pose proof (H JobPhase_Communication).
  pose proof (H JobPhase_SynchronizationWait). pose proof (H JobPhase_StragglerDelay). pose proof (H JobPhase_TerminalOther). done.
Qed.

Lemma accounted_total s : fields_ok s -> accounted_ns s = Ret (total s).
Proof.
  intros Hf. destruct (fields_nonneg s Hf) as (H1 & H2 & H3 & H4 & H5 & H6). pose proof (fo_total s Hf) as Ht. unfold total in *. unfold accounted_ns.
  repeat (rewrite duration_add by lia; rewrite decide_True by lia; cbn [obind]). done.
Qed.

(** A duration that fits is added to the field of the phase and nothing else. *)
Lemma add_interval_run s phase d : fields_ok s -> 0 <= d -> total s + d <= u64_max -> exists s',
  add_interval s phase d = Ret s' /\ (forall p, spent_in s' p = spent_in s p + (if decide (phase = p) then if decide (p = JobPhase_Terminal) then 0 else d else 0)) /\
  total s' = total s + (if decide (phase = JobPhase_Terminal) then 0 else d) /\ ja_job s' = ja_job s /\ ja_terminal s' = ja_terminal s.
Proof.
  intros Hf Hd Ht. destruct (fields_nonneg s Hf) as (H1 & H2 & H3 & H4 & H5 & H6). unfold total in *.
  destruct phase; cbn [add_interval]; try (rewrite duration_add, decide_True by lia; cbn [obind]); eexists; (split; [done |]);
    (split; [by intros []; cbn [spent_in ja_scheduling_wait_ns ja_compute_ns ja_communication_ns ja_synchronization_wait_ns ja_straggler_delay_ns ja_terminal_other_ns];
       repeat case_decide; try done; lia |]);
    cbn [ja_job ja_terminal ja_scheduling_wait_ns ja_compute_ns ja_communication_ns ja_synchronization_wait_ns ja_straggler_delay_ns ja_terminal_other_ns];
    (split; [repeat case_decide; try done; lia | done]).
Qed.

(** ** The states of a job *)

Record accounts (job : JobId) (st : JobPhaseState) (history : list Step) : Prop := {
  ac_nonempty : history <> [];
  ac_job : ja_job (jp_snapshot st) = job;
  ac_phase : jp_phase st = phase_of history;
  ac_last : jp_last_transition st = last_time history;
  ac_spent p : p <> JobPhase_Terminal -> spent_in (jp_snapshot st) p = time_in p history;
  ac_terminal : ja_terminal (jp_snapshot st) = bool_decide (phase_of history = JobPhase_Terminal);
  ac_first : 0 <= first_time history <= last_time history;
  ac_bound : last_time history <= u64_max;
  ac_nonneg p : 0 <= spent_in (jp_snapshot st) p;
  ac_total : total (jp_snapshot st) = last_time history - first_time history;
}.

Lemma accounts_fields job st history : accounts job st history -> fields_ok (jp_snapshot st).
Proof. intros H. split; [apply H |]. rewrite (ac_total _ _ _ H). pose proof (ac_bound _ _ _ H). pose proof (ac_first _ _ _ H). lia. Qed.

(** The first transition of a job. *)
Lemma transition_first job t tr c st : u64 t -> transition None job t tr c = Ret st -> accounts job st [(t, tr, c)].
Proof.
  intros [T1 T2]. unfold transition, require. destruct (_ || _) eqn:Hg; cbn [obind]; [| done]. intros [= <-].
  assert (phase_of [(t, tr, c)] = if terminal_transition tr then JobPhase_Terminal else JobPhase_SchedulingWait) as Hp.
  { change [(t, tr, c)] with ([] ++ [(t, tr, c)]). rewrite phase_of_snoc. destruct tr; try done; exfalso; vm_compute in Hg; done. }
  assert (forall p, time_in p [(t, tr, c)] = 0) as Ht by (intros p; done).
  destruct (terminal_transition tr); split; rewrite ?Hp, ?Ht; cbn [jp_snapshot jp_phase jp_last_transition ja_job ja_terminal new_attribution]; try done.
  all: try (intros []; done). all: try (intros []; cbn; lia).
  all: try (unfold last_time; cbn [last step_time fst]; lia). all: unfold total, last_time; cbn; lia.
Qed.

(** A later one: its only errors are the three guards. *)
Lemma transition_next job st history t tr c : accounts job st history -> u64 t ->
  match transition (Some st) job t tr c with
  | Ret st' => accounts job st' (history ++ [(t, tr, c)]) /\ ja_terminal (jp_snapshot st) = false /\ jp_last_transition st <= t
  | Throw _ => ja_terminal (jp_snapshot st) = true \/ tr = JobTransition_Arrived \/ t < jp_last_transition st
  end.
Proof.
  intros Ha [T1 T2]. unfold transition, require. destruct (ja_terminal (jp_snapshot st)) eqn:Hte; cbn [negb obind]; [by left |].
  case_bool_decide; cbn [negb obind]; [by right; left |]. destruct (Z.ltb_spec t (jp_last_transition st)) as [Hlt | Hge]; cbn [negb obind]; [by right; right |].
  pose proof (ac_first _ _ _ Ha) as [F1 F2]. pose proof (ac_bound _ _ _ Ha) as B. pose proof (ac_total _ _ _ Ha) as Tot. pose proof (ac_last _ _ _ Ha) as L.
  rewrite u64_wrap_id by (split; lia).
  destruct (add_interval_run (jp_snapshot st) (jp_phase st) (t - jp_last_transition st) (accounts_fields _ _ _ Ha)) as (s' & -> & Hsp & Htot & Hj & Hter); [lia .. |].
  cbn [obind]. split; [| done]. rewrite (ac_terminal _ _ _ Ha) in Hte. rewrite bool_decide_eq_false in Hte. rewrite (ac_phase _ _ _ Ha) in *.
  pose proof (ac_nonempty _ _ _ Ha) as Hne. rewrite decide_False in Htot by done.
  split; rewrite ?phase_of_snoc, ?last_time_snoc, ?first_time_snoc by done;
    cbn [jp_snapshot jp_phase jp_last_transition ja_job ja_terminal step_time fst]; try done.
  - by destruct history.
  - by rewrite Hj, (ac_job _ _ _ Ha).
  - intros p Hp. rewrite time_in_snoc by done. cbn [step_time fst]. rewrite <- (ac_spent _ _ _ Ha p Hp), <- L.
    change (spent_in _ p) with (spent_in s' p) at 1. rewrite Hsp, (decide_False (P := p = JobPhase_Terminal)) by done. done.
  - lia.
  - intros p. change (0 <= spent_in s' p). rewrite Hsp. pose proof (ac_nonneg _ _ _ Ha p). repeat case_decide; lia.
  - change (total s' = t - first_time history). lia.
Qed.

(** ** Summaries *)

Abbreviation Event := (SimTimeNs * Correlation * TelemetryObservation)%type (only parsing).

Definition event_ok (e : Event) : Prop := u64 (fst (fst e)) /\ observation_ok (snd e).

Definition job_step (job : JobId) (e : Event) : option Step :=
  match e with
  | (t, c, JobObservation tr _ _ _ _) =>
      if bool_decide (corr_job c = Some job) then Some (t, tr, has_value (corr_collective c)) else None
  | _ => None
  end.

(** The transitions of a job among accepted observations. *)
Definition history (job : JobId) (log : list Event) : list Step := omap (job_step job) log.

Record summary_ok (b : SummaryBuilder) (log : list Event) : Prop := {
  su_metrics : registry_ok (sb_metrics_ b);
  su_maximum : mr_maximum_series (sb_metrics_ b) = sb_maximum_metric_series_ b;
  su_jobs job : match sb_jobs_ b !! job with
    | None => history job log = []
    | Some st => accounts job st (history job log) /\ exists l, sb_last_timestamp_ b = Some l /\ jp_last_transition st <= l
    end;
}.

Lemma history_snoc job log e : history job (log ++ [e]) = history job log ++ match job_step job e with Some s => [s] | None => [] end.
Proof. unfold history. by rewrite omap_app. Qed.

Lemma apply_metric_run o r : observation_ok o -> registry_ok r ->
  match validate_metric_observation r o with
  | Ret _ => exists r', apply_metric_observation o r = (r', Ret tt) /\ registry_ok r' /\ mr_maximum_series r' = mr_maximum_series r
  | Throw e => apply_metric_observation o r = (r, Throw e)
  end.
Proof.
  intros Ho Hr.
  assert (forall validate run metric labels f, exact_operation validate run metric labels f ->
    match validate r with
    | Ret _ => exists r', run r = (r', Ret tt) /\ registry_ok r' /\ mr_maximum_series r' = mr_maximum_series r
    | Throw e => run r = (r, Throw e)
    end) as Hex.
  { intros validate run metric labels f H. specialize (H r Hr). destruct (validate r); [| done]. destruct H as (r' & ? & [_ ? _] & ?). eauto. }
  destruct o; cbn [validate_metric_observation apply_metric_observation]; try by exists r.
  - by eapply Hex, increment_exact.
  - by eapply Hex, set_gauge_exact.
  - by eapply Hex, observe_exact.
Qed.

Lemma on_metrics_each values b : for_each values (fun '(metric, value) => on_metrics (increment metric [] value)) b =
  on_metrics (for_each values (fun '(metric, value) => increment metric [] value)) b.
Proof.
  revert b. induction values as [| [metric value] values IH]; intros b; [by destruct b |]. cbn [for_each]. unfold on_metrics at 1 3, zoom, bind.
  destruct (increment metric [] value (sb_metrics_ b)) as [r [[] | e]] eqn:Hi; [| done]. rewrite IH. by unfold on_metrics, zoom.
Qed.

(** Validated metrics of a job that ends are applied. *)
Lemma apply_terminal_run job st h b log : summary_ok b log -> accounts job st h -> validate_terminal_metrics st b = Ret tt ->
  exists r, apply_terminal_metrics st b = ({| b with sb_metrics_ := r |}, Ret tt) /\ registry_ok r /\ mr_maximum_series r = sb_maximum_metric_series_ b.
Proof.
  intros Hb Ha. unfold validate_terminal_metrics, apply_terminal_metrics. pose proof (su_metrics _ _ Hb) as Hr.
  assert (Forall (fun e => u64 (snd e)) (terminal_metrics (jp_snapshot st))) as Hv.
  { pose proof (accounts_fields _ _ _ Ha) as Hf. destruct (fields_nonneg _ Hf) as (H1 & H2 & H3 & H4 & H5 & H6).
    pose proof (fo_total _ Hf) as Ht. unfold total in Ht. repeat (apply Forall_cons; split; [cbn [snd]; split; lia |]). by constructor. }
  destruct (validate_terminal_values _ _ 0) as [m | e] eqn:Hval; cbn [obind]; [| done].
  destruct (terminal_values_fit _ _ Hr Hv 0 m Hval) as [Hfit ->]. unfold require.
  pose proof (ro_size _ Hr) as [[Z1 Z2] Z3]. pose proof (zlength_nonneg (mr_series (sb_metrics_ b))) as Z4. fold (registry_size (sb_metrics_ b)) in Z4.
  rewrite (su_maximum _ _ Hb) in *. rewrite u64_wrap_id by (split; lia). destruct (Z.gtb_spec (0 + missing (sb_metrics_ b) (terminal_metrics (jp_snapshot st)))
    (sb_maximum_metric_series_ b - registry_size (sb_metrics_ b))); cbn [negb]; [done |]. intros _.
  destruct (terminal_increments _ _ Hr Hv) as (r & Hrun & Hr' & Hm); [| done | rewrite (su_maximum _ _ Hb); lia |].
  { apply (bool_decide_unpack _). vm_compute. exact I. }
  exists r. rewrite on_metrics_each. unfold on_metrics, zoom. rewrite Hrun. split; [done |]. split; [done |]. by rewrite Hm, (su_maximum _ _ Hb).
Qed.

(** An observation that is not of a job. *)
Lemma summary_ok_other b log r t c o : summary_ok b log -> (forall job, job_step job (t, c, o) = None) -> registry_ok r ->
  mr_maximum_series r = sb_maximum_metric_series_ b -> match sb_last_timestamp_ b with Some l => l <= t | None => True end ->
  summary_ok {| b with sb_metrics_ := r; sb_last_timestamp_ := Some t |} (log ++ [(t, c, o)]).
Proof.
  intros Hb Hn Hr Hm Hl. split; cbn [sb_metrics_ sb_maximum_metric_series_ sb_jobs_ sb_last_timestamp_]; [done .. |].
  intros job. rewrite history_snoc, Hn, app_nil_r. pose proof (su_jobs _ _ Hb job) as Hj. destruct (sb_jobs_ b !! job); [| done].
  destruct Hj as (Hj & l & Hbl & Hle). split; [done |]. rewrite Hbl in Hl. exists t. split; [done | lia].
Qed.

(** A transition of a job. *)
Lemma summary_ok_job b log r t c tr x y z w job st : summary_ok b log -> corr_job c = Some job -> registry_ok r ->
  mr_maximum_series r = sb_maximum_metric_series_ b -> match sb_last_timestamp_ b with Some l => l <= t | None => True end ->
  accounts job st (history job log ++ [(t, tr, has_value (corr_collective c))]) ->
  summary_ok {| b with sb_metrics_ := r; sb_jobs_ := <[job := st]> (sb_jobs_ b); sb_last_timestamp_ := Some t |} (log ++ [(t, c, JobObservation tr x y z w)]).
Proof.
  intros Hb Hc Hr Hm Hl Ha. split; cbn [sb_metrics_ sb_maximum_metric_series_ sb_jobs_ sb_last_timestamp_]; [done .. |].
  intros job'. rewrite history_snoc. cbn [job_step]. rewrite Hc. destruct (decide (job' = job)) as [-> | Hne].
  - rewrite lookup_insert_eq, bool_decide_eq_true_2 by done. split; [done |]. exists t. split; [done |]. rewrite (ac_last _ _ _ Ha), last_time_snoc. cbn. lia.
  - rewrite lookup_insert_ne, bool_decide_eq_false_2, app_nil_r by congruence. pose proof (su_jobs _ _ Hb job') as Hj. destruct (sb_jobs_ b !! job'); [| done].
    destruct Hj as (Hj & l & Hbl & Hle). split; [done |]. rewrite Hbl in Hl. exists t. split; [done | lia].
Qed.

Lemma transition_accounts b log job t tr c st : summary_ok b log -> u64 t -> transition (sb_jobs_ b !! job) job t tr c = Ret st ->
  accounts job st (history job log ++ [(t, tr, c)]).
Proof.
  intros Hb Ht. pose proof (su_jobs _ _ Hb job) as Hj. destruct (sb_jobs_ b !! job) as [st0 |].
  - destruct Hj as [Hj _]. intros Htr. pose proof (transition_next job st0 _ t tr c Hj Ht) as Hn. by rewrite Htr in Hn; destruct Hn.
  - intros Htr. rewrite Hj. by apply transition_first.
Qed.

Lemma same_metrics b : {| b with sb_metrics_ := sb_metrics_ b |} = b.
Proof. by destruct b. Qed.

(** Consumption does what validation says: all of it, or nothing. *)
Lemma consume_run b log t c o : summary_ok b log -> event_ok (t, c, o) ->
  match summary_validate t c o b with
  | Ret _ => exists b', consume t c o b = (b', Ret tt) /\ summary_ok b' (log ++ [(t, c, o)]) /\ sb_last_timestamp_ b' = Some t /\ sb_finalized_ b' = false
  | Throw e => consume t c o b = (b, Throw e)
  end.
Proof.
  intros Hb [Ht Ho]. cbn [fst snd] in *. unfold consume. rewrite run_gets, run_of_outcome.
  destruct (summary_validate t c o b) as [[] | e] eqn:Hv; [| done]. unfold summary_validate, require in Hv.
  destruct (sb_finalized_ b) eqn:Hfin; cbn [negb obind] in Hv; [done |].
  assert (match sb_last_timestamp_ b with Some l => l <= t | None => True end) as Hl.
  { destruct (sb_last_timestamp_ b) as [l |]; [| done]. destruct (Z.ltb_spec t l); cbn [negb obind] in Hv; [done | lia]. }
  destruct (match sb_last_timestamp_ b with Some _ => _ | None => _ end); cbn [obind] in Hv; [| done].
  pose proof (apply_metric_run o _ Ho (su_metrics _ _ Hb)) as Hm.
  destruct (validate_metric_observation (sb_metrics_ b) o) as [[] | e]; cbn [obind] in Hv; [| done]. destruct Hm as (r & Hrun & Hr & Hmax).
  rewrite (su_maximum _ _ Hb) in Hmax. unfold on_metrics, zoom. unfold bind at 1. rewrite Hrun.
  assert ((forall job, job_step job (t, c, o) = None) -> exists b',
    (do! ret tt in modify (fun b => {| b with sb_last_timestamp_ := Some t |})) {| b with sb_metrics_ := r |} = (b', Ret tt) /\
    summary_ok b' (log ++ [(t, c, o)]) /\ sb_last_timestamp_ b' = Some t /\ sb_finalized_ b' = false) as Hother.
  { intros Hn. eexists. split; [reflexivity |]. split; [exact (summary_ok_other b log r t c o Hb Hn Hr Hmax Hl) | done]. }
  destruct o as [| | | | tr x y z w | | | | | |]; try (by apply Hother). clear Hother. cbn [apply_metric_observation] in Hrun. injection Hrun as <-.
  destruct (corr_job c) as [job |] eqn:Hc; [| done]. unfold bind at 1. rewrite run_gets, run_of_outcome. cbn [sb_jobs_].
  destruct (transition (sb_jobs_ b !! job) job t tr _) as [st | e] eqn:Htr; cbn [obind] in Hv; [| done].
  pose proof (transition_accounts _ _ _ _ _ _ _ Hb Ht Htr) as Hacc.
  assert (exists r, when (ja_terminal (jp_snapshot st)) (apply_terminal_metrics st) {| b with sb_metrics_ := sb_metrics_ b |} = ({| b with sb_metrics_ := r |}, Ret tt) /\
    registry_ok r /\ mr_maximum_series r = sb_maximum_metric_series_ b) as (r & Hrun & Hr' & Hmax').
  { destruct (ja_terminal (jp_snapshot st)); [| by exists (sb_metrics_ b)]. rewrite same_metrics. by eapply apply_terminal_run. }
  unfold bind at 1. rewrite Hrun. eexists. split; [reflexivity |]. split; [| done]. exact (summary_ok_job b log r t c tr x y z w job st Hb Hc Hr' Hmax' Hl Hacc).
Qed.

(** Observations one after the other, with those that are accepted. *)
Fixpoint feed (events : list Event) (b : SummaryBuilder) : SummaryBuilder * list Event :=
  match events with
  | [] => (b, [])
  | (t, c, o) :: rest =>
      match consume t c o b with
      | (b', Ret _) => let '(b'', log) := feed rest b' in (b'', (t, c, o) :: log)
      | (b', Throw _) => feed rest b'
      end
  end.

Lemma feed_ok events b b' log log' : Forall event_ok events -> summary_ok b log -> feed events b = (b', log') ->
  summary_ok b' (log ++ log') /\ (sb_finalized_ b = false -> sb_finalized_ b' = false).
Proof.
  intros He. revert b b' log log'. induction He as [| [[t c] o] events He _ IH]; intros b b' log log' Hb; cbn [feed].
  - intros [= <- <-]. by rewrite app_nil_r.
  - pose proof (consume_run b log t c o Hb He) as Hrun. destruct (summary_validate t c o b) as [[] | e].
    + destruct Hrun as (b1 & -> & Hb1 & _ & Hfin). destruct (feed events b1) as [b2 log2] eqn:Hf. intros [= <- <-].
      destruct (IH _ _ _ _ Hb1 Hf) as [H1 H2]. rewrite <- app_assoc in H1. eauto.
    + rewrite Hrun. by apply IH.
Qed.

Lemma new_summary_ok m h b : u64 m -> new_summary m h = Ret b -> summary_ok b [] /\ sb_finalized_ b = false.
Proof.
  intros Hm. unfold new_summary. destruct (new_registry m h) as [r | e] eqn:Hr; cbn [obind]; [| done]. intros [= <-].
  destruct (new_registry_ok m h r Hm Hr) as (Hok & _ & Hmax). split; [| done]. by split; [| | intros job; cbn [sb_jobs_]; rewrite lookup_empty].
Qed.

(** ** Finalization *)

(** The last interval of a job that has not ended. *)
Definition closes (t : SimTimeNs) (st st' : JobPhaseState) : Prop :=
  if ja_terminal (jp_snapshot st) then st' = st else
  exists s, add_interval (jp_snapshot st) (jp_phase st) (u64_wrap (t - jp_last_transition st)) = Ret s /\ st' = mkJobPhaseState s t (jp_phase st).

Definition finalize_effect (t : SimTimeNs) (jobs : list JobId) (b b' : SummaryBuilder) : Prop :=
  (forall job, job ∈ jobs -> match sb_jobs_ b !! job with
     | Some st => exists st', sb_jobs_ b' !! job = Some st' /\ closes t st st'
     | None => sb_jobs_ b' !! job = None
     end) /\ (forall job, job ∉ jobs -> sb_jobs_ b' !! job = sb_jobs_ b !! job).

Lemma finalize_job_run t job b : match sb_jobs_ b !! job with Some st => exists st', closes t st st' | None => True end ->
  exists b', finalize_job t job b = (b', Ret tt) /\ finalize_effect t [job] b b'.
Proof.
  intros Hc. unfold finalize_job, finalize_effect. rewrite run_gets. destruct (sb_jobs_ b !! job) as [st |] eqn:Hj.
  - unfold closes in *. destruct Hc as [st' Hc]. destruct (ja_terminal (jp_snapshot st)) eqn:Hter.
    + exists b. split; [done |]. split; [| done]. intros ? ->%list_elem_of_singleton. rewrite Hj, Hter. eauto.
    + destruct Hc as (s & Hs & ->). rewrite run_of_outcome, Hs. eexists. split; [reflexivity |]. cbn [sb_jobs_]. split.
      * intros ? ->%list_elem_of_singleton. rewrite Hj, Hter, lookup_insert_eq. eauto.
      * intros j Hni. rewrite lookup_insert_ne; [done |]. intros ->. by apply Hni, list_elem_of_singleton.
  - exists b. split; [done |]. split; [| done]. intros ? ->%list_elem_of_singleton. by rewrite Hj.
Qed.

Lemma finalize_jobs_run t jobs b : NoDup jobs ->
  (forall job, job ∈ jobs -> match sb_jobs_ b !! job with Some st => exists st', closes t st st' | None => True end) ->
  exists b', for_each jobs (finalize_job t) b = (b', Ret tt) /\ finalize_effect t jobs b b'.
Proof.
  revert b. induction jobs as [| job jobs IH]; intros b Hnd Hc.
  - exists b. split; [done |]. split; [intros j Hin; by inversion Hin | done].
  - apply NoDup_cons in Hnd as [Hni Hnd]. destruct (finalize_job_run t job b (Hc job (list_elem_of_here _ _))) as (b1 & Hrun1 & E1 & E2).
    assert (forall j, j <> job -> sb_jobs_ b1 !! j = sb_jobs_ b !! j) as Hsame by (intros j Hne; apply E2; by rewrite list_elem_of_singleton).
    destruct (IH b1 Hnd) as (b2 & Hrun2 & F1 & F2).
    { intros j Hin. rewrite Hsame by (by intros ->). apply Hc. by right. }
    exists b2. cbn [for_each]. rewrite (run_bind_Ret _ _ _ _ _ Hrun1), Hrun2. split; [done |]. split.
    + intros j [-> | Hin]%elem_of_cons; [| rewrite <- Hsame by (by intros ->); by apply F1].
      rewrite F2 by done. apply E1. by apply list_elem_of_singleton.
    + intros j Hnj. rewrite not_elem_of_cons in Hnj. destruct Hnj. rewrite F2 by done. by apply Hsame.
Qed.

(** The account of a job at the end of a run. *)
Definition time_until (t : SimTimeNs) (p : JobPhase) (history : list Step) : Z :=
  time_in p history + (if decide (phase_of history = p) then t - last_time history else 0).

Definition end_time (t : SimTimeNs) (history : list Step) : Z :=
  if decide (phase_of history = JobPhase_Terminal) then last_time history else t.

Record final_account (t : SimTimeNs) (job : JobId) (history : list Step) (s : JobAttributionSnapshot) : Prop := {
  fa_job : ja_job s = job;
  fa_terminal : ja_terminal s = bool_decide (phase_of history = JobPhase_Terminal);
  fa_spent p : p <> JobPhase_Terminal -> spent_in s p = time_until t p history;
  fa_accounted : accounted_ns s = Ret (end_time t history - first_time history);
}.

Lemma closes_account t job st history : accounts job st history -> last_time history <= t -> u64 t ->
  exists st', closes t st st' /\ final_account t job history (jp_snapshot st').
Proof.
  intros Ha Hl [T1 T2]. unfold closes. pose proof (ac_terminal _ _ _ Ha) as Hter. pose proof (accounts_fields _ _ _ Ha) as Hf.
  destruct (ja_terminal (jp_snapshot st)) eqn:Hs.
  - exists st. split; [done |]. symmetry in Hter. apply bool_decide_eq_true in Hter. split; [apply Ha | by rewrite Hs, Hter, bool_decide_eq_true_2 | |].
    + intros p Hp. unfold time_until. rewrite decide_False by congruence. rewrite (ac_spent _ _ _ Ha p Hp). lia.
    + rewrite accounted_total, (ac_total _ _ _ Ha) by done. unfold end_time. by rewrite decide_True.
  - symmetry in Hter. apply bool_decide_eq_false in Hter. pose proof (ac_first _ _ _ Ha) as [F1 F2]. pose proof (ac_last _ _ _ Ha) as L. pose proof (ac_total _ _ _ Ha) as Tot.
    rewrite u64_wrap_id by (split; lia).
    destruct (add_interval_run (jp_snapshot st) (jp_phase st) (t - jp_last_transition st) Hf) as (s' & Hrun & Hsp & Htot & Hj & Hte); [lia .. |].
    rewrite (ac_phase _ _ _ Ha) in *. rewrite decide_False in Htot by done.
    eexists. split; [by exists s' |]. cbn [jp_snapshot]. split; [by rewrite Hj, (ac_job _ _ _ Ha) | by rewrite Hte, Hs, bool_decide_eq_false_2 | |].
    + intros p Hp. rewrite Hsp, (decide_False (P := p = JobPhase_Terminal)) by done. unfold time_until. by rewrite (ac_spent _ _ _ Ha p Hp), L.
    + rewrite accounted_total; [unfold end_time; rewrite decide_False by done; f_equal; lia |]. split; [| lia].
      intros p. rewrite Hsp. pose proof (ac_nonneg _ _ _ Ha p). repeat case_decide; lia.
Qed.

Lemma closes_functional t st st1 st2 : closes t st st1 -> closes t st st2 -> st1 = st2.
Proof. unfold closes. destruct (ja_terminal _); [congruence |]. intros (s1 & H1 & ->) (s2 & H2 & ->). congruence. Qed.

Lemma job_order_perm b : job_order b ≡ₚ elements (dom (sb_jobs_ b)).
Proof. apply merge_sort_Permutation. Qed.

Lemma job_order_NoDup b : NoDup (job_order b).
Proof. rewrite job_order_perm. apply NoDup_elements. Qed.

Lemma elem_of_job_order b job : job ∈ job_order b <-> is_Some (sb_jobs_ b !! job).
Proof. rewrite job_order_perm, elem_of_elements. apply elem_of_dom. Qed.

Lemma summary_finalize_run b log t : summary_ok b log -> sb_finalized_ b = false -> u64 t ->
  match sb_last_timestamp_ b with Some l => l <= t | None => True end -> exists b', summary_finalize t b = (b', Ret tt) /\
  sb_finalized_ b' = true /\ (forall job, match sb_jobs_ b' !! job with
    | Some st => history job log <> [] /\ final_account t job (history job log) (jp_snapshot st)
    | None => history job log = []
    end).
Proof.
  intros Hb Hfin Ht Hl. unfold summary_finalize. rewrite run_gets, !run_throw_if, Hfin.
  assert (match sb_last_timestamp_ b with Some l => t <? l | None => false end = false) as ->.
  { destruct (sb_last_timestamp_ b) as [l |]; [| done]. by apply Z.ltb_ge. }
  assert (forall job st, sb_jobs_ b !! job = Some st -> exists st', closes t st st' /\ final_account t job (history job log) (jp_snapshot st')) as Hcl.
  { intros job st Hj. pose proof (su_jobs _ _ Hb job) as Hok. rewrite Hj in Hok. destruct Hok as (Ha & l & Hbl & Hle). rewrite Hbl in Hl.
    apply (closes_account t job st); [done | | done]. rewrite <- (ac_last _ _ _ Ha). lia. }
  destruct (finalize_jobs_run t (job_order b) b (job_order_NoDup b)) as (b1 & Hrun & E1 & E2).
  { intros job _. destruct (sb_jobs_ b !! job) as [st |] eqn:Hj; [| done]. destruct (Hcl _ _ Hj) as (st' & ? & _). eauto. }
  rewrite (run_bind_Ret _ _ _ _ _ Hrun). eexists. split; [reflexivity |]. split; [done |]. cbn [sb_jobs_]. intros job.
  pose proof (su_jobs _ _ Hb job) as Hok. specialize (E1 job). specialize (E2 job). rewrite elem_of_job_order in E1, E2.
  destruct (sb_jobs_ b !! job) as [st |] eqn:Hj.
  - destruct (E1 (mk_is_Some _ _ eq_refl)) as (st1 & -> & Hc1). destruct (Hcl _ _ Hj) as (st2 & Hc2 & Hfa). rewrite (closes_functional _ _ _ _ Hc1 Hc2).
    split; [| done]. apply Hok.
  - rewrite E2; [done |]. by intros [? ?].
Qed.
