(* ===== verification/TelemetrySampling.v ===== *)
(** * The samples of a session

    The frames that a session appends, as a function of the time and the interval:
    one frame per boundary, at multiples of the interval, whether the boundaries
    are visited one by one or skipped at once. *)

From S2P Require Import Prelude SimTime Entities TelemetryRecords TelemetryMetrics TelemetrySummary TelemetryRecorder.

(** ** The reference *)

(** The boundaries from [next] on that are before the time, or at it. *)
Definition boundary_count (next interval timestamp : Z) (inclusive : bool) : nat :=
  let last := if inclusive then timestamp else timestamp - 1 in
  if decide (next <= last) then S (Z.to_nat ((last - next) / interval)) else 0.

Definition frame_at (s : Session) (timestamp : SimTimeNs) : list MetricSample :=
  (fun x => mkMetricSample (mss_metric x) (mss_labels x) (mss_kind x) (mss_scalar x) timestamp) <$> sampled s.

Fixpoint frames (s : Session) (next : SimTimeNs) (n : nat) : list MetricSample :=
  match n with O => [] | S n => frame_at s next ++ frames s (next + interval s) n end.

(** The boundary after [n] others, unless time ends before it. *)
Definition boundary_after (s : Session) (next : SimTimeNs) (n : nat) : option SimTimeNs :=
  if decide (next + Z.of_nat n * interval s <= u64_max) then Some (next + Z.of_nat n * interval s) else None.

Definition sampled_to (s : Session) (next : SimTimeNs) (n : nat) : Session :=
  {| s with ss_samples := ss_samples s ++ frames s next n; ss_next_sample_timestamp := boundary_after s next n |}.

Definition room (s : Session) : Z := tl_samples (limits s) - zlength (ss_samples s).

(** What the emission of samples does: the frames that are due, or as many whole frames as there is room for. *)
Definition emission (timestamp : SimTimeNs) (inclusive : bool) (s : Session) : Session * outcome unit :=
  match ss_next_sample_timestamp s with
  | None => (s, Ret tt)
  | Some next =>
      let n := boundary_count next (interval s) timestamp inclusive in
      if decide (Z.of_nat n * zlength (sampled s) <= room s) then (sampled_to s next n, Ret tt)
      else (sampled_to s next (Z.to_nat (room s / zlength (sampled s))), Throw (length_error "telemetry sample limit exceeded"))
  end.

(** ** Sessions whose samples are within their limit *)

Record sampling_ok (s : Session) : Prop := {
  sa_interval : 0 < interval s <= u64_max;
  sa_limit : zlength (ss_samples s) <= tl_samples (limits s) <= u64_max;
  sa_next next : ss_next_sample_timestamp s = Some next -> 0 <= next <= u64_max;
  sa_multiple next : ss_next_sample_timestamp s = Some next -> (interval s | next);
}.

Lemma frames_length s next n : zlength (frames s next n) = Z.of_nat n * zlength (sampled s).
Proof.
  revert next. induction n as [| n IH]; intros next; [done |]. cbn [frames]. rewrite zlength_app, IH. unfold frame_at. rewrite zlength_fmap. lia.
Qed.

Lemma sampled_to_ok s next n : sampling_ok s -> 0 <= next -> (interval s | next) -> Z.of_nat n * zlength (sampled s) <= room s -> sampling_ok (sampled_to s next n).
Proof.
  intros [I L N D] Hn Hd Hr. unfold sampled_to, boundary_after. unfold room in Hr. split; cbn [ss_samples ss_next_sample_timestamp]; [done | | |].
  - rewrite zlength_app, frames_length. unfold limits in *. cbn [ss_configuration]. lia.
  - intros x. case_decide; [| done]. intros [= <-]. split; [nia | done].
  - intros x. case_decide; [| done]. intros [= <-]. unfold interval in *. cbn [ss_configuration]. apply Z.divide_add_r; [done | apply Z.divide_factor_r].
Qed.

Lemma boundary_count_spec next i t inclusive k : 0 < i -> 0 <= next ->
  (k < boundary_count next i t inclusive)%nat <-> eligible (next + Z.of_nat k * i) t inclusive = true.
Proof.
  intros Hi Hn. unfold boundary_count, eligible. set (last := if inclusive then t else t - 1).
  assert (((next + Z.of_nat k * i <? t) || inclusive && (next + Z.of_nat k * i =? t)) = true <-> next + Z.of_nat k * i <= last) as ->.
  { unfold last. destruct inclusive; cbn [andb]; rewrite orb_true_iff, Z.ltb_lt, ?Z.eqb_eq; [lia |]. split; [intros [? | ?]; [lia | done] | lia]. }
  case_decide as Hd; [| split; [lia | nia]].
  pose proof (Z.div_pos (last - next) i ltac:(lia) Hi) as Hq. pose proof (Z.div_mod (last - next) i ltac:(lia)) as Hm.
  pose proof (Z.mod_pos_bound (last - next) i Hi). split; intros Hk; [nia |].
  assert (Z.of_nat k <= (last - next) / i); [| lia]. apply Z.div_le_lower_bound; lia.
Qed.

(** ** The loop *)

Lemma append_frame_run s next : sampling_ok s -> append_sample_frame next s =
  if decide (zlength (sampled s) <= room s) then ({| s with ss_samples := ss_samples s ++ frame_at s next |}, Ret tt)
  else (s, Throw (length_error "telemetry sample limit exceeded")).
Proof.
  intros [I L N D]. unfold append_sample_frame, room. rewrite run_gets, run_throw_if.
  rewrite u64_wrap_id by (pose proof (zlength_nonneg (ss_samples s)); split; lia).
  destruct (Z.gtb_spec (zlength (sampled s)) (tl_samples (limits s) - zlength (ss_samples s))); case_decide; try lia; done.
Qed.

Lemma advanced_after s next : sampling_ok s -> 0 <= next <= u64_max -> advanced s next = boundary_after s next 1.
Proof.
  intros [I _ _ _] Hn. unfold advanced, boundary_after. destruct (Z.gtb_spec (interval s) (u64_max - next)).
  - by rewrite decide_False by lia.
  - rewrite decide_True, u64_wrap_id by (try split; lia). f_equal. lia.
Qed.

Lemma sampled_to_0 s next : ss_next_sample_timestamp s = Some next -> next <= u64_max -> sampled_to s next 0 = s.
Proof.
  intros Hs Hn. unfold sampled_to, boundary_after. cbn [frames]. rewrite app_nil_r, decide_True by lia.
  rewrite Z.mul_0_l, Z.add_0_r, <- Hs. by destruct s.
Qed.

Lemma sampled_to_S s next n : sampled_to s next (S n) = sampled_to (sampled_to s next 1) (next + interval s) n.
Proof.
  assert (forall s1 m x, ss_configuration s1 = ss_configuration s -> ss_summary s1 = ss_summary s -> frames s1 x m = frames s x m) as Hf.
  { intros s1 m x Hc Hs. revert x. induction m as [| m IH]; intros x; [done |]. cbn [frames]. rewrite IH. unfold frame_at, sampled, summary_snapshots, interval.
    by rewrite Hs, Hc. }
  unfold sampled_to at 1 2. rewrite (Hf (sampled_to s next 1) n _ eq_refl eq_refl). unfold sampled_to, boundary_after, interval.
  cbn [ss_configuration ss_samples ss_next_sample_timestamp frames]. rewrite app_nil_r, <- !app_assoc.
  replace (next + Z.of_nat (S n) * tc_sample_interval_ns (ss_configuration s)) with
    (next + tc_sample_interval_ns (ss_configuration s) + Z.of_nat n * tc_sample_interval_ns (ss_configuration s)) by lia. done.
Qed.

Lemma boundary_count_next next i t inclusive n : 0 < i -> 0 <= next -> S n = boundary_count next i t inclusive ->
  n = boundary_count (next + i) i t inclusive.
Proof.
  intros Hi Hn Hc. assert (forall k, (k < n)%nat <-> (k < boundary_count (next + i) i t inclusive)%nat) as Hk.
  { intros k. rewrite boundary_count_spec by lia. replace (next + i + Z.of_nat k * i) with (next + Z.of_nat (S k) * i) by lia.
    rewrite <- boundary_count_spec, <- Hc by lia. lia. }
  pose proof (proj1 (Hk (boundary_count (next + i) i t inclusive))). pose proof (proj2 (Hk n)). lia.
Qed.

(** One turn of the loop. *)
Lemma sample_step_run s next : sampling_ok s -> ss_next_sample_timestamp s = Some next ->
  (do! append_sample_frame next in advance_sample_timestamp next) s =
  if decide (zlength (sampled s) <= room s) then (sampled_to s next 1, Ret tt) else (s, Throw (length_error "telemetry sample limit exceeded")).
Proof.
  intros Hs Hn. unfold bind. rewrite append_frame_run by done. case_decide; [| done]. unfold advance_sample_timestamp, modify. cbn [advanced].
  unfold sampled_to. cbn [frames]. rewrite app_nil_r, <- (advanced_after s next) by (done || by apply (sa_next s Hs)). done.
Qed.

Lemma sampled_to_room s next n : room (sampled_to s next n) = room s - Z.of_nat n * zlength (sampled s).
Proof. unfold room, limits, sampled_to. cbn [ss_configuration ss_samples]. rewrite zlength_app, frames_length. lia. Qed.

(** The loop visits the boundaries one by one. *)
Lemma sample_loop_run s next t inclusive n fuel : sampling_ok s -> u64 t -> ss_next_sample_timestamp s = Some next ->
  n = boundary_count next (interval s) t inclusive -> (n <= fuel)%nat ->
  sample_loop fuel t inclusive s = Some (emission t inclusive s).
Proof.
  intros Hs [T1 T2]. revert s next fuel Hs. induction n as [| n IH]; intros s next fuel Hs Hn Hc Hfuel;
    pose proof (sa_interval s Hs) as Hi; pose proof (sa_next s Hs next Hn) as Hb; pose proof (zlength_nonneg (sampled s)) as Hz;
    assert (0 <= room s) as Hr0 by (unfold room; pose proof (sa_limit s Hs); lia).
  - unfold emission. rewrite Hn, <- Hc. rewrite decide_True by lia. rewrite sampled_to_0 by (done || lia).
    assert (eligible next t inclusive = false) as He.
    { apply not_true_iff_false. intros He. replace next with (next + Z.of_nat 0 * interval s) in He by lia. apply boundary_count_spec in He; lia. }
    destruct fuel; cbn [sample_loop]; by rewrite Hn, He.
  - destruct fuel as [| fuel]; [lia |]. cbn [sample_loop]. rewrite Hn.
    assert (eligible next t inclusive = true) as He.
    { replace next with (next + Z.of_nat 0 * interval s) by lia. apply boundary_count_spec; lia. }
    rewrite He, sample_step_run by done. cbn [negb]. unfold emission at 1. rewrite Hn, <- Hc.
    case_decide as Hroom; [| rewrite decide_False by nia; rewrite Z.div_small by lia; by rewrite sampled_to_0 by (done || lia)].
    pose proof (boundary_count_next next (interval s) t inclusive n ltac:(lia) ltac:(lia) Hc) as Hc'.
    assert (ss_next_sample_timestamp (sampled_to s next 1) = boundary_after s next 1) as Hn1 by done.
    unfold boundary_after in Hn1. replace (next + Z.of_nat 1 * interval s) with (next + interval s) in Hn1 by lia. case_decide as Hmax.
    + rewrite (IH (sampled_to s next 1) (next + interval s) fuel); [| apply sampled_to_ok; (done || lia || by apply (sa_multiple s Hs)) | done | done | lia].
      unfold emission. rewrite Hn1. change (interval (sampled_to s next 1)) with (interval s). rewrite <- Hc', sampled_to_room.
      change (sampled (sampled_to s next 1)) with (sampled s). rewrite (sampled_to_S s next n).
      rewrite (decide_ext (Z.of_nat n * zlength (sampled s) <= room s - Z.of_nat 1 * zlength (sampled s)) (Z.of_nat (S n) * zlength (sampled s) <= room s)) by lia.
      case_decide as Hall; [done |]. replace (room s - Z.of_nat 1 * zlength (sampled s)) with (room s + (-1) * zlength (sampled s)) by lia.
      rewrite Z.div_add by nia. assert (1 <= room s / zlength (sampled s)) as Hq by (apply Z.div_le_lower_bound; nia).
      replace (Z.to_nat (room s / zlength (sampled s))) with (S (Z.to_nat (room s / zlength (sampled s) + -1))) by lia.
      by rewrite (sampled_to_S s next (Z.to_nat _)).
    + assert (n = 0%nat) as ->.
      { destruct n as [| n]; [done |]. assert (eligible (next + Z.of_nat 1 * interval s) t inclusive = true) as He1 by (apply boundary_count_spec; lia).
        unfold eligible in He1. apply orb_true_iff in He1 as [?%Z.ltb_lt | [_ ?%Z.eqb_eq]%andb_true_iff]; lia. }
      rewrite decide_True by lia. by destruct fuel; cbn [sample_loop]; rewrite Hn1.
Qed.

(** Skipping is what the loop does when frames are empty. *)
Lemma skip_run s t inclusive : sampling_ok s -> u64 t -> sampled s = [] -> skip_empty_sample_boundaries t inclusive s = emission t inclusive s.
Proof.
  intros Hs [T1 T2] Hsam. unfold skip_empty_sample_boundaries, emission, modify. destruct (ss_next_sample_timestamp s) as [next |] eqn:Hn; [| done].
  pose proof (sa_interval s Hs) as Hi. pose proof (sa_next s Hs next Hn) as Hb. rewrite Hsam. change (zlength (@nil MetricSeriesSnapshot)) with 0.
  rewrite decide_True by (unfold room; pose proof (sa_limit s Hs); lia). f_equal.
  assert (forall n x, frames s x n = []) as Hf.
  { intros n. induction n as [| n IH]; intros x; [done |]. cbn [frames]. unfold frame_at. by rewrite Hsam, IH. }
  unfold boundary_count. destruct (negb inclusive && (t =? 0)) eqn:Hz.
  { apply andb_true_iff in Hz as [Hinc ->%Z.eqb_eq]. destruct inclusive; [done |]. rewrite decide_False by lia. by rewrite sampled_to_0 by (done || lia). }
  assert ((if inclusive then t else u64_wrap (t - 1)) = (if inclusive then t else t - 1)) as ->.
  { destruct inclusive; [done |]. cbn in Hz. apply Z.eqb_neq in Hz. apply u64_wrap_id. split; lia. }
  set (last := if inclusive then t else t - 1). assert (last <= u64_max) as Hl by (unfold last; destruct inclusive; lia).
  destruct (Z.gtb_spec next last); [rewrite decide_False by lia; by rewrite sampled_to_0 by (done || lia) |]. rewrite decide_True by lia.
  rewrite (u64_wrap_id (last - next)) by (split; lia). set (q := (last - next) / interval s).
  assert (0 <= q /\ q * interval s <= last - next) as [Q1 Q2].
  { split; [apply Z.div_pos; lia |]. rewrite Z.mul_comm. apply Z.mul_div_le. lia. }
  rewrite (u64_wrap_id (q * interval s)), u64_wrap_id by (split; nia). rewrite advanced_after by (done || nia). unfold sampled_to. rewrite Hf, app_nil_r.
  unfold boundary_after. replace (next + q * interval s + Z.of_nat 1 * interval s) with (next + Z.of_nat (S (Z.to_nat q)) * interval s) by nia. by destruct s.
Qed.

Lemma has_sampled s : existsb (fun x => is_sampled_metric_kind (mss_kind x)) (summary_snapshots s) = false <-> sampled s = [].
Proof.
  unfold sampled. induction (summary_snapshots s) as [| x l IH]; [done |]. cbn [existsb]. rewrite filter_cons.
  destruct (is_sampled_metric_kind (mss_kind x)) eqn:Hx; [by rewrite decide_True by done | rewrite decide_False by done; exact IH].
Qed.

Lemma boundary_count_fuel s next t inclusive : sampling_ok s -> u64 t -> 0 <= next -> (boundary_count next (interval s) t inclusive <= sample_fuel t s)%nat.
Proof.
  intros Hs [T1 T2] Hn. pose proof (sa_interval s Hs) as Hi. unfold boundary_count, sample_fuel. case_decide; [| lia]. apply le_n_S, Z2Nat.inj_le.
  - apply Z.div_pos; lia.
  - apply Z.div_pos; lia.
  - apply Z.div_le_mono; [lia |]. destruct inclusive; lia.
Qed.

Lemma emit_samples_run s t inclusive : sampling_ok s -> u64 t -> retains_samples s = true -> emit_samples_until t inclusive s = emission t inclusive s.
Proof.
  intros Hs Ht Hret. unfold emit_samples_until. rewrite run_gets, Hret. cbn [negb].
  destruct (existsb _ _) eqn:He; cbn [negb]; [| by apply skip_run, has_sampled].
  destruct (ss_next_sample_timestamp s) as [next |] eqn:Hn; [| by unfold sample_fuel, emission; cbn [sample_loop]; rewrite Hn].
  rewrite (sample_loop_run s next t inclusive _ _ Hs Ht Hn eq_refl); [done |]. apply boundary_count_fuel; [done .. |]. by apply (sa_next s Hs).
Qed.
