(* ===== verification/TelemetryTheorems.v ===== *)
(** * Properties of telemetry

    What a session retains as a function of the observations it accepted, and the
    theorems on registries, summaries, samples and records. *)

From S2P Require Import Prelude SimTime Entities TelemetryRecords TelemetryMetrics TelemetrySummary TelemetryRecorder.
From S2P Require Import TelemetryLaws TelemetryAttribution TelemetrySampling.

(** ** The interface *)

Lemma emit_configuration t inclusive s : ss_configuration (fst (emit_samples_until t inclusive s)) = ss_configuration s.
Proof.
  unfold emit_samples_until. rewrite run_gets. destruct (negb (retains_samples s)); [done |]. destruct (negb (existsb _ _)).
  - unfold skip_empty_sample_boundaries, modify. cbn [fst]. destruct (ss_next_sample_timestamp s); [| done]. by repeat case_match.
  - destruct (sample_loop (sample_fuel t s) t inclusive s) as [[s' r] |] eqn:Hl; [| done]. cbn [fst]. generalize dependent (sample_fuel t s). intros n.
    revert s. induction n as [| n IH]; intros s; cbn [sample_loop]; (destruct (ss_next_sample_timestamp s) as [next |]; [| by intros [= <- _]]);
      (destruct (negb (eligible next t inclusive)); [by intros [= <- _] |]); [done |].
    unfold bind, append_sample_frame. rewrite run_gets, run_throw_if. destruct (_ >? _); [by intros [= <- _] |]. cbn. intros Hl. by rewrite (IH _ Hl).
Qed.

Lemma on_summary_configuration {A} (m : M SummaryBuilder A) s : ss_configuration (fst (on_summary m s)) = ss_configuration s.
Proof. unfold on_summary. destruct (ss_summary s) as [b |]; [| done]. by destruct (m b). Qed.

Lemma record_configuration t c o s : ss_configuration (fst (record t c o s)) = ss_configuration s.
Proof.
  unfold record. rewrite run_gets.
  destruct (bool_decide _); [done |]. rewrite !run_throw_if. destruct (ss_is_finalized s); [done |]. destruct (match ss_last_timestamp s with Some _ => _ | None => _ end); [done |].
  rewrite run_of_outcome. destruct (if retained _ s then _ else _) as [edges | e]; [| done]. unfold bind.
  pose proof (on_summary_configuration (fun b => (b, summary_validate t c o b)) s) as H1. destruct (on_summary _ s) as [s1 [[] | e]]; cbn [fst] in H1; [| done].
  pose proof (emit_configuration t false s1) as H2. destruct (emit_samples_until t false s1) as [s2 [[] | e]]; cbn [fst] in *; [| congruence].
  pose proof (on_summary_configuration (consume t c o) s2) as H3. destruct (on_summary (consume t c o) s2) as [s3 [[] | e]]; cbn [fst] in *; [| congruence].
  unfold when. destruct (retained _ s); cbn; congruence.
Qed.

#[global] Instance session_laws : TelemetrySessionLaws Session.
Proof. split. intros t c o s. cbn [session_enabled session_record session_telemetry]. unfold enabled. by rewrite record_configuration. Qed.

(** ** What a session holds *)

Definition keeps (mode : TelemetryMode) (e : Event) : bool :=
  bool_decide (mode = TelemetryMode_Full) || bool_decide (mode = TelemetryMode_Sampled) && is_decision_observation (snd e).

Definition numbered (i : nat) (e : Event) : TelemetryRecord := let '(t, c, o) := e in mkTelemetryRecord c o (Z.of_nat i) t.

(** The accepted observations that the mode retains, numbered in order. *)
Definition records_of (mode : TelemetryMode) (log : list Event) : list TelemetryRecord :=
  imap numbered (filter (fun e => keeps mode e = true) log).

Definition decisions (records : list TelemetryRecord) : Z :=
  zlength (filter (fun r => is_decision_observation (tr_observation r) = true) records).

Definition edges (records : list TelemetryRecord) : Z := sumZ ((fun r => correlation_edge_count (tr_correlation r)) <$> records).

Definition configuration_ok (c : TelemetryConfiguration) : Prop :=
  u64 (tc_sample_interval_ns c) /\ u64 (tl_metric_series (tc_limits c)) /\ u64 (tl_decision_records (tc_limits c)) /\
  u64 (tl_domain_records (tc_limits c)) /\ u64 (tl_samples (tc_limits c)) /\ u64 (tl_correlation_edges (tc_limits c)).

(** An open session after the observations of the log were accepted. *)
Record holds (s : Session) (log : list Event) : Prop := {
  ho_configuration : configuration_ok (ss_configuration s);
  ho_sampling : sampling_ok s;
  ho_open : ss_is_finalized s = false;
  ho_summary : match ss_summary s with
    | None => tc_mode (ss_configuration s) = TelemetryMode_Off
    | Some b => summary_ok b log /\ sb_finalized_ b = false /\ sb_last_timestamp_ b = ss_last_timestamp s
    end;
  ho_records : ss_records s = records_of (tc_mode (ss_configuration s)) log;
  ho_ids : ss_next_record_id s = Z.min (zlength (ss_records s)) u64_max /\
    ss_record_ids_exhausted s = bool_decide (u64_max < zlength (ss_records s));
  ho_decisions : ss_retained_decisions s = decisions (ss_records s) /\ decisions (ss_records s) <= tl_decision_records (limits s);
  ho_domain : ss_retained_domain_records s = zlength (ss_records s) - decisions (ss_records s) /\
    zlength (ss_records s) - decisions (ss_records s) <= tl_domain_records (limits s);
  ho_edges : ss_retained_edges s = edges (ss_records s) /\ edges (ss_records s) <= tl_correlation_edges (limits s);
}.

Lemma new_session_holds configuration s : configuration_ok configuration -> new_session configuration = Ret s ->
  holds s [] /\ ss_configuration s = configuration.
Proof.
  intros Hc. unfold new_session. destruct (validate_configuration configuration) as [[] | e] eqn:Hv; cbn [obind]; [| done].
  assert (tc_sample_interval_ns configuration <> 0) as Hi.
  { unfold validate_configuration, require in Hv. destruct (Z.eqb_spec (tc_sample_interval_ns configuration) 0); [done | done]. }
  destruct Hc as ([I1 I2] & Hm & [D1 D2] & [R1 R2] & [S1 S2] & [E1 E2]).
  assert (forall summary, match summary with None => tc_mode configuration = TelemetryMode_Off
      | Some b => summary_ok b [] /\ sb_finalized_ b = false /\ sb_last_timestamp_ b = None end ->
    holds (mkSession configuration summary [] [] None (Some (tc_sample_interval_ns configuration)) 0 0 0 0 false false) []) as Hholds.
  { intros summary Hs. split; unfold limits; cbn [ss_configuration ss_summary ss_records ss_is_finalized ss_last_timestamp ss_next_record_id
      ss_record_ids_exhausted ss_retained_decisions ss_retained_domain_records ss_retained_edges]; try done.
    split; unfold interval, limits; cbn [ss_configuration ss_samples ss_next_sample_timestamp]; [lia | | by intros next [= <-] | by intros next [= <-]].
    change (zlength (@nil MetricSample)) with 0. lia. }
  case_bool_decide as Hoff; cbn [obind]; [intros [= <-]; split; [by apply Hholds | done] |].
  destruct (new_summary _ _) as [b | e] eqn:Hb; cbn [obind]; [| done]. intros [= <-]. split; [| done]. apply Hholds.
  destruct (new_summary_ok _ _ _ Hm Hb) as [H1 H2]. split; [done | split; [done |]]. unfold new_summary in Hb. destruct (new_registry _ _); [| done].
  by injection Hb as <-.
Qed.

(** ** Samples leave the rest alone *)

Record resampled (s s' : Session) : Prop := {
  rs_same : s' = {| s with ss_samples := ss_samples s'; ss_next_sample_timestamp := ss_next_sample_timestamp s' |};
  rs_prefix : ss_samples s `prefix_of` ss_samples s';
  rs_ok : sampling_ok s';
}.

Lemma resampled_refl s : sampling_ok s -> resampled s s.
Proof. intros H. split; [by destruct s | done | done]. Qed.

Lemma sampled_to_resampled s next n : sampling_ok s -> 0 <= next -> (interval s | next) -> Z.of_nat n * zlength (sampled s) <= room s -> resampled s (sampled_to s next n).
Proof. intros Hs Hn Hd Hr. split; [done | by apply prefix_app_r | by apply sampled_to_ok]. Qed.

Definition sample_limit : exn := length_error "telemetry sample limit exceeded".

Lemma emission_resampled t inclusive s : sampling_ok s -> u64 t ->
  resampled s (fst (emission t inclusive s)) /\ (snd (emission t inclusive s) = Ret tt \/ snd (emission t inclusive s) = Throw sample_limit).
Proof.
  intros Hs Ht. unfold emission. destruct (ss_next_sample_timestamp s) as [next |] eqn:Hn; [| split; [by apply resampled_refl | by left]].
  pose proof (sa_next s Hs next Hn) as Hb. pose proof (zlength_nonneg (sampled s)) as Hz. assert (0 <= room s) as Hr by (unfold room; pose proof (sa_limit s Hs); lia).
  case_decide as Hd; cbn [fst snd]; (split; [apply sampled_to_resampled; [done | lia | by apply (sa_multiple s Hs) |] | by (left + right)]); [done |].
  assert (0 < zlength (sampled s)) by nia. rewrite Z2Nat.id by (apply Z.div_pos; lia). rewrite Z.mul_comm. by apply Z.mul_div_le.
Qed.

Lemma emit_resampled t inclusive s : sampling_ok s -> u64 t -> exists s' r, emit_samples_until t inclusive s = (s', r) /\ resampled s s' /\
  (r = Ret tt \/ r = Throw sample_limit).
Proof.
  intros Hs Ht. destruct (retains_samples s) eqn:Hret.
  - rewrite emit_samples_run by done. destruct (emission_resampled t inclusive s Hs Ht) as [H1 H2]. destruct (emission t inclusive s) as [s' r]. eauto.
  - exists s, (Ret tt). unfold emit_samples_until. rewrite run_gets, Hret. split; [done |]. split; [by apply resampled_refl | by left].
Qed.

Lemma holds_resampled s s' log : holds s log -> resampled s s' -> holds s' log.
Proof. intros [H1 H2 H3 H4 H5 H6 H7 H8 H9] [-> _ Hok]. by split. Qed.

(** ** Retention *)

Lemma records_snoc mode log e : records_of mode (log ++ [e]) =
  records_of mode log ++ (if keeps mode e then [numbered (length (records_of mode log)) e] else []).
Proof.
  unfold records_of. rewrite filter_app, filter_cons, filter_nil. destruct (keeps mode e); [rewrite decide_True by done | rewrite decide_False by done].
  - rewrite imap_app. cbn [imap]. rewrite length_imap. unfold compose. by rewrite Nat.add_0_r.
  - by rewrite !app_nil_r.
Qed.

Lemma decisions_snoc records r : decisions (records ++ [r]) = decisions records + (if is_decision_observation (tr_observation r) then 1 else 0).
Proof.
  unfold decisions. rewrite filter_app, zlength_app, filter_cons, filter_nil. destruct (is_decision_observation _);
    [by rewrite decide_True by done | by rewrite decide_False by done].
Qed.

Lemma edges_snoc records r : edges (records ++ [r]) = edges records + correlation_edge_count (tr_correlation r).
Proof. unfold edges. rewrite fmap_app, sumZ_app. cbn. lia. Qed.

Lemma edge_count_nonneg c : 0 <= correlation_edge_count c.
Proof.
  assert (forall b, 0 <= Z.b2z b) as H by (intros []; cbn; lia). unfold correlation_edge_count. repeat apply Z.add_nonneg_nonneg; apply H.
Qed.

Lemma edges_nonneg records : 0 <= edges records.
Proof. unfold edges. apply sumZ_nonneg, Forall_fmap, Forall_forall. intros r _. apply edge_count_nonneg. Qed.

(** The guards of retention are the limits. *)
Lemma retention_within s log c decision e : holds s log -> retention c decision s = Ret e ->
  e = edges (ss_records s) + correlation_edge_count c /\ e <= tl_correlation_edges (limits s) /\ zlength (ss_records s) <= u64_max /\
  (if decision then decisions (ss_records s) < tl_decision_records (limits s)
   else zlength (ss_records s) - decisions (ss_records s) < tl_domain_records (limits s)).
Proof.
  intros Hh. unfold retention, require. rewrite (proj1 (ho_decisions _ _ Hh)), (proj1 (ho_domain _ _ Hh)), (proj1 (ho_edges _ _ Hh)), (proj2 (ho_ids _ _ Hh)).
  pose proof (proj2 (ho_edges _ _ Hh)) as He. pose proof (ho_configuration _ _ Hh) as (_ & _ & _ & _ & _ & _ & E2). fold (limits s) in E2.
  pose proof (edges_nonneg (ss_records s)) as Hn. pose proof (edge_count_nonneg c) as Hc.
  assert (forall x y, (x >=? y) = true <-> y <= x) as Hge by (intros x y; rewrite Z.geb_leb; apply Z.leb_le).
  destruct decision; cbn [negb andb obind].
  all: destruct (_ >=? _) eqn:G; cbn [negb obind]; [done |]; apply not_true_iff_false in G; rewrite Hge in G.
  all: unfold checked_add_size; destruct (Z.gtb_spec (correlation_edge_count c) (u64_max - edges (ss_records s))); cbn [obind]; [done |].
  all: rewrite u64_wrap_id by (split; lia); destruct (Z.gtb_spec (edges (ss_records s) + correlation_edge_count c) (tl_correlation_edges (limits s))); cbn [negb obind]; [done |].
  all: case_bool_decide; cbn [negb obind]; [done |]; intros [= <-]; split; [done |]; lia.
Qed.

(** The record that is retained. *)
Lemma holds_retained s log t c o b b' e : holds s log -> ss_summary s = Some b -> summary_ok b' (log ++ [(t, c, o)]) -> sb_finalized_ b' = false ->
  sb_last_timestamp_ b' = Some t -> retained (is_decision_observation o) s = true -> retention c (is_decision_observation o) s = Ret e ->
  forall s', (do! retain_record t c o e in modify (fun s => {| s with ss_last_timestamp := Some t |})) {| s with ss_summary := Some b' |} = (s', Ret tt) ->
  holds s' (log ++ [(t, c, o)]).
Proof.
  intros Hh Hb Hsum Hfin Hlast Hret Hre s'. destruct (retention_within s log c _ e Hh Hre) as (-> & He & Hid & Hlim).
  unfold bind, retain_record, modify. cbn [ss_next_record_id ss_records ss_retained_decisions ss_retained_domain_records ss_record_ids_exhausted]. intros [= <-].
  destruct Hh as [H1 [A1 A2 A3 A4] H3 H4 H5 [I1 I2] [D1 D2] [M1 M2] [E1 E2]]. unfold limits in *.
  assert (length (ss_records s) = length (records_of (tc_mode (ss_configuration s)) log)) as Hlen by (by rewrite H5).
  pose proof (zlength_nonneg (ss_records s)) as Hz. rewrite Z.min_l in I1 by lia.
  assert (numbered (length (ss_records s)) (t, c, o) = mkTelemetryRecord c o (ss_next_record_id s) t) as Hnum by (cbn [numbered]; by rewrite I1).
  split; unfold limits; cbn [ss_configuration ss_samples ss_next_sample_timestamp ss_is_finalized ss_summary ss_records ss_next_record_id ss_record_ids_exhausted ss_retained_decisions
    ss_retained_domain_records ss_retained_edges ss_last_timestamp]; try done.
  - rewrite records_snoc. change (keeps _ _) with (retained (is_decision_observation o) s). by rewrite Hret, <- Hlen, Hnum, <- H5.
  - rewrite zlength_app, I1, I2. change (zlength [_]) with 1. rewrite (bool_decide_eq_false_2 (u64_max < zlength (ss_records s))) by lia.
    destruct (Z.eqb_spec (zlength (ss_records s)) u64_max); [rewrite bool_decide_eq_true_2 by lia | rewrite bool_decide_eq_false_2 by lia]; split; (done || lia).
  - rewrite decisions_snoc. cbn [tr_observation]. destruct (is_decision_observation o); lia.
  - rewrite decisions_snoc, zlength_app. change (zlength [_]) with 1. cbn [tr_observation]. destruct (is_decision_observation o); lia.
  - rewrite edges_snoc. cbn [tr_correlation]. lia.
Qed.

(** The observation that is only summarized. *)
Lemma holds_summarized s log t c o b' : holds s log -> summary_ok b' (log ++ [(t, c, o)]) -> sb_finalized_ b' = false ->
  sb_last_timestamp_ b' = Some t -> retained (is_decision_observation o) s = false ->
  holds {| s with ss_summary := Some b'; ss_last_timestamp := Some t |} (log ++ [(t, c, o)]).
Proof.
  intros [H1 [A1 A2 A3 A4] H3 H4 H5 H6 H7 H8 H9] Hsum Hfin Hlast Hret. split; unfold limits; cbn [ss_configuration ss_summary ss_records]; try done.
  rewrite records_snoc. change (keeps _ _) with (retained (is_decision_observation o) s). by rewrite Hret, app_nil_r.
Qed.

Lemma same_summary s b : ss_summary s = Some b -> {| s with ss_summary := Some b |} = s.
Proof. destruct s. cbn. by intros ->. Qed.

Lemma same_retention s s' c o decision : resampled s s' -> retained (is_decision_observation o) s' = retained (is_decision_observation o) s /\
  retention c decision s' = retention c decision s /\ ss_summary s' = ss_summary s.
Proof. intros [-> _ _]. done. Qed.

(** A record is all or nothing, but for the samples that are due before it. *)
Lemma record_run s log t c o : holds s log -> enabled s = true -> event_ok (t, c, o) ->
  match record t c o s with
  | (s', Ret _) => holds s' (log ++ [(t, c, o)]) /\ ss_samples s `prefix_of` ss_samples s'
  | (s', Throw e) => s' = s \/ resampled s s' /\ e = sample_limit
  end.
Proof.
  intros Hh Hen He. unfold enabled in Hen. unfold record. rewrite run_gets. destruct (bool_decide _) eqn:Hoff; [done |]. apply bool_decide_eq_false in Hoff. clear Hen.
  rewrite !run_throw_if, (ho_open _ _ Hh). destruct (match ss_last_timestamp s with Some _ => _ | None => _ end); [by left |].
  rewrite run_of_outcome. destruct (if retained _ s then _ else _) as [edges | e] eqn:Hedges; [| by left].
  pose proof (ho_summary _ _ Hh) as Hsum. destruct (ss_summary s) as [b |] eqn:Hb; [| done]. destruct Hsum as (Hok & Hfin & Hlast).
  assert (on_summary (fun b => (b, summary_validate t c o b)) s = (s, summary_validate t c o b)) as Hval.
  { unfold on_summary. rewrite Hb. by rewrite same_summary. }
  unfold bind at 1. rewrite Hval. pose proof (consume_run b log t c o Hok He) as Hcon. destruct (summary_validate t c o b) as [[] | e]; [| by left].
  destruct (emit_resampled t false s (ho_sampling _ _ Hh) (proj1 He)) as (s2 & r & Hem & Hre & Hr). unfold bind at 1. rewrite Hem.
  destruct Hr as [-> | ->]; [| by right]. destruct Hcon as (b' & Hcon & Hok' & Hlast' & Hfin').
  destruct (same_retention s s2 c o (is_decision_observation o) Hre) as (Hs1 & Hs2 & Hs3). pose proof (holds_resampled _ _ _ Hh Hre) as Hh2. rewrite Hb in Hs3.
  rewrite <- Hs1 in *. rewrite <- Hs2 in Hedges.
  unfold bind at 1. unfold on_summary. rewrite Hs3, Hcon. destruct (retained (is_decision_observation o) s2) eqn:Hret; cbn [when].
  - unfold when. destruct ((do! retain_record t c o edges in modify (fun s => {| s with ss_last_timestamp := Some t |})) {| s2 with ss_summary := Some b' |}) as [s3 r3] eqn:Hrun.
    pose proof Hrun as Hrun'. unfold bind, retain_record, modify in Hrun'. injection Hrun' as Hs Hr3. rewrite <- Hr3 in Hrun |- *. split.
    + exact (holds_retained s2 log t c o b b' edges Hh2 Hs3 Hok' Hfin' Hlast' Hret Hedges s3 Hrun).
    + rewrite <- Hs. apply Hre.
  - unfold when, ret, bind, modify. split; [exact (holds_summarized s2 log t c o b' Hh2 Hok' Hfin' Hlast' Hret) | apply Hre].
Qed.

(** Observations one after the other, with those that are accepted. *)
Fixpoint record_all (events : list Event) (s : Session) : Session * list Event :=
  match events with
  | [] => (s, [])
  | (t, c, o) :: rest =>
      match record t c o s with
      | (s', Ret _) => let '(s'', log) := record_all rest s' in (s'', (t, c, o) :: log)
      | (s', Throw _) => record_all rest s'
      end
  end.

Lemma record_all_holds events s s' log log' : Forall event_ok events -> holds s log -> enabled s = true -> record_all events s = (s', log') ->
  holds s' (log ++ log') /\ ss_configuration s' = ss_configuration s.
Proof.
  intros He. revert s s' log log'. induction He as [| [[t c] o] events He _ IH]; intros s s' log log' Hh Hen; cbn [record_all].
  - intros [= <- <-]. by rewrite app_nil_r.
  - pose proof (record_run s log t c o Hh Hen He) as Hrun. pose proof (record_configuration t c o s) as Hc.
    destruct (record t c o s) as [s1 [[] | e]]; cbn [fst] in Hc; (assert (enabled s1 = true) as Hen1 by (unfold enabled; by rewrite Hc)).
    + destruct (record_all events s1) as [s2 log2] eqn:Hf. intros [= <- <-]. destruct (IH _ _ _ _ (proj1 Hrun) Hen1 Hf) as [H1 H2].
      rewrite <- app_assoc in H1. split; [done | congruence].
    + intros Hf. assert (holds s1 log) as Hh1 by (destruct Hrun as [-> | [Hre _]]; [done | by eapply holds_resampled]).
      destruct (IH _ _ _ _ Hh1 Hen1 Hf) as [H1 H2]. split; [done | congruence].
Qed.

Lemma finalize_run s log t : holds s log -> enabled s = true -> u64 t -> match ss_last_timestamp s with Some l => l <= t | None => True end ->
  match finalize t s with
  | (s', Ret _) => exists b, ss_summary s' = Some b /\ ss_is_finalized s' = true /\ ss_configuration s' = ss_configuration s /\ ss_records s' = ss_records s /\
      forall job, match sb_jobs_ b !! job with
        | Some st => history job log <> [] /\ final_account t job (history job log) (jp_snapshot st)
        | None => history job log = []
        end
  | (s', Throw e) => resampled s s' /\ e = sample_limit
  end.
Proof.
  intros Hh Hen Ht Hl. unfold finalize. rewrite run_gets, !run_throw_if, (ho_open _ _ Hh).
  assert ((negb (bool_decide (tc_mode (ss_configuration s) = TelemetryMode_Off)) && (match ss_last_timestamp s with Some last => t <? last | None => false end)) = false) as ->.
  { apply andb_false_iff. right. destruct (ss_last_timestamp s); [by apply Z.ltb_ge | done]. }
  destruct (emit_resampled t true s (ho_sampling _ _ Hh) Ht) as (s2 & r & Hem & Hre & Hr). unfold bind at 1. rewrite Hem. destruct Hr as [-> | ->]; [| done].
  pose proof (holds_resampled _ _ _ Hh Hre) as Hh2. rewrite run_gets. pose proof (ho_summary _ _ Hh2) as Hsum.
  assert (ss_configuration s2 = ss_configuration s /\ ss_records s2 = ss_records s /\ ss_last_timestamp s2 = ss_last_timestamp s) as (Hc & Hrec & Hts) by (by destruct Hre as [-> _ _]).
  destruct (ss_summary s2) as [b |] eqn:Hb; [| rewrite Hc in Hsum; unfold enabled in Hen; by rewrite bool_decide_eq_true_2 in Hen]. destruct Hsum as (Hok & Hfin & Hlast).
  destruct (summary_finalize_run b log t Hok Hfin Ht) as (b' & Hrun & Hfin' & Hjobs); [by rewrite Hlast, Hts |].
  change (has_value (Some b)) with true. unfold when. unfold bind at 1, on_summary. rewrite Hb, Hrun. exists b'. done.
Qed.

(** ** Properties *)

(** C21: a registry holds exactly what it accepted. Of any sequence of observations
    given to a new registry, those that the validation refuses change nothing, with
    the same error; afterwards a series exists precisely when an observation of its
    metric and labels was accepted, a counter is the exact sum of its amounts, a
    gauge its last value, a histogram has in each bucket the number of the values
    between its boundaries, with their number and their sum, and there are never
    more series than allowed. *)
Theorem registry_exact maximum boundaries r0 observations r log : u64 maximum -> Forall observation_ok observations ->
  new_registry maximum boundaries = Ret r0 -> collect observations r0 = (r, log) ->
  (forall metric labels, registry_find metric labels r =
     Ret (make_snapshot (mkMetricSeriesKey metric labels) <$> described (values_of (mkMetricSeriesKey metric labels) log) metric)) /\
  registry_size r <= mr_maximum_series r /\
  (forall o, observation_ok o -> match apply_metric_observation o r with
     | (r', Ret _) => validate_metric_observation r o = Ret tt
     | (r', Throw e) => r' = r /\ validate_metric_observation r o = Throw e
     end).
Proof.
  intros Hm Ho Hr0 Hc. destruct (new_registry_ok _ _ _ Hm Hr0) as (Hok0 & Hd0 & _). destruct (collect_describes _ _ _ _ _ Ho Hok0 Hd0 Hc) as [Hok Hd].
  split; [| split; [apply Hok |]].
  - intros metric labels. unfold registry_find. rewrite metric_definition_known. cbn [obind]. unfold find_snapshot. by rewrite Hd.
  - intros o Hoo. pose proof (apply_metric_run o r Hoo Hok) as Hrun. destruct (validate_metric_observation r o) as [[] | e]; [by destruct Hrun as (r' & -> & _) | by rewrite Hrun].
Qed.

(** C20: all the time of a job is attributed, and to the right phase. Whatever
    observations a session accepted, finalizing it at a time that is not before the
    last of them either runs into the limit of samples, and then changes nothing but
    the samples, or returns; then the jobs with an account are those with an
    accepted transition, each phase of the account is exactly the time between
    consecutive transitions of the job that it spent in that phase, up to the end of
    the run when it has not ended, and the phases add up, without overflow, to the
    time from its first transition to its end. The phase is read off the history,
    not off a state machine: compute, or the delay of a straggler, from its start
    until something other than admission, a collective or a step interrupts it, and
    else what the last transition makes the job wait for. *)
Theorem attribution_exact configuration s0 events s log t : configuration_ok configuration -> tc_mode configuration <> TelemetryMode_Off ->
  Forall event_ok events -> new_session configuration = Ret s0 -> record_all events s0 = (s, log) -> u64 t ->
  match ss_last_timestamp s with Some l => l <= t | None => True end ->
  match finalize t s with
  | (s', Ret _) => exists b, ss_summary s' = Some b /\ forall job, match sb_jobs_ b !! job with
      | Some st => history job log <> [] /\ final_account t job (history job log) (jp_snapshot st)
      | None => history job log = []
      end
  | (s', Throw e) => resampled s s' /\ e = sample_limit
  end.
Proof.
  intros Hc Hmode He Hs0 Hrec Ht Hl. destruct (new_session_holds _ _ Hc Hs0) as [Hh0 Hcfg].
  assert (enabled s0 = true) as Hen0 by (unfold enabled; by rewrite Hcfg, bool_decide_eq_false_2).
  destruct (record_all_holds _ _ _ _ _ He Hh0 Hen0 Hrec) as [Hh Hcfg']. cbn [app] in Hh.
  assert (enabled s = true) as Hen by (unfold enabled; by rewrite Hcfg', Hcfg, bool_decide_eq_false_2).
  pose proof (finalize_run s log t Hh Hen Ht Hl) as Hf. destruct (finalize t s) as [s' [[] | e]]; [| done].
  destruct Hf as (b & Hb & _ & _ & _ & Hjobs). eauto.
Qed.

(** C19: a session retains what it accepts, within its limits, and a refused
    observation leaves no trace. After any observations the records are the accepted
    observations that the mode retains, in order, numbered from zero, and they, the
    edges of their correlations and the samples are within the limits; a next
    observation is either accepted and added to the log, or refused with the session
    unchanged, or refused for the limit of samples, and then nothing but the
    samples, to which whole frames may have been added, is changed. *)
Theorem session_retains_accepted configuration s0 events s log t c o : configuration_ok configuration ->
  tc_mode configuration <> TelemetryMode_Off -> Forall event_ok events -> event_ok (t, c, o) ->
  new_session configuration = Ret s0 -> record_all events s0 = (s, log) ->
  let limits := tc_limits configuration in
  ss_records s = records_of (tc_mode configuration) log /\ ss_retained_edges s = edges (ss_records s) /\
  edges (ss_records s) <= tl_correlation_edges limits /\ decisions (ss_records s) <= tl_decision_records limits /\
  zlength (ss_records s) - decisions (ss_records s) <= tl_domain_records limits /\ zlength (ss_samples s) <= tl_samples limits /\
  match record t c o s with
  | (s', Ret _) => ss_records s' = records_of (tc_mode configuration) (log ++ [(t, c, o)]) /\ ss_samples s `prefix_of` ss_samples s'
  | (s', Throw e) => s' = s \/ resampled s s' /\ e = sample_limit
  end.
Proof.
  intros Hc Hmode He Heo Hs0 Hrec lim. destruct (new_session_holds _ _ Hc Hs0) as [Hh0 Hcfg].
  assert (enabled s0 = true) as Hen0 by (unfold enabled; by rewrite Hcfg, bool_decide_eq_false_2).
  destruct (record_all_holds _ _ _ _ _ He Hh0 Hen0 Hrec) as [Hh Hcfg']. cbn [app] in Hh. rewrite Hcfg in Hcfg'.
  assert (enabled s = true) as Hen by (unfold enabled; by rewrite Hcfg', bool_decide_eq_false_2).
  pose proof (record_run s log t c o Hh Hen Heo) as Hrun. pose proof (record_configuration t c o s) as Hcfg1.
  unfold lim. rewrite <- Hcfg'. destruct Hh as [_ [_ A _ _] _ _ H5 _ [_ D] [_ M] [E1 E2]]. unfold limits in *.
  do 5 (split; [done |]). split; [lia |]. destruct (record t c o s) as [s' [[] | e]]; [| done]. cbn [fst] in Hcfg1. rewrite <- Hcfg1. split; apply Hrun.
Qed.

(** C22: samples are taken at every boundary. After any observations, emitting the
    samples up to a time ends, whether it visits the boundaries one by one or skips
    them because no series is sampled, and appends one frame of all counters and
    gauges for each multiple of the interval that is due, in order, and moves on to
    the first that is not, if a clock of 64 bits reaches it; only when the frames
    that are due do not fit does it append as many as do and report the limit. *)
Theorem samples_exact configuration s0 events s log t inclusive : configuration_ok configuration ->
  retains_samples s0 = true -> Forall event_ok events -> new_session configuration = Ret s0 -> record_all events s0 = (s, log) -> u64 t ->
  emit_samples_until t inclusive s = emission t inclusive s /\
  (forall next, ss_next_sample_timestamp s = Some next -> (tc_sample_interval_ns configuration | next)).
Proof.
  intros Hc Hret He Hs0 Hrec Ht. destruct (new_session_holds _ _ Hc Hs0) as [Hh0 Hcfg].
  assert (enabled s0 = true) as Hen0.
  { unfold enabled. unfold retains_samples in Hret. by destruct (tc_mode (ss_configuration s0)). }
  destruct (record_all_holds _ _ _ _ _ He Hh0 Hen0 Hrec) as [Hh Hcfg']. split.
  - apply emit_samples_run; [apply Hh | done |]. unfold retains_samples in *. by rewrite Hcfg'.
  - intros next Hn. rewrite <- Hcfg, <- Hcfg'. by apply (sa_multiple s (ho_sampling _ _ Hh)).
Qed.

(** ** A small run *)

Definition small_configuration : TelemetryConfiguration := mkTelemetryConfiguration TelemetryMode_Full 10 default_limits.

Definition small_session : Session :=
  match new_session small_configuration with
  | Ret s => s
  | Throw _ => mkSession small_configuration None [] [] None None 0 0 0 0 false false
  end.

Definition of_job (job : JobId) : Correlation := {| no_correlation with corr_job := Some job |}.

Definition job_event (t : SimTimeNs) (job : JobId) (tr : JobTransition) : Event := (t, of_job job, JobObservation tr 0 0 0 0).

(** A job that ends, one that does not, and an observation that is too late. *)
Definition small_events : list Event :=
  [job_event 0 7 JobTransition_Arrived; (3, no_correlation, CounterObservation SimulationDispatchedEvents [] 2);
   job_event 4 7 JobTransition_ComputeStarted; job_event 5 8 JobTransition_Arrived; job_event 2 7 JobTransition_StepCompleted;
   (12, no_correlation, CounterObservation SimulationDispatchedEvents [] 5); job_event 20 7 JobTransition_ComputeCompleted;
   job_event 31 7 JobTransition_Succeeded].

Definition small_result : Session * list Event := record_all small_events small_session.

Definition event_okb (e : Event) : bool :=
  bool_decide (u64 (fst (fst e))) && match key_of (snd e) with Some (_, v) => bool_decide (u64 v) | None => true end.

Lemma events_ok_of events : forallb event_okb events = true -> Forall event_ok events.
Proof.
  intros H. apply Forall_forall. intros e He. apply list_elem_of_In in He. rewrite forallb_forall in H. specialize (H e He).
  apply andb_true_iff in H as [H1 H2]. apply bool_decide_eq_true in H1. split; [done |]. unfold observation_ok.
  destruct (key_of (snd e)) as [[k v] |]; [by apply bool_decide_eq_true in H2 | done].
Qed.

Lemma small_configuration_ok : configuration_ok small_configuration.
Proof. repeat split; vm_compute; congruence. Qed.

Lemma small_session_new : new_session small_configuration = Ret small_session.
Proof. vm_compute. reflexivity. Qed.

Lemma small_result_run : record_all small_events small_session = (fst small_result, snd small_result).
Proof. exact (surjective_pairing small_result). Qed.

Lemma small_events_ok : Forall event_ok small_events.
Proof. apply events_ok_of. vm_compute. reflexivity. Qed.

Definition small_observations : list TelemetryObservation :=
  [CounterObservation SimulationDispatchedEvents [] 2; GaugeObservation SimulationDispatchedEvents [] 9;
   CounterObservation SimulationDispatchedEvents [] 5; CounterObservation SimulationDispatchedEvents [] u64_max].

Definition small_registry : MetricRegistry := mkMetricRegistry 4 [].

Lemma registry_exact_witness : let r := fst (collect small_observations small_registry) in
  registry_find SimulationDispatchedEvents [] r =
    Ret (Some (mkMetricSeriesSnapshot SimulationDispatchedEvents [] MetricKind_Counter 7 [] 0 0)) /\ registry_size r <= mr_maximum_series r.
Proof.
  assert (Forall observation_ok small_observations) as Ho by (repeat constructor; vm_compute; congruence).
  destruct (registry_exact 4 64 small_registry small_observations (fst (collect small_observations small_registry)) (snd (collect small_observations small_registry)))
    as (H1 & H2 & _); [split; vm_compute; congruence | exact Ho | vm_compute; reflexivity | vm_compute; reflexivity |].
  split; [rewrite (H1 SimulationDispatchedEvents []); vm_compute; reflexivity | exact H2].
Defined.

Lemma attribution_exact_witness : let s := fst small_result in
  snd (finalize 45 s) = Ret tt /\
  ((fun p => time_in p (history 7 (snd small_result))) <$>
     [JobPhase_SchedulingWait; JobPhase_Compute; JobPhase_SynchronizationWait; JobPhase_Communication]) = [4; 16; 11; 0] /\
  exists b, ss_summary (fst (finalize 45 s)) = Some b /\ forall job, match sb_jobs_ b !! job with
    | Some st => history job (snd small_result) <> [] /\ final_account 45 job (history job (snd small_result)) (jp_snapshot st)
    | None => history job (snd small_result) = []
    end.
Proof.
  pose proof (attribution_exact small_configuration small_session small_events (fst small_result) (snd small_result) 45 small_configuration_ok
    ltac:(done) small_events_ok small_session_new small_result_run ltac:(split; vm_compute; congruence) ltac:(vm_compute; congruence)) as H.
  intros s. assert (snd (finalize 45 s) = Ret tt) as Hr by (vm_compute; reflexivity). split; [exact Hr |].
  split; [vm_compute; reflexivity |]. fold s in H. destruct (finalize 45 s) as [s' r]. cbn [fst snd] in *. rewrite Hr in H. exact H.
Defined.

Lemma session_retains_accepted_witness : let s := fst small_result in
  zlength (ss_records s) = 7 /\ ss_records s = records_of TelemetryMode_Full (snd small_result) /\
  match record 33 no_correlation (GaugeObservation SimulationDispatchedEvents [] 1) s with
  | (s', Ret _) => ss_samples s `prefix_of` ss_samples s'
  | (s', Throw e) => s' = s \/ resampled s s' /\ e = sample_limit
  end.
Proof.
  pose proof (session_retains_accepted small_configuration small_session small_events (fst small_result) (snd small_result) 33 no_correlation
    (GaugeObservation SimulationDispatchedEvents [] 1) small_configuration_ok ltac:(done) small_events_ok
    ltac:(split; split; vm_compute; congruence) small_session_new small_result_run) as (H1 & _ & _ & _ & _ & _ & H2).
  split; [vm_compute; reflexivity |]. split; [exact H1 |].
  destruct (record 33 no_correlation (GaugeObservation SimulationDispatchedEvents [] 1) (fst small_result)) as [s' [[] | e]]; [exact (proj2 H2) | exact H2].
Defined.

Lemma samples_exact_witness : let s := fst small_result in
  ss_samples s <> [] /\ emit_samples_until 75 true s = emission 75 true s /\ zlength (ss_samples (fst (emission 75 true s))) = 19.
Proof.
  pose proof (samples_exact small_configuration small_session small_events (fst small_result) (snd small_result) 75 true small_configuration_ok
    ltac:(reflexivity) small_events_ok small_session_new small_result_run ltac:(split; vm_compute; congruence)) as [H _].
  split; [vm_compute; congruence | split; [exact H | vm_compute; reflexivity]].
Defined.
