(* ===== verification/EventQueue.v ===== *)
(** * The event queue

    Models [sim/event_queue.{hpp,cpp}].  [std::priority_queue] keeps its
    elements in an array whose layout the standard leaves open; the model keeps
    the elements as a bag (a list up to permutation) and [top] selects an
    element no other one comes before, which is all the container promises.
    [pop_layout_independent] shows that with distinct identifiers this fixes
    the result for every layout. *)

From S2P Require Import Prelude SimTime Entities.

(** [LaterEvent::operator()(left, right)]. *)
Definition LaterEvent (left right : Event) : bool :=
  if negb (ev_timestamp left =? ev_timestamp right)
  then ev_timestamp left >? ev_timestamp right
  else if negb (bool_decide (ev_priority left = ev_priority right))
  then EventPriority_value (ev_priority left) >? EventPriority_value (ev_priority right)
  else ev_id left >? ev_id right.

Record EventQueue : Type := mkEventQueue { events_ : list Event }.

Definition empty_queue : EventQueue := mkEventQueue [].

Definition push (event : Event) (q : EventQueue) : EventQueue :=
  mkEventQueue (event :: events_ q).

(** The element on top and the others. *)
Fixpoint extract_top (e : Event) (l : list Event) : Event * list Event :=
  match l with
  | [] => (e, [])
  | x :: l' =>
      let '(top, rest) := extract_top x l' in
      if LaterEvent e top then (top, e :: rest) else (e, top :: rest)
  end.

Definition pop (q : EventQueue) : option Event * EventQueue :=
  match events_ q with
  | [] => (None, q)
  | e :: l => let '(next, rest) := extract_top e l in (Some next, mkEventQueue rest)
  end.

Definition queue_empty (q : EventQueue) : bool :=
  match events_ q with [] => true | _ => false end.

Definition queue_size (q : EventQueue) : Z := zlength (events_ q).

(** ** The dispatch order

    The documented order: ascending timestamp, then priority value, then
    identifier. *)

Definition event_key (e : Event) : Z * Z * Z :=
  (ev_timestamp e, EventPriority_value (ev_priority e), ev_id e).

Definition key_lt (x y : Z * Z * Z) : Prop :=
  let '(t1, p1, i1) := x in
  let '(t2, p2, i2) := y in
  t1 < t2 \/ t1 = t2 /\ (p1 < p2 \/ p1 = p2 /\ i1 < i2).

(** [a] is dispatched before [b]. *)
Definition before (a b : Event) : Prop := key_lt (event_key a) (event_key b).

Lemma EventPriority_value_inj p q : EventPriority_value p = EventPriority_value q -> p = q.
Proof. by destruct p, q. Qed.

Lemma LaterEvent_before a b : LaterEvent a b = true <-> before b a.
Proof.
  unfold LaterEvent, before, event_key, key_lt.
  destruct (ev_timestamp a =? ev_timestamp b) eqn:Ht; cbn [negb]; [| lia].
  case_bool_decide as Hp; cbn [negb].
  - rewrite Hp. lia.
  - assert (EventPriority_value (ev_priority a) <> EventPriority_value (ev_priority b))
      by (intros H; by apply EventPriority_value_inj in H). lia.
Qed.

#[global] Instance before_irreflexive : Irreflexive before.
Proof. intros e. unfold complement, before, event_key, key_lt. lia. Qed.

#[global] Instance before_transitive : Transitive before.
Proof. intros a b c. unfold before, event_key, key_lt. lia. Qed.

Lemma before_total a b : ev_id a <> ev_id b -> before a b \/ before b a.
Proof. unfold before, event_key, key_lt. lia. Qed.

Lemma not_before_trans a b c : ~ before b a -> ~ before c b -> ~ before c a.
Proof. unfold before, event_key, key_lt. lia. Qed.

Lemma before_timestamp a b : ~ before b a -> ev_timestamp a <= ev_timestamp b.
Proof. unfold before, event_key, key_lt. lia. Qed.

(** ** Selection *)

Lemma extract_top_spec e l :
  e :: l ≡ₚ fst (extract_top e l) :: snd (extract_top e l) /\
  Forall (fun x => ~ before x (fst (extract_top e l))) (snd (extract_top e l)).
Proof.
  revert e. induction l as [| x l IH]; intros e; simpl; [by repeat constructor |].
  destruct (IH x) as [Hp Hf]. destruct (extract_top x l) as [top rest]. simpl in *.
  destruct (LaterEvent e top) eqn:Hl; simpl.
  - apply LaterEvent_before in Hl. split.
    + rewrite Hp. constructor.
    + constructor; [| done]. intros He. apply (irreflexivity before top). by transitivity e.
  - assert (~ before top e) as Hn by (intros H; apply LaterEvent_before in H; congruence).
    split; [by rewrite Hp |]. constructor; [done |].
    eapply Forall_impl; [exact Hf |]. simpl. intros y Hy. by apply (not_before_trans e top y).
Qed.

(** What [pop] promises about the queue it is applied to. *)
Lemma pop_spec q :
  match pop q with
  | (Some e, q') => events_ q ≡ₚ e :: events_ q' /\
                    Forall (fun x => ~ before x e) (events_ q')
  | (None, q') => events_ q = [] /\ q' = q
  end.
Proof.
  unfold pop. destruct (events_ q) as [| e l]; [done |].
  pose proof (extract_top_spec e l) as H. destruct (extract_top e l). done.
Qed.

Lemma pop_Some q e q' :
  pop q = (Some e, q') -> events_ q ≡ₚ e :: events_ q' /\ Forall (fun x => ~ before x e) (events_ q').
Proof. intros H. pose proof (pop_spec q) as Hs. by rewrite H in Hs. Qed.

Lemma pop_None q q' : pop q = (None, q') -> events_ q = [] /\ q' = q.
Proof. intros H. pose proof (pop_spec q) as Hs. by rewrite H in Hs. Qed.

Lemma NoDup_ids_eq (l : list Event) a b :
  NoDup (ev_id <$> l) -> a ∈ l -> b ∈ l -> ev_id a = ev_id b -> a = b.
Proof.
  intros Hn Ha Hb He.
  apply list_elem_of_lookup in Ha as [i Hi]. apply list_elem_of_lookup in Hb as [j Hj].
  assert (i = j) as ->.
  { apply (NoDup_lookup (ev_id <$> l) i j (ev_id a)); [done | |];
      rewrite list_lookup_fmap; [by rewrite Hi | rewrite Hj; simpl; by rewrite He]. }
  congruence.
Qed.

(** The container's array layout cannot influence the simulation.  Two
    queues holding the same events with distinct identifiers pop the same
    event, and the rests again hold the same events. *)
Theorem pop_layout_independent q1 q2 :
  NoDup (ev_id <$> events_ q1) -> events_ q1 ≡ₚ events_ q2 ->
  fst (pop q1) = fst (pop q2) /\ events_ (snd (pop q1)) ≡ₚ events_ (snd (pop q2)).
Proof.
  intros Hnd Hp. destruct (pop q1) as [[e1 |] r1] eqn:H1, (pop q2) as [[e2 |] r2] eqn:H2; simpl.
  - apply pop_Some in H1 as [Hp1 Hf1]. apply pop_Some in H2 as [Hp2 Hf2].
    assert (e1 = e2) as <-.
    { assert (e1 ∈ events_ q1) as Hi1 by (rewrite Hp1; left).
      assert (e2 ∈ events_ q1) as Hi2 by (rewrite Hp, Hp2; left).
      destruct (decide (ev_id e1 = ev_id e2)) as [He | He].
      { by apply (NoDup_ids_eq (events_ q1)). }
      exfalso. destruct (before_total e1 e2 He) as [Hb | Hb].
      - rewrite Hp, Hp2 in Hi1. apply elem_of_cons in Hi1 as [-> | Hi1]; [done |].
        rewrite Forall_forall in Hf2. by apply (Hf2 e1).
      - rewrite Hp1 in Hi2. apply elem_of_cons in Hi2 as [-> | Hi2]; [done |].
        rewrite Forall_forall in Hf1. by apply (Hf1 e2). }
    split; [done |]. apply (Permutation_cons_inv (a := e1)). by rewrite <- Hp1, Hp, Hp2.
  - exfalso. apply pop_Some in H1 as [Hp1 _]. apply pop_None in H2 as [Hn _].
    rewrite Hp1, Hn in Hp. by apply Permutation_nil_r in Hp.
  - exfalso. apply pop_None in H1 as [Hn _]. apply pop_Some in H2 as [Hp2 _].
    rewrite Hp2, Hn in Hp. symmetry in Hp. by apply Permutation_nil_r in Hp.
  - apply pop_None in H1 as [Hn ->]. apply pop_None in H2 as [Hn2 ->]. by rewrite Hn, Hn2.
Qed.

(** ** Draining: the refinement of the abstract priority queue

    The abstract queue is a list kept in dispatch order; popping takes its
    head.  Draining the heap yields that list. *)

Fixpoint drain_queue (fuel : nat) (q : EventQueue) : list Event :=
  match fuel with
  | O => []
  | S n => match pop q with
           | (Some e, q') => e :: drain_queue n q'
           | (None, _) => []
           end
  end.

Lemma drain_queue_perm fuel q :
  (length (events_ q) <= fuel)%nat -> drain_queue fuel q ≡ₚ events_ q.
Proof.
  revert q. induction fuel as [| n IH]; intros q Hl; simpl.
  { destruct (events_ q); [done | simpl in Hl; lia]. }
  destruct (pop q) as [[e |] q'] eqn:Hp.
  - apply pop_Some in Hp as [Hp _]. rewrite Hp. constructor. apply IH.
    rewrite Hp in Hl. simpl in Hl. lia.
  - apply pop_None in Hp as [-> _]. done.
Qed.

(** Draining the queue yields all its events, each once, in the documented
    total order (timestamp, then priority, then identifier). *)
Theorem drain_queue_sorted q :
  NoDup (ev_id <$> events_ q) ->
  drain_queue (length (events_ q)) q ≡ₚ events_ q /\
  StronglySorted before (drain_queue (length (events_ q)) q).
Proof.
  intros Hnd. split; [by apply drain_queue_perm |].
  remember (length (events_ q)) as fuel eqn:Hf. assert (length (events_ q) <= fuel)%nat as Hl by lia.
  clear Hf. revert q Hnd Hl. induction fuel as [| n IH]; intros q Hnd Hl; simpl; [constructor |].
  destruct (pop q) as [[e |] q'] eqn:Hp; [| constructor].
  apply pop_Some in Hp as [Hp Hfa].
  assert (NoDup (ev_id <$> (e :: events_ q'))) as Hnd' by (by rewrite <- Hp).
  rewrite fmap_cons, NoDup_cons in Hnd'. destruct Hnd' as [Hni Hnd'].
  assert (length (events_ q') <= n)%nat as Hl' by (rewrite Hp in Hl; simpl in Hl; lia).
  constructor; [by apply IH |].
  apply Forall_forall. intros x Hx. rewrite drain_queue_perm in Hx by done.
  rewrite Forall_forall in Hfa. specialize (Hfa x Hx).
  destruct (before_total e x) as [| Hb]; [| done | by exfalso; apply Hfa].
  intros He. apply Hni. rewrite He. by apply list_elem_of_fmap_2.
Qed.

