(* ===== verification/Trace.v ===== *)
(** * The kernel trace and its hash

    Models [sim/trace.{hpp,cpp}]: the typed trace records, the running FNV-1a
    hash, and the append-only log.  The hash is shown to be FNV-1a of a byte
    encoding that can be decoded, so two traces feed the hash the same bytes
    only when they are the same trace. *)

From S2P Require Import Prelude SimTime Entities.
From Stdlib Require Import Ascii.

Inductive TraceMode : Type := TraceMode_Disabled | TraceMode_Enabled.

Inductive TraceAction : Type :=
  | TraceAction_Scheduled | TraceAction_Dispatched | TraceAction_Cancelled
  | TraceAction_StopRequested | TraceAction_Completed | TraceAction_Failed.

Definition TraceAction_value (a : TraceAction) : Z :=
  match a with
  | TraceAction_Scheduled => 1 | TraceAction_Dispatched => 2 | TraceAction_Cancelled => 3
  | TraceAction_StopRequested => 4 | TraceAction_Completed => 5 | TraceAction_Failed => 6
  end.

Inductive EventPayloadKind : Type :=
  | EventPayloadKind_NoOp | EventPayloadKind_ChunkArrival
  | EventPayloadKind_TransmissionComplete | EventPayloadKind_LinkStateChange
  | EventPayloadKind_PortStateChange | EventPayloadKind_SwitchStateChange
  | EventPayloadKind_Workload | EventPayloadKind_LocalCollectiveCompletion.

Definition EventPayloadKind_value (k : EventPayloadKind) : Z :=
  match k with
  | EventPayloadKind_NoOp => 1
  | EventPayloadKind_ChunkArrival => 2
  | EventPayloadKind_TransmissionComplete => 3
  | EventPayloadKind_LinkStateChange => 4
  | EventPayloadKind_PortStateChange => 5
  | EventPayloadKind_SwitchStateChange => 6
  | EventPayloadKind_Workload => 7
  | EventPayloadKind_LocalCollectiveCompletion => 8
  end.

Inductive StopReason : Type := StopReason_Requested.

Definition StopReason_value (r : StopReason) : Z := match r with StopReason_Requested => 1 end.

Record TraceRecord : Type := mkTraceRecord {
  tr_action : TraceAction;
  tr_recorded_at : SimTimeNs;
  tr_event_id : option EventId;
  tr_cause : option EventId;
  tr_event_timestamp : option SimTimeNs;
  tr_priority : option EventPriority;
  tr_payload_kind : option EventPayloadKind;
  tr_stop_reason : option StopReason;
  tr_error : option string;
}.

Definition payload_kind (payload : EventPayload) : EventPayloadKind :=
  match payload with
  | NoOpEvent _ => EventPayloadKind_NoOp
  | ChunkArrival_ _ => EventPayloadKind_ChunkArrival
  | TransmissionComplete_ _ => EventPayloadKind_TransmissionComplete
  | LinkStateChange_ _ => EventPayloadKind_LinkStateChange
  | PortStateChange_ _ => EventPayloadKind_PortStateChange
  | SwitchStateChange_ _ => EventPayloadKind_SwitchStateChange
  | Workload_ _ => EventPayloadKind_Workload
  | LocalCompletion_ _ => EventPayloadKind_LocalCollectiveCompletion
  end.

(** ** The hash *)

Definition fnv_prime : Z := 1099511628211.

Definition fnv_offset_basis : Z := 14695981039346656037.

Definition hash_byte (hash value : Z) : Z := u64_wrap (Z.lxor hash value * fnv_prime).

(** The loop over the eight bytes of a word, least significant first. *)
Fixpoint hash_u64_from (count : nat) (index : Z) (hash value : Z) : Z :=
  match count with
  | O => hash
  | S n => hash_u64_from n (index + 1)
             (hash_byte hash (Z.land (Z.shiftr value (index * 8)) 0xFF)) value
  end.

Definition hash_u64 (hash value : Z) : Z := hash_u64_from 8 0 hash value.

Definition hash_optional {V} (hash : Z) (value : option V) (encoder : Z -> V -> Z) : Z :=
  match value with
  | Some v => encoder (hash_byte hash 1) v
  | None => hash_byte hash 0
  end.

Definition hash_event_id (hash : Z) (id : EventId) : Z := hash_u64 hash id.

Definition hash_time (hash : Z) (time : SimTimeNs) : Z := hash_u64 hash time.

Definition hash_priority (hash : Z) (priority : EventPriority) : Z :=
  hash_byte hash (EventPriority_value priority).

Definition hash_payload_kind (hash : Z) (kind : EventPayloadKind) : Z :=
  hash_byte hash (EventPayloadKind_value kind).

Definition hash_stop_reason (hash : Z) (reason : StopReason) : Z :=
  hash_byte hash (StopReason_value reason).

Definition char_value (c : ascii) : Z := Z.of_nat (nat_of_ascii c).

Definition hash_error (hash : Z) (error : string) : Z :=
  fold_left (fun h c => hash_byte h (char_value c)) (String.list_ascii_of_string error)
    (hash_u64 hash (zlength (String.list_ascii_of_string error))).

Definition hash_record (hash : Z) (record : TraceRecord) : Z :=
  let hash := hash_byte hash (TraceAction_value (tr_action record)) in
  let hash := hash_time hash (tr_recorded_at record) in
  let hash := hash_optional hash (tr_event_id record) hash_event_id in
  let hash := hash_optional hash (tr_cause record) hash_event_id in
  let hash := hash_optional hash (tr_event_timestamp record) hash_time in
  let hash := hash_optional hash (tr_priority record) hash_priority in
  let hash := hash_optional hash (tr_payload_kind record) hash_payload_kind in
  let hash := hash_optional hash (tr_stop_reason record) hash_stop_reason in
  hash_optional hash (tr_error record) hash_error.

(** ** The log *)

Record TraceLog : Type := mkTraceLog {
  mode_ : TraceMode;
  records_ : list TraceRecord;
  hash_ : Z;
}.

Definition new_trace_log (mode : TraceMode) : TraceLog := mkTraceLog mode [] fnv_offset_basis.

Definition trace_enabled (log : TraceLog) : bool :=
  match mode_ log with TraceMode_Enabled => true | TraceMode_Disabled => false end.

Definition trace_append (record : TraceRecord) (log : TraceLog) : TraceLog :=
  if negb (trace_enabled log) then log
  else {| log with records_ := records_ log ++ [record];
                   hash_ := hash_record (hash_ log) record |}.

Definition trace_hash (log : TraceLog) : option Z :=
  if trace_enabled log then Some (hash_ log) else None.

(** ** The byte encoding behind the hash

    A codec pairs an encoder with a decoder that inverts it on every input
    tail. *)

Class Codec (A : Type) : Type := {
  encode : A -> list Z;
  decode : list Z -> option (A * list Z);
  encodable : A -> Prop;
}.

Class CodecLaws (A : Type) `{Codec A} : Prop := {
  decode_encode (a : A) rest : encodable a -> decode (encode a ++ rest) = Some (a, rest);
}.

(** FNV-1a over bytes. *)
Definition fnv (hash : Z) (bytes : list Z) : Z := fold_left hash_byte bytes hash.

Lemma fnv_app h b1 b2 : fnv h (b1 ++ b2) = fnv (fnv h b1) b2.
Proof. apply fold_left_app. Qed.

(** Little-endian words. *)
Fixpoint le_bytes (count : nat) (value : Z) : list Z :=
  match count with
  | O => []
  | S n => value mod 256 :: le_bytes n (value / 256)
  end.

Fixpoint le_value (bytes : list Z) : Z :=
  match bytes with
  | [] => 0
  | b :: bs => b + 256 * le_value bs
  end.

Lemma le_value_bytes n v : 0 <= v < 256 ^ Z.of_nat n -> le_value (le_bytes n v) = v.
Proof.
  revert v. induction n as [| n IH]; intros v Hv; simpl; [simpl in Hv; lia |].
  rewrite Nat2Z.inj_succ, Z.pow_succ_r in Hv by lia.
  rewrite IH; [pose proof (Z.div_mod v 256); lia |].
  split; [apply Z.div_pos; lia | apply Z.div_lt_upper_bound; lia].
Qed.

Lemma length_le_bytes n v : length (le_bytes n v) = n.
Proof. revert v. induction n; simpl; auto. Qed.

Lemma hash_u64_from_fnv n i h v :
  0 <= i -> hash_u64_from n i h v = fnv h (le_bytes n (v / 256 ^ i)).
Proof.
  revert i h. induction n as [| n IH]; intros i h Hi; [done |].
  simpl. rewrite IH by lia. unfold fnv. simpl. f_equal.
  - rewrite Z.div_div by (try apply Z.pow_nonzero; lia).
    f_equal. rewrite Z.add_1_r, Z.pow_succ_r by lia. by rewrite Z.mul_comm.
  - f_equal. rewrite Z.shiftr_div_pow2 by lia.
    change 0xFF with (Z.ones 8). rewrite Z.land_ones by lia.
    replace (2 ^ (i * 8)) with (256 ^ i); [done |].
    change 256 with (2 ^ 8). rewrite <- Z.pow_mul_r by lia. f_equal. lia.
Qed.

(** A word read from and written to the byte stream. *)
Definition decode_u64 (bytes : list Z) : option (Z * list Z) :=
  if decide (8 <= length bytes)%nat
  then Some (le_value (take 8 bytes), drop 8 bytes) else None.

Definition encode_u64 (v : Z) : list Z := le_bytes 8 v.

Lemma hash_u64_fnv h v : hash_u64 h v = fnv h (encode_u64 v).
Proof.
  unfold hash_u64, encode_u64. rewrite hash_u64_from_fnv by lia.
  by rewrite Z.pow_0_r, Z.div_1_r.
Qed.

#[global] Instance u64_codec : Codec Z := {
  encode := encode_u64; decode := decode_u64; encodable := u64 }.

#[global] Instance u64_codec_laws : CodecLaws Z.
Proof.
  split. intros v rest Hv. unfold decode, encode, u64_codec, decode_u64, encode_u64.
  rewrite length_app, length_le_bytes. rewrite decide_True by lia.
  rewrite take_app_length' by (by rewrite length_le_bytes).
  rewrite drop_app_length' by (by rewrite length_le_bytes).
  rewrite le_value_bytes; [done |]. simpl in Hv. word_lia.
Qed.

(** An enumerator is one byte; the decoder looks it up among all enumerators. *)
Definition decode_enum {A} (value : A -> Z) (all : list A) (bytes : list Z)
    : option (A * list Z) :=
  match bytes with
  | [] => None
  | b :: rest =>
      match List.find (fun a => value a =? b) all with
      | Some a => Some (a, rest)
      | None => None
      end
  end.

Lemma decode_enum_value {A} (value : A -> Z) all a rest :
  (forall x y, value x = value y -> x = y) -> In a all ->
  decode_enum value all (value a :: rest) = Some (a, rest).
Proof.
  intros Hinj Hin. simpl. destruct (List.find _ all) as [x |] eqn:Hf.
  - apply List.find_some in Hf as [_ Hx]. apply Z.eqb_eq in Hx. by rewrite (Hinj x a Hx).
  - pose proof (List.find_none _ _ Hf a Hin) as Hn. simpl in Hn. lia.
Qed.

#[global] Instance action_codec : Codec TraceAction := {
  encode := fun a => [TraceAction_value a];
  decode := decode_enum TraceAction_value
    [TraceAction_Scheduled; TraceAction_Dispatched; TraceAction_Cancelled;
     TraceAction_StopRequested; TraceAction_Completed; TraceAction_Failed];
  encodable := fun _ => True }.

#[global] Instance priority_codec : Codec EventPriority := {
  encode := fun p => [EventPriority_value p];
  decode := decode_enum EventPriority_value [Critical; Control; Normal; Background];
  encodable := fun _ => True }.

#[global] Instance kind_codec : Codec EventPayloadKind := {
  encode := fun k => [EventPayloadKind_value k];
  decode := decode_enum EventPayloadKind_value
    [EventPayloadKind_NoOp; EventPayloadKind_ChunkArrival;
     EventPayloadKind_TransmissionComplete; EventPayloadKind_LinkStateChange;
     EventPayloadKind_PortStateChange; EventPayloadKind_SwitchStateChange;
     EventPayloadKind_Workload; EventPayloadKind_LocalCollectiveCompletion];
  encodable := fun _ => True }.

#[global] Instance reason_codec : Codec StopReason := {
  encode := fun r => [StopReason_value r];
  decode := decode_enum StopReason_value [StopReason_Requested];
  encodable := fun _ => True }.

Ltac solve_enum_codec :=
  split; intros a rest _; apply decode_enum_value;
  [by intros [] [] | destruct a; simpl; tauto].

#[global] Instance action_codec_laws : CodecLaws TraceAction.
Proof. solve_enum_codec. Qed.

#[global] Instance priority_codec_laws : CodecLaws EventPriority.
Proof. solve_enum_codec. Qed.

#[global] Instance kind_codec_laws : CodecLaws EventPayloadKind.
Proof. solve_enum_codec. Qed.

#[global] Instance reason_codec_laws : CodecLaws StopReason.
Proof. solve_enum_codec. Qed.

(** An optional value has a presence byte. *)
#[global] Instance option_codec {A} `{Codec A} : Codec (option A) := {
  encode := fun o => match o with Some a => 1 :: encode a | None => [0] end;
  decode := fun bytes =>
    match bytes with
    | 0 :: rest => Some (None, rest)
    | 1 :: rest => match decode rest with Some (a, rest') => Some (Some a, rest') | None => None end
    | _ => None
    end;
  encodable := fun o => match o with Some a => encodable a | None => True end }.

#[global] Instance option_codec_laws {A} `{CodecLaws A} : CodecLaws (option A).
Proof. split. intros [a |] rest Ho; simpl; [| done]. by rewrite decode_encode. Qed.

(** A string is its length and its characters. *)
#[global] Instance string_codec : Codec string := {
  encode := fun s => encode_u64 (zlength (String.list_ascii_of_string s)) ++
    (char_value <$> String.list_ascii_of_string s);
  decode := fun bytes =>
    match decode_u64 bytes with
    | Some (n, rest) =>
        let n := Z.to_nat n in
        if decide (n <= length rest)%nat
        then Some (String.string_of_list_ascii
                     ((fun b => ascii_of_nat (Z.to_nat b)) <$> take n rest), drop n rest)
        else None
    | None => None
    end;
  encodable := fun s => zlength (String.list_ascii_of_string s) <= u64_max }.

Lemma char_value_decode (l : list ascii) :
  (fun b => ascii_of_nat (Z.to_nat b)) <$> (char_value <$> l) = l.
Proof.
  rewrite <- list_fmap_compose. rewrite <- (list_fmap_id l) at 2.
  apply list_fmap_ext. intros i c _. simpl. unfold char_value.
  rewrite Nat2Z.id. apply ascii_nat_embedding.
Qed.

#[global] Instance string_codec_laws : CodecLaws string.
Proof.
  split. intros s rest Hs. cbn [encode decode string_codec]. rewrite <- app_assoc.
  set (l := String.list_ascii_of_string s) in *.
  pose proof (decode_encode (A := Z) (zlength l) ((char_value <$> l) ++ rest)) as Hd.
  cbn [encode decode u64_codec encodable] in Hd. rewrite Hd; [| split; [unfold zlength; lia | exact Hs]].
  unfold zlength. rewrite Nat2Z.id. rewrite decide_True by (rewrite length_app, length_fmap; lia).
  rewrite take_app_length' by (by rewrite length_fmap).
  rewrite drop_app_length' by (by rewrite length_fmap).
  rewrite char_value_decode. unfold l. by rewrite String.string_of_list_ascii_of_string.
Qed.

Definition record_encodable (r : TraceRecord) : Prop :=
  encodable (tr_recorded_at r) /\ encodable (tr_event_id r) /\ encodable (tr_cause r) /\
  encodable (tr_event_timestamp r) /\ encodable (tr_error r).

(** A whole record, in the order [hash_record] visits its fields. *)
#[global] Instance record_codec : Codec TraceRecord := {
  encode := fun r =>
    encode (tr_action r) ++ encode (tr_recorded_at r) ++ encode (tr_event_id r) ++
    encode (tr_cause r) ++ encode (tr_event_timestamp r) ++ encode (tr_priority r) ++
    encode (tr_payload_kind r) ++ encode (tr_stop_reason r) ++ encode (tr_error r);
  decode := fun b0 =>
    '(action, b1) ← decode b0; '(at_, b2) ← decode b1; '(id, b3) ← decode b2;
    '(cause, b4) ← decode b3; '(ts, b5) ← decode b4; '(prio, b6) ← decode b5;
    '(kind, b7) ← decode b6; '(reason, b8) ← decode b7; '(error, b9) ← decode b8;
    Some (mkTraceRecord action at_ id cause ts prio kind reason error, b9);
  encodable := record_encodable }.

#[global] Instance record_codec_laws : CodecLaws TraceRecord.
Proof.
  split. intros [act at_ id cause ts prio kind reason err] rest (H1 & H2 & H3 & H4 & H5).
  cbn [tr_recorded_at tr_event_id tr_cause tr_event_timestamp tr_error] in *.
  cbn [encode decode record_codec tr_action tr_recorded_at tr_event_id tr_cause
    tr_event_timestamp tr_priority tr_payload_kind tr_stop_reason tr_error].
  rewrite <- !app_assoc.
  rewrite (decode_encode act) by done. cbn [mbind option_bind].
  rewrite (decode_encode at_) by done. cbn [mbind option_bind].
  rewrite (decode_encode id) by done. cbn [mbind option_bind].
  rewrite (decode_encode cause) by done. cbn [mbind option_bind].
  rewrite (decode_encode ts) by done. cbn [mbind option_bind].
  rewrite (decode_encode prio) by (by destruct prio). cbn [mbind option_bind].
  rewrite (decode_encode kind) by (by destruct kind). cbn [mbind option_bind].
  rewrite (decode_encode reason) by (by destruct reason). cbn [mbind option_bind].
  by rewrite (decode_encode err).
Qed.

(** ** The hash is FNV-1a of the encoding *)

Class HashedBy (A : Type) `{Codec A} (h : Z -> A -> Z) : Prop := {
  hashed hash a : h hash a = fnv hash (encode a);
}.

#[global] Instance hashed_u64 : HashedBy Z hash_u64.
Proof. split. apply hash_u64_fnv. Qed.

#[global] Instance hashed_error : HashedBy string hash_error.
Proof.
  split. intros h s. unfold hash_error. cbn [encode string_codec].
  rewrite fnv_app, hash_u64_fnv. unfold fnv at 2. generalize (fnv h (encode_u64
    (zlength (String.list_ascii_of_string s)))) as h0.
  induction (String.list_ascii_of_string s) as [| c l IH]; intros h0; simpl; [done | apply IH].
Qed.

Lemma hash_optional_fnv {A} `{Codec A} f `{!HashedBy A f} h (o : option A) :
  hash_optional h o f = fnv h (encode o).
Proof. destruct o as [a |]; [| done]. simpl. by rewrite hashed. Qed.

Lemma hash_record_fnv h r : hash_record h r = fnv h (encode r).
Proof.
  unfold hash_record. cbn [encode record_codec]. rewrite !fnv_app.
  unfold hash_time, hash_event_id.
  rewrite (hash_optional_fnv hash_error), !(hash_optional_fnv hash_u64), hash_u64_fnv.
  assert (HashedBy EventPriority hash_priority) by (split; done).
  assert (HashedBy EventPayloadKind hash_payload_kind) by (split; done).
  assert (HashedBy StopReason hash_stop_reason) by (split; done).
  rewrite (hash_optional_fnv hash_stop_reason), (hash_optional_fnv hash_payload_kind),
    (hash_optional_fnv hash_priority).
  done.
Qed.

Definition encode_records (l : list TraceRecord) : list Z := concat (encode <$> l).

Lemma encode_records_app l1 l2 : encode_records (l1 ++ l2) = encode_records l1 ++ encode_records l2.
Proof. unfold encode_records. by rewrite fmap_app, concat_app. Qed.

Lemma encode_record_nonempty r : encode (A := TraceRecord) r <> [].
Proof. done. Qed.

(** A trace record can be read back from the bytes the trace hash consumes,
    whatever follows it: the encoding is unambiguous. *)
Theorem trace_record_roundtrip (r : TraceRecord) rest :
  encodable r -> decode (encode r ++ rest) = Some (r, rest).
Proof. apply decode_encode. Qed.

(** The state of an enabled log after appending records one by one. *)
Definition log_of (records : list TraceRecord) : TraceLog :=
  fold_left (fun log r => trace_append r log) records (new_trace_log TraceMode_Enabled).

(** The running hash always summarises exactly the retained records. *)
Definition log_ok (log : TraceLog) : Prop :=
  trace_enabled log = true -> hash_ log = fnv fnv_offset_basis (encode_records (records_ log)).

Lemma new_trace_log_ok mode : log_ok (new_trace_log mode).
Proof. done. Qed.

Lemma trace_append_enabled r log : trace_enabled (trace_append r log) = trace_enabled log.
Proof. unfold trace_append. destruct (trace_enabled log) eqn:He; cbn [negb]; done. Qed.

Lemma trace_append_ok r log : log_ok log -> log_ok (trace_append r log).
Proof.
  unfold log_ok, trace_append. destruct (trace_enabled log) eqn:He; cbn [negb]; [| by rewrite He].
  intros Hlog _. cbn [hash_ records_]. rewrite Hlog by done.
  rewrite encode_records_app, fnv_app, hash_record_fnv. f_equal.
  unfold encode_records. cbn [fmap list_fmap concat]. by rewrite app_nil_r.
Qed.

Lemma log_of_records_ok records :
  log_ok (log_of records) /\ records_ (log_of records) = records /\
  trace_enabled (log_of records) = true.
Proof.
  unfold log_of. induction records as [| r l IH] using rev_ind; [done |].
  rewrite fold_left_app. simpl. destruct IH as (H1 & H2 & H3).
  set (log := fold_left _ l _) in *. split; [by apply trace_append_ok |].
  unfold trace_append. rewrite H3. cbn. rewrite H2. done.
Qed.

Lemma encode_records_inj l1 l2 :
  Forall encodable l1 -> Forall encodable l2 -> encode_records l1 = encode_records l2 -> l1 = l2.
Proof.
  intros H1. revert l2. induction H1 as [| r l1 Hr H1 IH]; intros l2 H2 He.
  - by destruct l2 as [| r2 l2].
  - destruct H2 as [| r2 l2 Hr2 H2]; [done |].
    pose proof (decode_encode r (encode_records l1) Hr) as D1.
    pose proof (decode_encode r2 (encode_records l2) Hr2) as D2.
    assert (Some (r, encode_records l1) = Some (r2, encode_records l2)) as E.
    { rewrite <- D1, <- D2. f_equal. exact He. }
    assert (r = r2) as <- by congruence. f_equal. apply IH; [done | congruence].
Qed.

(** The trace hash is FNV-1a over an injective encoding of the whole trace:
    logs with the same records have the same hash, and logs with different
    records feed different byte strings to it. *)
Theorem trace_hash_faithful l1 l2 :
  Forall encodable l1 -> Forall encodable l2 ->
  trace_hash (log_of l1) = Some (fnv fnv_offset_basis (encode_records l1)) /\
  records_ (log_of l1) = l1 /\
  (encode_records l1 = encode_records l2 <-> l1 = l2).
Proof.
  intros H1 H2. destruct (log_of_records_ok l1) as (Hok & Hr & He). split; [| split].
  - unfold trace_hash. rewrite He. f_equal. rewrite (Hok He). by rewrite Hr.
  - done.
  - split; [by apply encode_records_inj | by intros ->].
Qed.

