(* ===== verification/Simulation.v ===== *)
(** * The simulation kernel

    Models [sim/simulation.{hpp,cpp}]: scheduling, cancellation, stopping, the
    selection of the next event, and the terminal bookkeeping.  [Kernel] is the
    [Simulation] object with the telemetry session its sink writes to; every
    member function is a computation on it.  The event loop [Simulation::run]
    is in [SimulationRun]. *)

From S2P Require Import Prelude SimTime Rng Entities TelemetryRecords EventQueue Trace.

Inductive SimulationStatus : Type :=
  SimulationStatus_Completed | SimulationStatus_Stopped | SimulationStatus_Failed.

Definition SimulationStatus_value (s : SimulationStatus) : Z :=
  match s with
  | SimulationStatus_Completed => 0
  | SimulationStatus_Stopped => 1
  | SimulationStatus_Failed => 2
  end.

Record SimulationResult : Type := mkSimulationResult {
  res_status : SimulationStatus;
  res_stop_reason : option StopReason;
  res_final_time : SimTimeNs;
  res_dispatched_events : Z;
  res_cancelled_events : Z;
  res_pending_events : Z;
  res_rng_draw_count : Z;
  res_trace_hash : option Z;
  res_error : option string;
}.

Inductive Lifecycle : Type := Created | Running | Finished.

#[global] Instance Lifecycle_eq_dec : EqDecision Lifecycle.
Proof. solve_decision. Defined.

#[global] Instance SimulationStatus_eq_dec : EqDecision SimulationStatus.
Proof. solve_decision. Defined.

Record EventTraceMetadata : Type := mkEventTraceMetadata {
  md_timestamp : SimTimeNs;
  md_priority : EventPriority;
  md_id : EventId;
  md_cause : option EventId;
  md_payload_kind : EventPayloadKind;
}.

Record Simulation : Type := mkSimulation {
  now_ : SimTimeNs;
  event_ids_ : IdGenerator;
  event_queue_ : EventQueue;
  rng_ : DeterministicRng;
  trace_ : TraceLog;
  telemetry_ : TelemetrySink;
  pending_ids_ : gset Z;
  cancelled_ids_ : gset Z;
  trace_metadata_ : gmap Z EventTraceMetadata;
  current_event_ : option Event;
  stop_reason_ : option StopReason;
  lifecycle_ : Lifecycle;
  dispatched_events_ : Z;
  cancelled_events_ : Z;
  telemetry_failed_ : bool;
}.

Record Kernel (T : Type) : Type := mkKernel { k_sim : Simulation; k_session : T }.
Arguments mkKernel {T} _ _.
Arguments k_sim {T} _.
Arguments k_session {T} _.

(** The constructor [Simulation(seed, trace_mode, telemetry)]. *)
Definition new_simulation (seed : Z) (trace_mode : TraceMode) (telemetry : TelemetrySink)
    : Simulation :=
  mkSimulation 0 (generator 0) empty_queue (DeterministicRng_seed seed) (new_trace_log trace_mode)
    telemetry ∅ ∅ ∅ None None Created 0 0 false.

Definition event_trace_metadata (event : Event) : EventTraceMetadata :=
  mkEventTraceMetadata (ev_timestamp event) (ev_priority event) (ev_id event) (ev_cause event)
    (payload_kind (ev_payload event)).

Section Kernel.
Context {T : Type} `{TelemetrySession T}.

Definition set_sim (s : Simulation) (k : Kernel T) : Kernel T := mkKernel s (k_session k).

Definition set_session (t : T) (k : Kernel T) : Kernel T := mkKernel (k_sim k) t.

Definition modify_sim (f : Simulation -> Simulation) : M (Kernel T) unit :=
  modify (fun k => set_sim (f (k_sim k)) k).

(** [telemetry_.enabled()]. *)
Definition telemetry_enabled (k : Kernel T) : bool :=
  sink_enabled (telemetry_ (k_sim k)) (k_session k).

(** [telemetry_.record(now_, correlation, observation)]. *)
Definition telemetry_record (corr : Correlation) (obs : TelemetryObservation)
    : M (Kernel T) unit :=
  fun k => zoom k_session set_session
             (sink_record (telemetry_ (k_sim k)) (now_ (k_sim k)) corr obs) k.

(** [trace_.enabled() || telemetry_.enabled()]. *)
Definition tracked (k : Kernel T) : bool :=
  trace_enabled (trace_ (k_sim k)) || telemetry_enabled k.

Definition record_event (action : TraceAction) (recorded_at : SimTimeNs)
    (metadata : EventTraceMetadata) (stop_reason : option StopReason) : M (Kernel T) unit :=
  modify_sim (fun s => {| s with trace_ := trace_append
    (mkTraceRecord action recorded_at (Some (md_id metadata)) (md_cause metadata)
       (Some (md_timestamp metadata)) (Some (md_priority metadata))
       (Some (md_payload_kind metadata)) stop_reason None) (trace_ s) |}).

Definition record_terminal (action : TraceAction) (error : option string) : M (Kernel T) unit :=
  let! s := gets k_sim in
  if negb (trace_enabled (trace_ s)) then ret tt else
  let metadata := event_trace_metadata <$> current_event_ s in
  modify_sim (fun s => {| s with trace_ := trace_append
    (mkTraceRecord action (now_ s) (md_id <$> metadata) (metadata ≫= md_cause)
       (md_timestamp <$> metadata) (md_priority <$> metadata) (md_payload_kind <$> metadata)
       None error) (trace_ s) |}).

(** [pending_ids_.size() - cancelled_ids_.size()], in [size_t] arithmetic. *)
Definition pending_count (s : Simulation) : Z :=
  u64_wrap (zsize (pending_ids_ s) - zsize (cancelled_ids_ s)).

(** A recording failure is remembered before the exception goes on. *)
Definition guard_telemetry (m : M (Kernel T) unit) : M (Kernel T) unit :=
  try_catch m (fun e =>
    do! modify_sim (fun s => {| s with telemetry_failed_ := true |}) in throw e).

Definition emit_simulation_observation (transition : SimulationTransition)
    (event cause : option EventId) : M (Kernel T) unit :=
  let! k := gets id in
  if negb (telemetry_enabled k) then ret tt else
  let correlation := {| no_correlation with corr_event := event; corr_cause := cause |} in
  guard_telemetry
    (telemetry_record correlation (SimulationObservation transition (pending_count (k_sim k)))).

Definition emit_metric (observation : TelemetryObservation) : M (Kernel T) unit :=
  let! k := gets id in
  if negb (telemetry_enabled k) then ret tt else
  let correlation := {| no_correlation with
    corr_event := ev_id <$> current_event_ (k_sim k);
    corr_cause := current_event_ (k_sim k) ≫= ev_cause |} in
  guard_telemetry (telemetry_record correlation observation).

Definition emit_terminal_telemetry (status : SimulationStatus) : M (Kernel T) unit :=
  let! k := gets id in
  if negb (telemetry_enabled k) || telemetry_failed_ (k_sim k) then ret tt else
  let transition :=
    match status with
    | SimulationStatus_Completed => SimulationTransition_RunSucceeded
    | SimulationStatus_Stopped => SimulationTransition_RunStopped
    | SimulationStatus_Failed => SimulationTransition_RunFailed
    end in
  do! emit_simulation_observation transition (ev_id <$> current_event_ (k_sim k))
        (current_event_ (k_sim k) ≫= ev_cause) in
  do! emit_metric (GaugeObservation SimulationFinalTimeNs [] (now_ (k_sim k))) in
  do! emit_metric (CounterObservation SimulationRngDraws [] (draw_count_ (rng_ (k_sim k)))) in
  let! labels := of_outcome
    (make_labels [mkMetricLabelValue MetricLabel_Outcome (SimulationStatus_value status)]) in
  emit_metric (CounterObservation SimulationTerminalTotal labels 1).

(** ** Scheduling *)

Definition next_event_id : M (Kernel T) EventId :=
  zoom (fun k => event_ids_ (k_sim k))
    (fun g k => set_sim (let s := k_sim k in {| s with event_ids_ := g |}) k)
    EventIdGenerator.next.

(** The body of the [try] block of [schedule]: remember the metadata when it
    is needed, then queue the event. *)
Definition enqueue (event : Event) : M (Kernel T) unit :=
  let! k := gets id in
  do! when (tracked k)
    (do! throw_if (has_value (trace_metadata_ (k_sim k) !! ev_id event))
           (logic_error "duplicate event trace metadata") in
     modify_sim (fun s => {| s with trace_metadata_ :=
       <[ev_id event := event_trace_metadata event]> (trace_metadata_ s) |})) in
  modify_sim (fun s => {| s with event_queue_ := push event (event_queue_ s) |}).

Definition schedule (specification : EventSpec) : M (Kernel T) EventId :=
  let! s := gets k_sim in
  do! throw_if (bool_decide (lifecycle_ s = Finished))
        (logic_error "cannot schedule on a finished simulation") in
  do! throw_if (spec_timestamp specification <? now_ s)
        (invalid_argument "cannot schedule an event in the simulated past") in
  let! id := next_event_id in
  let cause := ev_id <$> current_event_ s in
  let event := mkEvent (spec_timestamp specification) (spec_priority specification) id cause
                 (spec_payload specification) in
  do! throw_if (bool_decide (id ∈ pending_ids_ s))
        (logic_error "duplicate pending event ID") in
  do! modify_sim (fun s => {| s with pending_ids_ := {[id]} ∪ pending_ids_ s |}) in
  do! try_catch (enqueue event) (fun e =>
        do! modify_sim (fun s => {| s with
              pending_ids_ := pending_ids_ s ∖ {[id]};
              trace_metadata_ := delete id (trace_metadata_ s) |}) in
        throw e) in
  let! k := gets (fun k => k) in
  do! when (tracked k)
        (record_event TraceAction_Scheduled (now_ (k_sim k)) (event_trace_metadata event) None) in
  do! emit_simulation_observation SimulationTransition_EventScheduled (Some id) cause in
  ret id.

(** ** Cancellation: lazy invalidation of a pending identifier *)

Definition cancel (id : EventId) : M (Kernel T) bool :=
  let! k := gets (fun k => k) in
  let s := k_sim k in
  if bool_decide (lifecycle_ s = Finished) then ret false else
  if negb (bool_decide (id ∈ pending_ids_ s)) then ret false else
  let! metadata :=
    (if tracked k
     then let! m := of_option (logic_error "missing event trace metadata")
                      (trace_metadata_ s !! id) in ret (Some m)
     else ret None) in
  if bool_decide (id ∈ cancelled_ids_ s) then ret false else
  do! modify_sim (fun s => {| s with
        cancelled_ids_ := {[id]} ∪ cancelled_ids_ s;
        cancelled_events_ := u64_wrap (cancelled_events_ s + 1) |}) in
  do! emit_simulation_observation SimulationTransition_EventCancelled (Some id)
        (metadata ≫= md_cause) in
  do! emit_metric (CounterObservation SimulationCancelledEvents [] 1) in
  do! match metadata with
      | Some m => record_event TraceAction_Cancelled (now_ s) m None
      | None => ret tt
      end in
  ret true.

Definition stop (reason : StopReason) : M (Kernel T) unit :=
  let! s := gets k_sim in
  do! throw_if (negb (bool_decide (lifecycle_ s = Running)))
        (logic_error "simulation can only be stopped while running") in
  match current_event_ s with
  | None => throw (logic_error "simulation can only be stopped during event dispatch")
  | Some current =>
      match stop_reason_ s with
      | Some _ => ret tt
      | None =>
          do! when (trace_enabled (trace_ s))
                (record_event TraceAction_StopRequested (now_ s) (event_trace_metadata current)
                   (Some reason)) in
          do! modify_sim (fun s => {| s with stop_reason_ := Some reason |}) in
          emit_simulation_observation SimulationTransition_StopRequested
            (Some (ev_id current)) (ev_cause current)
      end
  end.

(** ** Accessors of [SimulationContext] *)

Definition now (k : Kernel T) : SimTimeNs := now_ (k_sim k).

Definition current_event_id (k : Kernel T) : outcome EventId :=
  match current_event_ (k_sim k) with
  | Some e => Ret (ev_id e)
  | None => Throw (logic_error "no event is currently being dispatched")
  end.

Definition current_cause (k : Kernel T) : outcome (option EventId) :=
  match current_event_ (k_sim k) with
  | Some e => Ret (ev_cause e)
  | None => Throw (logic_error "no event is currently being dispatched")
  end.

Definition random_u64 (k : Kernel T) : Kernel T * Z :=
  let '(value, rng) := next_u64 (rng_ (k_sim k)) in
  (set_sim (let s := k_sim k in {| s with rng_ := rng |}) k, value).

Definition random_below (fuel : nat) (upper_exclusive : Z) (k : Kernel T)
    : option (Kernel T * outcome Z) :=
  match uniform_below fuel upper_exclusive (rng_ (k_sim k)) with
  | Some (rng, r) => Some (set_sim (let s := k_sim k in {| s with rng_ := rng |}) k, r)
  | None => None
  end.

(** ** Selecting the next event and finishing the run *)

Definition begin_run : M (Kernel T) unit :=
  let! s := gets k_sim in
  do! throw_if (negb (bool_decide (lifecycle_ s = Created)))
        (logic_error "simulation can only be run once") in
  modify_sim (fun s => {| s with lifecycle_ := Running |}).

(** Pop until an event that was not cancelled appears.  Each turn removes one
    queued event, so the queue length bounds the turns. *)
Fixpoint next_dispatchable_loop (fuel : nat) (s : Simulation) : Simulation * option Event :=
  match fuel with
  | O => (s, None)
  | S n =>
      match pop (event_queue_ s) with
      | (None, q) => ({| s with event_queue_ := q |}, None)
      | (Some next, q) =>
          let s' := {| s with event_queue_ := q;
                              pending_ids_ := pending_ids_ s ∖ {[ev_id next]};
                              trace_metadata_ := delete (ev_id next) (trace_metadata_ s);
                              cancelled_ids_ := cancelled_ids_ s ∖ {[ev_id next]} |} in
          if bool_decide (ev_id next ∈ cancelled_ids_ s)
          then next_dispatchable_loop n s'
          else (s', Some next)
      end
  end.

Definition next_dispatchable_event : M (Kernel T) (option Event) := fun k =>
  let s := k_sim k in
  let '(s', r) := next_dispatchable_loop (S (length (events_ (event_queue_ s)))) s in
  (set_sim s' k, Ret r).

Definition finish (status : SimulationStatus) (error : option string)
    : M (Kernel T) SimulationResult :=
  do! emit_terminal_telemetry status in
  do! match status with
      | SimulationStatus_Completed => record_terminal TraceAction_Completed None
      | SimulationStatus_Failed => record_terminal TraceAction_Failed error
      | SimulationStatus_Stopped => ret tt
      end in
  do! modify_sim (fun s => {| s with lifecycle_ := Finished; current_event_ := None |}) in
  gets (fun k => let s := k_sim k in
    mkSimulationResult status (stop_reason_ s) (now_ s) (dispatched_events_ s)
      (cancelled_events_ s) (pending_count s) (draw_count_ (rng_ s)) (trace_hash (trace_ s)) error).

Definition fail (error : string) : M (Kernel T) SimulationResult :=
  try_catch (finish SimulationStatus_Failed (Some error)) (fun telemetry_error =>
    do! modify_sim (fun s => {| s with telemetry_failed_ := true |}) in
    finish SimulationStatus_Failed (Some (what telemetry_error))).

End Kernel.
