(* ===== verification/SimulationLaws.v ===== *)
(** * The kernel keeps its books

    The invariant of [Simulation], its abstract view as a finite map of live
    events, and the refinement of [schedule], [cancel] and
    [next_dispatchable_event] to map insertion, deletion and extraction of the
    minimum.  Everything holds on return and on every throw. *)

From S2P Require Import Prelude SimTime Rng Entities TelemetryRecords EventQueue Trace Simulation.

(** ** The abstract view *)

(** The events that are queued and not cancelled, by identifier. *)
Definition live_list (s : Simulation) : list Event :=
  filter (fun e => ev_id e ∉ cancelled_ids_ s) (events_ (event_queue_ s)).

Definition live (s : Simulation) : gmap Z Event :=
  list_to_map ((fun e => (ev_id e, e)) <$> live_list s).

Section Laws.
Context {T : Type} `{TelemetrySessionLaws T}.
Implicit Types (k : Kernel T).

(** ** The invariant *)

(** The numbers of dispatched and cancelled events, before the counters wrap. *)
Definition accounted (s : Simulation) (dispatched cancelled : Z) : Prop :=
  0 <= dispatched /\ 0 <= cancelled /\
  dispatched_events_ s = u64_wrap dispatched /\ cancelled_events_ s = u64_wrap cancelled /\
  dispatched + cancelled + Z.of_nat (size (live s)) = frontier (event_ids_ s).

Record queue_ok (s : Simulation) : Prop := {
  ok_ids : generator_ok (event_ids_ s);
  ok_now : u64 (now_ s);
  ok_nodup : NoDup (ev_id <$> events_ (event_queue_ s));
  ok_pending id : id ∈ pending_ids_ s <-> exists e, e ∈ events_ (event_queue_ s) /\ ev_id e = id;
  ok_cancelled : cancelled_ids_ s ⊆ pending_ids_ s;
  ok_queued e : e ∈ events_ (event_queue_ s) ->
    now_ s <= ev_timestamp e /\ u64 (ev_timestamp e) /\ 0 <= ev_id e < frontier (event_ids_ s);
  ok_log : log_ok (trace_ s);
}.

(** Metadata is kept for exactly the queued events when anything needs it. *)
Record metadata_ok (k : Kernel T) : Prop := {
  ok_metadata e : tracked k = true -> e ∈ events_ (event_queue_ (k_sim k)) ->
    trace_metadata_ (k_sim k) !! ev_id e = Some (event_trace_metadata e);
  ok_metadata_dom id : is_Some (trace_metadata_ (k_sim k) !! id) -> id ∈ pending_ids_ (k_sim k);
}.

(** The event being dispatched has left the queue and sets the clock. *)
Definition current_ok (s : Simulation) : Prop :=
  forall e, current_event_ s = Some e ->
    0 <= ev_id e < frontier (event_ids_ s) /\ (ev_id e ∉ pending_ids_ s) /\
    ev_timestamp e = now_ s.

Record kernel_ok (k : Kernel T) : Prop := {
  ok_queue : queue_ok (k_sim k);
  ok_md : metadata_ok k;
  ok_current : current_ok (k_sim k);
  ok_counts : exists dispatched cancelled, accounted (k_sim k) dispatched cancelled;
}.

(** ** Facts about the abstract view *)

Lemma live_lookup s id e :
  NoDup (ev_id <$> events_ (event_queue_ s)) ->
  live s !! id = Some e <->
  e ∈ events_ (event_queue_ s) /\ ev_id e = id /\ id ∉ cancelled_ids_ s.
Proof.
  intros Hnd. unfold live.
  assert (NoDup ((fun e => (ev_id e, e)) <$> live_list s).*1) as Hnd'.
  { rewrite <- list_fmap_compose. unfold compose. simpl.
    apply (sublist_NoDup _ _ Hnd). apply fmap_sublist, sublist_filter. }
  rewrite <- elem_of_list_to_map by done. unfold live_list.
  rewrite list_elem_of_fmap. split.
  - intros (x & [= -> ->] & Hx). apply list_elem_of_filter in Hx. tauto.
  - intros (Hin & <- & Hc). exists e. split; [done |]. by apply list_elem_of_filter.
Qed.

Lemma live_None s id :
  queue_ok s -> live s !! id = None <-> id ∉ pending_ids_ s \/ id ∈ cancelled_ids_ s.
Proof.
  intros Hok. rewrite eq_None_not_Some. split.
  - intros Hn. destruct (decide (id ∈ cancelled_ids_ s)); [by right | left]. intros Hp.
    apply (ok_pending _ Hok) in Hp as (e & He & <-). apply Hn. exists e.
    by apply (live_lookup _ _ _ (ok_nodup _ Hok)).
  - intros Hor [e Hl]. apply (live_lookup _ _ _ (ok_nodup _ Hok)) in Hl as (He & <- & Hc).
    destruct Hor as [Hp | Hp]; [| done]. apply Hp. apply (ok_pending _ Hok). eauto.
Qed.

Lemma dom_live s : queue_ok s -> dom (live s) = pending_ids_ s ∖ cancelled_ids_ s.
Proof.
  intros Hok. apply set_eq. intros id. rewrite elem_of_dom, elem_of_difference.
  rewrite <- not_eq_None_Some, live_None by done.
  destruct (decide (id ∈ pending_ids_ s)), (decide (id ∈ cancelled_ids_ s)); tauto.
Qed.

Lemma live_size s :
  queue_ok s ->
  Z.of_nat (size (live s)) = zsize (pending_ids_ s) - zsize (cancelled_ids_ s).
Proof.
  intros Hok. unfold zsize. rewrite <- size_dom, dom_live by done.
  pose proof (ok_cancelled _ Hok) as Hsub.
  rewrite size_difference by done. pose proof (subseteq_size _ _ Hsub). lia.
Qed.

(** ** Bookkeeping that the abstract view does not see

    Recording to the trace or to telemetry changes the log, the session and the
    failure flag only. *)

Definition quiet (k k' : Kernel T) : Prop :=
  exists tr b t,
    k' = mkKernel (let s := k_sim k in {| s with trace_ := tr; telemetry_failed_ := b |}) t /\
    session_enabled t = session_enabled (k_session k) /\
    trace_enabled tr = trace_enabled (trace_ (k_sim k)) /\
    (log_ok (trace_ (k_sim k)) -> log_ok tr).

Definition quiet_op {A} (m : M (Kernel T) A) : Prop :=
  forall k, wp m (fun k' _ => quiet k k') (fun k' _ => quiet k k') k.

#[global] Instance quiet_refl : Reflexive quiet.
Proof. intros [[] t]. do 3 eexists. split_and!; try reflexivity. done. Qed.

#[global] Instance quiet_trans : Transitive quiet.
Proof.
  intros k1 k2 k3 (tr1 & b1 & t1 & -> & He1 & Ht1 & Hl1) (tr2 & b2 & t2 & -> & He2 & Ht2 & Hl2).
  cbn [k_sim k_session trace_] in *. exists tr2, b2, t2. split_and!; [done | congruence | congruence | tauto].
Qed.

Lemma quiet_tracked k k' : quiet k k' -> tracked k' = tracked k.
Proof.
  intros (tr & b & t & -> & He & Ht & _). unfold tracked, telemetry_enabled, sink_enabled.
  cbn. by rewrite He, Ht.
Qed.

Lemma quiet_kernel_ok k k' : quiet k k' -> kernel_ok k -> kernel_ok k'.
Proof.
  intros Hq [Hqueue Hmd Hcur (d & c & Hacc)]. pose proof (quiet_tracked _ _ Hq) as Htr.
  destruct Hq as (tr & b & t & -> & He & Ht & Hl). split.
  - destruct Hqueue. by split; cbn; auto.
  - destruct Hmd as [H1 H2]. split; cbn; [| done]. intros e Hk. apply H1. by rewrite <- Htr.
  - exact Hcur.
  - exists d, c. exact Hacc.
Qed.

Lemma quiet_op_bind {A B} (m : M (Kernel T) A) (f : A -> M (Kernel T) B) :
  quiet_op m -> (forall a, quiet_op (f a)) -> quiet_op (bind m f).
Proof.
  intros Hm Hf k. apply wp_bind. eapply wp_conseq; [apply Hm | | done]. simpl.
  intros k1 a H1. eapply wp_conseq; [apply Hf | |]; simpl; intros; by etrans.
Qed.

Lemma quiet_op_ret {A} (a : A) : quiet_op (ret a).
Proof. intros k. apply wp_ret. done. Qed.

Lemma quiet_op_gets {A} (f : Kernel T -> A) : quiet_op (gets f).
Proof. intros k. apply wp_gets. done. Qed.

Lemma quiet_op_append r :
  quiet_op (modify_sim (T := T) (fun s => {| s with trace_ := trace_append (r s) (trace_ s) |})).
Proof.
  intros k. apply wp_modify.
  exists (trace_append (r (k_sim k)) (trace_ (k_sim k))), (telemetry_failed_ (k_sim k)), (k_session k).
  split_and!; [reflexivity | done | apply trace_append_enabled | apply trace_append_ok].
Qed.

Lemma quiet_op_record_event action at_ md reason : quiet_op (record_event (T := T) action at_ md reason).
Proof. apply (quiet_op_append (fun _ => _)). Qed.

Lemma quiet_op_guard corr obs : quiet_op (guard_telemetry (T := T) (telemetry_record corr obs)).
Proof.
  intros k. unfold guard_telemetry. apply wp_try_catch. unfold wp, telemetry_record, zoom, sink_record.
  destruct (sink_enabled _ _) eqn:He.
  2: { by destruct k. }
  pose proof (session_record_enabled (now_ (k_sim k)) corr obs (k_session k)) as Hen.
  destruct (session_record _ _ _ _) as [t [[] | e]] eqn:Hr; simpl fst in Hen.
  - exists (trace_ (k_sim k)), (telemetry_failed_ (k_sim k)), t. split_and!; [| done..].
    by destruct k as [[] t0].
  - exists (trace_ (k_sim k)), true, t. by split_and!.
Qed.

Lemma quiet_op_if {A} (b : bool) (m1 m2 : M (Kernel T) A) :
  quiet_op m1 -> quiet_op m2 -> quiet_op (if b then m1 else m2).
Proof. by destruct b. Qed.

Lemma quiet_op_of_outcome {A} (o : outcome A) : quiet_op (of_outcome o).
Proof. intros k. by apply wp_of_outcome. Qed.

Lemma quiet_op_emit tr e c : quiet_op (emit_simulation_observation (T := T) tr e c).
Proof.
  apply quiet_op_bind; [apply quiet_op_gets |]. intros k.
  apply quiet_op_if; [apply quiet_op_ret | apply quiet_op_guard].
Qed.

Lemma quiet_op_emit_metric obs : quiet_op (emit_metric (T := T) obs).
Proof.
  apply quiet_op_bind; [apply quiet_op_gets |]. intros k.
  apply quiet_op_if; [apply quiet_op_ret | apply quiet_op_guard].
Qed.

Lemma quiet_op_emit_terminal st : quiet_op (emit_terminal_telemetry (T := T) st).
Proof.
  apply quiet_op_bind; [apply quiet_op_gets |]. intros k.
  apply quiet_op_if; [apply quiet_op_ret |].
  cbv zeta. apply quiet_op_bind; [apply quiet_op_emit | intros []].
  do 2 (apply quiet_op_bind; [apply quiet_op_emit_metric | intros []]).
  apply quiet_op_bind; [apply quiet_op_of_outcome | intros labels]. apply quiet_op_emit_metric.
Qed.

Lemma quiet_op_record_terminal action error : quiet_op (record_terminal (T := T) action error).
Proof.
  apply quiet_op_bind; [apply quiet_op_gets |]. intros s.
  apply quiet_op_if; [apply quiet_op_ret |]. apply (quiet_op_append (fun s0 => _)).
Qed.

#[local] Hint Resolve quiet_op_emit quiet_op_emit_metric quiet_op_emit_terminal
  quiet_op_record_event quiet_op_record_terminal quiet_op_bind quiet_op_ret : nexus.

(** ** What an operation called by a handler leaves alone *)

Definition frame (k k' : Kernel T) : Prop :=
  now_ (k_sim k') = now_ (k_sim k) /\ current_event_ (k_sim k') = current_event_ (k_sim k) /\
  lifecycle_ (k_sim k') = lifecycle_ (k_sim k) /\
  dispatched_events_ (k_sim k') = dispatched_events_ (k_sim k).

#[global] Instance frame_refl : Reflexive frame.
Proof. intros k. done. Qed.

#[global] Instance frame_trans : Transitive frame.
Proof.
  intros k1 k2 k3 (H1 & H2 & H3 & H4) (H5 & H6 & H7 & H8). unfold frame. split_and!; congruence.
Qed.

Lemma quiet_frame k k' : quiet k k' -> frame k k'.
Proof. intros (tr & b & t & -> & _). done. Qed.

Lemma quiet_live k k' : quiet k k' -> live (k_sim k') = live (k_sim k).
Proof. intros (tr & b & t & -> & _). done. Qed.

Lemma quiet_ids k k' : quiet k k' -> event_ids_ (k_sim k') = event_ids_ (k_sim k).
Proof. intros (tr & b & t & -> & _). done. Qed.

(** ** Scheduling inserts *)

(** The event [schedule] builds. *)
Definition event_of (s : Simulation) (spec : EventSpec) : Event :=
  mkEvent (spec_timestamp spec) (spec_priority spec) (frontier (event_ids_ s))
    (ev_id <$> current_event_ s) (spec_payload spec).

(** The kernel with one more queued event. *)
Definition pushed (k : Kernel T) (g : IdGenerator) (ev : Event) : Kernel T :=
  set_sim (let s := k_sim k in {| s with
    event_ids_ := g;
    pending_ids_ := {[ev_id ev]} ∪ pending_ids_ s;
    trace_metadata_ := if tracked k then <[ev_id ev := event_trace_metadata ev]> (trace_metadata_ s)
                       else trace_metadata_ s;
    event_queue_ := push ev (event_queue_ s) |}) k.

Section Pushed.
Context (k : Kernel T) (g : IdGenerator) (ev : Event).
Context (Hok : kernel_ok k) (Hg : generator_ok g) (Hid : ev_id ev = frontier (event_ids_ (k_sim k)))
  (Hfr : frontier g = ev_id ev + 1) (Hnow : now_ (k_sim k) <= ev_timestamp ev)
  (Hts : u64 (ev_timestamp ev)) (Hnn : 0 <= ev_id ev).

Lemma fresh_not_queued e : e ∈ events_ (event_queue_ (k_sim k)) -> ev_id e <> ev_id ev.
Proof.
  intros He Heq. destruct (ok_queued _ (ok_queue _ Hok) e He) as (_ & _ & Hlt). lia.
Qed.

Lemma fresh_not_pending : ev_id ev ∉ pending_ids_ (k_sim k).
Proof.
  intros Hp. apply (ok_pending _ (ok_queue _ Hok)) in Hp as (e & He & Heq).
  by apply (fresh_not_queued e He).
Qed.

Lemma pushed_queue_ok : queue_ok (k_sim (pushed k g ev)).
Proof.
  destruct (ok_queue _ Hok) as [Hgen Hu Hnd Hp Hc Hq Hl]. split; cbn; try done.
  - constructor; [| done]. intros Hin. apply list_elem_of_fmap in Hin as (e & Heq & He).
    by apply (fresh_not_queued e He).
  - intros id. rewrite elem_of_union, elem_of_singleton, Hp. split.
    + intros [-> | (e & He & <-)]; [exists ev; split; [by left | done] |].
      exists e. split; [by right | done].
    + intros (e & He & <-). apply elem_of_cons in He as [-> | He]; [by left | right; eauto].
  - intros id Hin. by apply elem_of_union_r, Hc.
  - intros e He. apply elem_of_cons in He as [-> | He]; [split_and!; try done; word_lia |].
    destruct (Hq e He) as (H1 & H2 & H3). split_and!; try done; lia.
Qed.

Lemma pushed_live : live (k_sim (pushed k g ev)) = <[ev_id ev := ev]> (live (k_sim k)).
Proof.
  pose proof pushed_queue_ok as Hq'. pose proof (ok_queue _ Hok) as Hq.
  apply map_eq. intros id. apply option_eq. intros e.
  rewrite (live_lookup _ _ _ (ok_nodup _ Hq')). cbn.
  pose proof fresh_not_pending as Hfp. pose proof (ok_cancelled _ Hq) as Hsub.
  destruct (decide (id = ev_id ev)) as [-> | Hne].
  - rewrite lookup_insert, decide_True by done. split.
    + intros (He & Heq & _). apply elem_of_cons in He as [-> | He]; [done |].
      by destruct (fresh_not_queued e He).
    + intros [= <-]. split_and!; [by left | done | set_solver].
  - rewrite lookup_insert_ne by done. rewrite (live_lookup _ _ _ (ok_nodup _ Hq)).
    rewrite elem_of_cons. split; [| tauto]. intros ([-> | He] & Heq & Hc); [congruence | tauto].
Qed.

Lemma pushed_live_None : live (k_sim k) !! ev_id ev = None.
Proof. apply live_None; [exact (ok_queue _ Hok) | left; exact fresh_not_pending]. Qed.

Lemma pushed_ok : kernel_ok (pushed k g ev).
Proof.
  split.
  - exact pushed_queue_ok.
  - destruct (ok_md _ Hok) as [H1 H2]. split; unfold pushed, tracked, telemetry_enabled in *; cbn in *.
    + intros e Htr He. rewrite Htr. apply elem_of_cons in He as [-> | He].
      * by rewrite lookup_insert, decide_True.
      * rewrite lookup_insert_ne; [by apply H1 |]. intros Heq. by apply (fresh_not_queued e He).
    + intros id [md Hmd]. destruct (_ || _); [| apply elem_of_union_r, H2; eauto].
      apply lookup_insert_Some in Hmd as [[<- _] | [_ Hmd]]; [set_solver |].
      apply elem_of_union_r, H2. eauto.
  - intros e He. destruct (ok_current _ Hok e He) as (H1 & H2 & H3). cbn.
    split; [lia | split; [| done]].
    rewrite elem_of_union, elem_of_singleton. intros [Heq | ?]; [lia | done].
  - destruct (ok_counts _ Hok) as (d & c & H1 & H2 & H3 & H4 & H5). exists d, c.
    split_and!; try done. rewrite pushed_live.
    rewrite map_size_insert_None by exact pushed_live_None. cbn. lia.
Qed.
End Pushed.

(** The effect of a [schedule] that queued its event. *)
Definition scheduled (k : Kernel T) (spec : EventSpec) (k' : Kernel T) : Prop :=
  let ev := event_of (k_sim k) spec in
  kernel_ok k' /\ frame k k' /\ stop_reason_ (k_sim k') = stop_reason_ (k_sim k) /\
  live (k_sim k) !! ev_id ev = None /\
  live (k_sim k') = <[ev_id ev := ev]> (live (k_sim k)) /\
  frontier (event_ids_ (k_sim k')) = ev_id ev + 1.

Lemma quiet_scheduled k spec k1 k2 : scheduled k spec k1 -> quiet k1 k2 -> scheduled k spec k2.
Proof.
  intros (H1 & H2 & H3 & H4 & H5 & H6) Hq. unfold scheduled.
  rewrite (quiet_live _ _ Hq), (quiet_ids _ _ Hq).
  split; [by eapply quiet_kernel_ok | split; [by etrans; [| apply quiet_frame] |]].
  destruct Hq as (tr & b & t & -> & _). done.
Qed.

(** A computation that only records, after a state the goal already accepts. *)
Lemma wp_quiet {A} (m : M (Kernel T) A) (P : Kernel T -> Prop) k :
  quiet_op m -> P k -> (forall k1 k2, P k1 -> quiet k1 k2 -> P k2) ->
  wp m (fun k' _ => P k') (fun k' _ => P k') k.
Proof. intros Hm HP Hq. eapply wp_conseq; [apply Hm | |]; simpl; eauto. Qed.

(** [enqueue] after the identifier was drawn ends in [pushed]: the metadata
    entry is always new, so the rollback of [schedule] is never taken. *)
Lemma enqueue_run k g ev :
  metadata_ok k -> ev_id ev ∉ pending_ids_ (k_sim k) ->
  enqueue ev (set_sim (let s := k_sim k in {| s with event_ids_ := g;
    pending_ids_ := {[ev_id ev]} ∪ pending_ids_ s |}) k) = (pushed k g ev, Ret tt).
Proof.
  intros [_ Hdom] Hfresh. unfold enqueue, bind, gets, id, when, throw_if.
  change (tracked (set_sim _ k)) with (tracked k). unfold pushed.
  destruct (tracked k) eqn:Htr; cbn [k_sim set_sim trace_metadata_].
  - unfold has_value. rewrite bool_decide_eq_false_2; [reflexivity |].
    intros Hs. by apply Hfresh, Hdom.
  - reflexivity.
Qed.

Lemma schedule_spec spec k :
  kernel_ok k -> u64 (spec_timestamp spec) ->
  wp (schedule spec)
    (fun k' id => id = frontier (event_ids_ (k_sim k)) /\ lifecycle_ (k_sim k) <> Finished /\
       now_ (k_sim k) <= spec_timestamp spec /\ scheduled k spec k')
    (fun k' _ => k' = k \/ scheduled k spec k') k.
Proof.
  intros Hok Hts. unfold schedule. do 2 wp_step; cbv beta. wp_step.
  apply wp_throw_if; intros Hf; [by left |]. wp_step.
  apply wp_throw_if; intros Hpast; [by left |]. apply Z.ltb_ge in Hpast.
  apply bool_decide_eq_false in Hf. wp_step.
  unfold next_event_id. apply wp_zoom. unfold wp at 1.
  destruct (EventIdGenerator.next (event_ids_ (k_sim k))) as [g r] eqn:Hn.
  pose proof (ok_ids _ (ok_queue _ Hok)) as Hgen.
  destruct (next_run _ event_ids_sequential _ _ _ Hgen Hn) as (Hg & Hmono & Hr).
  destruct r as [id | e].
  2: { left. unfold EventIdGenerator.next in Hn. destruct (exhausted_ _); [| by destruct (issue _)].
       injection Hn as <- _. by destruct k as [[] t]. }
  destruct (Hr id eq_refl) as (Hid & Hfr & Hu). clear Hr Hmono Hn.
  set (ev := event_of (k_sim k) spec).
  replace (mkEvent _ _ id _ _) with ev by (unfold ev, event_of; by rewrite Hid).
  assert (id = ev_id ev) as -> by done.
  assert (0 <= ev_id ev) as Hnn by (unfold u64 in Hu; lia).
  assert (ev_id ev ∉ pending_ids_ (k_sim k)) as Hfresh.
  { apply fresh_not_pending; try done. }
  rewrite bool_decide_eq_false_2 by done.
  do 2 wp_step; [done |]. cbv beta. wp_step. apply wp_modify. wp_step. wp_step.
  unfold wp at 1. cbn [k_sim set_sim].
  match goal with |- context [enqueue ev ?x] =>
    replace (enqueue ev x) with (pushed k g ev, Ret (A:=unit) tt) end.
  2: { symmetry. by apply (enqueue_run k g ev (ok_md _ Hok) Hfresh). }
  assert (scheduled k spec (pushed k g ev)) as Hsch.
  { split; [by apply pushed_ok | split; [done | split; [done |]]].
    split; [by apply pushed_live_None | split; [by apply pushed_live | done]]. }
  do 2 wp_step. cbv beta. wp_step.
  eapply wp_conseq; [apply (wp_quiet _ (scheduled k spec)) | | by right].
  - unfold when. apply quiet_op_if; auto with nexus.
  - exact Hsch.
  - apply quiet_scheduled.
  - simpl. intros k1 [] Hk1. wp_step.
    eapply wp_conseq; [apply (wp_quiet _ (scheduled k spec)) | | by right]; auto with nexus.
    + apply quiet_scheduled.
    + simpl. intros k2 _ H2. wp_step. done.
Qed.

(** ** Cancelling deletes *)

Definition marked (k : Kernel T) (id : EventId) : Kernel T :=
  set_sim (let s := k_sim k in {| s with
    cancelled_ids_ := {[id]} ∪ cancelled_ids_ s;
    cancelled_events_ := u64_wrap (cancelled_events_ s + 1) |}) k.

Definition cancelled (k : Kernel T) (id : EventId) (k' : Kernel T) : Prop :=
  kernel_ok k' /\ frame k k' /\ stop_reason_ (k_sim k') = stop_reason_ (k_sim k) /\
  event_ids_ (k_sim k') = event_ids_ (k_sim k) /\
  is_Some (live (k_sim k) !! id) /\ live (k_sim k') = delete id (live (k_sim k)).

Lemma quiet_cancelled k id k1 k2 : cancelled k id k1 -> quiet k1 k2 -> cancelled k id k2.
Proof.
  intros (H1 & H2 & H3 & H4 & H5 & H6) Hq. unfold cancelled.
  rewrite (quiet_live _ _ Hq), (quiet_ids _ _ Hq).
  split; [by eapply quiet_kernel_ok | split; [by etrans; [| apply quiet_frame] |]].
  destruct Hq as (tr & b & t & -> & _). done.
Qed.

Lemma marked_live k id :
  queue_ok (k_sim k) -> live (k_sim (marked k id)) = delete id (live (k_sim k)).
Proof.
  intros Hq. apply map_eq. intros i. apply option_eq. intros e.
  rewrite lookup_delete_Some, (live_lookup _ _ _ (ok_nodup _ Hq)).
  rewrite live_lookup by exact (ok_nodup _ Hq). cbn.
  rewrite elem_of_union, elem_of_singleton. split.
  - intros (He & <- & Hn). split; [| tauto]. intros ->. tauto.
  - intros (Hne & He & <- & Hc). split_and!; [done | done |]. intros [Heq | ?]; congruence.
Qed.

Lemma wrap_succ x y : x = u64_wrap y -> u64_wrap (x + 1) = u64_wrap (y + 1).
Proof.
  intros ->. unfold u64_wrap. rewrite Z.add_mod_idemp_l; [done | word_lia].
Qed.

Lemma marked_cancelled k id :
  kernel_ok k -> is_Some (live (k_sim k) !! id) -> cancelled k id (marked k id).
Proof.
  intros Hok Hl. pose proof (ok_queue _ Hok) as Hq. pose proof (marked_live k id Hq) as Hml.
  unfold cancelled. split; [| done].
  assert (id ∈ pending_ids_ (k_sim k)) as Hp.
  { rewrite <- not_eq_None_Some, live_None in Hl by done.
    destruct (decide (id ∈ pending_ids_ (k_sim k))); tauto. }
  split.
  - destruct Hq as [Hgen Hu Hnd Hpd Hc Hqd Hlog]. split; cbn; try done.
    intros i Hi. apply elem_of_union in Hi as [->%elem_of_singleton | Hi]; [done | by apply Hc].
  - by destruct (ok_md _ Hok).
  - exact (ok_current _ Hok).
  - destruct (ok_counts _ Hok) as (d & c & H1 & H2 & H3 & H4 & H5). exists d, (c + 1).
    split_and!; [done | lia | done | by apply wrap_succ |]. rewrite Hml.
    destruct Hl as [e Hl]. rewrite map_size_delete, Hl. cbn [marked k_sim set_sim event_ids_].
    pose proof (map_size_ne_0_lookup_2 (live (k_sim k)) id ltac:(eauto)). simpl. lia.
Qed.

Lemma cancel_spec id k :
  kernel_ok k ->
  wp (cancel id)
    (fun k' r => if r then cancelled k id k'
                 else k' = k /\ (lifecycle_ (k_sim k) = Finished \/ live (k_sim k) !! id = None))
    (fun k' _ => cancelled k id k') k.
Proof.
  intros Hok. pose proof (ok_queue _ Hok) as Hq. unfold cancel. do 2 wp_step. cbv beta zeta.
  wp_step; [wp_step; apply bool_decide_eq_true in Heqb; tauto |].
  wp_step; [wp_step; rewrite negb_true_iff, bool_decide_eq_false in Heqb0 |].
  { split; [done | right]. apply live_None; auto. }
  rewrite negb_false_iff, bool_decide_eq_true in Heqb0.
  destruct (ok_pending _ Hq id) as [Hpe _]. destruct (Hpe Heqb0) as (e & He & Hide). clear Hpe.
  wp_step. apply wp_conseq with (Q := fun k' (_ : option EventTraceMetadata) => k' = k)
    (E := fun _ _ => False); [| | done].
  { wp_step; [| by wp_step]. wp_step. apply wp_of_option; [intros; by wp_step |].
    intros Hmd. pose proof (ok_metadata _ (ok_md _ Hok) e Heqb1 He) as Hm.
    rewrite Hide in Hm. congruence. }
  intros k0 md ->. wp_step; [wp_step; apply bool_decide_eq_true in Heqb1 |].
  { split; [done | right]. apply live_None; auto. }
  apply bool_decide_eq_false in Heqb1.
  assert (cancelled k id (marked k id)) as Hc.
  { apply marked_cancelled; [done |]. exists e. by apply live_lookup; [apply Hq |]. }
  wp_step. apply wp_modify. wp_step.
  eapply wp_conseq; [apply (wp_quiet _ (cancelled k id)) | | done]; eauto using quiet_cancelled with nexus.
  intros k1 [] Hk1. wp_step.
  eapply wp_conseq; [apply (wp_quiet _ (cancelled k id)) | | done]; eauto using quiet_cancelled with nexus.
  intros k2 [] Hk2. wp_step.
  eapply wp_conseq; [apply (wp_quiet _ (cancelled k id)) | | done]; eauto using quiet_cancelled.
  destruct md; auto with nexus.
Qed.

(** ** Stopping and drawing random numbers leave the events alone *)

(** Same events and identifiers; [stop_reason_] may be set once. *)
Definition untouched (k k' : Kernel T) : Prop :=
  kernel_ok k' /\ frame k k' /\ live (k_sim k') = live (k_sim k) /\
  event_ids_ (k_sim k') = event_ids_ (k_sim k) /\
  (forall r, stop_reason_ (k_sim k) = Some r -> stop_reason_ (k_sim k') = Some r).

Lemma untouched_refl k : kernel_ok k -> untouched k k.
Proof. intros Hok. unfold untouched. split_and!; done. Qed.

Lemma quiet_untouched k k1 k2 : untouched k k1 -> quiet k1 k2 -> untouched k k2.
Proof.
  intros (H1 & H2 & H3 & H4 & H5) Hq. unfold untouched.
  rewrite (quiet_live _ _ Hq), (quiet_ids _ _ Hq).
  split; [by eapply quiet_kernel_ok | split; [by etrans; [| apply quiet_frame] |]].
  destruct Hq as (tr & b & t & -> & _). done.
Qed.

(** Updates of fields the invariant does not mention. *)
Lemma kernel_ok_ext k k' :
  kernel_ok k ->
  now_ (k_sim k') = now_ (k_sim k) -> event_ids_ (k_sim k') = event_ids_ (k_sim k) ->
  event_queue_ (k_sim k') = event_queue_ (k_sim k) -> trace_ (k_sim k') = trace_ (k_sim k) ->
  telemetry_ (k_sim k') = telemetry_ (k_sim k) -> k_session k' = k_session k ->
  pending_ids_ (k_sim k') = pending_ids_ (k_sim k) ->
  cancelled_ids_ (k_sim k') = cancelled_ids_ (k_sim k) ->
  trace_metadata_ (k_sim k') = trace_metadata_ (k_sim k) ->
  current_event_ (k_sim k') = current_event_ (k_sim k) \/ current_event_ (k_sim k') = None ->
  dispatched_events_ (k_sim k') = dispatched_events_ (k_sim k) ->
  cancelled_events_ (k_sim k') = cancelled_events_ (k_sim k) ->
  kernel_ok k' /\ live (k_sim k') = live (k_sim k).
Proof.
  intros [Hq Hmd Hcur Hcnt] E1 E2 E3 E4 E5 E6 E7 E8 E9 E10 E11 E12.
  assert (live (k_sim k') = live (k_sim k)) as Hl by (unfold live, live_list; by rewrite E3, E8).
  split; [| done]. split.
  - destruct Hq. split; rewrite ?E1, ?E2, ?E3, ?E4, ?E7, ?E8; try done. all: intros *; by rewrite ?E3, ?E7.
  - destruct Hmd as [H1 H2]. split; unfold tracked, telemetry_enabled in *;
      rewrite ?E4, ?E5, ?E6, ?E3, ?E9, ?E7; try done.
  - intros e He. rewrite E2, E7, E1. destruct E10 as [E10 | E10]; [apply Hcur |]; congruence.
  - destruct Hcnt as (d & c & H1 & H2 & H3 & H4 & H5). exists d, c. unfold accounted.
    rewrite Hl, E2, E11, E12. done.
Qed.

Lemma stop_spec reason k :
  kernel_ok k ->
  wp (stop reason) (fun k' _ => untouched k k' /\ is_Some (stop_reason_ (k_sim k')))
    (fun k' _ => untouched k k') k.
Proof.
  intros Hok. pose proof (untouched_refl k Hok) as Hu. unfold stop. do 2 wp_step. cbv beta.
  do 2 wp_step; [done |]. cbv beta. wp_step; [| by wp_step]. wp_step; [wp_step; eauto |].
  wp_step. eapply wp_conseq; [apply (wp_quiet _ (untouched k)) | | done];
    eauto using quiet_untouched.
  { unfold when. apply quiet_op_if; auto with nexus. }
  simpl. intros k1 [] Hk1. wp_step. apply wp_modify.
  match goal with |- wp _ _ _ ?k2 => set (K2 := k2) end.
  assert (untouched k K2 /\ is_Some (stop_reason_ (k_sim K2))) as HK2.
  { destruct Hk1 as (G1 & G2 & G3 & G4 & G5).
    destruct (kernel_ok_ext k1 K2 G1) as [G6 G7]; try done; [by left |].
    split; [| by eexists]. split_and!; try done. intros r Hr. congruence. }
  eapply wp_conseq; [apply (quiet_op_emit _ _ _ K2) | |]; simpl; intros k3 ? Hk3.
  - destruct HK2 as [HK2 Hs]. split; [by eapply quiet_untouched |].
    by destruct Hk3 as (tr & b & t & -> & _).
  - eapply quiet_untouched; [apply HK2 | done].
Qed.

(** ** Selection extracts the minimum *)

(** Popping touches these four fields only. *)
Definition popped (s : Simulation) (next : Event) (q : EventQueue) : Simulation :=
  {| s with event_queue_ := q;
            pending_ids_ := pending_ids_ s ∖ {[ev_id next]};
            trace_metadata_ := delete (ev_id next) (trace_metadata_ s);
            cancelled_ids_ := cancelled_ids_ s ∖ {[ev_id next]} |}.

(** The invariant without the counters, which [run] adjusts afterwards. *)
Definition core_ok (k : Kernel T) : Prop :=
  queue_ok (k_sim k) /\ metadata_ok k /\ current_ok (k_sim k).

Section Popped.
Context (k : Kernel T) (next : Event) (q : EventQueue).
Context (Hok : core_ok k) (Hpop : pop (event_queue_ (k_sim k)) = (Some next, q)).

Lemma popped_perm : events_ (event_queue_ (k_sim k)) ≡ₚ next :: events_ q.
Proof. apply (pop_Some _ _ _ Hpop). Qed.

Lemma popped_elem e :
  e ∈ events_ q <-> e ∈ events_ (event_queue_ (k_sim k)) /\ ev_id e <> ev_id next.
Proof.
  destruct Hok as [Hq _]. pose proof (ok_nodup _ Hq) as Hnd. pose proof popped_perm as Hp.
  rewrite Hp in Hnd. rewrite Hp, elem_of_cons. cbn in Hnd. apply NoDup_cons in Hnd as [Hni _].
  split; [| intros [[-> | ?] ?]; done].
  intros He. split; [by right |]. intros Heq. apply Hni. rewrite <- Heq.
  by apply list_elem_of_fmap_2.
Qed.

Lemma popped_core_ok : core_ok (set_sim (popped (k_sim k) next q) k).
Proof.
  pose proof popped_perm as Hp. pose proof popped_elem as Hel.
  destruct Hok as (Hq & [Hm1 Hm2] & Hcur). destruct Hq as [Hgen Hu Hnd Hpd Hc Hqd Hlog].
  split; [| split].
  - split; cbn; try done.
    + rewrite Hp in Hnd. by apply NoDup_cons in Hnd as [_ Hnd].
    + intros id. rewrite elem_of_difference, Hpd, not_elem_of_singleton. split.
      * intros ((e & He & <-) & Hne). exists e. by rewrite Hel.
      * intros (e & He & <-). apply Hel in He as [He Hne]. eauto.
    + intros i [Hi Hn]%elem_of_difference. apply elem_of_difference. split; [by apply Hc | done].
    + intros e He. apply Hqd. by apply Hel.
  - split; unfold tracked, telemetry_enabled in *; cbn in *.
    + intros e Ht He. apply Hel in He as [He Hne]. rewrite lookup_delete_ne by done. by apply Hm1.
    + intros id [md Hmd]. apply lookup_delete_Some in Hmd as [Hne Hmd].
      apply elem_of_difference. split; [by apply Hm2 | set_solver].
  - intros e He. destruct (Hcur e He) as (G1 & G2 & G3). split_and!; try apply G1; [| done].
    cbn. intros Hin. apply G2. by apply elem_of_difference in Hin as [? _].
Qed.

Lemma popped_live :
  live (popped (k_sim k) next q) = delete (ev_id next) (live (k_sim k)).
Proof.
  pose proof popped_elem as Hel. destruct popped_core_ok as [Hq' _]. destruct Hok as [Hq _].
  apply map_eq. intros i. apply option_eq. intros e.
  rewrite lookup_delete_Some, (live_lookup _ _ _ (ok_nodup _ Hq)).
  rewrite (live_lookup (popped (k_sim k) next q)) by exact (ok_nodup _ Hq'). cbn.
  rewrite Hel, elem_of_difference, not_elem_of_singleton. split.
  - intros ((He & Hne) & <- & Hn). split_and!; try done. intros Hc. by apply Hn.
  - intros (Hne & He & <- & Hc). split_and!; try done. by intros [? _].
Qed.
End Popped.

(** The fields that selection does not touch. *)
Definition same_books (s s' : Simulation) : Prop :=
  now_ s' = now_ s /\ event_ids_ s' = event_ids_ s /\ trace_ s' = trace_ s /\
  current_event_ s' = current_event_ s /\ stop_reason_ s' = stop_reason_ s /\
  lifecycle_ s' = lifecycle_ s /\ dispatched_events_ s' = dispatched_events_ s /\
  cancelled_events_ s' = cancelled_events_ s.

(** [next_dispatchable_event] as an operation on the map of live events. *)
Definition selected (k : Kernel T) (r : option Event) (k' : Kernel T) : Prop :=
  core_ok k' /\ same_books (k_sim k) (k_sim k') /\
  match r with
  | None => live (k_sim k) = ∅ /\ live (k_sim k') = ∅
  | Some e =>
      live (k_sim k) !! ev_id e = Some e /\
      live (k_sim k') = delete (ev_id e) (live (k_sim k)) /\
      (ev_id e ∉ pending_ids_ (k_sim k')) /\
      (forall id x, live (k_sim k') !! id = Some x -> before e x) /\
      (forall x, x ∈ events_ (event_queue_ (k_sim k')) -> ~ before x e)
  end.

Lemma selected_loop n k :
  (length (events_ (event_queue_ (k_sim k))) < n)%nat -> core_ok k ->
  let '(s', r) := next_dispatchable_loop n (k_sim k) in selected k r (set_sim s' k).
Proof.
  revert k. induction n as [| n IH]; intros k Hlen Hok; [lia |]. cbn [next_dispatchable_loop].
  destruct (pop (event_queue_ (k_sim k))) as [[next |] q] eqn:Hpop.
  2: { apply pop_None in Hpop as [He ->].
       assert (live (k_sim k) = ∅) as Hl by (unfold live, live_list; by rewrite He).
       split; [| by split_and!]. destruct k as [[] t]; exact Hok. }
  pose proof (popped_core_ok k next q Hok Hpop) as Hok'.
  pose proof (popped_live k next q Hok Hpop) as Hl'.
  destruct (pop_Some _ _ _ Hpop) as [Hp Hmin].
  assert (next ∈ events_ (event_queue_ (k_sim k))) as Hin by (rewrite Hp; left).
  fold (popped (k_sim k) next q). case_bool_decide as Hc.
  - assert (live (popped (k_sim k) next q) = live (k_sim k)) as Hsame.
    { rewrite Hl'. apply delete_id. apply live_None; [apply Hok | by right]. }
    specialize (IH (set_sim (popped (k_sim k) next q) k)).
    cbn [k_sim set_sim] in IH.
    destruct (next_dispatchable_loop n (popped (k_sim k) next q)) as [s' r].
    destruct IH as (G1 & G2 & G3); [| done |].
    { cbn. rewrite Hp in Hlen. cbn in Hlen. lia. }
    split; [done | split; [exact G2 |]]. cbn [k_sim set_sim] in G3. rewrite Hsame in G3. exact G3.
  - split; [done | split; [done |]]. split_and!.
    + apply live_lookup; [apply Hok | done].
    + exact Hl'.
    + cbn. intros [_ Hn]%elem_of_difference. by apply Hn, elem_of_singleton.
    + intros id x Hx. apply (live_lookup _ _ _ (ok_nodup _ (proj1 Hok'))) in Hx as (Hx & _ & _).
      cbn in Hx. rewrite Forall_forall in Hmin. pose proof (Hmin x Hx) as Hnb.
      apply (popped_elem k next q Hok Hpop) in Hx as [_ Hne].
      by destruct (before_total next x) as [| Hb]; [congruence | | contradiction].
    + by rewrite Forall_forall in Hmin.
Qed.

Lemma next_dispatchable_spec k :
  core_ok k ->
  exists r k', next_dispatchable_event k = (k', Ret r) /\ selected k r k'.
Proof.
  intros Hok. pose proof (selected_loop _ k (Nat.lt_succ_diag_r _) Hok) as Hs.
  unfold next_dispatchable_event. destruct (next_dispatchable_loop _ _) as [s' r]. eauto.
Qed.

(** ** Finishing *)

Lemma pending_count_live s : queue_ok s -> u64 (Z.of_nat (size (live s))) ->
  pending_count s = Z.of_nat (size (live s)).
Proof. intros Hq Hu. unfold pending_count. rewrite <- live_size by done. by apply u64_wrap_id. Qed.

(** The kernel after the run, and the result it reports. *)
Definition finished (k : Kernel T) (status : SimulationStatus) (error : option string)
    (k' : Kernel T) (r : SimulationResult) : Prop :=
  kernel_ok k' /\ live (k_sim k') = live (k_sim k) /\ lifecycle_ (k_sim k') = Finished /\
  current_event_ (k_sim k') = None /\ event_ids_ (k_sim k') = event_ids_ (k_sim k) /\
  now_ (k_sim k') = now_ (k_sim k) /\ stop_reason_ (k_sim k') = stop_reason_ (k_sim k) /\
  r = mkSimulationResult status (stop_reason_ (k_sim k')) (now_ (k_sim k'))
        (dispatched_events_ (k_sim k')) (cancelled_events_ (k_sim k')) (pending_count (k_sim k'))
        (draw_count_ (rng_ (k_sim k'))) (trace_hash (trace_ (k_sim k'))) error.

Lemma finished_quiet k k1 st err k' r :
  quiet k k1 -> finished k1 st err k' r -> finished k st err k' r.
Proof.
  intros Hq (H1 & H2 & H3 & H4 & H5 & H6 & H7 & H8). unfold finished.
  rewrite <- (quiet_live _ _ Hq), <- (quiet_ids _ _ Hq).
  destruct Hq as (tr & b & t & -> & _). done.
Qed.

Lemma finish_tail k st err :
  kernel_ok k ->
  wp (do! modify_sim (T := T) (fun s => {| s with lifecycle_ := Finished; current_event_ := None |}) in
      gets (fun k => let s := k_sim k in
        mkSimulationResult st (stop_reason_ s) (now_ s) (dispatched_events_ s)
          (cancelled_events_ s) (pending_count s) (draw_count_ (rng_ s)) (trace_hash (trace_ s)) err))
     (finished k st err) (fun _ _ => False) k.
Proof.
  intros Hok. wp_step. apply wp_modify. wp_step.
  match goal with |- finished _ _ _ ?k2 _ => set (K := k2) end.
  destruct (kernel_ok_ext k K Hok) as [G1 G2]; auto. by split_and!.
Qed.

Lemma finish_spec st err k :
  kernel_ok k ->
  wp (finish st err) (finished k st err)
    (fun k' _ => quiet k k' /\ telemetry_failed_ (k_sim k) = false) k.
Proof.
  intros Hok. unfold finish. wp_step.
  apply wp_conseq with (Q := fun k' _ => quiet k k')
    (E := fun k' _ => quiet k k' /\ telemetry_failed_ (k_sim k) = false); [| | done].
  { destruct (telemetry_failed_ (k_sim k)) eqn:Hf.
    - unfold emit_terminal_telemetry. do 2 wp_step. cbv beta. unfold id. rewrite Hf, orb_true_r.
      by wp_step.
    - eapply wp_conseq; [apply quiet_op_emit_terminal | done | done]. }
  intros k1 [] Hk1. wp_step.
  apply wp_conseq with (Q := fun k' _ => quiet k k') (E := fun _ _ => False); [| | done].
  { assert (forall a e, wp (record_terminal a e) (fun k' _ => quiet k k') (fun _ _ => False) k1) as Hr.
    { intros a e. unfold record_terminal. do 2 wp_step. cbv beta. wp_step; [by wp_step |].
      apply wp_modify. etrans; [exact Hk1 |].
      pose proof (quiet_op_append (fun s0 => mkTraceRecord a (now_ s0)
        (md_id <$> (event_trace_metadata <$> current_event_ (k_sim k1)))
        ((event_trace_metadata <$> current_event_ (k_sim k1)) ≫= md_cause)
        (md_timestamp <$> (event_trace_metadata <$> current_event_ (k_sim k1)))
        (md_priority <$> (event_trace_metadata <$> current_event_ (k_sim k1)))
        (md_payload_kind <$> (event_trace_metadata <$> current_event_ (k_sim k1))) None e) k1) as Hq.
      exact Hq. }
    destruct st; [apply Hr | by wp_step | apply Hr]. }
  intros k2 [] Hk2.
  eapply wp_conseq; [apply finish_tail; by eapply quiet_kernel_ok | | done].
  simpl. intros k3 r Hf. by eapply finished_quiet.
Qed.

(** [fail] always produces a result, whatever telemetry does. *)
Lemma fail_spec err k :
  kernel_ok k ->
  wp (fail err) (fun k' r => exists w, finished k SimulationStatus_Failed (Some w) k' r)
    (fun _ _ => False) k.
Proof.
  intros Hok. unfold fail. apply wp_try_catch.
  eapply wp_conseq; [apply finish_spec; done | simpl; eauto |].
  simpl. intros k1 e [Hq _]. wp_step. apply wp_modify.
  match goal with |- wp _ _ _ ?k2 => set (K := k2) end.
  assert (quiet k K) as HqK.
  { etrans; [exact Hq |]. exists (trace_ (k_sim k1)), true, (k_session k1). by split_and!. }
  eapply wp_conseq; [apply finish_spec; by eapply quiet_kernel_ok | |]; simpl.
  - intros k3 r Hf. exists (what e). by eapply finished_quiet.
  - intros k3 e' [_ Hx]. discriminate Hx.
Qed.

(** ** What handlers can do

    [SimulationContext] gives a handler exactly these operations, and the
    session can also be written through the sinks of other components. *)

Definition sink_write (sink : TelemetrySink) (ts : SimTimeNs) (corr : Correlation)
    (obs : TelemetryObservation) : M (Kernel T) unit :=
  zoom k_session set_session (sink_record sink ts corr obs).

Inductive kernel_step (k : Kernel T) : Kernel T -> Prop :=
  | step_schedule spec : u64 (spec_timestamp spec) -> kernel_step k (fst (schedule spec k))
  | step_cancel id : kernel_step k (fst (cancel id k))
  | step_stop reason : kernel_step k (fst (stop reason k))
  | step_random_u64 : kernel_step k (fst (random_u64 k))
  | step_random_below fuel n k' r : random_below fuel n k = Some (k', r) -> kernel_step k k'
  | step_sink_write sink ts corr obs : kernel_step k (fst (sink_write sink ts corr obs k)).

Definition evolves : Kernel T -> Kernel T -> Prop := rtc kernel_step.

(** The net effect of any number of such operations. *)
Record evolved (k k' : Kernel T) : Prop := {
  ev_frame : frame k k';
  ev_stop r : stop_reason_ (k_sim k) = Some r -> stop_reason_ (k_sim k') = Some r;
  ev_frontier : frontier (event_ids_ (k_sim k)) <= frontier (event_ids_ (k_sim k'));
  ev_live id e : live (k_sim k') !! id = Some e ->
    live (k_sim k) !! id = Some e \/ frontier (event_ids_ (k_sim k)) <= id;
  ev_size : Z.of_nat (size (live (k_sim k'))) - Z.of_nat (size (live (k_sim k))) <=
    frontier (event_ids_ (k_sim k')) - frontier (event_ids_ (k_sim k));
}.

#[global] Instance evolved_refl : Reflexive evolved.
Proof. intros k. split; [done | done | lia | by left | lia]. Qed.

#[global] Instance evolved_trans : Transitive evolved.
Proof.
  intros k1 k2 k3 [A1 A2 A3 A4 A5] [B1 B2 B3 B4 B5]. split; [by etrans | auto | lia | | lia].
  intros id e He. destruct (B4 id e He) as [He' | ?]; [| right; lia]. apply (A4 _ _ He').
Qed.

Lemma scheduled_evolved k spec k' : scheduled k spec k' -> kernel_ok k' /\ evolved k k'.
Proof.
  intros (H1 & H2 & H3 & H4 & H5 & H6). cbn [event_of ev_id] in *. split; [done |]. split.
  - done.
  - intros r Hr. congruence.
  - lia.
  - intros id e. rewrite H5. intros [[<- _] | [_ He]]%lookup_insert_Some; [right; lia | by left].
  - rewrite H5, map_size_insert_None by done. lia.
Qed.

Lemma cancelled_evolved k id k' : cancelled k id k' -> kernel_ok k' /\ evolved k k'.
Proof.
  intros (H1 & H2 & H3 & H4 & H5 & H6). split; [done |]. split.
  - done.
  - intros r Hr. congruence.
  - rewrite H4. lia.
  - intros i e. rewrite H6. intros [_ He]%lookup_delete_Some. by left.
  - rewrite H4, H6, map_size_delete. destruct (_ !! id); simpl; lia.
Qed.

Lemma untouched_evolved k k' : untouched k k' -> kernel_ok k' /\ evolved k k'.
Proof.
  intros (H1 & H2 & H3 & H4 & H5). split; [done |].
  split; [done | done | rewrite H4; lia | rewrite H3; by left | rewrite H3, H4; lia].
Qed.

(** From a specification that holds on both exits to the final state. *)
Lemma wp_fst {S A} (m : M S A) (P : S -> Prop) s :
  wp m (fun s' _ => P s') (fun s' _ => P s') s -> P (fst (m s)).
Proof. unfold wp. by destruct (m s) as [s' [a | e]]. Qed.

Lemma rng_update_evolved k rng :
  kernel_ok k ->
  let k' := set_sim (let s := k_sim k in {| s with rng_ := rng |}) k in kernel_ok k' /\ evolved k k'.
Proof.
  intros Hok k'. destruct (kernel_ok_ext k k' Hok) as [G1 G2]; auto.
  apply untouched_evolved. split_and!; done.
Qed.

Lemma sink_write_quiet sink ts corr obs : quiet_op (sink_write sink ts corr obs).
Proof.
  intros k. unfold sink_write. apply wp_zoom. unfold wp, sink_record.
  destruct (sink_enabled _ _); [| by destruct k].
  pose proof (session_record_enabled ts corr obs (k_session k)) as Hen.
  assert (forall t, session_enabled t = session_enabled (k_session k) -> quiet k (set_session t k)) as Hq.
  { intros t Ht. exists (trace_ (k_sim k)), (telemetry_failed_ (k_sim k)), t. split_and!; [| done..].
    by destruct k as [[] t0]. }
  destruct (session_record _ _ _ _) as [t [[] | e]]; apply Hq; exact Hen.
Qed.

Lemma kernel_step_evolved k k' : kernel_ok k -> kernel_step k k' -> kernel_ok k' /\ evolved k k'.
Proof.
  intros Hok [spec Hts | id | reason | | fuel n k1 r Hr | sink ts corr obs].
  - apply wp_fst. eapply wp_conseq; [by apply schedule_spec | |]; simpl.
    + intros k1 i (_ & _ & _ & Hs). by eapply scheduled_evolved.
    + intros k1 _ [-> | Hs]; [done | by eapply scheduled_evolved].
  - apply wp_fst. eapply wp_conseq; [by apply cancel_spec | |]; simpl.
    + intros k1 [] Hc; [by eapply cancelled_evolved | by destruct Hc as [-> _]].
    + intros k1 _ Hc. by eapply cancelled_evolved.
  - apply wp_fst. eapply wp_conseq; [by apply stop_spec | |]; simpl.
    + intros k1 _ [Hu _]. by apply untouched_evolved.
    + intros k1 _ Hu. by apply untouched_evolved.
  - unfold random_u64. destruct (next_u64 _) as [v rng]. by apply rng_update_evolved.
  - unfold random_below in Hr. destruct (uniform_below _ _ _) as [[rng o] |]; simplify_eq.
    by apply rng_update_evolved.
  - apply wp_fst. eapply wp_conseq; [apply sink_write_quiet | |]; simpl; intros k1 ? Hq;
      apply untouched_evolved; eapply quiet_untouched; eauto using untouched_refl.
Qed.

Lemma evolves_evolved k k' : kernel_ok k -> evolves k k' -> kernel_ok k' /\ evolved k k'.
Proof.
  intros Hok He. revert Hok. induction He as [k | k1 k2 k3 Hs _ IH]; [done |].
  intros Hok. destruct (kernel_step_evolved _ _ Hok Hs) as [Hok2 He2].
  destruct (IH Hok2) as [Hok3 He3]. split; [done | by etrans].
Qed.

(** The kernel right after construction. *)
Lemma new_kernel_ok seed mode sink (t : T) :
  kernel_ok (mkKernel (new_simulation seed mode sink) t).
Proof.
  split; [split | split | |]; cbn; try done.
  - apply NoDup_nil_2.
  - intros id. split; [set_solver | intros (e & He & _); by apply elem_of_nil in He].
  - intros e He. by apply elem_of_nil in He.
  - intros e _ He. by apply elem_of_nil in He.
  - intros id [md Hmd]. by rewrite lookup_empty in Hmd.
  - exists 0, 0. done.
Qed.

(** ** The contract of the three queue operations *)

(** C2: scheduling is insertion into the map of live events.  On a consistent
    kernel, [schedule] either refuses and changes nothing, or queues exactly the
    requested event under the next, never used identifier with the running
    event as its cause; nothing else about the pending events, the clock or the
    current event changes, also when a later recording step throws. *)
Theorem schedule_refines_insert (spec : EventSpec) (k : Kernel T) :
  kernel_ok k -> u64 (spec_timestamp spec) ->
  let s := k_sim k in
  let ev := event_of s spec in
  match schedule spec k with
  | (k', Ret id) =>
      id = ev_id ev /\ lifecycle_ s <> Finished /\ now_ s <= spec_timestamp spec /\
      live s !! id = None /\ live (k_sim k') = <[id := ev]> (live s) /\
      frame k k' /\ kernel_ok k'
  | (k', Throw e) =>
      k' = k \/
      (live (k_sim k') = <[ev_id ev := ev]> (live s) /\ frame k k' /\ kernel_ok k')
  end.
Proof.
  intros Hok Hts s ev. pose proof (schedule_spec spec k Hok Hts) as Hs. unfold wp in Hs.
  destruct (schedule spec k) as [k' [id | e]].
  - destruct Hs as (-> & Hl & Hn & (H1 & H2 & H3 & H4 & H5 & H6)). split_and!; done.
  - destruct Hs as [-> | (H1 & H2 & H3 & H4 & H5 & H6)]; [by left | right]. split_and!; done.
Qed.

(** Cancelling is deletion from the map of live events.  [cancel] reports
    true exactly when the identifier names a live event of an unfinished run,
    and then removes that event and no other; otherwise it changes nothing. *)
Theorem cancel_refines_delete (id : EventId) (k : Kernel T) :
  kernel_ok k ->
  match cancel id k with
  | (k', Ret true) | (k', Throw _) =>
      is_Some (live (k_sim k) !! id) /\ live (k_sim k') = delete id (live (k_sim k)) /\
      frame k k' /\ kernel_ok k'
  | (k', Ret false) =>
      k' = k /\ (lifecycle_ (k_sim k) = Finished \/ live (k_sim k) !! id = None)
  end.
Proof.
  intros Hok. pose proof (cancel_spec id k Hok) as Hs. unfold wp in Hs.
  destruct (cancel id k) as [k' [[] | e]]; [| done |];
    destruct Hs as (H1 & H2 & H3 & H4 & H5 & H6); split_and!; done.
Qed.

(** C3: selecting the next event extracts the minimum of the live events in the
    documented order (timestamp, priority, identifier), skipping cancelled
    ones; it reports exhaustion exactly when no live event is left, and always
    answers within the turns the queue length allows. *)
Theorem next_event_is_minimum (k : Kernel T) :
  kernel_ok k ->
  exists k' r, next_dispatchable_event k = (k', Ret r) /\
  match r with
  | None => live (k_sim k) = ∅
  | Some e =>
      live (k_sim k) !! ev_id e = Some e /\ now_ (k_sim k) <= ev_timestamp e /\
      live (k_sim k') = delete (ev_id e) (live (k_sim k)) /\
      (forall id x, live (k_sim k) !! id = Some x -> x = e \/ before e x)
  end.
Proof.
  intros Hok. assert (core_ok k) as Hc by (destruct Hok; done).
  destruct (next_dispatchable_spec k Hc) as (r & k' & Hr & (H1 & H2 & H3)).
  exists k', r. split; [done |]. destruct r as [e |]; [| tauto].
  destruct H3 as (G1 & G2 & G3 & G4 & _). split_and!; [done | | done |].
  - apply live_lookup in G1 as (Hin & _); [| apply Hc]. 
    exact (proj1 (ok_queued _ (ok_queue _ Hok) e Hin)).
  - intros id x Hx. destruct (decide (id = ev_id e)) as [-> | Hne]; [left; congruence | right].
    apply (G4 id). rewrite G2. by apply lookup_delete_Some.
Qed.

End Laws.

(** A small kernel for the witnesses: two events scheduled at time zero. *)
Definition demo_spec (at_ : Z) : EventSpec := mkEventSpec at_ Normal (NoOpEvent at_).

Definition demo_kernel : Kernel unit :=
  fst (schedule (demo_spec 5) (mkKernel (new_simulation 1 TraceMode_Disabled false) tt)).

Lemma demo_kernel_ok : kernel_ok demo_kernel.
Proof.
  unfold demo_kernel. apply (kernel_step_evolved (mkKernel (new_simulation 1 TraceMode_Disabled false) tt)).
  - apply new_kernel_ok.
  - apply step_schedule. unfold demo_spec. cbn. word_lia.
Qed.

Lemma schedule_refines_insert_witness :
  exists k', schedule (demo_spec 3) demo_kernel = (k', Ret 1) /\ kernel_ok k'.
Proof.
  pose proof (schedule_refines_insert (demo_spec 3) demo_kernel demo_kernel_ok
    ltac:(unfold demo_spec; cbn; word_lia)) as Hs.
  destruct (schedule (demo_spec 3) demo_kernel) as [k' [id | e]] eqn:Hr.
  - exists k'. destruct Hs as (-> & _ & _ & _ & _ & _ & Hk). split; [| done].
    reflexivity.
  - exfalso. assert (snd (schedule (demo_spec 3) demo_kernel) = Ret 1) as Hx by reflexivity.
    rewrite Hr in Hx. discriminate Hx.
Defined.

Lemma next_event_is_minimum_witness :
  exists k' r, next_dispatchable_event demo_kernel = (k', Ret r) /\
    (ev_timestamp <$> r) = Some 5 /\ live (k_sim k') = ∅.
Proof.
  destruct (next_event_is_minimum demo_kernel demo_kernel_ok) as (k' & r & Hr & Hm).
  assert (snd (next_dispatchable_event demo_kernel) =
    Ret (Some (mkEvent 5 Normal 0 None (NoOpEvent 5)))) as Hx by (vm_compute; reflexivity).
  exists k', r. split; [done |]. rewrite Hr in Hx. simpl in Hx.
  assert (r = Some (mkEvent 5 Normal 0 None (NoOpEvent 5))) as -> by congruence.
  split; [done |]. destruct Hm as (_ & _ & -> & _). vm_compute. reflexivity.
Defined.
