(* ===== verification/SimulationRun.v ===== *)
(** * The event loop

    Models [Simulation::run] of [sim/simulation.hpp].  The dispatcher is a
    parameter, as in the source: a computation on the whole program state [W],
    of which the kernel is one part ([kernel_of], [with_kernel]).  The C++ loop
    has no bound; the model takes fuel, and [run_returns] gives the fuel that
    suffices for a program whose handlers schedule finitely many events. *)

From S2P Require Import Prelude SimTime Rng Entities TelemetryRecords EventQueue Trace.
From S2P Require Import Simulation SimulationLaws.

Section Run.
Context {W T : Type} `{TelemetrySession T}.
Context (kernel_of : W -> Kernel T) (with_kernel : Kernel T -> W -> W).
Context (dispatcher : EventPayload -> M W unit).

(** A member function of the simulation, run inside the program state. *)
Definition on_kernel {A} (m : M (Kernel T) A) : M W A := zoom kernel_of with_kernel m.

(** The dispatch of one event, from [current_event_ = next] to
    [current_event_.reset()]. *)
Definition dispatch_event (next : Event) : M W unit :=
  do! on_kernel (modify_sim (fun s => {| s with
        current_event_ := Some next;
        now_ := ev_timestamp next;
        dispatched_events_ := u64_wrap (dispatched_events_ s + 1) |})) in
  do! on_kernel (emit_simulation_observation SimulationTransition_EventDispatched
        (Some (ev_id next)) (ev_cause next)) in
  do! on_kernel (emit_metric (CounterObservation SimulationDispatchedEvents [] 1)) in
  let! s := gets (fun w => k_sim (kernel_of w)) in
  do! when (trace_enabled (trace_ s))
        (on_kernel (record_event TraceAction_Dispatched (now_ s) (event_trace_metadata next) None)) in
  do! dispatcher (ev_payload next) in
  on_kernel (modify_sim (fun s => {| s with current_event_ := None |})).

(** One turn of the loop; [None] means that it goes on. *)
Definition run_step : M W (option SimulationResult) :=
  let! reason := gets (fun w => stop_reason_ (k_sim (kernel_of w))) in
  match reason with
  | Some _ => let! r := on_kernel (finish SimulationStatus_Stopped None) in ret (Some r)
  | None =>
      let! next := on_kernel next_dispatchable_event in
      match next with
      | None => let! r := on_kernel (finish SimulationStatus_Completed None) in ret (Some r)
      | Some next => do! dispatch_event next in ret None
      end
  end.

Fixpoint run_loop (fuel : nat) (w : W) : option (W * outcome SimulationResult) :=
  match fuel with
  | O => None
  | S n =>
      match run_step w with
      | (w', Ret (Some r)) => Some (w', Ret r)
      | (w', Ret None) => run_loop n w'
      | (w', Throw e) => Some (w', Throw e)
      end
  end.

Definition run (fuel : nat) (w : W) : option (W * outcome SimulationResult) :=
  match on_kernel begin_run w with
  | (w0, Throw e) => Some (w0, Throw e)
  | (w0, Ret _) =>
      match on_kernel (emit_simulation_observation SimulationTransition_RunStarted None None) w0 with
      | (w1, Throw e) => Some (on_kernel (fail (what e)) w1)
      | (w1, Ret _) =>
          match run_loop fuel w1 with
          | None => None
          | Some (w2, Throw e) => Some (on_kernel (fail (what e)) w2)
          | Some (w2, Ret r) => Some (w2, Ret r)
          end
      end
  end.

(** The events a run dispatches, in order. *)
Fixpoint dispatch_log (fuel : nat) (w : W) : list Event :=
  match fuel, stop_reason_ (k_sim (kernel_of w)) with
  | S n, None =>
      match next_dispatchable_event (kernel_of w) with
      | (_, Ret (Some e)) =>
          e :: match run_step w with (w', Ret None) => dispatch_log n w' | _ => [] end
      | _ => []
      end
  | _, _ => []
  end.
End Run.

(** ** Correctness for every dispatcher that uses the kernel through its context *)

Section RunLaws.
Context {W T : Type} `{TelemetrySessionLaws T}.
Context (kernel_of : W -> Kernel T) (with_kernel : Kernel T -> W -> W).
Context (dispatcher : EventPayload -> M W unit).

(** The kernel is a part of the program state. *)
Class KernelLens : Prop := { kernel_of_with k w : kernel_of (with_kernel k w) = k }.

(** Handlers reach the kernel only through [SimulationContext]. *)
Class ContextOnly : Prop := {
  dispatcher_evolves p w :
    kernel_ok (kernel_of w) ->
    wp (dispatcher p) (fun w' _ => evolves (kernel_of w) (kernel_of w'))
      (fun w' _ => evolves (kernel_of w) (kernel_of w')) w }.

Context `{!KernelLens} `{!ContextOnly}.

#[local] Abbreviation kstep := (run_step kernel_of with_kernel dispatcher).
#[local] Abbreviation kdispatch := (dispatch_event kernel_of with_kernel dispatcher).

Lemma wp_on_kernel {A} (m : M (Kernel T) A) (Q : W -> A -> Prop) (E : W -> exn -> Prop) w :
  wp m (fun k a => forall w', kernel_of w' = k -> w' = with_kernel k w -> Q w' a)
    (fun k e => forall w', kernel_of w' = k -> w' = with_kernel k w -> E w' e) (kernel_of w) ->
  wp (on_kernel kernel_of with_kernel m) Q E w.
Proof.
  intros Hm. apply wp_zoom. eapply wp_conseq; [exact Hm | |]; simpl; intros k a Hk;
    (apply Hk; [apply kernel_of_with | done]).
Qed.

(** [budget w] bounds the number of events that the handlers will still
    schedule: every dispatch pays for the identifiers it draws. *)
Record schedules_within (budget : W -> Z) : Prop := {
  budget_nonneg w : 0 <= budget w;
  budget_kernel k w : budget (with_kernel k w) = budget w;
  budget_pays p w :
    kernel_ok (kernel_of w) ->
    wp (dispatcher p)
      (fun w' _ => budget w' + frontier (event_ids_ (k_sim (kernel_of w'))) <=
                   budget w + frontier (event_ids_ (k_sim (kernel_of w))))
      (fun _ _ => True) w;
}.

(** What is left of the budget when the identifiers drawn are counted. *)
Definition within (budget : W -> Z) (w w' : W) : Prop :=
  schedules_within budget ->
  budget w' + frontier (event_ids_ (k_sim (kernel_of w'))) <=
  budget w + frontier (event_ids_ (k_sim (kernel_of w))).

(** Between turns: consistent, running, nothing being dispatched. *)
Definition ready (w : W) : Prop :=
  kernel_ok (kernel_of w) /\ current_event_ (k_sim (kernel_of w)) = None.

(** The effect of dispatching [next], selected from [k]. *)
Definition dispatched (k : Kernel T) (next : Event) (k' : Kernel T) : Prop :=
  kernel_ok k' /\ now_ (k_sim k') = ev_timestamp next /\
  frontier (event_ids_ (k_sim k)) <= frontier (event_ids_ (k_sim k')) /\
  (forall id e, live (k_sim k') !! id = Some e ->
     (live (k_sim k) !! id = Some e /\ id <> ev_id next) \/ frontier (event_ids_ (k_sim k)) <= id) /\
  Z.of_nat (size (live (k_sim k'))) + 1 - Z.of_nat (size (live (k_sim k))) <=
    frontier (event_ids_ (k_sim k')) - frontier (event_ids_ (k_sim k)).

Lemma dispatched_evolved k next k1 k2 :
  dispatched k next k1 -> kernel_ok k2 -> evolved k1 k2 -> dispatched k next k2.
Proof.
  intros (A1 & A2 & A3 & A4 & A5) B0 [B1 B2 B3 B4 B5]. unfold dispatched. split_and!.
  - done.
  - destruct B1 as [-> _]. done.
  - lia.
  - intros id e He. destruct (B4 id e He) as [He' | ?]; [by apply A4 | right; lia].
  - lia.
Qed.

Lemma dispatched_quiet k next k1 k2 : dispatched k next k1 -> quiet k1 k2 -> dispatched k next k2.
Proof.
  intros Hd Hq. pose proof Hd as [Hok _].
  destruct (untouched_evolved k1 k2) as [H1' H2'];
    [eapply quiet_untouched; eauto using untouched_refl |].
  by eapply dispatched_evolved.
Qed.

(** Making the selected event the current one restores the full invariant. *)
Lemma begin_dispatch k next k1 :
  kernel_ok k -> selected k (Some next) k1 ->
  dispatched k next (set_sim (let s := k_sim k1 in {| s with
    current_event_ := Some next; now_ := ev_timestamp next;
    dispatched_events_ := u64_wrap (dispatched_events_ s + 1) |}) k1).
Proof.
  intros Hok ((Hq & Hmd & Hcur) & Hbooks & Hl & Hl' & Hnp & _ & Hmin).
  destruct Hbooks as (E1 & E2 & E3 & E4 & E5 & E6 & E7 & E8).
  pose proof (proj1 (live_lookup _ _ _ (ok_nodup _ (ok_queue _ Hok))) Hl) as (Hin & _ & _).
  destruct (ok_queued _ (ok_queue _ Hok) next Hin) as (Ht & Hu & Hid).
  set (K := set_sim _ k1). assert (live (k_sim K) = live (k_sim k1)) as HlK by done.
  assert (1 + size (live (k_sim k1)) = size (live (k_sim k)))%nat as Hsz.
  { rewrite Hl', map_size_delete, Hl. cbn.
    pose proof (map_size_ne_0_lookup_2 (live (k_sim k)) (ev_id next) ltac:(eauto)). lia. }
  assert (kernel_ok K) as HK.
  { split.
    - destruct Hq as [F1 F2 F3 F4 F5 F6 F7]. split; try done. intros e He. cbn in He |- *.
      destruct (F6 e He) as (_ & Fu & Fi). split; [| done].
      by apply before_timestamp, Hmin.
    - by destruct Hmd.
    - intros e [= <-]. cbn. rewrite E2. split_and!; try lia; done.
    - destruct (ok_counts _ Hok) as (d & c & G1 & G2 & G3 & G4 & G5). exists (d + 1), c.
      split_and!; [lia | done | | | ]; cbn; [by apply wrap_succ; rewrite E7 | by rewrite E8 |].
      match goal with |- context [live ?s] => change (live s) with (live (k_sim k1)) end.
      rewrite E2. lia. }
  unfold dispatched. rewrite HlK. cbn [K k_sim set_sim now_ event_ids_]. rewrite E2. split_and!.
  - exact HK.
  - done.
  - lia.
  - intros id e. rewrite Hl'. intros [Hne He]%lookup_delete_Some. left. by split.
  - lia.
Qed.

Lemma dispatch_event_spec budget next k1 w :
  kernel_ok (kernel_of w) -> selected (kernel_of w) (Some next) k1 ->
  wp (kdispatch next)
    (fun w' _ => dispatched (kernel_of w) next (kernel_of w') /\ within budget w w' /\
       current_event_ (k_sim (kernel_of w')) = None)
    (fun w' _ => dispatched (kernel_of w) next (kernel_of w')) (with_kernel k1 w).
Proof.
  intros Hok Hsel. pose proof (begin_dispatch _ _ _ Hok Hsel) as Hb. unfold dispatch_event.
  set (D := fun w' : W => dispatched (kernel_of w) next (kernel_of w') /\ within budget w w').
  assert (forall m : M (Kernel T) unit, quiet_op m -> forall w1, D w1 ->
    wp (on_kernel kernel_of with_kernel m) (fun w' _ => D w') (fun w' _ => D w') w1) as Hquiet.
  { intros m Hm w1 [HD HB]. apply wp_on_kernel.
    eapply wp_conseq; [apply Hm | |]; simpl; intros k2 ? Hq w2 Hw2 Heq; unfold D, within; rewrite Hw2;
      (split; [by eapply dispatched_quiet |]); intros Hs; rewrite (quiet_ids _ _ Hq), Heq,
      (budget_kernel _ Hs); by apply HB. }
  wp_step. apply wp_on_kernel, wp_modify. intros w1 Hw1 Heq1.
  assert (D w1) as HD.
  { unfold D, within. rewrite Hw1. rewrite kernel_of_with. split; [exact Hb |]. intros Hs.
    rewrite Heq1, !(budget_kernel _ Hs). cbn.
    destruct Hsel as (_ & (_ & -> & _) & _). lia. }
  clear Hw1 Hb Heq1. wp_step.
  eapply wp_conseq; [apply Hquiet; [apply quiet_op_emit | done] | | by intros ? ? [? _]].
  simpl. intros w2 [] HD2. wp_step.
  eapply wp_conseq; [apply Hquiet; [apply quiet_op_emit_metric | done] | | by intros ? ? [? _]].
  simpl. intros w3 [] HD3. do 2 wp_step. wp_step.
  apply wp_conseq with (Q := fun w' _ => D w') (E := fun w' _ => D w'); [| | by intros ? ? [? _]].
  { apply wp_when; intros _; [by apply Hquiet; [apply quiet_op_record_event |] | done]. }
  intros w4 [] [HD4 HB4]. wp_step.
  assert (forall w5, evolves (kernel_of w4) (kernel_of w5) ->
    dispatched (kernel_of w) next (kernel_of w5)) as Hev.
  { intros w5 He. destruct (evolves_evolved _ _ (proj1 HD4) He) as [Hk5 He5].
    by eapply dispatched_evolved. }
  pose proof (dispatcher_evolves (ev_payload next) w4 (proj1 HD4)) as Hdisp.
  pose proof (fun Hs : schedules_within budget =>
    budget_pays _ Hs (ev_payload next) w4 (proj1 HD4)) as Hpay.
  unfold wp at 1. unfold wp in Hdisp, Hpay.
  destruct (dispatcher (ev_payload next) w4) as [w5 [[] | e]]; [| by apply Hev].
  specialize (Hev w5 Hdisp).
  apply wp_on_kernel, wp_modify. intros w6 Hw6 Heq6. unfold within. rewrite Hw6.
  destruct (kernel_ok_ext (kernel_of w5) (kernel_of w6) (proj1 Hev)) as [G1 G2];
    rewrite ?Hw6; auto. rewrite Hw6 in G1, G2.
  split; [| split; [| done]].
  - destruct Hev as (A1 & A2 & A3 & A4 & A5). unfold dispatched. rewrite G2. done.
  - intros Hs. rewrite Heq6, (budget_kernel _ Hs). specialize (Hpay Hs). specialize (HB4 Hs).
    cbn. lia.
Qed.

(** One turn: the loop goes on after a dispatch, or ends with a result. *)
Lemma run_step_spec budget w :
  ready w ->
  wp kstep
    (fun w' r => match r with
       | None => ready w' /\ exists next k1,
           stop_reason_ (k_sim (kernel_of w)) = None /\
           next_dispatchable_event (kernel_of w) = (k1, Ret (Some next)) /\
           live (k_sim (kernel_of w)) !! ev_id next = Some next /\
           dispatched (kernel_of w) next (kernel_of w') /\ within budget w w'
       | Some res =>
           (is_Some (stop_reason_ (k_sim (kernel_of w))) /\
            finished (kernel_of w) SimulationStatus_Stopped None (kernel_of w') res) \/
           (stop_reason_ (k_sim (kernel_of w)) = None /\ live (k_sim (kernel_of w)) = ∅ /\
            finished (kernel_of w) SimulationStatus_Completed None (kernel_of w') res)
       end)
    (fun w' _ => kernel_ok (kernel_of w')) w.
Proof.
  intros [Hok Hcur]. unfold run_step. do 2 wp_step. cbv beta.
  assert (forall st, wp (on_kernel kernel_of with_kernel (finish st None))
    (fun w' r => finished (kernel_of w) st None (kernel_of w') r)
    (fun w' _ => kernel_ok (kernel_of w')) w) as Hfin.
  { intros st. apply wp_on_kernel. eapply wp_conseq; [by apply finish_spec | |]; simpl.
    - intros k' r Hf w' -> _. done.
    - intros k' e [Hq _] w' -> _. by eapply quiet_kernel_ok. }
  wp_step.
  { wp_step. eapply wp_conseq; [apply Hfin | | done]. simpl. intros w' r Hf. wp_step. left. eauto. }
  destruct (next_dispatchable_spec (kernel_of w)) as (r & k1 & Hr & Hsel); [by destruct Hok |].
  wp_step. unfold wp at 1, on_kernel, zoom. rewrite Hr.
  destruct r as [next |].
  - wp_step. eapply wp_conseq; [by apply (dispatch_event_spec budget) | | by intros ? ? []].
    simpl. intros w' [] (Hd & HB & Hc). wp_step. split; [by split; [apply Hd |] |].
    exists next, k1. split_and!; try done. apply Hsel.
  - wp_step. destruct Hsel as ((Hq & Hmd & Hc1) & Hb & Hl & Hl').
    destruct Hb as (E1 & E2 & E3 & E4 & E5 & E6 & E7 & E8).
    assert (kernel_ok (kernel_of (with_kernel k1 w))) as Hok1.
    { rewrite kernel_of_with. split; try done.
      destruct (ok_counts _ Hok) as (d & c & G1 & G2 & G3 & G4 & G5). exists d, c.
      unfold accounted. rewrite E7, E8, E2, Hl', <- Hl. done. }
    apply wp_on_kernel. eapply wp_conseq; [apply finish_spec; exact Hok1 | |]; simpl.
    + rewrite kernel_of_with. intros k2 res Hf w2 Hw2 _. wp_step. right.
      split_and!; try done. rewrite Hw2.
      destruct Hf as (F1 & F2 & F3 & F4 & F5 & F6 & F7 & F8).
      unfold finished. rewrite Hl, <- Hl', <- E2, <- E1, <- E5. done.
    + intros k2 e [Hq2 _] w2 -> _. by eapply quiet_kernel_ok.
Qed.

(** ** The dispatch order *)

#[local] Abbreviation klog := (dispatch_log kernel_of with_kernel dispatcher).

(** The log is empty, or starts with a live event that is not in the past and
    goes on from a state in which that event has been dispatched. *)
Lemma dispatch_log_cases fuel w :
  ready w ->
  klog fuel w = [] \/
  exists next rest, klog fuel w = next :: rest /\
    live (k_sim (kernel_of w)) !! ev_id next = Some next /\
    now_ (k_sim (kernel_of w)) <= ev_timestamp next /\
    0 <= ev_id next < frontier (event_ids_ (k_sim (kernel_of w))) /\
    (rest = [] \/ exists n w', fuel = S n /\ rest = klog n w' /\ ready w' /\
       dispatched (kernel_of w) next (kernel_of w')).
Proof.
  intros Hw. destruct fuel as [| n]; [by left |]. cbn [dispatch_log].
  destruct (stop_reason_ _) eqn:Hstop; [by left |].
  destruct (next_dispatchable_spec (kernel_of w)) as (r & k1 & Hr & Hsel); [by destruct Hw as [[] _] |].
  rewrite Hr. destruct r as [next |]; [right | by left].
  destruct Hsel as (_ & _ & Hl & _).
  pose proof (proj1 (live_lookup _ _ _ (ok_nodup _ (ok_queue _ (proj1 Hw)))) Hl) as (Hin & _ & _).
  destruct (ok_queued _ (ok_queue _ (proj1 Hw)) next Hin) as (Ht & _ & Hid).
  eexists next, _. split; [reflexivity |]. split; [done | split; [done | split; [done |]]].
  destruct (kstep w) as [w' [[res |] | x]] eqn:Hs; [by left | right | by left].
  destruct (wp_run _ _ _ _ _ _ (run_step_spec (fun _ => 0) w Hw) Hs)
    as [Hw' (nx & k2 & _ & Hn2 & _ & Hd & _)].
  rewrite Hr in Hn2. injection Hn2 as <- <-. exists n, w'. split_and!; done.
Qed.

Lemma dispatch_log_ids fuel w e :
  ready w -> e ∈ klog fuel w ->
  now_ (k_sim (kernel_of w)) <= ev_timestamp e /\
  (live (k_sim (kernel_of w)) !! ev_id e = Some e \/
   frontier (event_ids_ (k_sim (kernel_of w))) <= ev_id e).
Proof.
  revert w. induction fuel as [fuel IH] using lt_wf_ind; intros w Hw He.
  destruct (dispatch_log_cases fuel w Hw) as [Hn | (next & rest & Hlog & Hl & Ht & Hid & Hrest)].
  { rewrite Hn in He. by apply elem_of_nil in He. }
  rewrite Hlog in He. apply elem_of_cons in He as [-> | He]; [by split; [| left] |].
  destruct Hrest as [-> | (n & w' & -> & -> & Hw' & (D1 & D2 & D3 & D4 & D5))];
    [by apply elem_of_nil in He |].
  destruct (IH n (Nat.lt_succ_diag_r n) w' Hw' He) as [Hts Hcase]. rewrite D2 in Hts.
  split; [lia |]. destruct Hcase as [Hlv | Hge]; [| right; lia].
  destruct (D4 _ _ Hlv) as [[? _] | ?]; [by left | by right].
Qed.

Lemma dispatch_log_sorted fuel w : ready w -> StronglySorted Z.le (ev_timestamp <$> klog fuel w).
Proof.
  revert w. induction fuel as [fuel IH] using lt_wf_ind; intros w Hw.
  destruct (dispatch_log_cases fuel w Hw) as [-> | (next & rest & -> & Hl & Ht & Hid & Hrest)];
    [constructor |].
  destruct Hrest as [-> | (n & w' & -> & -> & Hw' & (D1 & D2 & D3 & D4 & D5))];
    [by repeat constructor |].
  cbn. constructor; [apply IH; [lia | done] |]. apply Forall_fmap, Forall_forall. intros e He.
  destruct (dispatch_log_ids n w' e Hw' He) as [Hts _]. cbn. lia.
Qed.

Lemma dispatch_log_nodup fuel w : ready w -> NoDup (ev_id <$> klog fuel w).
Proof.
  revert w. induction fuel as [fuel IH] using lt_wf_ind; intros w Hw.
  destruct (dispatch_log_cases fuel w Hw) as [-> | (next & rest & -> & Hl & Ht & Hid & Hrest)];
    [constructor |].
  destruct Hrest as [-> | (n & w' & -> & -> & Hw' & (D1 & D2 & D3 & D4 & D5))];
    [apply NoDup_singleton |].
  cbn. apply NoDup_cons. split; [| apply IH; [lia | done]].
  intros (e & Heq & He)%list_elem_of_fmap.
  destruct (dispatch_log_ids n w' e Hw' He) as [_ [Hlv | Hge]]; [| lia].
  destruct (D4 _ _ Hlv) as [[_ Hne] | ?]; [by apply Hne | lia].
Qed.

(** C4: the run dispatches events in time order and each at most once.  For
    every dispatcher that uses the kernel through its context, the timestamps of
    the dispatched events never decrease, no identifier is dispatched twice, and
    every dispatched event was live when the run (or the part of it considered)
    began, or was scheduled later: a cancelled event is never dispatched. *)
Theorem dispatch_in_order fuel w :
  ready w ->
  let log := dispatch_log kernel_of with_kernel dispatcher fuel w in
  StronglySorted Z.le (ev_timestamp <$> log) /\ NoDup (ev_id <$> log) /\
  Forall (fun e => live (k_sim (kernel_of w)) !! ev_id e = Some e \/
                   frontier (event_ids_ (k_sim (kernel_of w))) <= ev_id e) log.
Proof.
  intros Hw log. split; [by apply dispatch_log_sorted | split; [by apply dispatch_log_nodup |]].
  apply Forall_forall. intros e He. by apply (dispatch_log_ids fuel w e Hw).
Qed.

(** ** Termination and the result *)

(** The program starts: nothing has run yet. *)
Definition startable (w : W) : Prop :=
  kernel_ok (kernel_of w) /\ lifecycle_ (k_sim (kernel_of w)) = Created /\
  current_event_ (k_sim (kernel_of w)) = None.

(** The result reports the run faithfully. *)
Record result_ok (k : Kernel T) (r : SimulationResult) : Prop := {
  res_kernel : kernel_ok k;
  res_finished : lifecycle_ (k_sim k) = Finished;
  res_books : exists d c, accounted (k_sim k) d c /\
    res_dispatched_events r = u64_wrap d /\ res_cancelled_events r = u64_wrap c;
  res_pending : res_pending_events r = pending_count (k_sim k);
  res_time : res_final_time r = now_ (k_sim k);
  res_status_ok :
    match res_status r with
    | SimulationStatus_Completed => live (k_sim k) = ∅ /\ res_error r = None
    | SimulationStatus_Stopped => is_Some (res_stop_reason r) /\ res_error r = None
    | SimulationStatus_Failed => is_Some (res_error r)
    end;
}.

Lemma finished_result k st err k' r :
  finished k st err k' r ->
  match st with
  | SimulationStatus_Completed => live (k_sim k) = ∅ /\ err = None
  | SimulationStatus_Stopped => is_Some (stop_reason_ (k_sim k)) /\ err = None
  | SimulationStatus_Failed => is_Some err
  end -> result_ok k' r.
Proof.
  intros (F1 & F2 & F3 & F4 & F5 & F6 & F7 & ->) Hst.
  destruct (ok_counts _ F1) as (d & c & Hacc). split; try done.
  - exists d, c. split; [done |]. destruct Hacc as (_ & _ & H3 & H4 & _). done.
  - destruct st; cbn; rewrite ?F2, ?F7; done.
Qed.

(** Fuel that covers the live events and the budget is enough for the loop. *)
Lemma run_loop_returns budget fuel w :
  schedules_within budget -> ready w ->
  Z.of_nat (size (live (k_sim (kernel_of w)))) + budget w < Z.of_nat fuel ->
  exists w' r, run_loop kernel_of with_kernel dispatcher fuel w = Some (w', r) /\
    kernel_ok (kernel_of w') /\ match r with Ret res => result_ok (kernel_of w') res | Throw _ => True end.
Proof.
  intros Hb. revert w. induction fuel as [| n IH]; intros w Hw Hf.
  { pose proof (budget_nonneg _ Hb w). lia. }
  cbn [run_loop]. pose proof (run_step_spec budget w Hw) as Hs. unfold wp in Hs.
  destruct (kstep w) as [w' [[res |] | e]]; [| | by eauto].
  - exists w', (Ret res). split; [done |].
    assert (result_ok (kernel_of w') res) as Hres
      by (destruct Hs as [[Hst Hfin] | (Hst & Hl & Hfin)]; by eapply finished_result).
    split; [by apply Hres | done].
  - destruct Hs as (Hw' & next & k1 & _ & _ & _ & (D1 & D2 & D3 & D4 & D5) & HB).
    specialize (HB Hb). apply IH; [done | lia].
Qed.

(** C5: every run ends and reports.  If the handlers of a dispatcher schedule at
    most [budget] events in total, a run of a fresh simulation returns (never
    throws) once the fuel exceeds the queued events plus the budget, and its
    result keeps the books: dispatched, cancelled and pending events add up to
    the identifiers issued, a completed run has no live event left, a stopped
    one has its reason and a failed one its error. *)
Theorem run_returns budget fuel w :
  schedules_within budget -> startable w ->
  Z.of_nat (size (live (k_sim (kernel_of w)))) + budget w < Z.of_nat fuel ->
  exists w' r, run kernel_of with_kernel dispatcher fuel w = Some (w', Ret r) /\
    result_ok (kernel_of w') r.
Proof.
  intros Hb (Hok & Hlc & Hcur) Hf.
  assert (forall e w1, kernel_ok (kernel_of w1) ->
    exists w' r, Some (on_kernel kernel_of with_kernel (fail (what e)) w1) = Some (w', Ret r) /\
      result_ok (kernel_of w') r) as Hfail.
  { intros e w1 Hok1. unfold on_kernel, zoom. pose proof (fail_spec (what e) _ Hok1) as Hx.
    unfold wp in Hx. destruct (fail (what e) (kernel_of w1)) as [k' [r | x]]; [| done].
    destruct Hx as [m Hx]. exists (with_kernel k' w1), r. split; [done |].
    rewrite kernel_of_with. eapply finished_result; [exact Hx | by eexists]. }
  unfold run. unfold on_kernel at 1, zoom at 1, begin_run, bind, gets, throw_if.
  rewrite Hlc. cbn [negb bool_decide]. rewrite bool_decide_eq_true_2 by done. cbn [negb ret].
  unfold modify_sim, modify. set (K := set_sim _ (kernel_of w)).
  assert (kernel_ok K /\ live (k_sim K) = live (k_sim (kernel_of w))) as [HK HlK].
  { apply kernel_ok_ext; auto. }
  unfold on_kernel at 1, zoom at 1. rewrite kernel_of_with.
  pose proof (quiet_op_emit SimulationTransition_RunStarted None None K) as Hq. unfold wp in Hq.
  destruct (emit_simulation_observation _ _ _ K) as [k1 [[] | e]].
  2: { apply Hfail. rewrite kernel_of_with. by eapply quiet_kernel_ok. }
  destruct (run_loop_returns budget fuel (with_kernel k1 (with_kernel K w))) as (w2 & r & -> & Hk2 & Hr).
  - done.
  - split; rewrite kernel_of_with; [by eapply quiet_kernel_ok |].
    destruct (quiet_frame _ _ Hq) as (_ & -> & _). done.
  - rewrite kernel_of_with, (quiet_live _ _ Hq), HlK, !(budget_kernel _ Hb). done.
  - destruct r as [r | e]; [eauto | by apply Hfail].
Qed.

End RunLaws.

(** ** A concrete program

    A ticker that schedules one event per dispatch while its counter lasts. *)

Definition ticker (p : EventPayload) : M (Kernel unit * nat) unit :=
  fun '(k, n) =>
    match n with
    | O => ((k, n), Ret tt)
    | S n' =>
        let '(k', r) := schedule (mkEventSpec (now k) Normal p) k in
        ((k', n'), match r with Ret _ => Ret tt | Throw e => Throw e end)
    end.

Definition put_kernel (k : Kernel unit) (w : Kernel unit * nat) : Kernel unit * nat := (k, snd w).

#[global] Instance ticker_lens : KernelLens fst put_kernel.
Proof. by split. Qed.

#[global] Instance ticker_context_only : ContextOnly fst ticker.
Proof.
  split. intros p [k [| n]] Hok; [by apply rtc_refl |]. unfold wp, ticker.
  assert (kernel_step k (fst (schedule (mkEventSpec (now k) Normal p) k))) as Hs.
  { apply step_schedule. exact (ok_now _ (ok_queue _ Hok)). }
  destruct (schedule _ k) as [k' [id | e]]; by apply rtc_once.
Qed.

Lemma ticker_budget : schedules_within fst put_kernel ticker (fun w => Z.of_nat (snd w)).
Proof.
  split; [intros [k n]; cbn; lia | done |].
  intros p [k [| n]] Hok; unfold wp, ticker; cbn [fst snd]; [lia |].
  pose proof (schedule_spec (mkEventSpec (now k) Normal p) k Hok
    (ok_now _ (ok_queue _ Hok))) as Hs. unfold wp in Hs.
  destruct (schedule _ k) as [k' [id | e]]; [| done].
  destruct Hs as (_ & _ & _ & (_ & _ & _ & _ & _ & Hf)). cbn in *. rewrite Hf. lia.
Qed.

Definition ticker_start : Kernel unit * nat := (demo_kernel, 3%nat).

Lemma ticker_startable : startable fst ticker_start.
Proof. split; [apply demo_kernel_ok | done]. Qed.

Lemma dispatch_in_order_witness :
  StronglySorted Z.le (ev_timestamp <$> dispatch_log fst put_kernel ticker 5 ticker_start) /\
  (ev_id <$> dispatch_log fst put_kernel ticker 5 ticker_start) = [0; 1; 2; 3].
Proof.
  split; [| vm_compute; reflexivity].
  apply (dispatch_in_order fst put_kernel ticker 5 ticker_start).
  split; [apply demo_kernel_ok | reflexivity].
Defined.

Lemma run_returns_witness :
  exists w' r, run fst put_kernel ticker 5 ticker_start = Some (w', Ret r) /\
    result_ok (fst w') r /\ res_dispatched_events r = 4.
Proof.
  destruct (run_returns fst put_kernel ticker _ 5 ticker_start ticker_budget ticker_startable)
    as (w' & r & Hr & Hok).
  - vm_compute. reflexivity.
  - exists w', r. split; [exact Hr | split; [exact Hok |]].
    assert (match run fst put_kernel ticker 5 ticker_start with
            | Some (_, Ret r0) => res_dispatched_events r0 = 4 | _ => False end) as Hx
      by (vm_compute; reflexivity).
    rewrite Hr in Hx. exact Hx.
Defined.
