(* ===== verification/SimContext.v ===== *)
(** * The context interface

    What event handlers see of the simulation: [SimulationContext] of
    [sim/simulation.{hpp,cpp}] together with the telemetry sink the components
    hold.  Components are proved against this interface; [Kernel] implements
    it. *)

From S2P Require Import Prelude SimTime Rng Entities TelemetryRecords EventQueue Trace.
From S2P Require Import Simulation SimulationLaws.

Class SimContext (C : Type) : Type := {
  ctx_now : C -> SimTimeNs;
  ctx_current_event_id : C -> outcome EventId;
  ctx_cause : C -> outcome (option EventId);
  ctx_schedule : EventSpec -> M C EventId;
  ctx_cancel : EventId -> M C bool;
  ctx_stop : StopReason -> M C unit;
  ctx_sink_enabled : TelemetrySink -> C -> bool;
  ctx_sink_record : TelemetrySink -> SimTimeNs -> Correlation -> TelemetryObservation -> M C unit;
}.

(** The promises: the abstract state is the clock and the map of live events;
    scheduling inserts an identifier that was never issued, cancelling deletes,
    recording is invisible. *)
Class SimContextLaws (C : Type) `{SimContext C} : Type := {
  ctx_ok : C -> Prop;
  ctx_live : C -> gmap Z Event;
  ctx_issued : C -> EventId -> Prop;
  ctx_evolves : relation C;
  ctx_evolves_preorder :: PreOrder ctx_evolves;
  ctx_evolves_ok c c' : ctx_evolves c c' -> ctx_ok c -> ctx_ok c';
  ctx_evolves_now c c' : ctx_evolves c c' -> ctx_ok c -> ctx_now c' = ctx_now c;
  ctx_evolves_current c c' : ctx_evolves c c' -> ctx_ok c ->
    ctx_current_event_id c' = ctx_current_event_id c;
  ctx_evolves_issued c c' id : ctx_evolves c c' -> ctx_ok c -> ctx_issued c id -> ctx_issued c' id;
  ctx_evolves_live c c' id e : ctx_evolves c c' -> ctx_ok c -> ctx_issued c id ->
    ctx_live c' !! id = Some e -> ctx_live c !! id = Some e;
  ctx_now_u64 c : ctx_ok c -> u64 (ctx_now c);
  ctx_live_future c id e : ctx_ok c -> ctx_live c !! id = Some e ->
    ctx_now c <= ev_timestamp e /\ u64 (ev_timestamp e);
  ctx_schedule_law spec c : ctx_ok c -> u64 (spec_timestamp spec) ->
    wp (ctx_schedule spec)
      (fun c' id => ctx_evolves c c' /\ ctx_live c !! id = None /\
         exists e, ctx_live c' = <[id := e]> (ctx_live c) /\
           ev_timestamp e = spec_timestamp spec /\ ev_payload e = spec_payload spec /\
           ctx_now c <= spec_timestamp spec)
      (fun c' _ => ctx_evolves c c' /\ ctx_live c ⊆ ctx_live c') c;
  ctx_schedule_fresh spec c : ctx_ok c -> u64 (spec_timestamp spec) ->
    wp (ctx_schedule spec) (fun c' id => ~ ctx_issued c id /\ ctx_issued c' id) (fun _ _ => True) c;
  ctx_cancel_law id c : ctx_ok c ->
    wp (ctx_cancel id)
      (fun c' r => ctx_evolves c c' /\
         (r = true -> ctx_live c' = delete id (ctx_live c)) /\ (r = false -> c' = c))
      (fun c' _ => ctx_evolves c c' /\ ctx_live c' = delete id (ctx_live c)) c;
  ctx_record_law sink ts corr obs c : ctx_ok c ->
    wp (ctx_sink_record sink ts corr obs)
      (fun c' _ => ctx_evolves c c' /\ ctx_live c' = ctx_live c)
      (fun c' _ => ctx_evolves c c' /\ ctx_live c' = ctx_live c) c;
}.

#[global] Instance kernel_context {T} `{TelemetrySession T} : SimContext (Kernel T) := {
  ctx_now := now;
  ctx_current_event_id := current_event_id;
  ctx_cause := current_cause;
  ctx_schedule := schedule;
  ctx_cancel := cancel;
  ctx_stop := stop;
  ctx_sink_enabled := fun sink k => sink_enabled sink (k_session k);
  ctx_sink_record := sink_write;
}.

Lemma step_fst {T} `{TelemetrySessionLaws T} {A} (m : M (Kernel T) A) k :
  kernel_step k (fst (m k)) -> forall (Q : Kernel T -> A -> Prop) E,
  wp m Q E k ->
  wp m (fun k' a => evolves k k' /\ Q k' a) (fun k' e => evolves k k' /\ E k' e) k.
Proof.
  intros Hs Q E. unfold wp. destruct (m k) as [k' [a | e]]; intros HQ;
    (split; [by apply rtc_once | done]).
Qed.

#[global] Program Instance kernel_context_laws {T} `{TelemetrySessionLaws T} :
    SimContextLaws (Kernel T) := {
  ctx_ok := kernel_ok;
  ctx_live := fun k => live (k_sim k);
  ctx_issued := fun k id => id < frontier (event_ids_ (k_sim k));
  ctx_evolves := evolves;
}.
Next Obligation. intros T ?? k k' He Hok. by apply (evolves_evolved k k'). Qed.
Next Obligation.
  intros T ?? k k' He Hok. destruct (evolves_evolved k k' Hok He) as [_ Hev].
  apply (ev_frame _ _ Hev).
Qed.
Next Obligation.
  intros T ?? k k' He Hok. destruct (evolves_evolved k k' Hok He) as [_ Hev].
  destruct (ev_frame _ _ Hev) as (_ & Hc & _). cbn. unfold current_event_id. by rewrite Hc.
Qed.
Next Obligation.
  intros T ?? k k' id He Hok. destruct (evolves_evolved k k' Hok He) as [_ Hev]. pose proof (ev_frontier _ _ Hev).
  cbn. lia.
Qed.
Next Obligation.
  intros T ?? k k' id e He Hok Hi Hl. destruct (evolves_evolved k k' Hok He) as [_ Hev]. cbn in Hi.
  destruct (ev_live _ _ Hev id e Hl); [done | lia].
Qed.
Next Obligation. intros T ?? k Hok. exact (ok_now _ (ok_queue _ Hok)). Qed.
Next Obligation.
  intros T ?? k id e Hok Hl. pose proof (ok_queue _ Hok) as Hq.
  apply live_lookup in Hl as (Hin & _); [| apply Hq].
  destruct (ok_queued _ Hq e Hin) as (? & ? & _). done.
Qed.
Next Obligation.
  intros T ?? spec k Hok Hts. eapply wp_conseq; [apply step_fst; [by constructor | by apply schedule_spec] | |]; simpl.
  - intros k' id (He & -> & _ & Hn & (H1 & H2 & H3 & H4 & H5 & H6)). split; [done | split; [done |]].
    eexists. split; [exact H5 | done].
  - intros k' e [He [-> | (H1 & H2 & H3 & H4 & H5 & H6)]]; (split; [done |]); [done |].
    rewrite H5. by apply insert_subseteq.
Qed.
Next Obligation.
  intros T ?? spec k Hok Hts. eapply wp_conseq; [by apply schedule_spec | | done]. cbn.
  intros k' id (-> & _ & _ & (_ & _ & _ & _ & _ & Hf)). cbn in Hf. lia.
Qed.
Next Obligation.
  intros T ?? id k Hok. eapply wp_conseq; [apply step_fst; [by constructor | by apply cancel_spec] | |]; simpl.
  - intros k' [] [He Hc]; (split; [done | split; [intros Hr | intros Hr]]); try done.
    + by destruct Hc as (_ & _ & _ & _ & _ & Hc).
    + by destruct Hc as [Hc _].
  - intros k' e [He Hc]. split; [done |]. by destruct Hc as (_ & _ & _ & _ & _ & Hc).
Qed.
Next Obligation.
  intros T ?? sink ts corr obs k Hok.
  eapply wp_conseq; [apply step_fst; [by constructor | apply sink_write_quiet] | |]; simpl;
    intros k' ? [He Hq]; (split; [done | by apply quiet_live]).
Qed.
