(* ===== verification/Timing.v ===== *)
(** * Serialization time

    Models [transport/timing.cpp]: the time a serializer is busy with a chunk,
    computed with 64-bit words only.  [multiply_fraction] is the long
    multiplication and division that replaces a 128-bit product. *)

From S2P Require Import Prelude SimTime Entities.

Definition bit_nanoseconds_per_byte : Z := 8000000000.

Record DivisionResult : Type := mkDivisionResult { quotient : Z; remainder : Z }.

Record FractionProduct : Type := mkFractionProduct {
  fp_numerator : Z;
  fp_multiplier : Z;
  fp_denominator : Z;
}.

(** The loop body for the bit of index [bit]. *)
Definition multiply_fraction_step (product : FractionProduct) (bit : Z) (acc : DivisionResult)
    : DivisionResult :=
  let q := u64_wrap (quotient acc * 2) in
  let r := remainder acc in
  let acc :=
    if r >=? u64_wrap (fp_denominator product - r)
    then mkDivisionResult (u64_wrap (q + 1)) (u64_wrap (r - u64_wrap (fp_denominator product - r)))
    else mkDivisionResult q (u64_wrap (r * 2)) in
  if Z.land (Z.shiftr (fp_multiplier product) bit) 1 =? 0 then acc else
  let gap := u64_wrap (fp_denominator product - fp_numerator product) in
  if remainder acc >=? gap
  then mkDivisionResult (u64_wrap (quotient acc + 1)) (u64_wrap (remainder acc - gap))
  else mkDivisionResult (quotient acc) (u64_wrap (remainder acc + fp_numerator product)).

(** [for (int bit = count - 1; bit >= 0; --bit)]. *)
Fixpoint multiply_fraction_loop (count : nat) (product : FractionProduct) (acc : DivisionResult)
    : DivisionResult :=
  match count with
  | O => acc
  | S n => multiply_fraction_loop n product (multiply_fraction_step product (Z.of_nat n) acc)
  end.

Definition multiply_fraction (product : FractionProduct) : DivisionResult :=
  multiply_fraction_loop 64 product (mkDivisionResult 0 0).

Definition serialization_delay (byte_count bits_per_second : Z) : option SimDurationNs :=
  if (byte_count =? 0) || (bits_per_second =? 0) then None else
  let whole_seconds := byte_count / bits_per_second in
  let fractional_bytes := byte_count mod bits_per_second in
  if whole_seconds >? u64_max / bit_nanoseconds_per_byte then None else
  let nanoseconds := u64_wrap (whole_seconds * bit_nanoseconds_per_byte) in
  let fractional := multiply_fraction
    (mkFractionProduct fractional_bytes bit_nanoseconds_per_byte bits_per_second) in
  if quotient fractional >? u64_max - nanoseconds then None else
  let nanoseconds := u64_wrap (nanoseconds + quotient fractional) in
  if negb (remainder fractional =? 0)
  then if nanoseconds =? u64_max then None else Some (u64_wrap (nanoseconds + 1))
  else Some nanoseconds.

(** ** Correctness of the long multiplication *)

Lemma shiftr_step m n :
  0 <= n -> 0 <= m ->
  Z.shiftr m n = 2 * Z.shiftr m (n + 1) + Z.land (Z.shiftr m n) 1.
Proof.
  intros Hn Hm. change 1 with (Z.ones 1) at 2. rewrite Z.land_ones by lia.
  rewrite <- (Z.shiftr_shiftr m n 1) by lia. rewrite (Z.shiftr_div_pow2 (Z.shiftr m n)) by lia.
  change (2 ^ 1) with 2. pose proof (Z.div_mod (Z.shiftr m n) 2). lia.
Qed.

(** Invariant of the loop: the bits of the multiplier read so far, times the
    numerator, equal quotient times denominator plus remainder. *)
Definition fraction_inv (product : FractionProduct) (prefix : Z) (acc : DivisionResult) : Prop :=
  0 <= remainder acc < fp_denominator product /\ 0 <= quotient acc <= prefix /\
  fp_numerator product * prefix = quotient acc * fp_denominator product + remainder acc.

Section Fraction.
Context (product : FractionProduct).
Context (Hnum : 0 <= fp_numerator product < fp_denominator product).
Context (Hden : u64 (fp_denominator product)) (Hmul : u64 (fp_multiplier product)).

Lemma multiply_fraction_step_inv n acc :
  0 <= n ->
  fraction_inv product (Z.shiftr (fp_multiplier product) (n + 1)) acc ->
  fraction_inv product (Z.shiftr (fp_multiplier product) n) (multiply_fraction_step product n acc).
Proof.
  intros Hn (Hr & Hq & Heq).
  pose proof (shiftr_step (fp_multiplier product) n Hn ltac:(word_lia)) as Hs.
  pose proof (u64_shiftr (fp_multiplier product) n Hmul Hn) as Hu.
  assert (Z.land (Z.shiftr (fp_multiplier product) n) 1 = 0 \/
          Z.land (Z.shiftr (fp_multiplier product) n) 1 = 1) as Hbit.
  { generalize (Z.shiftr (fp_multiplier product) n). intros x.
    pose proof (Z.land_ones x 1 ltac:(lia)) as Hl. change (Z.ones 1) with 1 in Hl. rewrite Hl.
    change (2 ^ 1) with 2.
    pose proof (Z.mod_pos_bound x 2 ltac:(lia)). lia. }
  unfold multiply_fraction_step.
  set (p := Z.shiftr (fp_multiplier product) (n + 1)) in *.
  set (p' := Z.shiftr (fp_multiplier product) n) in *.
  set (b := Z.land p' 1) in *. clearbody p p' b.
  rewrite (u64_wrap_id (quotient acc * 2)) by word_lia.
  rewrite (u64_wrap_id (fp_denominator product - remainder acc)) by word_lia.
  set (mid := if remainder acc >=? _ then _ else _).
  assert (fraction_inv product (2 * p) mid) as (Hr1 & Hq1 & Heq1).
  { unfold mid, fraction_inv. destruct (remainder acc >=? _) eqn:Hc; cbn [quotient remainder].
    - assert (quotient acc < p) as Hlt by nia.
      rewrite !u64_wrap_id by word_lia. nia.
    - rewrite !u64_wrap_id by word_lia. nia. }
  clearbody mid. unfold fraction_inv. rewrite Hs.
  destruct Hbit as [-> | ->];
    [change (0 =? 0) with true | change (1 =? 0) with false]; cbv iota; [by rewrite !Z.add_0_r |].
  rewrite (u64_wrap_id (fp_denominator product - fp_numerator product)) by word_lia.
  destruct (remainder mid >=? _) eqn:Hc; cbn [quotient remainder].
  - rewrite !u64_wrap_id by word_lia. nia.
  - rewrite !u64_wrap_id by word_lia. nia.
Qed.

Lemma multiply_fraction_loop_inv count acc :
  fraction_inv product (Z.shiftr (fp_multiplier product) (Z.of_nat count)) acc ->
  fraction_inv product (fp_multiplier product) (multiply_fraction_loop count product acc).
Proof.
  revert acc. induction count as [| n IH]; intros acc Hinv; cbn [multiply_fraction_loop].
  - by rewrite Z.shiftr_0_r in Hinv.
  - apply IH, multiply_fraction_step_inv; [lia |]. by rewrite Nat2Z.inj_succ in Hinv.
Qed.

(** The long multiplication is exact division with remainder. *)
Lemma multiply_fraction_exact :
  quotient (multiply_fraction product) =
    fp_numerator product * fp_multiplier product / fp_denominator product /\
  remainder (multiply_fraction product) =
    (fp_numerator product * fp_multiplier product) mod fp_denominator product.
Proof.
  assert (fraction_inv product (fp_multiplier product) (multiply_fraction product)) as (Hr & Hq & Heq).
  { apply multiply_fraction_loop_inv. rewrite Z.shiftr_div_pow2 by lia.
    rewrite Z.div_small by word_lia. split; cbn; lia. }
  split; [apply Z.div_unique_pos with (remainder (multiply_fraction product)) |
          apply Z.mod_unique_pos with (quotient (multiply_fraction product))]; lia.
Qed.
End Fraction.

(** The mathematical serialization time, rounded up to a nanosecond. *)
Definition exact_delay (byte_count bits_per_second : Z) : Z :=
  (byte_count * bit_nanoseconds_per_byte + bits_per_second - 1) / bits_per_second.

Lemma exact_delay_split b w q r :
  0 < w -> b * bit_nanoseconds_per_byte = q * w + r -> 0 <= r < w ->
  exact_delay b w = if r =? 0 then q else q + 1.
Proof.
  intros Hw Heq Hr. unfold exact_delay. rewrite Heq. destruct (r =? 0) eqn:H0.
  - symmetry. apply Z.div_unique_pos with (w - 1); lia.
  - symmetry. apply Z.div_unique_pos with (r - 1); lia.
Qed.

Lemma serialization_delay_eq b w :
  u64 b -> u64 w ->
  serialization_delay b w =
    if decide (b = 0 \/ w = 0 \/ u64_max < exact_delay b w)
    then None else Some (exact_delay b w).
Proof.
  intros Hb Hw. unfold serialization_delay.
  destruct (b =? 0) eqn:Hb0; [rewrite decide_True by lia; done |].
  destruct (w =? 0) eqn:Hw0; [rewrite decide_True by lia; done |]. cbn [orb].
  pose proof (Z.div_mod b w ltac:(lia)) as Hdm. pose proof (Z.mod_pos_bound b w ltac:(word_lia)) as Hm.
  assert (0 <= b / w) as Hws by (apply Z.div_pos; word_lia).
  set (ws := b / w) in *. set (fb := b mod w) in *. clearbody ws fb.
  set (P := mkFractionProduct fb bit_nanoseconds_per_byte w).
  destruct (multiply_fraction_exact P) as [Hq Hr]; [exact Hm | exact Hw | unfold P, bit_nanoseconds_per_byte; cbn; word_lia |].
  cbn [P fp_numerator fp_multiplier fp_denominator] in Hq, Hr.
  pose proof (Z.div_mod (fb * bit_nanoseconds_per_byte) w ltac:(lia)) as Hdm2.
  pose proof (Z.mod_pos_bound (fb * bit_nanoseconds_per_byte) w ltac:(word_lia)) as Hm2.
  rewrite <- Hq, <- Hr in Hdm2. rewrite <- Hr in Hm2.
  set (q := quotient _) in *. set (r := remainder _) in *. clearbody q r. clear Hq Hr P.
  assert (exact_delay b w = if r =? 0 then ws * bit_nanoseconds_per_byte + q
                            else ws * bit_nanoseconds_per_byte + q + 1) as ->.
  { apply exact_delay_split; [word_lia | | done]. rewrite Hdm. nia. }
  assert (0 <= q) as Hq by (unfold bit_nanoseconds_per_byte in *; nia).
  clear Hdm Hdm2 Hm2 Hm.
  change (u64_max / bit_nanoseconds_per_byte) with 2305843009. unfold bit_nanoseconds_per_byte, u64_max in *.
  destruct (ws >? 2305843009) eqn:H1; [rewrite decide_True; [done |]; destruct (r =? 0); lia |].
  rewrite (u64_wrap_id (ws * _)) by word_lia.
  destruct (q >? _) eqn:H2; [rewrite decide_True; [done |]; destruct (r =? 0); lia |].
  rewrite (u64_wrap_id (_ + q)) by word_lia.
  destruct (r =? 0) eqn:H3; cbn [negb].
  - rewrite decide_False by lia. done.
  - destruct (ws * _ + q =? _) eqn:H4; [rewrite decide_True by lia; done |].
    rewrite decide_False by lia. rewrite u64_wrap_id by word_lia. done.
Qed.

Lemma serialization_delay_u64 b w d :
  u64 b -> u64 w -> serialization_delay b w = Some d -> u64 d.
Proof.
  intros Hb Hw Hd. rewrite serialization_delay_eq in Hd by done. case_decide as Hc; [done |].
  injection Hd as <-. unfold u64. split; [| lia]. unfold exact_delay. apply Z.div_pos; [| word_lia].
  unfold bit_nanoseconds_per_byte. word_lia.
Qed.

(** C40: [serialization_delay] computes the exact time for every 64-bit size and
    bandwidth: the number of nanoseconds to put the bytes on the wire, rounded
    up, without a 128-bit product; it answers nothing exactly for an empty
    chunk, a zero bandwidth or a time beyond the 64-bit clock. *)
Theorem serialization_delay_exact b w :
  u64 b -> u64 w ->
  serialization_delay b w =
    if decide (b = 0 \/ w = 0 \/ u64_max < exact_delay b w)
    then None else Some (exact_delay b w).
Proof. apply serialization_delay_eq. Qed.

Lemma serialization_delay_exact_witness :
  serialization_delay 1500 100000000000 = Some 120 /\ serialization_delay u64_max 1 = None.
Proof.
  split; [| reflexivity].
  rewrite (serialization_delay_exact 1500 100000000000) by word_lia. reflexivity.
Defined.
