(* ===== verification/LinkQueue.v ===== *)
(** * The queue of a directed link

    Models [transport/link_queue.{hpp,cpp}]: one chunk in service, a bounded
    waiting buffer behind it, congestion marking on admission. *)

From S2P Require Import Prelude SimTime Entities.

Record DirectedLinkConfiguration : Type := mkDirectedLinkConfiguration {
  cfg_link : DirectedLinkId;
  cfg_bandwidth : BitsPerSecond;
  cfg_propagation_delay : SimDurationNs;
  cfg_waiting_buffer_capacity : ByteCount;
  cfg_marking_threshold : option ByteCount;
}.

Record TransferChunk : Type := mkTransferChunk {
  chunk_transfer : TransferId;
  chunk_id : ChunkId;
  chunk_bytes : ByteCount;
  chunk_hop_index : Z;
  chunk_marked : bool;
}.

#[global] Instance TransferChunk_eq_dec : EqDecision TransferChunk.
Proof. solve_decision. Defined.

Inductive AdmissionDisposition : Type := ServiceStarted | Queued | DroppedBufferFull.

Record AdmissionResult : Type := mkAdmissionResult {
  adm_disposition : AdmissionDisposition;
  adm_marked_here : bool;
}.

Record ServiceTransition : Type := mkServiceTransition {
  st_completed : TransferChunk;
  st_next_started : option TransferChunk;
}.

Record QueueSnapshot : Type := mkQueueSnapshot {
  snap_waiting_bytes : ByteCount;
  snap_waiting_chunks : Z;
  snap_maximum_waiting_bytes : ByteCount;
  snap_maximum_waiting_chunks : Z;
  snap_busy : bool;
}.

Record QueueDrain : Type := mkQueueDrain {
  drain_active : option TransferChunk;
  drain_waiting : list TransferChunk;
}.

Record DirectedLinkQueue : Type := mkDirectedLinkQueue {
  configuration_ : DirectedLinkConfiguration;
  active_ : option TransferChunk;
  waiting_ : list TransferChunk;
  waiting_bytes_ : Z;
  maximum_waiting_bytes_ : Z;
  maximum_waiting_chunks_ : Z;
}.

(** Both enumerators of the direction are valid, so only the numeric checks
    can fail. *)
Definition validate_configuration (configuration : DirectedLinkConfiguration) : outcome unit :=
  if cfg_bandwidth configuration =? 0
  then Throw (invalid_argument "directed-link bandwidth must be nonzero") else
  match cfg_marking_threshold configuration with
  | None => Ret tt
  | Some threshold =>
      if threshold =? 0
      then Throw (invalid_argument "marking threshold must be nonzero when enabled")
      else if threshold >? cfg_waiting_buffer_capacity configuration
      then Throw (invalid_argument "marking threshold exceeds waiting-buffer capacity")
      else Ret tt
  end.

Definition new_link_queue (configuration : DirectedLinkConfiguration) : outcome DirectedLinkQueue :=
  match validate_configuration configuration with
  | Ret _ => Ret (mkDirectedLinkQueue configuration None [] 0 0 0)
  | Throw e => Throw e
  end.

Definition next_waiting (q : DirectedLinkQueue) : option TransferChunk := head (waiting_ q).

Definition snapshot (q : DirectedLinkQueue) : QueueSnapshot :=
  mkQueueSnapshot (waiting_bytes_ q) (zlength (waiting_ q)) (maximum_waiting_bytes_ q)
    (maximum_waiting_chunks_ q) (bool_decide (is_Some (active_ q))).

(** Whether a chunk that brings the buffer to [bytes] is marked here. *)
Definition marks (configuration : DirectedLinkConfiguration) (bytes : Z) : bool :=
  match cfg_marking_threshold configuration with
  | Some threshold => bytes >=? threshold
  | None => false
  end.

Definition queue_admit (chunk : TransferChunk) : M DirectedLinkQueue AdmissionResult :=
  do! throw_if (chunk_bytes chunk =? 0)
        (invalid_argument "transfer chunk must contain nonzero bytes") in
  let! q := gets (fun q => q) in
  match active_ q with
  | None =>
      do! modify (fun q => {| q with active_ := Some chunk |}) in
      ret (mkAdmissionResult ServiceStarted false)
  | Some _ =>
      let capacity := cfg_waiting_buffer_capacity (configuration_ q) in
      if chunk_bytes chunk >? u64_wrap (capacity - waiting_bytes_ q)
      then ret (mkAdmissionResult DroppedBufferFull false)
      else
        let admitted_waiting_bytes := u64_wrap (waiting_bytes_ q + chunk_bytes chunk) in
        let marked_here := marks (configuration_ q) admitted_waiting_bytes in
        let chunk := {| chunk with chunk_marked := chunk_marked chunk || marked_here |} in
        let waiting := waiting_ q ++ [chunk] in
        do! modify (fun q => {| q with
              waiting_ := waiting;
              waiting_bytes_ := admitted_waiting_bytes;
              maximum_waiting_bytes_ := Z.max (maximum_waiting_bytes_ q) admitted_waiting_bytes;
              maximum_waiting_chunks_ := Z.max (maximum_waiting_chunks_ q) (zlength waiting) |}) in
        ret (mkAdmissionResult Queued marked_here)
  end.

Definition complete_service (q : DirectedLinkQueue) : DirectedLinkQueue * option ServiceTransition :=
  match active_ q with
  | None => (q, None)
  | Some completed =>
      match waiting_ q with
      | [] => ({| q with active_ := None |}, Some (mkServiceTransition completed None))
      | next :: rest =>
          ({| q with active_ := Some next; waiting_ := rest;
                     waiting_bytes_ := u64_wrap (waiting_bytes_ q - chunk_bytes next) |},
           Some (mkServiceTransition completed (Some next)))
      end
  end.

Definition drain (q : DirectedLinkQueue) : DirectedLinkQueue * QueueDrain :=
  ({| q with active_ := None; waiting_ := []; waiting_bytes_ := 0 |},
   mkQueueDrain (active_ q) (waiting_ q)).

(** ** Invariant *)

Definition waiting_total (l : list TransferChunk) : Z := sumZ (chunk_bytes <$> l).

Definition chunk_ok (c : TransferChunk) : Prop := 0 < chunk_bytes c /\ u64 (chunk_bytes c).

Definition configuration_ok (c : DirectedLinkConfiguration) : Prop :=
  0 < cfg_bandwidth c /\ u64 (cfg_bandwidth c) /\ u64 (cfg_propagation_delay c) /\
  u64 (cfg_waiting_buffer_capacity c) /\
  (forall t, cfg_marking_threshold c = Some t -> 0 < t <= cfg_waiting_buffer_capacity c).

(** The chunks in the order they will be served. *)
Definition contents (q : DirectedLinkQueue) : list TransferChunk :=
  option_list (active_ q) ++ waiting_ q.

Record link_queue_ok (q : DirectedLinkQueue) : Prop := {
  lq_configuration : configuration_ok (configuration_ q);
  lq_bytes : waiting_bytes_ q = waiting_total (waiting_ q);
  lq_capacity : waiting_bytes_ q <= cfg_waiting_buffer_capacity (configuration_ q);
  lq_work_conserving : active_ q = None -> waiting_ q = [];
  lq_chunks : Forall chunk_ok (contents q);
  lq_peak_bytes : waiting_bytes_ q <= maximum_waiting_bytes_ q <=
    cfg_waiting_buffer_capacity (configuration_ q);
  lq_peak_chunks : zlength (waiting_ q) <= maximum_waiting_chunks_ q;
}.

(** Reads through record updates of the queue. *)
Ltac queue_cbn := cbn [configuration_ active_ waiting_ waiting_bytes_ maximum_waiting_bytes_
  maximum_waiting_chunks_ fst snd].

Lemma waiting_total_nonneg l : Forall chunk_ok l -> 0 <= waiting_total l.
Proof.
  intros H. apply sumZ_nonneg. apply Forall_fmap. eapply Forall_impl; [exact H |].
  intros c [Hc _]. simpl. lia.
Qed.

Lemma waiting_total_snoc l c : waiting_total (l ++ [c]) = waiting_total l + chunk_bytes c.
Proof. unfold waiting_total. rewrite fmap_app, sumZ_app. simpl. lia. Qed.

Lemma lq_waiting_ok q : link_queue_ok q -> Forall chunk_ok (waiting_ q).
Proof. intros Hq. pose proof (lq_chunks _ Hq) as H. unfold contents in H. by apply Forall_app in H as [_ H]. Qed.

Lemma lq_bytes_nonneg q : link_queue_ok q -> 0 <= waiting_bytes_ q.
Proof.
  intros Hq. rewrite (lq_bytes _ Hq). apply waiting_total_nonneg. by apply lq_waiting_ok.
Qed.

Lemma new_link_queue_ok configuration q :
  u64 (cfg_bandwidth configuration) -> u64 (cfg_propagation_delay configuration) ->
  u64 (cfg_waiting_buffer_capacity configuration) ->
  (forall t, cfg_marking_threshold configuration = Some t -> u64 t) ->
  new_link_queue configuration = Ret q ->
  link_queue_ok q /\ configuration_ q = configuration /\ contents q = [].
Proof.
  intros Hb Hp Hc Ht. unfold new_link_queue, validate_configuration.
  destruct (cfg_bandwidth configuration =? 0) eqn:Hz; [done |].
  intros Hn. assert (configuration_ok configuration) as Hok.
  { split_and!; try done; [unfold u64 in *; lia |]. intros t Hth. specialize (Ht t Hth).
    rewrite Hth in Hn. destruct (t =? 0) eqn:H0; [done |]. destruct (t >? _) eqn:H1; [done |].
    unfold u64 in *. lia. }
  assert (q = mkDirectedLinkQueue configuration None [] 0 0 0) as ->.
  { destruct (cfg_marking_threshold configuration) as [t |]; [| by simplify_eq].
    destruct (t =? 0); [done |]. by destruct (t >? _); simplify_eq. }
  split; [| done]. split; cbn; try done; try (unfold configuration_ok, u64 in *; lia).
Qed.

(** The chunk as it is stored when it has to wait. *)
Definition stored (q : DirectedLinkQueue) (chunk : TransferChunk) : TransferChunk :=
  {| chunk with chunk_marked := chunk_marked chunk ||
       marks (configuration_ q) (waiting_bytes_ q + chunk_bytes chunk) |}.

(** Whether an arriving chunk fits. *)
Definition fits (q : DirectedLinkQueue) (chunk : TransferChunk) : bool :=
  waiting_bytes_ q + chunk_bytes chunk <=? cfg_waiting_buffer_capacity (configuration_ q).

(** The result and the queue after [admit], without machine arithmetic. *)
Lemma queue_admit_spec chunk q :
  link_queue_ok q -> chunk_ok chunk ->
  exists q' r, queue_admit chunk q = (q', Ret r) /\ link_queue_ok q' /\
    configuration_ q' = configuration_ q /\
    match active_ q with
    | None => r = mkAdmissionResult ServiceStarted false /\
        q' = {| q with active_ := Some chunk |} /\ contents q' = [chunk]
    | Some a =>
        if fits q chunk
        then r = mkAdmissionResult Queued
               (marks (configuration_ q) (waiting_bytes_ q + chunk_bytes chunk)) /\
             active_ q' = Some a /\ waiting_ q' = waiting_ q ++ [stored q chunk] /\
             maximum_waiting_bytes_ q' =
               Z.max (maximum_waiting_bytes_ q) (waiting_bytes_ q + chunk_bytes chunk)
        else r = mkAdmissionResult DroppedBufferFull false /\ q' = q
    end.
Proof.
  intros Hq [Hpos Hu]. unfold queue_admit, bind, throw_if, gets, modify, ret.
  replace (chunk_bytes chunk =? 0) with false by lia.
  pose proof Hq as [Hcfg Hb Hcap Hwc Hch Hpk Hpc]. pose proof (lq_bytes_nonneg _ Hq) as Hnn.
  destruct (active_ q) as [a |] eqn:Ha.
  - assert (u64 (cfg_waiting_buffer_capacity (configuration_ q))) as Hcu by apply Hcfg.
    rewrite (u64_wrap_id (_ - _)) by (unfold u64 in *; lia). unfold fits.
    destruct (chunk_bytes chunk >? _) eqn:Hd.
    + exists q, (mkAdmissionResult DroppedBufferFull false).
      replace (_ <=? _) with false by lia. done.
    + replace (_ <=? _) with true by lia.
      rewrite (u64_wrap_id (_ + _)) by (unfold u64 in *; lia).
      eexists _, _. split; [reflexivity |]. split; [| done].
      split; queue_cbn; try done.
      * rewrite Hb. rewrite waiting_total_snoc. done.
      * lia.
      * by rewrite Ha.
      * unfold contents in *. cbn. rewrite Ha in *. cbn in *. apply Forall_cons in Hch as [? ?].
        constructor; [done |]. apply Forall_app. split; [done |]. by apply Forall_singleton.
      * lia.
      * lia.
  - specialize (Hwc eq_refl). eexists _, _. split; [reflexivity |]. split; [| split; [done |]].
    + split; cbn; try done. unfold contents. cbn. rewrite Hwc. by apply Forall_singleton.
    + split_and!; try done. unfold contents. cbn. by rewrite Hwc.
Qed.

Lemma complete_service_spec q :
  link_queue_ok q ->
  link_queue_ok (fst (complete_service q)) /\
  configuration_ (fst (complete_service q)) = configuration_ q /\
  maximum_waiting_bytes_ (fst (complete_service q)) = maximum_waiting_bytes_ q /\
  match snd (complete_service q) with
  | None => contents q = [] /\ fst (complete_service q) = q
  | Some t => contents q = st_completed t :: contents (fst (complete_service q)) /\
      active_ q = Some (st_completed t) /\ st_next_started t = active_ (fst (complete_service q)) /\
      st_next_started t = next_waiting q
  end.
Proof.
  intros Hq. pose proof Hq as [Hcfg Hb Hcap Hwc Hch Hpk Hpc]. pose proof (lq_bytes_nonneg _ Hq) as Hnn.
  unfold complete_service, contents, next_waiting in *. destruct (active_ q) as [a |] eqn:Ha.
  2: { cbn. rewrite Hwc by done. done. }
  destruct (waiting_ q) as [| c rest] eqn:Hw; cbn [fst snd active_ waiting_ option_list app] in *.
  - split_and!; done.
  - apply Forall_cons in Hch as [Hca Hch]. pose proof Hch as [Hcc Hcr]%Forall_cons.
    pose proof (waiting_total_nonneg rest Hcr) as Hr0.
    assert (waiting_total (c :: rest) = chunk_bytes c + waiting_total rest) as Hs by done.
    rewrite (u64_wrap_id (waiting_bytes_ q - _)).
    2: { destruct Hcfg as (_ & _ & _ & Hcu & _), Hcc as [? ?]. unfold u64 in *. lia. }
    split_and!; try done. split; queue_cbn; try done.
    + lia.
    + destruct Hcc. lia.
    + destruct Hcc. lia.
    + unfold zlength in *. cbn [length] in Hpc. lia.
Qed.

Lemma drain_spec q :
  link_queue_ok q ->
  link_queue_ok (fst (drain q)) /\ contents (fst (drain q)) = [] /\
  configuration_ (fst (drain q)) = configuration_ q /\
  option_list (drain_active (snd (drain q))) ++ drain_waiting (snd (drain q)) = contents q.
Proof.
  intros Hq. pose proof Hq as [Hcfg Hb Hcap Hwc Hch Hpk Hpc]. pose proof (lq_bytes_nonneg _ Hq) as Hnn.
  split_and!; try done. unfold drain. split; queue_cbn; try done; try lia.
  unfold zlength in *. cbn. lia.
Qed.

(** ** Histories

    A sequence of operations on one queue, with the chunks it accepted (as
    stored) and the chunks that left it, each in order. *)

Inductive QueueOp : Type :=
  | OpAdmit (chunk : TransferChunk)
  | OpComplete
  | OpDrain.

Record QueueHistory : Type := mkQueueHistory {
  hist_queue : DirectedLinkQueue;
  hist_accepted : list TransferChunk;
  hist_departed : list TransferChunk;
  hist_peak : Z;
}.

(** What an admission adds to the queue. *)
Definition accepted_chunks (q : DirectedLinkQueue) (chunk : TransferChunk) : list TransferChunk :=
  match snd (queue_admit chunk q) with
  | Ret r =>
      match adm_disposition r with
      | ServiceStarted => [chunk]
      | Queued => [{| chunk with chunk_marked := chunk_marked chunk || adm_marked_here r |}]
      | DroppedBufferFull => []
      end
  | Throw _ => []
  end.

Definition history_step (h : QueueHistory) (op : QueueOp) : QueueHistory :=
  let q := hist_queue h in
  let '(q', accepted, departed) :=
    match op with
    | OpAdmit chunk => (fst (queue_admit chunk q), accepted_chunks q chunk, [])
    | OpComplete =>
        (fst (complete_service q), [],
         match snd (complete_service q) with Some t => [st_completed t] | None => [] end)
    | OpDrain =>
        (fst (drain q), [],
         option_list (drain_active (snd (drain q))) ++ drain_waiting (snd (drain q)))
    end in
  mkQueueHistory q' (hist_accepted h ++ accepted) (hist_departed h ++ departed)
    (Z.max (hist_peak h) (waiting_bytes_ q')).

Definition history (q : DirectedLinkQueue) (ops : list QueueOp) : QueueHistory :=
  fold_left history_step ops (mkQueueHistory q [] [] 0).

Definition op_ok (op : QueueOp) : Prop :=
  match op with OpAdmit chunk => u64 (chunk_bytes chunk) | _ => True end.

Definition history_ok (cfg : DirectedLinkConfiguration) (h : QueueHistory) : Prop :=
  link_queue_ok (hist_queue h) /\ configuration_ (hist_queue h) = cfg /\
  hist_accepted h = hist_departed h ++ contents (hist_queue h) /\
  maximum_waiting_bytes_ (hist_queue h) = hist_peak h.

Lemma admit_zero chunk q :
  chunk_bytes chunk = 0 ->
  queue_admit chunk q = (q, Throw (invalid_argument "transfer chunk must contain nonzero bytes")).
Proof. intros H. unfold queue_admit, bind, throw_if. by rewrite H. Qed.

Lemma history_step_ok cfg h op : history_ok cfg h -> op_ok op -> history_ok cfg (history_step h op).
Proof.
  intros (Hq & Hcfg & Hacc & Hpk) Hop. unfold history_ok, history_step.
  pose proof (lq_peak_bytes _ Hq) as Hpb. destruct op as [chunk | |]; cbn [op_ok] in Hop.
  - destruct (decide (chunk_bytes chunk = 0)) as [H0 | H0].
    { unfold accepted_chunks. rewrite (admit_zero _ _ H0).
      cbn [fst snd hist_queue hist_accepted hist_departed hist_peak].
      rewrite !app_nil_r. split_and!; try done. lia. }
    destruct (queue_admit_spec chunk (hist_queue h) Hq) as (q' & r & Hr & Hq' & Hc' & Hm);
      [unfold chunk_ok, u64 in *; lia |].
    unfold accepted_chunks. rewrite Hr.
    cbn [fst snd hist_queue hist_accepted hist_departed hist_peak].
    rewrite app_nil_r. split; [done | split; [congruence |]]. rewrite Hacc, <- app_assoc.
    destruct (active_ (hist_queue h)) as [a |] eqn:Ha.
    + destruct (fits _ _) eqn:Hf.
      * destruct Hm as (-> & Ha' & Hw' & Hmx). cbn [adm_disposition adm_marked_here].
        split; [unfold contents; by rewrite Ha, Ha', Hw' |].
        rewrite Hmx, Hpk, (lq_bytes _ Hq'), Hw', waiting_total_snoc, <- (lq_bytes _ Hq). done.
      * destruct Hm as (-> & ->). cbn [adm_disposition]. rewrite app_nil_r. split; [done | lia].
    + destruct Hm as (-> & -> & Hct). cbn [adm_disposition].
      split; [rewrite Hct; unfold contents; rewrite Ha, (lq_work_conserving _ Hq Ha); done |].
      queue_cbn. lia.
  - destruct (complete_service_spec (hist_queue h) Hq) as (Hq' & Hc' & Hmx & Hm).
    cbn [fst snd hist_queue hist_accepted hist_departed hist_peak].
    pose proof (lq_peak_bytes _ Hq'). rewrite app_nil_r.
    split_and!; [done | congruence | | lia]. rewrite Hacc, <- app_assoc. f_equal.
    destruct (snd (complete_service _)) as [t |]; [by destruct Hm as [-> _] |].
    by destruct Hm as [_ ->].
  - destruct (drain_spec (hist_queue h) Hq) as (Hq' & Hct & Hc' & Hm).
    pose proof (lq_peak_bytes _ Hq'). cbn [fst snd hist_queue hist_accepted hist_departed hist_peak].
    rewrite app_nil_r, Hm, Hct, app_nil_r. split_and!; [done | done | done |]. cbn in *. lia.
Qed.

Lemma history_ok_all cfg q ops :
  new_link_queue cfg = Ret q -> configuration_ok cfg -> Forall op_ok ops ->
  history_ok cfg (history q ops).
Proof.
  intros Hn Hcfg Hops. unfold history.
  assert (history_ok cfg (mkQueueHistory q [] [] 0)) as Hinit.
  { destruct (new_link_queue_ok cfg q) as (H1 & H2 & H3); try apply Hcfg; [| done |].
    - intros t Ht. destruct Hcfg as (_ & _ & _ & Hc & Hth). specialize (Hth t Ht). unfold u64 in *. lia.
    - split_and!; [done | done | cbn; by rewrite H3 |].
      unfold new_link_queue in Hn. destruct (validate_configuration cfg); [| done].
      by injection Hn as <-. }
  revert Hinit. generalize (mkQueueHistory q [] [] 0). clear Hn.
  induction Hops as [| op ops Hop _ IH]; intros h Hh; [done |].
  simpl. apply IH. by apply history_step_ok.
Qed.

(** C38: a link queue is a bounded first-in first-out buffer.  After any sequence
    of admissions, completions and drains of a valid queue, the chunks accepted
    are exactly the chunks that left followed by those still held, in the same
    order (nothing lost, duplicated or reordered); the bytes it reports waiting
    are the bytes that wait and never exceed the capacity; no chunk waits while
    the serializer is idle; and the reported maximum is the peak of the waiting
    bytes over the history. *)
Theorem link_queue_fifo cfg q ops :
  new_link_queue cfg = Ret q -> configuration_ok cfg -> Forall op_ok ops ->
  let h := history q ops in
  hist_accepted h = hist_departed h ++ contents (hist_queue h) /\
  waiting_bytes_ (hist_queue h) = waiting_total (waiting_ (hist_queue h)) /\
  waiting_bytes_ (hist_queue h) <= cfg_waiting_buffer_capacity cfg /\
  (active_ (hist_queue h) = None -> waiting_ (hist_queue h) = []) /\
  maximum_waiting_bytes_ (hist_queue h) = hist_peak h.
Proof.
  intros Hn Hcfg Hops h. destruct (history_ok_all cfg q ops Hn Hcfg Hops) as (Hq & <- & Hacc & Hpk).
  exact (conj Hacc (conj (lq_bytes _ Hq) (conj (lq_capacity _ Hq)
    (conj (lq_work_conserving _ Hq) Hpk)))).
Qed.

Lemma link_queue_fifo_witness :
  let cfg := mkDirectedLinkConfiguration (mkDirectedLinkId 1 AToB) 1000 5 300 (Some 200) in
  let c i n := mkTransferChunk 7 i n 0 false in
  let q := mkDirectedLinkQueue cfg None [] 0 0 0 in
  let h := history q [OpAdmit (c 1 100); OpAdmit (c 2 150); OpAdmit (c 3 100);
                      OpAdmit (c 4 100); OpComplete; OpDrain] in
  hist_accepted h = hist_departed h ++ contents (hist_queue h) /\
  (chunk_id <$> hist_departed h) = [1; 2; 3] /\ (chunk_marked <$> hist_departed h) = [false; false; true].
Proof.
  intros cfg c q h. split; [| split; reflexivity].
  apply (link_queue_fifo cfg q [OpAdmit (c 1 100); OpAdmit (c 2 150); OpAdmit (c 3 100);
                      OpAdmit (c 4 100); OpComplete; OpDrain]).
  - reflexivity.
  - unfold configuration_ok, u64, u64_max. cbn. split_and!; try lia. intros t [= <-]. lia.
  - repeat (apply Forall_cons; split; [unfold op_ok, u64, u64_max; cbn; lia |]).
    repeat (apply Forall_cons; split; [exact I |]). constructor.
Defined.
