(* ===== verification/LinkService.v ===== *)
(** * The service of a directed link

    Models [transport/link_service.{hpp,cpp}] and [transport/statistics.hpp]:
    the queue of a link together with the completion event of the chunk in
    service and the traffic counters.  Every member function takes the
    simulation context by reference, so it is a computation on the service and
    the context. *)

From S2P Require Import Prelude SimTime Entities TelemetryRecords Trace EventQueue SimContext.
From S2P Require Import Timing LinkQueue.

(** ** Traffic counters *)

Record TrafficCount : Type := mkTrafficCount { tc_bytes : Z; tc_chunks : Z }.

Definition no_traffic : TrafficCount := mkTrafficCount 0 0.

Definition add_traffic (left right : TrafficCount) : outcome TrafficCount :=
  if (tc_bytes right >? u64_max - tc_bytes left) || (tc_chunks right >? u64_max - tc_chunks left)
  then Throw (overflow_error "transport counter overflow")
  else Ret (mkTrafficCount (u64_wrap (tc_bytes left + tc_bytes right))
                           (u64_wrap (tc_chunks left + tc_chunks right))).

Record LinkStatistics : Type := mkLinkStatistics {
  ls_enqueued : TrafficCount;
  ls_started : TrafficCount;
  ls_completed : TrafficCount;
  ls_marked : TrafficCount;
  ls_dropped_buffer_full : TrafficCount;
  ls_dropped_link_down : TrafficCount;
  ls_busy_time : SimDurationNs;
}.

Definition no_statistics : LinkStatistics :=
  mkLinkStatistics no_traffic no_traffic no_traffic no_traffic no_traffic no_traffic 0.

Record DirectedLinkService : Type := mkDirectedLinkService {
  queue_ : DirectedLinkQueue;
  scheduled_completion_ : option EventId;
  statistics_ : LinkStatistics;
  busy_since_ : option SimTimeNs;
}.

Definition new_link_service (configuration : DirectedLinkConfiguration)
    : outcome DirectedLinkService :=
  match new_link_queue configuration with
  | Ret q => Ret (mkDirectedLinkService q None no_statistics None)
  | Throw e => Throw e
  end.

(** ** Times *)

Definition completion_time (chunk : TransferChunk) (config : DirectedLinkConfiguration)
    (now : SimTimeNs) : outcome SimTimeNs :=
  match serialization_delay (chunk_bytes chunk) (cfg_bandwidth config) with
  | None => Throw (overflow_error "serialization delay exceeds simulated-time range")
  | Some delay =>
      match checked_add now delay with
      | None => Throw (overflow_error "serialization completion exceeds simulated-time range")
      | Some time =>
          match checked_add time (cfg_propagation_delay config) with
          | None => Throw (overflow_error "propagation arrival exceeds simulated-time range")
          | Some _ => Ret time
          end
      end
  end.

Definition statistics (now : SimTimeNs) (service : DirectedLinkService) : outcome LinkStatistics :=
  let result := statistics_ service in
  match busy_since_ service with
  | None => Ret result
  | Some since =>
      match checked_difference now since with
      | None => Throw (invalid_argument "statistics time precedes active service")
      | Some elapsed =>
          match checked_add (ls_busy_time result) elapsed with
          | None => Throw (overflow_error "serializer busy time overflow")
          | Some total => Ret {| result with ls_busy_time := total |}
          end
      end
  end.

(** ** Operations *)

Section Service.
Context {C : Type} `{SimContext C}.

Abbreviation ServiceM := (M (DirectedLinkService * C)).

Definition in_context {A} (m : M C A) : ServiceM A := zoom snd (fun c p => (fst p, c)) m.

Definition modify_service (f : DirectedLinkService -> DirectedLinkService) : ServiceM unit :=
  modify (fun p => (f (fst p), snd p)).

Definition in_queue {A} (m : M DirectedLinkQueue A) : ServiceM A :=
  zoom (fun p => queue_ (fst p))
    (fun q p => (let s := fst p in {| s with queue_ := q |}, snd p)) m.

(** The payload of the completion event of [chunk]. *)
Definition completion_event (config : DirectedLinkConfiguration) (chunk : TransferChunk)
    : TransmissionCompleteEvent :=
  mkTransmissionCompleteEvent (dl_link (cfg_link config)) (chunk_id chunk) (chunk_hop_index chunk)
    (dl_direction (cfg_link config)).

Definition schedule_completion (chunk : TransferChunk) : ServiceM EventId :=
  let! config := gets (fun p => configuration_ (queue_ (fst p))) in
  let! now := gets (fun p => ctx_now (snd p)) in
  let! time := of_outcome (completion_time chunk config now) in
  in_context (ctx_schedule (mkEventSpec time Control
    (TransmissionComplete_ (completion_event config chunk)))).

(** The counters after an arrival, decided before the queue is touched. *)
Definition admission_statistics (chunk : TransferChunk) (queue : DirectedLinkQueue)
    (stats : LinkStatistics) : outcome LinkStatistics :=
  let count := mkTrafficCount (chunk_bytes chunk) 1 in
  let idle := negb (has_value (active_ queue)) in
  let snap := snapshot queue in
  let dropped := negb idle &&
    (chunk_bytes chunk >? u64_wrap (cfg_waiting_buffer_capacity (configuration_ queue) -
                                    snap_waiting_bytes snap)) in
  if dropped
  then match add_traffic (ls_dropped_buffer_full stats) count with
       | Ret t => Ret {| stats with ls_dropped_buffer_full := t |}
       | Throw e => Throw e
       end
  else
    match add_traffic (ls_enqueued stats) count with
    | Throw e => Throw e
    | Ret enqueued =>
        if idle
        then match add_traffic (ls_started stats) count with
             | Ret t => Ret {| stats with ls_enqueued := enqueued; ls_started := t |}
             | Throw e => Throw e
             end
        else if marks (configuration_ queue) (u64_wrap (snap_waiting_bytes snap + chunk_bytes chunk))
        then match add_traffic (ls_marked stats) count with
             | Ret t => Ret {| stats with ls_enqueued := enqueued; ls_marked := t |}
             | Throw e => Throw e
             end
        else Ret {| stats with ls_enqueued := enqueued |}
    end.

Definition service_admit (chunk : TransferChunk) : ServiceM AdmissionResult :=
  do! throw_if (chunk_bytes chunk =? 0)
        (invalid_argument "transfer chunk must contain nonzero bytes") in
  let! p := gets (fun p => p) in
  let now := ctx_now (snd p) in
  let queue := queue_ (fst p) in
  do! of_outcome (completion_time chunk (configuration_ queue) now) in
  let idle := negb (has_value (active_ queue)) in
  let! next := of_outcome (admission_statistics chunk queue (statistics_ (fst p))) in
  let! completion :=
    (if idle then let! id := schedule_completion chunk in ret (Some id) else ret None) in
  let! result := in_queue (queue_admit chunk) in
  do! modify_service (fun s => {| s with statistics_ := next |}) in
  do! when idle (modify_service (fun s => {| s with
        scheduled_completion_ := completion; busy_since_ := Some now |})) in
  ret result.

(** The guards of [handle_completion] before it changes anything. *)
Definition matches_active (event : TransmissionCompleteEvent) (queue : DirectedLinkQueue)
    (active : TransferChunk) : bool :=
  (tc_link event =? dl_link (cfg_link (configuration_ queue))) &&
  bool_decide (tc_direction event = dl_direction (cfg_link (configuration_ queue))) &&
  (tc_chunk event =? chunk_id active) && (tc_hop_index event =? chunk_hop_index active).

Definition handle_completion (event : TransmissionCompleteEvent) : ServiceM ServiceTransition :=
  let! p := gets (fun p => p) in
  do! match scheduled_completion_ (fst p) with
      | None => throw (logic_error "unexpected transmission-completion event")
      | Some id =>
          let! current := of_outcome (ctx_current_event_id (snd p)) in
          throw_if (negb (id =? current)) (logic_error "unexpected transmission-completion event")
      end in
  let queue := queue_ (fst p) in
  match active_ queue with
  | None => throw (logic_error "transmission-completion event does not match active service")
  | Some active =>
      do! throw_if (negb (matches_active event queue active))
            (logic_error "transmission-completion event does not match active service") in
      let! next := of_outcome (statistics (ctx_now (snd p)) (fst p)) in
      let! completed := of_outcome
        (add_traffic (ls_completed next) (mkTrafficCount (chunk_bytes active) 1)) in
      let next := {| next with ls_completed := completed |} in
      let! r :=
        match next_waiting queue with
        | None => ret (next, None)
        | Some waiting =>
            let! started := of_outcome
              (add_traffic (ls_started next) (mkTrafficCount (chunk_bytes waiting) 1)) in
            let! id := schedule_completion waiting in
            ret ({| next with ls_started := started |}, Some id)
        end in
      let '(next, completion) := r in
      let! transition := in_queue (fun q => let '(q', t) := complete_service q in (q', Ret t)) in
      match transition with
      | None => throw (logic_error "active service disappeared before completion")
      | Some transition =>
          let! now := gets (fun p => ctx_now (snd p)) in
          do! modify_service (fun s => {| s with
                statistics_ := next;
                scheduled_completion_ := completion;
                busy_since_ := match completion with Some _ => Some now | None => None end |}) in
          ret transition
      end
  end.

Definition record_link_down (chunk : TransferChunk) : M DirectedLinkService unit := fun s =>
  match add_traffic (ls_dropped_link_down (statistics_ s)) (mkTrafficCount (chunk_bytes chunk) 1) with
  | Ret t => let st := statistics_ s in
      ({| s with statistics_ := {| st with ls_dropped_link_down := t |} |}, Ret tt)
  | Throw e => (s, Throw e)
  end.

Definition reconcile_down : ServiceM QueueDrain :=
  let! p := gets (fun p => p) in
  let! next := of_outcome (statistics (ctx_now (snd p)) (fst p)) in
  let snap := snapshot (queue_ (fst p)) in
  let dropped := mkTrafficCount (snap_waiting_bytes snap) (snap_waiting_chunks snap) in
  let! dropped := of_outcome
    match active_ (queue_ (fst p)) with
    | Some active => add_traffic dropped (mkTrafficCount (chunk_bytes active) 1)
    | None => Ret dropped
    end in
  let! down := of_outcome (add_traffic (ls_dropped_link_down next) dropped) in
  let next := {| next with ls_dropped_link_down := down |} in
  do! match scheduled_completion_ (fst p) with
      | None => ret tt
      | Some id =>
          let! cancelled := in_context (ctx_cancel id) in
          throw_if (negb cancelled)
            (logic_error "active transmission completion could not be cancelled")
      end in
  let! drained := in_queue (fun q => let '(q', d) := drain q in (q', Ret d)) in
  do! modify_service (fun s => {| s with
        scheduled_completion_ := None; busy_since_ := None; statistics_ := next |}) in
  ret drained.

End Service.
