(* ===== verification/LinkServiceLaws.v ===== *)
(** * The link service keeps its books

    The invariant of [DirectedLinkService]: the serializer is busy exactly when
    a completion of the chunk in service is expected, and the counters account
    for every chunk; and what a step does with the chunk in service and the
    completion it expects.  Proved for every context that keeps the promises of
    [SimContextLaws], on return and on every throw. *)

From S2P Require Import Prelude SimTime Entities TelemetryRecords Trace EventQueue SimContext.
From S2P Require Import Timing LinkQueue LinkService SimulationLaws.

(** ** Arithmetic of counters *)

Definition plus_traffic (x y : TrafficCount) : TrafficCount :=
  mkTrafficCount (tc_bytes x + tc_bytes y) (tc_chunks x + tc_chunks y).

Infix "⊕" := plus_traffic (at level 50, left associativity) : nexus_scope.

Definition traffic_le (x y : TrafficCount) : Prop :=
  tc_bytes x <= tc_bytes y /\ tc_chunks x <= tc_chunks y.

Definition traffic_ok (x : TrafficCount) : Prop := u64 (tc_bytes x) /\ u64 (tc_chunks x).

Definition count_of (l : list TransferChunk) : TrafficCount :=
  mkTrafficCount (waiting_total l) (zlength l).

(** Counter equations are pairs of linear equations. *)
Ltac traffic_lia :=
  repeat match goal with
  | x : TrafficCount |- _ => destruct x
  | H : mkTrafficCount _ _ = mkTrafficCount _ _ |- _ => injection H as
  end;
  unfold plus_traffic, traffic_le, traffic_ok, no_traffic in *;
  cbn [tc_bytes tc_chunks] in *; try (apply (f_equal2 mkTrafficCount); lia); lia.

Lemma plus_traffic_0_r x : x ⊕ no_traffic = x.
Proof. destruct x. traffic_lia. Qed.

Lemma count_of_cons c l : count_of (c :: l) = mkTrafficCount (chunk_bytes c) 1 ⊕ count_of l.
Proof. unfold count_of, plus_traffic, zlength. cbn [tc_bytes tc_chunks length]. f_equal. lia. Qed.

Lemma count_of_singleton c : count_of [c] = mkTrafficCount (chunk_bytes c) 1.
Proof. unfold count_of, waiting_total. cbn. f_equal. lia. Qed.

Lemma count_of_app l1 l2 : count_of (l1 ++ l2) = count_of l1 ⊕ count_of l2.
Proof.
  unfold count_of, plus_traffic, waiting_total, zlength. cbn [tc_bytes tc_chunks].
  rewrite fmap_app, sumZ_app, length_app. f_equal. lia.
Qed.

Lemma count_of_nonneg l : Forall chunk_ok l -> traffic_le no_traffic (count_of l).
Proof.
  intros Hl. split; cbn; [by apply waiting_total_nonneg | unfold zlength; lia].
Qed.

(** Chunks are not empty, so they are at most as many as their bytes. *)
Lemma zlength_le_total l : Forall chunk_ok l -> zlength l <= waiting_total l.
Proof.
  unfold zlength, waiting_total. induction 1 as [| c l [Hc _] _ IH]; [done |].
  change (sumZ (chunk_bytes <$> c :: l)) with (chunk_bytes c + sumZ (chunk_bytes <$> l)).
  cbn [length]. lia.
Qed.

Lemma add_traffic_Ret x y t :
  traffic_ok x -> traffic_le no_traffic y -> add_traffic x y = Ret t -> t = x ⊕ y /\ traffic_ok t.
Proof.
  intros [Hx1 Hx2] [Hy1 Hy2]. unfold add_traffic. cbn in Hy1, Hy2.
  destruct (_ || _) eqn:Hc; [done |]. apply orb_false_iff in Hc as [H1 H2]. intros [= <-].
  rewrite !u64_wrap_id by (unfold u64 in *; lia). split; [done |].
  split; cbn; unfold u64 in *; lia.
Qed.

(** ** The invariant *)

Record counters_ok (st : LinkStatistics) : Prop := {
  co_enqueued : traffic_ok (ls_enqueued st);
  co_started : traffic_ok (ls_started st);
  co_completed : traffic_ok (ls_completed st);
  co_marked : traffic_ok (ls_marked st);
  co_full : traffic_ok (ls_dropped_buffer_full st);
  co_down : traffic_ok (ls_dropped_link_down st);
  co_busy : u64 (ls_busy_time st);
}.

(** Every chunk accepted is completed, in service, waiting, or was lost when
    the link went down ([la] in service, [lw] waiting at that time). *)
Definition balanced (st : LinkStatistics) (q : DirectedLinkQueue) : Prop :=
  exists la lw,
    traffic_le no_traffic la /\ traffic_le no_traffic lw /\
    traffic_le (la ⊕ lw) (ls_dropped_link_down st) /\
    ls_started st = ls_completed st ⊕ count_of (option_list (active_ q)) ⊕ la /\
    ls_enqueued st = ls_started st ⊕ count_of (waiting_ q) ⊕ lw.

Section Laws.
Context {C : Type} `{SimContextLaws C}.
Implicit Types (s : DirectedLinkService) (c : C).

(** The serializer knows the completion event of the chunk in service, and since
    when it is busy. *)
Definition busy_ok (s : DirectedLinkService) : Prop :=
  match active_ (queue_ s) with
  | None => scheduled_completion_ s = None /\ busy_since_ s = None
  | Some _ => exists id t, scheduled_completion_ s = Some id /\ busy_since_ s = Some t /\ u64 t
  end.

Record service_ok (s : DirectedLinkService) : Prop := {
  so_queue : link_queue_ok (queue_ s);
  so_busy : busy_ok s;
  so_counters : counters_ok (statistics_ s);
  so_balanced : balanced (statistics_ s) (queue_ s);
}.

Lemma new_link_service_ok cfg s :
  configuration_ok cfg -> new_link_service cfg = Ret s -> service_ok s.
Proof.
  intros Hcfg Hn. unfold new_link_service in Hn. destruct (new_link_queue cfg) as [q |] eqn:Hq; [| done].
  injection Hn as <-. destruct (new_link_queue_ok cfg q) as (H1 & H2 & H3); try apply Hcfg; [| done |].
  { intros t Ht. destruct Hcfg as (_ & _ & _ & Hc & Hth). specialize (Hth t Ht). unfold u64 in *. lia. }
  unfold contents in H3. apply app_nil in H3 as [Ha Hw].
  assert (active_ q = None) as Ha' by (by destruct (active_ q)).
  split; cbn; [done | | by split | ].
  - unfold busy_ok. cbn. by rewrite Ha'.
  - exists no_traffic, no_traffic. cbn. rewrite Ha', Hw. split_and!; try done; cbn; lia.
Qed.

(** Service of [a] begins at the time of [c]: its completion event is in the queue
    of events for the end of its serialization. *)
Definition starts (c c' : C) (s' : DirectedLinkService) (a : TransferChunk) : Prop :=
  let cfg := configuration_ (queue_ s') in
  exists id e d, scheduled_completion_ s' = Some id /\ busy_since_ s' = Some (ctx_now c) /\
    ctx_live c' !! id = Some e /\ ev_payload e = TransmissionComplete_ (completion_event cfg a) /\
    serialization_delay (chunk_bytes a) (cfg_bandwidth cfg) = Some d /\ ev_timestamp e = ctx_now c + d.

(** The chunk in service stays there, with its completion event, or service of
    another one begins. *)
Definition served (c c' : C) (s s' : DirectedLinkService) : Prop :=
  match active_ (queue_ s') with
  | None => True
  | Some a =>
      (active_ (queue_ s) = Some a /\ scheduled_completion_ s' = scheduled_completion_ s /\ busy_since_ s' = busy_since_ s) \/
      starts c c' s' a
  end.

Lemma completion_time_u64 chunk cfg now t :
  chunk_ok chunk -> configuration_ok cfg -> u64 now -> completion_time chunk cfg now = Ret t ->
  u64 t /\ exists d, serialization_delay (chunk_bytes chunk) (cfg_bandwidth cfg) = Some d /\ t = now + d.
Proof.
  intros [_ Hc] (_ & Hb & Hp & _) Hn. unfold completion_time.
  destruct (serialization_delay _ _) as [d |] eqn:Hd; [| done].
  pose proof Hd as Hdu. apply serialization_delay_u64 in Hdu; [| done | done].
  destruct (checked_add now d) as [t1 |] eqn:Ht; [| done].
  destruct (checked_add t1 _) as [t2 |] eqn:Ht2; [| done]. intros [= <-].
  apply checked_add_Some in Ht as [-> Hle]; [| done | done].
  apply checked_add_Some in Ht2 as [-> Hle2]; [| unfold u64 in *; lia | done].
  split; [unfold u64 in *; lia |]. by exists d.
Qed.

Lemma wp_in_context {A} (m : M C A) (Q : DirectedLinkService * C -> A -> Prop)
    (E : DirectedLinkService * C -> exn -> Prop) s c :
  wp m (fun c' a => Q (s, c') a) (fun c' e => E (s, c') e) c -> wp (in_context m) Q E (s, c).
Proof. intros Hm. apply wp_zoom. exact Hm. Qed.

Lemma schedule_completion_spec chunk s c :
  ctx_ok c -> chunk_ok chunk -> configuration_ok (configuration_ (queue_ s)) ->
  wp (schedule_completion chunk)
    (fun p id => fst p = s /\ ctx_evolves c (snd p) /\ ctx_live c !! id = None /\
       exists e, ctx_live (snd p) = <[id := e]> (ctx_live c) /\
         ev_payload e = TransmissionComplete_ (completion_event (configuration_ (queue_ s)) chunk) /\
         exists d, serialization_delay (chunk_bytes chunk) (cfg_bandwidth (configuration_ (queue_ s))) = Some d /\
           ev_timestamp e = ctx_now c + d)
    (fun p _ => fst p = s /\ ctx_evolves c (snd p) /\ ctx_live c ⊆ ctx_live (snd p)) (s, c).
Proof.
  intros Hok Hch Hcfg. unfold schedule_completion. do 4 wp_step. cbv beta. cbn [fst snd]. wp_step.
  apply wp_of_outcome.
  - intros time Ht. destruct (completion_time_u64 _ _ _ _ Hch Hcfg (ctx_now_u64 c Hok) Ht) as (Hu & d & Hd & ->).
    apply wp_in_context. eapply wp_conseq; [by apply ctx_schedule_law | |]; cbn [fst snd].
    + intros c' id (H3 & H4 & e & H5 & H6 & H7 & H8). split_and!; try done. exists e. split_and!; eauto.
    + intros c' e [H3 H4]. done.
  - intros e _. cbn. done.
Qed.

(** The counters after an arrival, without machine arithmetic. *)
Definition admission_effect (chunk : TransferChunk) (q : DirectedLinkQueue) (st : LinkStatistics)
    : LinkStatistics :=
  let count := mkTrafficCount (chunk_bytes chunk) 1 in
  match active_ q with
  | None => {| st with ls_enqueued := ls_enqueued st ⊕ count; ls_started := ls_started st ⊕ count |}
  | Some _ =>
      if fits q chunk
      then if marks (configuration_ q) (waiting_bytes_ q + chunk_bytes chunk)
           then {| st with ls_enqueued := ls_enqueued st ⊕ count; ls_marked := ls_marked st ⊕ count |}
           else {| st with ls_enqueued := ls_enqueued st ⊕ count |}
      else {| st with ls_dropped_buffer_full := ls_dropped_buffer_full st ⊕ count |}
  end.

Lemma admission_statistics_spec chunk q st next :
  link_queue_ok q -> chunk_ok chunk -> counters_ok st ->
  admission_statistics chunk q st = Ret next ->
  next = admission_effect chunk q st /\ counters_ok next.
Proof.
  intros Hq [Hpos Hu] Hco. pose proof Hco as [C1 C2 C3 C4 C5 C6 C7].
  pose proof (lq_bytes_nonneg _ Hq) as Hnn. pose proof (lq_capacity _ Hq) as Hcap.
  assert (u64 (cfg_waiting_buffer_capacity (configuration_ q))) as Hcu by apply (lq_configuration _ Hq).
  set (count := mkTrafficCount (chunk_bytes chunk) 1).
  assert (traffic_le no_traffic count) as Hcount by (split; cbn; lia).
  assert (forall x t, traffic_ok x -> add_traffic x count = Ret t -> t = x ⊕ count /\ traffic_ok t)
    as Hadd by (intros; by apply add_traffic_Ret).
  unfold admission_statistics, admission_effect, snapshot, fits. fold count.
  cbn [snap_waiting_bytes]. rewrite (u64_wrap_id (_ - _)) by (unfold u64 in *; lia).
  unfold has_value. destruct (active_ q) as [a |].
  - rewrite bool_decide_eq_true_2 by eauto. cbn [negb andb].
    destruct (chunk_bytes chunk >? _) eqn:Hd.
    + replace (_ <=? _) with false by lia.
      destruct (add_traffic _ count) as [t |] eqn:Ht; [| done]. intros [= <-].
      destruct (Hadd _ _ C5 Ht) as [-> Htok]. split; [done |]. by split.
    + replace (_ <=? _) with true by lia. rewrite (u64_wrap_id (_ + _)) by (unfold u64 in *; lia).
      destruct (add_traffic (ls_enqueued st) count) as [t |] eqn:Ht; [| done].
      destruct (Hadd _ _ C1 Ht) as [-> Htok].
      destruct (marks _ _).
      * destruct (add_traffic (ls_marked st) count) as [t |] eqn:Ht2; [| done]. intros [= <-].
        destruct (Hadd _ _ C4 Ht2) as [-> Htok2]. split; [done |]. by split.
      * intros [= <-]. split; [done |]. by split.
  - rewrite bool_decide_eq_false_2 by (intros [? ?]; done). cbn [negb andb].
    destruct (add_traffic (ls_enqueued st) count) as [t |] eqn:Ht; [| done].
    destruct (Hadd _ _ C1 Ht) as [-> Htok].
    destruct (add_traffic (ls_started st) count) as [t |] eqn:Ht2; [| done]. intros [= <-].
    destruct (Hadd _ _ C2 Ht2) as [-> Htok2]. split; [done |]. by split.
Qed.

(** The counters stay balanced when the queue takes the decision they predict. *)
Lemma admission_balanced chunk q st :
  link_queue_ok q -> chunk_ok chunk -> balanced st q ->
  balanced (admission_effect chunk q st) (fst (queue_admit chunk q)).
Proof.
  intros Hq Hch (la & lw & B1 & B2 & B3 & B4 & B5).
  destruct (queue_admit_spec chunk q Hq Hch) as (q' & r & Hr & Hq' & Hc' & Hm). rewrite Hr. cbn [fst].
  unfold admission_effect. exists la, lw. destruct (active_ q) as [a |] eqn:Ha.
  - destruct (fits q chunk).
    + destruct Hm as (_ & Ha' & Hw' & _). rewrite Ha', Hw', count_of_app. cbn [option_list] in *.
      destruct (marks _ _); cbn [ls_enqueued ls_started ls_completed ls_dropped_link_down];
        (split_and!; [done | done | done | done |]); rewrite B5, count_of_singleton;
        cbn [stored chunk_bytes]; clear; traffic_lia.
    + destruct Hm as (_ & ->). rewrite Ha. split_and!; done.
  - destruct Hm as (_ & -> & _). queue_cbn. rewrite (lq_work_conserving _ Hq Ha) in *.
    cbn [ls_enqueued ls_started ls_completed ls_dropped_link_down option_list] in *.
    change (option_list (Some chunk)) with [chunk]. change (option_list None) with (@nil TransferChunk) in B4.
    rewrite count_of_singleton. change (count_of []) with no_traffic in *.
    split_and!; [done | done | done | |]; rewrite ?B5, B4; clear; traffic_lia.
Qed.

(** What [admit] does to the service when it returns. *)
Definition admitted (chunk : TransferChunk) (s s' : DirectedLinkService) (r : AdmissionResult) : Prop :=
  queue_admit chunk (queue_ s) = (queue_ s', Ret r) /\
  statistics_ s' = admission_effect chunk (queue_ s) (statistics_ s) /\
  (active_ (queue_ s) <> None ->
     scheduled_completion_ s' = scheduled_completion_ s /\ busy_since_ s' = busy_since_ s).

Lemma service_admit_spec chunk s c :
  ctx_ok c -> service_ok s -> u64 (chunk_bytes chunk) ->
  wp (service_admit chunk)
    (fun p r => admitted chunk s (fst p) r /\ service_ok (fst p) /\ served c (snd p) s (fst p) /\
       ctx_evolves c (snd p) /\ ctx_live c ⊆ ctx_live (snd p))
    (fun p _ => fst p = s /\ ctx_evolves c (snd p) /\ ctx_live c ⊆ ctx_live (snd p)) (s, c).
Proof.
  intros Hok Hs Hu. unfold service_admit. wp_step. apply wp_throw_if; intros Hz; [done |].
  assert (chunk_ok chunk) as Hch by (unfold chunk_ok, u64 in *; lia).
  pose proof (so_queue _ Hs) as Hq. pose proof (lq_configuration _ Hq) as Hcfg.
  do 2 wp_step. cbv beta zeta. cbn [fst snd]. wp_step. apply wp_of_outcome; [intros time Ht | done].
  wp_step. apply wp_of_outcome; [intros next Hnext | done].
  destruct (admission_statistics_spec _ _ _ _ Hq Hch (so_counters _ Hs) Hnext) as [-> Hco].
  pose proof (admission_balanced chunk _ _ Hq Hch (so_balanced _ Hs)) as Hbal.
  destruct (queue_admit_spec chunk (queue_ s) Hq Hch) as (q' & r & Hr & Hq' & Hc' & Hm).
  rewrite Hr in Hbal. cbn [fst] in Hbal.
  unfold has_value. destruct (active_ (queue_ s)) as [a |] eqn:Ha.
  - rewrite bool_decide_eq_true_2 by eauto. cbn [negb].
    do 2 wp_step. wp_step. unfold in_queue. apply wp_zoom. unfold wp at 1. cbn [fst]. rewrite Hr.
    wp_step. apply wp_modify. wp_step. apply wp_ret. wp_step. cbn [fst snd].
    assert (active_ q' = Some a) as Ha'.
    { destruct (fits _ _); [by destruct Hm as (_ & Hm & _) | by destruct Hm as (_ & ->)]. }
    split; [by split |]. split; [| split; [unfold served; cbn; rewrite Ha'; by left | by split]].
    split; cbn; try done. pose proof (so_busy _ Hs) as Hb. unfold busy_ok in *. cbn. by rewrite Ha in Hb; rewrite Ha'.
  - rewrite bool_decide_eq_false_2 by (intros [? ?]; done). cbn [negb].
    wp_step. wp_step. eapply wp_conseq; [by apply schedule_completion_spec | | done].
    intros [s1 c1] id (H1 & H2 & H3 & e & H4 & H5 & d & H6 & H7). cbn [fst snd] in *. subst s1.
    do 2 wp_step. unfold in_queue. apply wp_zoom. unfold wp at 1. cbn [fst]. rewrite Hr.
    wp_step. apply wp_modify. wp_step. apply wp_modify. wp_step. cbn [fst snd].
    assert (active_ q' = Some chunk) as Ha' by (destruct Hm as (_ & -> & _); done).
    split; [by split |]. split; [| split; [| split; [done | rewrite H4; by apply insert_subseteq]]].
    + split; cbn; try done. unfold busy_ok. cbn. rewrite Ha'. exists id, (ctx_now c). split_and!; try done; apply (ctx_now_u64 c Hok).
    + unfold served. cbn. rewrite Ha'. right. exists id, e, d. cbn. rewrite Hc', H4, lookup_insert_eq. done.
Qed.

Lemma statistics_Ret s c st :
  ctx_ok c -> service_ok s -> statistics (ctx_now c) s = Ret st ->
  counters_ok st /\ exists busy, st = (let st0 := statistics_ s in {| st0 with ls_busy_time := busy |}).
Proof.
  intros Hok Hs. pose proof (so_counters _ Hs) as Hco. pose proof Hco as [C1 C2 C3 C4 C5 C6 C7].
  unfold statistics. pose proof (so_busy _ Hs) as Hb. unfold busy_ok in Hb.
  destruct (busy_since_ s) as [since |] eqn:Hsince.
  2: { intros [= <-]. split; [done |]. exists (ls_busy_time (statistics_ s)). by destruct (statistics_ s). }
  destruct (active_ (queue_ s)) as [a |]; [| by destruct Hb].
  destruct Hb as (id & t & _ & [= <-] & Hus). pose proof (ctx_now_u64 c Hok) as Hn.
  destruct (checked_difference _ _) as [el |] eqn:Hd; [| done].
  apply checked_difference_Some in Hd as [-> Hle0]; [| done | done].
  destruct (checked_add _ _) as [total |] eqn:Ha; [| done]. intros [= <-].
  apply checked_add_Some in Ha as [-> Hle]; [| done | unfold u64 in *; lia].
  split; [| eauto]. split; try done. cbn. unfold u64 in *. lia.
Qed.

(** What [handle_completion] does to the service when it returns. *)
Definition completed (event : TransmissionCompleteEvent) (s s' : DirectedLinkService)
    (t : ServiceTransition) : Prop :=
  complete_service (queue_ s) = (queue_ s', Some t) /\
  event = completion_event (configuration_ (queue_ s)) (st_completed t) /\
  ls_completed (statistics_ s') =
    ls_completed (statistics_ s) ⊕ mkTrafficCount (chunk_bytes (st_completed t)) 1.

Lemma matches_active_event event q a :
  matches_active event q a = true -> event = completion_event (configuration_ q) a.
Proof.
  unfold matches_active, completion_event. intros [[[H1 H2]%andb_true_iff H3]%andb_true_iff H4]%andb_true_iff.
  apply bool_decide_eq_true in H2. destruct event. cbn in *. f_equal; try lia. done.
Qed.

Lemma completion_balanced s q' t st :
  link_queue_ok (queue_ s) -> complete_service (queue_ s) = (q', Some t) ->
  balanced (statistics_ s) (queue_ s) ->
  ls_enqueued st = ls_enqueued (statistics_ s) ->
  ls_dropped_link_down st = ls_dropped_link_down (statistics_ s) ->
  ls_completed st = ls_completed (statistics_ s) ⊕ mkTrafficCount (chunk_bytes (st_completed t)) 1 ->
  ls_started st = ls_started (statistics_ s) ⊕ count_of (option_list (st_next_started t)) ->
  balanced st q'.
Proof.
  intros Hq Hcs (la & lw & B1 & B2 & B3 & B4 & B5) E1 E2 E3 E4.
  exists la, lw. unfold complete_service in Hcs.
  destruct (active_ (queue_ s)) as [a |]; [| done].
  change (option_list (Some a)) with [a] in B4. rewrite count_of_singleton in B4.
  destruct (waiting_ (queue_ s)) as [| c rest] eqn:Hw; injection Hcs as <- <-; queue_cbn;
    cbn [st_completed st_next_started] in *.
  - change (option_list None) with (@nil TransferChunk) in *.
    change (count_of []) with no_traffic in *. rewrite E2.
    split_and!; [done | done | done | |]; rewrite ?E1, ?B5, E4, ?E3, B4; clear; traffic_lia.
  - change (option_list (Some c)) with [c] in *. rewrite E2.
    rewrite (count_of_cons c rest) in B5. rewrite count_of_singleton in *.
    split_and!; [done | done | done | |]; rewrite ?E1, ?B5, E4, ?E3, B4; clear; traffic_lia.
Qed.

Lemma handle_completion_spec event s c :
  ctx_ok c -> service_ok s ->
  wp (handle_completion event)
    (fun p t => completed event s (fst p) t /\ service_ok (fst p) /\ served c (snd p) s (fst p) /\
       (exists id, scheduled_completion_ s = Some id /\ ctx_current_event_id c = Ret id) /\
       ctx_evolves c (snd p) /\ ctx_live c ⊆ ctx_live (snd p))
    (fun p _ => fst p = s /\ ctx_evolves c (snd p) /\ ctx_live c ⊆ ctx_live (snd p)) (s, c).
Proof.
  intros Hok Hs. pose proof (so_queue _ Hs) as Hq. pose proof (lq_configuration _ Hq) as Hcfg.
  unfold handle_completion. do 2 wp_step. cbv beta. cbn [fst snd]. wp_step.
  apply wp_conseq with
    (Q := fun p (_ : unit) => p = (s, c) /\
            exists id, scheduled_completion_ s = Some id /\ ctx_current_event_id c = Ret id)
    (E := fun p _ => p = (s, c)); [| | by intros ? ? ->].
  { destruct (scheduled_completion_ s) as [id |]; [| by wp_step]. wp_step.
    apply wp_of_outcome; [intros cur Hcur | done]. apply wp_throw_if; [done |].
    intros Heq%negb_false_iff%Z.eqb_eq. subst. eauto. }
  intros p0 [] [-> Hsc]. cbv zeta. wp_step; [| by wp_step].
  rename t into a, Heqo into Ha. wp_step. apply wp_throw_if; [done |].
  intros Hm%negb_false_iff. apply matches_active_event in Hm.
  wp_step. apply wp_of_outcome; [intros st1 Hst1 | done].
  destruct (statistics_Ret s c st1 Hok Hs Hst1) as [Hco1 [busy ->]]. clear Hst1.
  assert (forall x, chunk_ok x -> traffic_le no_traffic (mkTrafficCount (chunk_bytes x) 1)) as Hone.
  { intros x [Hx _]. split; cbn; lia. }
  pose proof (lq_chunks _ Hq) as Hall. unfold contents in Hall. rewrite Ha in Hall.
  apply Forall_cons in Hall as [Hcha Hchw].
  wp_step. apply wp_of_outcome; [intros comp Hcomp | done].
  apply add_traffic_Ret in Hcomp as [-> Hcompok]; [| apply Hco1 | by apply Hone].
  destruct (complete_service_spec (queue_ s) Hq) as (Hq' & Hc' & _ & Hcs).
  destruct (complete_service (queue_ s)) as [q' [t |]] eqn:Hcomplete; cbn [fst snd] in *.
  2: { destruct Hcs as [Hcs _]. unfold contents in Hcs. by rewrite Ha in Hcs. }
  destruct Hcs as (_ & Hact & Hnext1 & Hnext2). assert (st_completed t = a) as Hta by congruence.
  (* the tail, once the statistics and the completion event are decided *)
  assert (forall st id c',
    ctx_evolves c c' -> ctx_live c ⊆ ctx_live c' ->
    counters_ok st -> balanced st q' ->
    ls_completed st = ls_completed (statistics_ s) ⊕ mkTrafficCount (chunk_bytes a) 1 ->
    (let s' := mkDirectedLinkService q' id st (match id with Some _ => Some (ctx_now c') | None => None end) in
     busy_ok s' /\ served c c' s s') ->
    wp (let! transition := in_queue (fun q => let '(q', t) := complete_service q in (q', Ret t)) in
        match transition with
        | None => throw (logic_error "active service disappeared before completion")
        | Some transition =>
            let! now := gets (fun p : DirectedLinkService * C => ctx_now (snd p)) in
            do! modify_service (fun s => {| s with
                  statistics_ := st; scheduled_completion_ := id;
                  busy_since_ := match id with Some _ => Some now | None => None end |}) in
            ret transition
        end)
      (fun p t => completed event s (fst p) t /\ service_ok (fst p) /\ served c (snd p) s (fst p) /\
         (exists id, scheduled_completion_ s = Some id /\ ctx_current_event_id c = Ret id) /\
         ctx_evolves c (snd p) /\ ctx_live c ⊆ ctx_live (snd p))
      (fun p _ => fst p = s /\ ctx_evolves c (snd p) /\ ctx_live c ⊆ ctx_live (snd p)) (s, c')) as Htail.
  { intros st id c' Hev Hsub Hco Hbal Hcmp [Hbusy Hserved]. wp_step. unfold in_queue. apply wp_zoom.
    unfold wp at 1. cbn [fst]. rewrite Hcomplete. do 2 wp_step. wp_step. apply wp_modify. wp_step.
    cbn [fst snd]. split; [unfold completed; cbn; by rewrite Hta |]. split; [by split | by split]. }
  wp_step. destruct (next_waiting (queue_ s)) as [w |] eqn:Hw.
  - assert (chunk_ok w) as Hchkw.
    { unfold next_waiting in Hw. destruct (waiting_ (queue_ s)); [done |]. injection Hw as ->.
      by apply Forall_cons in Hchw as [? _]. }
    wp_step. apply wp_of_outcome; [intros started Hstart | done].
    apply add_traffic_Ret in Hstart as [-> Hstok]; [| apply Hco1 | by apply Hone].
    wp_step. eapply wp_conseq; [by apply schedule_completion_spec | | done].
    intros [s1 c1] id (H1 & H2 & H3 & e & H4 & H5 & d & H6 & H7). cbn [fst snd] in *. subst s1. wp_step.
    apply Htail; [done | rewrite H4; by apply insert_subseteq | | | done |].
    + destruct Hco1. by split.
    + eapply (completion_balanced s); try done; [apply Hs | by rewrite Hta |].
      cbn. rewrite Hnext2. change (option_list (Some w)) with [w]. by rewrite count_of_singleton.
    + assert (active_ q' = Some w) as Ha' by (by rewrite <- Hnext1, Hnext2). cbv zeta. split.
      * unfold busy_ok. cbn. rewrite Ha'. exists id, (ctx_now c1). split_and!; try done;
          apply (ctx_now_u64 c1); by eapply ctx_evolves_ok.
      * unfold served. cbn. rewrite Ha'. right. exists id, e, d. cbn. rewrite Hc', H4, lookup_insert_eq, (ctx_evolves_now _ _ H2 Hok). done.
  - wp_step. apply Htail; [done | done | | | done |].
    + destruct Hco1. by split.
    + eapply (completion_balanced s); try done; [apply Hs | by rewrite Hta |].
      cbn. rewrite Hnext2. change (count_of (option_list None)) with no_traffic.
      by rewrite plus_traffic_0_r.
    + unfold busy_ok, served. cbn. by rewrite <- Hnext1, Hnext2.
Qed.

(** What [reconcile_down] does to the service when it returns. *)
Definition reconciled (s s' : DirectedLinkService) (d : QueueDrain) : Prop :=
  drain (queue_ s) = (queue_ s', d) /\ scheduled_completion_ s' = None /\ busy_since_ s' = None /\
  ls_dropped_link_down (statistics_ s') =
    ls_dropped_link_down (statistics_ s) ⊕ count_of (contents (queue_ s)).

(** The counters after losing everything the queue held. *)
Lemma drain_balanced q st st' :
  balanced st q -> Forall chunk_ok (contents q) ->
  ls_enqueued st' = ls_enqueued st -> ls_started st' = ls_started st ->
  ls_completed st' = ls_completed st ->
  ls_dropped_link_down st' = ls_dropped_link_down st ⊕ count_of (contents q) ->
  balanced st' (fst (drain q)).
Proof.
  intros (la & lw & B1 & B2 & B3 & B4 & B5) Hall E1 E2 E3 E4.
  unfold contents in *. apply Forall_app in Hall as [HA HW].
  exists (la ⊕ count_of (option_list (active_ q))), (lw ⊕ count_of (waiting_ q)).
  pose proof (count_of_nonneg _ HA) as N1. pose proof (count_of_nonneg _ HW) as N2.
  rewrite count_of_app in E4. cbn [drain fst active_ waiting_].
  change (option_list None) with (@nil TransferChunk). change (count_of []) with no_traffic.
  rewrite E1, E2, E3, E4.
  generalize dependent (count_of (option_list (active_ q))). intros A. intros.
  generalize dependent (count_of (waiting_ q)). intros Wq. intros.
  split_and!; rewrite ?B5, ?B4; clear - B1 B2 B3 N1 N2; unfold traffic_le, plus_traffic, no_traffic in *;
    cbn [tc_bytes tc_chunks] in *; try lia; f_equal; lia.
Qed.

Lemma reconcile_down_spec s c :
  ctx_ok c -> service_ok s ->
  wp reconcile_down
    (fun p d => reconciled s (fst p) d /\ service_ok (fst p) /\ ctx_evolves c (snd p) /\
       match scheduled_completion_ s with
       | Some id => ctx_live (snd p) = delete id (ctx_live c)
       | None => ctx_live (snd p) = ctx_live c
       end)
    (fun p _ => fst p = s /\ ctx_evolves c (snd p)) (s, c).
Proof.
  intros Hok Hs. pose proof (so_queue _ Hs) as Hq. unfold reconcile_down.
  do 2 wp_step. cbv beta. cbn [fst snd]. wp_step. apply wp_of_outcome; [intros st Hst | done].
  destruct (statistics_Ret s c st Hok Hs Hst) as [Hco [busy ->]]. clear Hst. cbv zeta.
  pose proof (lq_chunks _ Hq) as Hall. pose proof (lq_waiting_ok _ Hq) as HW.
  assert (mkTrafficCount (snap_waiting_bytes (snapshot (queue_ s))) (snap_waiting_chunks (snapshot (queue_ s))) =
          count_of (waiting_ (queue_ s))) as ->.
  { unfold snapshot. cbn. by rewrite (lq_bytes _ Hq). }
  wp_step. apply wp_of_outcome; [intros dropped Hd | done].
  assert (dropped = count_of (contents (queue_ s))) as ->.
  { unfold contents in *. rewrite count_of_app. destruct (active_ (queue_ s)) as [a |].
    - change (option_list (Some a)) with [a] in *. rewrite count_of_singleton.
      apply Forall_cons in Hall as [[Ha _] _].
      assert (traffic_ok (count_of (waiting_ (queue_ s)))) as Hwok.
      { pose proof (zlength_le_total _ HW) as Hz. pose proof (lq_capacity _ Hq) as Hcap.
        rewrite (lq_bytes _ Hq) in Hcap. destruct (lq_configuration _ Hq) as (_ & _ & _ & Hcu & _).
        split; cbn; unfold u64, zlength in *; lia. }
      apply add_traffic_Ret in Hd as [-> _]; [| done | split; cbn; lia].
      unfold plus_traffic. cbn. f_equal; lia.
    - injection Hd as <-. change (count_of (option_list None)) with no_traffic.
      by destruct (count_of (waiting_ (queue_ s))). }
  wp_step. apply wp_of_outcome; [intros down Hdown | done].
  apply add_traffic_Ret in Hdown as [-> Hdok]; [| apply Hco | by apply count_of_nonneg].
  wp_step. apply wp_conseq with
    (Q := fun p (_ : unit) => fst p = s /\ ctx_evolves c (snd p) /\
       match scheduled_completion_ s with
       | Some id => ctx_live (snd p) = delete id (ctx_live c)
       | None => ctx_live (snd p) = ctx_live c
       end)
    (E := fun p _ => fst p = s /\ ctx_evolves c (snd p)); [| | done].
  { destruct (scheduled_completion_ s) as [id |]; [| by wp_step]. wp_step. apply wp_in_context.
    eapply wp_conseq; [by apply ctx_cancel_law | |]; cbn [fst snd].
    - intros c' r (H1 & H2 & H3). apply wp_throw_if; [done |]. intros Hr%negb_false_iff. auto.
    - intros c' e [H1 _]. done. }
  intros [s1 c1] [] (Hs1 & Hev & Hlive). cbn [fst snd] in *. subst s1.
  wp_step. unfold in_queue. apply wp_zoom. unfold wp at 1. cbn [fst drain].
  wp_step. apply wp_modify. wp_step. cbn [fst snd].
  split; [by split_and! |]. split; [| done].
  destruct (drain_spec (queue_ s) Hq) as (Hq' & _). split; try done.
  - destruct Hco. by split.
  - by eapply (drain_balanced (queue_ s) (statistics_ s)); [apply Hs | | | | |].
Qed.

Lemma record_link_down_spec chunk s :
  service_ok s -> chunk_ok chunk ->
  wp (record_link_down chunk)
    (fun s' _ => service_ok s' /\ queue_ s' = queue_ s /\
       scheduled_completion_ s' = scheduled_completion_ s /\ busy_since_ s' = busy_since_ s)
    (fun s' _ => s' = s) s.
Proof.
  intros Hs [Hch _]. unfold wp, record_link_down.
  destruct (add_traffic _ _) as [t |] eqn:Ht; [| done]. destruct (so_counters _ Hs).
  apply add_traffic_Ret in Ht as [-> Htok]; [| done | split; cbn; lia].
  split; [| done]. split; try apply Hs; [by split |].
  destruct (so_balanced _ Hs) as (la & lw & B1 & B2 & B3 & B4 & B5). exists la, lw.
  split; [done | split; [done | split; [| done]]].
  unfold traffic_le, plus_traffic in *. cbn in *. lia.
Qed.

(** ** Reachable states of one link

    The operations that returned, interleaved with anything the rest of the
    program does to the context: nothing is assumed of the events in its queue,
    not even that the pending completion stays there. *)

Inductive link_step : DirectedLinkService * C -> DirectedLinkService * C -> Prop :=
  | link_admit s c chunk p r :
      u64 (chunk_bytes chunk) -> service_admit chunk (s, c) = (p, Ret r) -> link_step (s, c) p
  | link_complete s c event p t :
      handle_completion event (s, c) = (p, Ret t) -> link_step (s, c) p
  | link_down s c p d :
      reconcile_down (s, c) = (p, Ret d) -> link_step (s, c) p
  | link_refuse s c chunk s' :
      chunk_ok chunk -> record_link_down chunk s = (s', Ret tt) -> link_step (s, c) (s', c)
  | link_environment s c c' : ctx_ok c' -> link_step (s, c) (s, c').

Lemma link_step_ok p p' :
  link_step p p' -> ctx_ok (snd p) -> service_ok (fst p) ->
  ctx_ok (snd p') /\ service_ok (fst p') /\ served (snd p) (snd p') (fst p) (fst p').
Proof.
  assert (forall c c' s s', queue_ s' = queue_ s -> scheduled_completion_ s' = scheduled_completion_ s ->
    busy_since_ s' = busy_since_ s -> served c c' s s') as Hsame.
  { intros c c' s s' Hq E1 E2. unfold served. rewrite Hq. destruct (active_ _); [by left | done]. }
  intros [s c chunk q r Hu Hr | s c event q t Hr | s c q d Hr | s c chunk s' Hch Hr | s c c' Hok']
    Hok Hs; cbn [fst snd] in *.
  - destruct (wp_run _ _ _ _ _ _ (service_admit_spec chunk s c Hok Hs Hu) Hr) as (_ & H1 & H2 & H3 & _).
    eauto using ctx_evolves_ok.
  - destruct (wp_run _ _ _ _ _ _ (handle_completion_spec event s c Hok Hs) Hr) as (_ & H1 & H2 & _ & H3 & _).
    eauto using ctx_evolves_ok.
  - destruct (wp_run _ _ _ _ _ _ (reconcile_down_spec s c Hok Hs) Hr) as ((Hd & _) & H1 & H2 & _).
    split_and!; [by eapply ctx_evolves_ok | done |]. unfold served. by injection Hd as <- _.
  - destruct (wp_run _ _ _ _ _ _ (record_link_down_spec chunk s Hs Hch) Hr) as (H1 & H2 & H3 & H4). auto.
  - auto.
Qed.

Lemma link_reachable_ok p p' :
  rtc link_step p p' -> ctx_ok (snd p) -> service_ok (fst p) ->
  ctx_ok (snd p') /\ service_ok (fst p').
Proof.
  induction 1 as [| p1 p2 p3 Hst _ IH]; [done |]. intros Hok Hs.
  destruct (link_step_ok _ _ Hst Hok Hs) as (Hok2 & Hs2 & _). by apply IH.
Qed.

(** C37: a link loses no traffic and is never idle by mistake.  In every state a
    freshly configured link can reach, whatever the rest of the program does to
    the simulation in between: bytes and chunks accepted are those completed, in
    service, waiting, or lost when the link went down, and the losses are counted;
    an idle link has nothing waiting and expects no completion, a busy one expects
    one; every further step keeps the chunk in service together with the
    completion it expects, or ends service, or begins to serve a chunk and has put
    its completion event into the queue of events for the time its serialization
    ends; and a completion is accepted only when the event being handled is the
    expected one and names the chunk in service. *)
Theorem link_service_conserves cfg s0 (c0 : C) s c :
  configuration_ok cfg -> new_link_service cfg = Ret s0 -> ctx_ok c0 ->
  rtc link_step (s0, c0) (s, c) ->
  (exists la lw,
     traffic_le no_traffic la /\ traffic_le no_traffic lw /\
     traffic_le (la ⊕ lw) (ls_dropped_link_down (statistics_ s)) /\
     ls_enqueued (statistics_ s) =
       ls_completed (statistics_ s) ⊕ count_of (option_list (active_ (queue_ s))) ⊕ la
       ⊕ count_of (waiting_ (queue_ s)) ⊕ lw) /\
  match active_ (queue_ s) with
  | None => scheduled_completion_ s = None /\ busy_since_ s = None /\ waiting_ (queue_ s) = []
  | Some _ => is_Some (scheduled_completion_ s) /\ is_Some (busy_since_ s)
  end /\
  (forall s' c', link_step (s, c) (s', c') -> served c c' s s') /\
  (forall event p t, handle_completion event (s, c) = (p, Ret t) ->
     exists id a, scheduled_completion_ s = Some id /\ ctx_current_event_id c = Ret id /\
       active_ (queue_ s) = Some a /\ st_completed t = a /\ event = completion_event (configuration_ (queue_ s)) a).
Proof.
  intros Hcfg Hn Hok0 Hr.
  destruct (link_reachable_ok _ _ Hr Hok0 (new_link_service_ok cfg s0 Hcfg Hn)) as [Hok Hs].
  cbn [fst snd] in *. split; [| split; [| split]].
  - destruct (so_balanced _ Hs) as (la & lw & B1 & B2 & B3 & B4 & B5). exists la, lw.
    rewrite B5, B4. done.
  - pose proof (so_busy _ Hs) as Hb. unfold busy_ok in Hb.
    pose proof (lq_work_conserving _ (so_queue _ Hs)) as Hw.
    destruct (active_ (queue_ s)) as [a |]; [| destruct Hb; auto].
    destruct Hb as (id & t & H1 & H2 & _). eauto.
  - intros s' c' Hst. by destruct (link_step_ok _ _ Hst Hok Hs) as (_ & _ & Hsv).
  - intros event p t Hrun.
    destruct (wp_run _ _ _ _ _ _ (handle_completion_spec event s c Hok Hs) Hrun) as ((Hcs & Hev & _) & _ & _ & (id & H1 & H2) & _).
    exists id, (st_completed t). split_and!; try done. unfold complete_service in Hcs.
    destruct (active_ (queue_ s)) as [a |]; [| done]. destruct (waiting_ (queue_ s)); by injection Hcs as _ <-.
Qed.

(** The counters predict the queue.  [DirectedLinkService::admit] decides its
    counters before it offers the chunk to the queue; the two decisions always
    agree: started, queued (and marked) and dropped chunks are counted as exactly
    what the queue did with them, and an admission that throws leaves the service
    as it was. *)
Theorem admission_counters_agree chunk s (c : C) :
  ctx_ok c -> service_ok s -> u64 (chunk_bytes chunk) ->
  match service_admit chunk (s, c) with
  | ((s', c'), Ret r) =>
      let count := mkTrafficCount (chunk_bytes chunk) 1 in
      let old := statistics_ s in
      queue_admit chunk (queue_ s) = (queue_ s', Ret r) /\
      statistics_ s' =
        match adm_disposition r with
        | ServiceStarted =>
            {| old with ls_enqueued := ls_enqueued old ⊕ count; ls_started := ls_started old ⊕ count |}
        | Queued =>
            if adm_marked_here r
            then {| old with ls_enqueued := ls_enqueued old ⊕ count;
                             ls_marked := ls_marked old ⊕ count |}
            else {| old with ls_enqueued := ls_enqueued old ⊕ count |}
        | DroppedBufferFull =>
            {| old with ls_dropped_buffer_full := ls_dropped_buffer_full old ⊕ count |}
        end
  | ((s', c'), Throw _) => s' = s
  end.
Proof.
  intros Hok Hs Hu. pose proof (service_admit_spec chunk s c Hok Hs Hu) as Hw. unfold wp in Hw.
  destruct (service_admit chunk (s, c)) as [[s' c'] [r | e]]; [| by destruct Hw as [Hw _]].
  destruct Hw as ((Hadm & Hst & _) & _). cbn [fst] in *. split; [done |]. rewrite Hst.
  destruct (decide (chunk_bytes chunk = 0)) as [Hz | Hz]; [by rewrite (admit_zero _ _ Hz) in Hadm |].
  destruct (queue_admit_spec chunk (queue_ s) (so_queue _ Hs)) as (q' & r' & Hr & _ & _ & Hm);
    [unfold chunk_ok, u64 in *; lia |].
  rewrite Hr in Hadm. injection Hadm as _ ->. unfold admission_effect.
  destruct (active_ (queue_ s)); [destruct (fits _ _) |]; by destruct Hm as (-> & _).
Qed.

End Laws.

(** ** A concrete link *)

Definition demo_configuration : DirectedLinkConfiguration :=
  mkDirectedLinkConfiguration (mkDirectedLinkId 1 AToB) 8000000000 5 300 (Some 200).

Definition demo_service : DirectedLinkService :=
  mkDirectedLinkService (mkDirectedLinkQueue demo_configuration None [] 0 0 0) None no_statistics None.

Lemma demo_configuration_ok : configuration_ok demo_configuration.
Proof. unfold configuration_ok, u64, u64_max. cbn. split_and!; try lia. intros t [= <-]. lia. Qed.

Definition demo_chunk (id : ChunkId) : TransferChunk := mkTransferChunk 7 id 100 0 false.

(** After the first chunk the link is busy; its completion is due after 100 ns. *)
Lemma link_service_conserves_witness :
  let p := fst (service_admit (demo_chunk 1) (demo_service, demo_kernel)) in
  active_ (queue_ (fst p)) = Some (demo_chunk 1) /\
  is_Some (scheduled_completion_ (fst p)) /\
  served demo_kernel (snd p) demo_service (fst p) /\ starts demo_kernel (snd p) (fst p) (demo_chunk 1) /\
  serialization_delay (chunk_bytes (demo_chunk 1)) (cfg_bandwidth demo_configuration) = Some 100.
Proof.
  assert (snd (service_admit (demo_chunk 1) (demo_service, demo_kernel)) =
    Ret (mkAdmissionResult ServiceStarted false)) as Hx by (vm_compute; reflexivity).
  assert (active_ (queue_ (fst (fst (service_admit (demo_chunk 1) (demo_service, demo_kernel))))) = Some (demo_chunk 1))
    as Ha by (vm_compute; reflexivity).
  destruct (service_admit (demo_chunk 1) (demo_service, demo_kernel)) as [[s' c'] r] eqn:Hrun.
  cbn [fst snd] in *. subst r.
  assert (link_step (demo_service, demo_kernel) (s', c')) as Hst
    by (eapply (link_admit _ _ (demo_chunk 1)); [unfold u64, u64_max; cbn; lia | exact Hrun]).
  assert (ctx_ok demo_kernel) as Hk by exact demo_kernel_ok.
  destruct (link_service_conserves demo_configuration demo_service demo_kernel demo_service demo_kernel
    demo_configuration_ok eq_refl Hk (rtc_refl _ _)) as (_ & _ & Hserved & _).
  destruct (link_service_conserves demo_configuration demo_service demo_kernel s' c'
    demo_configuration_ok eq_refl Hk (rtc_once _ _ Hst)) as (_ & Hb & _ & _).
  pose proof (Hserved s' c' Hst) as Hsv. rewrite Ha in Hb. destruct Hb as [Hb _].
  split; [exact Ha | split; [exact Hb | split; [exact Hsv | split; [| vm_compute; reflexivity]]]].
  unfold served in Hsv. rewrite Ha in Hsv. destruct Hsv as [[Hf _] | Hsv]; [discriminate Hf | exact Hsv].
Defined.
