(* ===== verification/Bfs.v ===== *)
(** * Breadth-first search

    The invariant the two breadth-first searches of the program share
    ([shortest_path_summary_impl] of [topology/graph.cpp] and
    [PathService::enumerate] of [routing/paths.cpp]).  A search is seen through
    the distances [h] it has recorded ([u64_max] for none yet) and the number
    [u] of nodes without one. *)

From S2P Require Import Prelude.

Section Bfs.
Context {N : Type} `{EqDecision N}.
Context (known : N -> Prop) (R : N -> N -> Prop) (total : nat) (s : N).
Implicit Types (h : N -> Z) (u : nat) (n m : N) (Q : list N).

Definition reached h n : Prop := known n /\ h n <> u64_max.

Definition closed h n : Prop := forall m, R n m -> reached h m /\ h m <= h n + 1.

(** The search is expanding [n]; [Q] waits behind it, one level at a time. *)
Record expanding h u n Q : Prop := {
  ex_root : h s = 0;
  ex_current : reached h n;
  ex_sound m : reached h m ->
    0 <= h m /\ h m + Z.of_nat u < Z.of_nat total /\ nsteps R (Z.to_nat (h m)) s m;
  ex_levels : exists Q1 Q2, Q = Q1 ++ Q2 /\
    Forall (fun m => reached h m /\ h m = h n) Q1 /\
    Forall (fun m => reached h m /\ h m = h n + 1) Q2;
  ex_near m : reached h m -> h m <= h n + 1;
  ex_done m : reached h m -> m = n \/ m ∈ Q \/ closed h m;
}.

(** Nothing reached is moved. *)
Definition extends h h' : Prop := forall m, reached h m -> reached h' m /\ h' m = h m.

Lemma extends_refl h : extends h h.
Proof. intros m Hm. done. Qed.

Lemma extends_trans h1 h2 h3 : extends h1 h2 -> extends h2 h3 -> extends h1 h3.
Proof. intros H1 H2 m Hm. destruct (H1 m Hm) as [Hr Hh]. destruct (H2 m Hr). split; [done | lia]. Qed.

Lemma closed_extends h h' n : extends h h' -> reached h n -> closed h n -> closed h' n.
Proof.
  intros He Hn Hc m Hm. destruct (Hc m Hm) as [Hr Hh]. destruct (He m Hr) as [Hr' Hh'].
  split; [done |]. destruct (He n Hn) as [_ Hn']. lia.
Qed.

(** Only the distances of known nodes matter. *)
Lemma expanding_same h h' u n Q :
  known s -> (forall m, known m -> h' m = h m) -> expanding h u n Q -> expanding h' u n Q.
Proof.
  intros Hs Hh [H2 H3 H4 (Q1 & Q2 & -> & H5 & H6) H7 H8].
  assert (forall m, reached h' m <-> reached h m) as Hr.
  { intros m. unfold reached. split; intros [Hm Hx]; (split; [done |]);
      rewrite ?Hh in * by done; done. }
  assert (known n) as Hn by apply H3.
  split; [by rewrite Hh | by apply Hr | | | |].
  - intros m Hm. rewrite Hh by apply Hm. by apply H4, Hr.
  - exists Q1, Q2. split; [done |]. rewrite !Forall_forall in *. split; intros m Hm;
      [destruct (H5 m Hm) as [Hrm Hhm] | destruct (H6 m Hm) as [Hrm Hhm]];
      (split; [by apply Hr | rewrite !Hh by (done || apply Hrm); done]).
  - intros m Hm. rewrite !Hh by (done || apply Hm). by apply H7, Hr.
  - intros m Hm. destruct (H8 m (proj1 (Hr m) Hm)) as [| [|Hc]]; [by left | by right; left |].
    right; right. intros m' Hm'. destruct (Hc m' Hm') as [Hx Hy].
    split; [by apply Hr |]. rewrite !Hh by (apply Hx || apply Hm). done.
Qed.

(** ** A node is reached *)

Section NewNode.
Context (Htotal : Z.of_nat total <= u64_max) (Hs : known s).
Context h u n Q m h' u' (Hex : expanding h u n Q) (Hhop : R n m) (Hm : known m).
Context (Hnew : h m = u64_max) (Hu : S u' = u).
Context (Hh : forall k, known k -> h' k = if decide (k = m) then h n + 1 else h k).

Lemma new_node_bound : h n + 1 < u64_max.
Proof. destruct (ex_sound _ _ _ _ Hex n (ex_current _ _ _ _ Hex)) as (H0 & Hb & _). lia. Qed.

Lemma new_node_extends : extends h h'.
Proof.
  intros k [Hk Hr]. unfold reached. rewrite Hh by done.
  rewrite decide_False by (intros ->; done). done.
Qed.

Lemma new_node_reached k : reached h' k <-> k = m \/ reached h k.
Proof.
  pose proof new_node_bound as Hlt. unfold reached. split.
  - intros [Hk Hr]. rewrite Hh in Hr by done. case_decide; [by left | by right].
  - intros [-> | [Hk Hr]]; (split; [done |]); rewrite Hh by done; case_decide; lia || done.
Qed.

Lemma new_node_expanding : expanding h' u' n (Q ++ [m]).
Proof.
  pose proof new_node_bound as Hlt. pose proof new_node_extends as He.
  pose proof Hex as [H2 H3 H4 (Q1 & Q2 & HQ & H5 & H6) H7 H8].
  assert (h' n = h n) as Hn' by (by apply He).
  assert (h' m = h n + 1) as Hm' by (by rewrite Hh, decide_True).
  destruct (H4 n H3) as (Hn0 & Hnb & Hnp).
  split.
  - destruct (He s) as [_ ->]; [split; [done |]; rewrite H2; word_lia | done].
  - by apply He.
  - intros k [-> | Hk]%new_node_reached.
    + rewrite Hm'. split_and!; [lia | lia |].
      rewrite Z2Nat.inj_add, Nat.add_1_r by lia. by eapply nsteps_r.
    + destruct (He k Hk) as [_ ->]. destruct (H4 k Hk) as (? & ? & ?). split_and!; [done | lia | done].
  - exists Q1, (Q2 ++ [m]). split; [by rewrite HQ, app_assoc |]. rewrite Hn'. split.
    + eapply Forall_impl; [exact H5 |]. intros k [Hk ?]. by destruct (He k Hk) as [? ->].
    + apply Forall_app. split.
      * eapply Forall_impl; [exact H6 |]. intros k [Hk ?]. by destruct (He k Hk) as [? ->].
      * apply Forall_singleton. split; [apply new_node_reached; by left | done].
  - intros k [-> | Hk]%new_node_reached; rewrite Hn'; [lia |].
    destruct (He k Hk) as [_ ->]. by apply H7.
  - intros k [-> | Hk]%new_node_reached; [right; left; apply elem_of_app; right; by left |].
    destruct (H8 k Hk) as [| [|]]; [by left | right; left; apply elem_of_app; by left |].
    right; right. by eapply closed_extends.
Qed.
End NewNode.

(** ** The queue *)

(** All nodes that can be reached are, at their distance. *)
Definition searched h : Prop :=
  h s = 0 /\
  (forall m, reached h m -> 0 <= h m /\ nsteps R (Z.to_nat (h m)) s m) /\
  (forall m, reached h m -> closed h m).

(** The next node of the queue is expanded once [n] is closed. *)
Lemma expanding_next h u n n' Q :
  expanding h u n (n' :: Q) -> closed h n -> expanding h u n' Q.
Proof.
  intros [H2 H3 H4 (Q1 & Q2 & HQ & H5 & H6) H7 H8] Hc.
  assert (reached h n' /\ h n <= h n' /\
    exists Q1' Q2', Q = Q1' ++ Q2' /\
      Forall (fun m => reached h m /\ h m = h n') Q1' /\
      Forall (fun m => reached h m /\ h m = h n' + 1) Q2') as (Hr & Hle & Hl).
  { destruct Q1 as [| x Q1]; cbn in HQ; [subst Q2 | injection HQ as -> ->].
    - apply Forall_cons in H6 as [[Hr Hh] H6]. split_and!; [done | lia |].
      exists Q, []. rewrite app_nil_r. split_and!; [done | by rewrite Hh | done].
    - apply Forall_cons in H5 as [[Hr Hh] H5]. split_and!; [done | lia |].
      exists Q1, Q2. by rewrite Hh. }
  split; try done.
  - intros m Hm. specialize (H7 m Hm). lia.
  - intros m Hm. destruct (H8 m Hm) as [-> | [[-> | Hin]%elem_of_cons |]]; [| by left | by right; left |];
      right; right; done.
Qed.

Lemma expanding_end h u n : expanding h u n [] -> closed h n -> searched h.
Proof.
  intros [H2 H3 H4 _ H7 H8] Hc. split_and!; [done | |].
  - intros m Hm. destruct (H4 m Hm) as (? & ? & ?). done.
  - intros k Hk. destruct (H8 k Hk) as [-> | [?%elem_of_nil |]]; done.
Qed.

Lemma initial_expanding h u :
  known s -> h s = 0 -> (forall m, known m -> m <> s -> h m = u64_max) -> S u = total -> expanding h u s [].
Proof.
  intros Hs H0 Hh Hu.
  assert (forall m, reached h m -> m = s) as Hr.
  { intros m [Hm Hx]. destruct (decide (m = s)) as [| Hne]; [done |]. by rewrite (Hh m Hm Hne) in Hx. }
  split; try done.
  - split; [done |]. rewrite H0. word_lia.
  - intros m ->%Hr. rewrite H0. split_and!; [done | lia | constructor].
  - exists [], []. done.
  - intros m ->%Hr. lia.
  - intros m ->%Hr. by left.
Qed.

(** ** The result *)

Lemma searched_min h k n : known s -> searched h -> nsteps R k s n -> reached h n /\ h n <= Z.of_nat k.
Proof.
  intros Hs (Hroot & _ & Hclosed). revert n. induction k as [| k IH]; intros n Hk.
  - inversion Hk; subst. unfold reached. rewrite Hroot. split; [split; [done | word_lia] | lia].
  - apply nsteps_inv_r in Hk as (m & Hm & Hmn). destruct (IH m Hm) as [Hr Hle].
    destruct (Hclosed m Hr n Hmn). split; [done | lia].
Qed.

Lemma searched_distance h d : known s -> searched h -> known d ->
  if h d =? u64_max then ~ rtc R s d
  else 0 <= h d /\ nsteps R (Z.to_nat (h d)) s d /\ forall k, nsteps R k s d -> h d <= Z.of_nat k.
Proof.
  intros Hs Hsd Hd. destruct (Z.eqb_spec (h d) u64_max) as [Hx | Hx].
  - intros (k & Hk)%rtc_nsteps. by destruct (searched_min h k d Hs Hsd Hk) as [[_ ?] _].
  - pose proof Hsd as (_ & Hsound & _). destruct (Hsound d) as [H0 Hp]; [done |]. split_and!; try done.
    intros k Hk. by destruct (searched_min h k d Hs Hsd Hk).
Qed.
End Bfs.
