(* ===== verification/Topology.v ===== *)
(** * The topology graph

    Models [topology/graph.{hpp,cpp}]: construction of racks, NICs, GPUs,
    switches and links, operational state, and the breadth-first search for
    shortest paths.  A vector is a list; [alter] is the update through
    [operator[]] or [at] of an element that the guards have shown to exist. *)

From S2P Require Import Prelude SimTime Entities TelemetryRecords.

Record ShortestPathSummary : Type := mkShortestPathSummary {
  sps_hops : Z;
  sps_equal_cost_paths : Z;
}.

Record TopologyGraph : Type := mkTopologyGraph {
  gpu_ids_ : IdGenerator;
  nic_ids_ : IdGenerator;
  switch_ids_ : IdGenerator;
  rack_ids_ : IdGenerator;
  port_ids_ : IdGenerator;
  link_ids_ : IdGenerator;
  operational_revision_ : Z;
  gpus_ : list GpuWorker;
  nics_ : list Nic;
  switches_ : list Switch;
  racks_ : list Rack;
  ports_ : list Port;
  links_ : list PhysicalLink;
  gpu_adjacency_ : list (list DirectedLink);
  nic_adjacency_ : list (list DirectedLink);
  switch_adjacency_ : list (list DirectedLink);
}.

Definition empty_graph : TopologyGraph :=
  mkTopologyGraph (generator 0) (generator 0) (generator 0) (generator 0) (generator 0)
    (generator 0) 0 [] [] [] [] [] [] [] [] [].

(** ** Lookup *)

(** Identifiers are dense: the entity with identifier [i] is element [i]. *)
Definition find_dense {A} (id_of : A -> Z) (entities : list A) (id : Z) : option A :=
  if id >? u64_max then None else
  match entities !! Z.to_nat id with
  | Some e => if id_of e =? id then Some e else None
  | None => None
  end.

Definition find_gpu (id : GpuId) (g : TopologyGraph) : option GpuWorker :=
  find_dense gpu_id (gpus_ g) id.

Definition find_nic (id : NicId) (g : TopologyGraph) : option Nic := find_dense nic_id (nics_ g) id.

Definition find_switch (id : SwitchId) (g : TopologyGraph) : option Switch :=
  find_dense switch_id (switches_ g) id.

Definition find_rack (id : RackId) (g : TopologyGraph) : option Rack :=
  find_dense rack_id (racks_ g) id.

Definition find_port (id : PortId) (g : TopologyGraph) : option Port :=
  find_dense port_id (ports_ g) id.

Definition find_link (id : LinkId) (g : TopologyGraph) : option PhysicalLink :=
  find_dense link_id (links_ g) id.

Definition contains (node : NodeId) (g : TopologyGraph) : bool :=
  match node_kind node with
  | NodeKind_Gpu => has_value (find_gpu (node_value node) g)
  | NodeKind_Nic => has_value (find_nic (node_value node) g)
  | NodeKind_Switch => has_value (find_switch (node_value node) g)
  end.

Definition node_is_operational (node : NodeId) (g : TopologyGraph) : bool :=
  if negb (contains node g) then false else
  match node_kind node with
  | NodeKind_Switch =>
      match find_switch (node_value node) g with
      | Some s => bool_decide (switch_state s = Up)
      | None => false
      end
  | _ => true
  end.

(** The adjacency lists are indexed with [operator[]]; [gs_adjacency] of
    [TopologyLaws] shows that a known node is never out of range. *)
Definition adjacency (node : NodeId) (g : TopologyGraph) : outcome (list DirectedLink) :=
  if negb (contains node g)
  then Throw (out_of_range "cannot query adjacency for an unknown topology node") else
  let lists :=
    match node_kind node with
    | NodeKind_Gpu => gpu_adjacency_ g
    | NodeKind_Nic => nic_adjacency_ g
    | NodeKind_Switch => switch_adjacency_ g
    end in
  match lists !! Z.to_nat (node_value node) with
  | Some l => Ret l
  | None => Ret []
  end.

Definition is_operational (arc : DirectedLink) (g : TopologyGraph) : bool :=
  match find_link (dl_link (arc_id arc)) g, find_port (arc_source arc) g,
        find_port (arc_destination arc) g with
  | Some link, Some source, Some destination =>
      let '(forward, backward) := directed_links link in
      bool_decide (arc = forward \/ arc = backward) &&
      bool_decide (link_state link = Up) && bool_decide (port_state source = Up) &&
      bool_decide (port_state destination = Up) &&
      node_is_operational (port_owner source) g && node_is_operational (port_owner destination) g
  | _, _, _ => false
  end.

(** ** Construction *)

Abbreviation GraphM := (M TopologyGraph).

Definition next_rack_id : GraphM RackId :=
  zoom rack_ids_ (fun i g => {| g with rack_ids_ := i |}) SequentialIdGenerator.next.

Definition next_nic_id : GraphM NicId :=
  zoom nic_ids_ (fun i g => {| g with nic_ids_ := i |}) SequentialIdGenerator.next.

Definition next_gpu_id : GraphM GpuId :=
  zoom gpu_ids_ (fun i g => {| g with gpu_ids_ := i |}) SequentialIdGenerator.next.

Definition next_switch_id : GraphM SwitchId :=
  zoom switch_ids_ (fun i g => {| g with switch_ids_ := i |}) SequentialIdGenerator.next.

Definition next_port_id : GraphM PortId :=
  zoom port_ids_ (fun i g => {| g with port_ids_ := i |}) SequentialIdGenerator.next.

Definition next_link_id : GraphM LinkId :=
  zoom link_ids_ (fun i g => {| g with link_ids_ := i |}) SequentialIdGenerator.next.

Definition add_rack : GraphM RackId :=
  let! id := next_rack_id in
  do! modify (fun g => {| g with racks_ := racks_ g ++ [mkRack id [] [] []] |}) in
  ret id.

Definition add_nic (rack : RackId) : GraphM NicId :=
  let! rack_entity := gets (find_rack rack) in
  do! throw_if (negb (has_value rack_entity))
        (invalid_argument "cannot add NIC to an unknown rack") in
  let! id := next_nic_id in
  do! modify (fun g => {| g with
        nics_ := nics_ g ++ [mkNic id rack [] []];
        nic_adjacency_ := nic_adjacency_ g ++ [[]];
        racks_ := alter (fun r => {| r with rack_nics := rack_nics r ++ [id] |})
                    (Z.to_nat rack) (racks_ g) |}) in
  ret id.

(** [mutable_adjacency(node).push_back(arc)]: [at] throws out of range. *)
Definition push_adjacency (node : NodeId) (arc : DirectedLink) : GraphM unit :=
  let index := Z.to_nat (node_value node) in
  let! lists := gets (fun g => match node_kind node with
                               | NodeKind_Gpu => gpu_adjacency_ g
                               | NodeKind_Nic => nic_adjacency_ g
                               | NodeKind_Switch => switch_adjacency_ g
                               end) in
  do! throw_if (negb (has_value (lists !! index))) (out_of_range "vector::_M_range_check") in
  let lists := alter (fun l => l ++ [arc]) index lists in
  modify (fun g => match node_kind node with
                   | NodeKind_Gpu => {| g with gpu_adjacency_ := lists |}
                   | NodeKind_Nic => {| g with nic_adjacency_ := lists |}
                   | NodeKind_Switch => {| g with switch_adjacency_ := lists |}
                   end).

Definition append_link (link : PhysicalLink) (endpoint_a endpoint_b : NodeId) : GraphM unit :=
  let '(forward, backward) := directed_links link in
  do! modify (fun g => {| g with links_ := links_ g ++ [link] |}) in
  do! push_adjacency endpoint_a forward in
  push_adjacency endpoint_b backward.

Definition add_gpu (attached_nic : NicId) : GraphM GpuId :=
  let! nic_entity := gets (find_nic attached_nic) in
  match nic_entity with
  | None => throw (invalid_argument "cannot add GPU to an unknown NIC")
  | Some nic_entity =>
      let! gpu := next_gpu_id in
      let! gpu_port := next_port_id in
      let! nic_port := next_port_id in
      let! link := next_link_id in
      let rack := nic_rack nic_entity in
      do! modify (fun g => {| g with
            gpus_ := gpus_ g ++ [mkGpuWorker gpu rack attached_nic gpu_port];
            gpu_adjacency_ := gpu_adjacency_ g ++ [[]];
            nics_ := alter (fun n => {| n with
                         nic_attached_gpus := nic_attached_gpus n ++ [gpu];
                         nic_ports := nic_ports n ++ [nic_port] |})
                       (Z.to_nat attached_nic) (nics_ g);
            racks_ := alter (fun r => {| r with rack_gpus := rack_gpus r ++ [gpu] |})
                        (Z.to_nat rack) (racks_ g);
            ports_ := ports_ g ++ [mkPort gpu_port (gpu_node gpu) Local Up;
                                   mkPort nic_port (nic_node attached_nic) Local Up] |}) in
      do! append_link (mkPhysicalLink link gpu_port nic_port LocalAttachment Up)
            (gpu_node gpu) (nic_node attached_nic) in
      ret gpu
  end.

Definition add_leaf_switch (rack : RackId) : GraphM SwitchId :=
  let! rack_entity := gets (find_rack rack) in
  do! throw_if (negb (has_value rack_entity))
        (invalid_argument "cannot add leaf switch to an unknown rack") in
  let! id := next_switch_id in
  do! modify (fun g => {| g with
        switches_ := switches_ g ++ [mkSwitch id (Some rack) Leaf [] Up];
        switch_adjacency_ := switch_adjacency_ g ++ [[]];
        racks_ := alter (fun r => {| r with rack_leaf_switches := rack_leaf_switches r ++ [id] |})
                    (Z.to_nat rack) (racks_ g) |}) in
  ret id.

Definition add_spine_switch : GraphM SwitchId :=
  let! id := next_switch_id in
  do! modify (fun g => {| g with
        switches_ := switches_ g ++ [mkSwitch id None Spine [] Up];
        switch_adjacency_ := switch_adjacency_ g ++ [[]] |}) in
  ret id.

(** [std::ranges::any_of]: the first hit ends the scan, an unknown port throws. *)
Fixpoint any_neighbour (target : NodeId) (arcs : list DirectedLink) (g : TopologyGraph)
    : outcome bool :=
  match arcs with
  | [] => Ret false
  | arc :: rest =>
      match find_port (arc_destination arc) g with
      | None => Throw (logic_error "topology adjacency references an unknown port")
      | Some destination =>
          if bool_decide (port_owner destination = target) then Ret true
          else any_neighbour target rest g
      end
  end.

Definition directly_connected (endpoint_a endpoint_b : NodeId) (g : TopologyGraph) : outcome bool :=
  match adjacency endpoint_a g with
  | Ret arcs => any_neighbour endpoint_b arcs g
  | Throw e => Throw e
  end.

Definition append_owner_port (owner : NodeId) (port : PortId) : GraphM unit :=
  let index := Z.to_nat (node_value owner) in
  match node_kind owner with
  | NodeKind_Gpu => throw (logic_error "GPU workers have exactly one local port")
  | NodeKind_Nic =>
      let! nics := gets nics_ in
      do! throw_if (negb (has_value (nics !! index))) (out_of_range "vector::_M_range_check") in
      modify (fun g => {| g with nics_ :=
        alter (fun n => {| n with nic_ports := nic_ports n ++ [port] |}) index (nics_ g) |})
  | NodeKind_Switch =>
      let! switches := gets switches_ in
      do! throw_if (negb (has_value (switches !! index))) (out_of_range "vector::_M_range_check") in
      modify (fun g => {| g with switches_ :=
        alter (fun s => {| s with switch_ports := switch_ports s ++ [port] |}) index (switches_ g) |})
  end.

Definition connect_fabric (endpoint_a : NodeId) (role_a : PortRole) (endpoint_b : NodeId)
    (role_b : PortRole) : GraphM LinkId :=
  let! g := gets (fun g => g) in
  do! throw_if (negb (contains endpoint_a g) || negb (contains endpoint_b g))
        (invalid_argument "cannot connect an unknown topology node") in
  do! throw_if (bool_decide (endpoint_a = endpoint_b))
        (invalid_argument "cannot connect a topology node to itself") in
  do! throw_if (bool_decide (node_kind endpoint_a = NodeKind_Gpu) ||
                bool_decide (node_kind endpoint_b = NodeKind_Gpu))
        (invalid_argument "GPU fabric connections must use the attached NIC") in
  do! throw_if (bool_decide (role_a = Local) || bool_decide (role_b = Local))
        (invalid_argument "fabric connections require fabric port roles") in
  let! connected := of_outcome (directly_connected endpoint_a endpoint_b g) in
  do! throw_if connected (invalid_argument "parallel physical links are not supported") in
  let! port_a := next_port_id in
  let! port_b := next_port_id in
  let! link := next_link_id in
  do! append_owner_port endpoint_a port_a in
  do! append_owner_port endpoint_b port_b in
  do! modify (fun g => {| g with ports_ := ports_ g ++
        [mkPort port_a endpoint_a role_a Up; mkPort port_b endpoint_b role_b Up] |}) in
  do! append_link (mkPhysicalLink link port_a port_b Fabric Up) endpoint_a endpoint_b in
  ret link.

(** ** Operational state *)

Definition set_link_state (id : LinkId) (state : OperationalState) (g : TopologyGraph)
    : TopologyGraph * bool :=
  match find_link id g with
  | None => (g, false)
  | Some link =>
      if bool_decide (link_state link = state) then (g, true)
      else if operational_revision_ g =? u64_max then (g, false)
      else ({| g with
               operational_revision_ := u64_wrap (operational_revision_ g + 1);
               links_ := alter (fun l => {| l with link_state := state |}) (Z.to_nat id) (links_ g) |},
            true)
  end.

Definition set_port_state (id : PortId) (state : OperationalState) (g : TopologyGraph)
    : TopologyGraph * bool :=
  match find_port id g with
  | None => (g, false)
  | Some port =>
      if bool_decide (port_state port = state) then (g, true)
      else if operational_revision_ g =? u64_max then (g, false)
      else ({| g with
               operational_revision_ := u64_wrap (operational_revision_ g + 1);
               ports_ := alter (fun p => {| p with port_state := state |}) (Z.to_nat id) (ports_ g) |},
            true)
  end.

Definition set_switch_state (id : SwitchId) (state : OperationalState) (g : TopologyGraph)
    : TopologyGraph * bool :=
  match find_switch id g with
  | None => (g, false)
  | Some switch_entity =>
      if bool_decide (switch_state switch_entity = state) then (g, true)
      else if operational_revision_ g =? u64_max then (g, false)
      else ({| g with
               operational_revision_ := u64_wrap (operational_revision_ g + 1);
               switches_ := alter (fun s => {| s with switch_state := state |}) (Z.to_nat id)
                              (switches_ g) |},
            true)
  end.
