(* ===== verification/TopologyLaws.v ===== *)
(** * The topology graph is well formed

    The invariant of [TopologyGraph] and its preservation by every operation,
    including the ones that throw half way. *)

From S2P Require Import Prelude SimTime Entities TelemetryRecords Topology.

(** ** Dense vectors *)

Definition dense {A} (id_of : A -> Z) (l : list A) : Prop :=
  zlength l <= u64_max + 1 /\ forall i e, l !! i = Some e -> id_of e = Z.of_nat i.

Section Dense.
Context {A : Type} (id_of : A -> Z).
Implicit Types (l : list A).

Lemma find_dense_Some l id e :
  dense id_of l -> find_dense id_of l id = Some e <-> 0 <= id /\ l !! Z.to_nat id = Some e.
Proof.
  intros [Hlen Hd]. unfold find_dense. split.
  - destruct (id >? u64_max); [done |]. destruct (l !! Z.to_nat id) as [x |] eqn:Hx; [| done].
    destruct (id_of x =? id) eqn:Hid; [| done]. intros [= <-]. split; [| done].
    apply Hd in Hx. lia.
  - intros [Hid Hx]. pose proof (lookup_lt_Some _ _ _ Hx) as Hlt. unfold zlength in Hlen.
    replace (id >? u64_max) with false by lia. rewrite Hx. apply Hd in Hx.
    replace (id_of e =? id) with true by lia. done.
Qed.

Lemma find_dense_is_Some l id :
  dense id_of l -> is_Some (find_dense id_of l id) <-> 0 <= id < zlength l.
Proof.
  intros Hd. unfold zlength. split.
  - intros [e He]. apply find_dense_Some in He as [H0 He]; [| done].
    apply lookup_lt_Some in He. lia.
  - intros Hid. destruct (lookup_lt_is_Some_2 l (Z.to_nat id)) as [e He]; [lia |].
    exists e. apply find_dense_Some; [done | split; [lia | done]].
Qed.

Lemma dense_nil : dense id_of [].
Proof. split; [unfold zlength; cbn; word_lia | intros i e; by rewrite lookup_nil]. Qed.

Lemma dense_snoc l e :
  dense id_of l -> id_of e = zlength l -> zlength l <= u64_max -> dense id_of (l ++ [e]).
Proof.
  intros [Hlen Hd] Hid Hle. split.
  - unfold zlength in *. rewrite length_app. cbn. lia.
  - intros i x Hx. apply lookup_app_Some in Hx as [Hx | [Hge Hx]]; [by apply Hd |].
    apply list_lookup_singleton_Some in Hx as [Hi <-]. rewrite Hid. unfold zlength. lia.
Qed.

Lemma dense_alter l f i : (forall e, id_of (f e) = id_of e) -> dense id_of l -> dense id_of (alter f i l).
Proof.
  intros Hf [Hlen Hd]. split; [unfold zlength in *; by rewrite length_alter |].
  intros j e Hj. rewrite list_lookup_alter in Hj. destruct (decide (i = j)) as [-> |].
  - apply fmap_Some in Hj as (x & Hx & ->). rewrite Hf. by apply Hd.
  - by apply Hd.
Qed.

Lemma zlength_snoc l e : zlength (l ++ [e]) = zlength l + 1.
Proof. unfold zlength. rewrite length_app. cbn. lia. Qed.

Lemma zlength_alter l (f : A -> A) i : zlength (alter f i l) = zlength l.
Proof. unfold zlength. by rewrite length_alter. Qed.

End Dense.

(** ** Ownership and arcs *)

Definition owner_of (g : TopologyGraph) (p : PortId) : option NodeId :=
  port_owner <$> (ports_ g !! Z.to_nat p).

Definition arcs_of (links : list PhysicalLink) : list DirectedLink :=
  concat ((fun l => [fst (directed_links l); snd (directed_links l)]) <$> links).

(** The arcs that leave [n], in the order the links were added. *)
Definition arcs_from (g : TopologyGraph) (n : NodeId) : list DirectedLink :=
  filter (fun arc => owner_of g (arc_source arc) = Some n) (arcs_of (links_ g)).

(** Lookup of the adjacency list of a node. *)
Definition adjacency_list (g : TopologyGraph) (n : NodeId) : option (list DirectedLink) :=
  match node_kind n with
  | NodeKind_Gpu => gpu_adjacency_ g !! Z.to_nat (node_value n)
  | NodeKind_Nic => nic_adjacency_ g !! Z.to_nat (node_value n)
  | NodeKind_Switch => switch_adjacency_ g !! Z.to_nat (node_value n)
  end.

(** The number of nodes of a kind. *)
Definition node_count (g : TopologyGraph) (k : NodeKind) : Z :=
  match k with
  | NodeKind_Gpu => zlength (gpus_ g)
  | NodeKind_Nic => zlength (nics_ g)
  | NodeKind_Switch => zlength (switches_ g)
  end.

Definition node_in (g : TopologyGraph) (n : NodeId) : Prop :=
  0 <= node_value n < node_count g (node_kind n).

(** No port or link can be added any more. *)
Definition stuck (g : TopologyGraph) : Prop :=
  exhausted_ (port_ids_ g) = true \/ exhausted_ (link_ids_ g) = true.

(** Nothing but the supply of identifiers differs. *)
Definition same_vectors (g g' : TopologyGraph) : Prop :=
  gpus_ g' = gpus_ g /\ nics_ g' = nics_ g /\ switches_ g' = switches_ g /\ racks_ g' = racks_ g /\
  ports_ g' = ports_ g /\ links_ g' = links_ g.

(** There are not enough identifiers for a link and its ports. *)
Definition no_room (g : TopologyGraph) : Prop :=
  u64_max < frontier (gpu_ids_ g) \/ u64_max < frontier (port_ids_ g) + 1 \/ u64_max < frontier (link_ids_ g).

Lemma exhausted_frontier i : exhausted_ i = true -> u64_max < frontier i.
Proof. unfold frontier. intros ->. lia. Qed.

Record ids_ok (g : TopologyGraph) : Prop := {
  gi_racks : generator_ok (rack_ids_ g) /\ frontier (rack_ids_ g) = zlength (racks_ g);
  gi_nics : generator_ok (nic_ids_ g) /\ frontier (nic_ids_ g) = zlength (nics_ g);
  gi_switches : generator_ok (switch_ids_ g) /\ frontier (switch_ids_ g) = zlength (switches_ g);
  gi_links : generator_ok (link_ids_ g) /\ frontier (link_ids_ g) = zlength (links_ g);
  gi_gpus : generator_ok (gpu_ids_ g) /\ (frontier (gpu_ids_ g) = zlength (gpus_ g) \/ stuck g);
  gi_ports : generator_ok (port_ids_ g) /\ (frontier (port_ids_ g) = zlength (ports_ g) \/ stuck g);
}.

Record vectors_ok (g : TopologyGraph) : Prop := {
  gv_racks : dense rack_id (racks_ g);
  gv_nics : dense nic_id (nics_ g);
  gv_switches : dense switch_id (switches_ g);
  gv_links : dense link_id (links_ g);
  gv_gpus : dense gpu_id (gpus_ g);
  gv_ports : dense port_id (ports_ g);
}.

(** The two ends of a link: known ports of two different known nodes; the fabric
    joins NICs and switches only. *)
Definition link_ok (g : TopologyGraph) (l : PhysicalLink) : Prop :=
  0 <= link_endpoint_a l < zlength (ports_ g) /\ 0 <= link_endpoint_b l < zlength (ports_ g) /\
  owner_of g (link_endpoint_a l) <> owner_of g (link_endpoint_b l) /\
  (link_kind l = Fabric -> forall n,
     owner_of g (link_endpoint_a l) = Some n \/ owner_of g (link_endpoint_b l) = Some n ->
     node_kind n <> NodeKind_Gpu).

(** A GPU is attached to a NIC of its rack. *)
Definition gpu_ok (nics : list Nic) (w : GpuWorker) : Prop :=
  0 <= gpu_attached_nic w /\
  exists k, nics !! Z.to_nat (gpu_attached_nic w) = Some k /\ nic_rack k = gpu_rack w.

Record structure_ok (g : TopologyGraph) : Prop := {
  gs_owner p : p ∈ ports_ g -> node_in g (port_owner p);
  gs_links l : l ∈ links_ g -> link_ok g l;
  gs_adjacency n : node_in g n -> adjacency_list g n = Some (arcs_from g n);
  gs_lengths : length (gpu_adjacency_ g) = length (gpus_ g) /\
    length (nic_adjacency_ g) = length (nics_ g) /\
    length (switch_adjacency_ g) = length (switches_ g);
  gs_nics n : n ∈ nics_ g -> 0 <= nic_rack n < zlength (racks_ g);
  gs_gpus w : w ∈ gpus_ g -> gpu_ok (nics_ g) w;
}.

Record graph_ok (g : TopologyGraph) : Prop := {
  go_ids : ids_ok g;
  go_vectors : vectors_ok g;
  go_structure : structure_ok g;
}.

Lemma contains_node_in g n : vectors_ok g -> contains n g = true <-> node_in g n.
Proof.
  intros [? ? ? ? ? ?]. unfold contains, node_in, node_count, has_value.
  destruct (node_kind n); rewrite bool_decide_eq_true;
    unfold find_gpu, find_nic, find_switch; by apply find_dense_is_Some.
Qed.

Lemma adjacency_arcs g n :
  graph_ok g -> adjacency n g =
    if contains n g then Ret (arcs_from g n)
    else Throw (out_of_range "cannot query adjacency for an unknown topology node").
Proof.
  intros Hg. unfold adjacency. destruct (contains n g) eqn:Hc; cbn [negb]; [| done].
  apply contains_node_in in Hc; [| apply Hg].
  pose proof (gs_adjacency _ (go_structure _ Hg) n Hc) as Ha. unfold adjacency_list in Ha.
  destruct (node_kind n); by rewrite Ha.
Qed.

(** The empty graph. *)
Lemma empty_graph_ok : graph_ok empty_graph.
Proof.
  assert (generator_ok (generator 0)) by (unfold generator_ok; cbn; word_lia).
  split; split; try done; try apply dense_nil; try (split; [done | by left]);
    try (by intros x ?%elem_of_nil).
  intros n Hn. unfold node_in, node_count, empty_graph, zlength in Hn.
  destruct (node_kind n); cbn in Hn; lia.
Qed.

(** ** Arcs of a longer list of links *)

Lemma arcs_of_snoc links l :
  arcs_of (links ++ [l]) = arcs_of links ++ [fst (directed_links l); snd (directed_links l)].
Proof. unfold arcs_of. by rewrite fmap_app, concat_app. Qed.

Lemma elem_of_arcs links arc :
  arc ∈ arcs_of links <->
  exists l, l ∈ links /\ (arc = fst (directed_links l) \/ arc = snd (directed_links l)).
Proof.
  unfold arcs_of. rewrite list_elem_of_In, in_concat. setoid_rewrite <- list_elem_of_In. split.
  - intros (x & (l & -> & Hl)%list_elem_of_fmap & Hx).
    apply elem_of_cons in Hx as [-> | Hx]; [eauto |]. apply list_elem_of_singleton in Hx as ->. eauto.
  - intros (l & Hl & Ha). eexists. split; [apply list_elem_of_fmap; eauto |].
    destruct Ha as [-> | ->]; [left | right; left].
Qed.

Lemma gpu_ok_alter nics f i w :
  (forall n, nic_rack (f n) = nic_rack n) -> gpu_ok nics w -> gpu_ok (alter f i nics) w.
Proof.
  intros Hf (H0 & k & Hk & Hr). split; [done |]. rewrite list_lookup_alter. case_decide; [| by exists k].
  exists (f k). subst. rewrite Hk. split; [done |]. by rewrite Hf.
Qed.

Lemma gpu_ok_snoc nics n w : gpu_ok nics w -> gpu_ok (nics ++ [n]) w.
Proof.
  intros (H0 & k & Hk & Hr). split; [done |]. exists k. split; [| done].
  rewrite lookup_app_l; [done | by eapply lookup_lt_Some].
Qed.

(** ** Growth *)

(** New nodes without ports. *)
Lemma structure_grow g g' :
  structure_ok g -> ports_ g' = ports_ g -> links_ g' = links_ g ->
  (forall n, node_in g n -> node_in g' n /\ adjacency_list g' n = adjacency_list g n) ->
  (forall n, node_in g' n -> ~ node_in g n -> adjacency_list g' n = Some []) ->
  (length (gpu_adjacency_ g') = length (gpus_ g') /\
   length (nic_adjacency_ g') = length (nics_ g') /\
   length (switch_adjacency_ g') = length (switches_ g')) ->
  (forall n, n ∈ nics_ g' -> 0 <= nic_rack n < zlength (racks_ g')) ->
  (forall w, w ∈ gpus_ g' -> gpu_ok (nics_ g') w) ->
  structure_ok g'.
Proof.
  intros [H1 H2 H3 H4 H5 H6] Ep El Hold Hnew Hlen Hnics Hgpus.
  assert (forall p, owner_of g' p = owner_of g p) as Ho by (intros p; unfold owner_of; by rewrite Ep).
  assert (forall n, arcs_from g' n = arcs_from g n) as Ha.
  { intros n. unfold arcs_from. rewrite El. apply list_filter_iff. intros arc. by rewrite Ho. }
  assert (forall n, node_in g n \/ ~ node_in g n) as Hdec by (intros n; unfold node_in; lia).
  split; [| | | done | done | done].
  - intros p Hp. rewrite Ep in Hp. by apply Hold, H1.
  - intros l Hl. rewrite El in Hl. specialize (H2 l Hl). unfold link_ok in *.
    by rewrite !Ho, Ep.
  - intros n Hn. rewrite Ha. destruct (Hdec n) as [Hi | Hi]; [by rewrite (proj2 (Hold n Hi)), H3 |].
    rewrite (Hnew n Hn Hi). f_equal. symmetry. apply elem_of_nil_inv. intros arc.
    intros [Hown (l & Hl & _)%elem_of_arcs]%list_elem_of_filter.
    unfold owner_of in Hown. apply fmap_Some in Hown as (p & Hp & ->).
    apply Hi, H1. by eapply list_elem_of_lookup_2.
Qed.

(** A new link between two known nodes, through two new ports. *)
Lemma structure_link g g' l a b pa pb :
  structure_ok g -> node_in g a -> node_in g b -> a <> b ->
  (link_kind l = Fabric -> node_kind a <> NodeKind_Gpu /\ node_kind b <> NodeKind_Gpu) ->
  ports_ g' = ports_ g ++ [pa; pb] -> links_ g' = links_ g ++ [l] ->
  link_endpoint_a l = zlength (ports_ g) -> link_endpoint_b l = zlength (ports_ g) + 1 ->
  port_owner pa = a -> port_owner pb = b ->
  (forall n, node_in g' n <-> node_in g n) ->
  (forall n, node_in g n -> adjacency_list g' n =
     (fun old => if decide (n = a) then old ++ [fst (directed_links l)]
                 else if decide (n = b) then old ++ [snd (directed_links l)] else old)
       <$> adjacency_list g n) ->
  (length (gpu_adjacency_ g') = length (gpus_ g') /\
   length (nic_adjacency_ g') = length (nics_ g') /\
   length (switch_adjacency_ g') = length (switches_ g')) ->
  (forall n, n ∈ nics_ g' -> 0 <= nic_rack n < zlength (racks_ g')) ->
  (forall w, w ∈ gpus_ g' -> gpu_ok (nics_ g') w) ->
  structure_ok g'.
Proof.
  intros [H1 H2 H3 H4 H5 H6] Ha Hb Hab Hfab Ep El Ela Elb Oa Ob Hnode Hadj Hlen Hnics Hgpus.
  assert (forall p, 0 <= p < zlength (ports_ g) -> owner_of g' p = owner_of g p) as Ho.
  { intros p Hp. unfold owner_of. rewrite Ep, lookup_app_l; [done |]. unfold zlength in Hp. lia. }
  assert (owner_of g' (link_endpoint_a l) = Some a) as Hoa.
  { unfold owner_of. rewrite Ep, Ela, lookup_app_r by (unfold zlength; lia).
    replace (_ - _)%nat with 0%nat by (unfold zlength; lia). cbn. by rewrite Oa. }
  assert (owner_of g' (link_endpoint_b l) = Some b) as Hob.
  { unfold owner_of. rewrite Ep, Elb, lookup_app_r by (unfold zlength; lia).
    replace (_ - _)%nat with 1%nat by (unfold zlength; lia). cbn. by rewrite Ob. }
  assert (zlength (ports_ g') = zlength (ports_ g) + 2) as Hpl.
  { rewrite Ep. unfold zlength. rewrite length_app. cbn. lia. }
  split; [| | | done | done | done].
  - intros p Hp. apply Hnode. rewrite Ep in Hp. apply elem_of_app in Hp as [Hp | Hp]; [by apply H1 |].
    apply elem_of_cons in Hp as [-> | Hp]; [by rewrite Oa |].
    apply list_elem_of_singleton in Hp as ->. by rewrite Ob.
  - intros x Hx. rewrite El in Hx. apply elem_of_app in Hx as [Hx | ->%list_elem_of_singleton].
    + destruct (H2 x Hx) as (Hxa & Hxb & Hxo). unfold link_ok.
      rewrite Hpl, !Ho by done. split_and!; (lia || apply Hxo).
    + unfold link_ok. rewrite Hpl, Hoa, Hob, Ela, Elb. split_and!; try (unfold zlength; lia); [congruence |].
      intros Hk n [[= <-] | [= <-]]; by apply Hfab.
  - intros n Hn. apply Hnode in Hn. rewrite (Hadj n Hn), (H3 n Hn). cbn. f_equal.
    unfold arcs_from. rewrite El, arcs_of_snoc, filter_app.
    assert (filter (fun arc => owner_of g' (arc_source arc) = Some n) (arcs_of (links_ g)) =
            filter (fun arc => owner_of g (arc_source arc) = Some n) (arcs_of (links_ g))) as ->.
    { apply filter_ext_in. intros arc (x & Hx & Harc)%elem_of_arcs.
      destruct (H2 x Hx) as (Hxa & Hxb & _). rewrite Ho; [done |].
      destruct Harc as [-> | ->]; done. }
    change (arc_source (fst (directed_links l))) with (link_endpoint_a l).
    rewrite !filter_cons, filter_nil. cbn [directed_links fst snd arc_source]. rewrite Hoa, Hob.
    destruct (decide (n = a)), (decide (n = b)), (decide (Some a = Some n)),
      (decide (Some b = Some n)); try congruence; by rewrite ?app_nil_r.
Qed.

(** Reads through record updates of the graph. *)
Ltac graph_cbn := cbn [gpu_ids_ nic_ids_ switch_ids_ rack_ids_ port_ids_ link_ids_
  operational_revision_ gpus_ nics_ switches_ racks_ ports_ links_ gpu_adjacency_ nic_adjacency_
  switch_adjacency_] in *.

(** ** Drawing identifiers *)

Lemma wp_next_id (get : TopologyGraph -> IdGenerator) set
    (Q : TopologyGraph -> Z -> Prop) (E : TopologyGraph -> exn -> Prop) g :
  generator_ok (get g) ->
  (forall e, exhausted_ (get g) = true -> E (set (get g) g) e) ->
  (forall i, exhausted_ (get g) = false -> generator_ok i -> frontier i = frontier (get g) + 1 ->
     u64 (frontier (get g)) -> Q (set i g) (frontier (get g))) ->
  wp (zoom get set SequentialIdGenerator.next) Q E g.
Proof.
  intros Hok HE HQ. unfold wp, zoom. destruct (exhausted_ (get g)) eqn:He.
  - destruct (next_exhausted (next := SequentialIdGenerator.next) (get g) He) as [w Hw].
    rewrite Hw. by apply HE.
  - destruct (next_issues (next := SequentialIdGenerator.next) (get g) Hok He) as (i & Hi & Hoki & Hf).
    rewrite Hi. rewrite <- (frontier_next_value _ He) in *. apply HQ; try done.
    rewrite (frontier_next_value _ He). exact Hok.
Qed.

(** A refused draw leaves the graph as it was. *)

Lemma graph_same_rack_ids g : {| g with rack_ids_ := rack_ids_ g |} = g.
Proof. by destruct g. Qed.

Lemma graph_same_nic_ids g : {| g with nic_ids_ := nic_ids_ g |} = g.
Proof. by destruct g. Qed.

Lemma graph_same_switch_ids g : {| g with switch_ids_ := switch_ids_ g |} = g.
Proof. by destruct g. Qed.

Lemma has_value_false {A} (o : option A) : has_value o = false -> o = None.
Proof. unfold has_value. rewrite bool_decide_eq_false. intros Hn. destruct o; [by destruct Hn; eauto | done]. Qed.

(** ** Racks, NICs and switches *)

Lemma add_rack_spec g :
  graph_ok g ->
  wp add_rack (fun g' id => graph_ok g' /\ find_rack id g' = Some (mkRack id [] [] []) /\
                            find_rack id g = None)
    (fun g' _ => g' = g /\ u64_max < zlength (racks_ g)) g.
Proof.
  intros Hg. unfold add_rack. wp_step.
  destruct (gi_racks _ (go_ids _ Hg)) as [Hgen Hfr].
  apply wp_next_id; [done | |].
  { intros e He%exhausted_frontier. rewrite Hfr in He. split; [apply graph_same_rack_ids | done]. }
  intros i He Hi Hf Hu. wp_step. apply wp_modify. wp_step. rewrite Hfr in *.
  pose proof (gv_racks _ (go_vectors _ Hg)) as Hd.
  assert (dense rack_id (racks_ g ++ [mkRack (zlength (racks_ g)) [] [] []])) as Hd'
    by (apply dense_snoc; [done | done | unfold u64 in Hu; lia]).
  split; [| split].
  - destruct Hg as [[] [] Hs]. split; [split; cbn; try done | split; cbn; try done |].
    + split; [done |]. rewrite zlength_snoc. lia.
    + apply (structure_grow g); try done; [apply Hs | | apply Hs]. intros n Hn. cbn in *.
      rewrite zlength_snoc. apply Hs in Hn. lia.
  - unfold find_rack. cbn. apply find_dense_Some; [done |]. split; [unfold zlength; lia |].
    unfold zlength. rewrite Nat2Z.id, lookup_app_r, Nat.sub_diag by done. done.
  - unfold find_rack. apply eq_None_not_Some. rewrite find_dense_is_Some by done. lia.
Qed.

Lemma lookup_snoc_new {A} (l : list A) x : (l ++ [x]) !! Z.to_nat (zlength l) = Some x.
Proof. unfold zlength. rewrite Nat2Z.id, lookup_app_r, Nat.sub_diag by done. done. Qed.

Lemma lookup_snoc_old {A} (l : list A) x i :
  0 <= i < zlength l -> (l ++ [x]) !! Z.to_nat i = l !! Z.to_nat i.
Proof. intros Hi. apply lookup_app_l. unfold zlength in Hi. lia. Qed.

Lemma find_dense_new {A} (id_of : A -> Z) l e :
  dense id_of (l ++ [e]) -> find_dense id_of (l ++ [e]) (zlength l) = Some e.
Proof.
  intros Hd. apply find_dense_Some; [done |]. split; [unfold zlength; lia | apply lookup_snoc_new].
Qed.

Lemma find_dense_fresh {A} (id_of : A -> Z) l : dense id_of l -> find_dense id_of l (zlength l) = None.
Proof. intros Hd. apply eq_None_not_Some. rewrite find_dense_is_Some by done. lia. Qed.

(** One more list at the end of an adjacency vector. *)
Lemma adjacency_snoc (lists : list (list DirectedLink)) (count i : Z) :
  Z.of_nat (length lists) = count -> 0 <= i < count + 1 ->
  (lists ++ [[]]) !! Z.to_nat i = if decide (i = count) then Some [] else lists !! Z.to_nat i.
Proof.
  intros Hl Hi. case_decide as Hd.
  - subst i count. change (Z.of_nat (length lists)) with (zlength lists). apply lookup_snoc_new.
  - apply lookup_snoc_old. unfold zlength. lia.
Qed.

(** Solves the two node conditions of [structure_grow] after adding a node. *)
Ltac grow_nodes n Hlen :=
  unfold node_in, node_count, adjacency_list in *; cbn in *;
  destruct (node_kind n); cbn in *; rewrite ?zlength_snoc, ?zlength_alter in *;
  try (split; [lia |]); try done;
  erewrite adjacency_snoc by (rewrite ?Hlen; unfold zlength in *; (reflexivity || lia));
  case_decide; unfold zlength in *; try lia; try done.

Lemma add_nic_spec rack g :
  graph_ok g ->
  wp (add_nic rack) (fun g' id => graph_ok g' /\ find_nic id g' = Some (mkNic id rack [] []) /\
                                  find_nic id g = None)
    (fun g' _ => g' = g /\ (find_rack rack g = None \/ u64_max < zlength (nics_ g))) g.
Proof.
  intros Hg. unfold add_nic. do 2 wp_step. cbv beta. wp_step.
  apply wp_throw_if; [intros Hr%negb_true_iff%has_value_false; by split; [| left] |]. intros Hr%negb_false_iff%bool_decide_eq_true.
  apply find_dense_is_Some in Hr; [| apply Hg].
  destruct (gi_nics _ (go_ids _ Hg)) as [Hgen Hfr]. wp_step.
  apply wp_next_id; [done | |].
  { intros e He%exhausted_frontier. rewrite Hfr in He. split; [apply graph_same_nic_ids | by right]. }
  intros i He Hi Hf Hu. wp_step. apply wp_modify. wp_step. rewrite Hfr in *.
  pose proof (gv_nics _ (go_vectors _ Hg)) as Hd.
  assert (dense nic_id (nics_ g ++ [mkNic (zlength (nics_ g)) rack [] []])) as Hd'
    by (apply dense_snoc; [done | done | unfold u64 in Hu; lia]).
  split; [| split; [by apply find_dense_new | by apply find_dense_fresh]].
  destruct Hg as [[] [] Hs].
  split; [split; cbn; rewrite ?zlength_alter; try done | split; cbn; try done; by apply dense_alter |].
  - split; [done |]. rewrite zlength_snoc. lia.
  - destruct (gs_lengths _ Hs) as (L1 & L2 & L3).
    apply (structure_grow g); try done.
    + intros n Hn. grow_nodes n L2.
    + intros n Hn Hno. grow_nodes n L2.
    + cbn. rewrite !length_app. cbn. lia.
    + intros n Hn. cbn in *. rewrite zlength_alter.
      apply elem_of_app in Hn as [Hn | ->%list_elem_of_singleton]; [by apply Hs | done].
    + intros w Hw. cbn in *. apply gpu_ok_snoc. by apply Hs.
Qed.

(** Both kinds of switch add one element to the switches and their adjacency. *)
Lemma add_switch_ok g i racks sw :
  graph_ok g -> generator_ok i -> frontier i = zlength (switches_ g) + 1 ->
  zlength (switches_ g) <= u64_max ->
  switch_id sw = zlength (switches_ g) -> dense rack_id racks -> zlength racks = zlength (racks_ g) ->
  let g' := {| g with switch_ids_ := i; switches_ := switches_ g ++ [sw];
                      switch_adjacency_ := switch_adjacency_ g ++ [[]]; racks_ := racks |} in
  graph_ok g' /\ find_switch (zlength (switches_ g)) g' = Some sw /\
  find_switch (zlength (switches_ g)) g = None.
Proof.
  intros Hg Hi Hf Hu Hid Hdr Hlr g'.
  pose proof (gv_switches _ (go_vectors _ Hg)) as Hd.
  assert (dense switch_id (switches_ g ++ [sw])) as Hd' by (by apply dense_snoc).
  split; [| split; [by apply find_dense_new | by apply find_dense_fresh]].
  destruct Hg as [[] [] Hs].
  split; [split; cbn; rewrite ?Hlr; try done | split; cbn; try done |].
  - split; [done |]. rewrite zlength_snoc. lia.
  - destruct (gs_lengths _ Hs) as (L1 & L2 & L3).
    apply (structure_grow g); try done.
    + intros n Hn. grow_nodes n L3.
    + intros n Hn Hno. grow_nodes n L3.
    + cbn. rewrite !length_app. cbn. lia.
    + intros n Hn. cbn in *. rewrite Hlr. by apply Hs.
    + apply Hs.
Qed.

Lemma add_leaf_switch_spec rack g :
  graph_ok g ->
  wp (add_leaf_switch rack)
    (fun g' id => graph_ok g' /\ find_switch id g' = Some (mkSwitch id (Some rack) Leaf [] Up) /\
                  find_switch id g = None)
    (fun g' _ => g' = g /\ (find_rack rack g = None \/ u64_max < zlength (switches_ g))) g.
Proof.
  intros Hg. unfold add_leaf_switch. do 2 wp_step. cbv beta. wp_step.
  apply wp_throw_if; [intros Hr%negb_true_iff%has_value_false; by split; [| left] |]. intros Hr%negb_false_iff%bool_decide_eq_true.
  destruct (gi_switches _ (go_ids _ Hg)) as [Hgen Hfr]. wp_step.
  apply wp_next_id; [done | |].
  { intros e He%exhausted_frontier. rewrite Hfr in He. split; [apply graph_same_switch_ids | by right]. }
  intros i He Hi Hf Hu. wp_step. apply wp_modify. wp_step. rewrite Hfr in *.
  apply (add_switch_ok g i); try done; [unfold u64 in Hu; lia | | by rewrite zlength_alter].
  apply dense_alter; [done | apply Hg].
Qed.

Lemma add_spine_switch_spec g :
  graph_ok g ->
  wp add_spine_switch
    (fun g' id => graph_ok g' /\ find_switch id g' = Some (mkSwitch id None Spine [] Up) /\
                  find_switch id g = None)
    (fun g' _ => g' = g /\ u64_max < zlength (switches_ g)) g.
Proof.
  intros Hg. unfold add_spine_switch.
  destruct (gi_switches _ (go_ids _ Hg)) as [Hgen Hfr]. wp_step.
  apply wp_next_id; [done | |].
  { intros e He%exhausted_frontier. rewrite Hfr in He. split; [apply graph_same_switch_ids | done]. }
  intros i He Hi Hf Hu. wp_step. apply wp_modify. wp_step. rewrite Hfr in *.
  apply (add_switch_ok g i (racks_ g)); try done; [unfold u64 in Hu; lia | apply Hg].
Qed.

(** ** Adding a link *)

(** The graph without its adjacency lists. *)
Definition core (g : TopologyGraph) : TopologyGraph :=
  {| g with gpu_adjacency_ := []; nic_adjacency_ := []; switch_adjacency_ := [] |}.

Lemma core_node_in g g' n : core g' = core g -> node_in g' n <-> node_in g n.
Proof.
  intros Hc. unfold node_in, node_count.
  pose proof (f_equal gpus_ Hc) as E1. pose proof (f_equal nics_ Hc) as E2.
  pose proof (f_equal switches_ Hc) as E3. cbn in *. by rewrite E1, E2, E3.
Qed.

Lemma push_adjacency_run n arc g old :
  adjacency_list g n = Some old -> 0 <= node_value n ->
  exists g', push_adjacency n arc g = (g', Ret tt) /\ core g' = core g /\
    length (gpu_adjacency_ g') = length (gpu_adjacency_ g) /\
    length (nic_adjacency_ g') = length (nic_adjacency_ g) /\
    length (switch_adjacency_ g') = length (switch_adjacency_ g) /\
    forall m, 0 <= node_value m -> adjacency_list g' m =
      (fun l => if decide (m = n) then l ++ [arc] else l) <$> adjacency_list g m.
Proof.
  intros Hold Hn. unfold push_adjacency, bind, gets, throw_if, modify, ret, has_value.
  assert (forall (lists : list (list DirectedLink)) i j, 0 <= i -> 0 <= j ->
    alter (fun l => l ++ [arc]) (Z.to_nat i) lists !! Z.to_nat j =
    (fun l => if decide (i = j) then l ++ [arc] else l) <$> (lists !! Z.to_nat j)) as Halt.
  { intros lists i j Hi Hj. rewrite list_lookup_alter. destruct (decide (i = j)) as [-> | Hne].
    - by rewrite decide_True.
    - rewrite decide_False by lia. by rewrite option_fmap_id. }
  assert (forall (o : option (list DirectedLink)) (P : Prop) `{Decision P}, ~ P ->
    o = (fun l => if decide P then l ++ [arc] else l) <$> o) as Hid.
  { intros o P ? HP. destruct o; [| done]. cbn. by rewrite decide_False. }
  assert (forall (o : option (list DirectedLink)) (P P' : Prop) `{Decision P} `{Decision P'}, (P <-> P') ->
    (fun l => if decide P then l ++ [arc] else l) <$> o =
    (fun l => if decide P' then l ++ [arc] else l) <$> o) as Hiff.
  { intros o P P' ? ? HP. destruct o; [| done]. cbn. f_equal.
    destruct (decide P), (decide P'); tauto. }
  unfold adjacency_list in Hold.
  destruct n as [k v]; cbn [node_kind node_value] in *.
  destruct k; rewrite Hold, bool_decide_eq_true_2 by eauto; cbn [negb];
    (eexists; split; [reflexivity |]); cbn; rewrite ?length_alter; (split_and!; try done);
    intros [k' v'] Hm; unfold adjacency_list; cbn [node_kind node_value] in *;
    destruct k'; cbn; rewrite ?Halt by done; try (apply Hid; congruence);
    apply Hiff; split; congruence.
Qed.

Lemma append_link_run l a b g la lb :
  adjacency_list g a = Some la -> adjacency_list g b = Some lb ->
  0 <= node_value a -> 0 <= node_value b -> a <> b ->
  exists g', append_link l a b g = (g', Ret tt) /\
    core g' = core {| g with links_ := links_ g ++ [l] |} /\
    length (gpu_adjacency_ g') = length (gpu_adjacency_ g) /\
    length (nic_adjacency_ g') = length (nic_adjacency_ g) /\
    length (switch_adjacency_ g') = length (switch_adjacency_ g) /\
    forall m, 0 <= node_value m -> adjacency_list g' m =
      (fun old => if decide (m = a) then old ++ [fst (directed_links l)]
                  else if decide (m = b) then old ++ [snd (directed_links l)] else old)
        <$> adjacency_list g m.
Proof.
  intros Ha Hb Hna Hnb Hab. unfold append_link, bind, modify. cbn [directed_links].
  set (g1 := {| g with links_ := links_ g ++ [l] |}).
  destruct (push_adjacency_run a (fst (directed_links l)) g1 la Ha Hna)
    as (g2 & H2 & C2 & L1 & L2 & L3 & A2).
  assert (adjacency_list g2 b = Some lb) as Hb2.
  { rewrite A2 by done. change (adjacency_list g1 b) with (adjacency_list g b). rewrite Hb. cbn.
    by rewrite decide_False. }
  destruct (push_adjacency_run b (snd (directed_links l)) g2 lb Hb2 Hnb)
    as (g3 & H3 & C3 & M1 & M2 & M3 & A3).
  cbn [directed_links fst snd] in H2, H3. rewrite H2, H3. exists g3.
  split; [done | split; [congruence |]]. split_and!; try (cbn in *; congruence).
  intros m Hm. rewrite A3, A2 by done. change (adjacency_list g1 m) with (adjacency_list g m).
  destruct (adjacency_list g m) as [old |]; [| done]. cbn. f_equal.
  destruct (decide (m = a)), (decide (m = b)); congruence.
Qed.

(** Fields read through [core]. *)
Lemma core_fields g g' : core g' = core g ->
  gpu_ids_ g' = gpu_ids_ g /\ nic_ids_ g' = nic_ids_ g /\ switch_ids_ g' = switch_ids_ g /\
  rack_ids_ g' = rack_ids_ g /\ port_ids_ g' = port_ids_ g /\ link_ids_ g' = link_ids_ g /\
  gpus_ g' = gpus_ g /\ nics_ g' = nics_ g /\ switches_ g' = switches_ g /\ racks_ g' = racks_ g /\
  ports_ g' = ports_ g /\ links_ g' = links_ g.
Proof.
  intros Hc. pose proof (f_equal gpu_ids_ Hc). pose proof (f_equal nic_ids_ Hc).
  pose proof (f_equal switch_ids_ Hc). pose proof (f_equal rack_ids_ Hc).
  pose proof (f_equal port_ids_ Hc). pose proof (f_equal link_ids_ Hc).
  pose proof (f_equal gpus_ Hc). pose proof (f_equal nics_ Hc). pose proof (f_equal switches_ Hc).
  pose proof (f_equal racks_ Hc). pose proof (f_equal ports_ Hc). pose proof (f_equal links_ Hc).
  cbn in *. split_and!; done.
Qed.

Lemma core_ids_ok g g' : core g' = core g -> ids_ok g -> ids_ok g'.
Proof.
  intros (E1 & E2 & E3 & E4 & E5 & E6 & E7 & E8 & E9 & E10 & E11 & E12)%core_fields
    [H1 H2 H3 H4 H5 H6].
  split; unfold stuck in *; rewrite ?E1, ?E2, ?E3, ?E4, ?E5, ?E6, ?E7, ?E8, ?E9, ?E10, ?E11, ?E12; done.
Qed.

Lemma core_vectors_ok g g' : core g' = core g -> vectors_ok g -> vectors_ok g'.
Proof.
  intros (E1 & E2 & E3 & E4 & E5 & E6 & E7 & E8 & E9 & E10 & E11 & E12)%core_fields
    [H1 H2 H3 H4 H5 H6].
  split; rewrite ?E7, ?E8, ?E9, ?E10, ?E11, ?E12; done.
Qed.

(** The common end of [add_gpu] and [connect_fabric]: two ports and a link
    between two nodes of a graph that is otherwise complete. *)
Lemma link_nodes_ok g l a b pa pb pi li :
  vectors_ok g -> structure_ok g ->
  (forall g1, port_ids_ g1 = pi -> link_ids_ g1 = li -> zlength (ports_ g1) = zlength (ports_ g) + 2 ->
     zlength (links_ g1) = zlength (links_ g) + 1 -> gpu_ids_ g1 = gpu_ids_ g -> nic_ids_ g1 = nic_ids_ g ->
     switch_ids_ g1 = switch_ids_ g -> rack_ids_ g1 = rack_ids_ g -> gpus_ g1 = gpus_ g ->
     nics_ g1 = nics_ g -> switches_ g1 = switches_ g -> racks_ g1 = racks_ g -> ids_ok g1) ->
  node_in g a -> node_in g b -> a <> b ->
  (link_kind l = Fabric -> node_kind a <> NodeKind_Gpu /\ node_kind b <> NodeKind_Gpu) ->
  zlength (ports_ g) + 1 <= u64_max -> zlength (links_ g) <= u64_max ->
  port_id pa = zlength (ports_ g) -> port_id pb = zlength (ports_ g) + 1 ->
  port_owner pa = a -> port_owner pb = b ->
  link_id l = zlength (links_ g) ->
  link_endpoint_a l = zlength (ports_ g) -> link_endpoint_b l = zlength (ports_ g) + 1 ->
  exists g', append_link l a b {| g with port_ids_ := pi; link_ids_ := li;
                                         ports_ := ports_ g ++ [pa; pb] |} = (g', Ret tt) /\
    graph_ok g' /\ find_link (link_id l) g' = Some l /\ find_link (link_id l) g = None /\
    gpus_ g' = gpus_ g /\ ports_ g' = ports_ g ++ [pa; pb].
Proof.
  intros Hv Hs Hids Ha Hb Hab Hfab Hpl Hll Hpa Hpb Hoa Hob Hli Hea Heb.
  set (g1 := {| g with port_ids_ := pi; link_ids_ := li; ports_ := ports_ g ++ [pa; pb] |}).
  destruct (append_link_run l a b g1 (arcs_from g a) (arcs_from g b))
    as (g' & Hrun & Hcore & L1 & L2 & L3 & Hadj); try done.
  { by apply (gs_adjacency _ Hs). } { by apply (gs_adjacency _ Hs). }
  { apply Ha. } { apply Hb. }
  exists g'. split; [done |].
  destruct (core_fields _ _ Hcore) as (E1 & E2 & E3 & E4 & E5 & E6 & E7 & E8 & E9 & E10 & E11 & E12).
  cbn in E1, E2, E3, E4, E5, E6, E7, E8, E9, E10, E11, E12.
  assert (dense port_id (ports_ g')) as Hdp.
  { rewrite E11. change [pa; pb] with ([pa] ++ [pb]). rewrite app_assoc.
    apply dense_snoc; [apply dense_snoc; [apply Hv | done | lia] | |]; rewrite zlength_snoc; lia. }
  assert (dense link_id (links_ g')) as Hdl by (rewrite E12; apply dense_snoc; [apply Hv | done | done]).
  split; [split | split; [| split; [| done]]].
  - apply Hids; try done.
    + rewrite E11. unfold zlength. rewrite length_app. cbn. lia.
    + rewrite E12. by rewrite zlength_snoc.
  - destruct Hv. split; try done; by rewrite ?E7, ?E8, ?E9, ?E10.
  - apply (structure_link g g' l a b pa pb); try done.
    + intros n. unfold node_in, node_count. by rewrite E7, E8, E9.
    + intros n Hn. apply Hadj. apply Hn.
    + cbn in L1, L2, L3. rewrite L1, L2, L3, E7, E8, E9. apply Hs.
    + rewrite E8, E10. apply Hs.
    + rewrite E7, E8. apply Hs.
  - unfold find_link. rewrite Hli. rewrite E12 in *. by apply find_dense_new.
  - unfold find_link. rewrite Hli. apply find_dense_fresh, Hv.
Qed.

(** A draw that failed after others: the graph can get no more links, and
    nothing but the supply of identifiers has changed. *)
Lemma stuck_graph_ok g gi pi li :
  graph_ok g -> generator_ok gi -> generator_ok pi -> generator_ok li ->
  frontier li = zlength (links_ g) -> exhausted_ pi = true \/ exhausted_ li = true ->
  let g' := {| g with gpu_ids_ := gi; port_ids_ := pi; link_ids_ := li |} in
  graph_ok g' /\ same_vectors g g'.
Proof.
  intros [[] [] Hs] Hgi Hpi Hli Hfl Hst. split; [| done]. split; [split; cbn | split |]; try done.
  - split; [done | by right].
  - split; [done | by right].
  - destruct Hs. by split.
Qed.

Lemma and_three (P Q R : Prop) : P /\ Q -> R -> P /\ Q /\ R.
Proof. tauto. Qed.

(** The graph of [add_gpu] before its ports and link. *)
Lemma add_gpu_node_ok g nic gpu gi f fr k :
  graph_ok g -> find_nic nic g = Some k ->
  gpu_id gpu = zlength (gpus_ g) -> zlength (gpus_ g) <= u64_max ->
  (forall n, nic_id (f n) = nic_id n /\ nic_rack (f n) = nic_rack n) ->
  (forall r, rack_id (fr r) = rack_id r) ->
  gpu_attached_nic gpu = nic -> gpu_rack gpu = nic_rack k ->
  let g' := {| g with gpu_ids_ := gi; gpus_ := gpus_ g ++ [gpu];
                      gpu_adjacency_ := gpu_adjacency_ g ++ [[]];
                      nics_ := alter f (Z.to_nat nic) (nics_ g);
                      racks_ := alter fr (Z.to_nat (nic_rack k)) (racks_ g) |} in
  vectors_ok g' /\ structure_ok g'.
Proof.
  intros Hg Hk Hid Hle Hf Hfr Hat Hra g'. destruct (go_vectors _ Hg). split.
  - split; cbn; try done.
    + by apply dense_alter.
    + apply dense_alter; [apply Hf | done].
    + by apply dense_snoc.
  - pose proof (go_structure _ Hg) as Hs. destruct (gs_lengths _ Hs) as (L1 & L2 & L3).
    apply (structure_grow g); try done.
    + intros n Hn. grow_nodes n L1.
    + intros n Hn Hno. grow_nodes n L1.
    + cbn. rewrite !length_app, length_alter. cbn. lia.
    + intros n Hn. cbn in *. rewrite zlength_alter.
      apply list_elem_of_lookup in Hn as [i Hi]. rewrite list_lookup_alter in Hi.
      destruct (decide (Z.to_nat nic = i)).
      * apply fmap_Some in Hi as (x & Hx & ->). destruct (Hf x) as [_ ->].
        apply Hs. by eapply list_elem_of_lookup_2.
      * apply Hs. by eapply list_elem_of_lookup_2.
    + intros w Hw. cbn in *. apply gpu_ok_alter; [apply Hf |].
      apply elem_of_app in Hw as [Hw | ->%list_elem_of_singleton]; [by apply Hs |].
      apply find_dense_Some in Hk as [H0 Hk]; [| done].
      unfold gpu_ok. rewrite Hat, Hra. split; [done | by exists k].
Qed.

Lemma add_gpu_spec nic g :
  graph_ok g ->
  wp (add_gpu nic)
    (fun g' id => graph_ok g' /\ is_Some (find_gpu id g') /\ find_gpu id g = None)
    (fun g' _ => graph_ok g' /\ same_vectors g g' /\ (find_nic nic g = None \/ no_room g)) g.
Proof.
  intros Hg. unfold add_gpu. do 2 wp_step. cbv beta. wp_step; [| wp_step; split; [done | split; [done | by left]]].
  rename n into k, Heqo into Hk. pose proof (go_ids _ Hg) as Hids.
  destruct (gi_gpus _ Hids) as [Gg Fg]. destruct (gi_ports _ Hids) as [Gp Fp].
  destruct (gi_links _ Hids) as [Gl Fl].
  wp_step. apply wp_next_id; [done | |].
  { intros e He%exhausted_frontier. destruct g. split; [done | split; [done |]]. by right; left. }
  intros gi Eg Hgi Fgi Ug. wp_step. apply wp_next_id; [done | |].
  { intros e He. apply and_three; [| pose proof (exhausted_frontier _ He) as Hf; graph_cbn; right; right; left; lia].
    apply (stuck_graph_ok g gi (port_ids_ g) (link_ids_ g)); try done. by left. }
  intros p1 Ep Hp1 Fp1 Upt. wp_step. apply wp_next_id; [done | |].
  { intros e He. apply and_three; [| pose proof (exhausted_frontier _ He) as Hf; graph_cbn; right; right; left; lia].
    apply (stuck_graph_ok g gi p1 (link_ids_ g)); try done. by left. }
  intros p2 Ep1 Hp2 Fp2 Up1. wp_step. apply wp_next_id; [done | |].
  { intros e He. apply and_three; [| by pose proof (exhausted_frontier _ He); right; right; right].
    apply (stuck_graph_ok g gi p2 (link_ids_ g)); try done. by right. }
  intros li El Hli Fli Ul. graph_cbn.
  assert (~ stuck g) as Hns by (unfold stuck; rewrite Ep, El; by intros [? | ?]).
  destruct Fg as [Fg | Fg]; [| done]. destruct Fp as [Fp | Fp]; [| done].
  rewrite Fg, Fp, Fl in *. cbv zeta. wp_step. apply wp_modify.
  set (gpu := mkGpuWorker (zlength (gpus_ g)) (nic_rack k) nic (zlength (ports_ g))).
  destruct (add_gpu_node_ok g nic gpu gi
    (fun n => {| n with nic_attached_gpus := nic_attached_gpus n ++ [zlength (gpus_ g)];
                        nic_ports := nic_ports n ++ [frontier p1] |})
    (fun r => {| r with rack_gpus := rack_gpus r ++ [zlength (gpus_ g)] |}) k) as [Hv Hs]; try done.
  { unfold u64 in Ug. lia. }
  match type of Hv with vectors_ok ?x => set (gA := x) in * end.
  wp_step.
  destruct (link_nodes_ok gA (mkPhysicalLink (zlength (links_ g)) (zlength (ports_ g)) (frontier p1)
      LocalAttachment Up) (gpu_node (zlength (gpus_ g))) (nic_node nic)
      (mkPort (zlength (ports_ g)) (gpu_node (zlength (gpus_ g))) Local Up)
      (mkPort (frontier p1) (nic_node nic) Local Up) p2 li)
    as (g' & Hrun & Hok & _ & _ & Hgpus & _); try done.
  { intros g1 Q1 Q2 Q3 Q4 Q5 Q6 Q7 Q8 Q9 Q10 Q11 Q12. cbn in *. destruct Hids.
    split; rewrite ?Q1, ?Q2, ?Q3, ?Q4, ?Q5, ?Q6, ?Q7, ?Q8, ?Q9, ?Q10, ?Q11, ?Q12, ?zlength_alter,
      ?zlength_snoc; try done; (split; [done | first [lia | left; lia]]). }
  { unfold node_in. cbn. rewrite zlength_snoc. unfold zlength. lia. }
  { unfold node_in. cbn. rewrite zlength_alter.
    apply (find_dense_is_Some nic_id); [apply Hg |]. unfold find_nic in Hk. by rewrite Hk. }
  { cbn. unfold u64 in Up1. lia. }
  { cbn. unfold u64 in Ul. lia. }
  unfold wp at 1.
  match goal with |- context [append_link ?l ?a ?b ?s] =>
    replace (append_link l a b s) with (g', Ret (A:=unit) tt) by (symmetry; exact Hrun) end.
  wp_step. split; [done | split].
  - unfold find_gpu. rewrite Hgpus. cbn. rewrite find_dense_new; [by eexists |].
    apply dense_snoc; [apply Hg | done | unfold u64 in Ug; lia].
  - apply find_dense_fresh, Hg.
Qed.

(** ** Fabric links *)

(** Everything but the port lists kept in NICs and switches is the same. *)
Record same_shape (g g' : TopologyGraph) : Prop := {
  sh_ids : gpu_ids_ g' = gpu_ids_ g /\ nic_ids_ g' = nic_ids_ g /\ switch_ids_ g' = switch_ids_ g /\
    rack_ids_ g' = rack_ids_ g /\ port_ids_ g' = port_ids_ g /\ link_ids_ g' = link_ids_ g;
  sh_gpus : gpus_ g' = gpus_ g;
  sh_racks : racks_ g' = racks_ g;
  sh_ports : ports_ g' = ports_ g;
  sh_links : links_ g' = links_ g;
  sh_adjacency : gpu_adjacency_ g' = gpu_adjacency_ g /\ nic_adjacency_ g' = nic_adjacency_ g /\
    switch_adjacency_ g' = switch_adjacency_ g;
  sh_nics : zlength (nics_ g') = zlength (nics_ g);
  sh_switches : zlength (switches_ g') = zlength (switches_ g);
  sh_revision : operational_revision_ g' = operational_revision_ g;
}.

#[global] Instance same_shape_refl : Reflexive same_shape.
Proof. intros g. by split. Qed.

#[global] Instance same_shape_trans : Transitive same_shape.
Proof.
  intros g1 g2 g3 [A1 A2 A3 A4 A5 A6 A7 A8 A9] [B1 B2 B3 B4 B5 B6 B7 B8 B9].
  destruct A1 as (? & ? & ? & ? & ? & ?), B1 as (? & ? & ? & ? & ? & ?),
    A6 as (? & ? & ?), B6 as (? & ? & ?).
  split; try (split_and!); congruence.
Qed.

Lemma same_shape_node_in g g' n : same_shape g g' -> node_in g' n <-> node_in g n.
Proof.
  intros Hsh. unfold node_in, node_count.
  rewrite (sh_gpus _ _ Hsh), (sh_nics _ _ Hsh), (sh_switches _ _ Hsh). done.
Qed.

Lemma append_owner_port_run n p g :
  vectors_ok g -> structure_ok g -> node_in g n -> node_kind n <> NodeKind_Gpu ->
  exists g', append_owner_port n p g = (g', Ret tt) /\ vectors_ok g' /\ structure_ok g' /\
    same_shape g g'.
Proof.
  intros Hv Hs Hn Hk. unfold append_owner_port, bind, gets, throw_if, modify, ret, has_value.
  unfold node_in, node_count in Hn. destruct (node_kind n); [done | |].
  - destruct (lookup_lt_is_Some_2 (nics_ g) (Z.to_nat (node_value n))) as [x Hx];
      [unfold zlength in Hn; lia |].
    rewrite Hx, bool_decide_eq_true_2 by eauto. cbn [negb]. eexists. split; [reflexivity |].
    assert (zlength (alter (fun n0 => {| n0 with nic_ports := nic_ports n0 ++ [p] |})
      (Z.to_nat (node_value n)) (nics_ g)) = zlength (nics_ g)) as Hl by apply zlength_alter.
    split; [destruct Hv; split; cbn; try done; by apply dense_alter |].
    split; [| by split].
    apply (structure_grow g); try done.
    + intros m Hm. unfold node_in, node_count, adjacency_list in *. graph_cbn. by rewrite Hl.
    + intros m Hm Hno. unfold node_in, node_count in *. graph_cbn. by rewrite Hl in Hm.
    + graph_cbn. rewrite length_alter. apply Hs.
    + intros m Hm. graph_cbn. apply list_elem_of_lookup in Hm as [i Hi].
      rewrite list_lookup_alter in Hi. destruct (decide (_ = i)).
      * apply fmap_Some in Hi as (y & Hy & ->). cbn. apply Hs. by eapply list_elem_of_lookup_2.
      * apply Hs. by eapply list_elem_of_lookup_2.
    + intros w Hw. graph_cbn. by apply gpu_ok_alter; [| apply Hs].
  - destruct (lookup_lt_is_Some_2 (switches_ g) (Z.to_nat (node_value n))) as [x Hx];
      [unfold zlength in Hn; lia |].
    rewrite Hx, bool_decide_eq_true_2 by eauto. cbn [negb]. eexists. split; [reflexivity |].
    assert (zlength (alter (fun n0 => {| n0 with switch_ports := switch_ports n0 ++ [p] |})
      (Z.to_nat (node_value n)) (switches_ g)) = zlength (switches_ g)) as Hl by apply zlength_alter.
    split; [destruct Hv; split; cbn; try done; by apply dense_alter |].
    split; [| by split].
    apply (structure_grow g); try done.
    + intros m Hm. unfold node_in, node_count, adjacency_list in *. graph_cbn. by rewrite Hl.
    + intros m Hm Hno. unfold node_in, node_count in *. graph_cbn. by rewrite Hl in Hm.
    + graph_cbn. rewrite length_alter. apply Hs.
    + apply Hs.
    + apply Hs.
Qed.

(** The guards of [connect_fabric]. *)
Definition connectable (a : NodeId) (ra : PortRole) (b : NodeId) (rb : PortRole) (g : TopologyGraph) : Prop :=
  contains a g = true /\ contains b g = true /\ a <> b /\ node_kind a <> NodeKind_Gpu /\ node_kind b <> NodeKind_Gpu /\
  ra <> Local /\ rb <> Local /\ directly_connected a b g = Ret false.

Lemma connect_fabric_spec a ra b rb g :
  graph_ok g ->
  wp (connect_fabric a ra b rb)
    (fun g' id => graph_ok g' /\ (exists l, find_link id g' = Some l /\ link_kind l = Fabric /\
         owner_of g' (link_endpoint_a l) = Some a /\ owner_of g' (link_endpoint_b l) = Some b) /\
       find_link id g = None)
    (fun g' _ => graph_ok g' /\ same_vectors g g' /\ (~ connectable a ra b rb g \/ no_room g)) g.
Proof.
  intros Hg. unfold connect_fabric. do 2 wp_step. cbv beta.
  assert (~ connectable a ra b rb g ->
    graph_ok g /\ same_vectors g g /\ (~ connectable a ra b rb g \/ no_room g)) as Hrefused by (intros Hn; split; [done | split; [done | by left]]).
  wp_step. apply wp_throw_if; [intros Hb; apply Hrefused; intros (? & ? & _); destruct (contains a g), (contains b g); done |].
  intros [Hca Hcb]%orb_false_iff. apply negb_false_iff in Hca, Hcb.
  wp_step. apply wp_throw_if; [intros ?%bool_decide_eq_true; apply Hrefused; by intros (_ & _ & ? & _) |].
  intros Hab%bool_decide_eq_false.
  wp_step. apply wp_throw_if; [intros [?%bool_decide_eq_true | ?%bool_decide_eq_true]%orb_true_iff; apply Hrefused; by intros (_ & _ & _ & ? & ? & _) |].
  intros [Hka Hkb]%orb_false_iff. apply bool_decide_eq_false in Hka, Hkb.
  wp_step. apply wp_throw_if; [intros [?%bool_decide_eq_true | ?%bool_decide_eq_true]%orb_true_iff; apply Hrefused; by intros (_ & _ & _ & _ & _ & ? & ? & _) |].
  intros _. wp_step. apply wp_of_outcome; [intros conn Hconn | intros e Hconn; apply Hrefused; intros (_ & _ & _ & _ & _ & _ & _ & ?); congruence].
  wp_step. apply wp_throw_if; [intros ->; apply Hrefused; intros (_ & _ & _ & _ & _ & _ & _ & ?); congruence |]. intros _.
  apply contains_node_in in Hca, Hcb; [| apply Hg | apply Hg].
  pose proof (go_ids _ Hg) as Hids. destruct (gi_ports _ Hids) as [Gp Fp].
  destruct (gi_links _ Hids) as [Gl Fl]. destruct (gi_gpus _ Hids) as [Gg Fg].
  wp_step. apply wp_next_id; [done | |].
  { intros e He%exhausted_frontier. destruct g. cbn in He. split; [done | split; [done |]]. right; right; left. cbn. lia. }
  intros p1 Ep Hp1 Fp1 Upt. wp_step. apply wp_next_id; [done | |].
  { intros e He. apply and_three; [| pose proof (exhausted_frontier _ He) as Hf; graph_cbn; right; right; left; lia].
    apply (stuck_graph_ok g (gpu_ids_ g) p1 (link_ids_ g)); try done. by left. }
  intros p2 Ep1 Hp2 Fp2 Up1. wp_step. apply wp_next_id; [done | |].
  { intros e He. apply and_three; [| by pose proof (exhausted_frontier _ He); right; right; right].
    apply (stuck_graph_ok g (gpu_ids_ g) p2 (link_ids_ g)); try done. by right. }
  intros li El Hli Fli Ul. graph_cbn.
  assert (~ stuck g) as Hns by (unfold stuck; rewrite Ep, El; by intros [? | ?]).
  destruct Fg as [Fg | Fg]; [| done]. destruct Fp as [Fp | Fp]; [| done].
  rewrite Fp, Fl in *.
  match goal with |- wp _ _ _ ?s => set (g0 := s) end.
  assert (vectors_ok g0 /\ structure_ok g0) as [V0 S0].
  { split; [destruct (go_vectors _ Hg); by split | destruct (go_structure _ Hg); by split]. }
  wp_step. destruct (append_owner_port_run a (zlength (ports_ g)) g0) as (g1 & R1 & V1 & S1 & Sh1); try done.
  unfold wp at 1. rewrite R1. wp_step.
  destruct (append_owner_port_run b (frontier p1) g1) as (g2 & R2 & V2 & S2 & Sh2); try done.
  { by apply (same_shape_node_in g0). }
  unfold wp at 1. rewrite R2. wp_step. apply wp_modify. wp_step.
  assert (same_shape g0 g2) as Sh by (by etrans). clear Sh1 Sh2 R1 R2 V1 S1.
  pose proof Sh as [(I1 & I2 & I3 & I4 & I5 & I6) X1 X2 X3 X4 X5 X6 X7 X8]. cbn in I1, I2, I3, I4, I5, I6.
  cbn [g0 gpus_ racks_ ports_ links_ nics_ switches_] in X1, X2, X3, X4, X6, X7.
  set (l := mkPhysicalLink (zlength (links_ g)) (zlength (ports_ g)) (frontier p1) Fabric Up).
  destruct (link_nodes_ok g2 l a b (mkPort (zlength (ports_ g)) a ra Up) (mkPort (frontier p1) b rb Up) p2 li)
    as (g' & Hrun & Hok & Hfind & _ & _ & Hports); rewrite ?X3, ?X4; try done.
  { intros y Q1 Q2 Q3 Q4 Q5 Q6 Q7 Q8 Q9 Q10 Q11 Q12. destruct Hids.
    split; rewrite ?Q1, ?Q2, ?Q3, ?Q4, ?Q5, ?Q6, ?Q7, ?Q8, ?Q9, ?Q10, ?Q11, ?Q12, ?I1, ?I2, ?I3, ?I4,
      ?X1, ?X2, ?X6, ?X7, ?X3, ?X4; try done; (split; [done | first [lia | left; lia]]). }
  { by apply (same_shape_node_in g0). } { by apply (same_shape_node_in g0). }
  { unfold u64 in Up1. lia. } { unfold u64 in Ul. lia. }
  unfold wp at 1.
  match goal with |- context [append_link l a b ?s] =>
    replace (append_link l a b s) with (g', Ret (A:=unit) tt) end.
  2: { symmetry. rewrite <- Hrun. f_equal. by rewrite I5, I6, X3, X4. }
  wp_step. split; [done | split].
  - exists l. split; [done | split; [done |]]. unfold owner_of. rewrite Hports, X3.
    cbn [l link_endpoint_a link_endpoint_b]. split.
    + rewrite lookup_app_r by (unfold zlength; lia).
      replace (_ - _)%nat with 0%nat by (unfold zlength; lia). done.
    + rewrite lookup_app_r by (unfold zlength in *; lia).
      replace (_ - _)%nat with 1%nat by (unfold zlength in *; lia). done.
  - apply find_dense_fresh, Hg.
Qed.

(** ** Operational state *)

Lemma arcs_of_alter links i st :
  arcs_of (alter (fun l => {| l with link_state := st |}) i links) = arcs_of links.
Proof.
  unfold arcs_of. f_equal. revert i. induction links as [| l links IH]; intros [| i]; [done | done | done |].
  change (alter ?f (S i) (l :: links)) with (l :: alter f i links). rewrite !fmap_cons. f_equal. apply IH.
Qed.

Lemma owner_of_alter (ports : list Port) i st p :
  port_owner <$> (alter (fun q => {| q with port_state := st |}) i ports !! p) = port_owner <$> (ports !! p).
Proof.
  rewrite list_lookup_alter. case_decide as Hd; [| done]. subst. by destruct (ports !! p).
Qed.

(** Changing a state in place keeps the graph well formed. *)
Lemma set_link_state_ok id st g : graph_ok g -> graph_ok (fst (set_link_state id st g)).
Proof.
  intros Hg. unfold set_link_state. destruct (find_link id g); [| done].
  destruct (bool_decide _); [done |]. destruct (_ =? _); [done |]. cbn [fst].
  destruct Hg as [[] [] Hs]. split; [split; cbn; rewrite ?zlength_alter; done | |].
  - split; cbn; try done. by apply dense_alter.
  - destruct Hs as [H1 H2 H3 H4 H5 H6]. split; try done.
    + intros l Hl. graph_cbn. apply list_elem_of_lookup in Hl as [i Hi]. rewrite list_lookup_alter in Hi.
      destruct (decide (_ = i)).
      * apply fmap_Some in Hi as (x & Hx & ->). apply (H2 x). by eapply list_elem_of_lookup_2.
      * apply (H2 l). by eapply list_elem_of_lookup_2.
    + intros n Hn. unfold arcs_from. graph_cbn. rewrite arcs_of_alter. by apply H3.
Qed.

Lemma set_port_state_ok id st g : graph_ok g -> graph_ok (fst (set_port_state id st g)).
Proof.
  intros Hg. unfold set_port_state. destruct (find_port id g) as [port |]; [| done].
  destruct (bool_decide _); [done |]. destruct (_ =? _); [done |]. cbn [fst].
  match goal with |- graph_ok ?x => set (g' := x) end.
  assert (forall p, owner_of g' p = owner_of g p) as Ho by (intros ?; apply owner_of_alter).
  destruct Hg as [[] [] Hs]. split; [split; cbn; rewrite ?zlength_alter; done | |].
  - split; cbn; try done. by apply dense_alter.
  - destruct Hs as [H1 H2 H3 H4 H5 H6]. split; try done.
    + intros p Hp. cbn in Hp. apply list_elem_of_lookup in Hp as [i Hi]. rewrite list_lookup_alter in Hi.
      destruct (decide (_ = i)).
      * apply fmap_Some in Hi as (x & Hx & ->). apply (H1 x). by eapply list_elem_of_lookup_2.
      * apply (H1 p). by eapply list_elem_of_lookup_2.
    + intros l Hl. specialize (H2 l Hl). unfold link_ok in *. rewrite !Ho. cbn. by rewrite zlength_alter.
    + intros n Hn. unfold arcs_from. change (adjacency_list g' n) with (adjacency_list g n).
      rewrite H3 by done. f_equal. apply list_filter_iff. intros arc. by rewrite Ho.
Qed.

Lemma set_switch_state_ok id st g : graph_ok g -> graph_ok (fst (set_switch_state id st g)).
Proof.
  intros Hg. unfold set_switch_state. destruct (find_switch id g); [| done].
  destruct (bool_decide _); [done |]. destruct (_ =? _); [done |]. cbn [fst].
  match goal with |- graph_ok ?x => set (g' := x) end.
  assert (forall n, node_in g' n <-> node_in g n) as Hn.
  { intros n. unfold node_in, node_count. cbn. by rewrite zlength_alter. }
  destruct Hg as [[] [] Hs]. split; [split; cbn; rewrite ?zlength_alter; done | |].
  - split; cbn; try done. by apply dense_alter.
  - destruct Hs as [H1 H2 H3 H4 H5 H6]. split; try done.
    + intros p Hp. by apply Hn, H1.
    + intros n Hin. by apply H3, Hn.
    + cbn. rewrite length_alter. done.
Qed.

(** ** Sequences of operations *)

Inductive GraphOp : Type :=
  | OpAddRack
  | OpAddNic (rack : RackId)
  | OpAddGpu (nic : NicId)
  | OpAddLeafSwitch (rack : RackId)
  | OpAddSpineSwitch
  | OpConnectFabric (a : NodeId) (ra : PortRole) (b : NodeId) (rb : PortRole)
  | OpSetLinkState (id : LinkId) (st : OperationalState)
  | OpSetPortState (id : PortId) (st : OperationalState)
  | OpSetSwitchState (id : SwitchId) (st : OperationalState).

(** The graph after one call, whether it returned or threw. *)
Definition graph_step (g : TopologyGraph) (op : GraphOp) : TopologyGraph :=
  match op with
  | OpAddRack => fst (add_rack g)
  | OpAddNic rack => fst (add_nic rack g)
  | OpAddGpu nic => fst (add_gpu nic g)
  | OpAddLeafSwitch rack => fst (add_leaf_switch rack g)
  | OpAddSpineSwitch => fst (add_spine_switch g)
  | OpConnectFabric a ra b rb => fst (connect_fabric a ra b rb g)
  | OpSetLinkState id st => fst (set_link_state id st g)
  | OpSetPortState id st => fst (set_port_state id st g)
  | OpSetSwitchState id st => fst (set_switch_state id st g)
  end.

Definition build (ops : list GraphOp) : TopologyGraph := fold_left graph_step ops empty_graph.

Lemma wp_final {S A} (m : M S A) (P : S -> Prop) Q E s :
  wp m Q E s -> (forall s' a, Q s' a -> P s') -> (forall s' e, E s' e -> P s') -> P (fst (m s)).
Proof. unfold wp. destruct (m s) as [s' [a | e]]; eauto. Qed.

Lemma graph_step_ok g op : graph_ok g -> graph_ok (graph_step g op).
Proof.
  intros Hg. destruct op; cbn [graph_step];
    auto using set_link_state_ok, set_port_state_ok, set_switch_state_ok.
  - eapply wp_final; [by apply add_rack_spec | by intros ? ? [? _] | by intros ? ? [-> _]].
  - eapply wp_final; [by apply add_nic_spec | by intros ? ? [? _] | by intros ? ? [-> _]].
  - eapply wp_final; [by apply add_gpu_spec | by intros ? ? [? _] | by intros ? ? [? _]].
  - eapply wp_final; [by apply add_leaf_switch_spec | by intros ? ? [? _] | by intros ? ? [-> _]].
  - eapply wp_final; [by apply add_spine_switch_spec | by intros ? ? [? _] | by intros ? ? [-> _]].
  - eapply wp_final; [by apply connect_fabric_spec | by intros ? ? [? _] | by intros ? ? [? _]].
Qed.

Lemma build_ok ops : graph_ok (build ops).
Proof.
  unfold build. generalize empty_graph_ok. generalize empty_graph.
  induction ops as [| op ops IH]; intros g Hg; [done |]. apply IH. by apply graph_step_ok.
Qed.

(** C39: every topology the program can build is well formed.  After any sequence
    of construction and state-change calls, successful or refused, identifiers
    are the positions of their entities, every link joins two ports of two
    different known nodes and fabric links join no GPU, and the adjacency list of each known node holds
    exactly the arcs that leave it, in the order the links were added; an unknown
    node is refused. *)
Theorem topology_well_formed ops :
  let g := build ops in
  vectors_ok g /\
  (forall l, l ∈ links_ g -> link_ok g l) /\
  (forall p, p ∈ ports_ g -> contains (port_owner p) g = true) /\
  (forall n, adjacency n g =
     if contains n g then Ret (arcs_from g n)
     else Throw (out_of_range "cannot query adjacency for an unknown topology node")).
Proof.
  intros g. pose proof (build_ok ops) as Hg. split_and!.
  - apply Hg.
  - apply Hg.
  - intros p Hp. apply contains_node_in; [apply Hg |]. by apply Hg.
  - intros n. by apply adjacency_arcs.
Qed.

(** The opposite direction of an arc. *)
Definition opposite (arc : DirectedLink) : DirectedLink :=
  mkDirectedLink
    (mkDirectedLinkId (dl_link (arc_id arc))
       match dl_direction (arc_id arc) with AToB => BToA | BToA => AToB end)
    (arc_destination arc) (arc_source arc).

Lemma opposite_directed arc l :
  (opposite arc = fst (directed_links l) \/ opposite arc = snd (directed_links l)) <->
  (arc = fst (directed_links l) \/ arc = snd (directed_links l)).
Proof.
  destruct arc as [[link dir] s d]. unfold opposite, directed_links. cbn.
  destruct dir; split; (intros [Hx | Hx]; injection Hx as; subst; auto; discriminate).
Qed.

(** Failures are symmetric. *)
Lemma operational_opposite arc g :
  is_operational (opposite arc) g = is_operational arc g.
Proof.
  unfold is_operational. change (dl_link (arc_id (opposite arc))) with (dl_link (arc_id arc)).
  cbn [arc_source arc_destination opposite].
  destruct (find_link _ g) as [l |]; [| done].
  destruct (find_port (arc_destination arc) g) as [d |], (find_port (arc_source arc) g) as [s |]; try done.
  rewrite (surjective_pairing (directed_links l)).
  rewrite (bool_decide_ext _ _ (opposite_directed arc l)).
  destruct (bool_decide (_ \/ _)), (bool_decide (link_state l = Up)), (bool_decide (port_state d = Up)),
    (bool_decide (port_state s = Up)), (node_is_operational (port_owner s) g),
    (node_is_operational (port_owner d) g); done.
Qed.

(** ** The operational revision *)

Definition is_state_change (op : GraphOp) : bool :=
  match op with
  | OpSetLinkState _ _ | OpSetPortState _ _ | OpSetSwitchState _ _ => true
  | _ => false
  end.

Lemma state_change_revision op g :
  is_state_change op = true -> u64 (operational_revision_ g) ->
  let g' := graph_step g op in
  g' = g \/ operational_revision_ g' = operational_revision_ g + 1 /\ u64 (operational_revision_ g').
Proof.
  intros Hop Hu. destruct op; try done; cbn [graph_step].
  all: unfold set_link_state, set_port_state, set_switch_state;
    match goal with
    | |- context [find_link ?i ?h] => destruct (find_link i h)
    | |- context [find_port ?i ?h] => destruct (find_port i h)
    | |- context [find_switch ?i ?h] => destruct (find_switch i h)
    end; [| by left]; destruct (bool_decide _); [by left |];
    match goal with |- context [operational_revision_ ?h =? u64_max] =>
      destruct (operational_revision_ h =? u64_max) eqn:Hm end; [by left |];
    right; cbn [fst operational_revision_]; rewrite u64_wrap_id by (unfold u64 in *; lia);
    unfold u64 in *; lia.
Qed.

Lemma state_changes_revision ops g :
  u64 (operational_revision_ g) -> Forall (fun op => is_state_change op = true) ops ->
  let g' := fold_left graph_step ops g in
  u64 (operational_revision_ g') /\ operational_revision_ g <= operational_revision_ g' /\
  (operational_revision_ g' = operational_revision_ g -> g' = g).
Proof.
  intros Hu Hops. revert g Hu. induction Hops as [| op ops Hop _ IH]; intros g Hu; cbn; [split_and!; done |].
  destruct (state_change_revision op g Hop Hu) as [-> | [Hr Hu']]; [by apply IH |].
  destruct (IH (graph_step g op) Hu') as (H0 & H1 & H2). split_and!; [done | lia |]. intros Heq. lia.
Qed.

(** The operational revision identifies the operational state.  Over any
    sequence of state changes it never decreases, and if it is the same before
    and after, the whole topology is the same: a decision taken for a revision
    stays valid as long as the revision does. *)
Theorem revision_identifies_state ops g :
  u64 (operational_revision_ g) -> Forall (fun op => is_state_change op = true) ops ->
  let g' := fold_left graph_step ops g in
  operational_revision_ g <= operational_revision_ g' /\
  (operational_revision_ g' = operational_revision_ g -> g' = g).
Proof. intros Hu Hops g'. apply (state_changes_revision ops g Hu Hops). Qed.

