(* ===== verification/ShortestPath.v ===== *)
(** * Shortest paths

    Models the breadth-first search of [topology/graph.cpp]
    ([shortest_path_summary], [shortest_hops], [reachable]) and proves that it
    finds the length of a shortest operational path. *)

From S2P Require Import Prelude SimTime Entities TelemetryRecords Bfs Topology TopologyLaws.

Record PathMetrics : Type := mkPathMetrics { pm_hops : Z; pm_path_count : Z }.

Definition unvisited : PathMetrics := mkPathMetrics u64_max 0.

Record ShortestPathState : Type := mkShortestPathState {
  sp_gpus : list PathMetrics;
  sp_nics : list PathMetrics;
  sp_switches : list PathMetrics;
}.

Definition new_path_state (g : TopologyGraph) : ShortestPathState :=
  mkShortestPathState (replicate (length (gpus_ g)) unvisited)
    (replicate (length (nics_ g)) unvisited) (replicate (length (switches_ g)) unvisited).

Definition metrics_for (node : NodeId) (st : ShortestPathState) : list PathMetrics :=
  match node_kind node with
  | NodeKind_Gpu => sp_gpus st
  | NodeKind_Nic => sp_nics st
  | NodeKind_Switch => sp_switches st
  end.

(** Only known nodes are looked up. *)
Definition metrics (node : NodeId) (st : ShortestPathState) : PathMetrics :=
  match metrics_for node st !! Z.to_nat (node_value node) with
  | Some m => m
  | None => unvisited
  end.

Definition set_metrics (node : NodeId) (m : PathMetrics) (st : ShortestPathState)
    : ShortestPathState :=
  let l := <[Z.to_nat (node_value node) := m]> (metrics_for node st) in
  match node_kind node with
  | NodeKind_Gpu => {| st with sp_gpus := l |}
  | NodeKind_Nic => {| st with sp_nics := l |}
  | NodeKind_Switch => {| st with sp_switches := l |}
  end.

(** The [for] loop over the outgoing arcs of a node with metrics [current]. *)
Fixpoint relax (g : TopologyGraph) (count_equal_paths : bool) (current : PathMetrics)
    (arcs : list DirectedLink) (st : ShortestPathState) (pending : list NodeId)
    : outcome (ShortestPathState * list NodeId) :=
  match arcs with
  | [] => Ret (st, pending)
  | arc :: rest =>
      let continue := relax g count_equal_paths current rest in
      if negb (is_operational arc g) then continue st pending else
      match find_port (arc_destination arc) g with
      | None => continue st pending
      | Some destination_port =>
          let owner := port_owner destination_port in
          let next := metrics owner st in
          let next_hops := u64_wrap (pm_hops current + 1) in
          if pm_hops next =? u64_max
          then continue (set_metrics owner (mkPathMetrics next_hops (pm_path_count current)) st)
                 (pending ++ [owner])
          else if count_equal_paths && (pm_hops next =? next_hops)
          then if u64_max - pm_path_count next <? pm_path_count current
               then Throw (overflow_error "equal-cost shortest-path count overflow")
               else continue (set_metrics owner (mkPathMetrics (pm_hops next)
                      (u64_wrap (pm_path_count next + pm_path_count current))) st) pending
          else continue st pending
      end
  end.

(** The [while] loop; [None] when the fuel does not suffice. *)
Fixpoint search (fuel : nat) (g : TopologyGraph) (count_equal_paths : bool)
    (pending : list NodeId) (st : ShortestPathState) : option (outcome ShortestPathState) :=
  match pending with
  | [] => Some (Ret st)
  | node :: rest =>
      match fuel with
      | O => None
      | S n =>
          match adjacency node g with
          | Throw e => Some (Throw e)
          | Ret arcs =>
              match relax g count_equal_paths (metrics node st) arcs st rest with
              | Throw e => Some (Throw e)
              | Ret (st', pending') => search n g count_equal_paths pending' st'
              end
          end
      end
  end.

(** A node enters the queue when it is first reached, so the number of nodes
    bounds the turns. *)
Definition total_nodes (g : TopologyGraph) : nat :=
  (length (gpus_ g) + length (nics_ g) + length (switches_ g))%nat.

Definition shortest_path_summary_impl (source destination : NodeId) (count_equal_paths : bool)
    (g : TopologyGraph) : option (outcome (option ShortestPathSummary)) :=
  if negb (contains source g) || negb (contains destination g)
  then Some (Throw (invalid_argument "cannot find a path involving an unknown topology node")) else
  if negb (node_is_operational source g) || negb (node_is_operational destination g)
  then Some (Ret None) else
  let st := set_metrics source (mkPathMetrics 0 1) (new_path_state g) in
  match search (total_nodes g) g count_equal_paths [source] st with
  | None => None
  | Some (Throw e) => Some (Throw e)
  | Some (Ret st') =>
      let result := metrics destination st' in
      Some (Ret (if pm_hops result =? u64_max then None
                 else Some (mkShortestPathSummary (pm_hops result) (pm_path_count result))))
  end.

Definition shortest_path_summary (source destination : NodeId) (g : TopologyGraph)
    : option (outcome (option ShortestPathSummary)) :=
  shortest_path_summary_impl source destination true g.

Definition shortest_hops (source destination : NodeId) (g : TopologyGraph)
    : option (outcome (option Z)) :=
  match shortest_path_summary_impl source destination false g with
  | None => None
  | Some (Throw e) => Some (Throw e)
  | Some (Ret summary) => Some (Ret (sps_hops <$> summary))
  end.

Definition reachable (source destination : NodeId) (g : TopologyGraph) : option (outcome bool) :=
  match shortest_hops source destination g with
  | None => None
  | Some (Throw e) => Some (Throw e)
  | Some (Ret hops) => Some (Ret (has_value hops))
  end.

(** ** The metrics as a map *)

Section Metrics.
Context (g : TopologyGraph).

Definition state_ok (st : ShortestPathState) : Prop :=
  length (sp_gpus st) = length (gpus_ g) /\ length (sp_nics st) = length (nics_ g) /\
  length (sp_switches st) = length (switches_ g).

Definition hops_of (st : ShortestPathState) (n : NodeId) : Z := pm_hops (metrics n st).

(** Nodes not reached yet. *)
Definition unreached (st : ShortestPathState) : nat :=
  length (filter (fun m => pm_hops m = u64_max) (sp_gpus st ++ sp_nics st ++ sp_switches st)).

Lemma set_metrics_ok n m st : state_ok st -> state_ok (set_metrics n m st).
Proof.
  intros (H1 & H2 & H3). unfold set_metrics, metrics_for.
  destruct (node_kind n); split_and!; cbn; rewrite ?length_insert; done.
Qed.

Lemma metrics_lookup n st :
  state_ok st -> node_in g n ->
  metrics_for n st !! Z.to_nat (node_value n) = Some (metrics n st).
Proof.
  intros (H1 & H2 & H3) Hn. unfold metrics, node_in, node_count, zlength in *.
  destruct (lookup_lt_is_Some_2 (metrics_for n st) (Z.to_nat (node_value n))) as [m Hm].
  { unfold metrics_for. destruct (node_kind n); lia. }
  by rewrite Hm.
Qed.

Lemma metrics_set n m st n' :
  state_ok st -> node_in g n -> node_in g n' ->
  metrics n' (set_metrics n m st) = if decide (n' = n) then m else metrics n' st.
Proof.
  intros Hst Hn Hn'. pose proof (metrics_lookup n st Hst Hn) as Hl.
  pose proof (lookup_lt_Some _ _ _ Hl) as Hlt.
  unfold metrics, set_metrics, metrics_for, node_in in *.
  destruct n as [k v], n' as [k' v']; cbn [node_kind node_value] in *.
  destruct k, k'; cbn; try (rewrite decide_False by congruence; done).
  all: destruct (decide (v' = v)) as [-> | Hne];
    [rewrite list_lookup_insert_eq by done; by rewrite decide_True by done |
     rewrite list_lookup_insert_ne by lia; rewrite decide_False by congruence; done].
Qed.

Lemma count_insert (l : list PathMetrics) i x m :
  l !! i = Some x -> pm_hops x = u64_max -> pm_hops m <> u64_max ->
  S (length (filter (fun m => pm_hops m = u64_max) (<[i:=m]> l))) =
  length (filter (fun m => pm_hops m = u64_max) l).
Proof.
  revert i. induction l as [| y l IH]; intros [| i] Hx Hm Hn; cbn in Hx; try done.
  - injection Hx as ->. cbn [insert list_insert]. rewrite !filter_cons.
    rewrite decide_False by done. by rewrite decide_True.
  - change (<[S i:=m]> (y :: l)) with (y :: <[i:=m]> l). rewrite !filter_cons.
    destruct (decide (pm_hops y = u64_max)); cbn [length]; rewrite <- (IH i Hx Hm Hn); done.
Qed.

Lemma unreached_set n m st :
  state_ok st -> node_in g n -> hops_of st n = u64_max -> pm_hops m <> u64_max ->
  S (unreached (set_metrics n m st)) = unreached st.
Proof.
  intros Hst Hn Hh Hm. pose proof (metrics_lookup n st Hst Hn) as Hl.
  pose proof (count_insert _ _ _ m Hl Hh Hm) as Hc. revert Hc.
  unfold unreached, set_metrics, metrics_for.
  destruct (node_kind n); cbn [sp_gpus sp_nics sp_switches]; rewrite !filter_app, !length_app; lia.
Qed.

Lemma unreached_same n m st :
  state_ok st -> node_in g n -> pm_hops m = hops_of st n ->
  unreached (set_metrics n m st) = unreached st.
Proof.
  intros Hst Hn Hm. pose proof (metrics_lookup n st Hst Hn) as Hl.
  assert (length (filter (fun m => pm_hops m = u64_max)
            (<[Z.to_nat (node_value n) := m]> (metrics_for n st))) =
          length (filter (fun m => pm_hops m = u64_max) (metrics_for n st))) as Hc.
  { pose proof (take_drop_middle _ _ _ Hl) as Ht.
    rewrite <- Ht at 2. rewrite (insert_take_drop _ _ m) by (by eapply lookup_lt_Some).
    rewrite !filter_app, !filter_cons, !length_app. unfold hops_of in Hm. rewrite Hm.
    destruct (decide (pm_hops (metrics n st) = u64_max)); cbn [length]; lia. }
  revert Hc. unfold unreached, set_metrics, metrics_for.
  destruct (node_kind n); cbn [sp_gpus sp_nics sp_switches]; rewrite !filter_app, !length_app; lia.
Qed.

Lemma new_path_state_ok : state_ok (new_path_state g).
Proof. unfold state_ok, new_path_state. cbn. by rewrite !length_replicate. Qed.

Lemma unreached_new : unreached (new_path_state g) = total_nodes g.
Proof.
  unfold unreached, new_path_state, total_nodes. cbn [sp_gpus sp_nics sp_switches].
  assert (forall k, length (filter (fun m => pm_hops m = u64_max) (replicate k unvisited)) = k) as Hr.
  { induction k as [| k IH]; [done |]. rewrite replicate_S, filter_cons.
    rewrite decide_True by done. cbn [length]. by rewrite IH. }
  rewrite !filter_app, !length_app, !Hr. lia.
Qed.

Lemma metrics_new n : metrics n (new_path_state g) = unvisited.
Proof.
  unfold metrics, metrics_for, new_path_state.
  destruct (node_kind n); cbn;
    match goal with |- context [replicate ?k _ !! ?i] =>
      destruct (replicate k unvisited !! i) eqn:Hr end; try done;
    by apply lookup_replicate in Hr as [-> _].
Qed.

End Metrics.

(** ** Operational paths *)

(** One operational arc leads from [n] to [m]. *)
Definition hop (g : TopologyGraph) (n m : NodeId) : Prop :=
  exists arc, arc ∈ arcs_from g n /\ is_operational arc g = true /\
              owner_of g (arc_destination arc) = Some m.

(** [r] is the length of a shortest operational path, or there is none. *)
Definition is_distance (g : TopologyGraph) (s d : NodeId) (r : option Z) : Prop :=
  match r with
  | Some k =>
      0 <= k /\ node_is_operational s g = true /\ node_is_operational d g = true /\
      nsteps (hop g) (Z.to_nat k) s d /\ forall k', nsteps (hop g) k' s d -> k <= Z.of_nat k'
  | None =>
      node_is_operational s g = false \/ node_is_operational d g = false \/ ~ rtc (hop g) s d
  end.

Section Search.
Context (g : TopologyGraph) (Hg : graph_ok g).
Context (Htotal : Z.of_nat (total_nodes g) <= u64_max).
Context (s : NodeId) (Hs : node_in g s).
Implicit Types (st : ShortestPathState) (n m : NodeId) (Q : list NodeId).

(** The search expands [n], [Q] waits. *)
Definition at_node n Q st : Prop :=
  state_ok g st /\ expanding (node_in g) (hop g) (total_nodes g) s (hops_of st) (unreached st) n Q.

Abbreviation reached st := (Bfs.reached (node_in g) (hops_of st)) (only parsing).

Abbreviation extends st st' := (Bfs.extends (node_in g) (hops_of st) (hops_of st')) (only parsing).

Lemma hops_set n (x : PathMetrics) st n' :
  state_ok g st -> node_in g n -> node_in g n' ->
  hops_of (set_metrics n x st) n' = if decide (n' = n) then pm_hops x else hops_of st n'.
Proof. intros H1 H2 H3. unfold hops_of. rewrite (metrics_set g) by done. by case_decide. Qed.

(** Expanding [n] reaches the new node [m]. *)
Lemma at_node_new n Q st m c :
  at_node n Q st -> hop g n m -> node_in g m -> hops_of st m = u64_max ->
  let st' := set_metrics m (mkPathMetrics (hops_of st n + 1) c) st in
  at_node n (Q ++ [m]) st' /\ extends st st' /\ S (unreached st') = unreached st /\ reached st' m.
Proof.
  intros [Hok Hex] Hhop Hm Hnew st'.
  assert (S (unreached (set_metrics m (mkPathMetrics 0 0) st)) = unreached st) as H0
    by (by apply (unreached_set g)).
  pose proof (ex_sound _ _ _ _ _ _ _ _ Hex n (ex_current _ _ _ _ _ _ _ _ Hex)) as (Hn0 & Hnb & _).
  assert (S (unreached st') = unreached st) as Hu by (apply (unreached_set g); [done | done | done | cbn; lia]).
  assert (forall k, node_in g k -> hops_of st' k = if decide (k = m) then hops_of st n + 1 else hops_of st k)
    as Hh by (intros k Hk; by apply hops_set).
  split_and!; [split; [by apply set_metrics_ok |] | | done |].
  - eapply new_node_expanding; eauto.
  - eapply new_node_extends; eauto.
  - eapply new_node_reached; eauto.
Qed.

(** Only the path count of [m] changes. *)
Lemma at_node_count n Q st m c :
  at_node n Q st -> node_in g m ->
  let st' := set_metrics m (mkPathMetrics (hops_of st m) c) st in
  at_node n Q st' /\ extends st st' /\ unreached st' = unreached st /\
  (forall k, node_in g k -> hops_of st' k = hops_of st k).
Proof.
  intros [Hok Hex] Hm st'.
  assert (forall k, node_in g k -> hops_of st' k = hops_of st k) as Hh.
  { intros k Hk. unfold st'. rewrite hops_set by done. by case_decide; subst. }
  assert (unreached st' = unreached st) as Hu by (by apply (unreached_same g)).
  split_and!; [split; [by apply set_metrics_ok |] | | done | done].
  - rewrite Hu. by eapply expanding_same.
  - intros k Hk. unfold Bfs.reached. rewrite Hh by apply Hk. by split.
Qed.

(** ** The inner loop *)

Lemma relax_spec count cur arcs n Q st :
  at_node n Q st -> pm_hops cur = hops_of st n ->
  (forall arc, arc ∈ arcs -> arc ∈ arcs_from g n) ->
  match relax g count cur arcs st Q with
  | Throw e => count = true
  | Ret (st', Q') =>
      at_node n Q' st' /\ extends st st' /\
      (unreached st' + length Q' = unreached st + length Q)%nat /\
      forall arc m, arc ∈ arcs -> is_operational arc g = true ->
        owner_of g (arc_destination arc) = Some m -> reached st' m
  end.
Proof.
  revert Q st. induction arcs as [| arc arcs IH]; intros Q st Hex Hcur Harcs.
  { cbn [relax]. split_and!; try done. intros arc m Hin. set_solver. }
  assert (forall arc, arc ∈ arcs -> arc ∈ arcs_from g n) as Harcs' by set_solver.
  pose proof (ex_sound _ _ _ _ _ _ _ _ (proj2 Hex) n (ex_current _ _ _ _ _ _ _ _ (proj2 Hex)))
    as (Hn0 & Hnb & _).
  (* the rest of the loop, from any later state in which this arc is settled *)
  assert (forall Q1 st1, at_node n Q1 st1 -> extends st st1 ->
    (unreached st1 + length Q1 = unreached st + length Q)%nat ->
    (forall m, is_operational arc g = true -> owner_of g (arc_destination arc) = Some m ->
       reached st1 m) ->
    match relax g count cur arcs st1 Q1 with
    | Throw e => count = true
    | Ret (st', Q') =>
        at_node n Q' st' /\ extends st st' /\
        (unreached st' + length Q' = unreached st + length Q)%nat /\
        forall arc' m, arc' ∈ arc :: arcs -> is_operational arc' g = true ->
          owner_of g (arc_destination arc') = Some m -> reached st' m
    end) as Hgo.
  { intros Q1 st1 Hex1 Hext Hsum Hset.
    assert (pm_hops cur = hops_of st1 n) as Hcur1
      by (rewrite Hcur; symmetry; apply Hext, (proj2 Hex)).
    specialize (IH Q1 st1 Hex1 Hcur1 Harcs').
    destruct (relax g count cur arcs st1 Q1) as [[st' Q'] | e]; [| done].
    destruct IH as (Hex' & Hext' & Hsum' & Hset'). split; [done | split; [| split; [lia |]]].
    - exact (extends_trans _ _ _ _ Hext Hext').
    - intros arc' m [-> | Hin]%elem_of_cons Hop Hm; [by apply Hext', Hset | by eapply Hset']. }
  cbn [relax]. destruct (is_operational arc g) eqn:Hop; cbn [negb];
    [| apply Hgo; try done; apply extends_refl].
  destruct (find_port (arc_destination arc) g) as [p |] eqn:Hp.
  2:{ unfold is_operational in Hop. rewrite Hp in Hop. by repeat case_match. }
  apply find_dense_Some in Hp as [_ Hp]; [| apply Hg].
  assert (owner_of g (arc_destination arc) = Some (port_owner p)) as Hown
    by (unfold owner_of; by rewrite Hp).
  assert (node_in g (port_owner p)) as Hin
    by (apply (gs_owner _ (go_structure _ Hg)); by eapply list_elem_of_lookup_2).
  assert (hop g n (port_owner p)) as Hhop by (exists arc; set_solver).
  assert (u64_wrap (pm_hops cur + 1) = hops_of st n + 1) as -> by (rewrite Hcur; apply u64_wrap_id; word_lia).
  fold (hops_of st (port_owner p)).
  destruct (Z.eqb_spec (hops_of st (port_owner p)) u64_max) as [Hnew | Hold].
  - destruct (at_node_new n Q st (port_owner p) (pm_path_count cur) Hex Hhop Hin Hnew)
      as (Hex1 & Hext1 & Hu1 & Hr1).
    apply Hgo; [done | done | rewrite length_app; cbn [length]; lia |].
    intros m _ Hm. rewrite Hown in Hm. by injection Hm as <-.
  - assert (reached st (port_owner p)) as Hr by done.
    destruct (count && _) eqn:Hc.
    + apply andb_true_iff in Hc as [-> _]. destruct (_ <? _); [done |].
      destruct (at_node_count n Q st (port_owner p)
        (u64_wrap (pm_path_count (metrics (port_owner p) st) + pm_path_count cur)) Hex Hin)
        as (Hex1 & Hext1 & Hu1 & Hh1).
      apply Hgo; [done | done | by rewrite Hu1 |].
      intros m _ Hm. rewrite Hown in Hm. injection Hm as <-. by apply Hext1.
    + apply Hgo; [done | apply extends_refl | done |].
      intros m _ Hm. rewrite Hown in Hm. by injection Hm as <-.
Qed.

(** ** The outer loop *)

Lemma search_spec count fuel n Q st :
  at_node n Q st -> (unreached st + S (length Q) <= fuel)%nat ->
  match search fuel g count (n :: Q) st with
  | None => False
  | Some (Throw e) => count = true
  | Some (Ret st') => searched (node_in g) (hop g) s (hops_of st')
  end.
Proof.
  revert n Q st. induction fuel as [| fuel IH]; intros n Q st Hex Hf; [lia |].
  cbn [search]. rewrite (adjacency_arcs g n Hg).
  assert (contains n g = true) as -> by (apply contains_node_in; [apply Hg | apply (proj2 Hex)]).
  pose proof (relax_spec count (metrics n st) (arcs_from g n) n Q st Hex eq_refl ltac:(done)) as Hrelax.
  destruct (relax _ _ _ _ _ _) as [[st' Q'] | e]; [| done].
  destruct Hrelax as ([Hok' Hex'] & Hext & Hsum & Hall).
  assert (closed (node_in g) (hop g) (hops_of st') n) as Hc.
  { intros m (arc & Hin & Hop & Hown). assert (reached st' m) as Hm by (by eapply Hall).
    split; [done | by apply (ex_near _ _ _ _ _ _ _ _ Hex')]. }
  destruct Q' as [| n' Q'].
  - pose proof (expanding_end _ _ _ _ _ _ _ Hex' Hc) as Hsd. by destruct fuel.
  - apply IH; [split; [done | by eapply expanding_next] |]. cbn [length] in Hsum. lia.
Qed.

Lemma initial_at_node :
  let st := set_metrics s (mkPathMetrics 0 1) (new_path_state g) in
  at_node s [] st /\ S (unreached st) = total_nodes g.
Proof.
  intros st.
  assert (S (unreached st) = total_nodes g) as Hu.
  { rewrite <- (unreached_new g). apply (unreached_set g); [apply new_path_state_ok | done | |].
    - unfold hops_of. by rewrite metrics_new.
    - cbn. word_lia. }
  assert (forall m, node_in g m -> hops_of st m = if decide (m = s) then 0 else u64_max) as Hh.
  { intros m Hm. unfold st. rewrite hops_set by (done || apply new_path_state_ok).
    case_decide; [done |]. unfold hops_of. by rewrite metrics_new. }
  split; [| done]. split; [apply set_metrics_ok, new_path_state_ok |].
  apply initial_expanding; [done | by rewrite Hh, decide_True | | done].
  intros m Hm Hne. by rewrite Hh, decide_False.
Qed.

Lemma shortest_path_impl_distance count d :
  node_in g d ->
  match shortest_path_summary_impl s d count g with
  | None => False
  | Some (Throw e) => count = true
  | Some (Ret r) => is_distance g s d (sps_hops <$> r)
  end.
Proof.
  intros Hd. unfold shortest_path_summary_impl.
  rewrite (proj2 (contains_node_in g s (go_vectors _ Hg)) Hs).
  rewrite (proj2 (contains_node_in g d (go_vectors _ Hg)) Hd). cbn [negb orb].
  destruct (node_is_operational s g) eqn:Hos; [| cbn; tauto].
  destruct (node_is_operational d g) eqn:Hod; [| cbn; tauto]. cbn [negb orb].
  destruct initial_at_node as [Hex Hu].
  pose proof (search_spec count (total_nodes g) s [] _ Hex ltac:(cbn [length]; lia)) as Hsearch.
  destruct (search _ _ _ _ _) as [[st' | e] |]; [| done | done].
  pose proof (searched_distance _ _ _ _ _ Hs Hsearch Hd) as Hdist. unfold hops_of in Hdist.
  destruct (pm_hops (metrics d st') =? u64_max); cbn [fmap option_fmap option_map sps_hops is_distance].
  - by right; right.
  - by destruct Hdist as (H0 & Hp & Hmin).
Qed.
End Search.

(** ** Correctness *)

Lemma is_distance_unique g s d r r' : is_distance g s d r -> is_distance g s d r' -> r = r'.
Proof.
  destruct r as [k |], r' as [k' |]; cbn; try done.
  - intros (H0 & _ & _ & Hp & Hmin) (H0' & _ & _ & Hp' & Hmin').
    specialize (Hmin _ Hp'). specialize (Hmin' _ Hp). f_equal. lia.
  - intros (_ & H1 & H2 & Hp & _) [| [|Hno]]; [congruence | congruence |].
    by apply rtc_nsteps_2 in Hp.
  - intros [| [|Hno]] (_ & H1 & H2 & Hp & _); [congruence | congruence |].
    by apply rtc_nsteps_2 in Hp.
Qed.

Lemma shortest_hops_distance g s d :
  graph_ok g -> Z.of_nat (total_nodes g) <= u64_max -> contains s g = true -> contains d g = true ->
  exists r, shortest_hops s d g = Some (Ret r) /\ is_distance g s d r.
Proof.
  intros Hg Ht Hs Hd. apply contains_node_in in Hs, Hd; [| apply Hg | apply Hg].
  pose proof (shortest_path_impl_distance g Hg Ht s Hs false d Hd) as Hi. unfold shortest_hops.
  destruct (shortest_path_summary_impl s d false g) as [[r | e] |]; [| done | done]. eauto.
Qed.

(** C31: the breadth-first search finds distances.  On every graph the
    construction and state operations can produce, whose nodes a [size_t] can
    count, [shortest_hops] between known nodes returns (the fuel, one turn per
    node, suffices and nothing is thrown), and its result is the length of a
    shortest path of operational links, or nothing exactly when an end is down
    or no such path exists. *)
Theorem shortest_hops_correct ops s d :
  Z.of_nat (total_nodes (build ops)) <= u64_max ->
  contains s (build ops) = true -> contains d (build ops) = true ->
  exists r, shortest_hops s d (build ops) = Some (Ret r) /\ is_distance (build ops) s d r /\
            reachable s d (build ops) = Some (Ret (has_value r)).
Proof.
  intros Ht Hs Hd.
  destruct (shortest_hops_distance _ s d (build_ok ops) Ht Hs Hd) as (r & Hr & Hdist).
  exists r. unfold reachable. by rewrite Hr.
Qed.

Lemma hop_symmetric g n m : hop g n m -> hop g m n.
Proof.
  intros (arc & [Hsrc Hin]%list_elem_of_filter & Hop & Hdst). exists (opposite arc).
  rewrite operational_opposite. split_and!; try done.
  apply list_elem_of_filter. split; [done |]. apply elem_of_arcs in Hin as (l & Hl & Ha).
  apply elem_of_arcs. exists l. split; [done |]. by apply opposite_directed.
Qed.

Lemma nsteps_hop_symmetric g k n m : nsteps (hop g) k n m -> nsteps (hop g) k m n.
Proof.
  induction 1 as [| k x y z Hxy Hyz IH]; [constructor |].
  eapply nsteps_r; [exact IH | by apply hop_symmetric].
Qed.

Lemma is_distance_symmetric g s d r : is_distance g s d r -> is_distance g d s r.
Proof.
  destruct r as [k |]; cbn.
  - intros (H0 & H1 & H2 & Hp & Hmin). split_and!; try done; [by apply nsteps_hop_symmetric |].
    intros k' Hk'. by apply Hmin, nsteps_hop_symmetric.
  - intros [| [| Hno]]; [tauto | tauto |]. right; right. intros (k & Hk)%rtc_nsteps.
    apply Hno. eapply rtc_nsteps_2. by apply nsteps_hop_symmetric.
Qed.

(** Distances are symmetric: links fail in both directions at once, so the
    number of hops from [s] to [d] is the number from [d] to [s]. *)
Theorem shortest_hops_symmetric ops s d :
  Z.of_nat (total_nodes (build ops)) <= u64_max ->
  shortest_hops s d (build ops) = shortest_hops d s (build ops).
Proof.
  intros Ht. destruct (contains s (build ops)) eqn:Hs, (contains d (build ops)) eqn:Hd.
  2-4: unfold shortest_hops, shortest_path_summary_impl; by rewrite Hs, Hd.
  destruct (shortest_hops_distance _ s d (build_ok ops) Ht Hs Hd) as (r & -> & Hr).
  destruct (shortest_hops_distance _ d s (build_ok ops) Ht Hd Hs) as (r' & -> & Hr').
  by rewrite (is_distance_unique _ _ _ _ _ Hr (is_distance_symmetric _ _ _ _ Hr')).
Qed.

(** A rack with a leaf and a spine switch and two NICs with a GPU each, one NIC
    below either switch. *)
Definition demo_topology : list GraphOp :=
  [OpAddRack; OpAddNic 0; OpAddNic 0; OpAddGpu 0; OpAddGpu 1; OpAddLeafSwitch 0; OpAddSpineSwitch;
   OpConnectFabric (nic_node 0) FabricUplink (switch_node 0) FabricDownlink;
   OpConnectFabric (switch_node 0) FabricUplink (switch_node 1) FabricDownlink;
   OpConnectFabric (nic_node 1) FabricUplink (switch_node 1) FabricDownlink].

Lemma shortest_hops_correct_witness :
  exists r, shortest_hops (gpu_node 0) (gpu_node 1) (build demo_topology) = Some (Ret r) /\
            is_distance (build demo_topology) (gpu_node 0) (gpu_node 1) r /\
            reachable (gpu_node 0) (gpu_node 1) (build demo_topology) = Some (Ret (has_value r)).
Proof. apply shortest_hops_correct; vm_compute; [discriminate | done | done]. Defined.

