(* ===== verification/Transport.v ===== *)
(** * The transport runtime

    Models [transport/runtime.{hpp,cpp}], [progress.cpp], [failure.cpp] and
    [telemetry.cpp]: chunks that travel a route of directed links hop by hop,
    the transfers they belong to, and link, port and switch failures.  The
    runtime holds a pointer to the topology and every operation receives the
    simulation context by reference, so an operation is a computation on all
    three.  [std::map]s are finite maps; where the code iterates over one, the
    keys are visited in the order of the map. *)

From S2P Require Import Prelude SimTime Entities TelemetryRecords Trace EventQueue SimContext.
From S2P Require Import Timing LinkQueue LinkService Topology.

(** ** Data *)

Record RoutedChunk : Type := mkRoutedChunk {
  rc_chunk : TransferChunk;
  rc_route : list DirectedLinkId;
}.

Record TransferRequest : Type := mkTransferRequest {
  tr_source : NodeId;
  tr_destination : NodeId;
  tr_bytes : ByteCount;
  tr_maximum_chunk_bytes : ByteCount;
  tr_route : list DirectedLinkId;
}.

Record SubmittedChunk : Type := mkSubmittedChunk { sc_id : ChunkId; sc_bytes : ByteCount }.

Record SubmittedTransfer : Type := mkSubmittedTransfer {
  st_id : TransferId;
  st_chunks : list SubmittedChunk;
}.

Inductive ChunkTransitState : Type :=
  | CT_Registered | CT_AwaitingArrival | CT_Admitted | CT_Delivered
  | CT_DroppedBufferFull | CT_DroppedLinkDown.

#[global] Instance ChunkTransitState_eq_dec : EqDecision ChunkTransitState.
Proof. solve_decision. Defined.

Record ChunkTransitSnapshot : Type := mkChunkTransitSnapshot {
  cts_state : ChunkTransitState;
  cts_hop_index : Z;
  cts_marked : bool;
}.

Inductive TransferOutcome : Type :=
  TransferOutcome_Pending | TransferOutcome_Succeeded | TransferOutcome_Failed.

#[global] Instance TransferOutcome_eq_dec : EqDecision TransferOutcome.
Proof. solve_decision. Defined.

Definition TransferOutcome_value (o : TransferOutcome) : Z :=
  match o with
  | TransferOutcome_Pending => 1 | TransferOutcome_Succeeded => 2 | TransferOutcome_Failed => 3
  end.

Record TransferCompletion : Type := mkTransferCompletion {
  cm_transfer : TransferId;
  cm_outcome : TransferOutcome;
  cm_timestamp : SimTimeNs;
  cm_delivered : TrafficCount;
  cm_dropped_buffer_full : TrafficCount;
  cm_dropped_link_down : TrafficCount;
}.

Record TransferSnapshot : Type := mkTransferSnapshot {
  ts_total : TrafficCount;
  ts_registered : TrafficCount;
  ts_awaiting_initial_arrival : TrafficCount;
  ts_waiting : TrafficCount;
  ts_active : TrafficCount;
  ts_propagating : TrafficCount;
  ts_delivered : TrafficCount;
  ts_dropped_buffer_full : TrafficCount;
  ts_dropped_link_down : TrafficCount;
  ts_started_at : option SimTimeNs;
  ts_completion : option TransferCompletion;
}.

Record TransportLimits : Type := mkTransportLimits {
  maximum_chunks : Z;
  maximum_route_entries : Z;
  maximum_route_hops : Z;
}.

Definition default_transport_limits : TransportLimits := mkTransportLimits 1000000 16000000 1024.

Record ChunkRecord : Type := mkChunkRecord {
  cr_chunk : TransferChunk;
  cr_route : list DirectedLinkId;
  cr_state : ChunkTransitState;
  cr_hop_index : Z;
  cr_scheduled_arrival : option EventId;
}.

Record TransferRecord : Type := mkTransferRecord {
  tf_chunks : list ChunkId;
  tf_total : TrafficCount;
  tf_delivered : TrafficCount;
  tf_dropped_buffer_full : TrafficCount;
  tf_dropped_link_down : TrafficCount;
  tf_started_at : option SimTimeNs;
  tf_completion : option TransferCompletion;
}.

Definition new_transfer_record : TransferRecord :=
  mkTransferRecord [] no_traffic no_traffic no_traffic no_traffic None None.

Record TransportRuntime : Type := mkTransportRuntime {
  limits_ : TransportLimits;
  telemetry_ : TelemetrySink;
  route_entries_ : Z;
  transfers_ : gmap Z TransferRecord;
  completions_ : list TransferCompletion;
  transfer_ids_ : IdGenerator;
  chunk_ids_ : IdGenerator;
  services_ : gmap DirectedLinkId DirectedLinkService;
  reported_busy_time_ns_ : gmap DirectedLinkId Z;
  chunks_ : gmap Z ChunkRecord;
}.

(** ** Validation *)

Definition require_fabric_arc (link : DirectedLinkId) (g : TopologyGraph) : outcome DirectedLink :=
  match find_link (dl_link link) g with
  | Some physical =>
      if negb (bool_decide (link_kind physical = Fabric))
      then Throw (invalid_argument "transport link must identify a known fabric arc") else
      let '(forward, backward) := directed_links physical in
      match dl_direction link with
      | AToB => Ret forward
      | BToA => Ret backward
      end
  | None => Throw (invalid_argument "transport link must identify a known fabric arc")
  end.

Definition find_service (link : DirectedLinkId) (rt : TransportRuntime)
    : option DirectedLinkService :=
  services_ rt !! link.

Definition validate_capacity (count hops : Z) (rt : TransportRuntime) : outcome unit :=
  if (hops >? maximum_route_hops (limits_ rt)) ||
     (count >? u64_wrap (maximum_chunks (limits_ rt) - Z.of_nat (size (chunks_ rt)))) ||
     (negb (hops =? 0) &&
      (count >? u64_wrap (maximum_route_entries (limits_ rt) - route_entries_ rt) / hops))
  then Throw (length_error "transport retained-state limit exceeded")
  else Ret tt.

Fixpoint validate_timing (bytes : ByteCount) (route : list DirectedLinkId) (now : SimTimeNs)
    (rt : TransportRuntime) : outcome unit :=
  match route with
  | [] => Ret tt
  | link :: rest =>
      match find_service link rt with
      | None => Throw (invalid_argument "route uses an unconfigured link")
      | Some service =>
          let config := configuration_ (queue_ service) in
          match serialization_delay bytes (cfg_bandwidth config) with
          | None => Throw (overflow_error "serialization delay exceeds simulated-time range")
          | Some delay =>
              let serialized := checked_add now delay in
              let propagated :=
                match serialized with
                | Some serialized => checked_add serialized (cfg_propagation_delay config)
                | None => None
                end in
              match propagated with
              | None => Throw (overflow_error "route timing exceeds simulated-time range")
              | Some now => validate_timing bytes rest now rt
              end
          end
      end
  end.

(** The loop over the links behind the first; returns the last arc. *)
Fixpoint validate_hops (previous : DirectedLink) (route : list DirectedLinkId)
    (rt : TransportRuntime) (g : TopologyGraph) : outcome DirectedLink :=
  match route with
  | [] => Ret previous
  | link :: rest =>
      match require_fabric_arc link g with
      | Throw e => Throw e
      | Ret directed =>
          if negb (has_value (find_service link rt))
          then Throw (invalid_argument "routed chunk path uses an unconfigured directed link") else
          match find_port (arc_destination previous) g, find_port (arc_source directed) g with
          | Some preceding_destination, Some current_source =>
              if bool_decide (port_owner preceding_destination = port_owner current_source)
              then validate_hops directed rest rt g
              else Throw (invalid_argument "routed chunk path is not contiguous")
          | _, _ => Throw (invalid_argument "routed chunk path is not contiguous")
          end
      end
  end.

(** An expected end, when there is one, owns the port. *)
Definition validate_end (port : PortId) (expected : option NodeId) (e : exn) (g : TopologyGraph)
    : outcome unit :=
  match expected with
  | None => Ret tt
  | Some node =>
      match find_port port g with
      | Some p => if bool_decide (port_owner p = node) then Ret tt else Throw e
      | None => Throw e
      end
  end.

Definition validate_route (route : list DirectedLinkId)
    (expected_source expected_destination : option NodeId)
    (rt : TransportRuntime) (g : TopologyGraph) : outcome unit :=
  match validate_capacity 0 (zlength route) rt with
  | Throw e => Throw e
  | Ret _ =>
      match route with
      | [] => Throw (invalid_argument "routed chunk path must be nonempty")
      | front :: rest =>
          if zlength route >? u32_max
          then Throw (overflow_error "routed chunk path exceeds hop-index range") else
          match require_fabric_arc front g with
          | Throw e => Throw e
          | Ret first =>
              if negb (has_value (find_service front rt))
              then Throw (invalid_argument "routed chunk path uses an unconfigured directed link")
              else
                match validate_hops first rest rt g with
                | Throw e => Throw e
                | Ret previous =>
                    match validate_end (arc_source first) expected_source
                            (invalid_argument "routed transfer source does not match path") g with
                    | Throw e => Throw e
                    | Ret _ =>
                        validate_end (arc_destination previous) expected_destination
                          (invalid_argument "routed transfer destination does not match path") g
                    end
                end
          end
      end
  end.

(** ** Construction *)

Fixpoint add_services (configurations : list DirectedLinkConfiguration) (g : TopologyGraph)
    (rt : TransportRuntime) : outcome TransportRuntime :=
  match configurations with
  | [] => Ret rt
  | configuration :: rest =>
      let link := cfg_link configuration in
      match require_fabric_arc link g with
      | Throw e => Throw e
      | Ret _ =>
          match services_ rt !! link with
          | Some _ => Throw (invalid_argument "duplicate directed-link transport configuration")
          | None =>
              match new_link_service configuration with
              | Throw e => Throw e
              | Ret service =>
                  add_services rest g {| rt with
                    services_ := <[link := service]> (services_ rt);
                    reported_busy_time_ns_ := <[link := 0]> (reported_busy_time_ns_ rt) |}
              end
          end
      end
  end.

Definition new_transport_runtime (g : TopologyGraph)
    (configurations : list DirectedLinkConfiguration) (limits : TransportLimits)
    (telemetry : TelemetrySink) : outcome TransportRuntime :=
  if (maximum_chunks limits =? 0) || (maximum_route_entries limits =? 0) ||
     (maximum_route_hops limits =? 0)
  then Throw (invalid_argument "transport limits must be positive")
  else add_services configurations g
         (mkTransportRuntime limits telemetry 0 ∅ [] (generator 0) (generator 0) ∅ ∅ ∅).

(** ** Operations *)

Record Transport (C : Type) : Type := mkTransport {
  tp_runtime : TransportRuntime;
  tp_topology : TopologyGraph;
  tp_context : C;
}.
Arguments mkTransport {C} _ _ _.
Arguments tp_runtime {C} _.
Arguments tp_topology {C} _.
Arguments tp_context {C} _.

Section Operations.
Context {C : Type} `{SimContext C}.

Abbreviation TM := (M (Transport C)).

Definition with_context {A} (m : M C A) : TM A :=
  zoom tp_context (fun c t => {| t with tp_context := c |}) m.

Definition modify_runtime (f : TransportRuntime -> TransportRuntime) : TM unit :=
  modify (fun t => {| t with tp_runtime := f (tp_runtime t) |}).

Definition get_now : TM SimTimeNs := gets (fun t => ctx_now (tp_context t)).

Definition current_event : TM EventId :=
  fun t => (t, ctx_current_event_id (tp_context t)).

(** Reads that may throw: the [const] member functions. *)
Definition check {A} (f : TransportRuntime -> TopologyGraph -> outcome A) : TM A :=
  fun t => (t, f (tp_runtime t) (tp_topology t)).

Definition next_transfer_id : TM TransferId :=
  zoom (fun t => transfer_ids_ (tp_runtime t))
    (fun i t => let rt := tp_runtime t in
                {| t with tp_runtime := {| rt with transfer_ids_ := i |} |})
    SequentialTransportIdGenerator.next.

Definition next_chunk_id : TM ChunkId :=
  zoom (fun t => chunk_ids_ (tp_runtime t))
    (fun i t => let rt := tp_runtime t in
                {| t with tp_runtime := {| rt with chunk_ids_ := i |} |})
    SequentialTransportIdGenerator.next.

Definition require_chunk (chunk : ChunkId) : TM ChunkRecord :=
  let! rt := gets tp_runtime in
  of_option (invalid_argument "unknown routed chunk identifier") (chunks_ rt !! chunk).

(** An assignment through the reference [require_chunk] returned. *)
Definition put_chunk (chunk : ChunkId) (record : ChunkRecord) : TM unit :=
  modify_runtime (fun rt => {| rt with chunks_ := <[chunk := record]> (chunks_ rt) |}).

Definition require_service (link : DirectedLinkId) : TM DirectedLinkService :=
  let! rt := gets tp_runtime in
  of_option (invalid_argument "unknown directed-link transport service") (services_ rt !! link).

(** A member function of the service of [link]. *)
Definition with_service {A} (link : DirectedLinkId) (m : M (DirectedLinkService * C) A) : TM A :=
  let! service := require_service link in
  fun t =>
    let '((service', c), r) := m (service, tp_context t) in
    let rt := tp_runtime t in
    ({| t with tp_runtime := {| rt with services_ := <[link := service']> (services_ rt) |};
               tp_context := c |}, r).

(** [service.statistics(context.now())]. *)
Definition link_statistics (link : DirectedLinkId) : TM LinkStatistics :=
  let! service := require_service link in
  let! now := get_now in
  of_outcome (statistics now service).

Definition queue_snapshot (link : DirectedLinkId) : TM QueueSnapshot :=
  let! service := require_service link in
  ret (snapshot (queue_ service)).

(** [transfers_.at(id)] *)
Definition transfer_at (id : TransferId) : TM TransferRecord :=
  let! rt := gets tp_runtime in
  of_option (out_of_range "map::at") (transfers_ rt !! id).

Definition put_transfer (id : TransferId) (record : TransferRecord) : TM unit :=
  modify_runtime (fun rt => {| rt with transfers_ := <[id := record]> (transfers_ rt) |}).

(** *** Telemetry *)

Definition telemetry_enabled : TM bool :=
  gets (fun t => ctx_sink_enabled (telemetry_ (tp_runtime t)) (tp_context t)).

Definition telemetry_record (ts : SimTimeNs) (corr : Correlation) (obs : TelemetryObservation)
    : TM unit :=
  let! sink := gets (fun t => telemetry_ (tp_runtime t)) in
  with_context (ctx_sink_record sink ts corr obs).

Definition link_labels (link : DirectedLinkId) : outcome MetricLabels :=
  make_labels [mkMetricLabelValue MetricLabel_Link (dl_link link);
               mkMetricLabelValue MetricLabel_Direction (LinkDirection_value (dl_direction link))].

Definition event_correlation : TM Correlation :=
  let! event := current_event in
  let! cause := fun t => (t, ctx_cause (tp_context t)) in
  ret {| no_correlation with corr_event := Some event; corr_cause := cause |}.

Definition counter_delta (before after : Z) : outcome Z :=
  if after <? before then Throw (logic_error "transport telemetry counter regressed")
  else Ret (u64_wrap (after - before)).

Definition emit_transfer (record : ChunkRecord) (transition : TransferTransition)
    (link : option DirectedLinkId) (reason : TransferReason) : TM unit :=
  let! enabled := telemetry_enabled in
  when enabled
    (let! correlation := event_correlation in
     let correlation := {| correlation with
       corr_transfer := Some (chunk_transfer (cr_chunk record));
       corr_chunk := Some (chunk_id (cr_chunk record));
       corr_link := link |} in
     let! now := get_now in
     telemetry_record now correlation
       (TransferObservation transition (chunk_bytes (cr_chunk record)) (cr_hop_index record) reason)).

Definition emit_queue (record : ChunkRecord) (link : DirectedLinkId) (transition : QueueTransition)
    : TM unit :=
  let! enabled := telemetry_enabled in
  when enabled
    (let! correlation := event_correlation in
     let correlation := {| correlation with
       corr_transfer := Some (chunk_transfer (cr_chunk record));
       corr_chunk := Some (chunk_id (cr_chunk record));
       corr_link := Some link |} in
     let! snap := queue_snapshot link in
     let! now := get_now in
     telemetry_record now correlation
       (QueueObservation transition (chunk_bytes (cr_chunk record)) (snap_waiting_bytes snap)
          (snap_waiting_chunks snap))).

(** The lambda [emit_delta]. *)
Definition emit_delta (correlation : Correlation) (labels : MetricLabels)
    (bytes_metric chunks_metric : MetricId) (earlier later : TrafficCount) : TM unit :=
  let! bytes := of_outcome (counter_delta (tc_bytes earlier) (tc_bytes later)) in
  let! chunks := of_outcome (counter_delta (tc_chunks earlier) (tc_chunks later)) in
  let! now := get_now in
  do! when (negb (bytes =? 0))
        (telemetry_record now correlation (CounterObservation bytes_metric labels bytes)) in
  when (negb (chunks =? 0))
    (telemetry_record now correlation (CounterObservation chunks_metric labels chunks)).

(** [reported_busy_time_ns_.at(link)] and the assignment through it. *)
Definition emit_busy (correlation : Correlation) (labels : MetricLabels) (link : DirectedLinkId)
    (after : LinkStatistics) : TM unit :=
  let! rt := gets tp_runtime in
  let! reported := of_option (out_of_range "map::at") (reported_busy_time_ns_ rt !! link) in
  let busy := ls_busy_time after in
  let! elapsed := of_outcome (counter_delta reported busy) in
  let! now := get_now in
  do! when (negb (elapsed =? 0))
        (telemetry_record now correlation (CounterObservation LinkSerializerBusyNs labels elapsed)) in
  modify_runtime (fun rt => {| rt with
    reported_busy_time_ns_ := <[link := busy]> (reported_busy_time_ns_ rt) |}).

Definition emit_link_metrics (link : DirectedLinkId) (before after : LinkStatistics) : TM unit :=
  let! enabled := telemetry_enabled in
  when enabled
    (let! correlation := event_correlation in
     let correlation := {| correlation with corr_link := Some link |} in
     let! labels := of_outcome (link_labels link) in
     let emit := emit_delta correlation labels in
     do! emit LinkAcceptedBytes LinkAcceptedChunks (ls_enqueued before) (ls_enqueued after) in
     do! emit LinkSerializedBytes LinkSerializedChunks (ls_completed before) (ls_completed after) in
     do! emit LinkMarkedBytes LinkMarkedChunks (ls_marked before) (ls_marked after) in
     do! emit LinkDroppedBufferFullBytes LinkDroppedBufferFullChunks
           (ls_dropped_buffer_full before) (ls_dropped_buffer_full after) in
     do! emit LinkDroppedDownBytes LinkDroppedDownChunks
           (ls_dropped_link_down before) (ls_dropped_link_down after) in
     emit_busy correlation labels link after).

Definition emit_queue_gauges (link : DirectedLinkId) (snap : QueueSnapshot) : TM unit :=
  let! enabled := telemetry_enabled in
  when enabled
    (let! correlation := event_correlation in
     let correlation := {| correlation with corr_link := Some link |} in
     let! labels := of_outcome (link_labels link) in
     let! now := get_now in
     do! telemetry_record now correlation
           (GaugeObservation LinkQueueWaitingBytes labels (snap_waiting_bytes snap)) in
     do! telemetry_record now correlation
           (GaugeObservation LinkQueueWaitingChunks labels (snap_waiting_chunks snap)) in
     telemetry_record now correlation
       (GaugeObservation LinkMaximumWaitingBytes labels (snap_maximum_waiting_bytes snap))).

(** *** Submission *)

Definition register_chunk (routed_chunk : RoutedChunk) : TM unit :=
  let chunk := rc_chunk routed_chunk in
  let route := rc_route routed_chunk in
  do! throw_if (chunk_bytes chunk =? 0)
        (invalid_argument "routed chunk must contain nonzero bytes") in
  do! throw_if (negb (chunk_hop_index chunk =? 0))
        (invalid_argument "new routed chunk must begin at hop zero") in
  do! check (validate_route route None None) in
  do! check (fun rt _ => validate_capacity 1 (zlength route) rt) in
  do! check (fun rt _ => validate_timing (chunk_bytes chunk) route 0 rt) in
  let id := chunk_id chunk in
  let transfer := chunk_transfer chunk in
  let! rt := gets tp_runtime in
  do! throw_if (has_value (chunks_ rt !! id))
        (invalid_argument "duplicate routed chunk identifier") in
  let existing := transfers_ rt !! transfer in
  do! throw_if (match existing with Some t => has_value (tf_started_at t) | None => false end)
        (invalid_argument "cannot append chunks to a sealed transfer") in
  let! total := of_outcome
    (add_traffic (match existing with Some t => tf_total t | None => no_traffic end)
       (mkTrafficCount (chunk_bytes chunk) 1)) in
  let transfer_record := default new_transfer_record existing in
  modify_runtime (fun rt => {| rt with
    chunks_ := <[id := mkChunkRecord chunk route CT_Registered 0 None]> (chunks_ rt);
    transfers_ := <[transfer := {| transfer_record with
                      tf_chunks := tf_chunks transfer_record ++ [id];
                      tf_total := total |}]> (transfers_ rt);
    route_entries_ := u64_wrap (route_entries_ rt + zlength route);
    transfer_ids_ := SequentialTransportIdGenerator.advance_past transfer (transfer_ids_ rt);
    chunk_ids_ := SequentialTransportIdGenerator.advance_past id (chunk_ids_ rt) |}).

Definition schedule_initial_arrival (chunk : ChunkId) : TM EventId :=
  let! record := require_chunk chunk in
  do! throw_if (negb (bool_decide (cr_state record = CT_Registered)))
        (logic_error "routed chunk initial arrival is already scheduled") in
  let! now := get_now in
  do! check (fun rt _ => validate_timing (chunk_bytes (cr_chunk record)) (cr_route record) now rt) in
  let! event_id := with_context (ctx_schedule (mkEventSpec now Normal
    (ChunkArrival_ (mkChunkArrivalEvent chunk 0)))) in
  do! put_chunk chunk {| record with cr_state := CT_AwaitingArrival;
                                     cr_scheduled_arrival := Some event_id |} in
  let id := chunk_transfer (cr_chunk record) in
  let! transfer := transfer_at id in
  do! when (negb (has_value (tf_started_at transfer)))
        (let! now := get_now in
         do! put_transfer id {| transfer with tf_started_at := Some now |} in
         let! enabled := telemetry_enabled in
         when enabled
           (let! correlation := event_correlation in
            telemetry_record now {| correlation with corr_transfer := Some id |}
              (TransferObservation TransferTransition_Submitted (tc_bytes (tf_total transfer)) 0
                 TransferReason_None))) in
  ret event_id.

(** The loop over the chunk ordinals: [full] chunks of the maximal size, the
    rest of the remainder's size. *)
Fixpoint register_chunks (count full : nat) (transfer : TransferId) (request : TransferRequest)
    (remainder : ByteCount) : TM (list SubmittedChunk) :=
  match count with
  | O => ret []
  | S count =>
      let bytes := match full with O => remainder | S _ => tr_maximum_chunk_bytes request end in
      let! chunk := next_chunk_id in
      do! register_chunk
            (mkRoutedChunk (mkTransferChunk transfer chunk bytes 0 false) (tr_route request)) in
      let! rest := register_chunks count (pred full) transfer request remainder in
      ret (mkSubmittedChunk chunk bytes :: rest)
  end.

Definition submit_transfer (request : TransferRequest) : TM SubmittedTransfer :=
  do! throw_if (tr_bytes request =? 0)
        (invalid_argument "transfer byte count must be nonzero") in
  do! throw_if (tr_maximum_chunk_bytes request =? 0)
        (invalid_argument "maximum chunk byte count must be nonzero") in
  do! check (validate_route (tr_route request) (Some (tr_source request))
               (Some (tr_destination request))) in
  let full_chunks := tr_bytes request / tr_maximum_chunk_bytes request in
  let remainder := tr_bytes request mod tr_maximum_chunk_bytes request in
  let chunk_count := u64_wrap (full_chunks + Z.b2z (negb (remainder =? 0))) in
  let! rt := gets tp_runtime in
  do! throw_if (negb (SequentialTransportIdGenerator.can_generate 1 (transfer_ids_ rt)) ||
                negb (SequentialTransportIdGenerator.can_generate chunk_count (chunk_ids_ rt)))
        (overflow_error "transport ID sequence cannot represent submitted transfer") in
  do! throw_if (chunk_count >? u64_max)
        (overflow_error "chunk count exceeds runtime container range") in
  do! check (fun rt _ => validate_capacity chunk_count (zlength (tr_route request)) rt) in
  let! now := get_now in
  do! when (negb (full_chunks =? 0))
        (check (fun rt _ => validate_timing (tr_maximum_chunk_bytes request) (tr_route request) now rt)) in
  do! when (negb (remainder =? 0))
        (check (fun rt _ => validate_timing remainder (tr_route request) now rt)) in
  let! transfer := next_transfer_id in
  let! chunks := register_chunks (Z.to_nat chunk_count) (Z.to_nat full_chunks) transfer request
                   remainder in
  do! for_each chunks (fun chunk => do! schedule_initial_arrival (sc_id chunk) in ret tt) in
  ret (mkSubmittedTransfer transfer chunks).

(** *** Terminal chunks *)

Definition record_terminal (record : ChunkRecord) : TM unit :=
  let! now := get_now in
  let id := chunk_transfer (cr_chunk record) in
  let! transfer := transfer_at id in
  do! throw_if (has_value (tf_completion transfer)) (logic_error "transfer already completed") in
  let count := mkTrafficCount (chunk_bytes (cr_chunk record)) 1 in
  let! transfer :=
    match cr_state record with
    | CT_Delivered =>
        let! t := of_outcome (add_traffic (tf_delivered transfer) count) in
        ret {| transfer with tf_delivered := t |}
    | CT_DroppedBufferFull =>
        let! t := of_outcome (add_traffic (tf_dropped_buffer_full transfer) count) in
        ret {| transfer with tf_dropped_buffer_full := t |}
    | CT_DroppedLinkDown =>
        let! t := of_outcome (add_traffic (tf_dropped_link_down transfer) count) in
        ret {| transfer with tf_dropped_link_down := t |}
    | _ => throw (logic_error "nonterminal chunk cannot finish a transfer")
    end in
  do! put_transfer id transfer in
  let! drops := of_outcome
    (add_traffic (tf_dropped_buffer_full transfer) (tf_dropped_link_down transfer)) in
  let! terminal := of_outcome (add_traffic (tf_delivered transfer) drops) in
  when (tc_chunks terminal =? tc_chunks (tf_total transfer))
    (do! throw_if (negb (tc_bytes terminal =? tc_bytes (tf_total transfer)))
           (logic_error "terminal transfer byte accounting mismatch") in
     let completion := mkTransferCompletion id
       (if tc_chunks drops =? 0 then TransferOutcome_Succeeded else TransferOutcome_Failed) now
       (tf_delivered transfer) (tf_dropped_buffer_full transfer) (tf_dropped_link_down transfer) in
     do! modify_runtime (fun rt => {| rt with completions_ := completions_ rt ++ [completion] |}) in
     do! put_transfer id {| transfer with tf_completion := Some completion |} in
     let! enabled := telemetry_enabled in
     when enabled
       (let! correlation := event_correlation in
        let correlation := {| correlation with corr_transfer := Some id |} in
        let transition :=
          if bool_decide (cm_outcome completion = TransferOutcome_Succeeded)
          then TransferTransition_Succeeded else TransferTransition_Failed in
        let reason :=
          if negb (tc_chunks (cm_dropped_buffer_full completion) =? 0)
          then TransferReason_BufferFull
          else if negb (tc_chunks (cm_dropped_link_down completion) =? 0)
          then TransferReason_ResourceDown else TransferReason_None in
        do! telemetry_record now correlation
              (TransferObservation transition (tc_bytes (tf_total transfer)) 0 reason) in
        let! labels := of_outcome (make_labels
          [mkMetricLabelValue MetricLabel_Outcome (TransferOutcome_value (cm_outcome completion))]) in
        telemetry_record now correlation (CounterObservation TransferTerminalTotal labels 1))).

(** *** Arrivals *)

Definition deliver (key : ChunkId) (record : ChunkRecord) : TM unit :=
  let record := {| record with cr_scheduled_arrival := None; cr_state := CT_Delivered |} in
  do! put_chunk key record in
  do! emit_transfer record TransferTransition_ChunkDelivered None TransferReason_None in
  record_terminal record.

(** The chunk meets a link that is down. *)
Definition drop_at_down_link (key : ChunkId) (record : ChunkRecord) (link : DirectedLinkId)
    : TM unit :=
  let! before := link_statistics link in
  do! with_service link (zoom fst (fun s p => (s, snd p)) (record_link_down (cr_chunk record))) in
  let! after := link_statistics link in
  let record := {| record with cr_scheduled_arrival := None; cr_state := CT_DroppedLinkDown |} in
  do! put_chunk key record in
  do! emit_queue record link QueueTransition_Dropped in
  do! emit_transfer record TransferTransition_ChunkDropped (Some link) TransferReason_ResourceDown in
  do! emit_link_metrics link before after in
  let! snap := queue_snapshot link in
  do! emit_queue_gauges link snap in
  record_terminal record.

(** The chunk is offered to the service of an operational link. *)
Definition offer (key : ChunkId) (hop_index : Z) (record : ChunkRecord) (link : DirectedLinkId)
    : TM unit :=
  let chunk := let c := cr_chunk record in {| c with chunk_hop_index := hop_index |} in
  do! put_chunk key {| record with cr_chunk := chunk |} in
  let! before := link_statistics link in
  let! admission := with_service link (service_admit chunk) in
  let! after := link_statistics link in
  let record := {| record with
    cr_scheduled_arrival := None;
    cr_chunk := {| chunk with chunk_marked := chunk_marked chunk || adm_marked_here admission |};
    cr_state := match adm_disposition admission with
                | DroppedBufferFull => CT_DroppedBufferFull
                | _ => CT_Admitted
                end |} in
  do! put_chunk key record in
  do! match adm_disposition admission with
      | DroppedBufferFull =>
          do! emit_queue record link QueueTransition_Dropped in
          emit_transfer record TransferTransition_ChunkDropped (Some link) TransferReason_BufferFull
      | disposition =>
          do! emit_queue record link QueueTransition_Enqueued in
          do! when (adm_marked_here admission) (emit_queue record link QueueTransition_Marked) in
          match disposition with
          | ServiceStarted =>
              do! emit_queue record link QueueTransition_ServiceStarted in
              emit_transfer record TransferTransition_ChunkServiceStarted (Some link)
                TransferReason_None
          | _ => emit_transfer record TransferTransition_ChunkQueued (Some link) TransferReason_None
          end
      end in
  do! emit_link_metrics link before after in
  let! snap := queue_snapshot link in
  do! emit_queue_gauges link snap in
  when (bool_decide (cr_state record = CT_DroppedBufferFull)) (record_terminal record).

(** [record.route[hop]] is in range by the guards before it. *)
Definition route_at (record : ChunkRecord) (hop : Z) : TM DirectedLinkId :=
  of_option (out_of_range "vector::operator[]") (cr_route record !! Z.to_nat hop).

Definition handle_arrival (event : ChunkArrivalEvent) : TM unit :=
  let! record := require_chunk (ca_chunk event) in
  let unexpected := logic_error "unexpected chunk-arrival event" in
  do! throw_if (negb (bool_decide (cr_state record = CT_AwaitingArrival))) unexpected in
  match cr_scheduled_arrival record with
  | None => throw unexpected
  | Some arrival =>
      let! current := current_event in
      do! throw_if (negb (arrival =? current)) unexpected in
      do! throw_if (negb (ca_hop_index event =? cr_hop_index record)) unexpected in
      if ca_hop_index event =? zlength (cr_route record)
      then deliver (ca_chunk event) record
      else
        let! link := route_at record (ca_hop_index event) in
        let! directed := check (fun _ => require_fabric_arc link) in
        let! operational := gets (fun t => is_operational directed (tp_topology t)) in
        if negb operational
        then drop_at_down_link (ca_chunk event) record link
        else offer (ca_chunk event) (ca_hop_index event) record link
  end.

(** *** Completions *)

Definition handle_completion (event : TransmissionCompleteEvent) : TM unit :=
  let link := mkDirectedLinkId (tc_link event) (tc_direction event) in
  let key := tc_chunk event in
  let! record := require_chunk key in
  let unexpected := logic_error "unexpected routed transmission-completion event" in
  do! throw_if (negb (bool_decide (cr_state record = CT_Admitted)) ||
                negb (tc_hop_index event =? cr_hop_index record) ||
                (tc_hop_index event >=? zlength (cr_route record))) unexpected in
  let! route_link := route_at record (tc_hop_index event) in
  do! throw_if (negb (bool_decide (route_link = link))) unexpected in
  let! service := require_service link in
  let! before := link_statistics link in
  let! now := get_now in
  match checked_add now (cfg_propagation_delay (configuration_ (queue_ service))) with
  | None => throw (overflow_error "propagation arrival exceeds simulated-time range")
  | Some arrival_time =>
      let! transition := with_service link (LinkService.handle_completion event) in
      let! after := link_statistics link in
      do! throw_if (negb (chunk_id (st_completed transition) =? chunk_id (cr_chunk record)))
            (logic_error "completed service chunk does not match routed chunk") in
      let record := {| record with cr_chunk := st_completed transition |} in
      do! put_chunk key record in
      do! emit_queue record link QueueTransition_ServiceCompleted in
      do! emit_transfer record TransferTransition_ChunkSerialized (Some link) TransferReason_None in
      do! match st_next_started transition with
          | None => ret tt
          | Some started =>
              let! next := require_chunk (chunk_id started) in
              do! emit_queue next link QueueTransition_ServiceStarted in
              emit_transfer next TransferTransition_ChunkServiceStarted (Some link)
                TransferReason_None
          end in
      do! emit_link_metrics link before after in
      let! snap := queue_snapshot link in
      do! emit_queue_gauges link snap in
      let record := {| record with cr_hop_index := u32_wrap (cr_hop_index record + 1) |} in
      do! put_chunk key record in
      let! arrival := with_context (ctx_schedule (mkEventSpec arrival_time Normal
        (ChunkArrival_ (mkChunkArrivalEvent (chunk_id (cr_chunk record)) (cr_hop_index record))))) in
      put_chunk key {| record with cr_state := CT_AwaitingArrival;
                                   cr_scheduled_arrival := Some arrival |}
  end.

(** *** Failures *)

(** The lambda [mark]. *)
Definition mark_dropped (link : DirectedLinkId) (chunk : TransferChunk) : TM unit :=
  let! record := require_chunk (chunk_id chunk) in
  let mismatch := logic_error "drained service chunk does not match routed chunk state" in
  do! throw_if (negb (bool_decide (cr_state record = CT_Admitted)) ||
                negb (cr_hop_index record =? chunk_hop_index chunk) ||
                (cr_hop_index record >=? zlength (cr_route record))) mismatch in
  let! route_link := route_at record (cr_hop_index record) in
  do! throw_if (negb (bool_decide (route_link = link))) mismatch in
  let record := {| record with cr_chunk := chunk; cr_state := CT_DroppedLinkDown |} in
  do! put_chunk (chunk_id chunk) record in
  do! emit_queue record link QueueTransition_Dropped in
  do! emit_transfer record TransferTransition_ChunkDropped (Some link) TransferReason_ResourceDown in
  record_terminal record.

Definition mark_dropped_link_down (drained : QueueDrain) (link : DirectedLinkId) : TM unit :=
  do! match drain_active drained with
      | Some chunk => mark_dropped link chunk
      | None => ret tt
      end in
  for_each (drain_waiting drained) (mark_dropped link).

(** The service of a link that went down loses all it holds. *)
Definition drain_service (link : DirectedLinkId) : TM unit :=
  let! before := link_statistics link in
  let! drained := with_service link reconcile_down in
  let! after := link_statistics link in
  do! mark_dropped_link_down drained link in
  do! emit_link_metrics link before after in
  let! snap := queue_snapshot link in
  emit_queue_gauges link snap.

Definition services_in_order (rt : TransportRuntime) : list DirectedLinkId :=
  merge_sort DirectedLinkId_le (map_to_list (services_ rt)).*1.

Definition reconcile_unavailable : TM unit :=
  let! rt := gets tp_runtime in
  for_each (services_in_order rt) (fun id =>
    let! directed := check (fun _ => require_fabric_arc id) in
    let! operational := gets (fun t => is_operational directed (tp_topology t)) in
    when (negb operational) (drain_service id)).

Definition validate_state (state : OperationalState) : outcome unit :=
  match state with Up | Down => Ret tt end.

(** A state setter of the topology; [false] when it refused. *)
Definition set_state (f : TopologyGraph -> TopologyGraph * bool) : TM bool :=
  fun t => let '(g, accepted) := f (tp_topology t) in ({| t with tp_topology := g |}, Ret accepted).

(** The common guard of the two link state-change operations. *)
Definition require_fabric_link (link : LinkId) : TM unit :=
  let! physical := gets (fun t => find_link link (tp_topology t)) in
  throw_if (match physical with Some p => negb (bool_decide (link_kind p = Fabric)) | None => true end)
    (invalid_argument "state change must identify a known fabric link").

Definition schedule_link_state_change (link : LinkId) (state : OperationalState)
    (timestamp : SimTimeNs) : TM EventId :=
  do! require_fabric_link link in
  with_context (ctx_schedule
    (mkEventSpec timestamp Critical (LinkStateChange_ (mkLinkStateChangeEvent link state)))).

Definition handle_link_state_change (event : LinkStateChangeEvent) : TM unit :=
  do! require_fabric_link (lsc_link event) in
  let! accepted := set_state (set_link_state (lsc_link event) (lsc_state event)) in
  do! throw_if (negb accepted) (logic_error "known fabric link state could not be changed") in
  match lsc_state event with
  | Up => ret tt
  | Down =>
      for_each [AToB; BToA] (fun direction =>
        let directed := mkDirectedLinkId (lsc_link event) direction in
        let! service := gets (fun t => find_service directed (tp_runtime t)) in
        when (has_value service) (drain_service directed))
  end.

Definition schedule_port_state_change (port : PortId) (state : OperationalState)
    (timestamp : SimTimeNs) : TM EventId :=
  do! of_outcome (validate_state state) in
  let! found := gets (fun t => find_port port (tp_topology t)) in
  do! throw_if (negb (has_value found)) (invalid_argument "unknown port state-change target") in
  with_context (ctx_schedule
    (mkEventSpec timestamp Critical (PortStateChange_ (mkPortStateChangeEvent port state)))).

Definition schedule_switch_state_change (network_switch : SwitchId) (state : OperationalState)
    (timestamp : SimTimeNs) : TM EventId :=
  do! of_outcome (validate_state state) in
  let! found := gets (fun t => find_switch network_switch (tp_topology t)) in
  do! throw_if (negb (has_value found)) (invalid_argument "unknown switch state-change target") in
  with_context (ctx_schedule
    (mkEventSpec timestamp Critical
       (SwitchStateChange_ (mkSwitchStateChangeEvent network_switch state)))).

Definition handle_port_state_change (event : PortStateChangeEvent) : TM unit :=
  do! of_outcome (validate_state (psc_state event)) in
  let! accepted := set_state (set_port_state (psc_port event) (psc_state event)) in
  do! throw_if (negb accepted) (invalid_argument "unknown port state-change target") in
  reconcile_unavailable.

Definition handle_switch_state_change (event : SwitchStateChangeEvent) : TM unit :=
  do! of_outcome (validate_state (ssc_state event)) in
  let! accepted := set_state (set_switch_state (ssc_network_switch event) (ssc_state event)) in
  do! throw_if (negb accepted) (invalid_argument "unknown switch state-change target") in
  reconcile_unavailable.

(** *** Observers *)

Definition take_completed_transfers : TM (list TransferCompletion) :=
  let! rt := gets tp_runtime in
  do! modify_runtime (fun rt => {| rt with completions_ := [] |}) in
  ret (completions_ rt).

End Operations.

Definition chunk_snapshot (chunk : ChunkId) (rt : TransportRuntime) : option ChunkTransitSnapshot :=
  (fun record => mkChunkTransitSnapshot (cr_state record) (cr_hop_index record)
                   (chunk_marked (cr_chunk record))) <$> chunks_ rt !! chunk.

(** One turn of the loop of [transfer_snapshot]. *)
Definition snapshot_chunk (rt : TransportRuntime) (snap : TransferSnapshot) (chunk : ChunkId)
    : outcome TransferSnapshot :=
  match chunks_ rt !! chunk with
  | None => Throw (out_of_range "map::at")
  | Some record =>
      let count := mkTrafficCount (chunk_bytes (cr_chunk record)) 1 in
      match cr_state record with
      | CT_Registered =>
          match add_traffic (ts_registered snap) count with
          | Ret t => Ret {| snap with ts_registered := t |}
          | Throw e => Throw e
          end
      | CT_AwaitingArrival =>
          if cr_hop_index record =? 0
          then match add_traffic (ts_awaiting_initial_arrival snap) count with
               | Ret t => Ret {| snap with ts_awaiting_initial_arrival := t |}
               | Throw e => Throw e
               end
          else match add_traffic (ts_propagating snap) count with
               | Ret t => Ret {| snap with ts_propagating := t |}
               | Throw e => Throw e
               end
      | CT_Admitted =>
          match cr_route record !! Z.to_nat (cr_hop_index record) with
          | None => Throw (out_of_range "vector::_M_range_check")
          | Some link =>
              match services_ rt !! link with
              | None => Throw (out_of_range "map::at")
              | Some service =>
                  let is_active :=
                    match active_ (queue_ service) with
                    | Some active => chunk_id active =? chunk
                    | None => false
                    end in
                  if is_active
                  then match add_traffic (ts_active snap) count with
                       | Ret t => Ret {| snap with ts_active := t |}
                       | Throw e => Throw e
                       end
                  else match add_traffic (ts_waiting snap) count with
                       | Ret t => Ret {| snap with ts_waiting := t |}
                       | Throw e => Throw e
                       end
              end
          end
      | CT_Delivered | CT_DroppedBufferFull | CT_DroppedLinkDown => Ret snap
      end
  end.

Fixpoint snapshot_chunks (rt : TransportRuntime) (snap : TransferSnapshot) (chunks : list ChunkId)
    : outcome TransferSnapshot :=
  match chunks with
  | [] => Ret snap
  | chunk :: rest =>
      match snapshot_chunk rt snap chunk with
      | Ret snap' => snapshot_chunks rt snap' rest
      | Throw e => Throw e
      end
  end.

Definition transfer_snapshot (id : TransferId) (rt : TransportRuntime)
    : outcome (option TransferSnapshot) :=
  match transfers_ rt !! id with
  | None => Ret None
  | Some transfer =>
      let snap := mkTransferSnapshot (tf_total transfer) no_traffic no_traffic no_traffic no_traffic
        no_traffic (tf_delivered transfer) (tf_dropped_buffer_full transfer)
        (tf_dropped_link_down transfer) (tf_started_at transfer) (tf_completion transfer) in
      match snapshot_chunks rt snap (tf_chunks transfer) with
      | Ret s => Ret (Some s)
      | Throw e => Throw e
      end
  end.
