(* ===== verification/TransportLaws.v ===== *)
(** * Transfers are accounted for

    The invariant of [TransportRuntime]: every chunk is in exactly one place,
    the queues hold exactly the admitted chunks, and the counters of a transfer
    are the sums over its chunks.  It does not depend on the simulation context,
    so it holds whatever the context does. *)

From S2P Require Import Prelude SimTime Entities TelemetryRecords Trace EventQueue SimContext.
From S2P Require Import Timing LinkQueue LinkService LinkServiceLaws Topology TopologyLaws.
From S2P Require Import Transport.

(** ** Counting chunks by state *)

Definition record_count (r : ChunkRecord) : TrafficCount :=
  mkTrafficCount (chunk_bytes (cr_chunk r)) 1.

Definition weight (P : ChunkTransitState -> bool) (r : ChunkRecord) : TrafficCount :=
  if P (cr_state r) then record_count r else no_traffic.

(** The traffic of the chunks [ids] whose state satisfies [P]. *)
Fixpoint tally (P : ChunkTransitState -> bool) (chunks : gmap Z ChunkRecord) (ids : list ChunkId)
    : TrafficCount :=
  match ids with
  | [] => no_traffic
  | id :: rest =>
      match chunks !! id with
      | Some r => weight P r ⊕ tally P chunks rest
      | None => tally P chunks rest
      end
  end.

Definition any_state (st : ChunkTransitState) : bool := true.

Definition is_delivered (st : ChunkTransitState) : bool := bool_decide (st = CT_Delivered).

Definition is_full (st : ChunkTransitState) : bool := bool_decide (st = CT_DroppedBufferFull).

Definition is_down (st : ChunkTransitState) : bool := bool_decide (st = CT_DroppedLinkDown).

Definition terminal (st : ChunkTransitState) : bool := is_delivered st || is_full st || is_down st.

Lemma plus_traffic_comm x y : x ⊕ y = y ⊕ x.
Proof. traffic_lia. Qed.

Lemma plus_traffic_assoc x y z : x ⊕ (y ⊕ z) = x ⊕ y ⊕ z.
Proof. traffic_lia. Qed.

Lemma plus_traffic_0_l x : no_traffic ⊕ x = x.
Proof. unfold no_traffic. traffic_lia. Qed.

(** [traffic_lia] with tallies and weights as unknowns. *)
Ltac tally_lia :=
  repeat match goal with
  | H : context [tally _ _ _] |- _ => revert H
  | H : context [weight _ _] |- _ => revert H
  | H : context [record_count _] |- _ => revert H
  end;
  repeat match goal with
  | |- context [tally ?P ?c ?l] => destruct (tally P c l)
  | |- context [weight ?P ?r] => destruct (weight P r)
  | |- context [record_count ?r] => destruct (record_count r)
  end; unfold plus_traffic; cbn [tc_bytes tc_chunks]; intros; traffic_lia.

Lemma tally_app P chunks l1 l2 : tally P chunks (l1 ++ l2) = tally P chunks l1 ⊕ tally P chunks l2.
Proof.
  induction l1 as [| id l1 IH]; cbn [tally app]; [by rewrite plus_traffic_0_l |].
  rewrite IH. destruct (chunks !! id); [by rewrite plus_traffic_assoc | done].
Qed.

Lemma tally_insert_out P chunks ids id r :
  id ∉ ids -> tally P (<[id := r]> chunks) ids = tally P chunks ids.
Proof.
  induction ids as [| x ids IH]; intros Hn; cbn [tally]; [done |].
  rewrite lookup_insert_ne by (intros ->; set_solver). by rewrite IH by set_solver.
Qed.

(** Replacing the record of one chunk replaces its weight. *)
Lemma tally_insert P chunks ids id r0 r :
  NoDup ids -> id ∈ ids -> chunks !! id = Some r0 ->
  weight P r0 ⊕ tally P (<[id := r]> chunks) ids = weight P r ⊕ tally P chunks ids.
Proof.
  intros Hnd Hin Hr0. induction ids as [| x ids IH]; [set_solver |].
  apply NoDup_cons in Hnd as [Hx Hnd]. cbn [tally]. destruct (decide (x = id)) as [-> | Hne].
  - rewrite lookup_insert_eq, Hr0, tally_insert_out by done. tally_lia.
  - rewrite lookup_insert_ne by done. specialize (IH Hnd ltac:(set_solver)).
    destruct (chunks !! x) as [rx |]; [| done].
    revert IH. clear. intros IH. tally_lia.
Qed.

Section Sums.
Context (chunks : gmap Z ChunkRecord) (ids : list ChunkId).
Context (Hbytes : forall id r, id ∈ ids -> chunks !! id = Some r -> 0 <= chunk_bytes (cr_chunk r)).

Lemma tally_sub P P' : (forall st, P st = true -> P' st = true) ->
  traffic_le (tally P chunks ids) (tally P' chunks ids).
Proof.
  intros HP. induction ids as [| id l IH]; cbn [tally]; [unfold traffic_le; lia |].
  specialize (IH ltac:(intros; eapply Hbytes; [by right | done])).
  destruct (chunks !! id) as [r |] eqn:Hr; [| done].
  specialize (Hbytes id r ltac:(left) Hr). specialize (HP (cr_state r)). unfold weight.
  destruct (P (cr_state r)), (P' (cr_state r)); try (by discriminate HP);
    unfold traffic_le, record_count in *; cbn in *; lia.
Qed.

Lemma tally_nonneg P : traffic_le no_traffic (tally P chunks ids).
Proof.
  replace no_traffic with (tally (fun _ => false) chunks ids); [by apply tally_sub |].
  induction ids as [| id l IH]; cbn [tally]; [done |].
  rewrite IH by (intros; eapply Hbytes; [by right | done]).
  destruct (chunks !! id); [| done]. unfold weight. by rewrite plus_traffic_0_l.
Qed.
End Sums.

(** Disjoint classes of states add up. *)
Lemma tally_or P P' chunks ids :
  (forall st, P st = true -> P' st = true -> False) ->
  tally (fun st => P st || P' st) chunks ids = tally P chunks ids ⊕ tally P' chunks ids.
Proof.
  intros Hd. induction ids as [| id l IH]; cbn [tally]; [done |].
  destruct (chunks !! id) as [r |]; [| done]. rewrite IH. unfold weight.
  specialize (Hd (cr_state r)). destruct (P (cr_state r)), (P' (cr_state r)); cbn [orb];
    try (exfalso; by apply Hd); tally_lia.
Qed.

Lemma tally_ext P P' chunks ids :
  (forall id r, id ∈ ids -> chunks !! id = Some r -> P (cr_state r) = P' (cr_state r)) ->
  tally P chunks ids = tally P' chunks ids.
Proof.
  induction ids as [| id l IH]; intros HP; cbn [tally]; [done |].
  rewrite IH by (intros; eapply HP; [by right | done]).
  destruct (chunks !! id) as [r |] eqn:Hr; [| done]. unfold weight. by rewrite (HP id r ltac:(left) Hr).
Qed.

Lemma weight_any r : weight any_state r = record_count r.
Proof. done. Qed.

(** As many chunks as all of them: all of them. *)
Lemma tally_full P chunks ids :
  (forall id, id ∈ ids -> is_Some (chunks !! id)) ->
  tc_chunks (tally P chunks ids) = tc_chunks (tally any_state chunks ids) <->
  (forall id r, id ∈ ids -> chunks !! id = Some r -> P (cr_state r) = true).
Proof.
  intros Hin.
  assert (forall l, tc_chunks (tally P chunks l) <= tc_chunks (tally any_state chunks l)) as Hle.
  { induction l as [| x l IH]; cbn [tally]; [lia |]. destruct (chunks !! x) as [r |]; [| done].
    rewrite weight_any. unfold weight.
    destruct (P (cr_state r)); cbn [plus_traffic tc_chunks record_count no_traffic]; lia. }
  induction ids as [| id l IH]; cbn [tally].
  { split; [| done]. intros _ id r ?%elem_of_nil. done. }
  destruct (Hin id ltac:(left)) as [r Hr]. rewrite Hr.
  specialize (IH ltac:(intros; apply Hin; by right)). specialize (Hle l).
  rewrite weight_any. unfold weight. destruct (P (cr_state r)) eqn:HP; cbn [plus_traffic tc_chunks record_count no_traffic].
  - split.
    + intros Heq id' r' [-> | Hid']%elem_of_cons Hr'; [congruence |]. eapply IH; [lia | done | done].
    + intros Hall. cut (tc_chunks (tally P chunks l) = tc_chunks (tally any_state chunks l)); [lia |].
      apply IH. intros id' r' Hid'. apply Hall. by right.
  - split; [lia |]. intros Hall. specialize (Hall id r ltac:(left) Hr). congruence.
Qed.

(** Delivered, dropped twice over, and the rest. *)
Lemma tally_terminal chunks ids :
  tally terminal chunks ids =
  tally is_delivered chunks ids ⊕ (tally is_full chunks ids ⊕ tally is_down chunks ids).
Proof.
  unfold terminal. rewrite (tally_or (fun st => is_delivered st || is_full st) is_down), tally_or.
  - by rewrite plus_traffic_assoc.
  - by intros [].
  - by intros [].
Qed.

(** ** Transfers *)

Definition expected_completion (id : TransferId) (t : TransferRecord) (now : SimTimeNs)
    : TransferCompletion :=
  mkTransferCompletion id
    (if tc_chunks (tf_dropped_buffer_full t) + tc_chunks (tf_dropped_link_down t) =? 0
     then TransferOutcome_Succeeded else TransferOutcome_Failed)
    now (tf_delivered t) (tf_dropped_buffer_full t) (tf_dropped_link_down t).

Record transfer_ok (chunks : gmap Z ChunkRecord) (id : TransferId) (t : TransferRecord) : Prop := {
  tk_nodup : NoDup (tf_chunks t);
  tk_nonempty : tf_chunks t <> [];
  tk_members c : c ∈ tf_chunks t <->
    exists r, chunks !! c = Some r /\ chunk_transfer (cr_chunk r) = id;
  tk_total : tf_total t = tally any_state chunks (tf_chunks t);
  tk_total_ok : traffic_ok (tf_total t);
  tk_delivered : tf_delivered t = tally is_delivered chunks (tf_chunks t);
  tk_full : tf_dropped_buffer_full t = tally is_full chunks (tf_chunks t);
  tk_down : tf_dropped_link_down t = tally is_down chunks (tf_chunks t);
  tk_started : tf_started_at t = None ->
    forall c r, c ∈ tf_chunks t -> chunks !! c = Some r -> cr_state r = CT_Registered;
  tk_completion :
    match tf_completion t with
    | None => exists c r, c ∈ tf_chunks t /\ chunks !! c = Some r /\ terminal (cr_state r) = false
    | Some cm =>
        (forall c r, c ∈ tf_chunks t -> chunks !! c = Some r -> terminal (cr_state r) = true) /\
        cm = expected_completion id t (cm_timestamp cm)
    end;
}.

(** [log] is the sequence of completions reported so far. *)
Record transfers_ok (chunks : gmap Z ChunkRecord) (transfers : gmap Z TransferRecord)
    (log : list TransferCompletion) : Prop := {
  to_each id t : transfers !! id = Some t -> transfer_ok chunks id t;
  to_known c r : chunks !! c = Some r -> is_Some (transfers !! chunk_transfer (cr_chunk r));
  to_bytes c r : chunks !! c = Some r -> chunk_ok (cr_chunk r);
  to_once : NoDup (cm_transfer <$> log);
  to_log cm : cm ∈ log <->
    exists t, transfers !! cm_transfer cm = Some t /\ tf_completion t = Some cm;
}.

Lemma completion_transfer chunks id t cm :
  transfer_ok chunks id t -> tf_completion t = Some cm -> cm_transfer cm = id.
Proof. intros Ht Hc. pose proof (tk_completion _ _ _ Ht) as H. rewrite Hc in H. by destruct H as [_ ->]. Qed.

(** The record [r'] is about the same chunk as [r]. *)
Definition same_chunk (r r' : ChunkRecord) : Prop :=
  chunk_transfer (cr_chunk r') = chunk_transfer (cr_chunk r) /\
  chunk_id (cr_chunk r') = chunk_id (cr_chunk r) /\
  chunk_bytes (cr_chunk r') = chunk_bytes (cr_chunk r) /\
  cr_route r' = cr_route r.

Lemma weight_none P r : P (cr_state r) = false -> weight P r = no_traffic.
Proof. unfold weight. by intros ->. Qed.

Lemma weight_counted P r : P (cr_state r) = true -> weight P r = record_count r.
Proof. unfold weight. by intros ->. Qed.

Lemma same_chunk_count r r' : same_chunk r r' -> record_count r' = record_count r.
Proof. intros (_ & _ & Hb & _). unfold record_count. by rewrite Hb. Qed.

Section Update.
Context (chunks : gmap Z ChunkRecord) (key : ChunkId) (r r' : ChunkRecord).
Context (Hr : chunks !! key = Some r) (Hsame : same_chunk r r').
Context (Hlive : terminal (cr_state r) = false).

Let chunks' := <[key := r']> chunks.

Lemma update_members id t :
  transfer_ok chunks id t -> forall c, c ∈ tf_chunks t <->
    exists x, chunks' !! c = Some x /\ chunk_transfer (cr_chunk x) = id.
Proof.
  intros Ht c. rewrite (tk_members _ _ _ Ht). unfold chunks'. destruct Hsame as (Htr & _).
  destruct (decide (c = key)) as [-> | Hne].
  - rewrite lookup_insert_eq. split; intros (x & Hx & Hid); simplify_eq; eexists; (split; [done |]); congruence.
  - by rewrite lookup_insert_ne.
Qed.

(** Other transfers do not notice. *)
Lemma update_other id t :
  id <> chunk_transfer (cr_chunk r) -> transfer_ok chunks id t -> transfer_ok chunks' id t.
Proof.
  intros Hid Ht. pose proof (update_members id t Ht) as Hmem.
  assert (key ∉ tf_chunks t) as Hout.
  { rewrite (tk_members _ _ _ Ht). intros (x & Hx & Hxid). congruence. }
  assert (forall c, c ∈ tf_chunks t -> chunks' !! c = chunks !! c) as Hsame'.
  { intros c Hc. unfold chunks'. apply lookup_insert_ne. intros ->. done. }
  destruct Ht. split; try done; unfold chunks'; rewrite ?tally_insert_out; try done.
  - intros Hs c x Hc. rewrite Hsame' by done. by apply tk_started0.
  - destruct (tf_completion t).
    + destruct tk_completion0 as [Ha ?]. split; [| done]. intros c x Hc. rewrite Hsame' by done. by apply Ha.
    + destruct tk_completion0 as (c & x & Hc & Hx & Hl). exists c, x. by rewrite Hsame'.
Qed.

Lemma update_tally P t :
  transfer_ok chunks (chunk_transfer (cr_chunk r)) t ->
  weight P r ⊕ tally P chunks' (tf_chunks t) = weight P r' ⊕ tally P chunks (tf_chunks t).
Proof.
  intros Ht. apply tally_insert; [apply Ht | | done]. apply (tk_members _ _ _ Ht). eauto.
Qed.

Lemma update_total t :
  transfer_ok chunks (chunk_transfer (cr_chunk r)) t ->
  tally any_state chunks' (tf_chunks t) = tf_total t.
Proof.
  intros Ht. pose proof (update_tally any_state t Ht) as H. rewrite (tk_total _ _ _ Ht).
  rewrite (weight_any r), (weight_any r'), (same_chunk_count _ _ Hsame) in H. revert H. clear. intros H. tally_lia.
Qed.

Lemma update_same_tally P t :
  transfer_ok chunks (chunk_transfer (cr_chunk r)) t ->
  P (cr_state r) = false -> P (cr_state r') = false ->
  tally P chunks' (tf_chunks t) = tally P chunks (tf_chunks t).
Proof.
  intros Ht H1 H2. pose proof (update_tally P t Ht) as H. rewrite !weight_none in H by done.
  by rewrite !plus_traffic_0_l in H.
Qed.

Lemma live_not_counted st : terminal st = false ->
  is_delivered st = false /\ is_full st = false /\ is_down st = false.
Proof. by destruct st. Qed.

(** A chunk that goes on. *)
Lemma update_own t :
  transfer_ok chunks (chunk_transfer (cr_chunk r)) t -> terminal (cr_state r') = false ->
  (tf_started_at t = None -> cr_state r' = CT_Registered) ->
  transfer_ok chunks' (chunk_transfer (cr_chunk r)) t.
Proof.
  intros Ht Hlive' Hreg.
  destruct (live_not_counted _ Hlive) as (A1 & A2 & A3), (live_not_counted _ Hlive') as (B1 & B2 & B3).
  assert (key ∈ tf_chunks t) as Hin by (apply (tk_members _ _ _ Ht); eauto).
  pose proof (update_members _ t Ht). pose proof (update_total t Ht).
  split; try done; try apply Ht; rewrite ?update_same_tally by done; try apply Ht.
  - intros Hs c x Hc. unfold chunks'. destruct (decide (c = key)) as [-> | Hne].
    + rewrite lookup_insert_eq. intros [= <-]. auto.
    + rewrite lookup_insert_ne by done. by apply (tk_started _ _ _ Ht).
  - pose proof (tk_completion _ _ _ Ht) as Hc. destruct (tf_completion t) as [cm |].
    + destruct Hc as [Ha _]. specialize (Ha key r Hin Hr). congruence.
    + exists key, r'. unfold chunks'. by rewrite lookup_insert_eq.
Qed.

Lemma not_completed t :
  transfer_ok chunks (chunk_transfer (cr_chunk r)) t -> tf_completion t = None.
Proof.
  intros Ht. pose proof (tk_completion _ _ _ Ht) as Hc. destruct (tf_completion t) as [cm |]; [| done].
  destruct Hc as [Ha _].
  assert (key ∈ tf_chunks t) as Hin by (apply (tk_members _ _ _ Ht); eauto).
  specialize (Ha key r Hin Hr). congruence.
Qed.

Lemma update_transfers transfers log :
  transfers_ok chunks transfers log -> terminal (cr_state r') = false ->
  (forall t, transfers !! chunk_transfer (cr_chunk r) = Some t ->
     tf_started_at t = None -> cr_state r' = CT_Registered) ->
  transfers_ok chunks' transfers log.
Proof.
  intros [H1 H2 H3 H4 H5] Hlive' Hreg. split; [| | | done | done].
  - intros id t Ht. destruct (decide (id = chunk_transfer (cr_chunk r))) as [-> | Hne].
    + apply update_own; [by apply H1 | done | by apply Hreg].
    + apply update_other; [done | by apply H1].
  - intros c x. unfold chunks'. destruct Hsame as (Htr & _). destruct (decide (c = key)) as [-> | Hne].
    + rewrite lookup_insert_eq. intros [= <-]. rewrite Htr. eauto.
    + rewrite lookup_insert_ne by done. apply H2.
  - intros c x. unfold chunks'. destruct Hsame as (_ & _ & Hb & _). destruct (decide (c = key)) as [-> | Hne].
    + rewrite lookup_insert_eq. intros [= <-]. unfold chunk_ok. rewrite Hb. by apply (H3 key).
    + rewrite lookup_insert_ne by done. apply H3.
Qed.

End Update.

(** ** Terminal chunks *)

(** The counters of a transfer after one more terminal chunk. *)
Definition settle (st : ChunkTransitState) (count : TrafficCount) (t : TransferRecord)
    : TransferRecord :=
  match st with
  | CT_Delivered => {| t with tf_delivered := tf_delivered t ⊕ count |}
  | CT_DroppedBufferFull => {| t with tf_dropped_buffer_full := tf_dropped_buffer_full t ⊕ count |}
  | CT_DroppedLinkDown => {| t with tf_dropped_link_down := tf_dropped_link_down t ⊕ count |}
  | _ => t
  end.

(** What [record_terminal] makes of the transfer. *)
Definition settled (id : TransferId) (t : TransferRecord) (now : SimTimeNs) : TransferRecord :=
  if tc_chunks (tf_delivered t ⊕ (tf_dropped_buffer_full t ⊕ tf_dropped_link_down t)) =?
     tc_chunks (tf_total t)
  then {| t with tf_completion := Some (expected_completion id t now) |}
  else t.

Lemma add_traffic_exact x y :
  traffic_le no_traffic x -> traffic_le no_traffic y -> traffic_ok (x ⊕ y) ->
  add_traffic x y = Ret (x ⊕ y).
Proof.
  intros [X1 X2] [Y1 Y2] [[_ H1] [_ H2]]. unfold add_traffic, plus_traffic in *.
  cbn [tc_bytes tc_chunks no_traffic] in *.
  replace (_ || _) with false by (symmetry; apply orb_false_iff; lia).
  by rewrite !u64_wrap_id by (unfold u64; lia).
Qed.

Lemma traffic_ok_le x y : traffic_le no_traffic x -> traffic_le x y -> traffic_ok y -> traffic_ok x.
Proof.
  unfold traffic_le, traffic_ok, u64. cbn. lia.
Qed.

Section Settle.
Context (chunks : gmap Z ChunkRecord) (key : ChunkId) (r r' : ChunkRecord).
Context (Hr : chunks !! key = Some r) (Hsame : same_chunk r r').
Context (Hlive : terminal (cr_state r) = false) (Hterm : terminal (cr_state r') = true).
Context (Hstarted : cr_state r <> CT_Registered).
Context (Hbytes : forall c x, chunks !! c = Some x -> chunk_ok (cr_chunk x)).

Let chunks' := <[key := r']> chunks.
Let id := chunk_transfer (cr_chunk r).

Lemma settle_bytes c x : chunks' !! c = Some x -> 0 <= chunk_bytes (cr_chunk x).
Proof.
  unfold chunks'. destruct (decide (c = key)) as [-> | Hne].
  - rewrite lookup_insert_eq. intros [= <-]. destruct Hsame as (_ & _ & -> & _).
    destruct (Hbytes key r Hr). lia.
  - rewrite lookup_insert_ne by done. intros Hx. destruct (Hbytes c x Hx). lia.
Qed.

(** The counters of [settle] are the tallies of the new records. *)
Lemma settle_tally P get t :
  transfer_ok chunks id t -> P (cr_state r) = false ->
  get t = tally P chunks (tf_chunks t) ->
  (if P (cr_state r') then get t ⊕ record_count r' else get t) = tally P chunks' (tf_chunks t).
Proof.
  intros Ht HP Hget. pose proof (update_tally chunks key r r' Hr P t Ht) as H.
  rewrite (weight_none P r) in H by done. rewrite plus_traffic_0_l in H. unfold chunks'.
  rewrite H, Hget. unfold weight. destruct (P (cr_state r')).
  - apply plus_traffic_comm.
  - by rewrite plus_traffic_0_l.
Qed.

Lemma settle_tallies t :
  transfer_ok chunks id t ->
  let t' := settle (cr_state r') (record_count r') t in
  tf_chunks t' = tf_chunks t /\ tf_total t' = tf_total t /\
  tf_started_at t' = tf_started_at t /\ tf_completion t' = tf_completion t /\
  tf_delivered t' = tally is_delivered chunks' (tf_chunks t) /\
  tf_dropped_buffer_full t' = tally is_full chunks' (tf_chunks t) /\
  tf_dropped_link_down t' = tally is_down chunks' (tf_chunks t).
Proof.
  intros Ht t'. destruct (live_not_counted _ Hlive) as (A1 & A2 & A3).
  rewrite <- (settle_tally is_delivered tf_delivered t Ht A1 (tk_delivered _ _ _ Ht)).
  rewrite <- (settle_tally is_full tf_dropped_buffer_full t Ht A2 (tk_full _ _ _ Ht)).
  rewrite <- (settle_tally is_down tf_dropped_link_down t Ht A3 (tk_down _ _ _ Ht)).
  subst t'. revert Hterm. destruct (cr_state r'); intros; split_and!; done.
Qed.

Lemma settled_ok t now :
  transfer_ok chunks id t ->
  transfer_ok chunks' id (settled id (settle (cr_state r') (record_count r') t) now).
Proof.
  intros Ht. destruct (settle_tallies t Ht) as (E1 & E2 & E3 & E4 & E5 & E6 & E7).
  set (t' := settle _ _ _) in *.
  assert (forall c, c ∈ tf_chunks t -> is_Some (chunks' !! c)) as Hknown.
  { intros c Hc. apply (update_members chunks key r r' Hr Hsame _ t Ht) in Hc as (x & Hx & _). eauto. }
  assert (tf_completion t = None) as Hnone by (by eapply not_completed).
  pose proof (tally_full terminal chunks' (tf_chunks t) Hknown) as Hfull.
  pose proof (update_total chunks key r r' Hr Hsame t Ht) as Htot. fold chunks' in Htot.
  rewrite tally_terminal, <- E5, <- E6, <- E7, Htot, <- E2 in Hfull.
  assert (tf_started_at t' <> None) as Hst.
  { rewrite E3. intros Hs. apply Hstarted. eapply (tk_started _ _ _ Ht Hs key); [| done].
    apply (tk_members _ _ _ Ht). eauto. }
  unfold settled. destruct (Z.eqb_spec
    (tc_chunks (tf_delivered t' ⊕ (tf_dropped_buffer_full t' ⊕ tf_dropped_link_down t')))
    (tc_chunks (tf_total t'))) as [Heq | Hne].
  - split; cbn; rewrite ?E1, ?E2; try done; try apply Ht.
    + by apply (update_members chunks key r r').
    + split; [by apply Hfull | done].
  - split; rewrite ?E1, ?E2; try done; try apply Ht.
    + by apply (update_members chunks key r r').
    + rewrite E4, Hnone.
      set (at_end := fun c => from_option (fun x => terminal (cr_state x)) true (chunks' !! c)).
      destruct (decide (Forall (fun c => at_end c = true) (tf_chunks t))) as [Hall | Hnot].
      * exfalso. apply Hne, Hfull. intros c x Hc Hx. rewrite Forall_forall in Hall.
        specialize (Hall c Hc). unfold at_end in Hall. by rewrite Hx in Hall.
      * apply not_Forall_Exists in Hnot; [| apply _].
        apply Exists_exists in Hnot as (c & Hc & Hx). destruct (Hknown c Hc) as [x Hx'].
        change (at_end c <> true) in Hx. unfold at_end in Hx. rewrite Hx' in Hx. exists c, x. split_and!; try done.
        by apply not_true_is_false.
Qed.

(** No counter of the transfer can overflow. *)
Lemma settle_counters_ok P t :
  transfer_ok chunks id t ->
  traffic_ok (tally P chunks (tf_chunks t)) /\ traffic_ok (tally P chunks' (tf_chunks t)) /\
  traffic_le no_traffic (tally P chunks' (tf_chunks t)).
Proof.
  intros Ht. pose proof (update_total chunks key r r' Hr Hsame t Ht) as Htot. fold chunks' in Htot.
  assert (forall c x, c ∈ tf_chunks t -> chunks !! c = Some x -> 0 <= chunk_bytes (cr_chunk x)) as Hb.
  { intros c x _ Hx. destruct (Hbytes c x Hx). lia. }
  assert (forall c x, c ∈ tf_chunks t -> chunks' !! c = Some x -> 0 <= chunk_bytes (cr_chunk x)) as Hb'.
  { intros c x _ Hx. by apply (settle_bytes c x). }
  split_and!; [| | by apply tally_nonneg].
  - eapply traffic_ok_le; [by apply tally_nonneg | by apply (tally_sub _ _ Hb P any_state) |].
    rewrite <- (tk_total _ _ _ Ht). apply Ht.
  - eapply traffic_ok_le; [by apply tally_nonneg | by apply (tally_sub _ _ Hb' P any_state) |].
    rewrite Htot. apply Ht.
Qed.

(** The whole map of transfers, and the log, after a terminal chunk. *)
Lemma settle_transfers transfers log t now :
  transfers_ok chunks transfers log -> transfers !! id = Some t ->
  let t2 := settled id (settle (cr_state r') (record_count r') t) now in
  transfers_ok chunks' (<[id := t2]> transfers) (log ++ option_list (tf_completion t2)).
Proof.
  intros Hok Hid t2. pose proof Hok as [H1 H2 H3 H4 H5]. pose proof (H1 id t Hid) as Ht.
  assert (transfer_ok chunks' id t2) as Ht2 by (by apply settled_ok).
  assert (tf_completion t = None) as Hnone by (by eapply not_completed).
  assert (id ∉ (cm_transfer <$> log)) as Hfresh.
  { intros (cm & -> & Hin)%list_elem_of_fmap. apply H5 in Hin as (t0 & Ht0 & Hc). congruence. }
  split.
  - intros i x Hx. destruct (decide (i = id)) as [-> | Hne].
    + rewrite lookup_insert_eq in Hx. by simplify_eq.
    + rewrite lookup_insert_ne in Hx by done. apply (update_other chunks key r r'); try done. by apply H1.
  - intros c x. unfold chunks'. destruct (decide (c = key)) as [-> | Hne].
    + rewrite lookup_insert_eq. intros [= <-]. destruct Hsame as (-> & _).
      change (chunk_transfer (cr_chunk r)) with id. rewrite lookup_insert_eq. eauto.
    + rewrite lookup_insert_ne by done. intros Hx. apply lookup_insert_is_Some'. right. by eapply H2.
  - intros c x. unfold chunks'. destruct (decide (c = key)) as [-> | Hne].
    + rewrite lookup_insert_eq. intros [= <-]. destruct Hsame as (_ & _ & Hb & _).
      unfold chunk_ok. rewrite Hb. by apply (H3 key).
    + rewrite lookup_insert_ne by done. apply H3.
  - rewrite fmap_app. apply NoDup_app. split; [done |]. split.
    + intros x Hx Hx2. destruct (tf_completion t2) as [cm |] eqn:Hc; [| by apply elem_of_nil in Hx2].
      apply list_elem_of_singleton in Hx2 as ->. rewrite (completion_transfer _ _ _ _ Ht2 Hc) in Hx. done.
    + destruct (tf_completion t2); [apply NoDup_singleton | constructor].
  - intros cm. rewrite elem_of_app, H5. split.
    + intros [(t0 & Ht0 & Hc) | Hin].
      * exists t0. split; [| done]. rewrite lookup_insert_ne; [done |]. intros He. rewrite <- He in Ht0. congruence.
      * destruct (tf_completion t2) as [cm' |] eqn:Hc; [| by apply elem_of_nil in Hin].
        apply list_elem_of_singleton in Hin as ->. exists t2.
        rewrite (completion_transfer _ _ _ _ Ht2 Hc). by rewrite lookup_insert_eq.
    + intros (t0 & Ht0 & Hc). destruct (decide (cm_transfer cm = id)) as [He | Hne].
      * rewrite He, lookup_insert_eq in Ht0. simplify_eq. right. rewrite Hc. left.
      * rewrite lookup_insert_ne in Ht0 by done. eauto.
Qed.

End Settle.
