(* ===== verification/TransportInv.v ===== *)
(** * The invariant of the transport runtime

    Queues and chunk records agree, transfers are accounted for, and every
    handler that returns keeps it so. *)

From S2P Require Import Prelude SimTime Entities TelemetryRecords Trace EventQueue SimContext.
From S2P Require Import Timing LinkQueue LinkService LinkServiceLaws Topology TopologyLaws.
From S2P Require Import Transport TransportLaws.

(** ** Queues and records *)

(** [c] waits for, or is in, the service of [l], and its record says so. *)
Definition held_at (chunks : gmap Z ChunkRecord) (l : DirectedLinkId) (c : TransferChunk) : Prop :=
  exists r, chunks !! chunk_id c = Some r /\ cr_chunk r = c /\ cr_state r = CT_Admitted /\
            cr_route r !! Z.to_nat (cr_hop_index r) = Some l /\ chunk_hop_index c = cr_hop_index r.

Record queues_ok (chunks : gmap Z ChunkRecord) (held : DirectedLinkId -> list TransferChunk)
    : Prop := {
  qo_held l c : c ∈ held l -> held_at chunks l c;
  qo_once l : NoDup (chunk_id <$> held l);
  qo_admitted id r : chunks !! id = Some r -> cr_state r = CT_Admitted ->
    exists l, cr_chunk r ∈ held l;
  qo_ids id r : chunks !! id = Some r -> chunk_id (cr_chunk r) = id;
}.

Section Queues.
Context (chunks : gmap Z ChunkRecord) (held held' : DirectedLinkId -> list TransferChunk).
Context (key : ChunkId) (r' : ChunkRecord).
Context (Hq : queues_ok chunks held).
Context (Hkey : chunk_id (cr_chunk r') = key).

Lemma held_other l c :
  held_at chunks l c -> chunk_id c <> key -> held_at (<[key := r']> chunks) l c.
Proof. intros (x & Hx & H1) Hne. exists x. by rewrite lookup_insert_ne. Qed.

Lemma updated_ids id r : (<[key := r']> chunks) !! id = Some r -> chunk_id (cr_chunk r) = id.
Proof.
  destruct (decide (id = key)) as [-> | Hne].
  - rewrite lookup_insert_eq. by intros [= <-].
  - rewrite lookup_insert_ne by done. apply Hq.
Qed.

(** A record outside the queues changes. *)
Lemma queues_outside :
  (forall r, chunks !! key = Some r -> cr_state r <> CT_Admitted) ->
  cr_state r' <> CT_Admitted ->
  (forall l, held' l ≡ₚ held l) ->
  queues_ok (<[key := r']> chunks) held'.
Proof.
  intros Hold Hnew Hh. destruct Hq as [H1 H2 H3 H4]. split; [| | | by apply updated_ids].
  - intros l c Hc. rewrite Hh in Hc. apply held_other; [by apply H1 |]. intros He.
    destruct (H1 l c Hc) as (x & Hx & _ & Ha & _). rewrite He in Hx. by eapply Hold.
  - intros l. by rewrite Hh.
  - intros id r. destruct (decide (id = key)) as [-> | Hne].
    + rewrite lookup_insert_eq. intros [= <-]. done.
    + rewrite lookup_insert_ne by done. intros Hr Ha. destruct (H3 id r Hr Ha) as [l Hl].
      exists l. by rewrite Hh.
Qed.

(** A chunk is admitted to the queue of [l]. *)
Lemma queues_enter l :
  (forall r, chunks !! key = Some r -> cr_state r <> CT_Admitted) ->
  cr_state r' = CT_Admitted -> cr_route r' !! Z.to_nat (cr_hop_index r') = Some l ->
  chunk_hop_index (cr_chunk r') = cr_hop_index r' ->
  (forall l', held' l' ≡ₚ if decide (l' = l) then cr_chunk r' :: held l' else held l') ->
  queues_ok (<[key := r']> chunks) held'.
Proof.
  intros Hold Hadm Hroute Hhop Hh. pose proof Hq as [H1 H2 H3 H4].
  assert (forall l' c, c ∈ held l' -> chunk_id c <> key) as Hfresh.
  { intros l' c Hc He. destruct (H1 l' c Hc) as (x & Hx & _ & Ha & _). rewrite He in Hx. by eapply Hold. }
  assert (forall l' c, c ∈ held l' -> held_at (<[key := r']> chunks) l' c) as Hkeep.
  { intros l' c Hc. apply held_other; [by apply H1 | by eapply Hfresh]. }
  assert (held_at (<[key := r']> chunks) l (cr_chunk r')) as Hnew.
  { exists r'. by rewrite Hkey, lookup_insert_eq. }
  split; [| | | by apply updated_ids].
  - intros l' c Hc. rewrite Hh in Hc. case_decide as Hd; [subst l' |]; [| by apply Hkeep].
    apply elem_of_cons in Hc as [-> | Hc]; [done | by apply Hkeep].
  - intros l'. rewrite Hh. case_decide as Hd; [| done]. rewrite fmap_cons. apply NoDup_cons.
    split; [| done]. intros (c & Hc & Hin)%list_elem_of_fmap. apply (Hfresh l' c Hin). congruence.
  - intros id r. destruct (decide (id = key)) as [-> | Hne].
    + rewrite lookup_insert_eq. intros [= <-] _. exists l. rewrite Hh, decide_True by done. left.
    + rewrite lookup_insert_ne by done. intros Hr Ha. destruct (H3 id r Hr Ha) as [l' Hl'].
      exists l'. rewrite Hh. case_decide; [by right | done].
Qed.

(** A chunk leaves the queue of [l]. *)
Lemma queues_leave l c :
  chunk_id c = key ->
  cr_state r' <> CT_Admitted ->
  (forall l', held l' ≡ₚ if decide (l' = l) then c :: held' l' else held' l') ->
  queues_ok (<[key := r']> chunks) held'.
Proof.
  intros Hc Hnew Hh. pose proof Hq as [H1 H2 H3 H4].
  assert (c ∈ held l) as Hin by (rewrite Hh, decide_True by done; left).
  destruct (H1 l c Hin) as (r & Hr & Hrc & Ha & Hroute & Hhop). rewrite Hc in Hr.
  assert (forall l', held' l' ⊆ held l') as Hsub.
  { intros l' x Hx. rewrite Hh. case_decide; [by right | done]. }
  assert (forall l' x, x ∈ held' l' -> chunk_id x <> key) as Hother.
  { intros l' x Hx He. destruct (H1 l' x (Hsub l' x Hx)) as (rx & Hrx & _ & _ & Hroutex & _).
    rewrite He in Hrx. assert (l' = l) as -> by congruence.
    specialize (H2 l). rewrite Hh, decide_True in H2 by done. rewrite fmap_cons in H2.
    apply NoDup_cons in H2 as [H2 _]. apply H2, list_elem_of_fmap. exists x. split; [congruence | done]. }
  split; [| | | by apply updated_ids].
  - intros l' x Hx. apply held_other; [by apply H1, Hsub | by eapply Hother].
  - intros l'. specialize (H2 l'). rewrite Hh in H2. case_decide; [| done].
    rewrite fmap_cons in H2. by apply NoDup_cons in H2 as [_ H2].
  - intros id x. destruct (decide (id = key)) as [-> | Hne].
    + rewrite lookup_insert_eq. intros [= <-]. done.
    + rewrite lookup_insert_ne by done. intros Hx Hax. destruct (H3 id x Hx Hax) as [l' Hl'].
      exists l'. rewrite Hh in Hl'. case_decide; [| done].
      apply elem_of_cons in Hl' as [He |]; [| done]. exfalso. specialize (H4 id x Hx). congruence.
Qed.
End Queues.

(** ** The invariant *)

Record record_ok (services : gmap DirectedLinkId DirectedLinkService) (r : ChunkRecord) : Prop := {
  rk_hop : 0 <= cr_hop_index r <= zlength (cr_route r);
  rk_length : zlength (cr_route r) <= u32_max;
  rk_links l : l ∈ cr_route r -> is_Some (services !! l);
  rk_arrival : is_Some (cr_scheduled_arrival r) <-> cr_state r = CT_AwaitingArrival;
  rk_state :
    match cr_state r with
    | CT_Registered => cr_hop_index r = 0
    | CT_AwaitingArrival => True
    | CT_Delivered => cr_hop_index r = zlength (cr_route r)
    | CT_Admitted | CT_DroppedBufferFull | CT_DroppedLinkDown =>
        cr_hop_index r < zlength (cr_route r)
    end;
}.

(** The chunks in the queue of [l], and [extra] ones that have just been taken
    out of it. *)
Definition held_of (services : gmap DirectedLinkId DirectedLinkService)
    (extra : DirectedLinkId -> list TransferChunk) (l : DirectedLinkId) : list TransferChunk :=
  match services !! l with
  | Some s => contents (queue_ s)
  | None => []
  end ++ extra l.

Definition no_extra (l : DirectedLinkId) : list TransferChunk := [].

Definition service_queue_ok (l : DirectedLinkId) (s : DirectedLinkService) : Prop :=
  link_queue_ok (queue_ s) /\ cfg_link (configuration_ (queue_ s)) = l.

(** Identifiers are drawn above the ones in use. *)
Definition fresh_above {A} (m : gmap Z A) (g : IdGenerator) : Prop :=
  generator_ok g /\ forall id x, m !! id = Some x -> 0 <= id < frontier g.

Definition limits_ok (limits : TransportLimits) : Prop :=
  0 < maximum_chunks limits <= u64_max /\ 0 < maximum_route_entries limits <= u64_max /\
  0 < maximum_route_hops limits <= u64_max.

Record runtime_ok (rt : TransportRuntime) (extra : DirectedLinkId -> list TransferChunk)
    (taken : list TransferCompletion) : Prop := {
  ro_service l s : services_ rt !! l = Some s -> service_queue_ok l s;
  ro_record id r : chunks_ rt !! id = Some r -> record_ok (services_ rt) r;
  ro_queues : queues_ok (chunks_ rt) (held_of (services_ rt) extra);
  ro_transfers : transfers_ok (chunks_ rt) (transfers_ rt) (taken ++ completions_ rt);
  ro_transfer_ids : fresh_above (transfers_ rt) (transfer_ids_ rt);
  ro_chunk_ids : fresh_above (chunks_ rt) (chunk_ids_ rt);
  ro_limits : limits_ok (limits_ rt);
  ro_bounded : Z.of_nat (size (chunks_ rt)) <= maximum_chunks (limits_ rt) /\
    0 <= route_entries_ rt <= maximum_route_entries (limits_ rt);
}.

(** Reads through record updates. *)
Ltac rt_cbn := cbn [limits_ telemetry_ route_entries_ transfers_ completions_ transfer_ids_
  chunk_ids_ services_ reported_busy_time_ns_ chunks_ tp_runtime tp_topology tp_context
  cr_chunk cr_route cr_state cr_hop_index cr_scheduled_arrival] in *.

Ltac rt_goal := cbn [limits_ telemetry_ route_entries_ transfers_ completions_ transfer_ids_
  chunk_ids_ services_ reported_busy_time_ns_ chunks_ tp_runtime tp_topology tp_context].

(** Only the reported busy times differ. *)
Definition same_core (rt rt' : TransportRuntime) : Prop :=
  rt' = {| rt with reported_busy_time_ns_ := reported_busy_time_ns_ rt' |}.

Lemma runtime_ok_core rt rt' extra taken :
  same_core rt rt' -> runtime_ok rt extra taken -> runtime_ok rt' extra taken.
Proof. unfold same_core. generalize (reported_busy_time_ns_ rt'). intros b -> []. by split. Qed.

(** ** Symbolic execution

    A call that throws ends the run; the statements are about the calls that
    return. *)

Section Rules.
Context {C : Type} `{SimContext C}.
Implicit Types (t : Transport C).

Definition returns {A} (m : M (Transport C) A) (Q : Transport C -> A -> Prop) t : Prop :=
  wp m Q (fun _ _ => True) t.

(** The topology and the core of the runtime stay. *)
Definition framed t t' : Prop :=
  tp_topology t' = tp_topology t /\ same_core (tp_runtime t) (tp_runtime t').

#[global] Instance framed_preorder : PreOrder framed.
Proof.
  split.
  - intros t. split; [done |]. unfold same_core. by destruct (tp_runtime t).
  - intros t1 t2 t3 [H1 H2] [H3 H4]. split; [congruence |]. unfold same_core in *. rewrite H4, H2. done.
Qed.

Definition frame {A} (m : M (Transport C) A) : Prop :=
  forall t, returns m (fun t' _ => framed t t') t.

Lemma returns_frame {A} (m : M (Transport C) A) Q t :
  frame m -> (forall t' a, framed t t' -> Q t' a) -> returns m Q t.
Proof. intros Hm HQ. eapply wp_conseq; [apply Hm | | done]. auto. Qed.

Lemma frame_ret {A} (a : A) : frame (ret a).
Proof. intros t. apply wp_ret. reflexivity. Qed.

Lemma frame_throw {A} e : frame (throw (A := A) e).
Proof. intros t. by apply wp_throw. Qed.

Lemma frame_throw_if b e : frame (throw_if b e).
Proof. unfold throw_if. destruct b; [apply frame_throw | apply frame_ret]. Qed.

Lemma frame_of_outcome {A} (o : outcome A) : frame (of_outcome o).
Proof. intros t. apply wp_of_outcome; [intros; reflexivity | done]. Qed.

Lemma frame_of_option {A} e (o : option A) : frame (of_option e o).
Proof. destruct o; [apply frame_ret | apply frame_throw]. Qed.

Lemma frame_gets {A} (f : Transport C -> A) : frame (gets f).
Proof. intros t. apply wp_gets. reflexivity. Qed.

Lemma frame_read {A} (f : Transport C -> outcome A) : frame (fun t => (t, f t)).
Proof. intros t. unfold returns, wp. destruct (f t); [reflexivity | done]. Qed.

Lemma frame_when b m : frame m -> frame (when b m).
Proof. intros Hm. destruct b; [done | apply frame_ret]. Qed.

Lemma frame_bind {A B} (m : M (Transport C) A) (k : A -> M (Transport C) B) :
  frame m -> (forall a, frame (k a)) -> frame (bind m k).
Proof.
  intros Hm Hk t. apply wp_bind. eapply returns_frame; [done |]. intros t' a Ht.
  eapply wp_conseq; [apply Hk | | done]. intros t'' b Ht'. cbv beta. by etrans.
Qed.

Lemma frame_with_context {A} (m : M C A) : frame (with_context m).
Proof.
  intros t. apply wp_zoom. unfold wp. destruct (m (tp_context t)) as [c [a | e]]; [| done].
  split; [done |]. unfold same_core. rt_cbn. by destruct (tp_runtime t).
Qed.
End Rules.

(** Frames of composite computations. *)
Ltac frame_step :=
  lazymatch goal with
  | |- frame (bind _ _) => apply frame_bind; [| intros ?; cbv zeta]
  | |- frame (ret _) => apply frame_ret
  | |- frame (throw _) => apply frame_throw
  | |- frame (throw_if _ _) => apply frame_throw_if
  | |- frame (of_outcome _) => apply frame_of_outcome
  | |- frame (of_option _ _) => apply frame_of_option
  | |- frame (gets _) => apply frame_gets
  | |- frame (when _ _) => apply frame_when
  | |- frame (with_context _) => apply frame_with_context
  | |- frame (fun t => (t, _)) => apply frame_read
  | |- frame (match ?x with _ => _ end) => destruct x
  end.
Ltac frame_auto := repeat (frame_step; cbv zeta).

Section Frames.
Context {C : Type} `{SimContext C}.

Lemma get_now_frame : frame (C := C) get_now.
Proof. apply frame_gets. Qed.

Lemma current_event_frame : frame (C := C) current_event.
Proof. apply frame_read. Qed.

Lemma check_frame {A} (f : TransportRuntime -> TopologyGraph -> outcome A) : frame (C := C) (check f).
Proof. apply frame_read. Qed.

Lemma telemetry_record_frame ts corr obs : frame (C := C) (telemetry_record ts corr obs).
Proof. unfold telemetry_record. frame_auto. Qed.

Lemma event_correlation_frame : frame (C := C) event_correlation.
Proof. unfold event_correlation, current_event. frame_auto. Qed.

Lemma require_service_frame link : frame (C := C) (require_service link).
Proof. unfold require_service. frame_auto. Qed.

Lemma link_statistics_frame link : frame (C := C) (link_statistics link).
Proof. unfold link_statistics, require_service, get_now. frame_auto. Qed.

Lemma queue_snapshot_frame link : frame (C := C) (queue_snapshot link).
Proof. unfold queue_snapshot, require_service. frame_auto. Qed.

Lemma require_chunk_frame chunk : frame (C := C) (require_chunk chunk).
Proof. unfold require_chunk. frame_auto. Qed.

Lemma emit_transfer_frame record tr link reason : frame (C := C) (emit_transfer record tr link reason).
Proof.
  unfold emit_transfer, telemetry_enabled, get_now. frame_auto;
    (apply event_correlation_frame || apply telemetry_record_frame).
Qed.

Lemma emit_queue_frame record link tr : frame (C := C) (emit_queue record link tr).
Proof.
  unfold emit_queue, telemetry_enabled, get_now. frame_auto;
    (apply event_correlation_frame || apply telemetry_record_frame || apply queue_snapshot_frame).
Qed.

Lemma emit_delta_frame corr labels m1 m2 before after :
  frame (C := C) (emit_delta corr labels m1 m2 before after).
Proof. unfold emit_delta, get_now. frame_auto; apply telemetry_record_frame. Qed.

Lemma emit_busy_frame corr labels link after : frame (C := C) (emit_busy corr labels link after).
Proof.
  unfold emit_busy, get_now. frame_auto; [apply telemetry_record_frame |].
  intros t. apply wp_modify. split; [done |]. unfold same_core. done.
Qed.

Lemma emit_link_metrics_frame link before after :
  frame (C := C) (emit_link_metrics link before after).
Proof.
  unfold emit_link_metrics, telemetry_enabled. frame_auto;
    (apply event_correlation_frame || apply emit_delta_frame || apply emit_busy_frame).
Qed.

Lemma emit_queue_gauges_frame link snap : frame (C := C) (emit_queue_gauges link snap).
Proof.
  unfold emit_queue_gauges, telemetry_enabled, get_now. frame_auto;
    (apply event_correlation_frame || apply telemetry_record_frame).
Qed.
End Frames.

#[export] Hint Resolve get_now_frame current_event_frame check_frame telemetry_record_frame
  event_correlation_frame require_service_frame link_statistics_frame queue_snapshot_frame
  require_chunk_frame emit_transfer_frame emit_queue_frame emit_link_metrics_frame
  emit_queue_gauges_frame frame_with_context frame_ret frame_gets frame_of_outcome frame_of_option
  frame_throw_if : nexus.
