(* ===== verification/TransportSteps.v ===== *)
(** * Every operation keeps the transport invariant *)

From S2P Require Import Prelude SimTime Entities TelemetryRecords EventQueue Trace SimContext Timing LinkQueue.
From S2P Require Import LinkService LinkServiceLaws Topology TopologyLaws Transport TransportLaws TransportInv.

Section Steps.
Context {C : Type} `{SimContext C}.
Implicit Types (t : Transport C).

(** ** What the link service does to its queue *)

Lemma schedule_completion_service chunk (p : DirectedLinkService * C) :
  wp (schedule_completion chunk) (fun p' _ => fst p' = fst p) (fun _ _ => True) p.
Proof.
  unfold schedule_completion. do 4 wp_step. cbv beta. wp_step.
  apply wp_of_outcome; [intros time _ | done]. apply wp_zoom. unfold wp.
  by destruct (ctx_schedule _ _) as [c [a | e]].
Qed.

Lemma service_admit_queue chunk (p : DirectedLinkService * C) :
  wp (service_admit chunk)
    (fun p' r => queue_admit chunk (queue_ (fst p)) = (queue_ (fst p'), Ret r)) (fun _ _ => True) p.
Proof.
  unfold service_admit. wp_step. apply wp_throw_if; [done |]. intros _. do 2 wp_step. cbv beta zeta.
  wp_step. apply wp_of_outcome; [intros time _ | done].
  wp_step. apply wp_of_outcome; [intros next _ | done]. wp_step.
  apply (wp_conseq _ (fun p' _ => fst p' = fst p) _ (fun _ _ => True)); [| | done].
  { destruct (negb _); [| by wp_step]. wp_step. eapply wp_conseq; [apply schedule_completion_service | | done].
    intros p' id Hp. by wp_step. }
  intros p1 completion Hp1. wp_step. unfold in_queue. apply wp_zoom. unfold wp at 1. rewrite Hp1.
  destruct (queue_admit chunk (queue_ (fst p))) as [q [r | e]]; [| done].
  wp_step. apply wp_modify. wp_step. apply wp_when; intros _; [apply wp_modify |]; by wp_step.
Qed.

Lemma handle_completion_queue event (p : DirectedLinkService * C) :
  wp (LinkService.handle_completion event)
    (fun p' tr => complete_service (queue_ (fst p)) = (queue_ (fst p'), Some tr)) (fun _ _ => True) p.
Proof.
  unfold LinkService.handle_completion. do 2 wp_step. cbv beta. wp_step.
  apply (wp_conseq _ (fun p' _ => p' = p) _ (fun _ _ => True)); [| | done].
  { destruct (scheduled_completion_ (fst p)); [| by wp_step]. wp_step.
    apply wp_of_outcome; [intros cur _ | done]. by apply wp_throw_if. }
  intros p0 [] ->. cbv zeta. destruct (active_ (queue_ (fst p))) as [a |] eqn:Ha; [| by wp_step].
  wp_step. apply wp_throw_if; [done |]. intros _. wp_step. apply wp_of_outcome; [intros st _ | done].
  wp_step. apply wp_of_outcome; [intros comp _ | done]. wp_step.
  apply (wp_conseq _ (fun p' _ => fst p' = fst p) _ (fun _ _ => True)); [| | done].
  { destruct (next_waiting _); [| by wp_step]. wp_step. apply wp_of_outcome; [intros x _ | done]. wp_step.
    eapply wp_conseq; [apply schedule_completion_service | | done]. intros p' id Hp. by wp_step. }
  intros p1 [next completion] Hp1. wp_step. unfold in_queue. apply wp_zoom. unfold wp at 1. rewrite Hp1.
  destruct (complete_service (queue_ (fst p))) as [q [tr |]]; [| by wp_step].
  wp_step. apply wp_gets. wp_step. apply wp_modify. by wp_step.
Qed.

Lemma reconcile_down_queue (p : DirectedLinkService * C) :
  wp reconcile_down (fun p' d => drain (queue_ (fst p)) = (queue_ (fst p'), d)) (fun _ _ => True) p.
Proof.
  unfold reconcile_down. do 2 wp_step. cbv beta. wp_step.
  apply wp_of_outcome; [intros st _ | done]. wp_step. apply wp_of_outcome; [intros dr _ | done].
  wp_step. apply wp_of_outcome; [intros down _ | done]. wp_step.
  apply (wp_conseq _ (fun p' _ => fst p' = fst p) _ (fun _ _ => True)); [| | done].
  { destruct (scheduled_completion_ (fst p)); [| by wp_step]. wp_step. apply wp_zoom. unfold wp at 1.
    destruct (ctx_cancel _ _) as [c [b | e]]; [| done]. by apply wp_throw_if. }
  intros p1 [] Hp1. wp_step. unfold in_queue. apply wp_zoom. unfold wp at 1. rewrite Hp1.
  destruct (drain (queue_ (fst p))) as [q d].
  wp_step. apply wp_modify. by wp_step.
Qed.

Lemma record_link_down_queue chunk (p : DirectedLinkService * C) :
  wp (zoom fst (fun s p => (s, snd p)) (record_link_down chunk))
    (fun p' _ => queue_ (fst p') = queue_ (fst p)) (fun _ _ => True) p.
Proof. apply wp_zoom. unfold wp, record_link_down. by destruct (add_traffic _ _). Qed.

(** ** Rules for the runtime *)

Definition set_service l s rt : TransportRuntime :=
  {| rt with services_ := <[l := s]> (services_ rt) |}.

Lemma returns_with_service {A} l (m : M (DirectedLinkService * C) A) (R : DirectedLinkService ->
    DirectedLinkService -> A -> Prop) Q t :
  (forall p, wp m (fun p' a => R (fst p) (fst p') a) (fun _ _ => True) p) ->
  (forall s s' c a, services_ (tp_runtime t) !! l = Some s -> R s s' a ->
     Q (mkTransport (set_service l s' (tp_runtime t)) (tp_topology t) c) a) ->
  returns (with_service l m) Q t.
Proof.
  intros Hm HQ. unfold returns, with_service, require_service. wp_step. wp_step. wp_step.
  apply wp_of_option; [intros s Hs | done]. unfold wp. specialize (Hm (s, tp_context t)). unfold wp in Hm.
  destruct (m (s, tp_context t)) as [[s' c] [a | e]]; [| done]. by apply (HQ s s' c a).
Qed.

Lemma returns_put_chunk key r Q t :
  Q (mkTransport (let rt := tp_runtime t in {| rt with chunks_ := <[key := r]> (chunks_ rt) |})
       (tp_topology t) (tp_context t)) tt ->
  returns (put_chunk key r) Q t.
Proof. intros HQ. by apply wp_modify. Qed.

Lemma returns_require_chunk key Q t :
  (forall r, chunks_ (tp_runtime t) !! key = Some r -> Q t r) -> returns (require_chunk key) Q t.
Proof. intros HQ. unfold returns, require_chunk. do 2 wp_step. apply wp_of_option; [done | done]. Qed.

(** ** Terminal chunks *)

Lemma settle_run chunks key r r' tf t :
  chunks !! key = Some r -> same_chunk r r' ->
  terminal (cr_state r) = false -> terminal (cr_state r') = true ->
  (forall c x, chunks !! c = Some x -> chunk_ok (cr_chunk x)) ->
  transfer_ok chunks (chunk_transfer (cr_chunk r)) tf ->
  wp (match cr_state r' with
      | CT_Delivered =>
          let! x := of_outcome (add_traffic (tf_delivered tf) (record_count r')) in
          ret {| tf with tf_delivered := x |}
      | CT_DroppedBufferFull =>
          let! x := of_outcome (add_traffic (tf_dropped_buffer_full tf) (record_count r')) in
          ret {| tf with tf_dropped_buffer_full := x |}
      | CT_DroppedLinkDown =>
          let! x := of_outcome (add_traffic (tf_dropped_link_down tf) (record_count r')) in
          ret {| tf with tf_dropped_link_down := x |}
      | _ => throw (logic_error "nonterminal chunk cannot finish a transfer")
      end)
    (fun t' tf' => t' = t /\ tf' = settle (cr_state r') (record_count r') tf) (fun _ _ => True) t.
Proof.
  intros Hr Hsame Hlive Hterm Hbytes Ht.
  assert (traffic_le no_traffic (record_count r')) as Hc.
  { destruct Hsame as (_ & _ & Hb & _). destruct (Hbytes key r Hr) as [Hpos _].
    unfold record_count, traffic_le. cbn. lia. }
  assert (forall P, traffic_ok (tally P chunks (tf_chunks tf))) as Htal.
  { intros P. by destruct (settle_counters_ok chunks key r r' Hr Hsame Hbytes P tf Ht) as (? & _ & _). }
  destruct (cr_state r'); try done; wp_step; (apply wp_of_outcome; [intros x Hx | done]);
    (apply add_traffic_Ret in Hx as [-> _];
     [by wp_step | rewrite ?(tk_delivered _ _ _ Ht), ?(tk_full _ _ _ Ht), ?(tk_down _ _ _ Ht); apply Htal | done]).
Qed.

Lemma insert_known {A} (m : gmap Z A) id x y i z :
  m !! id = Some x -> <[id := y]> m !! i = Some z -> is_Some (m !! i).
Proof.
  intros Hx. destruct (decide (i = id)) as [-> | Hne]; [eauto |]. rewrite lookup_insert_ne by done. eauto.
Qed.

Lemma record_terminal_spec chunks key r r' taken t :
  chunks_ (tp_runtime t) = <[key := r']> chunks ->
  chunks !! key = Some r -> same_chunk r r' ->
  terminal (cr_state r) = false -> terminal (cr_state r') = true -> cr_state r <> CT_Registered ->
  transfers_ok chunks (transfers_ (tp_runtime t)) (taken ++ completions_ (tp_runtime t)) ->
  returns (record_terminal r')
    (fun t' _ => tp_topology t' = tp_topology t /\ exists transfers completions,
       same_core (let rt := tp_runtime t in
                  {| rt with transfers_ := transfers; completions_ := completions |}) (tp_runtime t') /\
       transfers_ok (<[key := r']> chunks) transfers (taken ++ completions) /\
       (forall id x, transfers !! id = Some x -> is_Some (transfers_ (tp_runtime t) !! id))) t.
Proof.
  intros Hch Hr Hsame Hlive Hterm Hreg Hok.
  pose proof (to_bytes _ _ _ Hok) as Hbytes.
  unfold returns, record_terminal, get_now, transfer_at. wp_step. wp_step. wp_step.
  wp_step. wp_step. apply wp_of_option; [intros tf Htf | done].
  pose proof Hsame as (Hid & _). rewrite Hid in *.
  pose proof (to_each _ _ _ Hok _ _ Htf) as Ht.
  wp_step. apply wp_throw_if; [done |]. intros _. cbv zeta. wp_step.
  eapply wp_conseq; [by eapply settle_run | | done]. intros t0 tf1 [-> ->].
  destruct (settle_tallies chunks key r r' Hr Hlive Hterm tf Ht) as (E1 & E2 & E3 & E4 & E5 & E6 & E7).
  destruct (settle_counters_ok chunks key r r' Hr Hsame Hbytes is_delivered tf Ht) as (_ & D2 & D3).
  destruct (settle_counters_ok chunks key r r' Hr Hsame Hbytes is_full tf Ht) as (_ & F2 & F3).
  destruct (settle_counters_ok chunks key r r' Hr Hsame Hbytes is_down tf Ht) as (_ & L2 & L3).
  rewrite <- E5 in D2, D3. rewrite <- E6 in F2, F3. rewrite <- E7 in L2, L3.
  pose proof (settle_transfers chunks key r r' Hr Hsame Hlive Hterm Hreg _ _ tf
    (ctx_now (tp_context t)) Hok Htf) as Hfinal.
  assert (tf_completion tf = None) as Hnone by (by eapply not_completed).
  set (tf1 := settle _ _ _) in *. rewrite Hnone in E4. cbv zeta in Hfinal.
  unfold settled in Hfinal. rewrite <- app_assoc in Hfinal. wp_step. apply wp_modify. wp_step.
  apply wp_of_outcome; [intros drops Hdrops | done].
  apply add_traffic_Ret in Hdrops as [-> _]; [| done | done]. wp_step.
  apply wp_of_outcome; [intros term Hterm' | done].
  apply add_traffic_Ret in Hterm' as [-> _]; [| done |].
  2: { unfold traffic_le in *. cbn in *. lia. }
  apply wp_when; intros Hall; rewrite Hall in Hfinal.
  2: { split; [done |]. eexists _, _. split; [| split; [exact Hfinal |]].
       - rewrite E4. unfold same_core. cbn. by rewrite app_nil_r.
       - intros i z Hz. eapply insert_known; [exact Htf | exact Hz]. }
  wp_step. apply wp_throw_if; [done |]. intros _. cbv zeta.
  wp_step. apply wp_modify. wp_step. apply wp_modify.
  eapply returns_frame; [unfold telemetry_enabled; frame_auto; auto with nexus |].
  intros t' _ [Htop Hcore]. split; [done |]. eexists _, _. split; [| split; [exact Hfinal |]].
  - unfold same_core in *. rt_cbn. rewrite Hcore. cbn. by rewrite insert_insert_eq.
  - intros i z Hz. eapply insert_known; [exact Htf | exact Hz].
Qed.

(** ** Changing one chunk *)

(** A chunk moves forward: it keeps its identity, never loses a mark, and stays
    as it is once it reached a terminal state. *)
Definition advances (r r' : ChunkRecord) : Prop :=
  same_chunk r r' /\ cr_hop_index r <= cr_hop_index r' /\
  (chunk_marked (cr_chunk r) = true -> chunk_marked (cr_chunk r') = true) /\
  (terminal (cr_state r) = true -> r' = r).

Definition chunks_advance (m m' : gmap Z ChunkRecord) : Prop :=
  forall id r, m !! id = Some r -> exists r', m' !! id = Some r' /\ advances r r'.

#[global] Instance advances_preorder : PreOrder advances.
Proof.
  split.
  - intros r. unfold advances, same_chunk. split_and!; (done || lia).
  - intros r1 r2 r3 ((A1 & A2 & A3 & A4) & A5 & A6 & A7) ((B1 & B2 & B3 & B4) & B5 & B6 & B7).
    unfold advances, same_chunk. split_and!; try congruence; try lia; [auto |].
    intros Ht. rewrite <- (A7 Ht). apply B7. rewrite (A7 Ht). done.
Qed.

#[global] Instance chunks_advance_preorder : PreOrder chunks_advance.
Proof.
  split.
  - intros m id r Hr. exists r. split; [done | reflexivity].
  - intros m1 m2 m3 H1 H2 id r Hr. destruct (H1 id r Hr) as (r2 & Hr2 & A).
    destruct (H2 id r2 Hr2) as (r3 & Hr3 & B). exists r3. split; [done | by etrans].
Qed.

Lemma chunks_advance_insert m key r r' :
  m !! key = Some r -> advances r r' -> chunks_advance m (<[key := r']> m).
Proof.
  intros Hr Ha id x Hx. destruct (decide (id = key)) as [-> | Hne].
  - rewrite lookup_insert_eq. simplify_eq. eauto.
  - rewrite lookup_insert_ne by done. exists x. split; [done | reflexivity].
Qed.

(** New services of the same links. *)
Definition services_like (svc svc' : gmap DirectedLinkId DirectedLinkService) : Prop :=
  (forall l s, svc' !! l = Some s -> service_queue_ok l s) /\
  (forall l, is_Some (svc !! l) -> is_Some (svc' !! l)).

Lemma record_ok_like svc svc' r : services_like svc svc' -> record_ok svc r -> record_ok svc' r.
Proof. intros [_ Hl] []. split; try done. intros l Hin. apply Hl. auto. Qed.

Lemma services_like_insert rt extra taken l s s' :
  runtime_ok rt extra taken -> services_ rt !! l = Some s -> service_queue_ok l s' ->
  services_like (services_ rt) (<[l := s']> (services_ rt)).
Proof.
  intros Hrt Hs Hs'. split.
  - intros l' x. destruct (decide (l' = l)) as [-> | Hne].
    + rewrite lookup_insert_eq. by intros [= <-].
    + rewrite lookup_insert_ne by done. apply Hrt.
  - intros l' Hx. apply lookup_insert_is_Some'. by right.
Qed.

Lemma services_like_refl rt extra taken :
  runtime_ok rt extra taken -> services_like (services_ rt) (services_ rt).
Proof. intros Hrt. split; [apply Hrt | done]. Qed.

(** The runtime after one chunk, the services and the transfers changed. *)
Definition with_chunk (key : ChunkId) (r : ChunkRecord)
    (svc : gmap DirectedLinkId DirectedLinkService) (rt : TransportRuntime) : TransportRuntime :=
  {| rt with chunks_ := <[key := r]> (chunks_ rt); services_ := svc |}.

Section OneChunk.
Context (rt : TransportRuntime) (extra extra' : DirectedLinkId -> list TransferChunk).
Context (taken : list TransferCompletion) (key : ChunkId) (r r' : ChunkRecord).
Context (svc : gmap DirectedLinkId DirectedLinkService).
Context (Hrt : runtime_ok rt extra taken) (Hr : chunks_ rt !! key = Some r).
Context (Hsame : same_chunk r r') (Hrec : record_ok svc r') (Hsvc : services_like (services_ rt) svc).
Context (Hq : queues_ok (<[key := r']> (chunks_ rt)) (held_of svc extra')).

Lemma one_chunk_ok transfers completions :
  transfers_ok (<[key := r']> (chunks_ rt)) transfers (taken ++ completions) ->
  (forall id x, transfers !! id = Some x -> is_Some (transfers_ rt !! id)) ->
  let rt' := with_chunk key r' svc rt in
  runtime_ok {| rt' with transfers_ := transfers; completions_ := completions |} extra' taken.
Proof.
  intros Htr Hknown. destruct Hrt as [H1 H2 H3 H4 [H5 H5'] [H6 H6'] H7 H8].
  split; cbn; try done; try apply Hsvc.
  - intros id x. destruct (decide (id = key)) as [-> | Hne].
    + rewrite lookup_insert_eq. by intros [= <-].
    + rewrite lookup_insert_ne by done. intros Hx. eapply record_ok_like; [done | by eapply H2].
  - split; [done |]. intros id x Hx. destruct (Hknown id x Hx) as [y Hy]. by eapply H5'.
  - split; [done |]. intros id x Hx. destruct (insert_known _ _ _ _ _ _ Hr Hx) as [y Hy].
    by eapply H6'.
  - rewrite map_size_insert_Some by eauto. done.
Qed.

(** The chunk goes on. *)
Lemma one_chunk_live :
  terminal (cr_state r) = false -> terminal (cr_state r') = false -> cr_state r <> CT_Registered ->
  runtime_ok (with_chunk key r' svc rt) extra' taken.
Proof.
  intros Hlive Hlive' Hreg.
  apply (one_chunk_ok (transfers_ rt) (completions_ rt)); [| eauto].
  apply (update_transfers (chunks_ rt) key r r'); try done; [apply Hrt |].
  intros t Ht Hs. exfalso. apply Hreg. pose proof (to_each _ _ _ (ro_transfers _ _ _ Hrt) _ _ Ht) as Hok.
  apply (tk_started _ _ _ Hok Hs key); [| done]. apply (tk_members _ _ _ Hok). eauto.
Qed.

(** The chunk is finished. *)
Lemma one_chunk_terminal t :
  terminal (cr_state r) = false -> terminal (cr_state r') = true -> cr_state r <> CT_Registered ->
  same_core (with_chunk key r' svc rt) (tp_runtime t) ->
  returns (record_terminal r') (fun t' _ => tp_topology t' = tp_topology t /\
    runtime_ok (tp_runtime t') extra' taken /\
    chunks_ (tp_runtime t') = <[key := r']> (chunks_ rt) /\ services_ (tp_runtime t') = svc) t.
Proof.
  intros Hlive Hterm Hreg Hcore. pose proof Hcore as Hcore'. unfold same_core in Hcore'.
  eapply wp_conseq; [apply (record_terminal_spec (chunks_ rt) key r r' taken) | | done]; try done.
  - by rewrite Hcore'.
  - rewrite Hcore'. apply Hrt.
  - intros t' _ (Htop & transfers & completions & Hc & Htr & Hknown). split; [done |].
    unfold same_core in Hc. rewrite Hcore' in Hc, Hknown. cbn in Hc, Hknown.
    rewrite Hc. split; [| done]. eapply runtime_ok_core; [| by apply (one_chunk_ok transfers completions)].
    done.
Qed.
End OneChunk.

(** ** Straight-line code *)

Lemma returns_bind {A B} (m : M (Transport C) A) (k : A -> M (Transport C) B) Q t :
  returns m (fun t' a => returns (k a) Q t') t -> returns (bind m k) Q t.
Proof. apply wp_bind. Qed.

(** A framed call leaves new busy times and another context. *)
Lemma returns_frame_bind {A B} (m : M (Transport C) A) (k : A -> M (Transport C) B) Q rt g c :
  frame m ->
  (forall b c' a, returns (k a) Q (mkTransport {| rt with reported_busy_time_ns_ := b |} g c')) ->
  returns (bind m k) Q (mkTransport rt g c).
Proof.
  intros Hm HQ. apply returns_bind. eapply returns_frame; [done |].
  intros [rt' g' c'] a [Hg Hc]. cbn in *. subst g'. unfold same_core in Hc. rewrite Hc. apply HQ.
Qed.

Lemma returns_throw_if {B} b e (k : unit -> M (Transport C) B) Q t :
  (b = false -> returns (k tt) Q t) -> returns (bind (throw_if b e) k) Q t.
Proof. intros HQ. apply returns_bind. unfold returns. by apply wp_throw_if. Qed.

Lemma returns_gets {A B} (f : Transport C -> A) (k : A -> M (Transport C) B) Q t :
  returns (k (f t)) Q t -> returns (bind (gets f) k) Q t.
Proof. intros HQ. apply returns_bind. by apply wp_gets. Qed.

Lemma returns_route_at {B} r hop (k : DirectedLinkId -> M (Transport C) B) Q t :
  (forall l, cr_route r !! Z.to_nat hop = Some l -> returns (k l) Q t) ->
  returns (bind (route_at r hop) k) Q t.
Proof. intros HQ. apply returns_bind. unfold returns, route_at. by apply wp_of_option. Qed.

Lemma returns_check {A B} f (k : A -> M (Transport C) B) Q t :
  (forall a, f (tp_runtime t) (tp_topology t) = Ret a -> returns (k a) Q t) ->
  returns (bind (check f) k) Q t.
Proof.
  intros HQ. apply returns_bind. unfold returns, wp, check.
  destruct (f (tp_runtime t) (tp_topology t)) as [a |]; [by apply HQ | done].
Qed.

Definition step_good (taken : list TransferCompletion) t t' : Prop :=
  runtime_ok (tp_runtime t') no_extra taken /\
  chunks_advance (chunks_ (tp_runtime t)) (chunks_ (tp_runtime t')) /\
  tp_topology t' = tp_topology t.

(** ** Arrivals *)

(** Steps over a framed call, keeping the state in normal form. *)
Ltac run_frame := apply returns_frame_bind; [auto with nexus | intros ? ? ?; rt_goal].

Lemma held_same_queue svc l s s' extra :
  svc !! l = Some s -> queue_ s' = queue_ s ->
  forall l', held_of (<[l := s']> svc) extra l' = held_of svc extra l'.
Proof.
  intros Hs Hq l'. unfold held_of. destruct (decide (l' = l)) as [-> | Hne].
  - by rewrite lookup_insert_eq, Hs, Hq.
  - by rewrite lookup_insert_ne.
Qed.

(** The chunk as the service keeps it. *)
Definition as_admitted (chunk : TransferChunk) (a : AdmissionResult) : TransferChunk :=
  {| chunk with chunk_marked := chunk_marked chunk || adm_marked_here a |}.

Lemma admit_contents chunk q q' a :
  link_queue_ok q -> chunk_ok chunk -> queue_admit chunk q = (q', Ret a) ->
  link_queue_ok q' /\ configuration_ q' = configuration_ q /\
  match adm_disposition a with
  | DroppedBufferFull => q' = q
  | _ => contents q' ≡ₚ as_admitted chunk a :: contents q
  end.
Proof.
  intros Hq Hch Ha. destruct (queue_admit_spec chunk q Hq Hch) as (q2 & a2 & Ha2 & Hq2 & Hc2 & Hm).
  rewrite Ha in Ha2. simplify_eq. split; [done |]. split; [done |].
  destruct (active_ q) as [act |] eqn:Hact.
  - destruct (fits q chunk); destruct Hm as [-> Hm]; cbn; [| done].
    destruct Hm as (Ha' & Hw' & _). unfold contents. rewrite Ha', Hw', Hact.
    change (option_list (Some act)) with [act]. cbn [app].
    change (as_admitted chunk (mkAdmissionResult Queued _)) with (stored q chunk).
    rewrite perm_swap. constructor. by rewrite Permutation_app_comm.
  - destruct Hm as (-> & _ & Hc). cbn. rewrite Hc. unfold contents.
    rewrite Hact, (lq_work_conserving _ Hq Hact). unfold as_admitted. cbn.
    rewrite orb_false_r. by destruct chunk.
Qed.

Lemma held_changed svc l s s' extra :
  svc !! l = Some s -> forall l', held_of (<[l := s']> svc) extra l' =
    if decide (l' = l) then contents (queue_ s') ++ extra l else held_of svc extra l'.
Proof.
  intros Hs l'. unfold held_of. case_decide as Hd.
  - subst. by rewrite lookup_insert_eq.
  - by rewrite lookup_insert_ne.
Qed.

Section Arrival.
Context (taken : list TransferCompletion) (key : ChunkId) (r : ChunkRecord).
Context (rt : TransportRuntime) (g : TopologyGraph) (c : C).
Context (Hrt : runtime_ok rt no_extra taken) (Hr : chunks_ rt !! key = Some r).
Context (Hstate : cr_state r = CT_AwaitingArrival).

Lemma arrival_key : chunk_id (cr_chunk r) = key.
Proof. apply (qo_ids _ _ (ro_queues _ _ _ Hrt) _ _ Hr). Qed.

Lemma arrival_record : record_ok (services_ rt) r.
Proof. by eapply ro_record. Qed.

Lemma deliver_spec :
  cr_hop_index r = zlength (cr_route r) ->
  returns (deliver key r) (fun t' _ => step_good taken (mkTransport rt g c) t') (mkTransport rt g c).
Proof.
  intros Hhop. unfold deliver. cbv zeta. apply returns_bind, returns_put_chunk. cbn. run_frame.
  set (r' := {| r with cr_state := _; cr_scheduled_arrival := _ |}).
  pose proof arrival_record as [A1 A2 A3 A4 A5]. rewrite Hstate in *.
  eapply wp_conseq; [apply (one_chunk_terminal rt no_extra no_extra taken key r r' (services_ rt)) | | done];
    try done; rewrite ?Hstate; try done.
  - split; cbn; (done || by intros [? ?]).
  - by eapply services_like_refl.
  - apply (queues_outside _ (held_of (services_ rt) no_extra)); try done; [apply Hrt | apply arrival_key |].
    intros x Hx. simplify_eq. by rewrite Hstate.
  - intros t' _ (Htop & Hok & Hch & _). split; [done |]. split; [| done]. rewrite Hch.
    apply (chunks_advance_insert _ key r); [done |]. split_and!; try done. by rewrite Hstate.
Qed.

Lemma drop_at_down_link_spec l :
  cr_hop_index r < zlength (cr_route r) ->
  returns (drop_at_down_link key r l) (fun t' _ => step_good taken (mkTransport rt g c) t')
    (mkTransport rt g c).
Proof.
  intros Hhop. unfold drop_at_down_link. run_frame. apply returns_bind.
  eapply (returns_with_service l _ (fun s s' _ => queue_ s' = queue_ s)); [apply record_link_down_queue |].
  intros s s' c1 [] Hs Hq. unfold set_service. rt_cbn. run_frame. cbv zeta.
  apply returns_bind, returns_put_chunk. rt_cbn. do 5 run_frame.
  set (r' := {| r with cr_state := _; cr_scheduled_arrival := _ |}).
  pose proof arrival_record as [A1 A2 A3 A4 A5]. rewrite Hstate in *.
  assert (services_like (services_ rt) (<[l := s']> (services_ rt))) as Hlike.
  { eapply services_like_insert; [done | done |]. unfold service_queue_ok. rewrite Hq.
    by apply (ro_service _ _ _ Hrt). }
  assert (queues_ok (<[key := r']> (chunks_ rt)) (held_of (<[l := s']> (services_ rt)) no_extra)) as Hqs.
  { apply (queues_outside _ (held_of (services_ rt) no_extra)); [apply Hrt | apply arrival_key | | done |].
    - intros x Hx. simplify_eq. by rewrite Hstate.
    - intros l'. by rewrite (held_same_queue _ _ s). }
  assert (record_ok (<[l := s']> (services_ rt)) r') as Hrec'.
  { eapply record_ok_like; [done |]. split; cbn; (done || by intros [? ?]). }
  eapply wp_conseq; [apply (one_chunk_terminal rt no_extra no_extra taken key r r'
    (<[l := s']> (services_ rt)) Hrt Hr); [done | exact Hrec' | exact Hlike | exact Hqs | | done | |
    reflexivity] | | done]; [by rewrite Hstate | by rewrite Hstate |].
  intros t' _ (Htop & Hok & Hch & _). split; [done |]. split; [| done]. rewrite Hch.
  apply (chunks_advance_insert _ key r); [done |]. split_and!; try done. by rewrite Hstate.
Qed.

Lemma offer_spec l :
  cr_hop_index r < zlength (cr_route r) -> cr_route r !! Z.to_nat (cr_hop_index r) = Some l ->
  returns (offer key (cr_hop_index r) r l) (fun t' _ => step_good taken (mkTransport rt g c) t')
    (mkTransport rt g c).
Proof.
  intros Hhop Hl. unfold offer. cbv zeta. set (chunk := mkTransferChunk _ _ _ _ _).
  apply returns_bind, returns_put_chunk. rt_cbn. run_frame. apply returns_bind.
  eapply (returns_with_service l _ (fun s s' a => queue_admit chunk (queue_ s) = (queue_ s', Ret a)));
    [apply service_admit_queue |].
  intros s s' c1 adm Hs Hadm. unfold set_service. rt_cbn. run_frame.
  fold (as_admitted chunk adm).
  set (r' := {| r with cr_state := _; cr_scheduled_arrival := _; cr_chunk := _ |}).
  apply returns_bind, returns_put_chunk. rt_cbn. rewrite insert_insert_eq.
  apply returns_frame_bind; [destruct (adm_disposition adm); frame_auto; auto with nexus |].
  intros b1 c2 []. rt_goal. do 3 run_frame.
  pose proof arrival_record as [A1 A2 A3 A4 A5]. pose proof arrival_key as Hkey. rewrite Hstate in *.
  destruct (ro_service _ _ _ Hrt l s Hs) as [Hqs Hcfg].
  assert (chunk_ok chunk) as Hch by exact (to_bytes _ _ _ (ro_transfers _ _ _ Hrt) _ _ Hr).
  destruct (admit_contents chunk _ _ _ Hqs Hch Hadm) as (Hqs' & Hcfg' & Hcont).
  assert (services_like (services_ rt) (<[l := s']> (services_ rt))) as Hlike.
  { eapply services_like_insert; [done | done |]. split; [done |]. by rewrite Hcfg'. }
  assert (same_chunk r r') as Hsame by done.
  assert (record_ok (<[l := s']> (services_ rt)) r') as Hrec'.
  { eapply record_ok_like; [exact Hlike |]. split; cbn; try done; destruct (adm_disposition adm);
      (done || (split; [by intros [? ?] | done])). }
  assert (advances r r') as Hadv.
  { split_and!; [done | cbn; lia | | by rewrite Hstate]. cbn. intros ->. done. }
  assert (forall x, chunks_ rt !! key = Some x -> cr_state x <> CT_Admitted) as Hold.
  { intros x Hx. simplify_eq. by rewrite Hstate. }
  assert (adm_disposition adm <> DroppedBufferFull ->
    contents (queue_ s') ≡ₚ as_admitted chunk adm :: contents (queue_ s) ->
    cr_state r' = CT_Admitted -> runtime_ok (with_chunk key r' (<[l := s']> (services_ rt)) rt) no_extra taken)
    as Hin.
  { intros _ Hperm Hst. eapply (one_chunk_live rt no_extra no_extra taken key r r'); try done;
      rewrite ?Hstate, ?Hst; try done.
    eapply (queues_enter _ (held_of (services_ rt) no_extra) _ key r' (ro_queues _ _ _ Hrt) Hkey l); try done.
    intros l'. rewrite (held_changed _ _ s) by done. unfold held_of, no_extra. rewrite !app_nil_r.
    case_decide as Hd; [subst l'; by rewrite Hs | done]. }
  assert (chunks_advance (chunks_ rt) (<[key := r']> (chunks_ rt))) as Hadvs
    by (by apply (chunks_advance_insert _ key r)).
  destruct (adm_disposition adm) eqn:Hdisp.
  1-2: apply wp_ret; split; [| done]; eapply runtime_ok_core; [| by apply Hin]; reflexivity.
  rewrite bool_decide_true by done. unfold when.
  eapply wp_conseq; [apply (one_chunk_terminal rt no_extra no_extra taken key r r'
    (<[l := s']> (services_ rt)) Hrt Hr); [done | exact Hrec' | exact Hlike | | | done | |
    reflexivity] | | done]; [| by rewrite Hstate | by rewrite Hstate |].
  - apply (queues_outside _ (held_of (services_ rt) no_extra)); [apply Hrt | done | done | done |].
    intros l'. by rewrite (held_same_queue _ _ s).
  - intros t' _ (Htop & Hok & Hch' & _). split; [done |]. split; [by rewrite Hch' | done].
Qed.

End Arrival.

Lemma handle_arrival_spec taken event t :
  runtime_ok (tp_runtime t) no_extra taken ->
  returns (handle_arrival event) (fun t' _ => step_good taken t t') t.
Proof.
  destruct t as [rt g c]. intros Hrt. unfold handle_arrival. apply returns_bind, returns_require_chunk.
  intros r Hr. cbn in Hr. cbv zeta. apply returns_throw_if.
  intros Hst%negb_false_iff%bool_decide_eq_true.
  destruct (cr_scheduled_arrival r) as [arrival |] eqn:Harr; [| done].
  apply returns_bind. unfold returns at 1, wp, current_event. cbn.
  destruct (ctx_current_event_id c) as [cur |]; [| done].
  apply returns_throw_if. intros _. apply returns_throw_if. intros Hhop%negb_false_iff%Z.eqb_eq.
  rewrite Hhop. pose proof (ro_record _ _ _ Hrt _ _ Hr) as Hrec.
  destruct (Z.eqb_spec (cr_hop_index r) (zlength (cr_route r))) as [Hend | Hmid].
  - by apply deliver_spec.
  - pose proof (rk_hop _ _ Hrec) as Hb. apply returns_route_at. intros l Hl. apply returns_check.
    intros directed _. apply returns_gets.
    destruct (negb _); [apply drop_at_down_link_spec | apply offer_spec]; (done || lia).
Qed.

(** ** Completions *)

Lemma transport_completion_spec taken event t :
  runtime_ok (tp_runtime t) no_extra taken ->
  returns (handle_completion event) (fun t' _ => step_good taken t t') t.
Proof.
  destruct t as [rt g c]. intros Hrt. unfold handle_completion. cbv zeta.
  apply returns_bind, returns_require_chunk. intros r Hr. cbn in Hr.
  apply returns_throw_if. intros [[Hst%negb_false_iff%bool_decide_eq_true Hhop]%orb_false_iff Hlen]%orb_false_iff.
  apply negb_false_iff, Z.eqb_eq in Hhop. rewrite Hhop in *.
  apply returns_route_at. intros l Hl. apply returns_throw_if.
  intros Hlink%negb_false_iff%bool_decide_eq_true. rewrite <- Hlink in *. clear Hlink.
  do 3 run_frame. destruct (checked_add _ _) as [arrival |]; [| done]. apply returns_bind.
  eapply (returns_with_service l _ (fun s s' tr => complete_service (queue_ s) = (queue_ s', Some tr)));
    [apply handle_completion_queue |].
  intros s s' c1 tr Hs Htr. unfold set_service. rt_cbn. run_frame.
  apply returns_throw_if. intros Hid%negb_false_iff%Z.eqb_eq.
  apply returns_bind, returns_put_chunk. rt_cbn. do 2 run_frame.
  apply returns_frame_bind; [destruct (st_next_started tr); frame_auto; auto with nexus |]. intros ? ? []; rt_goal.
  do 3 run_frame. apply returns_bind, returns_put_chunk. rt_cbn. rewrite insert_insert_eq. run_frame.
  apply returns_put_chunk. rt_cbn. rewrite insert_insert_eq.
  destruct (ro_service _ _ _ Hrt l s Hs) as [Hqs Hcfg].
  pose proof (complete_service_spec (queue_ s) Hqs) as (Hqs' & Hcfg' & _ & Hcont).
  rewrite Htr in Hqs', Hcfg', Hcont. cbn [fst snd] in *. destruct Hcont as (Hcont & _).
  pose proof (qo_ids _ _ (ro_queues _ _ _ Hrt) _ _ Hr) as Hkey.
  assert (st_completed tr = cr_chunk r) as Hsame.
  { destruct (qo_held _ _ (ro_queues _ _ _ Hrt) l (st_completed tr)) as (x & Hx & Hxc & _).
    - unfold held_of. rewrite Hs, Hcont. left.
    - rewrite Hid, Hkey in Hx. congruence. }
  rewrite Hsame. pose proof (ro_record _ _ _ Hrt _ _ Hr) as [A1 A2 A3 A4 A5]. rewrite Hst in *.
  assert (u32_wrap (cr_hop_index r + 1) = cr_hop_index r + 1) as ->
    by (unfold u32_wrap; apply Z.mod_small; word_lia).
  set (r' := mkChunkRecord _ _ _ _ _).
  assert (advances r r') as Hadv by (split_and!; try done; [cbn; lia | by rewrite Hst]).
  split; [| split; [| done]]; cbn [tp_runtime chunks_];
    [| by apply (chunks_advance_insert _ (tc_chunk event) r)].
  eapply runtime_ok_core; [| apply (one_chunk_live rt no_extra no_extra taken (tc_chunk event) r r' (<[l := s']> (services_ rt)) Hrt Hr)];
    [reflexivity | done | | | | by rewrite Hst | done | by rewrite Hst].
  - split; cbn; try done; try lia.
    intros l' Hl'. apply lookup_insert_is_Some'. right. by apply A3.
  - eapply services_like_insert; [done | done |]. split; [done |]. by rewrite Hcfg'.
  - apply (queues_leave _ (held_of (services_ rt) no_extra) _ (tc_chunk event) r' (ro_queues _ _ _ Hrt) Hkey l (cr_chunk r));
      [done | done |].
    intros l'. rewrite (held_changed _ _ s) by done. unfold held_of, no_extra. rewrite !app_nil_r.
    case_decide as Hd; [subst l'; by rewrite Hs, Hcont, Hsame | done].
Qed.
End Steps.

(** ** Failures, submission and the reachable states of the runtime *)

Section Failures.
Context {C : Type} `{SimContext C}.
Implicit Types (t : Transport C).

(** Chunks just drained from the queue of [l]. *)
Definition pending (l : DirectedLinkId) (D : list TransferChunk) (x : DirectedLinkId)
    : list TransferChunk :=
  if decide (x = l) then D else [].

Lemma runtime_ok_extra rt extra extra' taken :
  (forall l, held_of (services_ rt) extra' l = held_of (services_ rt) extra l) ->
  runtime_ok rt extra taken -> runtime_ok rt extra' taken.
Proof.
  intros He [H1 H2 [Q1 Q2 Q3 Q4] H4 H5 H6 H7 H8]. split; try done. split; try done.
  - intros l c. rewrite He. apply Q1.
  - intros l. rewrite He. apply Q2.
  - intros id r Hr Ha. destruct (Q3 id r Hr Ha) as [l Hl]. exists l. by rewrite He.
Qed.

(** What a failure handler may do: the services stay, chunks move forward. *)
Definition drops_only t t' : Prop :=
  chunks_advance (chunks_ (tp_runtime t)) (chunks_ (tp_runtime t')) /\
  tp_topology t' = tp_topology t.

#[global] Instance drops_only_preorder : PreOrder drops_only.
Proof.
  split; [by intros t | intros t1 t2 t3 [? ?] [? ?]; split; [by etrans | congruence]].
Qed.

Ltac run_frame := apply returns_frame_bind; [auto with nexus | intros ? ? ?; rt_goal].

Lemma mark_dropped_spec taken l ch D t :
  runtime_ok (tp_runtime t) (pending l (ch :: D)) taken ->
  returns (mark_dropped l ch)
    (fun t' _ => runtime_ok (tp_runtime t') (pending l D) taken /\ drops_only t t') t.
Proof.
  destruct t as [rt g c]. intros Hrt. unfold mark_dropped. apply returns_bind, returns_require_chunk.
  intros r Hr. cbn in Hr. cbv zeta. apply returns_throw_if.
  intros [[Hst%negb_false_iff%bool_decide_eq_true _]%orb_false_iff Hlen]%orb_false_iff.
  apply returns_route_at. intros l' Hl'. apply returns_throw_if. intros _.
  apply returns_bind, returns_put_chunk. rt_cbn. do 2 run_frame.
  destruct (qo_held _ _ (ro_queues _ _ _ Hrt) l ch) as (x & Hx & Hxc & _).
  { unfold held_of, pending. rewrite decide_True by done. set_solver. }
  assert (x = r) as -> by congruence. clear Hx.
  pose proof (ro_record _ _ _ Hrt _ _ Hr) as [A1 A2 A3 A4 A5]. rewrite Hst in *.
  set (r' := mkChunkRecord _ _ _ _ _).
  assert (same_chunk r r') as Hsame by (unfold same_chunk; cbn; by rewrite Hxc).
  eapply wp_conseq; [apply (one_chunk_terminal rt (pending l (ch :: D)) (pending l D) taken (chunk_id ch) r r'
    (services_ rt) Hrt Hr Hsame); [| | | | done | | reflexivity] | | done];
    [| by eapply services_like_refl | | by rewrite Hst | by rewrite Hst |].
  - split; cbn; try done. split; [intros Ha; by apply A4 in Ha | done].
  - apply (queues_leave _ (held_of (services_ rt) (pending l (ch :: D))) _ (chunk_id ch) r'
      (ro_queues _ _ _ Hrt) eq_refl l ch eq_refl); [done |].
    intros l''. unfold held_of, pending. case_decide as Hd; [| done].
    by rewrite <- Permutation_middle.
  - intros t' _ (Htop & Hok & Hch & _). split; [done |]. split; [| done]. rewrite Hch.
    apply (chunks_advance_insert _ _ r); [done |]. split_and!; try done.
    + cbn. by rewrite Hxc.
    + by rewrite Hst.
Qed.

Lemma mark_all_spec taken l D t :
  runtime_ok (tp_runtime t) (pending l D) taken ->
  returns (for_each D (mark_dropped l))
    (fun t' _ => runtime_ok (tp_runtime t') no_extra taken /\ drops_only t t') t.
Proof.
  revert t. induction D as [| ch D IH]; intros t Hrt.
  - apply wp_ret. split; [| done]. eapply runtime_ok_extra; [| done].
    intros l'. unfold held_of, pending, no_extra. by case_decide.
  - apply returns_bind. eapply wp_conseq; [by apply mark_dropped_spec | | done].
    intros t1 _ [Hrt1 Hd1]. eapply wp_conseq; [by apply IH | | done].
    intros t2 _ [Hrt2 Hd2]. split; [done | by etrans].
Qed.

Lemma mark_dropped_link_down_spec taken l d t :
  runtime_ok (tp_runtime t) (pending l (option_list (drain_active d) ++ drain_waiting d)) taken ->
  returns (mark_dropped_link_down d l)
    (fun t' _ => runtime_ok (tp_runtime t') no_extra taken /\ drops_only t t') t.
Proof.
  intros Hrt. unfold mark_dropped_link_down. apply returns_bind.
  destruct (drain_active d) as [ch |]; [| by apply wp_ret, mark_all_spec].
  eapply wp_conseq; [by apply (mark_dropped_spec taken l ch (drain_waiting d)) | | done].
  intros t1 _ [Hrt1 Hd1]. eapply wp_conseq; [by apply mark_all_spec | | done].
  intros t2 _ [Hrt2 Hd2]. split; [done | by etrans].
Qed.

(** A drained queue: its chunks are pending. *)
Lemma drained_ok rt taken l s s' d :
  runtime_ok rt no_extra taken -> services_ rt !! l = Some s ->
  drain (queue_ s) = (queue_ s', d) ->
  runtime_ok (set_service l s' rt) (pending l (option_list (drain_active d) ++ drain_waiting d)) taken.
Proof.
  intros Hrt Hs Hd. destruct (ro_service _ _ _ Hrt l s Hs) as [Hqs Hcfg].
  destruct (drain_spec (queue_ s) Hqs) as (Hq' & Hc' & Hcfg' & Hd'). rewrite Hd in Hq', Hc', Hcfg', Hd'.
  cbn [fst snd] in *. pose proof Hrt as [H1 H2 [Q1 Q2 Q3 Q4] H4 H5 H6 H7 H8].
  assert (services_like (services_ rt) (<[l := s']> (services_ rt))) as Hlike.
  { eapply services_like_insert; [done | done |]. split; [done |]. by rewrite Hcfg'. }
  assert (forall x, held_of (<[l := s']> (services_ rt))
    (pending l (option_list (drain_active d) ++ drain_waiting d)) x = held_of (services_ rt) no_extra x) as Hh.
  { intros x. rewrite Hd'. unfold held_of, pending, no_extra. case_decide as Hx.
    - subst. by rewrite lookup_insert_eq, Hs, Hc', app_nil_r.
    - by rewrite lookup_insert_ne. }
  split; cbn; try done; try apply Hlike.
  - intros id r Hr. eapply record_ok_like; [done | by eapply H2].
  - split; try done.
    + intros x c. rewrite Hh. apply Q1.
    + intros x. rewrite Hh. apply Q2.
    + intros id r Hr Ha. destruct (Q3 id r Hr Ha) as [x Hx]. exists x. by rewrite Hh.
Qed.

Lemma drain_service_spec taken l t :
  runtime_ok (tp_runtime t) no_extra taken ->
  returns (drain_service l) (fun t' _ => step_good taken t t') t.
Proof.
  destruct t as [rt g c]. intros Hrt. unfold drain_service. run_frame. apply returns_bind.
  eapply (returns_with_service l _ (fun s s' d => drain (queue_ s) = (queue_ s', d)));
    [apply reconcile_down_queue |].
  intros s s' c1 d Hs Hd. unfold set_service. rt_cbn. run_frame. apply returns_bind.
  eapply wp_conseq; [apply (mark_dropped_link_down_spec taken) | | done].
  { cbn. eapply runtime_ok_core; [| by eapply (drained_ok rt taken l s s' d)]. reflexivity. }
  intros [rt1 g1 c2] _ [Hrt1 [Hadv Htop]]. cbn in *. subst g1. do 2 run_frame.
  eapply returns_frame; [auto with nexus |]. intros [rt2 g2 c3] _ [Htop2 Hcore].
  unfold same_core in Hcore. cbn in *. rewrite Hcore. split_and!; [| done | done].
  cbn. eapply runtime_ok_core; [| exact Hrt1]. done.
Qed.

#[global] Instance step_good_trans taken : Transitive (step_good (C := C) taken).
Proof.
  intros t1 t2 t3 (_ & A2 & A3) (B1 & B2 & B3). split_and!; [done | by etrans | congruence].
Qed.

Lemma step_good_refl taken t : runtime_ok (tp_runtime t) no_extra taken -> step_good taken t t.
Proof. intros Hrt. split_and!; done. Qed.

Lemma for_each_good {A} taken (l : list A) (f : A -> M (Transport C) unit) t :
  (forall x t, runtime_ok (tp_runtime t) no_extra taken ->
     returns (f x) (fun t' _ => step_good taken t t') t) ->
  runtime_ok (tp_runtime t) no_extra taken ->
  returns (for_each l f) (fun t' _ => step_good taken t t') t.
Proof.
  intros Hf. revert t. induction l as [| x l IH]; intros t Hrt; [by apply wp_ret, step_good_refl |].
  apply returns_bind. eapply wp_conseq; [by apply Hf | | done]. intros t1 [] Hg1.
  eapply wp_conseq; [apply IH, Hg1 | | done]. intros t2 [] Hg2. by etrans.
Qed.

Lemma reconcile_unavailable_spec taken t :
  runtime_ok (tp_runtime t) no_extra taken ->
  returns reconcile_unavailable (fun t' _ => step_good taken t t') t.
Proof.
  intros Hrt. unfold reconcile_unavailable. apply returns_gets. apply for_each_good; [| done].
  intros id t1 Hrt1. apply returns_check. intros directed _. apply returns_gets.
  apply wp_when; intros _; [by apply drain_service_spec | by apply step_good_refl].
Qed.

(** The topology changes as well. *)
Definition step_change (f : TopologyGraph -> TopologyGraph * bool) (taken : list TransferCompletion) t t' : Prop :=
  runtime_ok (tp_runtime t') no_extra taken /\
  chunks_advance (chunks_ (tp_runtime t)) (chunks_ (tp_runtime t')) /\
  tp_topology t' = fst (f (tp_topology t)).

Lemma set_state_spec {B} taken f (k : bool -> M (Transport C) B) t :
  runtime_ok (tp_runtime t) no_extra taken ->
  (forall b t', runtime_ok (tp_runtime t') no_extra taken -> returns (k b) (fun t'' _ => step_good taken t' t'') t') ->
  returns (bind (set_state f) k) (fun t' _ => step_change f taken t t') t.
Proof.
  intros Hrt Hk. apply returns_bind. unfold returns at 1, wp, set_state.
  unfold step_change. destruct (f (tp_topology t)) as [g b]. eapply wp_conseq; [by apply Hk | | done].
  by intros t' a (H1 & H2 & H3).
Qed.

Lemma handle_link_state_change_spec taken event t :
  runtime_ok (tp_runtime t) no_extra taken ->
  returns (handle_link_state_change event)
    (fun t' _ => step_change (set_link_state (lsc_link event) (lsc_state event)) taken t t') t.
Proof.
  intros Hrt. unfold handle_link_state_change, require_fabric_link. apply returns_bind, returns_gets.
  unfold returns at 1. apply wp_throw_if; [done |]. intros _. apply set_state_spec; [done |]. intros b t1 Hrt1.
  apply returns_throw_if. intros _. destruct (lsc_state event); [apply wp_ret; by apply step_good_refl |].
  apply (for_each_good taken); [| done]. intros dir t2 Hrt2. cbv zeta. apply returns_gets.
  apply wp_when; intros _; [by apply drain_service_spec | by apply step_good_refl].
Qed.

Lemma handle_port_state_change_spec taken event t :
  runtime_ok (tp_runtime t) no_extra taken ->
  returns (handle_port_state_change event)
    (fun t' _ => step_change (set_port_state (psc_port event) (psc_state event)) taken t t') t.
Proof.
  intros Hrt. unfold handle_port_state_change, validate_state. destruct (psc_state event).
  all: apply returns_bind, wp_ret, set_state_spec; [done |]; intros b t1 Hrt1;
    apply returns_throw_if; intros _; by apply reconcile_unavailable_spec.
Qed.

Lemma handle_switch_state_change_spec taken event t :
  runtime_ok (tp_runtime t) no_extra taken ->
  returns (handle_switch_state_change event)
    (fun t' _ => step_change (set_switch_state (ssc_network_switch event) (ssc_state event)) taken t t') t.
Proof.
  intros Hrt. unfold handle_switch_state_change, validate_state. destruct (ssc_state event).
  all: apply returns_bind, wp_ret, set_state_spec; [done |]; intros b t1 Hrt1;
    apply returns_throw_if; intros _; by apply reconcile_unavailable_spec.
Qed.
End Failures.
