(* ===== verification/TransportSubmit.v ===== *)
(** * Submission

    Registering chunks and submitting transfers keep the transport invariant,
    and a submitted transfer is cut into chunks exactly. *)

From S2P Require Import Prelude SimTime Entities TelemetryRecords Trace EventQueue SimContext.
From S2P Require Import Timing LinkQueue LinkService LinkServiceLaws Topology TopologyLaws.
From S2P Require Import Transport TransportLaws TransportInv TransportSteps.

(** ** One more chunk *)

Section Register.
Context (chunks : gmap Z ChunkRecord) (id : ChunkId) (r : ChunkRecord).
Context (Hfresh : chunks !! id = None) (Hreg : cr_state r = CT_Registered).

Let chunks' := <[id := r]> chunks.

Lemma register_other i t :
  i <> chunk_transfer (cr_chunk r) -> transfer_ok chunks i t -> transfer_ok chunks' i t.
Proof.
  intros Hi Ht.
  assert (id ∉ tf_chunks t) as Hout by (rewrite (tk_members _ _ _ Ht); intros (x & Hx & _); congruence).
  assert (forall c, c ∈ tf_chunks t -> chunks' !! c = chunks !! c) as Hsame.
  { intros c Hc. apply lookup_insert_ne. intros ->. done. }
  destruct Ht. split; try done; unfold chunks'; rewrite ?tally_insert_out; try done.
  - intros c. rewrite tk_members. destruct (decide (c = id)) as [-> | Hne].
    + rewrite lookup_insert_eq, Hfresh. split; intros (x & Hx & Hxt); [done |]. simplify_eq.
    + by rewrite lookup_insert_ne.
  - intros Hs c x Hc. fold chunks'. rewrite Hsame by done. by apply tk_started.
  - fold chunks'. destruct (tf_completion t).
    + destruct tk_completion as [Ha ?]. split; [| done]. intros c x Hc. rewrite Hsame by done. by apply Ha.
    + destruct tk_completion as (c & x & Hc & Hx & Hl). exists c, x. by rewrite Hsame.
Qed.

Lemma register_tally P ids :
  id ∉ ids -> tally P chunks' (ids ++ [id]) = tally P chunks ids ⊕ weight P r.
Proof.
  intros Hout. unfold chunks'. rewrite tally_app, tally_insert_out by done. cbn [tally].
  rewrite lookup_insert_eq. tally_lia.
Qed.

(** The transfer the chunk joins; it has not been started. *)
Lemma register_own t total :
  (transfer_ok chunks (chunk_transfer (cr_chunk r)) t \/
   t = new_transfer_record /\ forall c x, chunks !! c = Some x ->
     chunk_transfer (cr_chunk x) <> chunk_transfer (cr_chunk r)) ->
  tf_started_at t = None -> total = tf_total t ⊕ record_count r -> traffic_ok total ->
  transfer_ok chunks' (chunk_transfer (cr_chunk r))
    {| t with tf_chunks := tf_chunks t ++ [id]; tf_total := total |}.
Proof.
  intros Ht Hs Htotal Hok.
  assert (NoDup (tf_chunks t) /\
    (forall c, c ∈ tf_chunks t <->
       exists x, chunks !! c = Some x /\ chunk_transfer (cr_chunk x) = chunk_transfer (cr_chunk r)) /\
    tf_total t = tally any_state chunks (tf_chunks t) /\
    tf_delivered t = tally is_delivered chunks (tf_chunks t) /\
    tf_dropped_buffer_full t = tally is_full chunks (tf_chunks t) /\
    tf_dropped_link_down t = tally is_down chunks (tf_chunks t) /\
    (forall c x, c ∈ tf_chunks t -> chunks !! c = Some x -> cr_state x = CT_Registered) /\
    tf_completion t = None) as (B1 & B2 & B3 & B4 & B5 & B6 & B7 & B8).
  { destruct Ht as [Ht | [-> Hnone]].
    - pose proof (tk_started _ _ _ Ht Hs) as Hall. split_and!; try apply Ht; [done |].
      pose proof (tk_completion _ _ _ Ht) as Hc. destruct (tf_completion t) as [cm |]; [| done].
      destruct Hc as [Hterm _]. pose proof (tk_nonempty _ _ _ Ht) as Hne.
      destruct (tf_chunks t) as [| c l] eqn:Hl; [done |].
      assert (c ∈ tf_chunks t) as Hc by (rewrite Hl; left).
      apply (tk_members _ _ _ Ht) in Hc as (x & Hx & _).
      specialize (Hterm c x ltac:(left) Hx). by rewrite (Hall c x ltac:(left) Hx) in Hterm.
    - split_and!; try done; [constructor | | intros c x Hc; by apply elem_of_nil in Hc].
      intros c. cbn. rewrite elem_of_nil. split; [done |]. intros (x & Hx & Hxt). by eapply Hnone. }
  assert (id ∉ tf_chunks t) as Hout by (rewrite B2; intros (x & Hx & _); congruence).
  assert (forall P, P CT_Registered = false ->
    tally P chunks' (tf_chunks t ++ [id]) = tally P chunks (tf_chunks t)) as Hno.
  { intros P HP. rewrite register_tally by done. rewrite weight_none by (by rewrite Hreg).
    apply plus_traffic_0_r. }
  split; cbn; rewrite ?Hno by done; try done.
  - apply NoDup_app. split_and!; [done | intros x Hx ->%list_elem_of_singleton; done | apply NoDup_singleton].
  - intros Hnil. by apply app_eq_nil in Hnil as [_ ?].
  - intros c. rewrite elem_of_app, list_elem_of_singleton, B2. unfold chunks'.
    destruct (decide (c = id)) as [-> | Hne].
    + rewrite lookup_insert_eq. split; [eauto | by right].
    + rewrite lookup_insert_ne by done. split; [by intros [|] | by left].
  - rewrite register_tally by done. by rewrite weight_any, <- B3.
  - intros _ c x Hc Hx. unfold chunks' in Hx. destruct (decide (c = id)) as [-> | Hne].
    + rewrite lookup_insert_eq in Hx. by simplify_eq.
    + rewrite lookup_insert_ne in Hx by done.
      apply elem_of_app in Hc as [Hc | ->%list_elem_of_singleton]; [by eapply B7 | done].
  - rewrite B8. exists id, r. unfold chunks'. rewrite lookup_insert_eq, Hreg. set_solver.
Qed.

Lemma register_transfers transfers log total :
  let transfer := chunk_transfer (cr_chunk r) in
  let t := default new_transfer_record (transfers !! transfer) in
  transfers_ok chunks transfers log -> chunk_ok (cr_chunk r) ->
  tf_started_at t = None -> total = tf_total t ⊕ record_count r -> traffic_ok total ->
  transfers_ok chunks' (<[transfer := {| t with tf_chunks := tf_chunks t ++ [id];
                                               tf_total := total |}]> transfers) log.
Proof.
  intros transfer t [H1 H2 H3 H4 H5] Hch Hs Htotal Hok.
  assert (transfer_ok chunks' transfer {| t with tf_chunks := tf_chunks t ++ [id]; tf_total := total |}) as Hown.
  { apply register_own; [| done | done | done]. unfold t.
    destruct (transfers !! transfer) as [t0 |] eqn:Ht0; [left; by apply H1 | right].
    split; [done |]. intros c x Hx He. destruct (H2 c x Hx) as [y Hy]. rewrite He in Hy.
    unfold transfer in Ht0. congruence. }
  assert (tf_completion t = None) as Hc.
  { pose proof (tk_completion _ _ _ Hown) as Hc. cbn in Hc. destruct (tf_completion t) as [cm |]; [| done].
    destruct Hc as [Hterm _]. specialize (Hterm id r ltac:(set_solver)). unfold chunks' in Hterm.
    rewrite lookup_insert_eq, Hreg in Hterm. by specialize (Hterm eq_refl). }
  split; [| | | done |].
  - intros i x Hx. destruct (decide (i = transfer)) as [-> | Hne].
    + rewrite lookup_insert_eq in Hx. by simplify_eq.
    + rewrite lookup_insert_ne in Hx by done. apply register_other; auto.
  - intros c x Hx. apply lookup_insert_is_Some'. unfold chunks' in Hx.
    destruct (decide (c = id)) as [-> | Hne].
    + rewrite lookup_insert_eq in Hx. simplify_eq. by left.
    + rewrite lookup_insert_ne in Hx by done. right. by eapply H2.
  - intros c x Hx. unfold chunks' in Hx. destruct (decide (c = id)) as [-> | Hne].
    + rewrite lookup_insert_eq in Hx. by simplify_eq.
    + rewrite lookup_insert_ne in Hx by done. by eapply H3.
  - intros cm. rewrite H5. destruct (decide (cm_transfer cm = transfer)) as [He | Hne].
    + rewrite He, lookup_insert_eq. split.
      * intros (t0 & Ht0 & Hcm). exfalso. unfold t in Hc. rewrite Ht0 in Hc. cbn in Hc. congruence.
      * intros (t0 & [= <-] & Hcm). cbn in Hcm. congruence.
    + by rewrite lookup_insert_ne.
Qed.
End Register.

(** ** Validated routes *)

(** The arcs of a route, when all its links are known fabric links. *)
Fixpoint route_arcs (route : list DirectedLinkId) (g : TopologyGraph) : option (list DirectedLink) :=
  match route with
  | [] => Some []
  | l :: rest =>
      match require_fabric_arc l g, route_arcs rest g with
      | Ret arc, Some arcs => Some (arc :: arcs)
      | _, _ => None
      end
  end.

(** The last of a nonempty sequence of arcs. *)
Fixpoint last_arc (first : DirectedLink) (arcs : list DirectedLink) : DirectedLink :=
  match arcs with
  | [] => first
  | arc :: rest => last_arc arc rest
  end.

(** Consecutive arcs meet at one node. *)
Fixpoint contiguous (arcs : list DirectedLink) (g : TopologyGraph) : Prop :=
  match arcs with
  | a :: ((b :: _) as rest) =>
      (exists p q, find_port (arc_destination a) g = Some p /\ find_port (arc_source b) g = Some q /\
                   port_owner p = port_owner q) /\ contiguous rest g
  | _ => True
  end.

Definition port_belongs (port : PortId) (node : option NodeId) (g : TopologyGraph) : Prop :=
  forall n, node = Some n -> exists p, find_port port g = Some p /\ port_owner p = n.

(** What [validate_route] promises of the routes it accepts. *)
Definition route_valid (route : list DirectedLinkId) (source destination : option NodeId)
    (rt : TransportRuntime) (g : TopologyGraph) : Prop :=
  zlength route <= maximum_route_hops (limits_ rt) /\ zlength route <= u32_max /\
  (forall l, l ∈ route -> is_Some (services_ rt !! l)) /\
  exists first arcs, route_arcs route g = Some (first :: arcs) /\ contiguous (first :: arcs) g /\
    port_belongs (arc_source first) source g /\
    port_belongs (arc_destination (last_arc first arcs)) destination g.

Lemma validate_end_iff port expected e g :
  validate_end port expected e g = Ret tt <-> port_belongs port expected g.
Proof.
  unfold validate_end, port_belongs. destruct expected as [n |]; [| split; [by intros _ n [=] | done]].
  destruct (find_port port g) as [p |]; [destruct (bool_decide_reflect (port_owner p = n)) |].
  - split; [| done]. intros _ n' [= <-]. eauto.
  - split; [done |]. intros Hp. destruct (Hp n eq_refl) as (p' & Hp' & Ho). congruence.
  - split; [done |]. intros Hp. by destruct (Hp n eq_refl) as (p' & Hp' & _).
Qed.

Lemma validate_hops_iff first route rt g last :
  validate_hops first route rt g = Ret last <->
  (forall l, l ∈ route -> is_Some (services_ rt !! l)) /\
  exists arcs, route_arcs route g = Some arcs /\ contiguous (first :: arcs) g /\
               last = last_arc first arcs.
Proof.
  revert first. induction route as [| l route IH]; intros first; cbn [validate_hops route_arcs].
  { split.
    - intros [= ->]. split; [intros l Hl; by apply elem_of_nil in Hl |]. by exists [].
    - intros (_ & arcs & [= <-] & _ & ->). done. }
  destruct (require_fabric_arc l g) as [arc | e].
  2: { split; [done |]. intros (_ & arcs & Ha & _). done. }
  unfold find_service, has_value. case_bool_decide as Hs; cbn [negb].
  2: { split; [done |]. intros (Hall & _). exfalso. apply Hs, Hall. left. }
  assert (forall P, (forall l', l' ∈ l :: route -> is_Some (services_ rt !! l')) /\ P <->
    (forall l', l' ∈ route -> is_Some (services_ rt !! l')) /\ P) as Hhead.
  { intros P. split; intros [Hall HP]; (split; [| done]); intros l' Hl'; [apply Hall; by right |].
    apply elem_of_cons in Hl' as [-> | Hl']; [done | by apply Hall]. }
  rewrite Hhead. clear Hhead.
  destruct (find_port (arc_destination first) g) as [p |] eqn:Hp,
    (find_port (arc_source arc) g) as [q |] eqn:Hq.
  1: case_bool_decide as Ho; [rewrite IH |].
  - split; intros (Hall & arcs & Ha & Hrest); (split; [done |]).
    + rewrite Ha. exists (arc :: arcs). destruct Hrest as [Hc ->]. split_and!; [done | | done].
      split; [eauto 6 | done].
    + destruct (route_arcs route g) as [arcs' |]; [| done]. injection Ha as <-. destruct Hrest as [[_ Hc] ->].
      exists arcs'. done.
  - split; [done |]. intros (_ & arcs & Ha & Hc & _). destruct (route_arcs route g); [| done].
    injection Ha as <-. destruct Hc as [(p' & q' & Hp' & Hq' & He) _]. congruence.
  - split; [done |]. intros (_ & arcs & Ha & Hc & _). destruct (route_arcs route g); [| done].
    injection Ha as <-. destruct Hc as [(p' & q' & Hp' & Hq' & He) _]. congruence.
  - split; [done |]. intros (_ & arcs & Ha & Hc & _). destruct (route_arcs route g); [| done].
    injection Ha as <-. destruct Hc as [(p' & q' & Hp' & Hq' & He) _]. congruence.
  - split; [done |]. intros (_ & arcs & Ha & Hc & _). destruct (route_arcs route g); [| done].
    injection Ha as <-. destruct Hc as [(p' & q' & Hp' & Hq' & He) _]. congruence.
Qed.

Lemma validate_capacity_iff count hops rt :
  limits_ok (limits_ rt) -> Z.of_nat (size (chunks_ rt)) <= maximum_chunks (limits_ rt) ->
  0 <= route_entries_ rt <= maximum_route_entries (limits_ rt) -> 0 <= count -> 0 <= hops ->
  validate_capacity count hops rt = Ret tt <->
  hops <= maximum_route_hops (limits_ rt) /\
  Z.of_nat (size (chunks_ rt)) + count <= maximum_chunks (limits_ rt) /\
  route_entries_ rt + count * hops <= maximum_route_entries (limits_ rt).
Proof.
  intros (L1 & L2 & L3) Hsize Hent Hc Hh. unfold validate_capacity.
  rewrite !u64_wrap_id by (unfold u64; lia).
  set (room := maximum_route_entries (limits_ rt) - route_entries_ rt) in *.
  assert (negb (hops =? 0) && (count >? room / hops) = false <-> count * hops <= room) as Hdiv.
  { destruct (Z.eqb_spec hops 0) as [-> | Hne]; cbn [negb andb]; [split; [lia | done] |].
    rewrite Z.gtb_ltb, Z.ltb_ge. split; intros Hle.
    - pose proof (Z.mul_div_le room hops ltac:(lia)). nia.
    - apply Z.div_le_lower_bound; [lia |]. nia. }
  destruct (_ || _) eqn:Hb.
  - split; [done |]. intros (A1 & A2 & A3). exfalso.
    apply orb_true_iff in Hb as [[Hb | Hb]%orb_true_iff | Hb]; [lia | lia |].
    rewrite (proj2 Hdiv) in Hb; [done | unfold room; lia].
  - split; [| done]. intros _. apply orb_false_iff in Hb as [[H1 H2]%orb_false_iff H3].
    apply Hdiv in H3. unfold room in H3. lia.
Qed.

Lemma validate_route_iff route source destination rt g :
  limits_ok (limits_ rt) -> Z.of_nat (size (chunks_ rt)) <= maximum_chunks (limits_ rt) ->
  0 <= route_entries_ rt <= maximum_route_entries (limits_ rt) ->
  validate_route route source destination rt g = Ret tt <->
  route_valid route source destination rt g.
Proof.
  intros L1 L2 L3. unfold validate_route, route_valid.
  assert (0 <= zlength route) as Hlen by (unfold zlength; lia).
  pose proof (validate_capacity_iff 0 (zlength route) rt L1 L2 L3 ltac:(lia) Hlen) as Hcap.
  destruct (validate_capacity 0 (zlength route) rt) as [[] | e].
  2: { split; [done |]. intros (Hh & _). exfalso.
       assert (Throw e = Ret tt) as He by (apply Hcap; lia). done. }
  pose proof (proj1 Hcap eq_refl) as (Hh & _ & _). clear Hcap.
  destruct route as [| front rest]; [split; [done |]; intros (_ & _ & _ & x & y & Hr & _); done |].
  destruct (zlength (front :: rest) >? u32_max) eqn:Hmax; [split; [done |]; intros (_ & ? & _); lia |].
  cbn [route_arcs]. destruct (require_fabric_arc front g) as [first | e].
  2: { split; [done |]. intros (_ & _ & _ & x & y & Hr & _). done. }
  unfold find_service, has_value. case_bool_decide as Hs; cbn [negb].
  2: { split; [done |]. intros (_ & _ & Hall & _). exfalso. apply Hs, Hall. left. }
  destruct (validate_hops first rest rt g) as [last | e] eqn:Hv.
  - apply validate_hops_iff in Hv as (Hall & arcs & Harcs & Hc & ->). rewrite Harcs.
    assert (forall l, l ∈ front :: rest -> is_Some (services_ rt !! l)) as Hall'.
    { intros l [-> | Hl]%elem_of_cons; [done | by apply Hall]. }
    pose proof (validate_end_iff (arc_source first) source
      (invalid_argument "routed transfer source does not match path") g) as He1.
    destruct (validate_end (arc_source first) _ _ _) as [[] |].
    + rewrite validate_end_iff. split.
      * intros Hd. split_and!; [done | lia | done |]. exists first, arcs. split_and!; try done. by apply He1.
      * intros (_ & _ & _ & f & a & [= <- <-] & _ & _ & Hd). done.
    + split; [done |]. intros (_ & _ & _ & f & a & [= <- <-] & _ & Hsrc & _). by apply He1 in Hsrc.
  - split; [done |]. intros (_ & _ & Hall & f & a & Hr & Hc & _). exfalso.
    destruct (route_arcs rest g) as [arcs |] eqn:Harcs; [| done]. injection Hr as <- <-.
    assert (validate_hops first rest rt g = Ret (last_arc first arcs)) as Hv'.
    { apply validate_hops_iff. split; [intros l Hl; apply Hall; by right | eauto]. }
    congruence.
Qed.

(** ** Registration *)

Definition joined (rc : RoutedChunk) (rt : TransportRuntime) : TransferRecord :=
  default new_transfer_record (transfers_ rt !! chunk_transfer (rc_chunk rc)).

(** When [register_chunk] accepts, and the runtime it leaves. *)
Record acceptable (rc : RoutedChunk) (rt : TransportRuntime) (g : TopologyGraph) : Prop := {
  ac_bytes : chunk_bytes (rc_chunk rc) <> 0;
  ac_hop : chunk_hop_index (rc_chunk rc) = 0;
  ac_route : validate_route (rc_route rc) None None rt g = Ret tt;
  ac_capacity : validate_capacity 1 (zlength (rc_route rc)) rt = Ret tt;
  ac_timing : validate_timing (chunk_bytes (rc_chunk rc)) (rc_route rc) 0 rt = Ret tt;
  ac_fresh : chunks_ rt !! chunk_id (rc_chunk rc) = None;
  ac_open : tf_started_at (joined rc rt) = None;
  ac_total : exists total, add_traffic (tf_total (joined rc rt))
    (mkTrafficCount (chunk_bytes (rc_chunk rc)) 1) = Ret total;
}.

Definition registered (rc : RoutedChunk) (rt : TransportRuntime) : TransportRuntime :=
  let id := chunk_id (rc_chunk rc) in
  let transfer := chunk_transfer (rc_chunk rc) in
  let t := joined rc rt in
  {| rt with
     chunks_ := <[id := mkChunkRecord (rc_chunk rc) (rc_route rc) CT_Registered 0 None]> (chunks_ rt);
     transfers_ := <[transfer := {| t with tf_chunks := tf_chunks t ++ [id];
                      tf_total := tf_total t ⊕ mkTrafficCount (chunk_bytes (rc_chunk rc)) 1 |}]> (transfers_ rt);
     route_entries_ := route_entries_ rt + zlength (rc_route rc);
     transfer_ids_ := SequentialTransportIdGenerator.advance_past transfer (transfer_ids_ rt);
     chunk_ids_ := SequentialTransportIdGenerator.advance_past id (chunk_ids_ rt) |}.

(** Machine-width inputs. *)
Definition chunk_words (c : TransferChunk) : Prop :=
  u64 (chunk_id c) /\ u64 (chunk_transfer c) /\ u64 (chunk_bytes c).

Lemma joined_total_ok rc rt taken :
  runtime_ok rt no_extra taken -> traffic_ok (tf_total (joined rc rt)).
Proof.
  intros Hrt. unfold joined. destruct (transfers_ rt !! _) as [t |] eqn:Ht.
  - apply (tk_total_ok _ _ _ (to_each _ _ _ (ro_transfers _ _ _ Hrt) _ _ Ht)).
  - by split.
Qed.

Lemma acceptable_facts rc rt g taken :
  runtime_ok rt no_extra taken -> acceptable rc rt g -> u64 (chunk_bytes (rc_chunk rc)) ->
  let len := zlength (rc_route rc) in
  len <= u32_max /\ (forall l, l ∈ rc_route rc -> is_Some (services_ rt !! l)) /\
  Z.of_nat (size (chunks_ rt)) + 1 <= maximum_chunks (limits_ rt) /\
  route_entries_ rt + len <= maximum_route_entries (limits_ rt) /\
  add_traffic (tf_total (joined rc rt)) (mkTrafficCount (chunk_bytes (rc_chunk rc)) 1) =
    Ret (tf_total (joined rc rt) ⊕ mkTrafficCount (chunk_bytes (rc_chunk rc)) 1) /\
  traffic_ok (tf_total (joined rc rt) ⊕ mkTrafficCount (chunk_bytes (rc_chunk rc)) 1).
Proof.
  intros Hrt Hac Hb len. destruct (ro_bounded _ _ _ Hrt) as [B1 B2]. pose proof (ro_limits _ _ _ Hrt) as HL.
  pose proof (ac_route _ _ _ Hac) as Hroute. apply validate_route_iff in Hroute as (_ & R2 & R3 & _); try done.
  pose proof (ac_capacity _ _ _ Hac) as Hcap.
  apply validate_capacity_iff in Hcap as (_ & C2 & C3); try done; [| unfold zlength; lia].
  destruct (ac_total _ _ _ Hac) as [total Htot]. pose proof Htot as Htot'.
  apply add_traffic_Ret in Htot' as [-> Hok]; [| by eapply joined_total_ok | unfold traffic_le, u64 in *; cbn; lia].
  split_and!; try done. lia.
Qed.

Lemma registered_ok rc rt g taken :
  runtime_ok rt no_extra taken -> acceptable rc rt g -> chunk_words (rc_chunk rc) ->
  runtime_ok (registered rc rt) no_extra taken.
Proof.
  intros Hrt Hac (W1 & W2 & W3).
  destruct (acceptable_facts rc rt g taken Hrt Hac W3) as (F1 & F2 & F3 & F4 & F5 & F6).
  pose proof Hrt as [H1 H2 H3 H4 [H5 H5'] [H6 H6'] H7 [H8 H9]].
  pose proof (ac_bytes _ _ _ Hac) as Hb. pose proof (ac_fresh _ _ _ Hac) as Hf.
  assert (0 <= zlength (rc_route rc)) as Hlen by (unfold zlength; lia).
  destruct (advance_past_frontier (chunk_transfer (rc_chunk rc)) (transfer_ids_ rt) H5 W2) as [G1 G2].
  destruct (advance_past_frontier (chunk_id (rc_chunk rc)) (chunk_ids_ rt) H6 W1) as [G3 G4].
  unfold registered. cbv zeta. split; rt_goal; try done.
  - intros id r. destruct (decide (id = chunk_id (rc_chunk rc))) as [-> | Hne].
    + rewrite lookup_insert_eq. intros [= <-]. split; cbn; try done; try lia.
    + rewrite lookup_insert_ne by done. apply H2.
  - eapply (queues_outside _ (held_of (services_ rt) no_extra)); try done.
    intros r Hr. rewrite Hf in Hr. done.
  - apply (register_transfers (chunks_ rt) (chunk_id (rc_chunk rc))
      (mkChunkRecord (rc_chunk rc) (rc_route rc) CT_Registered 0 None) Hf eq_refl); try done;
      [| apply Hac]. cbn. split; [unfold u64 in W3; lia | done].
  - split; [done |]. intros i x Hx. rewrite G2. unfold u64 in W2.
    destruct (decide (i = chunk_transfer (rc_chunk rc))) as [-> | Hne]; [lia |].
    rewrite lookup_insert_ne in Hx by done. specialize (H5' i x Hx). lia.
  - split; [done |]. intros i x Hx. rewrite G4. unfold u64 in W1.
    destruct (decide (i = chunk_id (rc_chunk rc))) as [-> | Hne]; [lia |].
    rewrite lookup_insert_ne in Hx by done. specialize (H6' i x Hx). lia.
  - rewrite map_size_insert_None by done. lia.
Qed.

Section Registration.
Context {C : Type} `{SimContext C}.
Implicit Types (t : Transport C).

Lemma run_check {A B} f (k : A -> M (Transport C) B) t :
  bind (check f) k t =
  match f (tp_runtime t) (tp_topology t) with Ret a => k a t | Throw e => (t, Throw e) end.
Proof. unfold bind, check. by destruct (f _ _). Qed.

(** [register_chunk] accepts exactly the acceptable chunks; otherwise it leaves
    everything as it was. *)
Lemma register_chunk_run rc t taken :
  runtime_ok (tp_runtime t) no_extra taken -> u64 (chunk_bytes (rc_chunk rc)) ->
  match register_chunk rc t with
  | (t', Ret _) => acceptable rc (tp_runtime t) (tp_topology t) /\
      t' = {| t with tp_runtime := registered rc (tp_runtime t) |}
  | (t', Throw _) => ~ acceptable rc (tp_runtime t) (tp_topology t) /\ t' = t
  end.
Proof.
  intros Hrt Hb. unfold register_chunk. cbv zeta.
  rewrite run_throw_if. destruct (Z.eqb_spec (chunk_bytes (rc_chunk rc)) 0) as [Hz | Hz].
  { split; [| done]. intros Hac. by apply (ac_bytes _ _ _ Hac). }
  rewrite run_throw_if. destruct (Z.eqb_spec (chunk_hop_index (rc_chunk rc)) 0) as [Hh | Hh]; cbn [negb].
  2: { split; [| done]. intros Hac. by apply Hh, (ac_hop _ _ _ Hac). }
  rewrite run_check. destruct (validate_route _ _ _ _ _) as [[] | e] eqn:Hroute.
  2: { split; [| done]. intros Hac. pose proof (ac_route _ _ _ Hac). congruence. }
  rewrite run_check. destruct (validate_capacity _ _ _) as [[] | e] eqn:Hcap.
  2: { split; [| done]. intros Hac. pose proof (ac_capacity _ _ _ Hac). congruence. }
  rewrite run_check. destruct (validate_timing _ _ _ _) as [[] | e] eqn:Htime.
  2: { split; [| done]. intros Hac. pose proof (ac_timing _ _ _ Hac). congruence. }
  rewrite run_gets, run_throw_if. unfold has_value at 1. set (rt := tp_runtime t) in *.
  case_bool_decide as Hdup.
  { split; [| done]. intros Hac. rewrite (ac_fresh _ _ _ Hac) in Hdup. by destruct Hdup. }
  rewrite run_throw_if.
  assert (match transfers_ rt !! chunk_transfer (rc_chunk rc) with
          | Some x => has_value (tf_started_at x) | None => false end =
          has_value (tf_started_at (joined rc rt))) as -> by (unfold joined; by destruct (transfers_ rt !! _)).
  unfold has_value. case_bool_decide as Hs.
  { split; [| done]. intros Hac. rewrite (ac_open _ _ _ Hac) in Hs. by destruct Hs. }
  assert (match transfers_ rt !! chunk_transfer (rc_chunk rc) with
          | Some x => tf_total x | None => no_traffic end = tf_total (joined rc rt)) as ->
    by (unfold joined; by destruct (transfers_ rt !! _)).
  rewrite run_of_outcome. destruct (add_traffic _ _) as [total | e] eqn:Htot.
  2: { split; [| done]. intros Hac. destruct (ac_total _ _ _ Hac) as [x Hx]. unfold rt in *. congruence. }
  assert (acceptable rc rt (tp_topology t)) as Hac.
  { split; try done; [by apply eq_None_not_Some | by apply eq_None_not_Some | eauto]. }
  destruct (acceptable_facts rc rt _ taken Hrt Hac Hb) as (_ & _ & _ & F4 & F5 & _).
  assert (total = tf_total (joined rc rt) ⊕ mkTrafficCount (chunk_bytes (rc_chunk rc)) 1) as -> by congruence.
  unfold modify_runtime, modify. split; [done |]. fold rt. unfold registered, joined. cbv zeta.
  destruct (ro_bounded _ _ _ Hrt) as [_ B2]. destruct (ro_limits _ _ _ Hrt) as (_ & L2 & _).
  rewrite u64_wrap_id; [done |]. unfold u64. unfold zlength in *. lia.
Qed.

(** ** The first arrival *)

Lemma start_transfer_ok chunks transfers log id x now :
  transfers_ok chunks transfers log -> transfers !! id = Some x ->
  transfers_ok chunks (<[id := {| x with tf_started_at := Some now |}]> transfers) log.
Proof.
  intros [H1 H2 H3 H4 H5] Hx. split; try done.
  - intros i y. destruct (decide (i = id)) as [-> | Hne].
    + rewrite lookup_insert_eq. intros [= <-]. destruct (H1 id x Hx). by split.
    + rewrite lookup_insert_ne by done. apply H1.
  - intros c r Hr. apply lookup_insert_is_Some'. right. by eapply H2.
  - intros cm. rewrite H5. destruct (decide (cm_transfer cm = id)) as [He | Hne].
    + rewrite He, lookup_insert_eq. split; intros (y & Hy & Hc).
      * rewrite Hx in Hy. injection Hy as <-. eexists. split; [reflexivity | done].
      * injection Hy as <-. eauto.
    + by rewrite lookup_insert_ne.
Qed.

Lemma schedule_initial_arrival_spec taken key t :
  runtime_ok (tp_runtime t) no_extra taken ->
  returns (schedule_initial_arrival key) (fun t' _ => step_good taken t t') t.
Proof.
  destruct t as [rt g c]. intros Hrt. unfold schedule_initial_arrival.
  apply returns_bind, returns_require_chunk. intros r Hr. cbn in Hr. apply returns_throw_if.
  intros Hst%negb_false_iff%bool_decide_eq_true. apply returns_gets. apply returns_check. intros [] _.
  apply returns_frame_bind; [auto with nexus |]. intros b c1 event. rt_goal.
  apply returns_bind, returns_put_chunk. rt_goal. cbv zeta.
  apply returns_bind. unfold returns at 1, transfer_at. apply wp_bind, wp_gets, wp_of_option; [| done].
  rt_goal. intros x Hx. set (r' := mkChunkRecord _ _ _ _ _).
  pose proof (ro_record _ _ _ Hrt _ _ Hr) as [A1 A2 A3 A4 A5]. rewrite Hst in *.
  pose proof (qo_ids _ _ (ro_queues _ _ _ Hrt) _ _ Hr) as Hkey.
  assert (same_chunk r r') as Hsame by done.
  assert (chunks_advance (chunks_ rt) (<[key := r']> (chunks_ rt))) as Hadv.
  { apply (chunks_advance_insert _ key r); [done |]. split_and!; try done. by rewrite Hst. }
  assert (record_ok (services_ rt) r') as Hrec by (split; cbn; (done || eauto)).
  assert (queues_ok (<[key := r']> (chunks_ rt)) (held_of (services_ rt) no_extra)) as Hqs.
  { apply (queues_outside _ (held_of (services_ rt) no_extra)); try done; [apply Hrt |].
    intros y Hy. simplify_eq. by rewrite Hst. }
  assert (forall transfers,
    transfers_ok (chunks_ rt) transfers (taken ++ completions_ rt) ->
    (forall y, transfers !! chunk_transfer (cr_chunk r) = Some y -> tf_started_at y <> None) ->
    (forall i y, transfers !! i = Some y -> is_Some (transfers_ rt !! i)) ->
    runtime_ok (let rt' := with_chunk key r' (services_ rt) rt in
                {| rt' with transfers_ := transfers; completions_ := completions_ rt |}) no_extra taken) as Hok.
  { intros transfers Htr Hstarted Hknown.
    apply (one_chunk_ok rt no_extra no_extra taken key r r' (services_ rt)); try done;
      [by eapply services_like_refl |].
    apply (update_transfers (chunks_ rt) key r r'); try done; [by rewrite Hst |].
    intros y Hy Hs. by destruct (Hstarted y Hy). }
  apply returns_bind. apply wp_when; intros Hs.
  - apply wp_bind, wp_gets, wp_bind, wp_modify. rt_goal.
    eapply returns_frame; [unfold telemetry_enabled; frame_auto; auto with nexus |].
    intros [rt2 g2 c2] [] [Htop Hcore]. cbn in Htop, Hcore. subst g2. apply wp_ret.
    unfold same_core in Hcore. rewrite Hcore. split; [| done]. cbn [tp_runtime].
    eapply runtime_ok_core; [| apply (Hok (<[chunk_transfer (cr_chunk r) :=
      {| x with tf_started_at := Some (ctx_now c1) |}]> (transfers_ rt)))]; [done | | |].
    + apply start_transfer_ok; [apply Hrt | done].
    + intros y Hy. rewrite lookup_insert_eq in Hy. by simplify_eq.
    + intros i y Hy. by eapply insert_known.
  - apply wp_ret. split; [| done]. cbn [tp_runtime].
    eapply runtime_ok_core; [| apply (Hok (transfers_ rt))]; [done | apply Hrt | | eauto].
    intros y Hy. rewrite Hx in Hy. injection Hy as <-. intros Hnone. unfold has_value in Hs.
    rewrite Hnone in Hs. done.
Qed.
End Registration.

(** ** Cutting a transfer *)

(** The sizes [register_chunks] uses. *)
Fixpoint chunk_sizes (count full : nat) (maximum remainder : Z) : list Z :=
  match count with
  | O => []
  | S count =>
      match full with O => remainder | S _ => maximum end :: chunk_sizes count (pred full) maximum remainder
  end.

Lemma chunk_sizes_exact bytes maximum :
  0 < bytes -> 0 < maximum ->
  let full := bytes / maximum in
  let remainder := bytes mod maximum in
  let count := full + Z.b2z (negb (remainder =? 0)) in
  chunk_sizes (Z.to_nat count) (Z.to_nat full) maximum remainder =
    replicate (Z.to_nat full) maximum ++ (if remainder =? 0 then [] else [remainder]) /\
  sumZ (chunk_sizes (Z.to_nat count) (Z.to_nat full) maximum remainder) = bytes.
Proof.
  intros Hb Hm full remainder count.
  pose proof (Z.div_mod bytes maximum ltac:(lia)) as Hdm. fold full remainder in Hdm.
  pose proof (Z.mod_pos_bound bytes maximum Hm) as Hr. fold remainder in Hr.
  assert (0 <= full) as Hf by (apply Z.div_pos; lia).
  assert (forall n k, chunk_sizes (n + k) n maximum remainder = replicate n maximum ++ replicate k remainder) as Hgen.
  { induction n as [| n IH]; intros k.
    - cbn [Nat.add replicate app]. induction k as [| k IHk]; [done |].
      change (chunk_sizes (S k) 0 maximum remainder) with (remainder :: chunk_sizes k 0 maximum remainder).
      by rewrite IHk.
    - cbn [Nat.add chunk_sizes pred replicate app]. by rewrite IH. }
  assert (chunk_sizes (Z.to_nat count) (Z.to_nat full) maximum remainder =
    replicate (Z.to_nat full) maximum ++ (if remainder =? 0 then [] else [remainder])) as Hs.
  { unfold count. destruct (remainder =? 0); cbn [negb Z.b2z].
    - rewrite Z.add_0_r. replace (Z.to_nat full) with (Z.to_nat full + 0)%nat at 1 by lia. apply Hgen.
    - rewrite Z2Nat.inj_add by lia. apply (Hgen _ 1%nat). }
  split; [done |]. rewrite Hs, sumZ_app, sumZ_replicate, Z2Nat.id by done.
  destruct (Z.eqb_spec remainder 0); cbn [sumZ foldr]; lia.
Qed.

(** Only the services matter. *)
Lemma validate_timing_services bytes route now rt rt' :
  services_ rt' = services_ rt -> validate_timing bytes route now rt' = validate_timing bytes route now rt.
Proof.
  intros He. revert now. induction route as [| l route IH]; intros now; [done |].
  cbn [validate_timing]. unfold find_service. rewrite He. destruct (services_ rt !! l); [| done].
  destruct (serialization_delay _ _); [| done]. destruct (checked_add now _); [| done].
  by destruct (checked_add _ _).
Qed.

(** A later start is the harder one. *)
Lemma validate_timing_earlier bytes route now now' rt :
  (forall l s, services_ rt !! l = Some s -> service_queue_ok l s) -> u64 bytes ->
  0 <= now' <= now -> u64 now ->
  validate_timing bytes route now rt = Ret tt -> validate_timing bytes route now' rt = Ret tt.
Proof.
  intros Hsvc Hb. revert now now'. induction route as [| l route IH]; intros now now' Hle Hu; [done |].
  cbn [validate_timing]. unfold find_service. destruct (services_ rt !! l) as [s |] eqn:Hs; [| done].
  destruct (Hsvc l s Hs) as [Hq _]. destruct (lq_configuration _ Hq) as (_ & Hbw & Hp & _).
  destruct (serialization_delay _ _) as [d |] eqn:Hd; [| done].
  apply serialization_delay_u64 in Hd; [| done | done].
  destruct (checked_add now d) as [n1 |] eqn:H1; [| done].
  apply checked_add_Some in H1 as [-> B1]; [| done | done].
  destruct (checked_add (now + d) _) as [n2 |] eqn:H2; [| done].
  apply checked_add_Some in H2 as [-> B2]; [| unfold u64 in *; lia | done].
  assert (checked_add now' d = Some (now' + d)) as ->.
  { apply checked_add_Some; unfold u64 in *; lia. }
  assert (checked_add (now' + d) (cfg_propagation_delay (configuration_ (queue_ s))) =
          Some (now' + d + cfg_propagation_delay (configuration_ (queue_ s)))) as ->.
  { apply checked_add_Some; unfold u64 in *; lia. }
  intros Hrest. eapply IH; [| | exact Hrest]; unfold u64 in *; lia.
Qed.

Section Submission.
Context {C : Type} `{SimContext C}.
Implicit Types (t : Transport C).

(** What is left to register of a transfer [T], and that it can be. *)
Record registrable (T : TransferId) (route : list DirectedLinkId) (sizes : list Z) t : Prop := {
  rg_transfer : u64 T /\ T < frontier (transfer_ids_ (tp_runtime t));
  rg_ids : zlength sizes <= remaining (chunk_ids_ (tp_runtime t));
  rg_route : route_valid route None None (tp_runtime t) (tp_topology t);
  rg_chunks : Z.of_nat (size (chunks_ (tp_runtime t))) + zlength sizes <=
    maximum_chunks (limits_ (tp_runtime t));
  rg_entries : route_entries_ (tp_runtime t) + zlength sizes * zlength route <=
    maximum_route_entries (limits_ (tp_runtime t));
  rg_sizes : Forall (fun b => 0 < b /\ validate_timing b route 0 (tp_runtime t) = Ret tt) sizes;
  rg_open : forall x, transfers_ (tp_runtime t) !! T = Some x -> tf_started_at x = None;
  rg_total : let total := tf_total (default new_transfer_record (transfers_ (tp_runtime t) !! T)) in
    tc_bytes total + sumZ sizes <= u64_max /\ tc_chunks total + zlength sizes <= u64_max;
}.

Definition with_runtime (f : TransportRuntime -> TransportRuntime) t : Transport C :=
  {| t with tp_runtime := f (tp_runtime t) |}.

Lemma next_chunk_id_run t :
  generator_ok (chunk_ids_ (tp_runtime t)) -> 1 <= remaining (chunk_ids_ (tp_runtime t)) ->
  exists i, next_chunk_id t = (with_runtime (fun rt => {| rt with chunk_ids_ := i |}) t,
                               Ret (frontier (chunk_ids_ (tp_runtime t)))) /\
    generator_ok i /\ frontier i = frontier (chunk_ids_ (tp_runtime t)) + 1.
Proof.
  intros Hok Hr. unfold next_chunk_id, zoom. set (gen := chunk_ids_ (tp_runtime t)) in *.
  assert (exhausted_ gen = false) as He.
  { destruct (exhausted_ gen) eqn:E; [| done]. unfold remaining in Hr. rewrite E in Hr. lia. }
  destruct (next_issues (next := SequentialTransportIdGenerator.next) gen Hok He) as (i & Hi & Hoki & Hf).
  rewrite Hi. exists i. by rewrite (frontier_next_value _ He).
Qed.

Lemma runtime_ok_chunk_ids rt taken i :
  runtime_ok rt no_extra taken -> generator_ok i -> frontier (chunk_ids_ rt) <= frontier i ->
  runtime_ok {| rt with chunk_ids_ := i |} no_extra taken.
Proof.
  intros [H1 H2 H3 H4 H5 [H6 H6'] H7 H8] Hi Hf. split; try done. split; [done |].
  intros id x Hx. cbn in *. specialize (H6' id x Hx). lia.
Qed.

Lemma runtime_ok_transfer_ids rt taken i :
  runtime_ok rt no_extra taken -> generator_ok i -> frontier (transfer_ids_ rt) <= frontier i ->
  runtime_ok {| rt with transfer_ids_ := i |} no_extra taken.
Proof.
  intros [H1 H2 H3 H4 [H5 H5'] H6 H7 H8] Hi Hf. split; try done. split; [done |].
  intros id x Hx. cbn in *. specialize (H5' id x Hx). lia.
Qed.

(** Registering one chunk of the transfer leaves the rest registrable. *)
Lemma register_one T route b sizes taken t :
  runtime_ok (tp_runtime t) no_extra taken -> registrable T route (b :: sizes) t ->
  exists t', (let! chunk := next_chunk_id in
              do! register_chunk (mkRoutedChunk (mkTransferChunk T chunk b 0 false) route) in
              ret chunk) t = (t', Ret (frontier (chunk_ids_ (tp_runtime t)))) /\
    runtime_ok (tp_runtime t') no_extra taken /\ registrable T route sizes t' /\
    tp_topology t' = tp_topology t /\ tp_context t' = tp_context t /\
    frontier (chunk_ids_ (tp_runtime t')) = frontier (chunk_ids_ (tp_runtime t)) + 1 /\
    chunks_advance (chunks_ (tp_runtime t)) (chunks_ (tp_runtime t')) /\
    exists x, transfers_ (tp_runtime t') !! T = Some x /\
      tf_total x = tf_total (default new_transfer_record (transfers_ (tp_runtime t) !! T))
                   ⊕ mkTrafficCount b 1.
Proof.
  intros Hrt [[G1 G2] G3 G4 G5 G6 G7 G8 G9]. pose proof (ro_chunk_ids _ _ _ Hrt) as [Hgen Hfresh].
  assert (zlength (b :: sizes) = 1 + zlength sizes) as Hlen by (unfold zlength; cbn [length]; lia).
  assert (0 <= zlength sizes) as Hlen0 by (unfold zlength; lia). assert (0 <= zlength route) by (unfold zlength; lia).
  apply Forall_cons in G7 as [[Hb Htime] Hsizes]. cbn [sumZ foldr] in G9. fold (sumZ sizes) in G9.
  assert (0 <= sumZ sizes) as Hsum.
  { apply sumZ_nonneg. eapply Forall_impl; [exact Hsizes |]. intros x [Hx _]. lia. }
  destruct (next_chunk_id_run t Hgen ltac:(lia)) as (i & Hi & Hoki & Hfi).
  set (id := frontier (chunk_ids_ (tp_runtime t))) in *.
  assert (u64 id) as Hid by (apply frontier_u64; [done | lia]).
  set (rc := mkRoutedChunk (mkTransferChunk T id b 0 false) route).
  set (t1 := with_runtime _ t) in Hi.
  assert (runtime_ok (tp_runtime t1) no_extra taken) as Hrt1 by (apply runtime_ok_chunk_ids; [done | done | lia]).
  assert (traffic_ok (tf_total (joined rc (tp_runtime t)))) as Htok by (by eapply joined_total_ok).
  assert (u64 b) as Hbu by (destruct Htok; cbn in *; unfold joined in *; cbn in *; unfold u64 in *; lia).
  assert (acceptable rc (tp_runtime t1) (tp_topology t1)) as Hac.
  { destruct (ro_bounded _ _ _ Hrt1) as [B1 B2]. pose proof (ro_limits _ _ _ Hrt1) as HL. split; try done.
    - cbn. lia.
    - by apply validate_route_iff.
    - apply validate_capacity_iff; try done. destruct G4 as (R1 & _). cbn in *. split_and!; nia.
    - by rewrite (validate_timing_services _ _ _ (tp_runtime t)).
    - apply eq_None_not_Some. intros [x Hx]. specialize (Hfresh id x Hx). lia.
    - unfold joined. cbn. destruct (transfers_ (tp_runtime t) !! T) eqn:HT; [by apply G8 | done].
    - eexists. apply add_traffic_exact; [by destruct Htok as [[? ?] [? ?]] | split; cbn; lia |].
      destruct Htok as [[? ?] [? ?]]. unfold joined in *. cbn in *. split; cbn; unfold u64; lia. }
  pose proof (register_chunk_run rc t1 taken Hrt1 Hbu) as Hrun.
  destruct (register_chunk rc t1) as [t2 [[] | e]] eqn:Hr2; [| by destruct Hrun].
  destruct Hrun as [_ ->]. exists (with_runtime (registered rc) t1).
  assert (runtime_ok (registered rc (tp_runtime t1)) no_extra taken) as Hrt2 by (by eapply registered_ok).
  destruct (advance_past_frontier T (transfer_ids_ (tp_runtime t))) as [_ F1];
    [apply Hrt | done |].
  destruct (advance_past_frontier id i Hoki Hid) as [_ F2].
  split_and!; try done.
  - erewrite run_bind_Ret by exact Hi. fold rc. erewrite run_bind_Ret by exact Hr2. done.
  - split; cbn; rewrite ?lookup_insert_eq; try done.
    + split; [done | rewrite F1; lia].
    + rewrite remaining_frontier in *. rewrite F2. fold id in G3. lia.
    + rewrite map_size_insert_None by apply Hac. lia.
    + lia.
    + eapply Forall_impl; [exact Hsizes |]. intros x [Hx Hv]. split; [done |].
      by rewrite (validate_timing_services _ _ _ (tp_runtime t)).
    + intros x [= <-]. cbn. apply Hac.
    + unfold joined. cbn. lia.
  - cbn. rewrite F2. lia.
  - cbn. intros k x Hx. exists x. split; [| reflexivity]. rewrite lookup_insert_ne; [done |].
    intros <-. pose proof (ac_fresh _ _ _ Hac) as Hf. cbn in Hf. congruence.
  - eexists. split; [apply lookup_insert_eq |]. done.
Qed.

Lemma register_chunks_run T request remainder count full taken t :
  let sizes := chunk_sizes count full (tr_maximum_chunk_bytes request) remainder in
  runtime_ok (tp_runtime t) no_extra taken -> registrable T (tr_route request) sizes t ->
  exists t' chunks, register_chunks count full T request remainder t = (t', Ret chunks) /\
    runtime_ok (tp_runtime t') no_extra taken /\
    sc_bytes <$> chunks = sizes /\
    sc_id <$> chunks = seqZ (frontier (chunk_ids_ (tp_runtime t))) (Z.of_nat count) /\
    tp_topology t' = tp_topology t /\ tp_context t' = tp_context t /\
    chunks_advance (chunks_ (tp_runtime t)) (chunks_ (tp_runtime t')) /\
    tf_total (default new_transfer_record (transfers_ (tp_runtime t') !! T)) =
      tf_total (default new_transfer_record (transfers_ (tp_runtime t) !! T))
      ⊕ mkTrafficCount (sumZ sizes) (Z.of_nat count).
Proof.
  revert full t. induction count as [| count IH]; intros full t sizes Hrt Hreg.
  { exists t, []. split_and!; try done. by rewrite plus_traffic_0_r. }
  cbn [chunk_sizes] in sizes. set (b := match full with O => _ | S _ => _ end) in *.
  destruct (register_one T (tr_route request) b _ taken t Hrt Hreg)
    as (t1 & Hrun & Hrt1 & Hreg1 & E1 & E2 & E3 & Hadv1 & x & Hx & Htot1).
  destruct (IH (pred full) t1 Hrt1 Hreg1)
    as (t2 & chunks & Hrun2 & Hrt2 & Hb & Hids & E4 & E5 & Hadv2 & Htot2).
  exists t2, (mkSubmittedChunk (frontier (chunk_ids_ (tp_runtime t))) b :: chunks). split_and!; try done.
  - cbn [register_chunks]. fold b. erewrite run_after by exact Hrun.
    by erewrite run_bind_Ret by exact Hrun2.
  - rewrite fmap_cons, Hb. done.
  - rewrite fmap_cons, Hids, E3, (seqZ_cons (frontier (chunk_ids_ (tp_runtime t)))) by lia. cbn [sc_id].
    f_equal. f_equal; lia.
  - congruence.
  - congruence.
  - by etrans.
  - rewrite Htot2, Hx. cbn [default from_option id]. rewrite Htot1.
    change (sumZ sizes) with (b + sumZ (chunk_sizes count (pred full) (tr_maximum_chunk_bytes request) remainder)).
    unfold plus_traffic. cbn [tc_bytes tc_chunks]. f_equal; lia.
Qed.

Lemma next_transfer_id_run t :
  generator_ok (transfer_ids_ (tp_runtime t)) -> 1 <= remaining (transfer_ids_ (tp_runtime t)) ->
  exists i, next_transfer_id t = (with_runtime (fun rt => {| rt with transfer_ids_ := i |}) t,
                                  Ret (frontier (transfer_ids_ (tp_runtime t)))) /\
    generator_ok i /\ frontier i = frontier (transfer_ids_ (tp_runtime t)) + 1.
Proof.
  intros Hok Hr. unfold next_transfer_id, zoom. set (gen := transfer_ids_ (tp_runtime t)) in *.
  assert (exhausted_ gen = false) as He.
  { destruct (exhausted_ gen) eqn:E; [| done]. unfold remaining in Hr. rewrite E in Hr. lia. }
  destruct (next_issues (next := SequentialTransportIdGenerator.next) gen Hok He) as (i & Hi & Hoki & Hf).
  rewrite Hi. exists i. by rewrite (frontier_next_value _ He).
Qed.

Lemma run_when_check {B} b f (k : unit -> M (Transport C) B) t :
  bind (when b (check f)) k t =
  if b then match f (tp_runtime t) (tp_topology t) with Ret a => k a t | Throw e => (t, Throw e) end
  else k tt t.
Proof. destruct b; [apply run_check | done]. Qed.

(** The size list of a request, and its number of chunks. *)
Definition request_sizes (request : TransferRequest) : list Z :=
  let full := tr_bytes request / tr_maximum_chunk_bytes request in
  let remainder := tr_bytes request mod tr_maximum_chunk_bytes request in
  replicate (Z.to_nat full) (tr_maximum_chunk_bytes request) ++
  (if remainder =? 0 then [] else [remainder]).

(** Past the checks, the whole transfer is registrable. *)
Lemma submit_registrable taken request t i :
  let full := tr_bytes request / tr_maximum_chunk_bytes request in
  let remainder := tr_bytes request mod tr_maximum_chunk_bytes request in
  let count := full + Z.b2z (negb (remainder =? 0)) in
  let T := frontier (transfer_ids_ (tp_runtime t)) in
  runtime_ok (tp_runtime t) no_extra taken -> u64 (ctx_now (tp_context t)) ->
  u64 (tr_bytes request) -> 0 < tr_bytes request -> 0 < tr_maximum_chunk_bytes request ->
  u64 (tr_maximum_chunk_bytes request) ->
  route_valid (tr_route request) (Some (tr_source request)) (Some (tr_destination request))
    (tp_runtime t) (tp_topology t) ->
  1 <= remaining (transfer_ids_ (tp_runtime t)) -> count <= remaining (chunk_ids_ (tp_runtime t)) ->
  validate_capacity count (zlength (tr_route request)) (tp_runtime t) = Ret tt ->
  (full <> 0 -> validate_timing (tr_maximum_chunk_bytes request) (tr_route request)
     (ctx_now (tp_context t)) (tp_runtime t) = Ret tt) ->
  (remainder <> 0 -> validate_timing remainder (tr_route request) (ctx_now (tp_context t))
     (tp_runtime t) = Ret tt) ->
  generator_ok i -> frontier i = T + 1 ->
  registrable T (tr_route request) (request_sizes request)
    (with_runtime (fun rt => {| rt with transfer_ids_ := i |}) t).
Proof.
  intros full remainder count T Hrt Hnow Hb Hb0 Hm0 Hm Hroute Hr1 Hr2 Hcap Ht1 Ht2 Hi Hfi.
  destruct (chunk_sizes_exact _ _ Hb0 Hm0) as [Hs1 Hs2]. rewrite Hs1 in Hs2.
  pose proof (Z.mod_pos_bound (tr_bytes request) _ Hm0) as Hrb. fold remainder in Hrb.
  assert (0 <= full) as Hf0 by (apply Z.div_pos; lia).
  assert (zlength (request_sizes request) = count) as Hlen.
  { unfold zlength, request_sizes, count. fold full remainder. rewrite length_app, length_replicate.
    destruct (remainder =? 0); cbn [length negb Z.b2z]; lia. }
  assert (0 <= count) as Hc0 by (unfold count; destruct (negb _); cbn; lia).
  destruct (ro_bounded _ _ _ Hrt) as [B1 B2]. pose proof (ro_limits _ _ _ Hrt) as HL.
  apply validate_capacity_iff in Hcap as (C1 & C2 & C3); try done; [| unfold zlength; lia].
  assert (transfers_ (tp_runtime t) !! T = None) as HT.
  { apply eq_None_not_Some. intros [x Hx]. destruct (ro_transfer_ids _ _ _ Hrt) as [_ Hf].
    specialize (Hf T x Hx). lia. }
  destruct Hroute as (R1 & R2 & R3 & first & arcs & R4 & R5 & _ & _).
  split; cbn; rewrite ?HT, ?Hlen; try done.
  - split; [apply frontier_u64; [apply Hrt | done] | lia].
  - split_and!; try done. exists first, arcs. by split_and!.
  - assert (forall b, u64 b -> validate_timing b (tr_route request) (ctx_now (tp_context t)) (tp_runtime t) = Ret tt ->
      validate_timing b (tr_route request) 0 {| (tp_runtime t) with transfer_ids_ := i |} = Ret tt) as Htime.
    { intros b Hbu Hv. rewrite (validate_timing_services _ _ _ (tp_runtime t)) by done.
      eapply validate_timing_earlier; [apply Hrt | done | | exact Hnow | exact Hv]. unfold u64 in Hnow. lia. }
    apply Forall_app. split.
    + destruct (decide (full = 0)) as [Hz | Hnz]; [unfold full in Hz; rewrite Hz; constructor |].
      apply Forall_replicate. split; [lia |]. by apply Htime, Ht1.
    + fold remainder. destruct (Z.eqb_spec remainder 0) as [Hz | Hnz]; [constructor |].
      apply Forall_singleton. split; [lia |]. apply Htime; [unfold u64 in *; lia | by apply Ht2].
  - change (tf_total (default new_transfer_record None)) with no_traffic. cbn [tc_bytes tc_chunks no_traffic].
    change (sumZ (request_sizes request) = tr_bytes request) in Hs2.
    destruct HL as ((_ & L1) & _). unfold u64 in Hb. lia.
Qed.

(** The run of [submit_transfer] past its checks: what remains is scheduling. *)
Definition schedule_all (chunks : list SubmittedChunk) : M (Transport C) unit :=
  for_each chunks (fun chunk => do! schedule_initial_arrival (sc_id chunk) in ret tt).

(** The transfer [T] has been registered: [chunks] are its consecutive chunks. *)
Record submitted (request : TransferRequest) (taken : list TransferCompletion)
    (T : TransferId) (chunks : list SubmittedChunk) t t1 : Prop := {
  sb_transfer : T = frontier (transfer_ids_ (tp_runtime t));
  sb_sizes : sc_bytes <$> chunks = request_sizes request;
  sb_total : sumZ (sc_bytes <$> chunks) = tr_bytes request;
  sb_ids : sc_id <$> chunks = seqZ (frontier (chunk_ids_ (tp_runtime t))) (zlength chunks);
  sb_ok : runtime_ok (tp_runtime t1) no_extra taken;
  sb_topology : tp_topology t1 = tp_topology t;
  sb_context : tp_context t1 = tp_context t;
  sb_advance : chunks_advance (chunks_ (tp_runtime t)) (chunks_ (tp_runtime t1));
  sb_record : exists x, transfers_ (tp_runtime t1) !! T = Some x /\
    tf_total x = mkTrafficCount (tr_bytes request) (zlength chunks);
}.

Lemma submit_transfer_run taken request t :
  runtime_ok (tp_runtime t) no_extra taken -> u64 (ctx_now (tp_context t)) ->
  u64 (tr_bytes request) -> u64 (tr_maximum_chunk_bytes request) ->
  (exists e, submit_transfer request t = (t, Throw e)) \/
  exists T chunks t1, submitted request taken T chunks t t1 /\
    submit_transfer request t =
      (do! schedule_all chunks in ret (mkSubmittedTransfer T chunks)) t1.
Proof.
  intros Hrt Hnow Hb Hm. unfold submit_transfer. cbv zeta.
  rewrite run_throw_if. destruct (Z.eqb_spec (tr_bytes request) 0) as [Hz | Hb0]; [left; eauto |].
  rewrite run_throw_if.
  destruct (Z.eqb_spec (tr_maximum_chunk_bytes request) 0) as [Hz | Hm0]; [left; eauto |].
  rewrite run_check. destruct (validate_route _ _ _ _ _) as [[] | e] eqn:Hroute; [| left; eauto].
  destruct (ro_bounded _ _ _ Hrt) as [B1 B2]. pose proof (ro_limits _ _ _ Hrt) as HL.
  apply validate_route_iff in Hroute; [| done | done | done].
  set (full := tr_bytes request / tr_maximum_chunk_bytes request).
  set (remainder := tr_bytes request mod tr_maximum_chunk_bytes request).
  set (count := full + Z.b2z (negb (remainder =? 0))).
  assert (0 < tr_bytes request /\ 0 < tr_maximum_chunk_bytes request) as [Hbp Hmp] by (unfold u64 in *; lia).
  assert (u64 count) as Hcount.
  { pose proof (Z.div_mod (tr_bytes request) _ Hm0) as Hdm. fold full remainder in Hdm.
    pose proof (Z.mod_pos_bound (tr_bytes request) _ Hmp) as Hrb. fold remainder in Hrb.
    assert (0 <= full) by (apply Z.div_pos; lia). unfold count, u64 in *.
    destruct (Z.eqb_spec remainder 0); cbn [negb Z.b2z]; nia. }
  rewrite (u64_wrap_id count Hcount). rewrite run_gets, run_throw_if.
  destruct (_ || _) eqn:Hids; [left; eauto |].
  apply orb_false_iff in Hids as [Hi1%negb_false_iff Hi2%negb_false_iff].
  apply can_generate_spec in Hi1; [| apply Hrt | word_lia].
  apply can_generate_spec in Hi2; [| apply Hrt | done].
  rewrite run_throw_if. destruct (count >? u64_max); [left; eauto |].
  rewrite run_check. destruct (validate_capacity _ _ _) as [[] | e] eqn:Hcap; [| left; eauto].
  unfold get_now. rewrite run_gets, run_when_check.
  set (tail := bind next_transfer_id _).
  assert ((full <> 0 -> validate_timing (tr_maximum_chunk_bytes request) (tr_route request)
             (ctx_now (tp_context t)) (tp_runtime t) = Ret tt) ->
          (remainder <> 0 -> validate_timing remainder (tr_route request) (ctx_now (tp_context t))
             (tp_runtime t) = Ret tt) ->
          exists T chunks t1, submitted request taken T chunks t t1 /\
            tail t = (do! schedule_all chunks in ret (mkSubmittedTransfer T chunks)) t1) as Htail.
  { intros Ht1 Ht2. pose proof (ro_transfer_ids _ _ _ Hrt) as [Hgen _].
    destruct (next_transfer_id_run t Hgen Hi1) as (i & Hi & Hoki & Hfi).
    pose proof (submit_registrable taken request t i Hrt Hnow Hb Hbp Hmp Hm Hroute Hi1 Hi2 Hcap
      Ht1 Ht2 Hoki Hfi) as Hreg.
    destruct (chunk_sizes_exact _ _ Hbp Hmp) as [Hs1 Hs2]. fold full remainder count in Hs1, Hs2.
    set (t0 := with_runtime _ t) in Hi, Hreg.
    assert (runtime_ok (tp_runtime t0) no_extra taken) as Hrt0 by (apply runtime_ok_transfer_ids; [done | done | lia]).
    unfold request_sizes in Hreg. fold full remainder in Hreg. rewrite <- Hs1 in Hreg.
    destruct (register_chunks_run _ request remainder (Z.to_nat count) (Z.to_nat full) taken t0 Hrt0 Hreg)
      as (t1 & chunks & Hrun & Hrt1 & Hbytes & Hids & E1 & E2 & Hadv & Htot).
    assert (zlength chunks = count) as Hlen.
    { unfold zlength. rewrite <- (length_fmap sc_id), Hids, length_seqZ. unfold u64 in Hcount. lia. }
    eexists _, chunks, t1. split.
    2: { unfold tail. erewrite run_bind_Ret by exact Hi. by erewrite run_bind_Ret by exact Hrun. }
    split; try done.
    - rewrite Hbytes. exact Hs1.
    - rewrite Hbytes. exact Hs2.
    - rewrite Hids, Hlen, Z2Nat.id by (unfold u64 in Hcount; lia). done.
    - rewrite Hs2, Z2Nat.id in Htot by (unfold u64 in Hcount; lia). rewrite Hlen.
      assert (transfers_ (tp_runtime t) !! frontier (transfer_ids_ (tp_runtime t)) = None) as HT.
      { apply eq_None_not_Some. intros [x Hx]. destruct (ro_transfer_ids _ _ _ Hrt) as [_ Hf].
        specialize (Hf _ x Hx). lia. }
      cbn in Htot. rewrite HT in Htot.
      destruct (transfers_ (tp_runtime t1) !! _) as [x |] eqn:Hx; [exists x; split; [done | exact Htot] |].
      injection Htot as Hz _. lia. }
  rewrite run_when_check.
  destruct (Z.eqb_spec full 0) as [Hf | Hf], (Z.eqb_spec remainder 0) as [Hr | Hr]; cbn [negb].
  - right. by apply Htail.
  - destruct (validate_timing remainder _ _ _) as [[] | e] eqn:Hv; [right | left; eauto]. by apply Htail.
  - destruct (validate_timing (tr_maximum_chunk_bytes request) _ _ _) as [[] | e] eqn:Hv;
      [right | left; eauto]. by apply Htail.
  - destruct (validate_timing (tr_maximum_chunk_bytes request) _ _ _) as [[] | e] eqn:Hv; [| left; eauto].
    destruct (validate_timing remainder _ _ _) as [[] | e] eqn:Hv2; [right | left; eauto]. by apply Htail.
Qed.
End Submission.
