(* ===== verification/TransportReach.v ===== *)
(** * What holds of every reachable transport runtime

    The operations that returned, in any order, interleaved with whatever the
    rest of the program does to the simulation context and the topology. *)

From S2P Require Import Prelude SimTime Entities TelemetryRecords EventQueue Trace Simulation SimContext Timing.
From S2P Require Import LinkQueue LinkService LinkServiceLaws Topology TopologyLaws Transport TransportLaws.
From S2P Require Import TransportInv TransportSteps TransportSubmit.

(** ** The constructor *)

Lemma add_services_ok configurations g rt rt' :
  Forall configuration_ok configurations -> runtime_ok rt no_extra [] -> chunks_ rt = ∅ ->
  add_services configurations g rt = Ret rt' ->
  runtime_ok rt' no_extra [] /\ chunks_ rt' = ∅ /\ transfers_ rt' = transfers_ rt /\
  completions_ rt' = completions_ rt.
Proof.
  intros Hcfg. revert rt. induction Hcfg as [| cfg configurations Hc _ IH]; intros rt Hrt Hch;
    cbn [add_services]; [by intros [= <-] |].
  destruct (require_fabric_arc (cfg_link cfg) g) as [arc |]; [| done].
  destruct (services_ rt !! cfg_link cfg) as [s |] eqn:Hs; [done |].
  destruct (new_link_service cfg) as [s |] eqn:Hn; [| done].
  assert (link_queue_ok (queue_ s) /\ configuration_ (queue_ s) = cfg /\ contents (queue_ s) = []) as (Q1 & Q2 & Q3).
  { unfold new_link_service in Hn. destruct (new_link_queue cfg) as [q |] eqn:Hq; [| done].
    injection Hn as <-. apply new_link_queue_ok; try apply Hc; [| done].
    intros th Hth. destruct Hc as (_ & _ & _ & Hcap & Hmark). specialize (Hmark th Hth). unfold u64 in *. lia. }
  intros Hrun. apply IH in Hrun; [done | | done].
  destruct Hrt as [H1 H2 H3 H4 H5 H6 H7 H8]. split; try done; cbn.
  - intros l x. destruct (decide (l = cfg_link cfg)) as [-> | Hne].
    + rewrite lookup_insert_eq. intros [= <-]. split; [done |]. by rewrite Q2.
    + rewrite lookup_insert_ne by done. apply H1.
  - intros id r Hr. rewrite Hch in Hr. done.
  - rewrite Hch in *. split; try done.
    + intros l c Hc'. exfalso. destruct (decide (l = cfg_link cfg)) as [-> | Hne].
      * unfold held_of in Hc'. rewrite lookup_insert_eq, Q3 in Hc'. by apply elem_of_nil in Hc'.
      * unfold held_of in Hc'. rewrite lookup_insert_ne in Hc' by done.
        destruct (qo_held _ _ H3 l c) as (r & Hr & _); [done |]. done.
    + intros l. destruct (decide (l = cfg_link cfg)) as [-> | Hne].
      * unfold held_of. rewrite lookup_insert_eq, Q3. constructor.
      * unfold held_of. rewrite lookup_insert_ne by done. apply (qo_once _ _ H3 l).
Qed.

Lemma new_transport_runtime_ok g configurations limits telemetry rt :
  Forall configuration_ok configurations ->
  u64 (maximum_chunks limits) -> u64 (maximum_route_entries limits) -> u64 (maximum_route_hops limits) ->
  new_transport_runtime g configurations limits telemetry = Ret rt ->
  runtime_ok rt no_extra [] /\ chunks_ rt = ∅ /\ transfers_ rt = ∅ /\ completions_ rt = [].
Proof.
  intros Hcfg L1 L2 L3. unfold new_transport_runtime. destruct (_ || _) eqn:Hz; [done |].
  apply orb_false_iff in Hz as [[Z1 Z2]%orb_false_iff Z3]. intros Hrun.
  apply add_services_ok in Hrun; [exact Hrun | done | | done].
  assert (generator_ok (generator 0)) by (unfold generator_ok; cbn; word_lia).
  split; cbn; try done.
  - split; try done; [| intros l; constructor].
    intros l c Hc. by apply elem_of_nil in Hc.
  - split; try done; [constructor |]. intros cm. split; [intros Hc; by apply elem_of_nil in Hc |].
    by intros (x & Hx & _).
  - unfold limits_ok, u64 in *. lia.
  - rewrite map_size_empty. unfold u64 in *. lia.
Qed.

(** ** Steps *)

Section Reach.
Context {C : Type} `{SimContext C}.
Implicit Types (t : Transport C) (taken : list TransferCompletion).

(** One call that returned; the second component collects the completions that
    [take_completed_transfers] handed out. *)
Inductive transport_step : Transport C * list TransferCompletion ->
    Transport C * list TransferCompletion -> Prop :=
  | step_register rc t taken t' :
      chunk_words (rc_chunk rc) -> register_chunk rc t = (t', Ret tt) ->
      transport_step (t, taken) (t', taken)
  | step_submit request t taken t' st :
      u64 (tr_bytes request) -> u64 (tr_maximum_chunk_bytes request) -> u64 (ctx_now (tp_context t)) ->
      submit_transfer request t = (t', Ret st) -> transport_step (t, taken) (t', taken)
  | step_initial_arrival chunk t taken t' id :
      schedule_initial_arrival chunk t = (t', Ret id) -> transport_step (t, taken) (t', taken)
  | step_arrival event t taken t' :
      handle_arrival event t = (t', Ret tt) -> transport_step (t, taken) (t', taken)
  | step_completion event t taken t' :
      handle_completion event t = (t', Ret tt) -> transport_step (t, taken) (t', taken)
  | step_link_state event t taken t' :
      handle_link_state_change event t = (t', Ret tt) -> transport_step (t, taken) (t', taken)
  | step_port_state event t taken t' :
      handle_port_state_change event t = (t', Ret tt) -> transport_step (t, taken) (t', taken)
  | step_switch_state event t taken t' :
      handle_switch_state_change event t = (t', Ret tt) -> transport_step (t, taken) (t', taken)
  | step_take t taken t' l :
      take_completed_transfers t = (t', Ret l) -> transport_step (t, taken) (t', taken ++ l)
  | step_environment rt g c taken g' c' :
      transport_step (mkTransport rt g c, taken) (mkTransport rt g' c', taken).

Lemma schedule_all_spec taken chunks t :
  runtime_ok (tp_runtime t) no_extra taken ->
  returns (schedule_all chunks) (fun t' _ => step_good taken t t') t.
Proof.
  intros Hrt. apply for_each_good; [| done]. intros x t1 Hrt1. apply returns_bind.
  eapply wp_conseq; [by apply schedule_initial_arrival_spec | | done]. intros t2 id Hg. by apply wp_ret.
Qed.

Lemma submit_transfer_spec taken request t t' st :
  runtime_ok (tp_runtime t) no_extra taken -> u64 (ctx_now (tp_context t)) ->
  u64 (tr_bytes request) -> u64 (tr_maximum_chunk_bytes request) ->
  submit_transfer request t = (t', Ret st) ->
  exists t1, submitted request taken (st_id st) (st_chunks st) t t1 /\ step_good taken t1 t'.
Proof.
  intros Hrt Hnow Hb Hm Hrun.
  destruct (submit_transfer_run taken request t Hrt Hnow Hb Hm)
    as [[e He] | (T & chunks & t1 & Hsub & Heq)]; [congruence |].
  rewrite Hrun in Heq. unfold bind in Heq.
  pose proof (schedule_all_spec taken chunks t1 (sb_ok _ _ _ _ _ _ Hsub)) as Hs. unfold returns, wp in Hs.
  destruct (schedule_all chunks t1) as [t2 [[] | e]]; [| done]. injection Heq as -> ->. eauto.
Qed.

(** The invariant survives a step, and chunks only move forward. *)
Lemma transport_step_ok p p' :
  transport_step p p' -> runtime_ok (tp_runtime (fst p)) no_extra (snd p) ->
  runtime_ok (tp_runtime (fst p')) no_extra (snd p') /\
  chunks_advance (chunks_ (tp_runtime (fst p))) (chunks_ (tp_runtime (fst p'))).
Proof.
  assert (forall t t' taken, step_good taken t t' ->
    runtime_ok (tp_runtime t') no_extra taken /\
    chunks_advance (chunks_ (tp_runtime t)) (chunks_ (tp_runtime t'))) as Hgood
    by (intros t t' taken (? & ? & _); done).
  assert (forall f t t' taken, step_change f taken t t' ->
    runtime_ok (tp_runtime t') no_extra taken /\
    chunks_advance (chunks_ (tp_runtime t)) (chunks_ (tp_runtime t'))) as Hchange
    by (intros f t t' taken (? & ? & _); done).
  intros [rc t taken t' Hw Hr | request t taken t' st Hb Hm Hn Hr | chunk t taken t' id Hr
    | event t taken t' Hr | event t taken t' Hr | event t taken t' Hr | event t taken t' Hr
    | event t taken t' Hr | t taken t' l Hr | rt g c taken g' c'] Hrt; cbn [fst snd] in *.
  - pose proof (register_chunk_run rc t taken Hrt (proj2 (proj2 Hw))) as Hrun. rewrite Hr in Hrun.
    destruct Hrun as [Hac ->]. cbn. split; [by eapply registered_ok |].
    intros k x Hx. exists x. split; [| reflexivity]. rewrite lookup_insert_ne; [done |].
    intros <-. pose proof (ac_fresh _ _ _ Hac). congruence.
  - destruct (submit_transfer_spec taken request t t' st Hrt Hn Hb Hm Hr) as (t1 & Hsub & Hg).
    destruct (Hgood _ _ _ Hg) as [H1 H2]. split; [done |]. etrans; [apply Hsub | done].
  - exact (Hgood _ _ _ (wp_run _ _ _ _ _ _ (schedule_initial_arrival_spec taken chunk t Hrt) Hr)).
  - exact (Hgood _ _ _ (wp_run _ _ _ _ _ _ (handle_arrival_spec taken event t Hrt) Hr)).
  - exact (Hgood _ _ _ (wp_run _ _ _ _ _ _ (transport_completion_spec taken event t Hrt) Hr)).
  - exact (Hchange _ _ _ _ (wp_run _ _ _ _ _ _ (handle_link_state_change_spec taken event t Hrt) Hr)).
  - exact (Hchange _ _ _ _ (wp_run _ _ _ _ _ _ (handle_port_state_change_spec taken event t Hrt) Hr)).
  - exact (Hchange _ _ _ _ (wp_run _ _ _ _ _ _ (handle_switch_state_change_spec taken event t Hrt) Hr)).
  - unfold take_completed_transfers, modify_runtime, bind, gets, modify, ret in Hr. injection Hr as <- <-.
    cbn. split; [| reflexivity]. destruct Hrt. split; try done. cbn. by rewrite app_nil_r.
  - split; [done | reflexivity].
Qed.

Lemma transport_reach_ok p p' :
  rtc transport_step p p' -> runtime_ok (tp_runtime (fst p)) no_extra (snd p) ->
  runtime_ok (tp_runtime (fst p')) no_extra (snd p') /\
  chunks_advance (chunks_ (tp_runtime (fst p))) (chunks_ (tp_runtime (fst p'))).
Proof.
  induction 1 as [p | p1 p2 p3 Hst _ IH]; intros Hrt; [split; [done | reflexivity] |].
  destruct (transport_step_ok _ _ Hst Hrt) as [Hrt2 Ha]. destruct (IH Hrt2) as [Hrt3 Hb].
  split; [done | by etrans].
Qed.

(** A runtime the program can be in. *)
Record reachable_transport (rt : TransportRuntime) taken : Prop := {
  rch_run : exists g configurations limits telemetry rt0 c t,
    Forall configuration_ok configurations /\
    u64 (maximum_chunks limits) /\ u64 (maximum_route_entries limits) /\ u64 (maximum_route_hops limits) /\
    new_transport_runtime g configurations limits telemetry = Ret rt0 /\
    rtc transport_step (mkTransport rt0 g c, []) (t, taken) /\ tp_runtime t = rt;
}.

Lemma reachable_ok rt taken : reachable_transport rt taken -> runtime_ok rt no_extra taken.
Proof.
  intros [(g & cfgs & limits & tel & rt0 & c & t & Hc & L1 & L2 & L3 & Hn & Hsteps & <-)].
  destruct (new_transport_runtime_ok _ _ _ _ _ Hc L1 L2 L3 Hn) as [Hrt0 _].
  by destruct (transport_reach_ok _ _ Hsteps Hrt0).
Qed.
End Reach.

(** ** What transport does to the events of others

    The runtime schedules arrivals and completions and cancels the completions
    it scheduled itself: the events of the workload stay in the queue. *)

Definition is_workload (p : EventPayload) : bool :=
  match p with Workload_ _ => true | _ => false end.

Section Steady.
Context {C : Type} `{SimContextLaws C}.
Implicit Types (c : C) (t : Transport C) (s : DirectedLinkService).

(** The context moves on and the events of the workload stay. *)
Definition spares c c' : Prop :=
  ctx_evolves c c' /\
  forall id ev, ctx_live c !! id = Some ev -> is_workload (ev_payload ev) = true -> ctx_live c' !! id = Some ev.

#[global] Instance spares_preorder : PreOrder spares.
Proof.
  split; [by split | intros c1 c2 c3 [A1 A2] [B1 B2]; split; [by etrans | auto]].
Qed.

(** An identifier that never names an event of the workload. *)
Definition not_workload c (id : EventId) : Prop :=
  ctx_issued c id /\ forall ev, ctx_live c !! id = Some ev -> is_workload (ev_payload ev) = false.

Definition own_completion c s : Prop := forall id, scheduled_completion_ s = Some id -> not_workload c id.

Lemma not_workload_later c c' id : ctx_ok c -> ctx_evolves c c' -> not_workload c id -> not_workload c' id.
Proof.
  intros Hok He [Hi Hn]. split; [by eapply ctx_evolves_issued |]. intros ev Hev. eapply Hn, ctx_evolves_live; eauto.
Qed.

Lemma own_completion_later c c' s : ctx_ok c -> ctx_evolves c c' -> own_completion c s -> own_completion c' s.
Proof. intros Hok He Ho id Hid. eapply not_workload_later; eauto. Qed.

Lemma schedule_spares spec c : ctx_ok c -> u64 (spec_timestamp spec) -> is_workload (spec_payload spec) = false ->
  wp (ctx_schedule spec) (fun c' id => spares c c' /\ not_workload c' id) (fun _ _ => True) c.
Proof.
  intros Hok Hu Hp. pose proof (ctx_schedule_law spec c Hok Hu) as H1. pose proof (ctx_schedule_fresh spec c Hok Hu) as H2.
  unfold wp in *. destruct (ctx_schedule spec c) as [c' [id | e]]; [| done].
  destruct H1 as (He & Hn & ev & Hl & _ & Hpay & _), H2 as [_ Hi]. split; split; try done.
  - intros id' ev' Hev _. rewrite Hl. apply lookup_insert_Some. right. split; [intros ->; congruence | done].
  - intros ev'. rewrite Hl, lookup_insert_eq. intros [= <-]. by rewrite Hpay.
Qed.

Lemma record_spares sink ts corr obs c : ctx_ok c ->
  wp (ctx_sink_record sink ts corr obs) (fun c' _ => spares c c') (fun _ _ => True) c.
Proof.
  intros Hok. eapply wp_conseq; [by apply ctx_record_law | | done]. intros c' [] [He Hl]. split; [done |]. by rewrite Hl.
Qed.

Lemma cancel_spares id c : ctx_ok c -> not_workload c id ->
  wp (ctx_cancel id) (fun c' _ => spares c c') (fun _ _ => True) c.
Proof.
  intros Hok [_ Hn]. eapply wp_conseq; [by apply ctx_cancel_law | | done]. intros c' b (He & Ht & Hf). split; [done |].
  intros id' ev Hev Hw. destruct b; [| by rewrite Hf]. rewrite Ht by done. apply lookup_delete_Some. split; [| done].
  intros <-. specialize (Hn ev Hev). congruence.
Qed.

(** ** The service of a link *)

Definition steady_service {A} (m : M (DirectedLinkService * C) A) : Prop := forall s c,
  ctx_ok c -> own_completion c s ->
  wp m (fun p _ => spares c (snd p) /\ own_completion (snd p) (fst p)) (fun _ _ => True) (s, c).

Lemma schedule_completion_steady chunk s c : ctx_ok c ->
  wp (schedule_completion chunk) (fun p id => fst p = s /\ spares c (snd p) /\ not_workload (snd p) id)
    (fun _ _ => True) (s, c).
Proof.
  intros Hok. unfold schedule_completion. wp_step. apply wp_gets. wp_step. apply wp_gets. wp_step.
  apply wp_of_outcome; [| done]. intros time Ht. apply wp_zoom. cbn [snd fst].
  eapply wp_conseq; [apply schedule_spares; [done | | done] | | done].
  - revert Ht. unfold completion_time. cbn [fst snd]. destruct (serialization_delay _ _) as [delay |]; [| done].
    destruct (checked_add (ctx_now c) delay) as [time' |] eqn:E; [| done].
    destruct (checked_add time' _); [| done]. intros [= <-]. by eapply checked_add_u64.
  - by intros c' id [H1 H2].
Qed.

Lemma service_admit_steady chunk : steady_service (service_admit chunk).
Proof.
  intros s c Hok Ho. unfold service_admit. cbv zeta. wp_step. apply wp_throw_if; [done | intros _].
  wp_step. apply wp_gets. wp_step. apply wp_of_outcome; [intros time _ | done]. wp_step. apply wp_of_outcome; [intros next _ | done].
  cbn [fst snd]. wp_step.
  apply (wp_conseq _ (fun p o => fst p = s /\ spares c (snd p) /\ forall id, o = Some id -> not_workload (snd p) id) _ (fun _ _ => True)); [| | done].
  { destruct (negb (has_value (active_ (queue_ s)))); [| by apply wp_ret]. wp_step.
    eapply wp_conseq; [by apply schedule_completion_steady | | done]. intros p id (E & Hs & Hn). apply wp_ret.
    split; [done | split; [done |]]. by intros id' [= <-]. }
  intros [s1 c1] o (E & Hs & Hn). cbn in E, Hs, Hn. subst s1. wp_step. unfold in_queue. apply wp_zoom. unfold wp at 1. cbn [fst snd].
  destruct (queue_admit chunk (queue_ s)) as [q [r | e]]; [| done]. wp_step. apply wp_modify. cbn [fst snd]. wp_step.
  assert (own_completion c1 s) as Ho1 by (by eapply own_completion_later; [| apply Hs |]).
  apply wp_when; intros _; [apply wp_modify |]; apply wp_ret; (split; [done |]); intros id Hid; cbn in Hid; auto.
Qed.

Lemma handle_completion_steady event : steady_service (LinkService.handle_completion event).
Proof.
  intros s c Hok Ho. unfold LinkService.handle_completion. cbv zeta. wp_step. apply wp_gets. cbn [fst snd]. wp_step.
  apply (wp_conseq _ (fun p _ => p = (s, c)) _ (fun _ _ => True)); [| | done].
  { destruct (scheduled_completion_ s); [| by apply wp_throw]. wp_step. apply wp_of_outcome; [intros cur _ | done]. by apply wp_throw_if. }
  intros p [] ->. destruct (active_ (queue_ s)) as [active |]; [| by apply wp_throw]. wp_step. apply wp_throw_if; [done | intros _].
  wp_step. apply wp_of_outcome; [intros next _ | done]. wp_step. apply wp_of_outcome; [intros completed _ | done]. wp_step.
  apply (wp_conseq _ (fun p r => fst p = s /\ spares c (snd p) /\ forall id, snd r = Some id -> not_workload (snd p) id) _ (fun _ _ => True)); [| | done].
  { destruct (next_waiting _) as [waiting |]; [| by apply wp_ret]. wp_step. apply wp_of_outcome; [intros started _ | done]. wp_step.
    eapply wp_conseq; [by apply schedule_completion_steady | | done]. intros p id (E & Hs & Hn). apply wp_ret.
    split; [done | split; [done |]]. by intros id' [= <-]. }
  intros [s1 c1] [next' o] (E & Hs & Hn). cbn in E, Hs, Hn. subst s1. wp_step. unfold in_queue. apply wp_zoom. unfold wp at 1. cbn [fst snd].
  destruct (complete_service (queue_ s)) as [q [tr |]]; [| by apply wp_throw]. wp_step. apply wp_gets. wp_step. apply wp_modify. apply wp_ret.
  split; [done |]. intros id Hid. cbn in Hid. auto.
Qed.

Lemma record_link_down_steady chunk :
  steady_service (zoom fst (fun s p => (s, snd p)) (record_link_down chunk)).
Proof.
  intros s c Hok Ho. apply wp_zoom. unfold wp, record_link_down. cbn [fst]. by destruct (add_traffic _ _).
Qed.

Lemma reconcile_down_steady : steady_service reconcile_down.
Proof.
  intros s c Hok Ho. unfold reconcile_down. cbv zeta. wp_step. apply wp_gets. cbn [fst snd]. wp_step.
  apply wp_of_outcome; [intros next _ | done]. wp_step. apply wp_of_outcome; [intros dropped _ | done]. wp_step.
  apply wp_of_outcome; [intros down _ | done]. wp_step.
  apply (wp_conseq _ (fun p _ => spares c (snd p)) _ (fun _ _ => True)); [| | done].
  { destruct (scheduled_completion_ s) as [id |] eqn:Hid; [| by apply wp_ret]. wp_step. apply wp_zoom.
    eapply wp_conseq; [apply cancel_spares; [done | by apply Ho] | | done]. intros c' b Hs. by apply wp_throw_if. }
  intros [s1 c1] [] Hs. cbn in Hs. wp_step. unfold in_queue. apply wp_zoom. unfold wp at 1.
  destruct (drain (queue_ (fst (s1, c1)))) as [q d]. wp_step. apply wp_modify. apply wp_ret. split; [done |]. by intros id [=].
Qed.

(** ** The runtime *)

Definition owns_completions t : Prop :=
  forall l s, services_ (tp_runtime t) !! l = Some s -> own_completion (tp_context t) s.

Definition composed t : Prop := ctx_ok (tp_context t) /\ owns_completions t.

Definition steady {A} (m : M (Transport C) A) : Prop := forall t, composed t ->
  wp m (fun t' _ => composed t' /\ spares (tp_context t) (tp_context t')) (fun _ _ => True) t.

Lemma composed_context t c : composed t -> ctx_evolves (tp_context t) c -> composed {| t with tp_context := c |}.
Proof.
  intros [Hok Ho] He. split; [by eapply ctx_evolves_ok |]. intros l s Hs. eapply own_completion_later; [done.. |]. by eapply Ho.
Qed.

Lemma steady_bind {A B} (m : M (Transport C) A) (k : A -> M (Transport C) B) :
  steady m -> (forall a, steady (k a)) -> steady (bind m k).
Proof.
  intros Hm Hk t Ht. apply wp_bind. eapply wp_conseq; [by apply Hm | | done]. intros t1 a [H1 S1].
  eapply wp_conseq; [by apply Hk | | done]. intros t2 b [H2 S2]. split; [done | by etrans].
Qed.

(** Neither the services nor the context change. *)
Definition untouched t t' : Prop := services_ (tp_runtime t') = services_ (tp_runtime t) /\ tp_context t' = tp_context t.

Lemma steady_quiet {A} (m : M (Transport C) A) : (forall t, untouched t (fst (m t))) -> steady m.
Proof.
  intros Hm t [Hok Ho]. unfold wp. destruct (Hm t) as [E1 E2]. destruct (m t) as [t' [a | e]]; [| done]. cbn in E1, E2.
  unfold composed, owns_completions. rewrite E1, E2. done.
Qed.

Lemma steady_still {A} (m : M (Transport C) A) : (forall t, fst (m t) = t) -> steady m.
Proof. intros Hm. apply steady_quiet. intros t. by rewrite Hm. Qed.

Lemma steady_when b (m : M (Transport C) unit) : steady m -> steady (when b m).
Proof. intros Hm. destruct b; [done | by apply steady_still]. Qed.

Lemma steady_for_each {A} (l : list A) (f : A -> M (Transport C) unit) :
  (forall a, steady (f a)) -> steady (for_each l f).
Proof. intros Hf. induction l as [| a l IH]; [by apply steady_still |]. cbn. by apply steady_bind. Qed.

Lemma steady_context {A} (m : M C A) :
  (forall c, ctx_ok c -> wp m (fun c' _ => spares c c') (fun _ _ => True) c) -> steady (with_context m).
Proof.
  intros Hm t Ht. apply wp_zoom. eapply wp_conseq; [apply Hm, Ht | | done]. intros c' a Hs. split; [| done].
  apply composed_context; [done | apply Hs].
Qed.

Lemma steady_service_op {A} l (m : M (DirectedLinkService * C) A) : steady_service m -> steady (with_service l m).
Proof.
  intros Hm t Ht. pose proof Ht as [Hok Ho]. unfold with_service, require_service. wp_step. wp_step. apply wp_gets.
  apply wp_of_option; [intros s Hs | done]. unfold wp. specialize (Hm s (tp_context t) Hok (Ho l s Hs)). unfold wp in Hm.
  destruct (m (s, tp_context t)) as [[s' c] [a | e]]; [| done]. destruct Hm as [Hsp Hs']. cbn in Hsp, Hs'. split; [| done].
  split; [by eapply ctx_evolves_ok; [apply Hsp |] |]. intros l' s2 Hl'. cbn in Hl'. apply lookup_insert_Some in Hl' as [[<- <-] | [_ Hl']]; [done |].
  eapply own_completion_later; [exact Hok | apply Hsp | by eapply Ho].
Qed.

Lemma steady_record ts corr obs : steady (telemetry_record ts corr obs).
Proof.
  apply steady_bind; [by apply steady_still |]. intros sink. apply steady_context. intros c Hc. by apply record_spares.
Qed.

Lemma steady_schedule spec : u64 (spec_timestamp spec) -> is_workload (spec_payload spec) = false ->
  steady (with_context (ctx_schedule spec)).
Proof.
  intros Hu Hp. apply steady_context. intros c Hc. eapply wp_conseq; [by apply schedule_spares | by intros ? ? [? _] | done].
Qed.

Lemma steady_modify f : (forall rt, services_ (f rt) = services_ rt) -> steady (modify_runtime f).
Proof. intros Hf. apply steady_quiet. intros t. by split; [apply Hf |]. Qed.
End Steady.

Create HintDb steady.
#[export] Hint Resolve steady_record service_admit_steady handle_completion_steady record_link_down_steady
  reconcile_down_steady : steady.

(** Goes through a body of known calls. *)
Ltac steady_step :=
  match goal with
  | |- steady (bind _ _) => apply steady_bind; [| intros ?]
  | |- steady (when _ _) => apply steady_when
  | |- steady (for_each _ _) => apply steady_for_each; intros ?
  | |- steady (with_service _ _) => apply steady_service_op
  | |- steady (modify_runtime _) => apply steady_modify; by intros ?
  | |- steady (put_chunk _ _) => apply steady_modify; by intros ?
  | |- steady (put_transfer _ _) => apply steady_modify; by intros ?
  | |- steady (throw_if ?b _) => apply steady_still; by destruct b
  | |- steady (of_option _ ?o) => apply steady_still; by destruct o
  | |- steady (require_chunk _) => unfold require_chunk
  | |- steady (require_service _) => unfold require_service
  | |- steady (transfer_at _) => unfold transfer_at
  | |- steady (route_at _ _) => unfold route_at
  | |- steady (link_statistics _) => unfold link_statistics
  | |- steady (queue_snapshot _) => unfold queue_snapshot
  | |- steady event_correlation => unfold event_correlation
  | |- steady (if ?b then _ else _) => destruct b
  | |- steady (match ?o with _ => _ end) => destruct o eqn:?
  | |- steady (with_context (ctx_schedule _)) => apply steady_schedule; [by eapply checked_add_u64 | done]
  | |- steady _ => by eauto with steady
  | |- steady_service _ => by eauto with steady
  | |- steady _ => by apply steady_still
  end.

Ltac steady_auto := cbv zeta; repeat steady_step.

Section Operations.
Context {C : Type} `{SimContextLaws C}.

Lemma steady_emit_transfer record transition link reason :
  steady (C := C) (emit_transfer record transition link reason).
Proof. unfold emit_transfer. steady_auto. Qed.
#[local] Hint Resolve steady_emit_transfer : steady.

Lemma steady_emit_queue record link transition : steady (C := C) (emit_queue record link transition).
Proof. unfold emit_queue. steady_auto. Qed.
#[local] Hint Resolve steady_emit_queue : steady.

Lemma steady_emit_link_metrics link before after : steady (C := C) (emit_link_metrics link before after).
Proof. unfold emit_link_metrics, emit_delta, emit_busy. steady_auto. Qed.
#[local] Hint Resolve steady_emit_link_metrics : steady.

Lemma steady_emit_queue_gauges link snap : steady (C := C) (emit_queue_gauges link snap).
Proof. unfold emit_queue_gauges. steady_auto. Qed.
#[local] Hint Resolve steady_emit_queue_gauges : steady.

Lemma steady_record_terminal record : steady (C := C) (record_terminal record).
Proof. unfold record_terminal. steady_auto. Qed.
#[local] Hint Resolve steady_record_terminal : steady.

Lemma steady_handle_arrival event : steady (C := C) (handle_arrival event).
Proof. unfold handle_arrival, deliver, drop_at_down_link, offer. steady_auto. Qed.

Lemma steady_handle_completion event : steady (C := C) (Transport.handle_completion event).
Proof. unfold Transport.handle_completion. steady_auto. Qed.

Lemma steady_mark_dropped link chunk : steady (C := C) (mark_dropped link chunk).
Proof. unfold mark_dropped. steady_auto. Qed.
#[local] Hint Resolve steady_mark_dropped : steady.

Lemma steady_drain_service link : steady (C := C) (drain_service link).
Proof. unfold drain_service, mark_dropped_link_down. steady_auto. Qed.
#[local] Hint Resolve steady_drain_service : steady.

Lemma steady_set_state f : steady (C := C) (set_state f).
Proof. apply steady_quiet. intros t. unfold set_state. by destruct (f (tp_topology t)). Qed.
#[local] Hint Resolve steady_set_state : steady.

Lemma steady_link_state_change event : steady (C := C) (handle_link_state_change event).
Proof. unfold handle_link_state_change, require_fabric_link. steady_auto. Qed.

Lemma steady_port_state_change event : steady (C := C) (handle_port_state_change event).
Proof. unfold handle_port_state_change, reconcile_unavailable. steady_auto. Qed.

Lemma steady_switch_state_change event : steady (C := C) (handle_switch_state_change event).
Proof. unfold handle_switch_state_change, reconcile_unavailable. steady_auto. Qed.

Lemma steady_take : steady (C := C) take_completed_transfers.
Proof. unfold take_completed_transfers. steady_auto. Qed.
End Operations.

(** ** Operations that touch no service *)

Section Serviceless.
Context {C : Type} `{SimContext C}.

Definition serviceless {A} (m : M (Transport C) A) : Prop := forall t,
  services_ (tp_runtime (fst (m t))) = services_ (tp_runtime t).

Lemma serviceless_still {A} (m : M (Transport C) A) : (forall t, fst (m t) = t) -> serviceless m.
Proof. intros Hm t. by rewrite Hm. Qed.

Lemma serviceless_bind {A B} (m : M (Transport C) A) (k : A -> M (Transport C) B) :
  serviceless m -> (forall a, serviceless (k a)) -> serviceless (bind m k).
Proof.
  intros Hm Hk t. specialize (Hm t). unfold bind. destruct (m t) as [t' [a | e]]; cbn in *; [by rewrite Hk | done].
Qed.

Lemma serviceless_when b (m : M (Transport C) unit) : serviceless m -> serviceless (when b m).
Proof. intros Hm. by destruct b. Qed.

Lemma serviceless_for_each {A} (l : list A) (f : A -> M (Transport C) unit) :
  (forall a, serviceless (f a)) -> serviceless (for_each l f).
Proof. intros Hf. induction l as [| a l IH]; [by apply serviceless_still |]. cbn. by apply serviceless_bind. Qed.

Lemma serviceless_modify f : (forall rt, services_ (f rt) = services_ rt) -> serviceless (modify_runtime f).
Proof. intros Hf t. apply Hf. Qed.

Lemma serviceless_context {A} (m : M C A) : serviceless (with_context m).
Proof. intros t. unfold with_context, zoom. by destruct (m (tp_context t)). Qed.
End Serviceless.

Ltac serviceless_step :=
  match goal with
  | |- serviceless (bind _ _) => apply serviceless_bind; [| intros ?]
  | |- serviceless (when _ _) => apply serviceless_when
  | |- serviceless (for_each _ _) => apply serviceless_for_each; intros ?
  | |- serviceless (with_context _) => apply serviceless_context
  | |- serviceless (modify_runtime _) => apply serviceless_modify; by intros ?
  | |- serviceless (put_chunk _ _) => apply serviceless_modify; by intros ?
  | |- serviceless (put_transfer _ _) => apply serviceless_modify; by intros ?
  | |- serviceless (throw_if ?b _) => apply serviceless_still; by destruct b
  | |- serviceless (of_option _ ?o) => apply serviceless_still; by destruct o
  | |- serviceless (require_chunk _) => unfold require_chunk
  | |- serviceless (transfer_at _) => unfold transfer_at
  | |- serviceless event_correlation => unfold event_correlation
  | |- serviceless (telemetry_record _ _ _) => unfold telemetry_record
  | |- serviceless next_transfer_id => intros ?; unfold next_transfer_id, zoom; by destruct (SequentialTransportIdGenerator.next _)
  | |- serviceless next_chunk_id => intros ?; unfold next_chunk_id, zoom; by destruct (SequentialTransportIdGenerator.next _)
  | |- serviceless (match ?o with _ => _ end) => destruct o
  | |- serviceless _ => by apply serviceless_still
  end.

Ltac serviceless_auto := cbv zeta; repeat serviceless_step.

Section Submission.
Context {C : Type} `{SimContext C}.

Lemma serviceless_register_chunks count full transfer request remainder :
  serviceless (C := C) (register_chunks count full transfer request remainder).
Proof.
  revert full. induction count as [| count IH]; intros full; cbn [register_chunks]; [by apply serviceless_still |].
  unfold register_chunk. serviceless_auto. apply IH.
Qed.

Lemma serviceless_submit request : serviceless (C := C) (submit_transfer request).
Proof.
  unfold submit_transfer, schedule_initial_arrival. cbv zeta. repeat serviceless_step.
  apply serviceless_register_chunks.
Qed.
End Submission.

(** ** Construction *)

Definition unscheduled (rt : TransportRuntime) : Prop :=
  forall l s, services_ rt !! l = Some s -> scheduled_completion_ s = None.

Lemma add_services_unscheduled configurations g rt rt' :
  unscheduled rt -> add_services configurations g rt = Ret rt' -> unscheduled rt'.
Proof.
  revert rt. induction configurations as [| cfg rest IH]; intros rt Hrt; cbn [add_services]; [by intros [= <-] |].
  destruct (require_fabric_arc _ _); [| done]. destruct (services_ rt !! _); [done |].
  unfold new_link_service. destruct (new_link_queue cfg) as [q |]; [| done]. apply IH. intros l s Hs. cbn in Hs.
  apply lookup_insert_Some in Hs as [[_ <-] | [_ Hs]]; [done | by eapply Hrt].
Qed.

Lemma new_owns {C} `{SimContextLaws C} g configurations limits telemetry rt g' (c : C) :
  new_transport_runtime g configurations limits telemetry = Ret rt -> owns_completions (mkTransport rt g' c).
Proof.
  unfold new_transport_runtime. destruct (_ || _); [done |]. intros Hrt l s Hs id Hid.
  assert (unscheduled rt) as Hu by (eapply add_services_unscheduled, Hrt; intros l' s' Hl; cbn in Hl; by rewrite lookup_empty in Hl).
  rewrite (Hu l s Hs) in Hid. done.
Qed.
