(* ===== verification/TransportTheorems.v ===== *)
(** * Correctness of the transport runtime *)

From S2P Require Import Prelude SimTime Rng Entities TelemetryRecords Trace EventQueue.
From S2P Require Import SimContext Simulation SimulationLaws Timing LinkQueue LinkService.
From S2P Require Import LinkServiceLaws Topology TopologyLaws ShortestPath Transport.
From S2P Require Import TransportLaws TransportInv TransportSteps TransportSubmit.
From S2P Require Import TransportReach.

(** Chunks that are still under way. *)
Definition in_flight (st : ChunkTransitState) : bool := negb (terminal st).

Lemma tally_split chunks ids :
  tally any_state chunks ids = tally terminal chunks ids ⊕ tally in_flight chunks ids.
Proof.
  rewrite <- tally_or by (intros st; unfold in_flight; by destruct (terminal st)).
  apply tally_ext. intros id r _ _. unfold in_flight, any_state. by destruct (terminal (cr_state r)).
Qed.

Lemma tally_zero P chunks ids :
  (forall id, id ∈ ids -> is_Some (chunks !! id)) ->
  tc_chunks (tally P chunks ids) = 0 <->
  (forall id r, id ∈ ids -> chunks !! id = Some r -> P (cr_state r) = false).
Proof.
  intros Hin. pose proof (tally_full (fun st => negb (P st)) chunks ids Hin) as Hfull.
  assert (tally any_state chunks ids = tally P chunks ids ⊕ tally (fun st => negb (P st)) chunks ids) as Hs.
  { rewrite <- tally_or by (intros st; by destruct (P st)). apply tally_ext. intros id r _ _.
    unfold any_state. by destruct (P (cr_state r)). }
  rewrite Hs in Hfull. cbn [plus_traffic tc_chunks] in Hfull.
  transitivity (tc_chunks (tally (fun st => negb (P st)) chunks ids) =
    tc_chunks (tally P chunks ids) + tc_chunks (tally (fun st => negb (P st)) chunks ids)); [lia |].
  rewrite Hfull. split; intros Hall id r Hid Hr; specialize (Hall id r Hid Hr);
    by destruct (P (cr_state r)).
Qed.

(** Nothing dropped, everything delivered. *)
Lemma outcome_all_delivered chunks id x :
  transfer_ok chunks id x ->
  (forall c r, c ∈ tf_chunks x -> chunks !! c = Some r -> 0 <= chunk_bytes (cr_chunk r)) ->
  (if tc_chunks (tf_dropped_buffer_full x) + tc_chunks (tf_dropped_link_down x) =? 0
   then TransferOutcome_Succeeded else TransferOutcome_Failed) = TransferOutcome_Succeeded <->
  tf_delivered x = tally terminal chunks (tf_chunks x).
Proof.
  intros Ht Hbytes. rewrite tally_terminal, <- (tk_delivered _ _ _ Ht).
  assert (forall c, c ∈ tf_chunks x -> is_Some (chunks !! c)) as Hin.
  { intros c Hc. apply (tk_members _ _ _ Ht) in Hc as (r & Hr & _). eauto. }
  assert (forall P, tc_chunks (tally P chunks (tf_chunks x)) = 0 ->
    tally P chunks (tf_chunks x) = no_traffic) as Hz.
  { intros P HP. pose proof (proj1 (tally_zero P _ _ Hin) HP) as HP'.
    rewrite (tally_ext P (fun _ => false)) by exact HP'. clear. induction (tf_chunks x) as [| c l IH]; [done |].
    cbn [tally]. rewrite IH. by destruct (chunks !! c). }
  pose proof (tally_nonneg chunks (tf_chunks x) Hbytes is_full) as [_ N1].
  pose proof (tally_nonneg chunks (tf_chunks x) Hbytes is_down) as [_ N2].
  rewrite (tk_full _ _ _ Ht), (tk_down _ _ _ Ht). cbn [tc_chunks no_traffic] in N1, N2.
  destruct (Z.eqb_spec (tc_chunks (tally is_full chunks (tf_chunks x)) +
    tc_chunks (tally is_down chunks (tf_chunks x))) 0) as [H0 | H0].
  - split; [intros _ | done]. rewrite !Hz by lia. by rewrite !plus_traffic_0_r.
  - split; [done |]. intros Hd. exfalso. apply (f_equal tc_chunks) in Hd. cbn in Hd. lia.
Qed.

(** ** Snapshots *)

(** The categories of chunks under way. *)
Definition under_way (s : TransferSnapshot) : TrafficCount :=
  ts_registered s ⊕ ts_awaiting_initial_arrival s ⊕ ts_waiting s ⊕ ts_active s ⊕ ts_propagating s.

(** The categories that [snapshot_chunks] does not touch. *)
Definition settled_part (s : TransferSnapshot) :=
  (ts_total s, ts_delivered s, ts_dropped_buffer_full s, ts_dropped_link_down s, ts_started_at s,
   ts_completion s).

Definition categories_nonneg (s : TransferSnapshot) : Prop :=
  traffic_le no_traffic (ts_registered s) /\ traffic_le no_traffic (ts_awaiting_initial_arrival s) /\
  traffic_le no_traffic (ts_waiting s) /\ traffic_le no_traffic (ts_active s) /\
  traffic_le no_traffic (ts_propagating s).

Lemma snapshot_chunk_run rt extra taken snap id r :
  runtime_ok rt extra taken -> chunks_ rt !! id = Some r -> categories_nonneg snap ->
  (forall l, extra l = []) ->
  traffic_ok (under_way snap ⊕ weight in_flight r) ->
  exists snap', snapshot_chunk rt snap id = Ret snap' /\ categories_nonneg snap' /\
    under_way snap' = under_way snap ⊕ weight in_flight r /\ settled_part snap' = settled_part snap.
Proof.
  intros Hrt Hr (N1 & N2 & N3 & N4 & N5) Hextra Hok. unfold snapshot_chunk. rewrite Hr.
  fold (record_count r).
  assert (traffic_le no_traffic (record_count r)) as Hc.
  { destruct (to_bytes _ _ _ (ro_transfers _ _ _ Hrt) _ _ Hr). unfold record_count, traffic_le. cbn. lia. }
  assert (forall x, traffic_le no_traffic x -> traffic_le x (under_way snap) -> in_flight (cr_state r) = true ->
    add_traffic x (record_count r) = Ret (x ⊕ record_count r) /\ traffic_le no_traffic (x ⊕ record_count r)) as Hadd.
  { intros x Hx Hle Hin. rewrite weight_counted in Hok by done. split.
    - apply add_traffic_exact; [done | done |]. eapply traffic_ok_le; [| | exact Hok].
      + unfold traffic_le, plus_traffic in *. cbn in *. lia.
      + unfold traffic_le, plus_traffic in *. cbn in *. lia.
    - unfold traffic_le, plus_traffic in *. cbn in *. lia. }
  assert (traffic_le (ts_registered snap) (under_way snap) /\
    traffic_le (ts_awaiting_initial_arrival snap) (under_way snap) /\
    traffic_le (ts_waiting snap) (under_way snap) /\ traffic_le (ts_active snap) (under_way snap) /\
    traffic_le (ts_propagating snap) (under_way snap)) as (M1 & M2 & M3 & M4 & M5).
  { unfold under_way, traffic_le, plus_traffic in *. cbn in *. lia. }
  destruct (cr_state r) eqn:Hst; cbn [in_flight terminal negb] in Hadd.
  4-6: exists snap; rewrite weight_none by (by rewrite Hst); rewrite plus_traffic_0_r; split_and!; done.
  all: rewrite weight_counted by (by rewrite Hst).
  - destruct (Hadd _ N1 M1 eq_refl) as [-> Hn]. eexists. split; [reflexivity |].
    split_and!; try done. clear. unfold under_way. cbn. generalize (record_count r). intros. destruct snap. traffic_lia.
  - destruct (cr_hop_index r =? 0).
    + destruct (Hadd _ N2 M2 eq_refl) as [-> Hn]. eexists. split; [reflexivity |].
      split_and!; try done. clear. unfold under_way. cbn. generalize (record_count r). intros. destruct snap. traffic_lia.
    + destruct (Hadd _ N5 M5 eq_refl) as [-> Hn]. eexists. split; [reflexivity |].
      split_and!; try done. clear. unfold under_way. cbn. generalize (record_count r). intros. destruct snap. traffic_lia.
  - destruct (qo_admitted _ _ (ro_queues _ _ _ Hrt) id r Hr Hst) as [l Hl].
    destruct (qo_held _ _ (ro_queues _ _ _ Hrt) l _ Hl) as (r2 & Hr2 & _ & _ & Hroute & _).
    rewrite (qo_ids _ _ (ro_queues _ _ _ Hrt) id r Hr) in Hr2. assert (r2 = r) as -> by congruence.
    rewrite Hroute. unfold held_of in Hl. rewrite Hextra, app_nil_r in Hl.
    destruct (services_ rt !! l) as [s |]; [| by apply elem_of_nil in Hl].
    destruct (match active_ (queue_ s) with Some a => chunk_id a =? id | None => false end).
    + destruct (Hadd _ N4 M4 eq_refl) as [-> Hn]. eexists. split; [reflexivity |].
      split_and!; try done. clear. unfold under_way. cbn. generalize (record_count r). intros. destruct snap. traffic_lia.
    + destruct (Hadd _ N3 M3 eq_refl) as [-> Hn]. eexists. split; [reflexivity |].
      split_and!; try done. clear. unfold under_way. cbn. generalize (record_count r). intros. destruct snap. traffic_lia.
Qed.

Lemma snapshot_chunks_run rt taken snap ids :
  runtime_ok rt no_extra taken -> (forall id, id ∈ ids -> is_Some (chunks_ rt !! id)) ->
  categories_nonneg snap -> traffic_ok (under_way snap ⊕ tally in_flight (chunks_ rt) ids) ->
  exists snap', snapshot_chunks rt snap ids = Ret snap' /\
    under_way snap' = under_way snap ⊕ tally in_flight (chunks_ rt) ids /\
    settled_part snap' = settled_part snap.
Proof.
  intros Hrt. revert snap. induction ids as [| id ids IH]; intros snap Hin Hn Hok.
  { exists snap. cbn [snapshot_chunks tally]. by rewrite plus_traffic_0_r. }
  destruct (Hin id ltac:(left)) as [r Hr]. cbn [snapshot_chunks tally] in *. rewrite Hr in *.
  assert (traffic_le no_traffic (tally in_flight (chunks_ rt) ids)) as Ht.
  { apply tally_nonneg. intros c x _ Hx. destruct (to_bytes _ _ _ (ro_transfers _ _ _ Hrt) _ _ Hx). lia. }
  assert (traffic_le no_traffic (weight in_flight r)) as Hw.
  { destruct (to_bytes _ _ _ (ro_transfers _ _ _ Hrt) _ _ Hr). unfold weight, record_count, traffic_le.
    destruct (in_flight _); cbn; lia. }
  rewrite plus_traffic_assoc in Hok.
  destruct (snapshot_chunk_run rt no_extra taken snap id r Hrt Hr Hn ltac:(done)) as (s1 & -> & Hn1 & Hu1 & He1).
  { eapply traffic_ok_le; [| | exact Hok].
    - destruct Hn as (N1 & N2 & N3 & N4 & N5). unfold under_way, traffic_le, plus_traffic in *. cbn in *. lia.
    - unfold traffic_le, plus_traffic in *. cbn in *. lia. }
  rewrite <- Hu1 in Hok. destruct (IH s1) as (s2 & -> & Hu2 & He2); [| done | done |].
  { intros x Hx. apply Hin. by right. }
  exists s2. split_and!; [done | | congruence]. by rewrite Hu2, Hu1, plus_traffic_assoc.
Qed.

(** ** A concrete runtime *)

Definition demo_route : list DirectedLinkId :=
  [mkDirectedLinkId 2 AToB; mkDirectedLinkId 3 AToB; mkDirectedLinkId 4 BToA].

Definition demo_link (l : DirectedLinkId) : DirectedLinkConfiguration :=
  mkDirectedLinkConfiguration l 8000000000 5 300 (Some 200).

Definition demo_limits : TransportLimits := mkTransportLimits 10 100 8.

(** 250 bytes from the first NIC to the second, in chunks of at most 100. *)
Definition demo_request : TransferRequest :=
  mkTransferRequest (nic_node 0) (nic_node 1) 250 100 demo_route.

Definition demo_runtime : TransportRuntime :=
  match new_transport_runtime (build demo_topology) (demo_link <$> demo_route) demo_limits false with
  | Ret rt => rt
  | Throw _ => mkTransportRuntime demo_limits false 0 ∅ [] (generator 0) (generator 0) ∅ ∅ ∅
  end.

Definition idle_kernel : Kernel unit := mkKernel (new_simulation 1 TraceMode_Disabled false) tt.

Definition demo_start : Transport (Kernel unit) :=
  mkTransport demo_runtime (build demo_topology) idle_kernel.

Definition demo_submitted : Transport (Kernel unit) := fst (submit_transfer demo_request demo_start).

(** The kernel dispatches event 0, the arrival of chunk 0. *)
Definition demo_dispatching : Transport (Kernel unit) :=
  let k := tp_context demo_submitted in
  let s := k_sim k in
  {| demo_submitted with tp_context :=
     mkKernel {| s with current_event_ :=
       Some (mkEvent 0 Normal 0 None (ChunkArrival_ (mkChunkArrivalEvent 0 0))) |} tt |}.

Definition demo_arrived : Transport (Kernel unit) :=
  fst (handle_arrival (mkChunkArrivalEvent 0 0) demo_dispatching).

(** The first link fails while chunk 0 is in service. *)
Definition demo_failed : Transport (Kernel unit) :=
  fst (handle_link_state_change (mkLinkStateChangeEvent 2 Down) demo_arrived).

(** The kernel dispatches the arrivals of chunks 1 and 2 at the failed link, which
    drops them, so that the transfer ends. *)
Definition demo_late_arrival (chunk : ChunkId) (t : Transport (Kernel unit)) : Transport (Kernel unit) :=
  let s := k_sim (tp_context t) in
  {| t with tp_context := mkKernel {| s with current_event_ :=
     Some (mkEvent 0 Normal chunk None (ChunkArrival_ (mkChunkArrivalEvent chunk 0))) |} tt |}.

Definition demo_second : Transport (Kernel unit) :=
  fst (handle_arrival (mkChunkArrivalEvent 1 0) (demo_late_arrival 1 demo_failed)).

Definition demo_third : Transport (Kernel unit) :=
  fst (handle_arrival (mkChunkArrivalEvent 2 0) (demo_late_arrival 2 demo_second)).

Definition demo_completions : list TransferCompletion := completions_ (tp_runtime demo_third).

Definition demo_drained : Transport (Kernel unit) := fst (take_completed_transfers demo_third).

Lemma run_of_snd {S A} (m : M S A) s a : snd (m s) = Ret a -> m s = (fst (m s), Ret a).
Proof. destruct (m s). cbn. by intros ->. Qed.

Lemma demo_link_ok l : configuration_ok (demo_link l).
Proof. unfold configuration_ok, u64, u64_max. cbn. split_and!; try lia. intros t [= <-]. lia. Qed.

Lemma demo_new : new_transport_runtime (build demo_topology) (demo_link <$> demo_route) demo_limits false =
  Ret demo_runtime.
Proof. vm_compute. reflexivity. Qed.

Lemma demo_submit_run : submit_transfer demo_request demo_start = (demo_submitted, Ret
  (mkSubmittedTransfer 0 [mkSubmittedChunk 0 100; mkSubmittedChunk 1 100; mkSubmittedChunk 2 50])).
Proof.
  unfold demo_submitted. refine (run_of_snd (submit_transfer demo_request) demo_start _ _).
  vm_compute. reflexivity.
Qed.

Lemma demo_arrival_run :
  handle_arrival (mkChunkArrivalEvent 0 0) demo_dispatching = (demo_arrived, Ret tt).
Proof.
  unfold demo_arrived. refine (run_of_snd (handle_arrival (mkChunkArrivalEvent 0 0)) demo_dispatching _ _).
  vm_compute. reflexivity.
Qed.

Lemma demo_failure_run :
  handle_link_state_change (mkLinkStateChangeEvent 2 Down) demo_arrived = (demo_failed, Ret tt).
Proof.
  unfold demo_failed.
  refine (run_of_snd (handle_link_state_change (mkLinkStateChangeEvent 2 Down)) demo_arrived _ _).
  vm_compute. reflexivity.
Qed.

Lemma environment_step {C} `{SimContext C} (t : Transport C) c taken :
  transport_step (t, taken) ({| t with tp_context := c |}, taken).
Proof. destruct t as [rt g c0]. apply (step_environment rt g c0 taken g c). Qed.

Lemma demo_submit_step : transport_step (demo_start, []) (demo_submitted, []).
Proof.
  eapply step_submit; [| | | exact demo_submit_run].
  all: unfold demo_request, u64, u64_max; cbn; lia.
Qed.

Lemma demo_arrival_steps : rtc transport_step (demo_submitted, []) (demo_arrived, []).
Proof.
  apply (rtc_l _ _ (demo_dispatching, [])); [apply environment_step |].
  apply rtc_once. eapply step_arrival; exact demo_arrival_run.
Qed.

Lemma demo_later_steps : rtc transport_step (demo_submitted, []) (demo_failed, []).
Proof.
  eapply rtc_r; [exact demo_arrival_steps |]. eapply step_link_state; exact demo_failure_run.
Qed.

Lemma late_arrival_steps chunk t t' :
  snd (handle_arrival (mkChunkArrivalEvent chunk 0) (demo_late_arrival chunk t)) = Ret tt ->
  t' = fst (handle_arrival (mkChunkArrivalEvent chunk 0) (demo_late_arrival chunk t)) ->
  rtc transport_step (t, []) (t', []).
Proof.
  intros Hr ->. apply (rtc_l _ _ (demo_late_arrival chunk t, [])); [apply environment_step |].
  apply rtc_once. eapply step_arrival. exact (run_of_snd _ _ _ Hr).
Qed.

Lemma take_step (t : Transport (Kernel unit)) :
  transport_step (t, []) (fst (take_completed_transfers t), completions_ (tp_runtime t)).
Proof. apply (step_take t [] (fst (take_completed_transfers t)) (completions_ (tp_runtime t))). by destruct t. Qed.

Lemma demo_drained_steps : rtc transport_step (demo_failed, []) (demo_drained, demo_completions).
Proof.
  etrans; [apply (late_arrival_steps 1 demo_failed demo_second); [vm_compute; reflexivity | reflexivity] |].
  etrans; [apply (late_arrival_steps 2 demo_second demo_third); [vm_compute; reflexivity | reflexivity] |].
  apply rtc_once, take_step.
Qed.

(** What the demo can reach from its start is a reachable runtime. *)
Lemma demo_reach t taken : rtc transport_step (demo_start, []) (t, taken) ->
  reachable_transport (C := Kernel unit) (tp_runtime t) taken.
Proof.
  intros Ht. constructor. exists (build demo_topology), (demo_link <$> demo_route), demo_limits, false,
    demo_runtime, idle_kernel, t.
  split_and!; try (unfold demo_limits, u64, u64_max; cbn; lia); [| apply demo_new | exact Ht | reflexivity].
  apply Forall_fmap, Forall_true. intros l. apply demo_link_ok.
Qed.

Lemma demo_start_reachable : reachable_transport (C := Kernel unit) (tp_runtime demo_start) [].
Proof. apply demo_reach, rtc_refl. Qed.

Lemma demo_submitted_reachable : reachable_transport (C := Kernel unit) (tp_runtime demo_submitted) [].
Proof. apply demo_reach, rtc_once, demo_submit_step. Qed.

Lemma demo_arrived_reachable : reachable_transport (C := Kernel unit) (tp_runtime demo_arrived) [].
Proof. apply demo_reach. eapply rtc_l; [exact demo_submit_step | exact demo_arrival_steps]. Qed.

Lemma demo_reachable : reachable_transport (C := Kernel unit) (tp_runtime demo_failed) [].
Proof. apply demo_reach. eapply rtc_l; [exact demo_submit_step | exact demo_later_steps]. Qed.

Lemma demo_drained_reachable : reachable_transport (C := Kernel unit) (tp_runtime demo_drained) demo_completions.
Proof. apply demo_reach. eapply rtc_l; [exact demo_submit_step |]. etrans; [exact demo_later_steps | exact demo_drained_steps]. Qed.

(** ** Theorems *)

Section Theorems.
Context {C : Type} `{SimContext C}.

(** C1: every transfer is accounted for.  In every reachable runtime the bytes
    and chunks of a transfer are those delivered, dropped at a full buffer,
    dropped at a resource that is down, or still under way; and the transfer is
    completed exactly when nothing is under way, successfully exactly when all of
    it was delivered. *)
Theorem transfers_accounted rt taken id x :
  reachable_transport (C := C) rt taken -> transfers_ rt !! id = Some x ->
  let under_way := tally in_flight (chunks_ rt) (tf_chunks x) in
  tf_total x = tf_delivered x ⊕ tf_dropped_buffer_full x ⊕ tf_dropped_link_down x ⊕ under_way /\
  tf_total x = tally any_state (chunks_ rt) (tf_chunks x) /\
  (is_Some (tf_completion x) <-> tc_chunks under_way = 0) /\
  (forall cm, tf_completion x = Some cm ->
     cm = expected_completion id x (cm_timestamp cm) /\
     (cm_outcome cm = TransferOutcome_Succeeded <-> tf_delivered x = tf_total x)).
Proof.
  intros Hreach Hx under_way. pose proof (reachable_ok _ _ Hreach) as Hrt.
  pose proof (to_each _ _ _ (ro_transfers _ _ _ Hrt) _ _ Hx) as Ht.
  assert (forall c, c ∈ tf_chunks x -> is_Some (chunks_ rt !! c)) as Hin.
  { intros c Hc. apply (tk_members _ _ _ Ht) in Hc as (r & Hr & _). eauto. }
  assert (tf_total x = tf_delivered x ⊕ tf_dropped_buffer_full x ⊕ tf_dropped_link_down x ⊕ under_way) as Hsum.
  { rewrite (tk_total _ _ _ Ht), tally_split, tally_terminal, (tk_delivered _ _ _ Ht), (tk_full _ _ _ Ht),
      (tk_down _ _ _ Ht). unfold under_way. by rewrite !plus_traffic_assoc. }
  split; [done |]. split; [apply Ht |]. split.
  - unfold under_way. rewrite (tally_zero in_flight _ _ Hin).
    pose proof (tk_completion _ _ _ Ht) as Hc. destruct (tf_completion x) as [cm |].
    + split; [intros _ c r Hcr Hr | eauto]. unfold in_flight. destruct Hc as [Hc _]. by rewrite (Hc c r Hcr Hr).
    + split; [by intros [? ?] |]. intros Hall. destruct Hc as (c & r & Hcr & Hr & Hl).
      specialize (Hall c r Hcr Hr). unfold in_flight in Hall. by rewrite Hl in Hall.
  - intros cm Hcm. pose proof (tk_completion _ _ _ Ht) as Hc. rewrite Hcm in Hc. destruct Hc as [Hall Heq].
    split; [done |]. rewrite Heq. unfold expected_completion. cbn [cm_outcome].
    assert (tally any_state (chunks_ rt) (tf_chunks x) = tally terminal (chunks_ rt) (tf_chunks x)) as Hterm.
    { apply tally_ext. intros c r Hcr Hr. by rewrite (Hall c r Hcr Hr). }
    rewrite (tk_total _ _ _ Ht), Hterm. apply (outcome_all_delivered (chunks_ rt) id x Ht).
    intros c r _ Hr. destruct (to_bytes _ _ _ (ro_transfers _ _ _ Hrt) _ _ Hr). lia.
Qed.

(** C26: completions are reported exactly once.  In every reachable runtime, the
    completions handed out by [take_completed_transfers] so far, followed by the
    ones it would hand out now, name each transfer at most once and are exactly
    the completions of the transfers that are completed. *)
Theorem completions_reported_once rt taken :
  reachable_transport (C := C) rt taken ->
  NoDup (cm_transfer <$> taken ++ completions_ rt) /\
  (forall cm, cm ∈ taken ++ completions_ rt <->
     exists x, transfers_ rt !! cm_transfer cm = Some x /\ tf_completion x = Some cm).
Proof.
  intros Hreach. pose proof (ro_transfers _ _ _ (reachable_ok _ _ Hreach)) as Ht.
  split; [apply (to_once _ _ _ Ht) | apply (to_log _ _ _ Ht)].
Qed.

(** Snapshots are complete.  [transfer_snapshot] never throws on a reachable
    runtime, and the categories it reports add up to the total of the transfer. *)
Theorem transfer_snapshot_complete rt taken id x :
  reachable_transport (C := C) rt taken -> transfers_ rt !! id = Some x ->
  exists s, transfer_snapshot id rt = Ret (Some s) /\
    ts_total s = under_way s ⊕ ts_delivered s ⊕ ts_dropped_buffer_full s ⊕ ts_dropped_link_down s /\
    ts_total s = tf_total x /\ ts_completion s = tf_completion x.
Proof.
  intros Hreach Hx. pose proof (reachable_ok _ _ Hreach) as Hrt.
  pose proof (to_each _ _ _ (ro_transfers _ _ _ Hrt) _ _ Hx) as Ht.
  unfold transfer_snapshot. rewrite Hx. set (snap := mkTransferSnapshot _ _ _ _ _ _ _ _ _ _ _).
  assert (under_way snap = no_traffic) as Hu by done.
  assert (tf_total x = tally in_flight (chunks_ rt) (tf_chunks x) ⊕ tf_delivered x ⊕ tf_dropped_buffer_full x
    ⊕ tf_dropped_link_down x) as Hsum.
  { rewrite (tk_total _ _ _ Ht), tally_split, tally_terminal, (tk_delivered _ _ _ Ht), (tk_full _ _ _ Ht),
      (tk_down _ _ _ Ht). tally_lia. }
  destruct (snapshot_chunks_run rt taken snap (tf_chunks x) Hrt) as (s & -> & Hs & He).
  - intros c Hc. apply (tk_members _ _ _ Ht) in Hc as (r & Hr & _). eauto.
  - unfold categories_nonneg. cbn. unfold traffic_le. cbn. lia.
  - rewrite Hu, plus_traffic_0_l. eapply traffic_ok_le; [| | apply (tk_total_ok _ _ _ Ht)].
    + apply tally_nonneg. intros c r _ Hr. destruct (to_bytes _ _ _ (ro_transfers _ _ _ Hrt) _ _ Hr). lia.
    + rewrite (tk_total _ _ _ Ht). apply tally_sub; [| done]. intros c r _ Hr.
      destruct (to_bytes _ _ _ (ro_transfers _ _ _ Hrt) _ _ Hr). lia.
  - exists s. unfold settled_part in He. cbn in He. injection He as E1 E2 E3 E4 E5 E6.
    rewrite E1, E2, E3, E4, E6, Hs, Hu, plus_traffic_0_l. done.
Qed.

(** C25: the queues hold exactly the admitted chunks.  In every reachable runtime
    a chunk is in the queue of a link, once, precisely when its record says that
    it is admitted at a hop whose link is that one, and the queued copy is the
    recorded chunk. *)
Theorem queues_hold_admitted rt taken :
  reachable_transport (C := C) rt taken ->
  (forall l s c, services_ rt !! l = Some s ->
     c ∈ contents (queue_ s) <->
     exists r, chunks_ rt !! chunk_id c = Some r /\ cr_chunk r = c /\ cr_state r = CT_Admitted /\
               cr_route r !! Z.to_nat (cr_hop_index r) = Some l) /\
  (forall l s, services_ rt !! l = Some s -> NoDup (chunk_id <$> contents (queue_ s))).
Proof.
  intros Hreach. pose proof (reachable_ok _ _ Hreach) as Hrt. pose proof (ro_queues _ _ _ Hrt) as Hq.
  assert (forall l s, services_ rt !! l = Some s -> held_of (services_ rt) no_extra l = contents (queue_ s)) as Hh.
  { intros l s Hs. unfold held_of, no_extra. by rewrite Hs, app_nil_r. }
  split; [intros l s c Hs; split |].
  - rewrite <- (Hh l s Hs). intros Hc. destruct (qo_held _ _ Hq l c Hc) as (r & H1 & H2 & H3 & H4 & _). eauto 8.
  - intros (r & H1 & H2 & H3 & H4). destruct (qo_admitted _ _ Hq _ _ H1 H3) as [l' Hl'].
    destruct (qo_held _ _ Hq l' _ Hl') as (r' & H5 & _ & _ & H6 & _). rewrite H2 in *.
    assert (r' = r) as -> by congruence. assert (l' = l) as -> by congruence. by rewrite <- (Hh l s Hs).
  - intros l s Hs. rewrite <- (Hh l s Hs). apply (qo_once _ _ Hq).
Qed.

(** C36: chunks only move forward.  Along every run each chunk keeps its
    transfer, size and route, its hop index never decreases, a congestion mark is
    never lost, and a delivered or dropped chunk never changes again. *)
Theorem chunks_move_forward t taken t' taken' id r :
  reachable_transport (C := C) (tp_runtime t) taken ->
  rtc transport_step (t, taken) (t', taken') -> chunks_ (tp_runtime (C := C) t) !! id = Some r ->
  exists r', chunks_ (tp_runtime t') !! id = Some r' /\ advances r r'.
Proof.
  intros Hreach Hsteps Hr. destruct (transport_reach_ok _ _ Hsteps (reachable_ok _ _ Hreach)) as [_ Hadv]. by apply Hadv.
Qed.

(** C30: a transfer is cut exactly and accepted as a whole.  [submit_transfer]
    either throws with everything as it was, or registers the whole transfer:
    chunks with the next consecutive identifiers, all of the maximal size except
    for a smaller last one, adding up to the bytes of the request.  After that
    only scheduling can still throw; when it returns, the result lists exactly
    these chunks. *)
Theorem submit_transfer_exact taken request (t : Transport C) :
  reachable_transport (C := C) (tp_runtime t) taken -> u64 (ctx_now (tp_context t)) ->
  u64 (tr_bytes request) -> u64 (tr_maximum_chunk_bytes request) ->
  match submit_transfer request t with
  | (t', Throw e) => t' = t \/
      exists T chunks t1, submitted request taken T chunks t t1 /\ schedule_all chunks t1 = (t', Throw e)
  | (t', Ret st) =>
      exists t1, submitted request taken (st_id st) (st_chunks st) t t1 /\
        schedule_all (st_chunks st) t1 = (t', Ret tt) /\ runtime_ok (tp_runtime t') no_extra taken
  end.
Proof.
  intros Hreach Hnow Hb Hm. pose proof (reachable_ok _ _ Hreach) as Hrt.
  destruct (submit_transfer_run taken request t Hrt Hnow Hb Hm) as [[e ->] | (T & chunks & t1 & Hsub & ->)]; [by left |].
  pose proof (schedule_all_spec taken chunks t1 (sb_ok _ _ _ _ _ _ Hsub)) as Hs.
  unfold bind, returns, wp, ret in *. destruct (schedule_all chunks t1) as [t2 [[] | e]] eqn:E.
  - exists t1. split_and!; [done | done | apply Hs].
  - right. eauto 6.
Qed.

(** Only connected routes are accepted.  On a reachable runtime
    [validate_route] accepts a route precisely when it is nonempty, within the
    limits, made of configured fabric links of the topology, each starting at the
    node where the one before ends, from the expected source to the expected
    destination. *)
Theorem validate_route_exact rt taken route source destination g :
  reachable_transport (C := C) rt taken ->
  validate_route route source destination rt g = Ret tt <-> route_valid route source destination rt g.
Proof.
  intros Hreach. pose proof (reachable_ok _ _ Hreach) as Hrt. destruct (ro_bounded _ _ _ Hrt) as [B1 B2].
  apply validate_route_iff; [apply Hrt | done | done].
Qed.
End Theorems.

(** ** Witnesses *)

Definition demo_transfer : TransferRecord :=
  default new_transfer_record (transfers_ (tp_runtime demo_failed) !! 0).

Lemma demo_transfer_known : transfers_ (tp_runtime demo_failed) !! 0 = Some demo_transfer.
Proof. vm_compute. reflexivity. Qed.

Lemma transfers_accounted_witness :
  tf_total demo_transfer = tf_delivered demo_transfer ⊕ tf_dropped_buffer_full demo_transfer
    ⊕ tf_dropped_link_down demo_transfer
    ⊕ tally in_flight (chunks_ (tp_runtime demo_failed)) (tf_chunks demo_transfer) /\
  tf_dropped_link_down demo_transfer = mkTrafficCount 100 1.
Proof.
  split; [| vm_compute; reflexivity].
  apply (transfers_accounted (C := Kernel unit) (tp_runtime demo_failed) [] 0 demo_transfer).
  - exact demo_reachable.
  - exact demo_transfer_known.
Defined.

Lemma completions_reported_once_witness :
  (cm_transfer <$> demo_completions) = [0] /\ completions_ (tp_runtime demo_drained) = [] /\
  exists cm x, cm ∈ demo_completions /\ transfers_ (tp_runtime demo_drained) !! 0 = Some x /\ tf_completion x = Some cm.
Proof.
  destruct (completions_reported_once (C := Kernel unit) (tp_runtime demo_drained) demo_completions demo_drained_reachable) as [_ Hlog].
  assert ((cm_transfer <$> demo_completions) = [0]) as Hids by (vm_compute; reflexivity).
  split; [exact Hids | split; [vm_compute; reflexivity |]].
  destruct demo_completions as [| cm rest]; [discriminate |]. injection Hids as Hid _.
  destruct (proj1 (Hlog cm)) as (x & Hx & Hc); [apply elem_of_app; left; apply elem_of_cons; left; reflexivity |].
  exists cm, x. rewrite Hid in Hx. split; [apply elem_of_cons; left; reflexivity | split; [exact Hx | exact Hc]].
Defined.

Lemma queues_hold_admitted_witness :
  exists s, services_ (tp_runtime demo_arrived) !! mkDirectedLinkId 2 AToB = Some s /\
    mkTransferChunk 0 0 100 0 false ∈ contents (queue_ s) /\ NoDup (chunk_id <$> contents (queue_ s)).
Proof.
  destruct (queues_hold_admitted (C := Kernel unit) (tp_runtime demo_arrived) [] demo_arrived_reachable)
    as [Hin Hnd].
  destruct (services_ (tp_runtime demo_arrived) !! mkDirectedLinkId 2 AToB) as [s |] eqn:Hs.
  - exists s. split; [reflexivity | split].
    + apply (Hin _ s _ Hs). eexists. split; [vm_compute; reflexivity |].
      split_and!; vm_compute; reflexivity.
    + exact (Hnd _ s Hs).
  - exfalso. vm_compute in Hs. discriminate.
Defined.

Lemma chunks_move_forward_witness :
  exists r', chunks_ (tp_runtime demo_failed) !! 0 = Some r' /\
    advances (mkChunkRecord (mkTransferChunk 0 0 100 0 false) demo_route CT_AwaitingArrival 0 (Some 0)) r'.
Proof.
  apply (chunks_move_forward demo_submitted [] demo_failed [] 0).
  - exact demo_submitted_reachable.
  - exact demo_later_steps.
  - vm_compute. reflexivity.
Defined.

Lemma submit_transfer_exact_witness :
  exists t1, submitted demo_request [] 0
    [mkSubmittedChunk 0 100; mkSubmittedChunk 1 100; mkSubmittedChunk 2 50] demo_start t1.
Proof.
  pose proof (submit_transfer_exact [] demo_request demo_start demo_start_reachable) as Hs.
  rewrite demo_submit_run in Hs. destruct Hs as (t1 & Hs & _).
  - unfold u64, u64_max. cbn. lia.
  - unfold demo_request, u64, u64_max. cbn. lia.
  - unfold demo_request, u64, u64_max. cbn. lia.
  - exists t1. exact Hs.
Defined.

