(* ===== verification/CollectivePlan.v ===== *)
(** * The ring all-reduce plan

    Models [collective/model.hpp] (the data of a collective) and
    [collective/planner.cpp]: which shard every rank passes to its neighbour in
    each round.  The abstract specification is an all-reduce: after the rounds
    of the plan every rank holds, for every shard, the sum of what all ranks
    held at the start. *)

From S2P Require Import Prelude SimTime Entities.

(** ** Data *)

Record CollectiveRequest : Type := mkCollectiveRequest {
  cq_participants : list GpuId;
  cq_bytes : ByteCount;
  cq_chunk_bytes : ByteCount;
}.

Record RingTransfer : Type := mkRingTransfer {
  rg_source : Z;
  rg_destination : Z;
  rg_shard : Z;
  rg_bytes : ByteCount;
}.

Record CollectiveResult : Type := mkCollectiveResult {
  cl_id : CollectiveId;
  cl_outcome : Phase;
  cl_started : SimTimeNs;
  cl_finished : SimTimeNs;
  cl_planned_bytes : Z;
  cl_issued_fabric_bytes : Z;
  cl_issued_local_bytes : Z;
  cl_delivered_bytes : Z;
  cl_reason : string;
}.

Record CollectiveTimeline : Type := mkCollectiveTimeline {
  ct_id : CollectiveId;
  ct_timestamp : SimTimeNs;
  ct_phase : Phase;
  ct_round : Z;
}.

(** ** The planner *)

Definition phase_name (phase : Phase) : string :=
  match phase with
  | ReduceScatter => "reduce_scatter"
  | AllGather => "all_gather"
  | Phase_Succeeded => "succeeded"
  | Phase_Failed => "failed"
  | Phase_Cancelled => "cancelled"
  end.

(** [participants] is a [std::uint32_t]. *)
Definition planned_volume (participants : Z) (bytes : ByteCount) : outcome Z :=
  if (participants =? 0) || (participants >? 8192) || (bytes =? 0)
  then Throw (invalid_argument "invalid ring dimensions") else
  let factor := u64_wrap (2 * u32_wrap (participants - 1)) in
  if negb (factor =? 0) && (bytes >? u64_max / factor)
  then Throw (overflow_error "ring volume overflow")
  else Ret (u64_wrap (factor * bytes)).

(** The shard a rank passes on, in 32-bit arithmetic. *)
Definition ring_shard (participants : Z) (phase : Phase) (round rank : Z) : Z :=
  u32_wrap (rank + participants - round + Z.b2z (bool_decide (phase = AllGather)))
    mod participants.

Definition shard_size (participants : Z) (bytes : ByteCount) (shard : Z) : Z :=
  u64_wrap (bytes / participants + Z.b2z (shard <? bytes mod participants)).

Definition ring_transfer (participants : Z) (bytes : ByteCount) (phase : Phase)
    (round rank : Z) : RingTransfer :=
  let shard := ring_shard participants phase round rank in
  mkRingTransfer rank (u32_wrap (rank + 1) mod participants) shard
    (shard_size participants bytes shard).

Definition plan_round (participants : Z) (bytes : ByteCount) (phase : Phase) (round : Z)
    : outcome (list RingTransfer) :=
  match planned_volume participants bytes with
  | Throw e => Throw e
  | Ret _ =>
      if (negb (bool_decide (phase = ReduceScatter)) && negb (bool_decide (phase = AllGather))) ||
         (participants <? 2) || (round >=? u32_wrap (participants - 1))
      then Throw (invalid_argument "invalid ring phase or round")
      else Ret (ring_transfer participants bytes phase round <$> seqZ 0 participants)
  end.

(** ** The abstract all-reduce

    A rank holds a number for every shard; a transfer of the reduce-scatter
    adds the sender's number to the receiver's, one of the all-gather replaces
    it.  All transfers of a round read the numbers at its start.  Empty shards
    are not sent. *)

Definition ring_data : Type := Z -> Z -> Z.

Definition receive (phase : Phase) (start : ring_data) (mine : Z) (t : RingTransfer) : Z :=
  let sent := start (rg_source t) (rg_shard t) in
  if bool_decide (phase = AllGather) then sent else mine + sent.

Definition exchange (phase : Phase) (plan : list RingTransfer) (start : ring_data) : ring_data :=
  fun rank shard =>
    foldl (receive phase start) (start rank shard)
      (filter (fun t => rg_destination t = rank /\ rg_shard t = shard) plan).

Definition ring_round (participants : Z) (bytes : ByteCount) (data : ring_data)
    (step : Phase * Z) : ring_data :=
  match plan_round participants bytes (fst step) (snd step) with
  | Ret plan => exchange (fst step) (filter (fun t => rg_bytes t <> 0) plan) data
  | Throw _ => data
  end.

(** The rounds in the order the executor advances through them. *)
Definition ring_rounds (participants : Z) : list (Phase * Z) :=
  (pair ReduceScatter <$> seqZ 0 (participants - 1)) ++
  (pair AllGather <$> seqZ 0 (participants - 1)).

Definition ring_all_reduce (participants : Z) (bytes : ByteCount) (data : ring_data) : ring_data :=
  foldl (ring_round participants bytes) data (ring_rounds participants).

(** ** Arithmetic on a ring *)

Lemma ring_add n a b : 0 <= a < n -> 0 <= b <= n ->
  (a + b) mod n = if a + b <? n then a + b else a + b - n.
Proof.
  intros Ha Hb. destruct (Z.ltb_spec (a + b) n); [apply Z.mod_small; lia |].
  symmetry. apply Z.mod_unique with 1; lia.
Qed.

Lemma ring_sub n a b : 0 <= a < n -> 0 <= b <= n ->
  (a - b) mod n = if a <? b then a - b + n else a - b.
Proof.
  intros Ha Hb. destruct (Z.ltb_spec a b); [| apply Z.mod_small; lia].
  symmetry. apply Z.mod_unique with (-1); lia.
Qed.

(** Arithmetic modulo [n] on numbers below [n] by cases. *)
Ltac ring_mod := repeat match goal with
  | |- context [(?a + ?b) mod ?n] => rewrite (ring_add n a b) by lia
  | |- context [(?a - ?b) mod ?n] => rewrite (ring_sub n a b) by lia
  | |- context [?a <? ?b] => destruct (Z.ltb_spec a b)
  end; try lia.

(** A ring rotated by [f] is the ring. *)
Lemma seqZ_rotation n (f g : Z -> Z) :
  (forall k, 0 <= k < n -> 0 <= f k < n /\ g (f k) = k) ->
  (forall k, 0 <= k < n -> 0 <= g k < n /\ f (g k) = k) ->
  f <$> seqZ 0 n ≡ₚ seqZ 0 n.
Proof.
  intros Hf Hg. apply NoDup_Permutation.
  - apply NoDup_fmap_2_strong; [| apply NoDup_seqZ].
    intros x y Hx%elem_of_seqZ Hy%elem_of_seqZ Heq.
    rewrite <- (proj2 (Hf x ltac:(lia))), <- (proj2 (Hf y ltac:(lia))). by rewrite Heq.
  - apply NoDup_seqZ.
  - intros x. rewrite list_elem_of_fmap. setoid_rewrite elem_of_seqZ. split.
    + intros (k & -> & Hk). destruct (Hf k ltac:(lia)). lia.
    + intros Hx. exists (g x). destruct (Hg x ltac:(lia)). split; [done | lia].
Qed.

Lemma filter_fmap {A B} (f : A -> B) (P : B -> Prop) `{!forall x, Decision (P x)} (l : list A) :
  filter P (f <$> l) = f <$> filter (fun x => P (f x)) l.
Proof.
  induction l as [| x l IH]; [done |]. rewrite fmap_cons, !filter_cons, IH.
  by destruct (decide (P (f x))).
Qed.

Lemma filter_comm {A} (P Q : A -> Prop) `{!forall x, Decision (P x)} `{!forall x, Decision (Q x)}
    (l : list A) :
  filter P (filter Q l) = filter Q (filter P l).
Proof. rewrite !list_filter_filter. apply filter_ext_in. tauto. Qed.

Lemma filter_unique {A} (P : A -> Prop) `{!forall x, Decision (P x)} (l : list A) x :
  NoDup l -> x ∈ l -> (forall y, y ∈ l -> P y <-> y = x) -> filter P l = [x].
Proof.
  induction l as [| y l IH]; intros Hnd Hx HP; [by apply elem_of_nil in Hx |].
  apply NoDup_cons in Hnd as [Hy Hnd]. rewrite filter_cons.
  apply elem_of_cons in Hx as [-> | Hx].
  - rewrite decide_True by (by apply HP; [left |]). f_equal.
    apply filter_none. intros z Hin Hz.
    apply HP in Hz; [by subst | by right].
  - rewrite decide_False.
    + apply IH; [done | done |]. intros z Hz. apply HP. by right.
    + intros Hp. apply HP in Hp; [by subst | left].
Qed.

(** ** The dimensions the planner accepts *)

Definition ring_ok (n : Z) (bytes : ByteCount) : Prop :=
  1 <= n <= 8192 /\ 0 < bytes /\ 2 * (n - 1) * bytes <= u64_max.

Lemma planned_volume_eq n bytes :
  u32 n -> u64 bytes ->
  match planned_volume n bytes with
  | Ret v => ring_ok n bytes /\ v = 2 * (n - 1) * bytes
  | Throw _ => ~ ring_ok n bytes
  end.
Proof.
  intros Hn Hb. unfold planned_volume, ring_ok.
  destruct (_ || _) eqn:Hd.
  - intros (H1 & H2 & _). word_lia.
  - apply orb_false_iff in Hd as [[H1 H2]%orb_false_iff H3].
    assert (u32_wrap (n - 1) = n - 1) as ->.
    { unfold u32_wrap. apply Z.mod_small. word_lia. }
    rewrite (u64_wrap_id (2 * (n - 1))) by word_lia.
    destruct (2 * (n - 1) =? 0) eqn:Hf; cbn [negb andb].
    + rewrite u64_wrap_id by word_lia. word_lia.
    + destruct (bytes >? u64_max / (2 * (n - 1))) eqn:Ho.
      * intros (_ & _ & Hle). apply Z.gtb_lt in Ho.
        assert (bytes <= u64_max / (2 * (n - 1))); [| lia]. apply Z.div_le_lower_bound; word_lia.
      * assert (2 * (n - 1) * bytes <= u64_max) as Hle.
        { assert (bytes <= u64_max / (2 * (n - 1))) by lia.
          pose proof (Z.mul_div_le u64_max (2 * (n - 1)) ltac:(word_lia)) as Hm.
          etrans; [| exact Hm]. apply Z.mul_le_mono_nonneg_l; word_lia. }
        rewrite u64_wrap_id; [split; [split_and!; word_lia | lia] |].
        split; [apply Z.mul_nonneg_nonneg; word_lia | done].
Qed.

Section Round.
Context (n : Z) (bytes : ByteCount) (Hok : ring_ok n bytes) (Hn : 2 <= n) (Hb : u64 bytes).
Context (phase : Phase) (Hphase : phase = ReduceScatter \/ phase = AllGather).
Context (round : Z) (Hround : 0 <= round < n - 1).

(** Hops behind its origin at which a shard is in this round. *)
Definition lag : Z := round + 1 - Z.b2z (bool_decide (phase = AllGather)).

Lemma lag_bounds : 0 <= lag <= n - 1.
Proof. unfold lag. destruct (bool_decide _); simpl; lia. Qed.

Lemma plan_round_eq :
  plan_round n bytes phase round = Ret (ring_transfer n bytes phase round <$> seqZ 0 n).
Proof.
  unfold plan_round. pose proof (planned_volume_eq n bytes ltac:(destruct Hok; word_lia) Hb) as Hv.
  destruct (planned_volume n bytes); [| done].
  assert (u32_wrap (n - 1) = n - 1) as ->.
  { unfold u32_wrap. apply Z.mod_small. destruct Hok. word_lia. }
  replace (_ || _) with false; [done |]. symmetry. rewrite !orb_false_iff. split_and!; [| lia | lia].
  by destruct Hphase as [-> | ->].
Qed.

Lemma ring_shard_eq rank : 0 <= rank < n ->
  ring_shard n phase round rank = (((rank + 1) mod n) - lag) mod n.
Proof.
  intros Hr. unfold ring_shard, u32_wrap. destruct Hok as [Hle _].
  rewrite (Z.mod_small _ (2 ^ 32)) by (destruct (bool_decide _); simpl; word_lia).
  rewrite Zminus_mod_idemp_l. unfold lag.
  replace (rank + n - round + _) with
    (rank + 1 - (round + 1 - Z.b2z (bool_decide (phase = AllGather))) + 1 * n) by lia.
  by rewrite Z.mod_add by lia.
Qed.

Lemma ring_destination rank : 0 <= rank < n -> u32_wrap (rank + 1) mod n = (rank + 1) mod n.
Proof.
  intros Hr. unfold u32_wrap. destruct Hok as [Hle _].
  by rewrite (Z.mod_small (rank + 1) (2 ^ 32)) by word_lia.
Qed.

(** Who sends a shard to [rank], if anybody. *)
Lemma incoming rank shard : 0 <= rank < n -> 0 <= shard < n ->
  filter (fun t => rg_destination t = rank /\ rg_shard t = shard)
    (ring_transfer n bytes phase round <$> seqZ 0 n) =
  if bool_decide ((rank - shard) mod n = lag)
  then [ring_transfer n bytes phase round ((rank - 1) mod n)] else [].
Proof.
  intros Hr Hs. pose proof lag_bounds as Hl.
  assert (forall k, 0 <= k < n ->
    rg_destination (ring_transfer n bytes phase round k) = rank /\
    rg_shard (ring_transfer n bytes phase round k) = shard <->
    k = (rank - 1) mod n /\ (rank - shard) mod n = lag) as Hiff.
  { intros k Hk. cbn. rewrite ring_destination, ring_shard_eq by done. split.
    - intros [<- <-]. ring_mod.
    - intros [-> Hd]. revert Hd. ring_mod. }
  rewrite filter_fmap. case_bool_decide as Hd.
  - rewrite (filter_unique _ _ ((rank - 1) mod n)); [done | apply NoDup_seqZ | |].
    + apply elem_of_seqZ. ring_mod.
    + intros k Hk%elem_of_seqZ. rewrite Hiff by lia. tauto.
  - rewrite filter_none; [done |]. intros k Hk%elem_of_seqZ. rewrite Hiff by lia. tauto.
Qed.
End Round.

(** ** What a round moves *)

Lemma shard_size_eq n bytes shard : 2 <= n -> u64 bytes ->
  shard_size n bytes shard = bytes / n + Z.b2z (shard <? bytes mod n).
Proof.
  intros Hn Hb. unfold shard_size. apply u64_wrap_id.
  assert (0 <= bytes / n) by (apply Z.div_pos; word_lia).
  assert (bytes / n <= bytes / 2) by (apply Z.div_le_compat_l; word_lia).
  assert (bytes / 2 * 2 <= bytes) by (pose proof (Z.mul_div_le bytes 2); lia).
  destruct (shard <? bytes mod n); simpl; word_lia.
Qed.

Lemma shard_sizes_prefix q r k : 0 <= r ->
  sumZ ((fun s => q + Z.b2z (s <? r)) <$> seqZ 0 (Z.of_nat k)) = Z.of_nat k * q + Z.min (Z.of_nat k) r.
Proof.
  intros Hr. induction k as [| k IH]; [simpl; lia |].
  rewrite seqZ_S, fmap_app, sumZ_app, IH. simpl sumZ.
  destruct (Z.ltb_spec (0 + Z.of_nat k) r); cbn [Z.b2z]; lia.
Qed.

(** The shards are a partition of the bytes. *)
Lemma shard_sizes_total n bytes : 2 <= n -> u64 bytes ->
  sumZ (shard_size n bytes <$> seqZ 0 n) = bytes.
Proof.
  intros Hn Hb.
  rewrite (list_fmap_ext _ (fun s => bytes / n + Z.b2z (s <? bytes mod n)))
    by (intros i s _; by apply shard_size_eq).
  pose proof (Z.mod_pos_bound bytes n ltac:(lia)) as Hm. pose proof (Z.div_mod bytes n ltac:(lia)).
  pose proof (shard_sizes_prefix (bytes / n) (bytes mod n) (Z.to_nat n) ltac:(lia)) as Hs.
  rewrite Z2Nat.id in Hs by lia. rewrite Hs. lia.
Qed.

Section RoundTraffic.
Context (n : Z) (bytes : ByteCount) (Hok : ring_ok n bytes) (Hn : 2 <= n) (Hb : u64 bytes).
Context (phase : Phase) (Hphase : phase = ReduceScatter \/ phase = AllGather).
Context (round : Z) (Hround : 0 <= round < n - 1).

Let plan := ring_transfer n bytes phase round <$> seqZ 0 n.

Lemma plan_destinations : rg_destination <$> plan ≡ₚ seqZ 0 n.
Proof.
  unfold plan. rewrite <- list_fmap_compose.
  rewrite (list_fmap_ext _ (fun k => (k + 1) mod n)).
  - apply seqZ_rotation with (fun k => (k - 1) mod n); intros k Hk; ring_mod.
  - intros i k Hk%list_elem_of_lookup_2%elem_of_seqZ. cbn. apply ring_destination with bytes; [done | lia].
Qed.

Lemma plan_shards : rg_shard <$> plan ≡ₚ seqZ 0 n.
Proof.
  unfold plan. rewrite <- list_fmap_compose. pose proof (lag_bounds n phase round Hround) as Hl.
  rewrite (list_fmap_ext _ (fun k => ((k + 1) mod n - lag phase round) mod n)).
  - apply seqZ_rotation with (fun s => ((s + lag phase round) mod n - 1) mod n); intros k Hk; ring_mod.
  - intros i k Hk%list_elem_of_lookup_2%elem_of_seqZ. cbn. apply ring_shard_eq with bytes; try done; lia.
Qed.

Lemma plan_bytes : sumZ (rg_bytes <$> plan) = bytes.
Proof.
  etrans; [| by apply (shard_sizes_total n bytes)]. rewrite <- plan_shards.
  f_equal. unfold plan. by rewrite <- !list_fmap_compose.
Qed.
End RoundTraffic.

(** ** The data the rounds compute *)

Section AllReduce.
Context (n : Z) (bytes : ByteCount) (Hok : ring_ok n bytes) (Hn : 2 <= n) (Hb : u64 bytes).
Context (shard : Z) (Hshard : 0 <= shard < n) (Hsize : shard_size n bytes shard <> 0).

(** A round, seen by one rank. *)
Lemma ring_round_eq phase round data rank :
  phase = ReduceScatter \/ phase = AllGather -> 0 <= round < n - 1 -> 0 <= rank < n ->
  ring_round n bytes data (phase, round) rank shard =
  if bool_decide ((rank - shard) mod n = lag phase round)
  then (if bool_decide (phase = AllGather) then 0 else data rank shard) + data ((rank - 1) mod n) shard
  else data rank shard.
Proof.
  intros Hp Hro Hra. unfold ring_round. cbn [fst snd]. rewrite plan_round_eq by done.
  unfold exchange. rewrite filter_comm.
  rewrite (incoming n bytes Hok Hn phase Hp round Hro rank shard Hra Hshard). case_bool_decide as Hd; [| done].
  assert (ring_shard n phase round ((rank - 1) mod n) = shard) as Hsh.
  { pose proof (lag_bounds n phase round Hro).
    rewrite (ring_shard_eq n bytes Hok Hn) by (done || ring_mod). revert Hd. ring_mod. }
  rewrite filter_cons. cbn [rg_bytes ring_transfer]. rewrite Hsh, decide_True by done.
  cbn. unfold receive. cbn. rewrite Hsh. by case_bool_decide.
Qed.

Context (start : ring_data).

(** What the ranks [shard .. shard + d] held. *)
Definition partial (d : Z) : Z :=
  sumZ ((fun j => start ((shard + j) mod n) shard) <$> seqZ 0 (d + 1)).

Lemma partial_succ d : 0 <= d -> partial (d + 1) = partial d + start ((shard + (d + 1)) mod n) shard.
Proof.
  intros Hd. unfold partial. replace (d + 1 + 1) with (Z.of_nat (S (Z.to_nat (d + 1)))) by lia.
  rewrite seqZ_S, fmap_app, sumZ_app. rewrite Z2Nat.id by lia. simpl sumZ.
  rewrite Z.add_0_l. lia.
Qed.

Definition total : Z := sumZ ((fun k => start k shard) <$> seqZ 0 n).

Lemma partial_total : partial (n - 1) = total.
Proof.
  unfold partial, total. rewrite Z.sub_add.
  rewrite <- (seqZ_rotation n (fun j => (shard + j) mod n) (fun k => (k - shard) mod n)) at 2
    by (intros k Hk; ring_mod).
  by rewrite <- list_fmap_compose.
Qed.

Lemma reduce_rounds (t : nat) rank : Z.of_nat t <= n - 1 -> 0 <= rank < n ->
  foldl (ring_round n bytes) start (pair ReduceScatter <$> seqZ 0 (Z.of_nat t)) rank shard =
  let d := (rank - shard) mod n in if d <=? Z.of_nat t then partial d else start rank shard.
Proof.
  revert rank. induction t as [| t IH]; intros rank Ht Hr.
  - change (Z.of_nat 0) with 0. rewrite seqZ_nil by lia. cbn [fmap list_fmap foldl]. cbv zeta.
    destruct (Z.leb_spec ((rank - shard) mod n) 0) as [Hd | Hd]; [| done].
    assert (rank = shard) as -> by (revert Hd; ring_mod).
    rewrite Z.sub_diag, Z.mod_0_l by lia. unfold partial. rewrite (seqZ_cons 0 (0 + 1)) by lia. simpl sumZ. rewrite Z.add_0_r, Z.add_0_r, Z.mod_small; done.
  - rewrite seqZ_S, fmap_app, foldl_app. cbn [fmap list_fmap foldl]. rewrite Z.add_0_l.
    rewrite ring_round_eq by (try lia; tauto). rewrite !IH by (try lia; ring_mod). cbv zeta.
    unfold lag. rewrite (bool_decide_false (ReduceScatter = AllGather)) by done. cbn [Z.b2z].
    case_bool_decide as Hd.
    + assert (((rank - 1) mod n - shard) mod n = Z.of_nat t) as -> by (revert Hd; ring_mod).
      replace ((rank - shard) mod n) with (Z.of_nat t + 1) by lia.
      rewrite (proj2 (Z.leb_gt _ _)), (proj2 (Z.leb_le (Z.of_nat t) _)), (proj2 (Z.leb_le (_ + 1) _)) by lia.
      rewrite partial_succ by lia.
      replace ((shard + (Z.of_nat t + 1)) mod n) with rank; [lia |]. revert Hd. ring_mod.
    + assert (((rank - shard) mod n <=? Z.of_nat t) = ((rank - shard) mod n <=? Z.of_nat (S t))) as ->; [| done].
      apply eq_true_iff_eq. rewrite !Z.leb_le. lia.
Qed.

Lemma gather_rounds data (t : nat) rank : Z.of_nat t <= n - 1 -> 0 <= rank < n ->
  data ((shard - 1) mod n) shard = total ->
  let d := (rank - shard) mod n in
  foldl (ring_round n bytes) data (pair AllGather <$> seqZ 0 (Z.of_nat t)) rank shard =
  if (d <? Z.of_nat t) || (d =? n - 1) then total else data rank shard.
Proof.
  intros Ht Hr Hfull. cbv zeta. revert rank Hr Ht. induction t as [| t IH]; intros rank Hr Ht.
  - change (Z.of_nat 0) with 0. rewrite seqZ_nil by lia. cbn [fmap list_fmap foldl].
    destruct (_ || _) eqn:Hd; [| done].
    rewrite <- Hfull. f_equal. assert (0 <= (rank - shard) mod n) by (apply Z.mod_pos_bound; lia).
    assert ((rank - shard) mod n = n - 1) as Hd' by lia. revert Hd'. clear Hd. ring_mod.
  - rewrite seqZ_S, fmap_app, foldl_app. cbn [fmap list_fmap foldl]. rewrite Z.add_0_l.
    rewrite ring_round_eq by (try lia; tauto). rewrite !IH by (try lia; ring_mod).
    unfold lag. rewrite !(bool_decide_true (AllGather = AllGather)) by done. cbn [Z.b2z].
    case_bool_decide as Hd.
    + replace (((rank - 1) mod n - shard) mod n) with (if (t =? 0)%nat then n - 1 else Z.of_nat t - 1).
      * rewrite (proj2 (Z.ltb_lt ((rank - shard) mod n) (Z.of_nat (S t)))) by lia.
        destruct (Nat.eqb_spec t 0); [by rewrite Z.eqb_refl, orb_true_r |].
        by rewrite (proj2 (Z.ltb_lt (Z.of_nat t - 1) _)) by lia.
      * destruct (Nat.eqb_spec t 0); revert Hd; ring_mod.
    + assert (((rank - shard) mod n <? Z.of_nat t) = ((rank - shard) mod n <? Z.of_nat (S t))) as ->; [| done].
      apply eq_true_iff_eq. rewrite !Z.ltb_lt. lia.
Qed.

Lemma all_reduce_eq rank : 0 <= rank < n -> ring_all_reduce n bytes start rank shard = total.
Proof.
  intros Hr. unfold ring_all_reduce, ring_rounds. rewrite foldl_app.
  replace (n - 1) with (Z.of_nat (Z.to_nat (n - 1))) at 2 by lia.
  rewrite gather_rounds; [| lia | done |].
  - pose proof (Z.mod_pos_bound (rank - shard) n ltac:(lia)) as Hd. revert Hd.
    generalize ((rank - shard) mod n). intros d Hd. destruct (_ || _) eqn:Hb'; [done |].
    apply orb_false_iff in Hb' as [H1%Z.ltb_ge H2%Z.eqb_neq]. lia.
  - replace (n - 1) with (Z.of_nat (Z.to_nat (n - 1))) by lia.
    rewrite reduce_rounds by (try lia; ring_mod). cbv zeta.
    assert (((shard - 1) mod n - shard) mod n = n - 1) as -> by ring_mod.
    rewrite (proj2 (Z.leb_le _ _)) by lia. apply partial_total.
Qed.
End AllReduce.

(** ** Theorems *)

(** A round is a rotation of the ring.  [plan_round] answers exactly for at
    least two and at most 8192 participants, a nonzero volume whose total fits
    64 bits, one of the two communication phases and a round below
    [participants - 1]; then every rank sends once, to its successor, every rank
    receives once, every shard is in flight once, and the sizes add up to the
    bytes of the request. *)
Theorem plan_round_exact n bytes phase round :
  u32 n -> u64 bytes -> u32 round ->
  let valid := ring_ok n bytes /\ 2 <= n /\ round < n - 1 /\
               (phase = ReduceScatter \/ phase = AllGather) in
  match plan_round n bytes phase round with
  | Throw _ => ~ valid
  | Ret plan =>
      valid /\ rg_source <$> plan = seqZ 0 n /\ rg_destination <$> plan ≡ₚ seqZ 0 n /\
      rg_shard <$> plan ≡ₚ seqZ 0 n /\ sumZ (rg_bytes <$> plan) = bytes /\
      Forall (fun t => rg_destination t = (rg_source t + 1) mod n) plan
  end.
Proof.
  intros Hn Hb Hr valid. destruct (decide valid) as [Hv | Hv].
  - pose proof Hv as (Hok & Hn2 & Hro & Hp). assert (0 <= round < n - 1) as Hro' by word_lia.
    rewrite plan_round_eq by done. split_and!; [done | | | | |].
    + rewrite <- list_fmap_compose. apply list_fmap_id.
    + by apply plan_destinations.
    + by apply plan_shards.
    + by apply plan_bytes.
    + apply Forall_fmap, Forall_forall. intros k Hk%elem_of_seqZ. cbn.
      apply ring_destination with bytes; [done | lia].
  - destruct (plan_round n bytes phase round) as [plan |] eqn:Hplan; [exfalso | done].
    apply Hv. unfold plan_round in Hplan. pose proof (planned_volume_eq n bytes Hn Hb) as Hvol.
    destruct (planned_volume n bytes); [| done]. destruct Hvol as [Hok _].
    destruct (_ || _) eqn:Hg in Hplan; [done |].
    apply orb_false_iff in Hg as [[H1 H2]%orb_false_iff H3]. unfold u32_wrap in H3.
    rewrite Z.mod_small in H3 by (destruct Hok; word_lia).
    split_and!; [done | lia | lia |]. destruct phase; auto; done.
Qed.

Definition round_volume (n : Z) (bytes : ByteCount) (step : Phase * Z) : Z :=
  match plan_round n bytes (fst step) (snd step) with
  | Ret plan => sumZ (rg_bytes <$> plan)
  | Throw _ => 0
  end.

Lemma ring_rounds_valid n step : step ∈ ring_rounds n ->
  (fst step = ReduceScatter \/ fst step = AllGather) /\ 0 <= snd step < n - 1.
Proof.
  unfold ring_rounds. rewrite elem_of_app, !list_elem_of_fmap.
  intros [(r & -> & Hr%elem_of_seqZ) | (r & -> & Hr%elem_of_seqZ)]; cbn; (split; [tauto | lia]).
Qed.

(** C9: the plan is an all-reduce.  Whenever [planned_volume] accepts the
    dimensions, running the rounds of the reduce-scatter and then those of the
    all-gather leaves on every rank, for every nonempty shard, the sum of what
    all ranks held at the start, each contribution counted once; and the bytes
    of these rounds add up to the volume announced. *)
Theorem ring_all_reduce_correct n bytes volume start :
  u32 n -> u64 bytes -> 2 <= n -> planned_volume n bytes = Ret volume ->
  (forall rank shard, 0 <= rank < n -> 0 <= shard < n -> shard_size n bytes shard <> 0 ->
     ring_all_reduce n bytes start rank shard = sumZ ((fun k => start k shard) <$> seqZ 0 n)) /\
  sumZ (round_volume n bytes <$> ring_rounds n) = volume.
Proof.
  intros Hn Hb Hn2 Hv. pose proof (planned_volume_eq n bytes Hn Hb) as Hvol. rewrite Hv in Hvol.
  destruct Hvol as [Hok ->]. split; [intros rank shard Hr Hs Hsz; by apply all_reduce_eq |].
  rewrite (list_fmap_ext _ (fun _ => bytes)).
  - rewrite (const_fmap _ _ bytes) by done. rewrite sumZ_replicate. unfold ring_rounds.
    rewrite length_app, !length_fmap, length_seqZ. lia.
  - intros i step Hi%list_elem_of_lookup_2%ring_rounds_valid. destruct Hi as [Hp Hr].
    unfold round_volume. rewrite plan_round_eq by done. by apply plan_bytes.
Qed.

Lemma ring_all_reduce_correct_witness :
  ring_all_reduce 3 7 (fun rank shard => rank * 10 + shard) 1 2 = 36.
Proof.
  destruct (ring_all_reduce_correct 3 7 28 (fun rank shard => rank * 10 + shard)
    ltac:(word_lia) ltac:(word_lia) ltac:(lia) ltac:(vm_compute; reflexivity)) as [Hr _].
  rewrite Hr; [vm_compute; reflexivity | lia | lia | vm_compute; discriminate].
Defined.
