(* ===== verification/RoutingPaths.v ===== *)
(** * The path service

    Models [routing/paths.{hpp,cpp}]: the enumeration of all shortest fabric
    paths between two NICs or switches, and the bounded cache in front of it.
    A pointer that the source dereferences without a check is an
    [Option] here, and its null case a throw that [RoutingPathsLaws] shows
    unreachable. *)

From S2P Require Import Prelude SimTime Entities TelemetryRecords Topology.

Abbreviation Path := (list DirectedLinkId) (only parsing).

Record Endpoints : Type := mkEndpoints { ep_source : NodeId; ep_destination : NodeId }.

#[global] Instance Endpoints_eq_dec : EqDecision Endpoints.
Proof. solve_decision. Defined.

#[global] Program Instance Endpoints_countable : Countable Endpoints :=
  inj_countable' (fun e => (ep_source e, ep_destination e)) (fun p => mkEndpoints (fst p) (snd p)) _.
Next Obligation. by intros []. Qed.

Record PathLimits : Type := mkPathLimits {
  maximum_paths : Z;
  maximum_hops : Z;
  maximum_cached_pairs : Z;
  maximum_cached_route_entries : Z;
}.

Definition default_path_limits : PathLimits := mkPathLimits 64 64 1024 262144.

Record CacheStatistics : Type := mkCacheStatistics {
  cs_hits : Z;
  cs_misses : Z;
  cs_invalidations : Z;
  cs_pairs : Z;
  cs_paths : Z;
  cs_route_entries : Z;
}.

(** The service also points to the topology, an argument below. *)
Record PathService : Type := mkPathService {
  ps_limits_ : PathLimits;
  ps_revision_ : Z;
  ps_statistics_ : CacheStatistics;
  ps_cache_ : gmap Endpoints (list Path);
  ps_order_ : list Endpoints;
}.

Definition new_path_service (g : TopologyGraph) (limits : PathLimits) : outcome PathService :=
  if (maximum_paths limits =? 0) || (maximum_hops limits =? 0) || (maximum_hops limits >? 1024) ||
     (maximum_cached_pairs limits =? 0) || (maximum_cached_route_entries limits =? 0)
  then Throw (invalid_argument "invalid routing path limits")
  else Ret (mkPathService limits (operational_revision_ g) (mkCacheStatistics 0 0 0 0 0 0) ∅ []).

(** ** Enumeration *)

Definition null_pointer : exn := logic_error "null pointer".

Definition index (node : NodeId) (g : TopologyGraph) : outcome Z :=
  if bool_decide (node_kind node = NodeKind_Nic) && has_value (find_nic (node_value node) g)
  then Ret (node_value node) else
  if bool_decide (node_kind node = NodeKind_Switch) && has_value (find_switch (node_value node) g)
  then Ret (u64_wrap (zlength (nics_ g) + node_value node))
  else Throw (invalid_argument "routing endpoint must be a known NIC or switch").

(** [distance[index(node)]] *)
Definition distance_at (node : NodeId) (distance : list Z) (g : TopologyGraph) : outcome Z :=
  match index node g with
  | Throw e => Throw e
  | Ret i => match distance !! Z.to_nat i with Some d => Ret d | None => Throw null_pointer end
  end.

(** The node at the end of an arc, or [None] for an arc both loops skip. *)
Definition fabric_neighbor (arc : DirectedLink) (g : TopologyGraph) : outcome (option NodeId) :=
  match find_link (dl_link (arc_id arc)) g with
  | None => Throw null_pointer
  | Some link =>
      if negb (bool_decide (link_kind link = Fabric)) || negb (is_operational arc g)
      then Ret None else
      match find_port (arc_destination arc) g with
      | None => Throw null_pointer
      | Some port => Ret (Some (port_owner port))
      end
  end.

(** The inner loop of the search from the destination. *)
Fixpoint spread (g : TopologyGraph) (node : NodeId) (arcs : list DirectedLink)
    (distance : list Z) (frontier : list NodeId) : outcome (list Z * list NodeId) :=
  match arcs with
  | [] => Ret (distance, frontier)
  | arc :: rest =>
      match fabric_neighbor arc g with
      | Throw e => Throw e
      | Ret None => spread g node rest distance frontier
      | Ret (Some neighbor) =>
          match index neighbor g, distance_at neighbor distance g with
          | Ret i, Ret next =>
              if next =? u64_max then
                match distance_at node distance g with
                | Throw e => Throw e
                | Ret here =>
                    spread g node rest (<[Z.to_nat i := u64_wrap (here + 1)]> distance)
                      (frontier ++ [neighbor])
                end
              else spread g node rest distance frontier
          | Throw e, _ | _, Throw e => Throw e
          end
      end
  end.

(** The loop over the frontier; the part behind the cursor is not read again.
    [None] when the fuel does not suffice. *)
Fixpoint flood (fuel : nat) (g : TopologyGraph) (frontier : list NodeId) (distance : list Z)
    : option (outcome (list Z)) :=
  match frontier with
  | [] => Some (Ret distance)
  | node :: rest =>
      match fuel with
      | O => None
      | S n =>
          match adjacency node g with
          | Throw e => Some (Throw e)
          | Ret arcs =>
              match spread g node arcs distance rest with
              | Throw e => Some (Throw e)
              | Ret (distance', frontier') => flood n g frontier' distance'
              end
          end
      end
  end.

(** The loop of [walk] over the arcs of a node at distance [here]; [step]
    continues from a neighbor. *)
Fixpoint walk_arcs (step : NodeId -> Path -> list Path -> option (outcome (list Path)))
    (g : TopologyGraph) (node : NodeId) (distance : list Z) (arcs : list DirectedLink)
    (path : Path) (result : list Path) : option (outcome (list Path)) :=
  match arcs with
  | [] => Some (Ret result)
  | arc :: rest =>
      match fabric_neighbor arc g with
      | Throw e => Some (Throw e)
      | Ret None => walk_arcs step g node distance rest path result
      | Ret (Some neighbor) =>
          match distance_at neighbor distance g, distance_at node distance g with
          | Ret there, Ret here =>
              if there <? here then
                match step neighbor (path ++ [arc_id arc]) result with
                | Some (Ret result') => walk_arcs step g node distance rest path result'
                | stop => stop
                end
              else walk_arcs step g node distance rest path result
          | Throw e, _ | _, Throw e => Some (Throw e)
          end
      end
  end.

Fixpoint walk (fuel : nat) (g : TopologyGraph) (limits : PathLimits) (distance : list Z)
    (node : NodeId) (path : Path) (result : list Path) : option (outcome (list Path)) :=
  match fuel with
  | O => None
  | S n =>
      match distance_at node distance g with
      | Throw e => Some (Throw e)
      | Ret here =>
          if here =? 0 then
            if (zlength result =? maximum_paths limits) ||
               (zlength result >=? maximum_cached_route_entries limits / zlength path)
            then Some (Throw (length_error "complete shortest-path set exceeds routing limits"))
            else Some (Ret (result ++ [path]))
          else
            match adjacency node g with
            | Throw e => Some (Throw e)
            | Ret arcs => walk_arcs (walk n g limits distance) g node distance arcs path result
            end
      end
  end.

(** The order of [std::vector]'s [<=>]. *)
Fixpoint path_leb (p q : Path) : bool :=
  match p, q with
  | [], _ => true
  | _ :: _, [] => false
  | x :: p', y :: q' =>
      if bool_decide (x = y) then path_leb p' q' else bool_decide (DirectedLinkId_le x y)
  end.

Definition path_le (p q : Path) : Prop := path_leb p q = true.

#[global] Instance path_le_dec : RelDecision path_le.
Proof. intros p q. unfold path_le. apply _. Defined.

(** The number of slots of [distance]; it bounds the turns of both loops. *)
Definition routing_nodes (g : TopologyGraph) : nat := (length (nics_ g) + length (switches_ g))%nat.

Definition enumerate (endpoints : Endpoints) (limits : PathLimits) (g : TopologyGraph)
    : option (outcome (list Path)) :=
  match index (ep_source endpoints) g, index (ep_destination endpoints) g with
  | Ret source, Ret destination =>
      if source =? destination
      then Some (Throw (invalid_argument "routing requires distinct endpoints")) else
      let distance := <[Z.to_nat destination := 0]> (replicate (routing_nodes g) u64_max) in
      match flood (routing_nodes g) g [ep_destination endpoints] distance with
      | None => None
      | Some (Throw e) => Some (Throw e)
      | Some (Ret distance) =>
          match distance_at (ep_source endpoints) distance g with
          | Throw e => Some (Throw e)
          | Ret d =>
              if d =? u64_max then Some (Ret []) else
              if d >? maximum_hops limits
              then Some (Throw (length_error "shortest route exceeds hop limit")) else
              match walk (S (Z.to_nat d)) g limits distance (ep_source endpoints) [] [] with
              | Some (Ret result) => Some (Ret (merge_sort path_le result))
              | stop => stop
              end
          end
      end
  | Throw e, _ | _, Throw e => Some (Throw e)
  end.

(** ** The cache *)

Definition PathM (A : Type) : Type := M PathService A.

Definition route_entries (paths : list Path) : Z := sumZ (zlength <$> paths).

(** Called on a nonempty cache only. *)
Definition evict_oldest (s : PathService) : PathService :=
  match ps_order_ s with
  | [] => s
  | front :: rest =>
      let oldest := default [] (ps_cache_ s !! front) in
      let st := ps_statistics_ s in
      {| s with
         ps_statistics_ := {| st with
           cs_route_entries := u64_wrap (cs_route_entries st - route_entries oldest);
           cs_paths := u64_wrap (cs_paths st - zlength oldest) |};
         ps_cache_ := delete front (ps_cache_ s);
         ps_order_ := rest |}
  end.

(** The [while] loop that makes room for [entries] more; a turn that finds
    nothing to evict would dereference the end of the cache. *)
Fixpoint make_room (fuel : nat) (entries : Z) (s : PathService) : option PathService :=
  if (Z.of_nat (size (ps_cache_ s)) >=? maximum_cached_pairs (ps_limits_ s)) ||
     (entries >? u64_wrap (maximum_cached_route_entries (ps_limits_ s) -
                           cs_route_entries (ps_statistics_ s)))
  then match fuel, ps_order_ s with
       | S n, _ :: _ => make_room n entries (evict_oldest s)
       | _, _ => None
       end
  else Some s.

(** A changed topology empties the cache. *)
Definition refresh (g : TopologyGraph) (s : PathService) : PathService :=
  if ps_revision_ s =? operational_revision_ g then s else
  let st := ps_statistics_ s in
  {| s with
     ps_cache_ := ∅;
     ps_order_ := [];
     ps_statistics_ := {| st with cs_paths := 0; cs_route_entries := 0;
                                  cs_invalidations := u64_wrap (cs_invalidations st + 1) |};
     ps_revision_ := operational_revision_ g |}.

(** [None] only when a loop runs out of fuel or evicts from nothing, which
    [path_lookup_run] excludes. *)
Definition path_lookup (endpoints : Endpoints) (g : TopologyGraph) (s : PathService)
    : option (PathService * outcome (list Path)) :=
  let s := refresh g s in
  let st := ps_statistics_ s in
  match ps_cache_ s !! endpoints with
  | Some found =>
      Some ({| s with ps_statistics_ := {| st with cs_hits := u64_wrap (cs_hits st + 1) |} |}, Ret found)
  | None =>
      let s := {| s with ps_statistics_ := {| st with cs_misses := u64_wrap (cs_misses st + 1) |} |} in
      match enumerate endpoints (ps_limits_ s) g with
      | None => None
      | Some (Throw e) => Some (s, Throw e)
      | Some (Ret paths) =>
          let entries := route_entries paths in
          match make_room (length (ps_order_ s)) entries s with
          | None => None
          | Some s =>
              let st := ps_statistics_ s in
              Some ({| s with
                       ps_cache_ := <[endpoints := paths]> (ps_cache_ s);
                       ps_order_ := ps_order_ s ++ [endpoints];
                       ps_statistics_ := {| st with
                         cs_route_entries := u64_wrap (cs_route_entries st + entries);
                         cs_paths := u64_wrap (cs_paths st + zlength paths) |} |}, Ret paths)
          end
      end
  end.

Definition path_statistics (s : PathService) : CacheStatistics :=
  let result := ps_statistics_ s in
  {| result with cs_pairs := Z.of_nat (size (ps_cache_ s)) |}.
