(* ===== verification/RoutingPathsLaws.v ===== *)
(** * The path service finds all shortest paths

    On every graph that can be built, [enumerate] returns exactly the shortest
    operational fabric paths, sorted, or refuses because they exceed a limit;
    and [path_lookup] answers what [enumerate] would answer now. *)

From S2P Require Import Prelude SimTime Entities TelemetryRecords Bfs Topology TopologyLaws.
From S2P Require Import RoutingPaths.

(** ** Fabric arcs *)

Definition fabric_arc (g : TopologyGraph) (arc : DirectedLink) : Prop :=
  is_operational arc g = true /\ link_kind <$> find_link (dl_link (arc_id arc)) g = Some Fabric.

(** One operational fabric arc leads from [n] to [m]. *)
Definition fabric_hop (g : TopologyGraph) (n m : NodeId) : Prop :=
  exists arc, arc ∈ arcs_from g n /\ fabric_arc g arc /\ owner_of g (arc_destination arc) = Some m.

(** A route along operational fabric arcs. *)
Inductive fabric_path (g : TopologyGraph) : NodeId -> Path -> NodeId -> Prop :=
  | fabric_path_nil n : fabric_path g n [] n
  | fabric_path_cons n arc m p d :
      arc ∈ arcs_from g n -> fabric_arc g arc -> owner_of g (arc_destination arc) = Some m ->
      fabric_path g m p d -> fabric_path g n (arc_id arc :: p) d.

Definition shortest_path (g : TopologyGraph) (s : NodeId) (p : Path) (d : NodeId) : Prop :=
  fabric_path g s p d /\ forall q, fabric_path g s q d -> (length p <= length q)%nat.

(** A NIC or switch of the graph. *)
Definition routing_node (g : TopologyGraph) (n : NodeId) : Prop :=
  node_in g n /\ node_kind n <> NodeKind_Gpu.

Lemma arc_link g arc : graph_ok g -> arc ∈ arcs_of (links_ g) ->
  exists l, l ∈ links_ g /\ find_link (dl_link (arc_id arc)) g = Some l /\
    (arc = fst (directed_links l) \/ arc = snd (directed_links l)).
Proof.
  intros Hg (l & Hl & Ha)%elem_of_arcs. exists l. split_and!; [done | | done].
  apply list_elem_of_lookup in Hl as [i Hi].
  destruct (gv_links _ (go_vectors _ Hg)) as [Hlen Hd].
  assert (dl_link (arc_id arc) = Z.of_nat i) as ->.
  { rewrite <- (Hd i l Hi). by destruct Ha as [-> | ->]. }
  apply (find_dense_Some link_id); [split; done |]. rewrite Nat2Z.id. split; [lia | done].
Qed.

Lemma arc_destination_owner g arc : graph_ok g -> arc ∈ arcs_of (links_ g) ->
  exists p, find_port (arc_destination arc) g = Some p /\
    owner_of g (arc_destination arc) = Some (port_owner p) /\ node_in g (port_owner p) /\
    (fabric_arc g arc -> node_kind (port_owner p) <> NodeKind_Gpu).
Proof.
  intros Hg Hin. destruct (arc_link g arc Hg Hin) as (l & Hl & Hf & Ha).
  destruct (gs_links _ (go_structure _ Hg) l Hl) as (Hpa & Hpb & _ & Hfab).
  assert (0 <= arc_destination arc < zlength (ports_ g)) as Hd by (by destruct Ha as [-> | ->]).
  destruct (proj2 (find_dense_is_Some port_id _ _ (gv_ports _ (go_vectors _ Hg))) Hd) as [p Hp].
  exists p. apply (find_dense_Some port_id) in Hp as Hp'; [| apply Hg]. destruct Hp' as [_ Hp'].
  assert (owner_of g (arc_destination arc) = Some (port_owner p)) as Ho by (unfold owner_of; by rewrite Hp').
  split_and!; [done | done | |].
  - apply (gs_owner _ (go_structure _ Hg)). by eapply list_elem_of_lookup_2.
  - intros [_ Hk]. rewrite Hf in Hk. injection Hk as Hk. apply (Hfab Hk).
    destruct Ha as [-> | ->]; cbn in Ho; tauto.
Qed.

Lemma fabric_neighbor_eq g n arc : graph_ok g -> arc ∈ arcs_from g n ->
  (fabric_arc g arc /\ exists m, owner_of g (arc_destination arc) = Some m /\ routing_node g m /\
     fabric_neighbor arc g = Ret (Some m)) \/
  (~ fabric_arc g arc /\ fabric_neighbor arc g = Ret None).
Proof.
  intros Hg [_ Hin]%list_elem_of_filter.
  destruct (arc_link g arc Hg Hin) as (l & Hl & Hf & _).
  destruct (arc_destination_owner g arc Hg Hin) as (p & Hp & Ho & Hn & Hk).
  unfold fabric_neighbor, fabric_arc in *. rewrite Hf, Hp in *. cbn [fmap option_fmap option_map] in *.
  case_bool_decide as Hfab; cbn [negb orb]; [| right; split; [| done]; intros [_ [= ?]]; done].
  destruct (is_operational arc g); cbn [negb]; [left | right; split; [by intros [? _] | done]].
  rewrite Hfab in *. split; [done |]. exists (port_owner p). split_and!; [done | | done].
  split; [done |]. by apply Hk.
Qed.

Lemma fabric_hop_known g n m : graph_ok g -> fabric_hop g n m -> routing_node g m.
Proof.
  intros Hg (arc & Hin & Hf & Ho). destruct (fabric_neighbor_eq g n arc Hg Hin) as [(_ & k & Hk & Hr & _) | [? _]];
    [congruence | done].
Qed.

Lemma fabric_hop_symmetric g n m : fabric_hop g n m -> fabric_hop g m n.
Proof.
  intros (arc & [Hsrc Hin]%list_elem_of_filter & [Hop Hk] & Hdst). exists (opposite arc).
  unfold fabric_arc. rewrite operational_opposite. split_and!; try done.
  apply list_elem_of_filter. split; [done |]. apply elem_of_arcs in Hin as (l & Hl & Ha).
  apply elem_of_arcs. exists l. split; [done |]. by apply opposite_directed.
Qed.

Lemma fabric_steps_symmetric g k n m : nsteps (fabric_hop g) k n m -> nsteps (fabric_hop g) k m n.
Proof.
  induction 1 as [| k x y z Hxy Hyz IH]; [constructor |].
  eapply nsteps_r; [exact IH | by apply fabric_hop_symmetric].
Qed.

Lemma fabric_path_steps g n p d : fabric_path g n p d -> nsteps (fabric_hop g) (length p) n d.
Proof.
  induction 1 as [| n arc m p d Hin Hf Ho Hp IH]; [constructor |].
  cbn. eapply nsteps_l; [| exact IH]. by exists arc.
Qed.

Lemma fabric_steps_path g k n d : nsteps (fabric_hop g) k n d -> exists p, length p = k /\ fabric_path g n p d.
Proof.
  induction 1 as [| k x y z (arc & Hin & Hf & Ho) Hyz (p & Hl & Hp)]; [by exists []; split; [| constructor] |].
  exists (arc_id arc :: p). split; [cbn; lia |]. by eapply fabric_path_cons.
Qed.

(** ** Lists of paths *)

(** Pieces with distinct keys, whose elements determine the key. *)
Lemma NoDup_concat_keys {A B K} (key : A -> K) (f : A -> list B) (l : list A) :
  NoDup (key <$> l) -> (forall x, x ∈ l -> NoDup (f x)) ->
  (forall x y b, x ∈ l -> y ∈ l -> b ∈ f x -> b ∈ f y -> key x = key y) ->
  NoDup (concat (f <$> l)).
Proof.
  induction l as [| x l IH]; intros Hk Hf Hsep; [constructor |].
  rewrite fmap_cons in *. apply NoDup_cons in Hk as [Hx Hk]. cbn [concat].
  apply NoDup_app. split_and!.
  - apply Hf. by left.
  - intros b Hb Hb'. apply list_elem_of_In, in_concat in Hb' as (z & Hz & Hbz).
    apply list_elem_of_In in Hz, Hbz. apply list_elem_of_fmap in Hz as (y & -> & Hy).
    apply Hx. apply list_elem_of_fmap. exists y. split; [| done].
    apply (Hsep x y b); [by left | by right | done | done].
  - apply IH; [done | |].
    + intros y Hy. apply Hf. by right.
    + intros y z b Hy Hz. apply Hsep; by right.
Qed.

Lemma filter_sublist_of {A} (P : A -> Prop) `{!forall x, Decision (P x)} (l : list A) :
  filter P l `sublist_of` l.
Proof. induction l as [| x l IH]; [constructor |]. rewrite filter_cons. case_decide; by constructor. Qed.

(** No arc has the identifier of another. *)
Lemma arcs_from_ids g n : graph_ok g -> NoDup (arc_id <$> arcs_from g n).
Proof.
  intros Hg. eapply sublist_NoDup; [| apply fmap_sublist, filter_sublist_of].
  destruct (gv_links _ (go_vectors _ Hg)) as [_ Hd]. unfold arcs_of.
  assert (forall (l : list PhysicalLink) k, (forall i e, l !! i = Some e -> link_id e = Z.of_nat (k + i)) ->
    NoDup (arc_id <$> concat ((fun l => [fst (directed_links l); snd (directed_links l)]) <$> l)) /\
    Forall (fun i => Z.of_nat k <= dl_link i)
      (arc_id <$> concat ((fun l => [fst (directed_links l); snd (directed_links l)]) <$> l))) as Hgen.
  { induction l as [| x l IH]; intros k Hk; [split; constructor |].
    destruct (IH (S k)) as [Hnd Hall].
    { intros i e Hi. rewrite (Hk (S i) e Hi). f_equal. lia. }
    pose proof (Hk 0%nat x eq_refl) as Hx. cbn. rewrite Hx, Nat.add_0_r. rewrite Forall_forall in Hall.
    split; [| repeat (apply Forall_cons; split; [cbn; lia |]); apply Forall_forall; intros i Hi;
              specialize (Hall i Hi); cbn in *; lia].
    apply NoDup_cons. split; [| apply NoDup_cons; split; [| done]].
    - intros [[=] | Hi]%elem_of_cons. specialize (Hall _ Hi). cbn in Hall. lia.
    - intros Hi. specialize (Hall _ Hi). cbn in Hall. lia. }
  apply (Hgen (links_ g) 0%nat). intros i e Hi. by apply Hd.
Qed.

#[global] Instance path_le_total : Total path_le.
Proof.
  intros p. induction p as [| x p IH]; intros [| y q]; [by left | by left | by right |].
  unfold path_le in *. cbn. destruct (decide (x = y)) as [-> | Hne].
  - rewrite !bool_decide_eq_true_2 by done. apply IH.
  - rewrite !(bool_decide_eq_false_2 (_ = _)) by done. rewrite !bool_decide_eq_true. apply total, _.
Qed.

(** ** Slots of the distance table *)

Section Search.
Context (g : TopologyGraph) (Hg : graph_ok g) (Hsize : Z.of_nat (routing_nodes g) <= u64_max).
Implicit Types (n m : NodeId) (D : list Z) (Q : list NodeId).

Abbreviation known := (routing_node g).

Definition slot n : nat :=
  match node_kind n with
  | NodeKind_Switch => (length (nics_ g) + Z.to_nat (node_value n))%nat
  | _ => Z.to_nat (node_value n)
  end.

Lemma slot_lt n : known n -> (slot n < routing_nodes g)%nat.
Proof.
  unfold routing_node, node_in, node_count, slot, routing_nodes, zlength.
  destruct (node_kind n); intros [? ?]; [done | lia | lia].
Qed.

Lemma slot_inj n m : known n -> known m -> slot n = slot m -> n = m.
Proof.
  destruct n as [k v], m as [k' v']. unfold routing_node, node_in, node_count, slot, zlength. cbn.
  destruct k, k'; intros [? ?] [? ?] Heq; try done; f_equal; lia.
Qed.

Lemma index_known n : known n -> index n g = Ret (Z.of_nat (slot n)).
Proof.
  intros Hn. pose proof (slot_lt n Hn) as Hlt. destruct Hn as [Hn Hk].
  apply (contains_node_in g n (go_vectors _ Hg)) in Hn as Hc.
  unfold contains, index, slot in *. unfold node_in, node_count in Hn.
  destruct (node_kind n); [done | |]; cbn; rewrite Hc; f_equal; [lia |].
  unfold zlength. rewrite u64_wrap_id; [lia |]. unfold u64. lia.
Qed.

Lemma index_Ret n i : index n g = Ret i -> known n.
Proof.
  unfold index. intros Hi. unfold routing_node. rewrite <- (contains_node_in g n (go_vectors _ Hg)).
  unfold contains. destruct (node_kind n); repeat case_bool_decide; try done; cbn [andb] in Hi;
    (destruct (has_value _) eqn:Hh in Hi; [by rewrite Hh | done]).
Qed.

Definition dist D n : Z := default u64_max (D !! slot n).

Definition undiscovered D : nat := length (filter (fun d => d = u64_max) D).

Lemma distance_at_known n D : known n -> length D = routing_nodes g -> distance_at n D g = Ret (dist D n).
Proof.
  intros Hn Hl. unfold distance_at, dist. rewrite index_known by done. rewrite Nat2Z.id.
  destruct (lookup_lt_is_Some_2 D (slot n)) as [d Hd]; [rewrite Hl; by apply slot_lt |]. by rewrite Hd.
Qed.

Lemma dist_insert n m D d : known n -> known m -> length D = routing_nodes g ->
  dist (<[slot n := d]> D) m = if decide (m = n) then d else dist D m.
Proof.
  intros Hn Hm Hl. unfold dist. destruct (decide (m = n)) as [-> | Hne].
  - rewrite list_lookup_insert_eq; [done |]. rewrite Hl. by apply slot_lt.
  - rewrite list_lookup_insert_ne; [done |]. intros Heq. apply Hne. symmetry. by apply slot_inj.
Qed.

Lemma undiscovered_insert i D d :
  D !! i = Some u64_max -> d <> u64_max -> S (undiscovered (<[i := d]> D)) = undiscovered D.
Proof.
  unfold undiscovered. revert i. induction D as [| x D IH]; intros [| i] Hx Hd; try done.
  - injection Hx as ->. cbn [insert list_insert]. rewrite !filter_cons.
    rewrite decide_False by done. by rewrite decide_True.
  - change (<[S i:=d]> (x :: D)) with (x :: <[i:=d]> D). rewrite !filter_cons.
    destruct (decide (x = u64_max)); cbn [length]; rewrite <- (IH i Hx Hd); done.
Qed.

Lemma undiscovered_replicate k : undiscovered (replicate k u64_max) = k.
Proof.
  unfold undiscovered. induction k as [| k IH]; [done |]. rewrite replicate_S, filter_cons.
  rewrite decide_True by done. cbn [length]. by rewrite IH.
Qed.

(** ** The flood *)

Context (t : NodeId) (Ht : known t).

(** The flood from [t] expands [n], [Q] waits. *)
Definition flooding n Q D : Prop :=
  length D = routing_nodes g /\
  expanding known (fabric_hop g) (routing_nodes g) t (dist D) (undiscovered D) n Q.

Abbreviation found D := (Bfs.reached known (dist D)) (only parsing).

Abbreviation keeps D D' := (Bfs.extends known (dist D) (dist D')) (only parsing).

Lemma flooding_new n Q D m :
  flooding n Q D -> fabric_hop g n m -> known m -> dist D m = u64_max ->
  let D' := <[slot m := dist D n + 1]> D in
  flooding n (Q ++ [m]) D' /\ keeps D D' /\ S (undiscovered D') = undiscovered D /\ found D' m /\
  u64_wrap (dist D n + 1) = dist D n + 1.
Proof.
  intros [Hl Hex] Hhop Hm Hnew D'.
  assert (D !! slot m = Some u64_max) as Hslot.
  { unfold dist in Hnew. destruct (lookup_lt_is_Some_2 D (slot m)) as [x Hx]; [rewrite Hl; by apply slot_lt |].
    rewrite Hx in *. cbn in Hnew. by rewrite Hnew. }
  assert (S (undiscovered (<[slot m := 0]> D)) = undiscovered D) as H0 by (by apply undiscovered_insert).
  pose proof (ex_sound _ _ _ _ _ _ _ _ Hex n (ex_current _ _ _ _ _ _ _ _ Hex)) as (Hn0 & Hnb & _).
  assert (S (undiscovered D') = undiscovered D) as Hu by (apply undiscovered_insert; [done | lia]).
  assert (forall k, known k -> dist D' k = if decide (k = m) then dist D n + 1 else dist D k)
    as Hh by (intros k Hk; by apply dist_insert).
  split; [split; [unfold D'; by rewrite length_insert |] | split; [| split; [done | split]]].
  - eapply new_node_expanding; eauto.
  - eapply new_node_extends; eauto.
  - eapply new_node_reached; eauto.
  - apply u64_wrap_id. unfold u64. lia.
Qed.

Lemma spread_spec arcs n Q D :
  flooding n Q D -> (forall arc, arc ∈ arcs -> arc ∈ arcs_from g n) ->
  exists D' Q', spread g n arcs D Q = Ret (D', Q') /\
    flooding n Q' D' /\ keeps D D' /\
    (undiscovered D' + length Q' = undiscovered D + length Q)%nat /\
    forall arc m, arc ∈ arcs -> fabric_arc g arc ->
      owner_of g (arc_destination arc) = Some m -> found D' m.
Proof.
  revert Q D. induction arcs as [| arc arcs IH]; intros Q D Hfl Harcs.
  { exists D, Q. split; [done |]. split; [done | split; [apply extends_refl | split; [done |]]].
    intros arc m Hin. by apply elem_of_nil in Hin. }
  assert (forall arc, arc ∈ arcs -> arc ∈ arcs_from g n) as Harcs' by (intros x Hx; apply Harcs; by right).
  assert (forall Q1 D1, flooding n Q1 D1 -> keeps D D1 ->
    (undiscovered D1 + length Q1 = undiscovered D + length Q)%nat ->
    (forall m, fabric_arc g arc -> owner_of g (arc_destination arc) = Some m -> found D1 m) ->
    exists D' Q', spread g n arcs D1 Q1 = Ret (D', Q') /\
      flooding n Q' D' /\ keeps D D' /\
      (undiscovered D' + length Q' = undiscovered D + length Q)%nat /\
      forall arc' m, arc' ∈ arc :: arcs -> fabric_arc g arc' ->
        owner_of g (arc_destination arc') = Some m -> found D' m) as Hgo.
  { intros Q1 D1 Hfl1 Hk1 Hsum Hset.
    destruct (IH Q1 D1 Hfl1 Harcs') as (D' & Q' & Hrun & Hfl' & Hk' & Hsum' & Hset').
    exists D', Q'. split; [done | split; [done | split; [| split; [lia |]]]].
    - exact (extends_trans _ _ _ _ Hk1 Hk').
    - intros arc' m [-> | Hin]%elem_of_cons Hf Hm; [by apply Hk', Hset | by eapply Hset']. }
  cbn [spread]. assert (arc ∈ arcs_from g n) as Hin by (apply Harcs; by left).
  destruct (fabric_neighbor_eq g n arc Hg Hin) as [(Hf & m & Ho & Hm & ->) | [Hf ->]];
    [| apply Hgo; [done | apply extends_refl | done | done]].
  destruct (ex_current _ _ _ _ _ _ _ _ (proj2 Hfl)) as [Hn Hnx].
  rewrite index_known, distance_at_known, Nat2Z.id by (done || apply Hfl).
  destruct (Z.eqb_spec (dist D m) u64_max) as [Hnew | Hold].
  - rewrite distance_at_known by (done || apply Hfl).
    destruct (flooding_new n Q D m Hfl ltac:(by exists arc) Hm Hnew) as (Hfl1 & Hk1 & Hu1 & Hr1 & ->).
    apply Hgo; [done | done | rewrite length_app; cbn [length]; lia |].
    intros k _ Hk. rewrite Ho in Hk. by injection Hk as <-.
  - apply Hgo; [done | apply extends_refl | done |].
    intros k _ Hk. rewrite Ho in Hk. by injection Hk as <-.
Qed.

Lemma flood_spec fuel n Q D :
  flooding n Q D -> (undiscovered D + S (length Q) <= fuel)%nat ->
  exists D', flood fuel g (n :: Q) D = Some (Ret D') /\ length D' = routing_nodes g /\
    searched known (fabric_hop g) t (dist D').
Proof.
  revert n Q D. induction fuel as [| fuel IH]; intros n Q D Hfl Hf; [lia |].
  cbn [flood]. rewrite (adjacency_arcs g n Hg).
  destruct (ex_current _ _ _ _ _ _ _ _ (proj2 Hfl)) as [[Hn _] _].
  rewrite (proj2 (contains_node_in g n (go_vectors _ Hg)) Hn).
  destruct (spread_spec (arcs_from g n) n Q D Hfl ltac:(done)) as (D' & Q' & -> & Hfl' & Hk & Hsum & Hall).
  assert (closed known (fabric_hop g) (dist D') n) as Hc.
  { intros m (arc & Hin & Hop & Hown). assert (found D' m) as Hm by (by eapply Hall).
    split; [done | by apply (ex_near _ _ _ _ _ _ _ _ (proj2 Hfl'))]. }
  destruct Q' as [| n' Q'].
  - exists D'. split; [by destruct fuel |]. split; [apply Hfl' |].
    exact (expanding_end _ _ _ _ _ _ _ (proj2 Hfl') Hc).
  - apply IH; [split; [apply Hfl' | eapply expanding_next; [apply Hfl' | done]] |].
    cbn [length] in Hsum. lia.
Qed.

(** The whole flood. *)
Lemma flood_run :
  exists D, flood (routing_nodes g) g [t] (<[slot t := 0]> (replicate (routing_nodes g) u64_max)) = Some (Ret D) /\
    length D = routing_nodes g /\ searched known (fabric_hop g) t (dist D).
Proof.
  set (D0 := <[slot t := 0]> (replicate (routing_nodes g) u64_max)).
  assert (length D0 = routing_nodes g) as Hl by (unfold D0; by rewrite length_insert, length_replicate).
  assert (S (undiscovered D0) = routing_nodes g) as Hu.
  { etrans; [| apply (undiscovered_replicate (routing_nodes g))]. apply undiscovered_insert; [| done].
    apply lookup_replicate. split; [done | by apply slot_lt]. }
  apply flood_spec; [| cbn [length]; lia]. split; [done |].
  assert (forall m, known m -> dist D0 m = if decide (m = t) then 0 else u64_max) as Hd.
  { intros m Hm. unfold D0. rewrite dist_insert by (done || by rewrite length_replicate).
    case_decide; [done |]. unfold dist. rewrite lookup_replicate_2; [done | by apply slot_lt]. }
  apply initial_expanding; [done | by rewrite Hd, decide_True | | done].
  intros m Hm Hne. by rewrite Hd, decide_False.
Qed.

(** ** The walk *)

Context (D : list Z) (Hlen : length D = routing_nodes g).
Context (Hsearched : searched known (fabric_hop g) t (dist D)).

(** What the walk collects from the arcs of a node at distance [here], given
    what it collects from their ends. *)
Definition descend_arcs (below : NodeId -> list Path) (here : Z) (arcs : list DirectedLink) : list Path :=
  concat ((fun arc => match fabric_neighbor arc g with
                      | Ret (Some m) => if dist D m <? here then cons (arc_id arc) <$> below m else []
                      | _ => []
                      end) <$> arcs).

(** The paths from a node at distance [k], in the order of the walk. *)
Fixpoint descents (k : nat) (n : NodeId) : list Path :=
  match k with
  | O => [[]]
  | S k' => descend_arcs (descents k') (dist D n) (arcs_from g n)
  end.

(** A step down is a step of one. *)
Lemma descend_dist n m :
  found D n -> fabric_hop g n m -> dist D m < dist D n -> found D m /\ dist D m = dist D n - 1.
Proof.
  intros Hn Hhop Hlt. destruct Hsearched as (_ & _ & Hcl).
  destruct (Hcl n Hn m Hhop) as [Hm _]. split; [done |].
  destruct (Hcl m Hm n) as [_ Hle]; [by apply fabric_hop_symmetric | lia].
Qed.

Section Walk.
Context (limits : PathLimits) (L : Z) (HL : 0 < L).

Definition path_limit : Z := Z.min (maximum_paths limits) (maximum_cached_route_entries limits / L).

Definition collected (result : list Path) (path : Path) (more : list Path) : outcome (list Path) :=
  if zlength result + zlength more <=? path_limit
  then Ret (result ++ (app path <$> more))
  else Throw (length_error "complete shortest-path set exceeds routing limits").

(** Collecting [xs] and then [ys]. *)
Lemma collected_app result path xs ys (k : list Path -> option (outcome (list Path))) :
  zlength result <= path_limit ->
  (forall r, zlength r <= path_limit -> k r = Some (collected r path ys)) ->
  match Some (collected result path xs) with Some (Ret r) => k r | stop => stop end =
  Some (collected result path (xs ++ ys)).
Proof.
  intros Hr Hk. unfold collected at 1. destruct (Z.leb_spec (zlength result + zlength xs) path_limit) as [H1 | H1].
  - rewrite Hk by (rewrite zlength_app, zlength_fmap; lia).
    unfold collected. rewrite !zlength_app, zlength_fmap, fmap_app, app_assoc.
    by rewrite Z.add_assoc.
  - unfold collected. rewrite zlength_app. pose proof (zlength_nonneg ys).
    by rewrite (proj2 (Z.leb_gt _ _)) by lia.
Qed.

Lemma collected_nil result path : zlength result <= path_limit -> collected result path [] = Ret result.
Proof.
  intros Hr. unfold collected. rewrite (proj2 (Z.leb_le _ _)) by (unfold zlength in *; cbn; lia).
  cbn. by rewrite app_nil_r.
Qed.

Lemma walk_arcs_spec k n arcs path result :
  (forall m result, found D m -> dist D m = Z.of_nat k -> zlength result <= path_limit -> forall p,
     zlength p + Z.of_nat k = L ->
     walk (S k) g limits D m p result = Some (collected result p (descents k m))) ->
  found D n -> dist D n = Z.of_nat (S k) -> zlength path + Z.of_nat (S k) = L ->
  (forall arc, arc ∈ arcs -> arc ∈ arcs_from g n) -> zlength result <= path_limit ->
  walk_arcs (walk (S k) g limits D) g n D arcs path result =
  Some (collected result path (descend_arcs (descents k) (dist D n) arcs)).
Proof.
  intros Hwalk Hn Hd HLp. revert result. induction arcs as [| arc arcs IH]; intros result Harcs Hr.
  { cbn [walk_arcs]. unfold descend_arcs. cbn. by rewrite collected_nil. }
  assert (forall arc, arc ∈ arcs -> arc ∈ arcs_from g n) as Harcs' by (intros x Hx; apply Harcs; by right).
  assert (arc ∈ arcs_from g n) as Hin by (apply Harcs; by left).
  cbn [walk_arcs]. unfold descend_arcs. rewrite fmap_cons. cbn [concat]. fold (descend_arcs (descents k) (dist D n) arcs).
  destruct (fabric_neighbor_eq g n arc Hg Hin) as [(Hf & m & Ho & Hm & ->) | [Hf ->]]; [| by apply IH].
  rewrite !distance_at_known by (done || apply Hn).
  destruct (Z.ltb_spec (dist D m) (dist D n)) as [Hlt | Hge]; [| by apply IH].
  destruct (descend_dist n m Hn ltac:(by exists arc) Hlt) as [Hfm Hdm].
  rewrite Hwalk by (try done; try lia; rewrite zlength_app; unfold zlength in *; cbn; lia).
  assert (forall ps : list Path, app (path ++ [arc_id arc]) <$> ps = app path <$> (cons (arc_id arc) <$> ps)) as Happ.
  { intros ps. rewrite <- list_fmap_compose. apply list_fmap_ext. intros i p _. cbn. by rewrite <- app_assoc. }
  assert (collected result (path ++ [arc_id arc]) (descents k m) =
          collected result path (cons (arc_id arc) <$> descents k m)) as ->.
  { unfold collected. by rewrite Happ, zlength_fmap. }
  apply collected_app; [done |]. intros r Hr'. by apply IH.
Qed.

Lemma walk_spec k n path result :
  found D n -> dist D n = Z.of_nat k -> zlength path + Z.of_nat k = L -> zlength result <= path_limit ->
  walk (S k) g limits D n path result = Some (collected result path (descents k n)).
Proof.
  revert n path result. induction k as [| k IH]; intros n path result Hn Hd HLp Hr.
  - cbn [walk]. rewrite distance_at_known by (done || apply Hn). rewrite Hd. cbn [Z.of_nat Z.eqb descents].
    assert (zlength path = L) as -> by lia. unfold collected, path_limit in *. rewrite fmap_cons, fmap_nil, app_nil_r.
    change (zlength [[]]) with 1.
    destruct (_ || _) eqn:Hg1.
    + rewrite (proj2 (Z.leb_gt _ _)); [done |]. lia.
    + rewrite (proj2 (Z.leb_le _ _)); [done |]. lia.
  - cbn [walk descents]. rewrite distance_at_known by (done || apply Hn).
    rewrite (proj2 (Z.eqb_neq _ _)) by lia. rewrite (adjacency_arcs g n Hg).
    rewrite (proj2 (contains_node_in g n (go_vectors _ Hg))) by apply Hn.
    apply walk_arcs_spec; try done. intros m result' Hm Hdm Hr' p Hp. by apply IH.
Qed.
End Walk.

(** ** What the walk collects *)

Lemma descents_spec k n p :
  found D n -> dist D n = Z.of_nat k -> p ∈ descents k n <-> fabric_path g n p t /\ length p = k.
Proof.
  revert n p. induction k as [| k IH]; intros n p Hn Hd; cbn [descents].
  - rewrite list_elem_of_singleton. destruct Hsearched as (_ & Hsound & _).
    destruct (Hsound n Hn) as [_ Hs]. rewrite Hd in Hs. inversion Hs; subst. split.
    + intros ->. split; [constructor | done].
    + intros [_ Hl]. by apply nil_length_inv.
  - unfold descend_arcs. rewrite list_elem_of_In, in_concat. setoid_rewrite <- list_elem_of_In.
    setoid_rewrite list_elem_of_fmap. split.
    + intros (ps & (arc & -> & Hin) & Hp).
      destruct (fabric_neighbor_eq g n arc Hg Hin) as [(Hf & m & Ho & Hm & Heq) | [Hf Heq]];
        rewrite Heq in Hp; [| by apply elem_of_nil in Hp].
      destruct (Z.ltb_spec (dist D m) (dist D n)) as [Hlt | Hge]; [| by apply elem_of_nil in Hp].
      destruct (descend_dist n m Hn ltac:(by exists arc) Hlt) as [Hfm Hdm].
      apply list_elem_of_fmap in Hp as (q & -> & Hq). apply IH in Hq as [Hq Hl]; [| done | lia].
      split; [by eapply fabric_path_cons | cbn; lia].
    + intros [Hp Hl]. inversion Hp as [| n' arc m q d Hin Hf Ho Hq]; subst; [done |].
      cbn in Hl. injection Hl as Hl.
      destruct (fabric_neighbor_eq g n arc Hg Hin) as [(_ & m' & Ho' & Hm & Heq) | [? _]]; [| done].
      assert (m' = m) as -> by congruence.
      apply fabric_path_steps in Hq as Hst. apply fabric_steps_symmetric in Hst.
      destruct (searched_min _ _ _ _ _ _ Ht Hsearched Hst) as [Hfm Hle].
      destruct (descend_dist n m Hn ltac:(by exists arc) ltac:(lia)) as [_ Hdm].
      eexists. split; [by exists arc |]. rewrite Heq, (proj2 (Z.ltb_lt _ _)) by lia.
      apply list_elem_of_fmap. exists q. split; [done |]. apply IH; [done | lia | done].
Qed.

Lemma descents_NoDup k n : found D n -> dist D n = Z.of_nat k -> NoDup (descents k n).
Proof.
  revert n. induction k as [| k IH]; intros n Hn Hd; cbn [descents]; [apply NoDup_singleton |].
  apply (NoDup_concat_keys arc_id); [by apply arcs_from_ids | |].
  - intros arc Hin.
    destruct (fabric_neighbor_eq g n arc Hg Hin) as [(Hf & m & Ho & Hm & ->) | [Hf ->]]; [| constructor].
    destruct (Z.ltb_spec (dist D m) (dist D n)) as [Hlt | Hge]; [| constructor].
    destruct (descend_dist n m Hn ltac:(by exists arc) Hlt) as [Hfm Hdm].
    apply NoDup_fmap_2; [apply _ |]. apply IH; [done | lia].
  - assert (forall arc p, p ∈ match fabric_neighbor arc g with
      | Ret (Some m) => if dist D m <? dist D n then cons (arc_id arc) <$> descents k m else []
      | _ => []
      end -> head p = Some (arc_id arc)) as Hh.
    { intros arc p. destruct (fabric_neighbor arc g) as [[m |] |]; try by intros ?%elem_of_nil.
      destruct (_ <? _); [| by intros ?%elem_of_nil]. by intros (q & -> & _)%list_elem_of_fmap. }
    intros arc arc' p _ _ H1%Hh H2%Hh. congruence.
Qed.

(** The paths of minimal length are the shortest ones. *)
Lemma shortest_descents n : known n -> dist D n <> u64_max ->
  forall p, p ∈ descents (Z.to_nat (dist D n)) n <-> shortest_path g n p t.
Proof.
  intros Hn Hx p. assert (found D n) as Hf by done.
  pose proof (searched_distance _ _ _ _ _ Ht Hsearched Hn) as Hmin.
  rewrite (proj2 (Z.eqb_neq _ _) Hx) in Hmin. destruct Hmin as (H0 & Hst & Hmin).
  rewrite descents_spec by (done || lia). unfold shortest_path. split.
  - intros [Hp Hl]. split; [done |]. intros q Hq%fabric_path_steps%fabric_steps_symmetric.
    apply Hmin in Hq. lia.
  - intros [Hp Hs]. split; [done |]. apply fabric_steps_symmetric, fabric_steps_path in Hst as (q & Hl & Hq).
    specialize (Hs q Hq). apply fabric_path_steps, fabric_steps_symmetric, Hmin in Hp. lia.
Qed.
End Search.

(** Connected nodes have a shortest path. *)
Lemma shortest_exists g s t :
  graph_ok g -> Z.of_nat (routing_nodes g) <= u64_max -> routing_node g s -> routing_node g t ->
  rtc (fabric_hop g) s t -> exists p, shortest_path g s p t.
Proof.
  intros Hg Hsize Hs Ht (k & Hk%fabric_steps_symmetric)%rtc_nsteps.
  destruct (flood_run g Hg Hsize t Ht) as (D & _ & _ & Hsd).
  pose proof (searched_distance _ _ _ _ _ Ht Hsd Hs) as Hmin.
  destruct (Z.eqb_spec (dist g D s) u64_max) as [Hx | Hx]; [exfalso; apply Hmin, rtc_nsteps; by exists k |].
  destruct Hmin as (H0 & Hst & Hmin). apply fabric_steps_symmetric, fabric_steps_path in Hst as (p & Hl & Hp).
  exists p. split; [done |]. intros q Hq%fabric_path_steps%fabric_steps_symmetric%Hmin. lia.
Qed.

(** ** Enumeration *)

Definition path_limits_ok (limits : PathLimits) : Prop :=
  0 < maximum_paths limits <= u64_max /\ 0 < maximum_hops limits <= 1024 /\
  0 < maximum_cached_pairs limits <= u64_max /\ 0 < maximum_cached_route_entries limits <= u64_max.

Definition endpoints_ok (g : TopologyGraph) (e : Endpoints) : Prop :=
  routing_node g (ep_source e) /\ routing_node g (ep_destination e) /\ ep_source e <> ep_destination e.

(** [paths] are the shortest paths, each once. *)
Definition all_shortest (g : TopologyGraph) (e : Endpoints) (paths : list Path) : Prop :=
  NoDup paths /\ forall p, p ∈ paths <-> shortest_path g (ep_source e) p (ep_destination e).

Definition within (limits : PathLimits) (paths : list Path) : Prop :=
  zlength paths <= maximum_paths limits /\
  forall p, p ∈ paths -> 0 < zlength p <= maximum_hops limits /\
    zlength paths * zlength p <= maximum_cached_route_entries limits.

Lemma shortest_descents_within g t D s limits :
  graph_ok g -> routing_node g t -> length D = routing_nodes g ->
  searched (routing_node g) (fabric_hop g) t (dist g D) ->
  routing_node g s -> s <> t -> dist g D s <> u64_max -> dist g D s <= maximum_hops limits ->
  let all := descents g D (Z.to_nat (dist g D s)) s in
  0 < dist g D s /\ (zlength all <= path_limit limits (dist g D s) <-> within limits all).
Proof.
  intros Hg Ht HD Hsd Hs Hne Hx Hh all.
  assert (reached (routing_node g) (dist g D) s) as Hf by done.
  pose proof Hsd as (_ & Hsound & _). destruct (Hsound s Hf) as [H0 Hst].
  assert (0 < dist g D s) as Hpos.
  { destruct (Z.eq_dec (dist g D s) 0) as [Hz | Hz]; [| lia]. rewrite Hz in Hst. by inversion Hst. }
  split; [done |].
  assert (forall p, p ∈ all -> zlength p = dist g D s) as Hlen.
  { intros p Hp. apply (descents_spec g Hg t Ht D HD Hsd) in Hp as [_ Hl]; [unfold zlength; lia | done | lia]. }
  assert (exists p, p ∈ all) as (p0 & Hp0).
  { apply fabric_steps_symmetric, fabric_steps_path in Hst as (p & Hl & Hp). exists p.
    apply (descents_spec g Hg t Ht D HD Hsd); [done | lia | done]. }
  unfold path_limit, within. rewrite Z.min_glb_iff. split.
  - intros [H1 H2]. split; [done |]. intros p Hp. rewrite (Hlen p Hp). split; [lia |].
    etrans; [| apply (Z.mul_div_le _ (dist g D s)); lia]. nia.
  - intros [H1 H2]. split; [done |]. destruct (H2 p0 Hp0) as [_ H3]. rewrite (Hlen p0 Hp0) in H3.
    apply Z.div_le_lower_bound; [done | lia].
Qed.

Lemma enumerate_spec g e limits :
  graph_ok g -> Z.of_nat (routing_nodes g) <= u64_max -> path_limits_ok limits ->
  match enumerate e limits g with
  | None => False
  | Some (Ret paths) =>
      endpoints_ok g e /\ all_shortest g e paths /\ Sorted path_le paths /\ within limits paths
  | Some (Throw (invalid_argument _)) => ~ endpoints_ok g e
  | Some (Throw (length_error _)) =>
      endpoints_ok g e /\ exists paths, all_shortest g e paths /\ ~ within limits paths
  | Some (Throw _) => False
  end.
Proof.
  intros Hg Hsize (Hl1 & Hl2 & Hl3 & Hl4). destruct e as [s t]. unfold enumerate, endpoints_ok, all_shortest.
  cbn [ep_source ep_destination].
  assert (forall n e, index n g = Throw e -> (exists w, e = invalid_argument w) /\ ~ routing_node g n) as Hth.
  { intros n e He. split.
    - unfold index in He. destruct (_ && _); [done |]. destruct (_ && _); [done |]. injection He as <-. eauto.
    - intros Hn. by rewrite (index_known g Hg Hsize n Hn) in He. }
  destruct (index s g) as [si |] eqn:His; [| destruct (Hth _ _ His) as [[w ->] ?]; tauto].
  destruct (index t g) as [ti |] eqn:Hit; [| destruct (Hth _ _ Hit) as [[w ->] ?]; tauto].
  apply (index_Ret g Hg) in His as Hs, Hit as Ht.
  rewrite (index_known g Hg Hsize s Hs) in His. injection His as <-.
  rewrite (index_known g Hg Hsize t Ht) in Hit. injection Hit as <-. rewrite Nat2Z.id.
  destruct (Z.eqb_spec (Z.of_nat (slot g s)) (Z.of_nat (slot g t))) as [Heq | Hne].
  { intros (_ & _ & Hst). apply Hst, (slot_inj g); [done | done | lia]. }
  assert (s <> t) as Hst by (by intros ->).
  destruct (flood_run g Hg Hsize t Ht) as (D & -> & Hlen & Hsd).
  rewrite (distance_at_known g Hg Hsize s D Hs Hlen).
  destruct (Z.eqb_spec (dist g D s) u64_max) as [Hx | Hx].
  { split; [done | split; [split; [apply NoDup_nil_2 |] | split; [constructor | split]]].
    - intros p. split; [by intros ?%elem_of_nil |]. intros [Hp _].
      apply fabric_path_steps, fabric_steps_symmetric in Hp.
      by destruct (searched_min _ _ _ _ _ _ Ht Hsd Hp) as [[_ ?] _].
    - unfold zlength. cbn. lia.
    - by intros p ?%elem_of_nil. }
  set (all := descents g D (Z.to_nat (dist g D s)) s).
  assert (reached (routing_node g) (dist g D) s) as Hf by done.
  assert (0 <= dist g D s) as H0 by (by apply Hsd).
  assert (NoDup all /\ forall p, p ∈ all <-> shortest_path g s p t) as [Hnd Hall].
  { split; [apply (descents_NoDup g Hg t D Hlen Hsd); [done | lia] | by apply shortest_descents]. }
  destruct (dist g D s >? maximum_hops limits) eqn:Hh.
  { split; [done |]. exists all. split; [done |]. intros [_ Hw].
    pose proof Hsd as (_ & Hsound & _). destruct (Hsound s Hf) as [_ Hstp].
    apply fabric_steps_symmetric, fabric_steps_path in Hstp as (p & Hl & Hp).
    destruct (Hw p) as [Hw' _]; [| unfold zlength in Hw'; lia].
    apply (descents_spec g Hg t Ht D Hlen Hsd); [done | lia | done]. }
  destruct (shortest_descents_within g t D s limits Hg Ht Hlen Hsd Hs Hst Hx ltac:(lia)) as [Hpos Hiff].
  fold all in Hiff.
  rewrite (walk_spec g Hg Hsize t D Hlen Hsd limits (dist g D s)); fold all;
    [| done | lia | unfold zlength; cbn; lia |].
  2:{ unfold path_limit, zlength. cbn. apply Z.min_glb; [lia |]. apply Z.div_pos; lia. }
  unfold collected. change (zlength []) with 0. rewrite Z.add_0_l.
  destruct (Z.leb_spec (zlength all) (path_limit limits (dist g D s))) as [Hle | Hgt].
  - rewrite app_nil_l. rewrite (list_fmap_id all : app [] <$> all = all).
    pose proof (merge_sort_Permutation path_le all) as Hp.
    apply Hiff in Hle as [Hle1 Hle2].
    split; [done | split; [split; [by rewrite Hp | intros p; by rewrite Hp] | split; [| split]]].
    + apply Sorted_merge_sort, _.
    + unfold zlength in *. by rewrite Hp.
    + intros p Hin. rewrite Hp in Hin. unfold zlength in *. rewrite Hp. by apply Hle2.
  - split; [done |]. exists all. split; [done |]. rewrite <- Hiff. lia.
Qed.
