(* ===== verification/RoutingCache.v ===== *)
(** * The path cache is never stale

    The invariant of [PathService]: the cache and its insertion order agree, the
    statistics count what is cached, the limits hold, and what is cached for the
    current revision of the topology is what enumerating now would give. *)

From S2P Require Import Prelude SimTime Entities TelemetryRecords Topology TopologyLaws.
From S2P Require Import ShortestPath RoutingPaths RoutingPathsLaws.

Implicit Types (g : TopologyGraph) (s : PathService) (e : Endpoints) (ps : list Path).

Definition cached s e : list Path := default [] (ps_cache_ s !! e).

(** The totals over the cached pairs. *)
Definition cached_entries s : Z := sumZ ((fun e => route_entries (cached s e)) <$> ps_order_ s).

Definition cached_paths s : Z := sumZ ((fun e => zlength (cached s e)) <$> ps_order_ s).

Record cache_ok g s : Prop := {
  co_limits : path_limits_ok (ps_limits_ s);
  co_revision : ps_revision_ s <= operational_revision_ g;
  co_order : NoDup (ps_order_ s) /\ forall e, e ∈ ps_order_ s <-> is_Some (ps_cache_ s !! e);
  co_entries : cs_route_entries (ps_statistics_ s) = cached_entries s /\
    cached_entries s <= maximum_cached_route_entries (ps_limits_ s);
  co_paths : cs_paths (ps_statistics_ s) = cached_paths s;
  co_pairs : Z.of_nat (size (ps_cache_ s)) <= maximum_cached_pairs (ps_limits_ s);
  co_within e ps : ps_cache_ s !! e = Some ps -> within (ps_limits_ s) ps;
  co_fresh e ps : ps_revision_ s = operational_revision_ g -> ps_cache_ s !! e = Some ps ->
    enumerate e (ps_limits_ s) g = Some (Ret ps);
}.

(** ** Counting *)

Lemma route_entries_nonneg ps : 0 <= route_entries ps.
Proof. apply sumZ_nonneg, Forall_fmap, Forall_true. intros p. apply zlength_nonneg. Qed.

Lemma within_entries limits ps : 0 <= maximum_cached_route_entries limits -> within limits ps ->
  zlength ps <= route_entries ps <= maximum_cached_route_entries limits.
Proof.
  intros Hm [_ Hw]. unfold route_entries. split.
  - assert (forall p, p ∈ ps -> 0 < zlength p) as Hpos by (intros p Hp; by apply Hw).
    clear Hw. induction ps as [| p ps IH]; [done |]. rewrite fmap_cons, sumZ_cons, zlength_cons.
    assert (zlength ps <= sumZ (zlength <$> ps)) by (apply IH; intros q Hq; apply Hpos; by right).
    pose proof (Hpos p ltac:(by left)). lia.
  - assert (forall n l, 0 <= n -> (forall p, p ∈ l -> n * zlength p <= maximum_cached_route_entries limits) ->
      n * sumZ (zlength <$> (l : list Path)) <= zlength l * maximum_cached_route_entries limits) as Hsum.
    { intros n l Hn Hl. induction l as [| p l IH]; [unfold zlength; cbn; lia |].
      rewrite fmap_cons, sumZ_cons, zlength_cons. pose proof (Hl p ltac:(by left)).
      assert (n * sumZ (zlength <$> l) <= zlength l * maximum_cached_route_entries limits)
        by (apply IH; intros q Hq; apply Hl; by right).
      lia. }
    destruct ps as [| p ps]; [unfold zlength; cbn; lia |].
    specialize (Hsum (zlength (p :: ps)) (p :: ps) (zlength_nonneg _) (fun q Hq => proj2 (Hw q Hq))).
    assert (0 < zlength (p :: ps)) by (unfold zlength; cbn; lia). nia.
Qed.

Lemma cached_totals g s : cache_ok g s -> 0 <= cached_paths s <= cached_entries s.
Proof.
  intros Hs. unfold cached_paths, cached_entries. assert (forall e, e ∈ ps_order_ s ->
    0 <= zlength (cached s e) <= route_entries (cached s e)) as Hle.
  { intros e He. apply (co_order _ _ Hs) in He as [ps Hps]. unfold cached. rewrite Hps. cbn.
    split; [apply zlength_nonneg |]. eapply within_entries; [| by eapply co_within].
    destruct (co_limits _ _ Hs) as (_ & _ & _ & ?). lia. }
  induction (ps_order_ s) as [| e l IH]; [done |]. rewrite !fmap_cons, !sumZ_cons.
  pose proof (Hle e ltac:(by left)). destruct IH as [? ?]; [intros x Hx; apply Hle; by right |]. lia.
Qed.

Lemma cached_delete {B} (f : list Path -> B) s s' e (l : list Endpoints) :
  ps_cache_ s' = delete e (ps_cache_ s) -> e ∉ l ->
  (fun x => f (cached s x)) <$> l = (fun x => f (cached s' x)) <$> l.
Proof.
  intros Hc He. apply list_fmap_ext. intros i x Hx%list_elem_of_lookup_2. unfold cached. rewrite Hc.
  rewrite lookup_delete_ne; [done |]. by intros ->.
Qed.

(** ** Eviction *)

Lemma evict_oldest_ok g s e l : cache_ok g s -> ps_order_ s = e :: l ->
  cache_ok g (evict_oldest s) /\ ps_order_ (evict_oldest s) = l /\
  ps_limits_ (evict_oldest s) = ps_limits_ s /\ ps_revision_ (evict_oldest s) = ps_revision_ s /\
  ps_cache_ (evict_oldest s) = delete e (ps_cache_ s).
Proof.
  intros Hs Ho. pose proof (cached_totals _ _ Hs) as Htot. unfold evict_oldest. rewrite Ho.
  match goal with |- cache_ok g ?x /\ _ => set (s' := x) end.
  split; [| done]. pose proof Hs as [H1 H2 [H3 H4] [H5 H6] H7 H8 H9 H10].
  rewrite Ho in H3. apply NoDup_cons in H3 as [He H3].
  assert (is_Some (ps_cache_ s !! e)) as [ps Hps] by (apply H4; rewrite Ho; by left).
  assert (cached_entries s = route_entries ps + cached_entries s') as Ee.
  { unfold cached_entries. rewrite Ho, fmap_cons, sumZ_cons. unfold cached at 1. rewrite Hps. cbn [default from_option id].
    by rewrite (cached_delete route_entries s s' e l). }
  assert (cached_paths s = zlength ps + cached_paths s') as Ep.
  { unfold cached_paths. rewrite Ho, fmap_cons, sumZ_cons. unfold cached at 1. rewrite Hps. cbn [default from_option id].
    by rewrite (cached_delete zlength s s' e l). }
  assert (0 <= cached_entries s' /\ 0 <= cached_paths s') as [Hne Hnp].
  { split; apply sumZ_nonneg, Forall_fmap, Forall_true; intros x; [apply route_entries_nonneg | apply zlength_nonneg]. }
  assert (maximum_cached_route_entries (ps_limits_ s) <= u64_max) as Hmax by apply H1.
  pose proof (route_entries_nonneg ps). pose proof (zlength_nonneg ps).
  split; try done.
  - split; [done |]. intros x. cbn. rewrite lookup_delete_is_Some. rewrite <- H4, Ho, elem_of_cons.
    split; [intros Hx; split; [by intros -> | by right] | intros [Hne' [-> | Hx]]; done].
  - cbn [s' ps_statistics_ cs_route_entries ps_limits_]. rewrite Hps, H5, Ee. cbn [default from_option id].
    rewrite u64_wrap_id by (unfold u64; lia). lia.
  - cbn [s' ps_statistics_ cs_paths]. rewrite Hps, H7, Ep. cbn [default from_option id]. rewrite u64_wrap_id by (unfold u64; lia). lia.
  - cbn. rewrite map_size_delete_Some by eauto. lia.
  - intros x xs Hx. cbn in Hx. apply lookup_delete_Some in Hx as [_ Hx]. by eapply H9.
  - intros x xs Hr Hx. cbn in Hx, Hr. apply lookup_delete_Some in Hx as [_ Hx]. by eapply H10.
Qed.

Lemma make_room_ok g s entries :
  cache_ok g s -> 0 <= entries <= maximum_cached_route_entries (ps_limits_ s) ->
  exists s', make_room (length (ps_order_ s)) entries s = Some s' /\ cache_ok g s' /\
    ps_limits_ s' = ps_limits_ s /\ ps_revision_ s' = ps_revision_ s /\
    Z.of_nat (size (ps_cache_ s')) < maximum_cached_pairs (ps_limits_ s) /\
    entries <= maximum_cached_route_entries (ps_limits_ s) - cached_entries s' /\
    (forall e, ps_cache_ s !! e = None -> ps_cache_ s' !! e = None).
Proof.
  remember (length (ps_order_ s)) as fuel eqn:Hf. revert s Hf. induction fuel as [| n IH]; intros s Hf Hs Hen.
  - symmetry in Hf. apply nil_length_inv in Hf. exists s. cbn [make_room].
    assert (ps_cache_ s = ∅) as Hc.
    { apply map_empty. intros e. destruct (ps_cache_ s !! e) eqn:He; [exfalso | done].
      assert (e ∈ ps_order_ s) as Hin by (apply (co_order _ _ Hs); eauto). rewrite Hf in Hin. by apply elem_of_nil in Hin. }
    assert (cached_entries s = 0) as Hz by (unfold cached_entries; by rewrite Hf).
    destruct (co_limits _ _ Hs) as (_ & _ & L3 & L4). destruct (co_entries _ _ Hs) as [-> _].
    rewrite Hc, map_size_empty, Hz. cbn [Z.of_nat]. rewrite u64_wrap_id by (unfold u64; lia).
    destruct (_ || _) eqn:Hg1; [| split_and!; try done; lia].
    apply orb_true_iff in Hg1 as [Hx%Z.geb_le | Hx%Z.gtb_lt]; exfalso; lia.
  - destruct (ps_order_ s) as [| e l] eqn:Ho; [done |]. injection Hf as Hf. cbn [make_room]. rewrite Ho.
    pose proof (cached_totals _ _ Hs) as Htot. destruct (co_limits _ _ Hs) as (_ & _ & L3 & L4).
    destruct (co_entries _ _ Hs) as [He1 He2]. rewrite He1. rewrite u64_wrap_id by (unfold u64; lia).
    destruct (_ || _) eqn:Hg1.
    2:{ apply orb_false_iff in Hg1 as [Hx Hy]. rewrite Z.geb_leb in Hx. apply Z.leb_gt in Hx.
        rewrite Z.gtb_ltb in Hy. apply Z.ltb_ge in Hy. exists s. split_and!; try done; lia. }
    destruct (evict_oldest_ok g s e l Hs Ho) as (Hs1 & Ho1 & Hl1 & Hr1 & Hc1).
    destruct (IH (evict_oldest s)) as (s' & Hrun & Hs' & Hl' & Hr' & Hp' & He' & Hk').
    + by rewrite Ho1.
    + done.
    + by rewrite Hl1.
    + exists s'. rewrite Hl1 in *. split_and!; try done; [congruence |].
      intros x Hx. apply Hk'. rewrite Hc1. rewrite lookup_delete_None. by right.
Qed.

(** ** Lookup *)

Lemma refresh_ok g s : cache_ok g s ->
  cache_ok g (refresh g s) /\ ps_revision_ (refresh g s) = operational_revision_ g /\
  ps_limits_ (refresh g s) = ps_limits_ s.
Proof.
  intros Hs. unfold refresh. destruct (Z.eqb_spec (ps_revision_ s) (operational_revision_ g)) as [Hr | Hr]; [done |].
  split; [| done]. destruct Hs as [H1 H2 H3 H4 H5 H6 H7 H8]. destruct H1 as (? & ? & ? & ?). split; cbn; try done.
  - split; [constructor |]. intros e. split; [by intros ?%elem_of_nil | by intros [? ?]].
  - unfold cached_entries. cbn. lia.
  - rewrite map_size_empty. lia.
Qed.

(** A new pair is cached. *)
Lemma insert_pair_ok g s e ps :
  cache_ok g s -> ps_revision_ s = operational_revision_ g -> ps_cache_ s !! e = None ->
  enumerate e (ps_limits_ s) g = Some (Ret ps) -> within (ps_limits_ s) ps ->
  Z.of_nat (size (ps_cache_ s)) < maximum_cached_pairs (ps_limits_ s) ->
  route_entries ps <= maximum_cached_route_entries (ps_limits_ s) - cached_entries s ->
  let st := ps_statistics_ s in
  cache_ok g {| s with
    ps_cache_ := <[e := ps]> (ps_cache_ s);
    ps_order_ := ps_order_ s ++ [e];
    ps_statistics_ := {| st with
      cs_route_entries := u64_wrap (cs_route_entries st + route_entries ps);
      cs_paths := u64_wrap (cs_paths st + zlength ps) |} |}.
Proof.
  intros Hs Hrev Hnone Hen Hw Hsz Hroom st. pose proof (cached_totals _ _ Hs) as Htot.
  pose proof Hs as [H1 H2 [H3 H4] [H5 H6] H7 H8 H9 H10].
  match goal with |- cache_ok g ?x => set (s' := x) end.
  assert (maximum_cached_route_entries (ps_limits_ s) <= u64_max /\
          0 <= maximum_cached_route_entries (ps_limits_ s)) as [Hmax Hm0] by (destruct H1 as (_ & _ & _ & ?); lia).
  destruct (within_entries _ ps Hm0 Hw) as [Hzl _]. pose proof (zlength_nonneg ps).
  assert (e ∉ ps_order_ s) as Hnin by (rewrite H4, Hnone; by intros [? ?]).
  assert (forall B (f : list Path -> B), (fun x => f (cached s' x)) <$> ps_order_ s' =
    ((fun x => f (cached s x)) <$> ps_order_ s) ++ [f ps]) as Hmap.
  { intros B f. cbn [s' ps_order_]. rewrite fmap_app. f_equal.
    - apply list_fmap_ext. intros i x Hx%list_elem_of_lookup_2. unfold cached. cbn.
      rewrite lookup_insert_ne; [done |]. by intros ->.
    - cbn. unfold cached. cbn. by rewrite lookup_insert_eq. }
  assert (cached_entries s' = cached_entries s + route_entries ps) as Ee
    by (unfold cached_entries; rewrite Hmap, sumZ_app, sumZ_cons; cbn; lia).
  assert (cached_paths s' = cached_paths s + zlength ps) as Ep
    by (unfold cached_paths; rewrite Hmap, sumZ_app, sumZ_cons; cbn; lia).
  split; try done.
  - cbn [s' ps_order_ ps_cache_]. split.
    + apply NoDup_app. split_and!; [done | | apply NoDup_singleton].
      by intros x Hx ->%list_elem_of_singleton.
    + intros x. rewrite elem_of_app, list_elem_of_singleton, lookup_insert_is_Some', H4.
      split; [intros [? | ->]; [by right | by left] | intros [-> | ?]; [by right | by left]].
  - rewrite Ee. cbn [s' ps_statistics_ cs_route_entries ps_limits_]. subst st. rewrite H5.
    rewrite u64_wrap_id by (unfold u64; lia). lia.
  - rewrite Ep. cbn [s' ps_statistics_ cs_paths]. subst st. rewrite H7. rewrite u64_wrap_id by (unfold u64; lia). lia.
  - cbn. rewrite map_size_insert_None by done. lia.
  - intros x xs Hx. cbn in Hx. apply lookup_insert_Some in Hx as [[<- <-] | [_ Hx]]; [done | by eapply H9].
  - intros x xs Hr Hx. cbn in Hx. apply lookup_insert_Some in Hx as [[<- <-] | [_ Hx]]; [done | by eapply H10].
Qed.

Lemma path_lookup_run g s e :
  graph_ok g -> Z.of_nat (routing_nodes g) <= u64_max -> cache_ok g s ->
  exists s' r, path_lookup e g s = Some (s', r) /\ enumerate e (ps_limits_ s) g = Some r /\
    cache_ok g s' /\ ps_limits_ s' = ps_limits_ s.
Proof.
  intros Hg Hsize Hs0. destruct (refresh_ok g s Hs0) as (Hs & Hrev & Hlim). unfold path_lookup.
  rewrite <- Hlim. set (s1 := refresh g s) in *. clearbody s1. clear Hs0.
  destruct (ps_cache_ s1 !! e) as [found |] eqn:Hf.
  { eexists _, _. split; [reflexivity |]. split; [by apply (co_fresh _ _ Hs) |].
    split; [| done]. destruct Hs. by split. }
  set (st := ps_statistics_ s1). set (s2 := {| s1 with ps_statistics_ := _ |}).
  assert (cache_ok g s2) as Hs2 by (destruct Hs; by split).
  cbn [ps_limits_ s2].
  pose proof (enumerate_spec g e (ps_limits_ s1) Hg Hsize (co_limits _ _ Hs)) as Hen.
  destruct (enumerate e (ps_limits_ s1) g) as [[ps | err] |] eqn:He; [| by eexists _, _ | done].
  destruct Hen as (_ & _ & _ & Hw).
  assert (0 <= maximum_cached_route_entries (ps_limits_ s1)) as Hm by (destruct (co_limits _ _ Hs) as (_ & _ & _ & ?); lia).
  destruct (make_room_ok g s2 (route_entries ps) Hs2) as (s3 & -> & Hs3 & Hl3 & Hr3 & Hp3 & He3 & Hn3).
  { split; [apply route_entries_nonneg | by apply within_entries]. }
  change (ps_limits_ s2) with (ps_limits_ s1) in *. change (ps_revision_ s2) with (ps_revision_ s1) in *.
  eexists _, _. split; [reflexivity |]. split; [done |]. split; [| done].
  apply insert_pair_ok; rewrite ?Hl3; try done; [congruence | by apply Hn3].
Qed.

(** ** Steps *)

(** A lookup, or a change of the state of a link, port or switch. *)
Inductive path_step : TopologyGraph * PathService -> TopologyGraph * PathService -> Prop :=
  | step_lookup e g s s' r : path_lookup e g s = Some (s', r) -> path_step (g, s) (g, s')
  | step_state op g s : is_state_change op = true -> path_step (g, s) (graph_step g op, s).

(** What every step keeps. *)
Definition service_state_ok (limits : PathLimits) (p : TopologyGraph * PathService) : Prop :=
  graph_ok (fst p) /\ u64 (operational_revision_ (fst p)) /\
  Z.of_nat (routing_nodes (fst p)) <= u64_max /\
  cache_ok (fst p) (snd p) /\ ps_limits_ (snd p) = limits.

Lemma state_change_nodes op g : is_state_change op = true -> routing_nodes (graph_step g op) = routing_nodes g.
Proof.
  unfold routing_nodes. destruct op; try done; intros _; cbn [graph_step];
    unfold set_link_state, set_port_state, set_switch_state;
    match goal with
    | |- context [find_link ?i ?h] => destruct (find_link i h)
    | |- context [find_port ?i ?h] => destruct (find_port i h)
    | |- context [find_switch ?i ?h] => destruct (find_switch i h)
    end; try done; destruct (bool_decide _); try done; destruct (_ =? _); try done; cbn;
    by rewrite ?length_alter.
Qed.

Lemma path_step_ok limits p p' : path_step p p' -> service_state_ok limits p -> service_state_ok limits p'.
Proof.
  intros [e g s s' r Hrun | op g s Hop] (Hg & Hu & Hsize & Hs & Hl); cbn [fst snd] in *.
  - destruct (path_lookup_run g s e Hg Hsize Hs) as (s1 & r1 & Hrun1 & _ & Hs1 & Hl1).
    rewrite Hrun in Hrun1. injection Hrun1 as <- <-. unfold service_state_ok. cbn. split_and!; try done; [apply Hg.. | congruence].
  - destruct (state_change_revision op g Hop Hu) as [Heq | [Hr Hu']].
    + unfold service_state_ok. cbn [fst snd]. rewrite Heq. done.
    + unfold service_state_ok. cbn [fst snd]. split; [by apply graph_step_ok |]. split; [done |].
      split; [by rewrite state_change_nodes |]. split; [| done].
      destruct Hs as [H1 H2 H3 H4 H5 H6 H7 H8]. split; try done; [lia |]. intros e ps Hrev. lia.
Qed.

Lemma path_steps_ok limits p p' : rtc path_step p p' -> service_state_ok limits p -> service_state_ok limits p'.
Proof. induction 1 as [| p1 p2 p3 H12 _ IH]; [done |]. intros H1. by eapply IH, path_step_ok. Qed.

Lemma new_path_service_ok g limits s :
  graph_ok g -> u64 (operational_revision_ g) -> Z.of_nat (routing_nodes g) <= u64_max ->
  u64 (maximum_paths limits) -> u64 (maximum_hops limits) -> u64 (maximum_cached_pairs limits) ->
  u64 (maximum_cached_route_entries limits) ->
  new_path_service g limits = Ret s -> service_state_ok limits (g, s).
Proof.
  intros Hg Hu Hsize L1 L2 L3 L4. unfold new_path_service. destruct (_ || _) eqn:Hz; [done |]. intros [= <-].
  split_and!; try done; cbn; [apply Hg.. |]. unfold u64 in *.
  apply orb_false_iff in Hz as [[[[Z1 Z2]%orb_false_iff Z3]%orb_false_iff Z4]%orb_false_iff Z5].
  apply Z.eqb_neq in Z1, Z2, Z4, Z5. rewrite Z.gtb_ltb in Z3. apply Z.ltb_ge in Z3.
  split; cbn; try done.
  - unfold path_limits_ok. lia.
  - split; [constructor |]. intros e. split; [by intros ?%elem_of_nil | by intros [? ?]].
  - unfold cached_entries. cbn. lia.
  - rewrite map_size_empty. lia.
Qed.

(** ** Theorems *)

(** C11: routing sees all shortest paths.  On every graph that can be built,
    [enumerate] answers: for two different known NICs or switches it returns
    exactly the shortest paths of operational fabric links between them, each
    once, sorted, none when they are not connected; it throws [length_error]
    exactly when these paths exceed a limit, and [invalid_argument] exactly for
    endpoints that are not two different known NICs or switches. *)
Theorem enumerate_exact ops e limits :
  Z.of_nat (routing_nodes (build ops)) <= u64_max -> path_limits_ok limits ->
  match enumerate e limits (build ops) with
  | None => False
  | Some (Ret paths) =>
      endpoints_ok (build ops) e /\ all_shortest (build ops) e paths /\
      Sorted path_le paths /\ within limits paths
  | Some (Throw (invalid_argument _)) => ~ endpoints_ok (build ops) e
  | Some (Throw (length_error _)) =>
      endpoints_ok (build ops) e /\
      exists paths, all_shortest (build ops) e paths /\ ~ within limits paths
  | Some (Throw _) => False
  end.
Proof. intros Hsize Hl. apply enumerate_spec; [apply build_ok | done | done]. Qed.

(** Two NICs below two switches that are joined to both of them. *)
Definition clos_topology : list GraphOp :=
  [OpAddRack; OpAddNic 0; OpAddNic 0; OpAddLeafSwitch 0; OpAddSpineSwitch;
   OpConnectFabric (nic_node 0) FabricUplink (switch_node 0) FabricDownlink;
   OpConnectFabric (nic_node 0) FabricUplink (switch_node 1) FabricDownlink;
   OpConnectFabric (nic_node 1) FabricUplink (switch_node 0) FabricDownlink;
   OpConnectFabric (nic_node 1) FabricUplink (switch_node 1) FabricDownlink].

Definition clos_ends : Endpoints := mkEndpoints (nic_node 0) (nic_node 1).

Definition clos_paths : list Path :=
  [[mkDirectedLinkId 0 AToB; mkDirectedLinkId 2 BToA];
   [mkDirectedLinkId 1 AToB; mkDirectedLinkId 3 BToA]].

Lemma enumerate_exact_witness :
  enumerate clos_ends default_path_limits (build clos_topology) = Some (Ret clos_paths) /\
  all_shortest (build clos_topology) clos_ends clos_paths.
Proof.
  assert (enumerate clos_ends default_path_limits (build clos_topology) = Some (Ret clos_paths)) as He
    by (vm_compute; reflexivity).
  pose proof (enumerate_exact clos_topology clos_ends default_path_limits) as Hx. rewrite He in Hx.
  split; [exact He |]. apply Hx.
  - vm_compute. discriminate.
  - unfold path_limits_ok, default_path_limits. cbn. unfold u64_max. lia.
Defined.

(** C12: the path cache is transparent.  After any sequence of lookups and changes
    of the state of links, ports and switches, a lookup answers (its loops end
    and it never evicts from an empty cache) what enumerating now would answer,
    also when the answer is a throw; and the cache stays within its limits, with
    statistics that count exactly what it holds. *)
Theorem path_cache_transparent ops limits s0 g s e :
  Z.of_nat (routing_nodes (build ops)) <= u64_max -> u64 (operational_revision_ (build ops)) ->
  u64 (maximum_paths limits) -> u64 (maximum_hops limits) -> u64 (maximum_cached_pairs limits) ->
  u64 (maximum_cached_route_entries limits) ->
  new_path_service (build ops) limits = Ret s0 -> rtc path_step (build ops, s0) (g, s) ->
  exists s' r, path_lookup e g s = Some (s', r) /\ enumerate e limits g = Some r /\
    let st := path_statistics s' in
    cs_pairs st = zlength (ps_order_ s') /\ cs_pairs st <= maximum_cached_pairs limits /\
    cs_route_entries st = cached_entries s' /\
    cs_route_entries st <= maximum_cached_route_entries limits /\ cs_paths st = cached_paths s'.
Proof.
  intros Hsize Hu L1 L2 L3 L4 Hnew Hsteps.
  pose proof (new_path_service_ok _ _ _ (build_ok ops) Hu Hsize L1 L2 L3 L4 Hnew) as H0.
  destruct (path_steps_ok _ _ _ Hsteps H0) as (Hg & _ & Hsz & Hs & Hl). cbn [fst snd] in *.
  destruct (path_lookup_run g s e Hg Hsz Hs) as (s' & r & Hrun & Hen & Hs' & Hl').
  rewrite Hl in *. exists s', r. split; [done | split; [done |]].
  destruct Hs' as [_ _ [Hnd Hdom] [He1 He2] Hp Hpairs _ _]. cbn. rewrite Hl' in *.
  split_and!; try done; [| by rewrite He1].
  unfold zlength. f_equal.
  assert (dom (ps_cache_ s') = list_to_set (ps_order_ s')) as Hd.
  { apply set_eq. intros x. rewrite elem_of_list_to_set, elem_of_dom. symmetry. apply Hdom. }
  rewrite <- size_dom, Hd. by apply size_list_to_set.
Qed.

Lemma path_cache_transparent_witness :
  let g := build clos_topology in
  let s0 := mkPathService default_path_limits 0 (mkCacheStatistics 0 0 0 0 0 0) ∅ [] in
  let s1 := match path_lookup clos_ends g s0 with Some (s, _) => s | None => s0 end in
  let g' := graph_step g (OpSetLinkState 0 Down) in
  (exists s' r, path_lookup clos_ends g' s1 = Some (s', r) /\
     enumerate clos_ends default_path_limits g' = Some r) /\
  enumerate clos_ends default_path_limits g' =
    Some (Ret [[mkDirectedLinkId 1 AToB; mkDirectedLinkId 3 BToA]]).
Proof.
  intros g s0 s1 g'. split; [| vm_compute; reflexivity].
  destruct (path_cache_transparent clos_topology default_path_limits s0 g' s1 clos_ends)
    as (s' & r & H1 & H2 & _); try (unfold u64, u64_max; vm_compute; split; discriminate).
  - vm_compute. discriminate.
  - apply (rtc_l _ _ (g, s1)).
    + apply (step_lookup clos_ends g s0 s1 (Ret clos_paths)). vm_compute. reflexivity.
    + apply rtc_once. apply (step_state (OpSetLinkState 0 Down) g s1). reflexivity.
  - exists s', r. split; [exact H1 | exact H2].
Defined.
