(* ===== verification/RoutingPolicy.v ===== *)
(** * Routing policies

    Models [routing/policy.{hpp,cpp}]: the view of the fabric a policy reads, the
    baseline policies (canonical shortest path, stable flow hash, least loaded,
    queue aware) and the registry that creates policies by name. *)

From S2P Require Import Prelude SimTime Entities TelemetryRecords EventQueue Timing LinkQueue.
From S2P Require Import LinkService Topology RoutingPaths Transport.

(** ** Data *)

Record RouteRequest : Type := mkRouteRequest {
  rq_flow : Z;
  rq_endpoints : Endpoints;
  rq_bytes : ByteCount;
  rq_maximum_chunk_bytes : ByteCount;
}.

Record LinkLoad : Type := mkLinkLoad {
  ll_outstanding_bytes : ByteCount;
  ll_bandwidth : Z;
  ll_propagation : Z;
}.

(** [FabricView] holds a pointer to the runtime. *)
Abbreviation FabricView := TransportRuntime (only parsing).

Record RouteChoice : Type := mkRouteChoice {
  ch_candidate : Z;
  ch_score : Z;
  ch_reason : string;
}.

Record PolicyInput : Type := mkPolicyInput {
  pi_request : RouteRequest;
  pi_seed : Z;
  pi_candidates : list Path;
  pi_fabric : FabricView;
}.

(** The abstract class: its three virtual functions. *)
Record RoutingPolicy : Type := mkRoutingPolicy {
  policy_name : string;
  policy_version : Z;
  choose : PolicyInput -> outcome RouteChoice;
}.

(** ** The baseline policies *)

Definition score_add (left right : Z) : outcome Z :=
  if right >? u64_max - left then Throw (overflow_error "routing score overflow")
  else Ret (left + right).

Definition read_load (link : DirectedLinkId) (fabric : FabricView) : outcome LinkLoad :=
  match find_service link fabric with
  | None => Throw (invalid_argument "routing path uses unconfigured transport arc")
  | Some service =>
      let queue := queue_ service in
      match score_add (snap_waiting_bytes (snapshot queue))
              (match active_ queue with None => 0 | Some active => chunk_bytes active end) with
      | Throw e => Throw e
      | Ret bytes =>
          Ret (mkLinkLoad bytes (cfg_bandwidth (configuration_ queue))
                 (cfg_propagation_delay (configuration_ queue)))
      end
  end.

Inductive PolicyKind : Type := Shortest | Ecmp | LeastLoaded | QueueAware.

#[global] Instance PolicyKind_eq_dec : EqDecision PolicyKind.
Proof. solve_decision. Defined.

(** What one link adds to the score. *)
Definition link_cost (link : DirectedLinkId) (input : PolicyInput) (kind : PolicyKind) : outcome Z :=
  match read_load link (pi_fabric input) with
  | Throw e => Throw e
  | Ret load =>
      if bool_decide (kind = LeastLoaded) then Ret (ll_outstanding_bytes load) else
      let chunk := Z.min (rq_bytes (pi_request input)) (rq_maximum_chunk_bytes (pi_request input)) in
      match score_add (ll_outstanding_bytes load) chunk with
      | Throw e => Throw e
      | Ret bytes =>
          match serialization_delay bytes (ll_bandwidth load) with
          | None => Throw (overflow_error "queue-aware delay overflow")
          | Some delay => score_add delay (ll_propagation load)
          end
      end
  end.

(** The loop over the links of a path. *)
Fixpoint score_from (result : Z) (path : Path) (input : PolicyInput) (kind : PolicyKind) : outcome Z :=
  match path with
  | [] => Ret result
  | link :: rest =>
      match link_cost link input kind with
      | Throw e => Throw e
      | Ret cost =>
          match score_add result cost with
          | Throw e => Throw e
          | Ret result => score_from result rest input kind
          end
      end
  end.

Definition score (path : Path) (input : PolicyInput) (kind : PolicyKind) : outcome Z :=
  score_from 0 path input kind.

(** The inner loop over the bytes of a field. *)
Fixpoint ecmp_bytes (count : nat) (shift : Z) (hash field : Z) : Z :=
  match count with
  | O => hash
  | S n => ecmp_bytes n (shift + 8)
             (u64_wrap (Z.lxor hash (Z.land (Z.shiftr field shift) 255) * 1099511628211)) field
  end.

Definition ecmp_hash (request : RouteRequest) (seed : Z) : Z :=
  foldl (ecmp_bytes 8 0) 14695981039346656037
    [1; seed; rq_flow request;
     NodeKind_value (node_kind (ep_source (rq_endpoints request)));
     node_value (ep_source (rq_endpoints request));
     NodeKind_value (node_kind (ep_destination (rq_endpoints request)));
     node_value (ep_destination (rq_endpoints request))].

(** The loop over the candidates from [index] on. *)
Fixpoint best_from (index : Z) (candidates : list Path) (input : PolicyInput) (kind : PolicyKind)
    (best : RouteChoice) : outcome RouteChoice :=
  match candidates with
  | [] => Ret best
  | candidate :: rest =>
      match score candidate input kind with
      | Throw e => Throw e
      | Ret candidate_score =>
          best_from (index + 1) rest input kind
            (if candidate_score <? ch_score best
             then {| best with ch_candidate := index; ch_score := candidate_score |} else best)
      end
  end.

Definition baseline_choose (kind : PolicyKind) (input : PolicyInput) : outcome RouteChoice :=
  if bool_decide (pi_candidates input = []) || (rq_bytes (pi_request input) =? 0) ||
     (rq_maximum_chunk_bytes (pi_request input) =? 0)
  then Throw (invalid_argument "policy requires candidates and nonzero transfer quantities") else
  match kind with
  | Shortest => Ret (mkRouteChoice 0 0 "canonical minimum-hop path")
  | Ecmp =>
      Ret (mkRouteChoice (ecmp_hash (pi_request input) (pi_seed input) mod zlength (pi_candidates input))
             0 "stable flow hash over all equal-hop paths")
  | _ =>
      match pi_candidates input with
      | [] => Throw null_pointer
      | front :: rest =>
          match score front input kind with
          | Throw e => Throw e
          | Ret first =>
              best_from 1 rest input kind
                (mkRouteChoice 0 first
                   (if bool_decide (kind = LeastLoaded) then "minimum outstanding byte sum"
                    else "minimum estimated first-chunk delay ns"))
          end
      end
  end.

Definition BaselinePolicy (name : string) (kind : PolicyKind) : RoutingPolicy :=
  mkRoutingPolicy name 1 (baseline_choose kind).

(** ** The registry *)

(** A [std::function]: empty, or a factory, which may return a null pointer. *)
Abbreviation Factory := (option (option RoutingPolicy)) (only parsing).

Abbreviation PolicyRegistry := (gmap string (option RoutingPolicy)) (only parsing).

Definition add_policy (name : string) (factory : Factory) (registry : PolicyRegistry)
    : outcome PolicyRegistry :=
  match factory with
  | None => Throw (invalid_argument "invalid or duplicate routing policy registration")
  | Some factory =>
      if bool_decide (name = ""%string) || has_value (registry !! name)
      then Throw (invalid_argument "invalid or duplicate routing policy registration")
      else Ret (<[name := factory]> registry)
  end.

Definition register_baseline (kind : PolicyKind) (name : string) (registry : outcome PolicyRegistry)
    : outcome PolicyRegistry :=
  match registry with
  | Ret registry => add_policy name (Some (Some (BaselinePolicy name kind))) registry
  | Throw e => Throw e
  end.

(** The constructor. *)
Definition new_policy_registry : outcome PolicyRegistry :=
  register_baseline QueueAware "queue-aware"
    (register_baseline LeastLoaded "least-loaded"
       (register_baseline Ecmp "ecmp" (register_baseline Shortest "shortest-path" (Ret ∅)))).

Definition create_policy (name : string) (registry : PolicyRegistry) : outcome RoutingPolicy :=
  match registry !! name with
  | None => Throw (invalid_argument "unknown routing policy")
  | Some None => Throw (invalid_argument "routing factory returned invalid policy identity")
  | Some (Some policy) =>
      if negb (bool_decide (policy_name policy = name)) || (policy_version policy =? 0)
      then Throw (invalid_argument "routing factory returned invalid policy identity")
      else Ret policy
  end.

(** ** What the baseline policies choose *)

Lemma score_add_exact x y r : u64 x -> u64 y -> score_add x y = Ret r -> r = x + y /\ u64 r.
Proof.
  intros Hx Hy. unfold score_add. destruct (_ >? _) eqn:Ho; [done |]. intros [= <-].
  rewrite Z.gtb_ltb in Ho. apply Z.ltb_ge in Ho. unfold u64 in *. lia.
Qed.

Lemma ecmp_hash_u64 request seed : u64 (ecmp_hash request seed).
Proof.
  unfold ecmp_hash. generalize [1; seed; rq_flow request;
     NodeKind_value (node_kind (ep_source (rq_endpoints request)));
     node_value (ep_source (rq_endpoints request));
     NodeKind_value (node_kind (ep_destination (rq_endpoints request)));
     node_value (ep_destination (rq_endpoints request))].
  intros l. assert (u64 14695981039346656037) as Hh by word_lia. revert Hh.
  generalize 14695981039346656037. induction l as [| field l IH]; intros hash Hh; [done |]. cbn [foldl].
  apply IH. generalize 0. generalize 8%nat. intros count. revert hash Hh.
  induction count as [| count IHc]; intros hash Hh shift; [done |]. cbn [ecmp_bytes].
  apply IHc. apply u64_wrap_range.
Qed.

(** [best] has the least score of the candidates before [index], at its first
    occurrence. *)
Definition best_so_far (candidates : list Path) (input : PolicyInput) (kind : PolicyKind)
    (best : RouteChoice) : Prop :=
  0 <= ch_candidate best < zlength candidates /\
  exists p, candidates !! Z.to_nat (ch_candidate best) = Some p /\ score p input kind = Ret (ch_score best) /\
    forall i q, candidates !! i = Some q -> exists x, score q input kind = Ret x /\
      ch_score best <= x /\ (Z.of_nat i < ch_candidate best -> ch_score best < x).

Lemma best_so_far_snoc seen q input kind best x :
  best_so_far seen input kind best -> score q input kind = Ret x ->
  best_so_far (seen ++ [q]) input kind
    (if x <? ch_score best
     then {| best with ch_candidate := zlength seen; ch_score := x |} else best).
Proof.
  intros (Hr & p & Hp & Hs & Hmin) Hx. destruct (Z.ltb_spec x (ch_score best)) as [Hlt | Hge].
  - unfold best_so_far. cbn [ch_candidate ch_score]. split; [rewrite zlength_app, zlength_cons; unfold zlength; cbn; lia |].
    exists q. split; [unfold zlength; rewrite Nat2Z.id; by apply list_lookup_middle |]. split; [done |].
    intros i q' Hi. apply lookup_snoc_Some in Hi as [[Hl Hi] | [-> <-]].
    + destruct (Hmin i q' Hi) as (y & Hy & Hle & _). exists y. split; [done |]. lia.
    + exists x. split; [done |]. unfold zlength. lia.
  - unfold best_so_far. split; [rewrite zlength_app; unfold zlength in *; cbn; lia |].
    exists p. split; [by apply lookup_app_l_Some |]. split; [done |].
    intros i q' Hi. apply lookup_snoc_Some in Hi as [[Hl Hi] | [-> <-]]; [by apply Hmin |].
    exists x. split; [done |]. unfold zlength in Hr. lia.
Qed.

Lemma best_from_spec rest seen input kind best choice :
  best_so_far seen input kind best ->
  best_from (zlength seen) rest input kind best = Ret choice ->
  best_so_far (seen ++ rest) input kind choice /\ ch_reason choice = ch_reason best.
Proof.
  revert seen best. induction rest as [| q rest IH]; intros seen best Hb; cbn [best_from].
  - intros [= <-]. by rewrite app_nil_r.
  - destruct (score q input kind) as [x |] eqn:Hx; [| done]. intros Hrun.
    pose proof (best_so_far_snoc seen q input kind best x Hb Hx) as Hb'.
    replace (zlength seen + 1) with (zlength (seen ++ [q])) in Hrun
      by (rewrite zlength_app, zlength_cons; unfold zlength; cbn; lia).
    apply IH in Hrun as [Hr1 Hr2]; [| done]. rewrite <- app_assoc in Hr1. split; [done |].
    rewrite Hr2. by destruct (_ <? _).
Qed.

Lemma best_from_throw rest index input kind best e :
  best_from index rest input kind best = Throw e -> exists p, p ∈ rest /\ score p input kind = Throw e.
Proof.
  revert index best. induction rest as [| q rest IH]; intros index best; cbn [best_from]; [done |].
  destruct (score q input kind) as [x | e'] eqn:Hx.
  - intros (p & Hp & Hs)%IH. exists p. split; [by right | done].
  - intros [= <-]. exists q. split; [by left | done].
Qed.

Lemma baseline_choose_spec kind input :
  match baseline_choose kind input with
  | Throw e =>
      pi_candidates input = [] \/ rq_bytes (pi_request input) = 0 \/
      rq_maximum_chunk_bytes (pi_request input) = 0 \/
      (kind = LeastLoaded \/ kind = QueueAware) /\
      exists p, p ∈ pi_candidates input /\ score p input kind = Throw e
  | Ret choice =>
      0 <= ch_candidate choice < zlength (pi_candidates input) /\
      match kind with
      | Shortest => ch_candidate choice = 0
      | Ecmp => ch_candidate choice =
                  ecmp_hash (pi_request input) (pi_seed input) mod zlength (pi_candidates input)
      | _ => best_so_far (pi_candidates input) input kind choice
      end
  end.
Proof.
  unfold baseline_choose. destruct (_ || _) eqn:Hg.
  { apply orb_true_iff in Hg as [[Hc%bool_decide_eq_true | Hb%Z.eqb_eq]%orb_true_iff | Hm%Z.eqb_eq]; tauto. }
  apply orb_false_iff in Hg as [[Hc%bool_decide_eq_false _]%orb_false_iff _].
  destruct (pi_candidates input) as [| front rest] eqn:Hcs; [done |].
  assert (0 < zlength (front :: rest)) as Hpos by (unfold zlength; cbn; lia).
  assert (forall reason, (kind = LeastLoaded \/ kind = QueueAware) ->
    match match score front input kind with
          | Throw e => Throw e
          | Ret first => best_from 1 rest input kind (mkRouteChoice 0 first reason)
          end with
    | Throw e => exists p, p ∈ front :: rest /\ score p input kind = Throw e
    | Ret choice => best_so_far (front :: rest) input kind choice
    end) as Hscored.
  { intros reason _. destruct (score front input kind) as [first | e] eqn:Hs; [| exists front; split; [by left | done]].
    destruct (best_from _ _ _ _ _) as [choice | e] eqn:Hrun.
    - apply (best_from_spec rest [front]) in Hrun as [Hb _]; [exact Hb |].
      split; [unfold zlength; cbn; lia |]. exists front. split; [done | split; [done |]].
      intros i q Hi. apply list_lookup_singleton_Some in Hi as [-> <-]. exists first. cbn. split; [done | lia].
    - apply best_from_throw in Hrun as (p & Hp & Hsp). exists p. split; [by right | done]. }
  destruct kind.
  - cbn. split; [lia | done].
  - cbn [ch_candidate]. split; [| done]. apply Z.mod_pos_bound. lia.
  - match goal with |- context [mkRouteChoice 0 _ ?r] => specialize (Hscored r (or_introl eq_refl)) end.
    destruct (match score front _ _ with Ret _ => _ | _ => _ end); [split; [apply Hscored | done] | tauto].
  - match goal with |- context [mkRouteChoice 0 _ ?r] => specialize (Hscored r (or_intror eq_refl)) end.
    destruct (match score front _ _ with Ret _ => _ | _ => _ end); [split; [apply Hscored | done] | tauto].
Qed.

(** A [std::size_t] indexes the candidates. *)
Definition policy_ok (p : RoutingPolicy) : Prop :=
  forall input c, choose p input = Ret c -> 0 <= ch_candidate c.

Lemma baseline_policy_ok name kind : policy_ok (BaselinePolicy name kind).
Proof.
  intros input c Hc. pose proof (baseline_choose_spec kind input) as Hs. cbn in Hc. rewrite Hc in Hs. lia.
Qed.

(** The baseline policies choose as documented.  The choice is always a
    candidate.  The canonical policy takes the first one; the flow hash a
    candidate that depends on seed, flow and endpoints only; the least-loaded and
    the queue-aware policy the first candidate of least score, the score being
    the one reported.  They refuse only an empty request, and the latter two
    also when the score of a candidate cannot be computed. *)
Theorem baseline_choice_correct kind input :
  match baseline_choose kind input with
  | Throw e =>
      pi_candidates input = [] \/ rq_bytes (pi_request input) = 0 \/
      rq_maximum_chunk_bytes (pi_request input) = 0 \/
      (kind = LeastLoaded \/ kind = QueueAware) /\
      exists p, p ∈ pi_candidates input /\ score p input kind = Throw e
  | Ret choice =>
      0 <= ch_candidate choice < zlength (pi_candidates input) /\
      match kind with
      | Shortest => ch_candidate choice = 0
      | Ecmp => ch_candidate choice =
                  ecmp_hash (pi_request input) (pi_seed input) mod zlength (pi_candidates input)
      | _ => best_so_far (pi_candidates input) input kind choice
      end
  end.
Proof. apply baseline_choose_spec. Qed.
