(* ===== verification/Router.v ===== *)
(** * The router

    Models [routing/router.{hpp,cpp}]: looking up the shortest paths of a
    request, asking the policy, submitting the transfer over the chosen path and
    recording the decision.  The router points to the topology and the transport
    runtime and receives the simulation context, which [Transport] holds. *)

From S2P Require Import Prelude SimTime Entities TelemetryRecords Trace EventQueue SimContext.
From S2P Require Import Timing LinkQueue LinkService Topology Transport RoutingPaths RoutingPolicy.

Record RoutingConfiguration : Type := mkRoutingConfiguration {
  rcfg_policy : string;
  rcfg_seed : Z;
  rcfg_paths : PathLimits;
  rcfg_maximum_decisions : Z;
}.

Definition default_routing_configuration : RoutingConfiguration :=
  mkRoutingConfiguration "ecmp" 42 default_path_limits 100000.

Record RouteDecision : Type := mkRouteDecision {
  rd_request : RouteRequest;
  rd_policy : string;
  rd_version : Z;
  rd_timestamp : SimTimeNs;
  rd_operational_revision : Z;
  rd_candidates : Z;
  rd_path : Path;
  rd_score : Z;
  rd_reason : string;
  rd_transfer : option TransferId;
}.

Record Router : Type := mkRouter {
  rt_configuration_ : RoutingConfiguration;
  rt_policy_ : RoutingPolicy;
  rt_paths_ : PathService;
  rt_telemetry_ : TelemetrySink;
  rt_decisions_ : list RouteDecision;
  rt_next_decision_id_ : Z;
  rt_decision_ids_exhausted_ : bool;
}.

(** The constructor; members are initialised in the order of their declaration. *)
Definition new_router (g : TopologyGraph) (registry : PolicyRegistry)
    (configuration : RoutingConfiguration) (telemetry : TelemetrySink) : outcome Router :=
  match create_policy (rcfg_policy configuration) registry with
  | Throw e => Throw e
  | Ret policy =>
      match new_path_service g (rcfg_paths configuration) with
      | Throw e => Throw e
      | Ret paths =>
          if rcfg_maximum_decisions configuration =? 0
          then Throw (invalid_argument "routing decision limit must be positive")
          else Ret (mkRouter configuration policy paths telemetry [] 0 false)
      end
  end.

Record Routed (C : Type) : Type := mkRouted {
  ro_router : Router;
  ro_transport : Transport C;
}.
Arguments mkRouted {C} _ _.
Arguments ro_router {C} _.
Arguments ro_transport {C} _.

Section Operations.
Context {C : Type} `{SimContext C}.

Abbreviation RM := (M (Routed C)).

Definition with_transport {A} (m : M (Transport C) A) : RM A :=
  zoom ro_transport (fun t w => {| w with ro_transport := t |}) m.

Definition modify_router (f : Router -> Router) : RM unit :=
  modify (fun w => {| w with ro_router := f (ro_router w) |}).

(** [paths_.lookup]; the search ends and evicts nothing missing on every
    state of the router ([path_lookup_run]), so the last case does not occur. *)
Definition lookup_paths (endpoints : Endpoints) : RM (list Path) :=
  fun w =>
    let r := ro_router w in
    match path_lookup endpoints (tp_topology (ro_transport w)) (rt_paths_ r) with
    | Some (paths, o) => ({| w with ro_router := {| r with rt_paths_ := paths |} |}, o)
    | None => (w, Throw null_pointer)
    end.

Definition next_decision_id : RM Z :=
  let! r := gets ro_router in
  do! throw_if (rt_decision_ids_exhausted_ r)
        (overflow_error "routing decision ID sequence exhausted") in
  let id := rt_next_decision_id_ r in
  do! modify_router (fun r =>
        if id =? u64_max then {| r with rt_decision_ids_exhausted_ := true |}
        else {| r with rt_next_decision_id_ := id + 1 |}) in
  ret id.

Definition emit_decision (decision : RouteDecision) (outcome : RoutingDecisionOutcome) (id : Z)
    : RM unit :=
  let! sink := gets (fun w => rt_telemetry_ (ro_router w)) in
  let! enabled := gets (fun w => ctx_sink_enabled sink (tp_context (ro_transport w))) in
  when enabled
    (let! correlation := with_transport event_correlation in
     let correlation := {| correlation with
       corr_transfer := rd_transfer decision; corr_routing_decision := Some id |} in
     let! now := with_transport get_now in
     do! with_transport (with_context (ctx_sink_record sink now correlation
           (RoutingDecisionObservation_ (mkRoutingDecisionObservation id (rd_policy decision)
              (rd_version decision) (rd_operational_revision decision) (rd_candidates decision)
              (rd_path decision) (rd_score decision) (rd_reason decision) (rd_transfer decision)
              outcome)))) in
     let! labels := of_outcome (make_labels
       [mkMetricLabelValue MetricLabel_Policy (policy_label_value (rd_policy decision));
        mkMetricLabelValue MetricLabel_Outcome (RoutingDecisionOutcome_value outcome)]) in
     with_transport (with_context (ctx_sink_record sink now correlation
       (CounterObservation RoutingDecisionTotal labels 1)))).

(** The end of both branches: number, observe and keep the decision. *)
Definition record_decision (decision : RouteDecision) (outcome : RoutingDecisionOutcome) : RM unit :=
  let! id := next_decision_id in
  do! emit_decision decision outcome id in
  modify_router (fun r => {| r with rt_decisions_ := rt_decisions_ r ++ [decision] |}).

Definition router_submit (request : RouteRequest) : RM (option SubmittedTransfer) :=
  do! throw_if ((rq_bytes request =? 0) || (rq_maximum_chunk_bytes request =? 0))
        (invalid_argument "routing requires nonzero transfer quantities") in
  let! r := gets ro_router in
  do! throw_if (zlength (rt_decisions_ r) =? rcfg_maximum_decisions (rt_configuration_ r))
        (length_error "drain routing decisions before submitting more work") in
  let! candidates := lookup_paths (rq_endpoints request) in
  let! now := with_transport get_now in
  let! g := gets (fun w => tp_topology (ro_transport w)) in
  let decision := mkRouteDecision request (policy_name (rt_policy_ r)) (policy_version (rt_policy_ r))
    now (operational_revision_ g) (zlength candidates) [] 0 "no operational fabric path" None in
  if bool_decide (candidates = []) then
    do! record_decision decision RoutingDecisionOutcome_NoRoute in
    ret None
  else
    let! fabric := gets (fun w => tp_runtime (ro_transport w)) in
    let! choice := of_outcome (choose (rt_policy_ r)
      (mkPolicyInput request (rcfg_seed (rt_configuration_ r)) candidates fabric)) in
    do! throw_if (ch_candidate choice >=? zlength candidates)
          (invalid_argument "routing policy returned invalid candidate index") in
    let path := default [] (candidates !! Z.to_nat (ch_candidate choice)) in
    let! transfer := with_transport (submit_transfer (mkTransferRequest
      (ep_source (rq_endpoints request)) (ep_destination (rq_endpoints request))
      (rq_bytes request) (rq_maximum_chunk_bytes request) path)) in
    do! record_decision {| decision with rd_path := path; rd_score := ch_score choice;
          rd_reason := ch_reason choice; rd_transfer := Some (st_id transfer) |}
          RoutingDecisionOutcome_Selected in
    ret (Some transfer).

Definition take_decisions : RM (list RouteDecision) :=
  let! r := gets ro_router in
  do! modify_router (fun r => {| r with rt_decisions_ := [] |}) in
  ret (rt_decisions_ r).

Definition cache_statistics (w : Routed C) : CacheStatistics := path_statistics (rt_paths_ (ro_router w)).
End Operations.
