(* ===== verification/RouterTheorems.v ===== *)
(** * What the router does

    The composition of path service, policy and transport: along every run of
    the program the router submits transfers over shortest operational paths
    only, paths the transport accepts as routes, and logs every decision. *)

From S2P Require Import Prelude SimTime Entities TelemetryRecords EventQueue Trace Simulation SimContext Timing.
From S2P Require Import LinkQueue LinkService LinkServiceLaws Topology TopologyLaws Transport TransportLaws.
From S2P Require Import TransportInv TransportSteps TransportSubmit TransportReach TransportTheorems.
From S2P Require Import RoutingPaths RoutingPathsLaws RoutingCache RoutingPolicy Router.

(** ** Fabric paths are routes *)

Lemma fabric_arc_known g n arc : graph_ok g -> arc ∈ arcs_from g n -> fabric_arc g arc ->
  require_fabric_arc (arc_id arc) g = Ret arc /\
  (exists p, find_port (arc_source arc) g = Some p /\ port_owner p = n).
Proof.
  intros Hg [Hsrc Hin]%list_elem_of_filter [_ Hk].
  destruct (arc_link g arc Hg Hin) as (l & Hl & Hf & Ha). rewrite Hf in Hk. injection Hk as Hk.
  destruct (gs_links _ (go_structure _ Hg) l Hl) as (Hpa & Hpb & _).
  split.
  - unfold require_fabric_arc. rewrite Hf. rewrite bool_decide_eq_true_2 by done. cbn [negb].
    by destruct Ha as [-> | ->].
  - assert (0 <= arc_source arc) as H0 by (destruct Ha as [-> | ->]; cbn; lia).
    unfold owner_of in Hsrc. apply fmap_Some in Hsrc as (p & Hp & Ho). exists p. split; [| done].
    apply (find_dense_Some port_id); [apply Hg | done].
Qed.

Lemma fabric_path_arcs g s p d : graph_ok g -> fabric_path g s p d -> p <> [] ->
  exists first arcs, route_arcs p g = Some (first :: arcs) /\ contiguous (first :: arcs) g /\
    port_belongs (arc_source first) (Some s) g /\
    port_belongs (arc_destination (last_arc first arcs)) (Some d) g.
Proof.
  intros Hg. induction 1 as [| n arc m p d Hin Hf Ho Hp IH]; [done |]. intros _.
  destruct (fabric_arc_known g n arc Hg Hin Hf) as [Hreq (ps & Hps & Hpo)].
  assert (arc ∈ arcs_of (links_ g)) as Hin' by (by apply list_elem_of_filter in Hin as [_ ?]).
  destruct (arc_destination_owner g arc Hg Hin') as (q & Hq & Hqo & _).
  rewrite Ho in Hqo. injection Hqo as ->. cbn [route_arcs]. rewrite Hreq.
  assert (port_belongs (arc_source arc) (Some n) g) as Hsrc by (intros ? [= <-]; eauto).
  destruct p as [| l p].
  - exists arc, []. cbn. split_and!; try done. inversion Hp; subst. intros ? [= <-]. eauto.
  - destruct IH as (first & arcs & Hr & Hc & Hs & Hd); [done |]. rewrite Hr.
    exists arc, (first :: arcs). split_and!; try done.
    destruct (Hs (port_owner q) eq_refl) as (p' & Hp' & Hpo'). split; [| done]. exists q, p'. done.
Qed.

Lemma fabric_path_route_valid g s p d rt :
  graph_ok g -> fabric_path g s p d -> s <> d ->
  zlength p <= maximum_route_hops (limits_ rt) -> zlength p <= u32_max ->
  (forall l, l ∈ p -> is_Some (services_ rt !! l)) ->
  route_valid p (Some s) (Some d) rt g.
Proof.
  intros Hg Hp Hsd Hh Hu Hs. split; [done | split; [done | split; [done |]]].
  apply fabric_path_arcs; [done | done |]. intros ->. by inversion Hp.
Qed.

(** ** Frames *)

Section Frames.
Context {C : Type} `{SimContext C}.
Implicit Types (w : Routed C) (t : Transport C).

(** Only the context and the numbering of decisions may differ. *)
Definition decided w w' : Prop :=
  tp_runtime (ro_transport w') = tp_runtime (ro_transport w) /\
  tp_topology (ro_transport w') = tp_topology (ro_transport w) /\
  rt_paths_ (ro_router w') = rt_paths_ (ro_router w) /\
  rt_configuration_ (ro_router w') = rt_configuration_ (ro_router w) /\
  rt_policy_ (ro_router w') = rt_policy_ (ro_router w).

Lemma wp_with_context {A} (m : M C A) w (Q : Routed C -> A -> Prop) E :
  (forall w' a, decided w w' -> rt_decisions_ (ro_router w') = rt_decisions_ (ro_router w) -> Q w' a) ->
  (forall w' e, decided w w' -> rt_decisions_ (ro_router w') = rt_decisions_ (ro_router w) -> E w' e) ->
  wp (with_transport (with_context m)) Q E w.
Proof.
  intros HQ HE. unfold wp, with_transport, with_context, zoom.
  destruct (m (tp_context (ro_transport w))) as [c [a | e]]; [apply HQ | apply HE]; done.
Qed.

(** Computations of the transport that only read. *)
Lemma wp_with_read {A} (m : M (Transport C) A) w (Q : Routed C -> A -> Prop) (E : Routed C -> exn -> Prop) :
  fst (m (ro_transport w)) = ro_transport w ->
  (forall a, Q w a) -> (forall e, E w e) -> wp (with_transport m) Q E w.
Proof.
  intros Hm HQ HE. unfold wp, with_transport, zoom. destruct (m (ro_transport w)) as [t r]. cbn in Hm. subst t.
  destruct w. by destruct r.
Qed.

Lemma decided_trans w1 w2 w3 : decided w1 w2 -> decided w2 w3 -> decided w1 w3.
Proof. unfold decided. intros (? & ? & ? & ? & ?) (? & ? & ? & ? & ?). split_and!; congruence. Qed.

Lemma emit_decision_frame d o id w :
  wp (emit_decision d o id)
    (fun w' _ => decided w w' /\ rt_decisions_ (ro_router w') = rt_decisions_ (ro_router w))
    (fun w' _ => decided w w' /\ rt_decisions_ (ro_router w') = rt_decisions_ (ro_router w)) w.
Proof.
  assert (decided w w) as Hrefl by done.
  unfold emit_decision. do 2 (wp_step; apply wp_gets). apply wp_when; [intros _ | done].
  apply wp_bind, wp_with_read; [| | done].
  { unfold event_correlation, current_event, bind, ret. destruct (ctx_current_event_id _); [| done].
    by destruct (ctx_cause (tp_context (ro_transport w))). }
  intros correlation. apply wp_bind, wp_with_read; [done | | done]. intros now. apply wp_bind.
  apply wp_with_context; [| done]. intros w1 [] H1 D1. apply wp_bind, wp_of_outcome; [| done].
  intros labels _. apply wp_with_context; intros w2 ? H2 D2; (split; [by eapply decided_trans | congruence]).
Qed.

Lemma record_decision_spec d o w :
  wp (record_decision d o)
    (fun w' _ => decided w w' /\ rt_decisions_ (ro_router w') = rt_decisions_ (ro_router w) ++ [d])
    (fun w' _ => decided w w' /\ rt_decisions_ (ro_router w') = rt_decisions_ (ro_router w)) w.
Proof.
  unfold record_decision. wp_step. unfold next_decision_id. wp_step. apply wp_gets. wp_step.
  apply wp_throw_if; [done |]. intros _. wp_step. apply wp_modify. apply wp_ret. wp_step.
  match goal with |- wp _ _ _ ?x => set (w1 := x) end.
  assert (decided w w1 /\ rt_decisions_ (ro_router w1) = rt_decisions_ (ro_router w)) as [H1 D1]
    by (unfold w1, decided; cbn; destruct (_ =? _); done).
  eapply wp_conseq; [apply emit_decision_frame | |].
  - intros w2 [] [H2 D2]. apply wp_modify. split.
    + eapply decided_trans; [exact H1 |]. eapply decided_trans; [exact H2 |]. done.
    + cbn. congruence.
  - intros w2 e [H2 D2]. split; [by eapply decided_trans | congruence].
Qed.
End Frames.

(** ** Submission *)

Section Submit.
Context {C : Type} `{SimContext C}.
Implicit Types (w : Routed C) (t : Transport C) (taken : list TransferCompletion).

Definition path_limits_of w : PathLimits := rcfg_paths (rt_configuration_ (ro_router w)).

Definition topology_of w : TopologyGraph := tp_topology (ro_transport w).

Record router_ok w taken : Prop := {
  rok_runtime : runtime_ok (tp_runtime (ro_transport w)) no_extra taken;
  rok_paths : service_state_ok (path_limits_of w) (topology_of w, rt_paths_ (ro_router w));
  rok_policy : policy_ok (rt_policy_ (ro_router w));
}.

Lemma decided_ok w w' taken : decided w w' -> router_ok w taken -> router_ok w' taken.
Proof.
  intros (E1 & E2 & E3 & E4 & E5) [H1 H2 H3].
  split; unfold path_limits_of, topology_of in *; by rewrite ?E1, ?E2, ?E3, ?E4, ?E5.
Qed.

(** The lookup changes the cache only, and answers what holds now. *)
Lemma lookup_paths_spec e w taken :
  router_ok w taken ->
  wp (lookup_paths e)
    (fun w' paths => router_ok w' taken /\ ro_transport w' = ro_transport w /\
       rt_configuration_ (ro_router w') = rt_configuration_ (ro_router w) /\
       rt_policy_ (ro_router w') = rt_policy_ (ro_router w) /\
       rt_decisions_ (ro_router w') = rt_decisions_ (ro_router w) /\
       endpoints_ok (topology_of w) e /\ all_shortest (topology_of w) e paths)
    (fun w' _ => rt_decisions_ (ro_router w') = rt_decisions_ (ro_router w)) w.
Proof.
  intros [Hrt Hp Hpol]. destruct Hp as (Hg & Hu & Hsz & Hs & Hl). cbn [fst snd] in *.
  destruct (path_lookup_run _ _ e Hg Hsz Hs) as (s' & r & Hrun & Hen & Hs' & Hl').
  pose proof (enumerate_spec _ e _ Hg Hsz (co_limits _ _ Hs)) as Hspec. rewrite Hen in Hspec.
  unfold wp, lookup_paths. fold (topology_of w). rewrite Hrun. destruct r as [paths | err]; [| done].
  destruct Hspec as (Hep & Hall & _). split; [| done]. split; [done | | done].
  unfold service_state_ok, path_limits_of, topology_of in *. cbn. split; [done | split; [done | split; [done | split; [done |]]]].
  congruence.
Qed.

Definition routed_request (request : RouteRequest) (path : Path) : TransferRequest :=
  mkTransferRequest (ep_source (rq_endpoints request)) (ep_destination (rq_endpoints request))
    (rq_bytes request) (rq_maximum_chunk_bytes request) path.

Lemma router_submit_spec taken request w :
  router_ok w taken -> u64 (ctx_now (tp_context (ro_transport w))) ->
  u64 (rq_bytes request) -> u64 (rq_maximum_chunk_bytes request) ->
  let s := ep_source (rq_endpoints request) in
  let d := ep_destination (rq_endpoints request) in
  wp (router_submit request)
    (fun w' r => router_ok w' taken /\ topology_of w' = topology_of w /\
       rt_configuration_ (ro_router w') = rt_configuration_ (ro_router w) /\
       zlength (rt_decisions_ (ro_router w)) <> rcfg_maximum_decisions (rt_configuration_ (ro_router w)) /\
       exists decision, rt_decisions_ (ro_router w') = rt_decisions_ (ro_router w) ++ [decision] /\
         rd_request decision = request /\
       match r with
       | None => tp_runtime (ro_transport w') = tp_runtime (ro_transport w) /\
           ~ rtc (fabric_hop (topology_of w)) s d /\ rd_transfer decision = None
       | Some st => exists t1,
           shortest_path (topology_of w) s (rd_path decision) d /\
           submit_transfer (routed_request request (rd_path decision)) (ro_transport w) = (t1, Ret st) /\
           tp_runtime (ro_transport w') = tp_runtime t1 /\ rd_transfer decision = Some (st_id st)
       end)
    (fun w' _ => rt_decisions_ (ro_router w') = rt_decisions_ (ro_router w)) w.
Proof.
  intros Hw Hnow Hb Hm s d. unfold router_submit.
  wp_step. apply wp_throw_if; [done | intros _]. wp_step. apply wp_gets. wp_step. apply wp_throw_if; [done | intros Hroom%Z.eqb_neq].
  wp_step. eapply wp_conseq; [by apply (lookup_paths_spec _ _ taken) | | done].
  intros w1 paths (Hw1 & Ht1 & Hc1 & Hp1 & Hd1 & Hep & Hnd & Hall).
  wp_step. apply wp_with_read; [done | | done]. intros now. wp_step. apply wp_gets. cbv zeta.
  assert (topology_of w1 = topology_of w) as Htop by (unfold topology_of; by rewrite Ht1).
  case_bool_decide as Hnil.
  - wp_step. eapply wp_conseq; [apply record_decision_spec | | intros w2 e [_ ->]; done].
    intros w2 [] [Hdec Hd2]. apply wp_ret. split; [by eapply decided_ok |].
    destruct Hdec as (E1 & E2 & E3 & E4 & E5).
    split; [unfold topology_of in *; by rewrite E2 |]. split; [by rewrite E4 |]. split; [done |].
    eexists. split; [by rewrite Hd2, Hd1 |]. split; [done |]. split; [by rewrite E1, Ht1 |]. split; [| done].
    destruct Hep as (Hs & Hd & _), (rok_paths _ _ Hw) as (Hg & _ & Hsz & _).
    intros (q & Hq%Hall)%shortest_exists; [| done..]. subst paths. by apply elem_of_nil in Hq.
  - wp_step. apply wp_gets. wp_step. apply wp_of_outcome; [| done]. intros choice Hch.
    wp_step. apply wp_throw_if; [done |]. intros Hlt. rewrite Z.geb_leb in Hlt. apply Z.leb_gt in Hlt.
    rewrite <- Hp1 in Hch. pose proof (rok_policy _ _ Hw1 _ _ Hch) as H0.
    destruct (lookup_lt_is_Some_2 paths (Z.to_nat (ch_candidate choice))) as [path Hpath];
      [unfold zlength in Hlt; lia |]. rewrite Hpath. cbn [default from_option id].
    assert (shortest_path (topology_of w) s path d) as Hsp by (apply Hall; by eapply list_elem_of_lookup_2).
    fold s d. change (mkTransferRequest s d _ _ path) with (routed_request request path).
    wp_step. unfold wp at 1, with_transport at 1, zoom at 1. rewrite Ht1.
    destruct (submit_transfer (routed_request request path) (ro_transport w)) as [t1 [st | e]] eqn:Hsub; [| done].
    destruct (submit_transfer_spec taken (routed_request request path) (ro_transport w) t1 st (rok_runtime _ _ Hw) Hnow Hb Hm Hsub) as (t2 & Hsb & Hok1 & _ & Htop1).
    rewrite (sb_topology _ _ _ _ _ _ Hsb) in Htop1.
    wp_step. eapply wp_conseq; [apply record_decision_spec | | intros w2 e [_ ->]; done].
    intros w2 [] [Hdec Hd2]. apply wp_ret.
    assert (router_ok {| w1 with ro_transport := t1 |} taken) as Hw1'.
    { destruct Hw1 as [_ R2 R3]. split; [done | | done].
      unfold path_limits_of, topology_of in *. cbn. by rewrite Htop1, <- Ht1. }
    split; [by eapply decided_ok |]. destruct Hdec as (E1 & E2 & E3 & E4 & E5). cbn in E1, E2, E3, E4, E5.
    split; [unfold topology_of; by rewrite E2 |]. split; [by rewrite E4 |]. split; [done |].
    eexists. split; [rewrite Hd2; cbn; by rewrite Hd1 |]. split; [done |]. exists t1. split_and!; try done; apply Hsp.
Qed.
End Submit.

(** ** Theorems on the router

    The steps of a router together with its transport runtime and topology, the
    states they reach, and what a submission does in each of them. *)

(** ** Steps *)

(** Changes of the state of links, ports and switches. *)
Definition state_changed : TopologyGraph -> TopologyGraph -> Prop :=
  rtc (fun g g' => exists op, is_state_change op = true /\ g' = graph_step g op).

Section Reach.
Context {C : Type} `{SimContext C}.
Implicit Types (w : Routed C) (taken : list TransferCompletion).

(** One call that returned.  Everything else the program does to the transport
    runtime may happen in between; the shape of the topology is fixed before the
    run, its links, ports and switches fail and recover. *)
Inductive router_step : Routed C * list TransferCompletion -> Routed C * list TransferCompletion -> Prop :=
  | router_step_submit request w taken w' r :
      u64 (rq_bytes request) -> u64 (rq_maximum_chunk_bytes request) ->
      u64 (ctx_now (tp_context (ro_transport w))) ->
      router_submit request w = (w', Ret r) -> router_step (w, taken) (w', taken)
  | router_step_take w taken w' ds :
      take_decisions w = (w', Ret ds) -> router_step (w, taken) (w', taken)
  | router_step_transport w taken t' taken' :
      transport_step (ro_transport w, taken) (t', taken') ->
      state_changed (topology_of w) (tp_topology t') ->
      router_step (w, taken) ({| w with ro_transport := t' |}, taken').

Definition log_bounded w : Prop :=
  zlength (rt_decisions_ (ro_router w)) <= rcfg_maximum_decisions (rt_configuration_ (ro_router w)).

Definition routed_ok (p : Routed C * list TransferCompletion) : Prop :=
  router_ok (fst p) (snd p) /\ log_bounded (fst p).

Lemma state_changed_ok limits g g' s :
  state_changed g g' -> service_state_ok limits (g, s) -> service_state_ok limits (g', s).
Proof.
  induction 1 as [| g1 g2 g3 (op & Hop & ->) _ IH]; [done |]. intros Hs. apply IH.
  eapply path_step_ok; [by apply step_state | done].
Qed.

Lemma router_step_ok p p' : router_step p p' -> routed_ok p -> routed_ok p'.
Proof.
  intros [request w taken w' r Hb Hm Hn Hr | w taken w' ds Hr | w taken t' taken' Hst Hg] [Hw Hl]; cbn [fst snd] in *.
  - pose proof (wp_run _ _ _ _ _ _ (router_submit_spec taken request w Hw Hn Hb Hm) Hr)
      as (Hw' & _ & Hc & Hroom & d & Hd & _).
    split; [done |]. unfold log_bounded in *. cbn. rewrite Hc, Hd, zlength_app, zlength_cons. unfold zlength in *. cbn. lia.
  - unfold take_decisions, modify_router, bind, gets, modify, ret in Hr. injection Hr as <- _.
    destruct Hw as [H1 H2 H3]. split; [by split |]. unfold log_bounded, zlength in *. cbn in *. lia.
  - destruct Hw as [H1 H2 H3]. destruct (transport_step_ok _ _ Hst H1) as [Hrt _]. split; [| done].
    split; [done | | done]. by eapply state_changed_ok.
Qed.

Lemma router_steps_ok p p' : rtc router_step p p' -> routed_ok p -> routed_ok p'.
Proof. induction 1 as [| p1 p2 p3 H12 _ IH]; [done |]. intros H1. by eapply IH, router_step_ok. Qed.

Definition path_limits_words (l : PathLimits) : Prop :=
  u64 (maximum_paths l) /\ u64 (maximum_hops l) /\ u64 (maximum_cached_pairs l) /\
  u64 (maximum_cached_route_entries l).

(** A router the program can have, over a transport runtime and a topology the
    program can have. *)
Record reachable_router w taken : Prop := {
  rr_run : exists ops links limits tel rt registry configuration tel' r c,
    let g := build ops in
    Z.of_nat (routing_nodes g) <= u64_max /\ u64 (operational_revision_ g) /\
    Forall configuration_ok links /\
    (u64 (maximum_chunks limits) /\ u64 (maximum_route_entries limits) /\ u64 (maximum_route_hops limits)) /\
    new_transport_runtime g links limits tel = Ret rt /\
    path_limits_words (rcfg_paths configuration) /\ u64 (rcfg_maximum_decisions configuration) /\
    new_router g registry configuration tel' = Ret r /\ policy_ok (rt_policy_ r) /\
    rtc router_step (mkRouted r (mkTransport rt g c), []) (w, taken);
}.

Lemma new_router_ok g rt registry configuration tel r (c : C) :
  graph_ok g -> u64 (operational_revision_ g) -> Z.of_nat (routing_nodes g) <= u64_max ->
  path_limits_words (rcfg_paths configuration) -> u64 (rcfg_maximum_decisions configuration) ->
  runtime_ok rt no_extra [] -> new_router g registry configuration tel = Ret r -> policy_ok (rt_policy_ r) ->
  routed_ok (mkRouted r (mkTransport rt g c), []).
Proof.
  intros Hg Hu Hsz (L1 & L2 & L3 & L4) Hd Hrt. unfold new_router.
  destruct (create_policy _ _) as [policy |]; [| done].
  destruct (new_path_service _ _) as [paths |] eqn:Hp; [| done]. destruct (_ =? _); [done |]. intros [= <-] Hpol.
  split; [| unfold log_bounded, u64, zlength in *; cbn; lia].
  split; [done | | done]. by apply new_path_service_ok.
Qed.

Lemma reachable_router_ok w taken : reachable_router w taken -> routed_ok (w, taken).
Proof.
  intros [(ops & links & limits & tel & rt & reg & cfg & tel' & r & c & Hsz & Hu & Hl & (L1 & L2 & L3) & Hrt & Hp & Hd & Hr & Hpol & Hsteps)].
  eapply router_steps_ok; [exact Hsteps |].
  eapply new_router_ok; try done; [apply build_ok |].
  by destruct (new_transport_runtime_ok _ _ _ _ _ Hl L1 L2 L3 Hrt).
Qed.

(** ** Theorems *)

(** C10: the router routes.  On every reachable state a submission that returns
    nothing found no operational fabric path and changed no transfer; one that
    returns a transfer submitted it to the transport over a shortest operational
    fabric path.  Both log exactly one decision, which names the request, the
    path and the transfer; the log never exceeds its limit, and a submission that
    throws logs nothing. *)
Theorem router_submit_exact w taken request :
  reachable_router w taken -> u64 (ctx_now (tp_context (ro_transport w))) ->
  u64 (rq_bytes request) -> u64 (rq_maximum_chunk_bytes request) ->
  let log := rt_decisions_ (ro_router w) in
  let s := ep_source (rq_endpoints request) in
  let d := ep_destination (rq_endpoints request) in
  match router_submit request w with
  | (w', Throw _) => rt_decisions_ (ro_router w') = log
  | (w', Ret r) =>
      zlength log < rcfg_maximum_decisions (rt_configuration_ (ro_router w)) /\
      exists decision, rt_decisions_ (ro_router w') = log ++ [decision] /\ rd_request decision = request /\
        match r with
        | None => tp_runtime (ro_transport w') = tp_runtime (ro_transport w) /\
            ~ rtc (fabric_hop (topology_of w)) s d /\ rd_transfer decision = None
        | Some st => exists t1,
            shortest_path (topology_of w) s (rd_path decision) d /\
            submit_transfer (routed_request request (rd_path decision)) (ro_transport w) = (t1, Ret st) /\
            tp_runtime (ro_transport w') = tp_runtime t1 /\ rd_transfer decision = Some (st_id st)
        end
  end.
Proof.
  intros [Hw Hl]%reachable_router_ok Hnow Hb Hm log s d. cbn [fst snd] in *.
  pose proof (router_submit_spec taken request w Hw Hnow Hb Hm) as Hs. unfold wp in Hs.
  destruct (router_submit request w) as [w' [r | e]]; [| done].
  destruct Hs as (_ & _ & _ & Hroom & decision & Hd & Hrest). unfold log_bounded in Hl.
  split; [unfold log; lia | by exists decision].
Qed.

(** What routing offers, transport accepts.  On every reachable state whose
    transport has all the fabric links configured and allows as many hops as the
    path service, [validate_route] accepts every path a lookup answers, also one
    that was cached before links failed and recovered. *)
Theorem lookup_routes_accepted w taken e w' paths p :
  reachable_router w taken ->
  (forall arc, fabric_arc (topology_of w) arc -> arc ∈ arcs_of (links_ (topology_of w)) ->
     is_Some (services_ (tp_runtime (ro_transport w)) !! arc_id arc)) ->
  maximum_hops (path_limits_of w) <= maximum_route_hops (limits_ (tp_runtime (ro_transport w))) ->
  lookup_paths e w = (w', Ret paths) -> p ∈ paths ->
  validate_route p (Some (ep_source e)) (Some (ep_destination e))
    (tp_runtime (ro_transport w)) (topology_of w) = Ret tt.
Proof.
  intros [[Hrt Hps _] _]%reachable_router_ok Hall Hh Hrun Hp. cbn [fst snd] in *.
  destruct Hps as (Hg & _ & Hsz & Hs & Hlim). cbn [fst snd] in *.
  destruct (path_lookup_run _ _ e Hg Hsz Hs) as (s' & r & Hlk & Hen & _).
  unfold lookup_paths in Hrun. fold (topology_of w) in Hrun. rewrite Hlk in Hrun. injection Hrun as _ ->.
  pose proof (enumerate_spec _ e _ Hg Hsz (co_limits _ _ Hs)) as Hspec. rewrite Hen in Hspec.
  destruct Hspec as ((_ & _ & Hne) & [_ Hsh] & _ & _ & Hw). apply Hw in Hp as Hlen. apply Hsh in Hp as [Hp _].
  pose proof (co_limits _ _ Hs) as (_ & Hmh & _). rewrite Hlim in *.
  destruct (ro_bounded _ _ _ Hrt) as [B1 B2].
  apply validate_route_iff; [apply Hrt | done | done |].
  apply fabric_path_route_valid; [done | done | done | lia | unfold u32_max; lia |].
  clear -Hp Hall. induction Hp as [| n arc m p d Hin Hf Ho Hp IH]; [by intros l ?%elem_of_nil |].
  intros l [-> | Hl]%elem_of_cons; [| by apply IH]. apply Hall; [done |]. by apply list_elem_of_filter in Hin as [_ ?].
Qed.
End Reach.

(** ** A concrete run *)

Definition clos_links : list DirectedLinkId :=
  [mkDirectedLinkId 0 AToB; mkDirectedLinkId 0 BToA; mkDirectedLinkId 1 AToB; mkDirectedLinkId 1 BToA;
   mkDirectedLinkId 2 AToB; mkDirectedLinkId 2 BToA; mkDirectedLinkId 3 AToB; mkDirectedLinkId 3 BToA].

Definition clos_limits : TransportLimits := mkTransportLimits 1000 10000 64.

Definition clos_runtime : TransportRuntime :=
  match new_transport_runtime (build clos_topology) (demo_link <$> clos_links) clos_limits false with
  | Ret rt => rt
  | Throw _ => demo_runtime
  end.

Definition clos_configuration : RoutingConfiguration :=
  mkRoutingConfiguration "least-loaded" 42 default_path_limits 1000.

Definition clos_policy : RoutingPolicy := BaselinePolicy "least-loaded" LeastLoaded.

Definition clos_router : Router :=
  mkRouter clos_configuration clos_policy
    (mkPathService default_path_limits 0 (mkCacheStatistics 0 0 0 0 0 0) ∅ []) false [] 0 false.

Definition clos_start : Routed (Kernel unit) :=
  mkRouted clos_router (mkTransport clos_runtime (build clos_topology) idle_kernel).

Definition clos_request : RouteRequest := mkRouteRequest 7 clos_ends 150 100.

Definition clos_submitted : Routed (Kernel unit) := fst (router_submit clos_request clos_start).

Lemma clos_registry : match new_policy_registry with
  | Ret registry => new_router (build clos_topology) registry clos_configuration false = Ret clos_router
  | Throw _ => False
  end.
Proof. reflexivity. Qed.

Lemma clos_reach w : rtc router_step (clos_start, []) (w, []) -> reachable_router (C := Kernel unit) w [].
Proof.
  intros Hw. pose proof clos_registry as Hr. destruct new_policy_registry as [registry |]; [| done].
  constructor. exists clos_topology, (demo_link <$> clos_links), clos_limits, false, clos_runtime, registry,
    clos_configuration, false, clos_router, idle_kernel. cbv zeta.
  split; [vm_compute; discriminate |]. split; [unfold u64; vm_compute; split; discriminate |].
  split; [apply Forall_fmap, Forall_true; intros l; apply demo_link_ok |].
  split; [unfold clos_limits, u64, u64_max; cbn; lia |]. split; [vm_compute; reflexivity |].
  split; [unfold path_limits_words, u64, u64_max; cbn; lia |].
  split; [unfold u64, u64_max; cbn; lia |]. split; [exact Hr |]. split; [apply baseline_policy_ok | exact Hw].
Qed.

Lemma clos_submit_run : router_submit clos_request clos_start = (clos_submitted, Ret (Some
  (mkSubmittedTransfer 0 [mkSubmittedChunk 0 100; mkSubmittedChunk 1 50]))).
Proof.
  unfold clos_submitted. refine (run_of_snd (router_submit clos_request) clos_start _ _).
  vm_compute. reflexivity.
Qed.

Lemma clos_submit_step : router_step (clos_start, []) (clos_submitted, []).
Proof.
  eapply router_step_submit; [| | | exact clos_submit_run]; unfold u64, u64_max; cbn; lia.
Qed.

(** Nothing has arrived at a queue yet, so the second request takes the first
    path too. *)
Lemma router_submit_exact_witness :
  exists w' st decision,
    router_submit clos_request clos_submitted = (w', Ret (Some st)) /\
    rt_decisions_ (ro_router w') = rt_decisions_ (ro_router clos_submitted) ++ [decision] /\
    (rd_path <$> rt_decisions_ (ro_router w')) =
      [[mkDirectedLinkId 0 AToB; mkDirectedLinkId 2 BToA]; [mkDirectedLinkId 0 AToB; mkDirectedLinkId 2 BToA]].
Proof.
  pose proof (router_submit_exact clos_submitted [] clos_request
    (clos_reach _ (rtc_once _ _ clos_submit_step))) as Hx.
  set (w' := fst (router_submit clos_request clos_submitted)).
  assert (router_submit clos_request clos_submitted = (w', Ret (Some
    (mkSubmittedTransfer 1 [mkSubmittedChunk 2 100; mkSubmittedChunk 3 50])))) as Hrun.
  { unfold w'. refine (run_of_snd (router_submit clos_request) clos_submitted _ _). vm_compute. reflexivity. }
  cbv zeta in Hx. rewrite Hrun in Hx.
  destruct Hx as (_ & decision & Hd & _); [unfold u64; vm_compute; split; discriminate.. |].
  exists w', (mkSubmittedTransfer 1 [mkSubmittedChunk 2 100; mkSubmittedChunk 3 50]), decision.
  split; [exact Hrun | split; [exact Hd |]]. vm_compute. reflexivity.
Defined.

