(* ===== verification/CollectiveRuntime.v ===== *)
(** * The ring executor

    Models [collective/runtime.{hpp,cpp}]: collectives that run the ring plan
    round by round, moving shards between NICs through the router and inside a
    NIC through local completion events.  A [Record&] is the identifier of the
    record, whose entry in [records_] the operations read and write. *)

From S2P Require Import Prelude SimTime Entities TelemetryRecords EventQueue SimContext.
From S2P Require Import Timing LinkQueue LinkService Topology Transport RoutingPaths RoutingPolicy Router.
From S2P Require Import CollectivePlan.

(** ** The interface to the fabric

    What the executor uses of the topology, the router and the simulation
    context. *)

Class Fabric (F : Type) : Type := {
  fab_topology : F -> TopologyGraph;
  fab_now : F -> SimTimeNs;
  fab_current_event_id : F -> outcome EventId;
  fab_cause : F -> outcome (option EventId);
  fab_schedule : EventSpec -> M F EventId;
  fab_route : RouteRequest -> M F (option SubmittedTransfer);
  fab_sink_enabled : TelemetrySink -> F -> bool;
  fab_sink_record : TelemetrySink -> SimTimeNs -> Correlation -> TelemetryObservation -> M F unit;
}.

#[global] Instance routed_fabric {C} `{SimContext C} : Fabric (Routed C) := {
  fab_topology := fun w => tp_topology (ro_transport w);
  fab_now := fun w => ctx_now (tp_context (ro_transport w));
  fab_current_event_id := fun w => ctx_current_event_id (tp_context (ro_transport w));
  fab_cause := fun w => ctx_cause (tp_context (ro_transport w));
  fab_schedule := fun spec => with_transport (with_context (ctx_schedule spec));
  fab_route := router_submit;
  fab_sink_enabled := fun sink w => ctx_sink_enabled sink (tp_context (ro_transport w));
  fab_sink_record := fun sink now correlation o =>
    with_transport (with_context (ctx_sink_record sink now correlation o));
}.

(** ** Data *)

Record CollectiveConfiguration : Type := mkCollectiveConfiguration {
  cc_local_bandwidth : Z;
  cc_local_latency : SimDurationNs;
  cc_maximum_collectives : Z;
  cc_maximum_participant_entries : Z;
  cc_maximum_timeline_entries : Z;
}.

Definition default_collective_configuration : CollectiveConfiguration :=
  mkCollectiveConfiguration 800000000000 0 100000 1000000 1000000.

Record CollectiveProgress : Type := mkCollectiveProgress {
  cp_phase : Phase;
  cp_round : Z;
  cp_pending : Z;
  cp_issued_fabric_bytes : Z;
  cp_issued_local_bytes : Z;
  cp_delivered_bytes : Z;
  cp_completion : option CollectiveResult;
}.

(** [RingExecutor::Record] *)
Record CollectiveRecord : Type := mkCollectiveRecord {
  co_request : CollectiveRequest;
  co_result : CollectiveResult;
  co_phase : Phase;
  co_round : Z;
  co_pending : Z;
  co_failed : bool;
  co_cancelled : bool;
  co_finished : bool;
}.

Record Pending : Type := mkPending { pd_collective : CollectiveId; pd_bytes : Z }.

Record LocalPending : Type := mkLocalPending {
  lp_transfer : Pending;
  lp_event : LocalCompletionEvent;
}.

(** The pointers to topology and router are the fabric, beside the executor. *)
Record RingExecutor : Type := mkRingExecutor {
  rx_configuration_ : CollectiveConfiguration;
  rx_telemetry_ : TelemetrySink;
  rx_participant_entries_ : Z;
  rx_next_flow_ : Z;
  rx_records_ : gmap CollectiveId CollectiveRecord;
  rx_transfers_ : gmap TransferId Pending;
  rx_locals_ : gmap EventId LocalPending;
  rx_completed_ : list CollectiveResult;
  rx_timeline_ : list CollectiveTimeline;
}.

Definition new_ring_executor (configuration : CollectiveConfiguration) (telemetry : TelemetrySink)
    : outcome RingExecutor :=
  if (cc_local_bandwidth configuration =? 0) || (cc_maximum_collectives configuration =? 0) ||
     (cc_maximum_participant_entries configuration =? 0) ||
     (cc_maximum_timeline_entries configuration =? 0)
  then Throw (invalid_argument "invalid collective configuration")
  else Ret (mkRingExecutor configuration telemetry 0 0 ∅ ∅ ∅ [] []).

Record Ring (F : Type) : Type := mkRing {
  rg_executor : RingExecutor;
  rg_fabric : F;
}.
Arguments mkRing {F} _ _.
Arguments rg_executor {F} _.
Arguments rg_fabric {F} _.

Section Operations.
Context {F : Type} `{Fabric F}.

Abbreviation RingM := (M (Ring F)).

Definition with_fabric {A} (m : M F A) : RingM A :=
  zoom rg_fabric (fun f w => {| w with rg_fabric := f |}) m.

Definition read_fabric {A} (f : F -> A) : RingM A := gets (fun w => f (rg_fabric w)).

Definition modify_executor (f : RingExecutor -> RingExecutor) : RingM unit :=
  modify (fun w => {| w with rg_executor := f (rg_executor w) |}).

(** [records_.at(id)], and the use of a reference to an entry. *)
Definition record_at (id : CollectiveId) : RingM CollectiveRecord :=
  let! x := gets rg_executor in
  of_option (out_of_range "map::at") (rx_records_ x !! id).

Definition modify_record (id : CollectiveId) (f : CollectiveRecord -> CollectiveRecord) : RingM unit :=
  modify_executor (fun x => {| x with rx_records_ := alter f id (rx_records_ x) |}).

Definition modify_result (id : CollectiveId) (f : CollectiveResult -> CollectiveResult) : RingM unit :=
  modify_record id (fun r => {| r with co_result := f (co_result r) |}).

(** ** Telemetry *)

(** The correlation that [emit], [emit_counter] and [finish_collective] build. *)
Definition collective_correlation (id : CollectiveId) (transfer : option TransferId) : RingM Correlation :=
  let! event := fun w => (w, fab_current_event_id (rg_fabric w)) in
  let! cause := fun w => (w, fab_cause (rg_fabric w)) in
  ret {| no_correlation with corr_event := Some event; corr_cause := cause;
         corr_collective := Some id; corr_transfer := transfer |}.

Definition observe (id : CollectiveId) (transfer : option TransferId)
    (observation : RingM TelemetryObservation) : RingM unit :=
  let! sink := gets (fun w => rx_telemetry_ (rg_executor w)) in
  let! enabled := read_fabric (fab_sink_enabled sink) in
  when enabled
    (let! correlation := collective_correlation id transfer in
     let! now := read_fabric fab_now in
     let! observation := observation in
     with_fabric (fab_sink_record sink now correlation observation)).

Definition emit (id : CollectiveId) (transition : CollectiveTransition)
    (transfer : option TransferId) (bytes : Z) : RingM unit :=
  observe id transfer
    (let! record := record_at id in
     ret (CollectiveObservation transition (co_phase record) (co_round record) bytes)).

Definition emit_counter (id : CollectiveId) (metric : MetricId) (amount : Z)
    (transfer : option TransferId) : RingM unit :=
  observe id transfer
    (let! labels := of_outcome (make_labels []) in
     ret (CounterObservation metric labels amount)).

(** ** Rounds *)

Definition trace (id : CollectiveId) : RingM unit :=
  let! now := read_fabric fab_now in
  let! record := record_at id in
  let! x := gets rg_executor in
  do! throw_if (zlength (rx_timeline_ x) =? cc_maximum_timeline_entries (rx_configuration_ x))
        (length_error "collective timeline limit exceeded") in
  modify_executor (fun x => {| x with rx_timeline_ := rx_timeline_ x ++
    [mkCollectiveTimeline (cl_id (co_result record)) now (co_phase record) (co_round record)] |}).

Definition final_phase (record : CollectiveRecord) : Phase :=
  if co_cancelled record then Phase_Cancelled
  else if co_failed record then Phase_Failed else Phase_Succeeded.

Definition final_transition (phase : Phase) : CollectiveTransition :=
  match phase with
  | Phase_Failed => CollectiveTransition_Failed
  | Phase_Cancelled => CollectiveTransition_Cancelled
  | _ => CollectiveTransition_Succeeded
  end.

Definition finish_collective (id : CollectiveId) : RingM unit :=
  let! record := record_at id in
  do! throw_if (co_finished record) (logic_error "collective completed twice") in
  do! modify_record id (fun r => {| r with co_finished := true; co_phase := final_phase r |}) in
  let! record := record_at id in
  do! throw_if (bool_decide (co_phase record = Phase_Succeeded) &&
                negb (cl_delivered_bytes (co_result record) =? cl_planned_bytes (co_result record)))
        (logic_error "ring byte conservation failure") in
  let! now := read_fabric fab_now in
  do! modify_result id (fun r => {| r with cl_outcome := co_phase record; cl_finished := now |}) in
  do! trace id in
  let! record := record_at id in
  do! modify_executor (fun x => {| x with rx_completed_ := rx_completed_ x ++ [co_result record] |}) in
  do! emit id (final_transition (co_phase record)) None (cl_delivered_bytes (co_result record)) in
  observe id None
    (let! now := read_fabric fab_now in
     let! labels := of_outcome (make_labels []) in
     ret (HistogramObservation CollectiveDurationNs labels
            (u64_wrap (now - cl_started (co_result record))))).

(** The NIC of a participant, by rank. *)
Definition participant_nic (record : CollectiveRecord) (rank : Z) : RingM NicId :=
  let! gpu := of_option null_pointer (cq_participants (co_request record) !! Z.to_nat rank) in
  let! g := read_fabric fab_topology in
  let! worker := of_option null_pointer (find_gpu gpu g) in
  ret (gpu_attached_nic worker).

(** The branch of [issue_transfer] inside one NIC. *)
Definition issue_local (id : CollectiveId) (record : CollectiveRecord) (transfer : RingTransfer)
    : RingM unit :=
  let! x := gets rg_executor in
  let! duration := of_option (overflow_error "local collective delay overflow")
    (serialization_delay (rg_bytes transfer) (cc_local_bandwidth (rx_configuration_ x))) in
  let! now := read_fabric fab_now in
  let! arrival := of_option (overflow_error "local collective arrival overflow")
    (match checked_add now duration with
     | Some end_ => checked_add end_ (cc_local_latency (rx_configuration_ x))
     | None => None
     end) in
  let completion := mkLocalCompletionEvent (cl_id (co_result record)) (co_round record)
    (rg_source transfer) (co_phase record) in
  let! event := with_fabric (fab_schedule (mkEventSpec arrival Control (LocalCompletion_ completion))) in
  do! modify_executor (fun x => {| x with rx_locals_ :=
        match rx_locals_ x !! event with
        | Some _ => rx_locals_ x
        | None => <[event := mkLocalPending (mkPending (cl_id (co_result record)) (rg_bytes transfer))
                               completion]> (rx_locals_ x)
        end |}) in
  do! modify_result id (fun r => {| r with cl_issued_local_bytes :=
        u64_wrap (cl_issued_local_bytes r + rg_bytes transfer) |}) in
  do! emit id CollectiveTransition_TransferIssued None (rg_bytes transfer) in
  emit_counter id CollectiveIssuedLocalBytes (rg_bytes transfer) None.

(** The branch of [issue_transfer] over the fabric; returns whether there was a route. *)
Definition issue_fabric (id : CollectiveId) (record : CollectiveRecord) (transfer : RingTransfer)
    (source destination : NicId) : RingM bool :=
  let! x := gets rg_executor in
  do! throw_if (rx_next_flow_ x =? u64_max) (overflow_error "collective routing key exhausted") in
  do! modify_executor (fun x => {| x with rx_next_flow_ := rx_next_flow_ x + 1 |}) in
  let! submitted := with_fabric (fab_route (mkRouteRequest (rx_next_flow_ x)
    (mkEndpoints (nic_node source) (nic_node destination)) (rg_bytes transfer)
    (cq_chunk_bytes (co_request record)))) in
  match submitted with
  | None =>
      do! modify_record id (fun r => {| r with co_failed := true |}) in
      do! modify_result id (fun r => {| r with cl_reason := "no route for collective round" |}) in
      ret false
  | Some st =>
      do! modify_executor (fun x => {| x with rx_transfers_ :=
            match rx_transfers_ x !! st_id st with
            | Some _ => rx_transfers_ x
            | None => <[st_id st := mkPending (cl_id (co_result record)) (rg_bytes transfer)]>
                        (rx_transfers_ x)
            end |}) in
      do! modify_result id (fun r => {| r with cl_issued_fabric_bytes :=
            u64_wrap (cl_issued_fabric_bytes r + rg_bytes transfer) |}) in
      do! emit id CollectiveTransition_TransferIssued (Some (st_id st)) (rg_bytes transfer) in
      do! emit_counter id CollectiveIssuedFabricBytes (rg_bytes transfer) (Some (st_id st)) in
      ret true
  end.

Definition issue_transfer (id : CollectiveId) (transfer : RingTransfer) : RingM unit :=
  let! record := record_at id in
  let! source := participant_nic record (rg_source transfer) in
  let! destination := participant_nic record (rg_destination transfer) in
  let! issued :=
    (if source =? destination
     then (do! issue_local id record transfer in ret true)
     else issue_fabric id record transfer source destination) in
  when issued (modify_record id (fun r => {| r with co_pending := u64_wrap (co_pending r + 1) |})).

(** One turn of the loop over the plan. *)
Definition issue_planned (id : CollectiveId) (transfer : RingTransfer) : RingM unit :=
  let! record := record_at id in
  when (negb (rg_bytes transfer =? 0) && negb (co_failed record)) (issue_transfer id transfer).

Definition start_round (id : CollectiveId) : RingM unit :=
  do! trace id in
  let! record := record_at id in
  do! when (co_round record =? 0) (emit id CollectiveTransition_PhaseStarted None 0) in
  do! emit id CollectiveTransition_RoundStarted None 0 in
  let! plan := of_outcome (plan_round (u32_wrap (zlength (cq_participants (co_request record))))
    (cq_bytes (co_request record)) (co_phase record) (co_round record)) in
  do! for_each plan (issue_planned id) in
  let! record := record_at id in
  when (co_pending record =? 0) (finish_collective id).

Definition advance (id : CollectiveId) : RingM unit :=
  let! record := record_at id in
  if negb (co_pending record =? 0) then ret tt else
  do! emit id CollectiveTransition_RoundCompleted None 0 in
  if co_failed record || co_cancelled record then finish_collective id else
  do! modify_record id (fun r => {| r with co_round := u32_wrap (co_round r + 1) |}) in
  let! record := record_at id in
  if co_round record =? u64_wrap (zlength (cq_participants (co_request record)) - 1) then
    if bool_decide (co_phase record = AllGather) then finish_collective id else
    do! modify_record id (fun r => {| r with co_phase := AllGather; co_round := 0 |}) in
    start_round id
  else start_round id.

(** ** Requests and events *)

(** The loop over the participants of a request. *)
Fixpoint check_participants (g : TopologyGraph) (unique : list GpuId) (gpus : list GpuId) : outcome unit :=
  match gpus with
  | [] => Ret tt
  | gpu :: rest =>
      if negb (has_value (find_gpu gpu g)) || bool_decide (gpu ∈ unique)
      then Throw (invalid_argument "unknown or duplicate collective GPU")
      else check_participants g (gpu :: unique) rest
  end.

Definition ring_submit (request : CollectiveRequest) : RingM CollectiveId :=
  let participants := zlength (cq_participants request) in
  do! throw_if ((participants =? 0) || (participants >? 8192) || (cq_chunk_bytes request =? 0))
        (invalid_argument "invalid collective participants or chunk size") in
  let! volume := of_outcome (planned_volume (u32_wrap participants) (cq_bytes request)) in
  let! x := gets rg_executor in
  do! throw_if ((Z.of_nat (size (rx_records_ x)) >=? cc_maximum_collectives (rx_configuration_ x)) ||
                (participants >? u64_wrap (cc_maximum_participant_entries (rx_configuration_ x) -
                                           rx_participant_entries_ x)))
        (length_error "collective retained-state limit exceeded") in
  let! g := read_fabric fab_topology in
  do! of_outcome (check_participants g [] (cq_participants request)) in
  let id := Z.of_nat (size (rx_records_ x)) in
  let! now := read_fabric fab_now in
  let record := mkCollectiveRecord request
    (mkCollectiveResult id ReduceScatter now now volume 0 0 0 "") ReduceScatter 0 0 false false false in
  do! modify_executor (fun x => {| x with
        rx_records_ := match rx_records_ x !! id with
                       | Some _ => rx_records_ x
                       | None => <[id := record]> (rx_records_ x)
                       end;
        rx_participant_entries_ := u64_wrap (rx_participant_entries_ x + participants) |}) in
  do! emit id CollectiveTransition_Submitted None volume in
  do! emit_counter id CollectivePlannedBytes volume None in
  do! (if participants =? 1 then finish_collective id else start_round id) in
  ret id.

(** [handle(const LocalCompletionEvent&)] *)
Definition handle_local (event : LocalCompletionEvent) : RingM unit :=
  let! current := fun w => (w, fab_current_event_id (rg_fabric w)) in
  let! x := gets rg_executor in
  let! found := of_option (logic_error "unexpected local collective event") (rx_locals_ x !! current) in
  do! throw_if (negb (bool_decide (lp_event found = event)))
        (logic_error "unexpected local collective event") in
  let id := lc_collective event in
  let! record := record_at id in
  do! throw_if (negb (co_round record =? lc_round event) ||
                negb (bool_decide (co_phase record = lc_phase event)) ||
                (lc_rank event >=? zlength (cq_participants (co_request record))))
        (logic_error "stale local collective event") in
  do! modify_result id (fun r => {| r with cl_delivered_bytes :=
        u64_wrap (cl_delivered_bytes r + pd_bytes (lp_transfer found)) |}) in
  do! emit_counter id CollectiveDeliveredBytes (pd_bytes (lp_transfer found)) None in
  do! modify_executor (fun x => {| x with rx_locals_ := delete current (rx_locals_ x) |}) in
  do! modify_record id (fun r => {| r with co_pending := u64_wrap (co_pending r - 1) |}) in
  advance id.

(** [handle(const TransferCompletion&)] *)
Definition handle_transfer (completion : TransferCompletion) : RingM unit :=
  let! x := gets rg_executor in
  let! found := of_option (logic_error "collective executor received unowned transfer outcome")
    (rx_transfers_ x !! cm_transfer completion) in
  let! dropped := of_outcome (add_traffic (cm_dropped_buffer_full completion)
    (cm_dropped_link_down completion)) in
  let! accounted := of_outcome (add_traffic (cm_delivered completion) dropped) in
  do! throw_if (negb (tc_bytes accounted =? pd_bytes found))
        (logic_error "collective transfer byte mismatch") in
  let id := pd_collective found in
  let! record := record_at id in
  do! modify_result id (fun r => {| r with cl_delivered_bytes :=
        u64_wrap (cl_delivered_bytes r + tc_bytes (cm_delivered completion)) |}) in
  do! emit_counter id CollectiveDeliveredBytes (tc_bytes (cm_delivered completion))
        (Some (cm_transfer completion)) in
  do! when (negb (bool_decide (cm_outcome completion = TransferOutcome_Succeeded)))
        (do! modify_record id (fun r => {| r with co_failed := true |}) in
         modify_result id (fun r => {| r with cl_reason := "collective fabric transfer failed" |})) in
  do! modify_executor (fun x => {| x with rx_transfers_ := delete (cm_transfer completion) (rx_transfers_ x) |}) in
  do! modify_record id (fun r => {| r with co_pending := u64_wrap (co_pending r - 1) |}) in
  advance id.

Definition cancel_collective (id : CollectiveId) : RingM unit :=
  let! record := record_at id in
  when (negb (co_finished record))
    (do! modify_record id (fun r => {| r with co_cancelled := true |}) in
     modify_result id (fun r => {| r with cl_reason := "collective cancelled" |})).

Definition take_completed : RingM (list CollectiveResult) :=
  let! x := gets rg_executor in
  do! modify_executor (fun x => {| x with rx_completed_ := [] |}) in
  ret (rx_completed_ x).

Definition ring_snapshot (id : CollectiveId) (x : RingExecutor) : option CollectiveProgress :=
  match rx_records_ x !! id with
  | None => None
  | Some r =>
      Some (mkCollectiveProgress (co_phase r) (co_round r) (co_pending r)
        (cl_issued_fabric_bytes (co_result r)) (cl_issued_local_bytes (co_result r))
        (cl_delivered_bytes (co_result r)) (if co_finished r then Some (co_result r) else None))
  end.
End Operations.
