(* ===== verification/CollectiveLaws.v ===== *)
(** * The books of the ring executor

    What the executor needs from the fabric, as an interface with laws; the
    tables of the executor agree with each other: a record counts the transfers
    and local events that name it, and its bytes are those issued. *)

From S2P Require Import Prelude SimTime Entities TelemetryRecords EventQueue SimContext.
From S2P Require Import Timing LinkQueue LinkService Topology Transport RoutingPaths RoutingPolicy.
From S2P Require Import Router CollectivePlan CollectiveRuntime.

(** ** What the executor needs from the fabric

    Identifiers are not handed out twice. *)

Class FabricLaws (F : Type) `{Fabric F} : Type := {
  fab_ok : F -> Prop;
  fab_later : relation F;
  fab_transfer_known : F -> TransferId -> Prop;
  fab_event_known : F -> EventId -> Prop;
  fab_later_preorder :: PreOrder fab_later;
  fab_later_ok f f' : fab_later f f' -> fab_ok f -> fab_ok f';
  fab_later_transfer f f' t : fab_later f f' -> fab_transfer_known f t -> fab_transfer_known f' t;
  fab_later_event f f' e : fab_later f f' -> fab_event_known f e -> fab_event_known f' e;
  fab_schedule_law spec f : fab_ok f -> u64 (spec_timestamp spec) ->
    wp (fab_schedule spec)
      (fun f' e => fab_later f f' /\ ~ fab_event_known f e /\ fab_event_known f' e)
      (fun _ _ => True) f;
  fab_route_law request f : fab_ok f -> u64 (rq_bytes request) -> u64 (rq_maximum_chunk_bytes request) ->
    wp (fab_route request)
      (fun f' r => fab_later f f' /\
         forall st, r = Some st -> ~ fab_transfer_known f (st_id st) /\ fab_transfer_known f' (st_id st))
      (fun _ _ => True) f;
  fab_record_law sink now correlation o f : fab_ok f ->
    wp (fab_sink_record sink now correlation o) (fun f' _ => fab_later f f') (fun _ _ => True) f;
}.

(** ** Books *)

Definition participants r : Z := zlength (cq_participants (co_request r)).

Definition issued (r : CollectiveRecord) : Z :=
  cl_issued_fabric_bytes (co_result r) + cl_issued_local_bytes (co_result r).

Definition delivered (r : CollectiveRecord) : Z := cl_delivered_bytes (co_result r).

Definition planned (r : CollectiveRecord) : Z := cl_planned_bytes (co_result r).

(** Rounds before the current one. *)
Definition position (r : CollectiveRecord) : Z :=
  (if bool_decide (co_phase r = AllGather) then participants r - 1 else 0) + co_round r.

Section Books.
Implicit Types (T : gmap TransferId Pending) (L : gmap EventId LocalPending) (id : CollectiveId).
Implicit Types (r : CollectiveRecord).

Definition owned id (w : Pending -> Z) (p : Pending) : Z :=
  if bool_decide (pd_collective p = id) then w p else 0.

(** The transfers and local events of a collective. *)
Definition outstanding id (w : Pending -> Z) T L : Z :=
  weigh (owned id w) T + weigh (fun l => owned id w (lp_transfer l)) L.

Definition entries id T L : Z := outstanding id (fun _ => 1) T L.

Definition owed id T L : Z := outstanding id pd_bytes T L.

Record books T L id r : Prop := {
  bk_id : cl_id (co_result r) = id;
  bk_dims : ring_ok (participants r) (cq_bytes (co_request r)) /\ u64 (cq_bytes (co_request r)) /\
    u64 (cq_chunk_bytes (co_request r));
  bk_planned : planned r = 2 * (participants r - 1) * cq_bytes (co_request r);
  bk_pending : co_pending r = entries id T L;
  bk_issued : 0 <= cl_issued_fabric_bytes (co_result r) /\ 0 <= cl_issued_local_bytes (co_result r) /\
    issued r <= planned r;
  bk_balance : 0 <= delivered r /\ delivered r + owed id T L <= issued r /\
    (co_failed r = false -> delivered r + owed id T L = issued r);
}.

(** The current round, of which all has been issued unless something failed. *)
Record running r : Prop := {
  ru_phase : co_phase r = ReduceScatter \/ co_phase r = AllGather;
  ru_ring : 2 <= participants r;
  ru_round : 0 <= co_round r < participants r - 1;
  ru_issued : issued r <= (position r + 1) * cq_bytes (co_request r);
  ru_all_issued : co_failed r = false -> issued r = (position r + 1) * cq_bytes (co_request r);
}.

Definition settled r : Prop :=
  if co_finished r
  then co_pending r = 0 /\ co_phase r = final_phase r /\ cl_outcome (co_result r) = co_phase r /\
       (co_phase r = Phase_Succeeded -> delivered r = planned r)
  else running r /\ 0 < co_pending r.

(** Every pending entry has bytes and a record; a local event names the current
    round of its record. *)
Definition transfer_entries_ok (known : TransferId -> Prop) (R : gmap CollectiveId CollectiveRecord) T : Prop :=
  forall t p, T !! t = Some p -> known t /\ 0 < pd_bytes p /\ is_Some (R !! pd_collective p).

Definition local_entries_ok (known : EventId -> Prop) (R : gmap CollectiveId CollectiveRecord) L : Prop :=
  forall e l, L !! e = Some l -> known e /\ 0 < pd_bytes (lp_transfer l) /\
    exists r rank, R !! pd_collective (lp_transfer l) = Some r /\ 0 <= rank < participants r /\
      lp_event l = mkLocalCompletionEvent (pd_collective (lp_transfer l)) (co_round r) rank (co_phase r).

Definition dense (R : gmap CollectiveId CollectiveRecord) : Prop :=
  forall id, is_Some (R !! id) <-> 0 <= id < Z.of_nat (size R).

(** [log] are the results of the finished collectives, each once. *)
Definition log_ok (R : gmap CollectiveId CollectiveRecord) (log : list CollectiveResult) : Prop :=
  NoDup (cl_id <$> log) /\
  forall res, res ∈ log <-> exists r, R !! cl_id res = Some r /\ co_finished r = true /\ co_result r = res.

Section Entries.
Context T L (kt : TransferId -> Prop) (ke : EventId -> Prop) (R : gmap CollectiveId CollectiveRecord).
Context (HT : transfer_entries_ok kt R T) (HL : local_entries_ok ke R L).

Lemma owned_nonneg id (w : Pending -> Z) :
  (forall p, 0 < pd_bytes p -> 0 <= w p) ->
  (forall t p, T !! t = Some p -> 0 <= owned id w p) /\
  (forall e l, L !! e = Some l -> 0 <= owned id w (lp_transfer l)).
Proof.
  intros Hw. split.
  - intros t p Hp. destruct (HT t p Hp) as (_ & Hb & _). unfold owned. case_bool_decide; [by apply Hw | done].
  - intros e l Hl. destruct (HL e l Hl) as (_ & Hb & _). unfold owned. case_bool_decide; [by apply Hw | done].
Qed.

(** At least a byte for every entry. *)
Lemma entries_owed id : 0 <= entries id T L <= owed id T L.
Proof.
  unfold entries, owed, outstanding. destruct (owned_nonneg id (fun _ => 1)) as [H1 H2]; [lia |].
  pose proof (weigh_nonneg _ _ H1). pose proof (weigh_nonneg _ _ H2).
  assert (forall p, 0 < pd_bytes p -> owned id (fun _ => 1) p <= owned id pd_bytes p) as Hle
    by (intros p Hp; unfold owned; case_bool_decide; lia).
  assert (weigh (owned id (fun _ => 1)) T <= weigh (owned id pd_bytes) T).
  { apply weigh_mono. intros t p Hp. apply Hle. by destruct (HT t p Hp) as (_ & ? & _). }
  assert (weigh (fun l => owned id (fun _ => 1) (lp_transfer l)) L <=
          weigh (fun l => owned id pd_bytes (lp_transfer l)) L); [| lia].
  apply weigh_mono. intros e l Hl. apply Hle. by destruct (HL e l Hl) as (_ & ? & _).
Qed.

Lemma entries_transfer id t p : T !! t = Some p -> pd_collective p = id ->
  1 <= entries id T L /\ pd_bytes p <= owed id T L.
Proof.
  intros Hp Hid. unfold entries, owed, outstanding.
  destruct (owned_nonneg id (fun _ => 1)) as [H1 H2]; [lia |].
  destruct (owned_nonneg id pd_bytes) as [H3 H4]; [lia |].
  pose proof (weigh_lookup _ _ t p H1 Hp). pose proof (weigh_lookup _ _ t p H3 Hp).
  pose proof (weigh_nonneg _ _ H2). pose proof (weigh_nonneg _ _ H4).
  unfold owned in *. rewrite bool_decide_eq_true_2 in * by done. lia.
Qed.

Lemma entries_local id e l : L !! e = Some l -> pd_collective (lp_transfer l) = id ->
  1 <= entries id T L /\ pd_bytes (lp_transfer l) <= owed id T L.
Proof.
  intros Hl Hid. unfold entries, owed, outstanding.
  destruct (owned_nonneg id (fun _ => 1)) as [H1 H2]; [lia |].
  destruct (owned_nonneg id pd_bytes) as [H3 H4]; [lia |].
  pose proof (weigh_lookup _ _ e l H2 Hl) as X. pose proof (weigh_lookup _ _ e l H4 Hl) as Y.
  pose proof (weigh_nonneg _ _ H1). pose proof (weigh_nonneg _ _ H3). cbv beta in X, Y.
  unfold owned in X, Y at 1. rewrite bool_decide_eq_true_2 in X, Y by done. unfold owned in *. lia.
Qed.
End Entries.

(** Adding and removing one entry. *)
Lemma outstanding_transfer id w T L t p : T !! t = None ->
  outstanding id w (<[t := p]> T) L = owned id w p + outstanding id w T L.
Proof. intros Ht. unfold outstanding. rewrite weigh_insert by done. lia. Qed.

Lemma outstanding_local id w T L e l : L !! e = None ->
  outstanding id w T (<[e := l]> L) = owned id w (lp_transfer l) + outstanding id w T L.
Proof. intros He. unfold outstanding. rewrite weigh_insert by done. lia. Qed.

Lemma outstanding_drop_transfer id w T L t p : T !! t = Some p ->
  outstanding id w (delete t T) L = outstanding id w T L - owned id w p.
Proof. intros Ht. unfold outstanding. rewrite (weigh_delete _ _ t p) by done. lia. Qed.

Lemma outstanding_drop_local id w T L e l : L !! e = Some l ->
  outstanding id w T (delete e L) = outstanding id w T L - owned id w (lp_transfer l).
Proof. intros He. unfold outstanding. rewrite (weigh_delete _ _ e l) by done. lia. Qed.

Lemma owned_self id w b : owned id w (mkPending id b) = w (mkPending id b).
Proof. unfold owned. by rewrite bool_decide_eq_true_2. Qed.

Lemma owned_other id w p : pd_collective p <> id -> owned id w p = 0.
Proof. intros Hne. unfold owned. by rewrite bool_decide_eq_false_2. Qed.
End Books.

(** ** Tables *)

Section Tables.
Context {F : Type} `{FabricLaws F}.
Implicit Types (R : gmap CollectiveId CollectiveRecord) (T : gmap TransferId Pending).
Implicit Types (L : gmap EventId LocalPending) (log : list CollectiveResult) (f : F).

Record tables R T L log f : Prop := {
  tb_books id r : R !! id = Some r -> books T L id r;
  tb_dense : dense R;
  tb_transfers : transfer_entries_ok (fab_transfer_known f) R T;
  tb_locals : local_entries_ok (fab_event_known f) R L;
  tb_log : log_ok R log;
}.

Lemma tables_later R T L log f f' : fab_later f f' -> tables R T L log f -> tables R T L log f'.
Proof.
  intros Hl [H1 H2 H3 H4 H5]. split; try done.
  - intros t p Hp. destruct (H3 t p Hp) as (? & ?). split; [by eapply fab_later_transfer | done].
  - intros e l He. destruct (H4 e l He) as (? & ?). split; [by eapply fab_later_event | done].
Qed.

Lemma dense_put R id r r' : dense (<[id := r]> R) -> dense (<[id := r']> R).
Proof.
  intros Hd id'. specialize (Hd id'). rewrite map_size_insert in *.
  destruct (decide (id = id')) as [<- |]; rewrite ?lookup_insert_eq, ?lookup_insert_ne in * by done;
    [destruct (R !! id); split; intros; try apply Hd; eauto | by destruct (R !! id)].
Qed.

(** The same books over other tables with the same entries. *)
Lemma books_ext T L T' L' id r :
  entries id T' L' = entries id T L -> owed id T' L' = owed id T L -> books T L id r -> books T' L' id r.
Proof. intros E1 E2 [H1 H2 H3 H4 H5 H6]. split; rewrite ?E1, ?E2; done. Qed.

(** The record of a running collective changes, and only its entries. *)
Lemma tables_put R T L log f id r T' L' f' r' :
  tables (<[id := r]> R) T L log f -> fab_later f f' ->
  co_finished r = false -> co_finished r' = false -> books T' L' id r' ->
  (forall id', id' <> id -> entries id' T' L' = entries id' T L /\ owed id' T' L' = owed id' T L) ->
  (forall t p, T' !! t = Some p -> T !! t = Some p \/
     fab_transfer_known f' t /\ 0 < pd_bytes p /\ pd_collective p = id) ->
  (forall e l, L' !! e = Some l ->
     L !! e = Some l /\ (pd_collective (lp_transfer l) = id ->
       co_round r' = co_round r /\ co_phase r' = co_phase r /\ participants r' = participants r) \/
     fab_event_known f' e /\ 0 < pd_bytes (lp_transfer l) /\ pd_collective (lp_transfer l) = id /\
     exists rank, 0 <= rank < participants r' /\
       lp_event l = mkLocalCompletionEvent id (co_round r') rank (co_phase r')) ->
  tables (<[id := r']> R) T' L' log f'.
Proof.
  intros [H1 H2 H3 H4 [H5 H6]] Hlater Hr Hr' Hb Hsame HT HL. split.
  - intros id' x. destruct (decide (id' = id)) as [-> | Hne].
    + rewrite lookup_insert_eq. by intros [= <-].
    + rewrite lookup_insert_ne by done. intros Hx. destruct (Hsame id' Hne) as [E1 E2].
      apply (books_ext T L); [done | done |]. apply H1. by rewrite lookup_insert_ne.
  - by eapply dense_put.
  - intros t p [Hp | (K & Hb0 & <-)]%HT; [| rewrite lookup_insert_eq; split_and!; eauto].
    destruct (H3 t p Hp) as (K & Hb0 & Hs). split; [by eapply fab_later_transfer | split; [done |]].
    destruct (decide (id = pd_collective p)) as [<- |]; rewrite ?lookup_insert_eq, ?lookup_insert_ne in * by done; eauto.
  - intros e l [[Hl Heq] | (K & Hb0 & <- & rank & Hrank & He)]%HL.
    + destruct (H4 e l Hl) as (K & Hb0 & x & rank & Hx & Hrank & He).
      split; [by eapply fab_later_event | split; [done |]].
      destruct (decide (id = pd_collective (lp_transfer l))) as [-> | Hne].
      * rewrite lookup_insert_eq in *. injection Hx as <-. destruct (Heq eq_refl) as (E1 & E2 & E3).
        exists r', rank. rewrite E1, E2, E3. done.
      * rewrite lookup_insert_ne in * by done. eauto.
    + split; [done | split; [done |]]. rewrite lookup_insert_eq. eauto.
  - split; [done |]. intros res. rewrite H6. destruct (decide (id = cl_id res)) as [-> | Hne].
    + rewrite !lookup_insert_eq. split; intros (x & [= <-] & Hf & _); congruence.
    + by rewrite !lookup_insert_ne.
Qed.

(** A collective with nothing pending has no entries. *)
Lemma no_entries R T L log f id : tables R T L log f -> entries id T L = 0 ->
  (forall t p, T !! t = Some p -> pd_collective p <> id) /\
  (forall e l, L !! e = Some l -> pd_collective (lp_transfer l) <> id).
Proof.
  intros [_ _ HT HL _] Hzero. split.
  - intros t p Hp Hid. destruct (entries_transfer T L _ _ _ HT HL id t p Hp Hid). lia.
  - intros e l Hl Hid. destruct (entries_local T L _ _ _ HT HL id e l Hl Hid). lia.
Qed.

Lemma no_entries_owed R T L log f id : tables R T L log f -> entries id T L = 0 -> owed id T L = 0.
Proof.
  intros Ht Hzero. destruct (no_entries _ _ _ _ _ _ Ht Hzero) as [HT HL].
  unfold owed, outstanding. rewrite !weigh_all_zero; [done | |].
  - intros e l Hel. apply owned_other. by eapply HL.
  - intros t p Htp. apply owned_other. by eapply HT.
Qed.
End Tables.
