(* ===== verification/CollectiveSteps.v ===== *)
(** * Rounds of the ring executor

    Every operation on a collective keeps the books of all of them. *)

From S2P Require Import Prelude SimTime Entities TelemetryRecords EventQueue SimContext Timing LinkQueue.
From S2P Require Import LinkService LinkServiceLaws Topology Transport CollectivePlan RoutingPaths.
From S2P Require Import RoutingPolicy Router CollectiveRuntime CollectiveLaws.

(** ** Running operations on one record *)

Section Rules.
Context {F : Type} `{FabricLaws F}.
Implicit Types (x : RingExecutor) (w : Ring F) (f : F) (id : CollectiveId) (r : CollectiveRecord).
Implicit Types (T : gmap TransferId Pending) (L : gmap EventId LocalPending).

(** What holds when a call returns. *)
Definition gives {A} (m : M (Ring F) A) (Q : Ring F -> A -> Prop) w : Prop := wp m Q (fun _ _ => True) w.

(** The state in the middle of an operation on [id]. *)
Definition ring_at x flow T L done timeline id r f : Ring F :=
  mkRing (mkRingExecutor (rx_configuration_ x) (rx_telemetry_ x) (rx_participant_entries_ x) flow
    (<[id := r]> (rx_records_ x)) T L done timeline) f.

Lemma ring_at_start w id r : rx_records_ (rg_executor w) !! id = Some r ->
  w = let x := rg_executor w in
      ring_at x (rx_next_flow_ x) (rx_transfers_ x) (rx_locals_ x) (rx_completed_ x) (rx_timeline_ x)
        id r (rg_fabric w).
Proof. intros Hr. destruct w as [[] f]. unfold ring_at. cbn in *. by rewrite insert_id. Qed.

Lemma gives_bind {A B} (m : M (Ring F) A) (k : A -> M (Ring F) B) Q w :
  gives m (fun w' a => gives (k a) Q w') w -> gives (bind m k) Q w.
Proof. apply wp_bind. Qed.

Lemma gives_conseq {A} (m : M (Ring F) A) (Q Q' : Ring F -> A -> Prop) w :
  gives m Q w -> (forall w' a, Q w' a -> Q' w' a) -> gives m Q' w.
Proof. intros Hm HQ. by eapply wp_conseq. Qed.

Lemma gives_throw_if b e Q w : (b = false -> Q w tt) -> gives (throw_if b e) Q w.
Proof. intros HQ. by apply wp_throw_if. Qed.

Lemma gives_of_option {A} e (o : option A) Q w : (forall a, o = Some a -> Q w a) -> gives (of_option e o) Q w.
Proof. intros HQ. by apply wp_of_option. Qed.

Lemma gives_of_outcome {A} (o : outcome A) Q w : (forall a, o = Ret a -> Q w a) -> gives (of_outcome o) Q w.
Proof. intros HQ. by apply wp_of_outcome. Qed.

Lemma gives_when b (m : M (Ring F) unit) Q w :
  (b = true -> gives m Q w) -> (b = false -> Q w tt) -> gives (when b m) Q w.
Proof. apply wp_when. Qed.

Lemma gives_with_fabric {A} (m : M F A) (P : F -> A -> Prop) Q w :
  wp m P (fun _ _ => True) (rg_fabric w) ->
  (forall f' a, P f' a -> Q {| w with rg_fabric := f' |} a) -> gives (with_fabric m) Q w.
Proof. intros Hm HQ. apply wp_zoom. eapply wp_conseq; [exact Hm | | done]. intros f' a. apply HQ. Qed.

(** ** Operations on the record *)

Lemma gives_record_at Q x flow T L d tl id r f :
  Q (ring_at x flow T L d tl id r f) r -> gives (record_at id) Q (ring_at x flow T L d tl id r f).
Proof.
  intros HQ. unfold record_at. apply gives_bind, wp_gets. unfold ring_at at 1. cbn. rewrite lookup_insert_eq. done.
Qed.

Lemma gives_modify_record g Q x flow T L d tl id r f :
  Q (ring_at x flow T L d tl id (g r) f) tt ->
  gives (modify_record id g) Q (ring_at x flow T L d tl id r f).
Proof. intros HQ. apply wp_modify. unfold ring_at. cbn. by rewrite alter_insert_eq. Qed.

Lemma gives_modify_result g Q x flow T L d tl id r f :
  Q (ring_at x flow T L d tl id {| r with co_result := g (co_result r) |} f) tt ->
  gives (modify_result id g) Q (ring_at x flow T L d tl id r f).
Proof. intros HQ. unfold modify_result. by apply gives_modify_record. Qed.

(** ** Telemetry *)

Lemma gives_correlation id' transfer Q w : (forall c, Q w c) -> gives (collective_correlation id' transfer) Q w.
Proof.
  intros HQ. unfold collective_correlation, gives, wp, bind, ret.
  destruct (fab_current_event_id _); [| done]. destruct (fab_cause _); [apply HQ | done].
Qed.

Lemma gives_observe id' transfer obs Q w :
  fab_ok (rg_fabric w) -> fst (obs w) = w ->
  (forall f', fab_later (rg_fabric w) f' -> Q {| w with rg_fabric := f' |} tt) ->
  gives (observe id' transfer obs) Q w.
Proof.
  intros Hok Hobs HQ. assert (Q w tt) as Hw.
  { destruct w as [x f]. apply (HQ f). reflexivity. }
  unfold observe. do 2 apply gives_bind, wp_gets. apply gives_when; [intros _ | done].
  apply gives_bind, gives_correlation. intros c. apply gives_bind, wp_gets. apply gives_bind. unfold gives at 1, wp. destruct (obs w) as [w' o]. cbn in Hobs. subst w'.
  destruct o as [o |]; [| done]. eapply gives_with_fabric; [by apply fab_record_law |]. intros f' [] Hf. by apply HQ.
Qed.

Lemma gives_emit id' tr transfer bytes Q x flow T L d tl id r f :
  fab_ok f -> (forall f', fab_later f f' -> Q (ring_at x flow T L d tl id r f') tt) ->
  gives (emit id' tr transfer bytes) Q (ring_at x flow T L d tl id r f).
Proof.
  intros Hok HQ. apply gives_observe; [done | | done].
  unfold record_at, bind, gets, of_option. cbn. by destruct (_ !! id').
Qed.

Lemma gives_emit_counter id' metric amount transfer Q x flow T L d tl id r f :
  fab_ok f -> (forall f', fab_later f f' -> Q (ring_at x flow T L d tl id r f') tt) ->
  gives (emit_counter id' metric amount transfer) Q (ring_at x flow T L d tl id r f).
Proof. intros Hok HQ. by apply gives_observe. Qed.

Lemma gives_trace id' Q x flow T L d tl id r f :
  (forall tl', Q (ring_at x flow T L d tl' id r f) tt) ->
  gives (trace id') Q (ring_at x flow T L d tl id r f).
Proof.
  intros HQ. unfold trace. apply gives_bind, wp_gets. apply gives_bind. unfold record_at.
  apply gives_bind, wp_gets. apply gives_of_option. intros r' _. apply gives_bind, wp_gets. apply gives_bind.
  apply gives_throw_if. intros _. apply wp_modify. apply HQ.
Qed.
End Rules.

(** ** The middle of an operation *)

Section Rounds.
Context {F : Type} `{FabricLaws F} (taken : list CollectiveResult).
Implicit Types (x : RingExecutor) (w : Ring F) (f : F) (id : CollectiveId) (r : CollectiveRecord).
Implicit Types (T : gmap TransferId Pending) (L : gmap EventId LocalPending).
Implicit Types (d : list CollectiveResult).

(** The books are right and the other collectives rest; this one is open. *)
Record mid x T L d id r f : Prop := {
  md_tables : tables (<[id := r]> (rx_records_ x)) T L (taken ++ d) f;
  md_fabric : fab_ok f;
  md_others id' r' : id' <> id -> rx_records_ x !! id' = Some r' -> settled r';
  md_open : co_finished r = false;
}.

Record executor_ok w : Prop := {
  eo_fabric : fab_ok (rg_fabric w);
  eo_tables : let x := rg_executor w in
    tables (rx_records_ x) (rx_transfers_ x) (rx_locals_ x) (taken ++ rx_completed_ x) (rg_fabric w);
  eo_settled id r : rx_records_ (rg_executor w) !! id = Some r -> settled r;
}.

Lemma mid_books x T L d id r f : mid x T L d id r f -> books T L id r.
Proof. intros [[Hb _ _ _ _] _ _ _]. apply Hb. apply lookup_insert_eq. Qed.

Lemma mid_later x T L d id r f f' : fab_later f f' -> mid x T L d id r f -> mid x T L d id r f'.
Proof.
  intros Hl [H1 H2 H3 H4]. split; [by eapply tables_later | by eapply fab_later_ok | done | done].
Qed.

(** Everything but flags, texts and counters. *)
Definition same_round r r' : Prop :=
  co_request r' = co_request r /\ co_phase r' = co_phase r /\ co_round r' = co_round r /\
  co_cancelled r' = co_cancelled r /\ planned r' = planned r /\ cl_id (co_result r') = cl_id (co_result r).

Lemma same_round_trans r1 r2 r3 : same_round r1 r2 -> same_round r2 r3 -> same_round r1 r3.
Proof. unfold same_round. intros (?&?&?&?&?&?) (?&?&?&?&?&?). split_and!; congruence. Qed.

Lemma same_round_position r r' : same_round r r' -> position r' = position r /\ participants r' = participants r.
Proof. intros (E1 & E2 & E3 & _). unfold position, participants. by rewrite E1, E2, E3. Qed.

(** No entry is beyond 64 bits. *)
Lemma books_bound x T L d id r f : mid x T L d id r f ->
  0 <= entries id T L <= owed id T L /\ owed id T L <= issued r <= planned r /\ planned r <= u64_max.
Proof.
  intros Hm. pose proof (mid_books _ _ _ _ _ _ _ Hm) as [_ (Hd & _) Hp _ Hi Hb].
  pose proof (entries_owed T L _ _ _ (tb_transfers _ _ _ _ _ (md_tables _ _ _ _ _ _ _ Hm))
    (tb_locals _ _ _ _ _ (md_tables _ _ _ _ _ _ _ Hm)) id).
  destruct Hd as (_ & _ & Hmax). rewrite <- Hp in Hmax. lia.
Qed.

(** ** Issuing *)

Definition credit_fabric (b : Z) r : CollectiveRecord :=
  let res := co_result r in
  {| r with co_result := {| res with cl_issued_fabric_bytes := u64_wrap (cl_issued_fabric_bytes res + b) |} |}.

Definition credit_local (b : Z) r : CollectiveRecord :=
  let res := co_result r in
  {| r with co_result := {| res with cl_issued_local_bytes := u64_wrap (cl_issued_local_bytes res + b) |} |}.

Definition count_entry r : CollectiveRecord := {| r with co_pending := u64_wrap (co_pending r + 1) |}.

Definition add_fabric (b : Z) r : CollectiveRecord := count_entry (credit_fabric b r).

Definition add_local (b : Z) r : CollectiveRecord := count_entry (credit_local b r).

Definition failed_with (reason : string) r : CollectiveRecord :=
  let res := co_result r in
  {| r with co_failed := true; co_result := {| res with cl_reason := reason |} |}.

(** The record after an issue of [b] bytes. *)
Lemma issued_books x T L d id r f b T' L' r' :
  mid x T L d id r f -> 0 < b -> issued r + b <= planned r -> co_failed r = false ->
  r' = add_fabric b r \/ r' = add_local b r ->
  entries id T' L' = 1 + entries id T L -> owed id T' L' = b + owed id T L ->
  books T' L' id r' /\ same_round r r' /\ issued r' = issued r + b /\ co_pending r' = co_pending r + 1 /\
  co_failed r' = false /\ co_finished r' = false.
Proof.
  intros Hm Hb Hle Hf Hr' E1 E2. pose proof (books_bound _ _ _ _ _ _ _ Hm) as (B1 & B2 & B3).
  pose proof (md_open _ _ _ _ _ _ _ Hm) as Hopen.
  destruct (mid_books _ _ _ _ _ _ _ Hm) as [H1 H2 H3 H4 H5 H6].
  unfold issued, planned, delivered, participants in *.
  assert (u64_wrap (co_pending r + 1) = co_pending r + 1) as W1 by (apply u64_wrap_id; word_lia).
  destruct H6 as (D1 & D2 & D3).
  destruct Hr' as [-> | ->]; unfold add_fabric, add_local, credit_fabric, credit_local, count_entry; cbn;
    (rewrite u64_wrap_id by word_lia; rewrite W1; split; [| split; [done |]; split; [lia |]; done];
     split; unfold issued, planned, delivered, participants; cbn; try done;
     [lia | lia | rewrite E2; split_and!; [lia | lia |]; intros _; specialize (D3 Hf); lia]).
Qed.

Lemma mid_add_transfer x T L d id r f f' t b :
  mid x T L d id r f -> fab_later f f' -> ~ fab_transfer_known f t -> fab_transfer_known f' t ->
  0 < b -> issued r + b <= planned r -> co_failed r = false ->
  T !! t = None /\ mid x (<[t := mkPending id b]> T) L d id (add_fabric b r) f'.
Proof.
  intros Hm Hl Hn Hk Hb Hle Hf. pose proof Hm as [Ht Hok Ho Hop].
  assert (T !! t = None) as Hnone.
  { destruct (T !! t) as [p |] eqn:Hp; [| done]. destruct (tb_transfers _ _ _ _ _ Ht t p Hp). done. }
  split; [done |].
  destruct (issued_books x T L d id r f b (<[t := mkPending id b]> T) L (add_fabric b r)) as (Hbk & Hs & _ & _ & _ & Hfin);
    try done; [by left | by (unfold entries; rewrite outstanding_transfer, owned_self)
              | by (unfold owed; rewrite outstanding_transfer, owned_self) |].
  split; [| by eapply fab_later_ok | done | done].
  apply (tables_put _ T L _ f id r); try done.
  - intros id' Hne. unfold entries, owed. rewrite !outstanding_transfer, !owned_other by (done || by cbn; congruence). done.
  - intros t' p. destruct (decide (t = t')) as [<- | Hne].
    + rewrite lookup_insert_eq. intros [= <-]. right. done.
    + rewrite lookup_insert_ne by done. by left.
  - intros e l Hel. left. split; [done |]. intros _. done.
Qed.

Lemma mid_add_local x T L d id r f f' e b rank :
  mid x T L d id r f -> fab_later f f' -> ~ fab_event_known f e -> fab_event_known f' e ->
  0 < b -> issued r + b <= planned r -> co_failed r = false -> 0 <= rank < participants r ->
  let l := mkLocalPending (mkPending id b) (mkLocalCompletionEvent id (co_round r) rank (co_phase r)) in
  L !! e = None /\ mid x T (<[e := l]> L) d id (add_local b r) f'.
Proof.
  intros Hm Hl Hn Hk Hb Hle Hf Hrank l. pose proof Hm as [Ht Hok Ho Hop].
  assert (L !! e = None) as Hnone.
  { destruct (L !! e) as [p |] eqn:Hp; [| done]. destruct (tb_locals _ _ _ _ _ Ht e p Hp). done. }
  split; [done |].
  destruct (issued_books x T L d id r f b T (<[e := l]> L) (add_local b r)) as (Hbk & Hs & _ & _ & _ & Hfin);
    try done; [by right | unfold entries; rewrite outstanding_local by done; apply Z.add_cancel_r, owned_self
              | unfold owed; rewrite outstanding_local by done; apply Z.add_cancel_r, owned_self |].
  split; [| by eapply fab_later_ok | done | done].
  apply (tables_put _ T L _ f id r); try done.
  - intros id' Hne. unfold entries, owed. rewrite !outstanding_local, !owned_other by (done || by cbn; congruence). done.
  - intros t' p Hp. by left.
  - intros e' l'. destruct (decide (e = e')) as [<- | Hne].
    + rewrite lookup_insert_eq. intros [= <-]. right. split_and!; try done. by exists rank.
    + rewrite lookup_insert_ne by done. left. split; [done |]. intros _. done.
Qed.

(** The rest of [issue_transfer] after the entry was made. *)
Definition issued_one x d tl id r (b : Z) w' : Prop :=
  exists flow' T' L' f' r', w' = ring_at x flow' T' L' d tl id r' f' /\ mid x T' L' d id r' f' /\
    same_round r r' /\
    if co_failed r' then issued r' = issued r /\ co_pending r' = co_pending r
    else issued r' = issued r + b /\ co_pending r' = co_pending r + 1.

Lemma issue_local_spec transfer x flow T L d tl id r f :
  let b := rg_bytes transfer in
  mid x T L d id r f -> co_failed r = false -> 0 <= rg_source transfer < participants r ->
  0 < b -> issued r + b <= planned r ->
  gives (issue_local id r transfer)
    (fun w' _ => exists L' f', w' = ring_at x flow T L' d tl id (credit_local b r) f' /\
       mid x T L' d id (add_local b r) f')
    (ring_at x flow T L d tl id r f).
Proof.
  intros b Hm Hf Hrank Hb Hle. pose proof (bk_id _ _ _ _ (mid_books _ _ _ _ _ _ _ Hm)) as Hid.
  unfold issue_local. apply gives_bind, wp_gets. apply gives_bind, gives_of_option. intros dur _.
  apply gives_bind, wp_gets. apply gives_bind, gives_of_option. intros arrival Ha.
  assert (u64 arrival) as Hu by (destruct (checked_add _ dur); [by eapply checked_add_u64 | done]).
  rewrite Hid. apply gives_bind. eapply gives_with_fabric; [by apply fab_schedule_law; [apply Hm |] |].
  intros f1 e (Hl & Hn & Hk). apply gives_bind, wp_modify. cbn [rg_executor rg_fabric rx_locals_].
  destruct (mid_add_local x T L d id r f f1 e b (rg_source transfer)) as [Hnone Hmid]; [done.. |].
  cbn [ring_at rg_executor rx_locals_]. rewrite Hnone.
  match goal with |- gives _ _ ?w => change w with
    (ring_at x flow T (<[e := mkLocalPending (mkPending id b) (mkLocalCompletionEvent id (co_round r) (rg_source transfer) (co_phase r))]> L) d tl id r f1) end.
  apply gives_bind, gives_modify_result. apply gives_bind, gives_emit; [apply Hmid |]. intros f2 H12.
  apply gives_emit_counter; [by eapply fab_later_ok, Hmid |]. intros f3 H23.
  eexists _, f3. split; [reflexivity |]. eapply mid_later; [| exact Hmid]. by etrans.
Qed.

Lemma issue_fabric_spec transfer source destination x flow T L d tl id r f :
  let b := rg_bytes transfer in
  mid x T L d id r f -> co_failed r = false -> 0 < b -> issued r + b <= planned r ->
  gives (issue_fabric id r transfer source destination)
    (fun w' routed => exists flow' T' f' r',
       w' = ring_at x flow' T' L d tl id r' f' /\
       if routed : bool
       then r' = credit_fabric b r /\
            mid x T' L d id (add_fabric b r) f'
       else r' = failed_with "no route for collective round" r /\
            T' = T /\ fab_later f f')
    (ring_at x flow T L d tl id r f).
Proof.
  intros b Hm Hf Hb Hle. pose proof (mid_books _ _ _ _ _ _ _ Hm) as Hbk. pose proof (bk_id _ _ _ _ Hbk) as Hid.
  pose proof (books_bound _ _ _ _ _ _ _ Hm) as (B1 & B2 & B3). destruct (bk_dims _ _ _ _ Hbk) as (_ & _ & Hc).
  unfold issue_fabric. apply gives_bind, wp_gets. apply gives_bind, gives_throw_if. intros _.
  apply gives_bind, wp_modify. apply gives_bind.
  eapply gives_with_fabric; [apply fab_route_law; [apply Hm | cbn; word_lia | done] |].
  intros f1 [st |] [Hl Hst].
  - destruct (Hst st eq_refl) as [Hn Hk].
    destruct (mid_add_transfer x T L d id r f f1 (st_id st) b) as [Hnone Hmid]; [done.. |].
    rewrite Hid. apply gives_bind, wp_modify. cbn [ring_at rg_executor rg_fabric rx_transfers_]. rewrite Hnone.
    match goal with |- gives _ _ ?w => change w with
      (ring_at x (flow + 1) (<[st_id st := mkPending id b]> T) L d tl id r f1) end.
    apply gives_bind, gives_modify_result. apply gives_bind, gives_emit; [apply Hmid |]. intros f2 H12.
    apply gives_bind, gives_emit_counter; [by eapply fab_later_ok, Hmid |]. intros f3 H23. apply wp_ret.
    eexists _, _, f3, _. split; [reflexivity |]. split; [reflexivity |]. eapply mid_later; [| exact Hmid]. by etrans.
  - match goal with |- gives _ _ ?w => change w with (ring_at x (flow + 1) T L d tl id r f1) end.
    apply gives_bind, gives_modify_record. apply gives_bind, gives_modify_result. apply wp_ret.
    eexists _, _, f1, _. split; [reflexivity |]. done.
Qed.

(** A record that only failed keeps its books. *)
Lemma mid_fail x T L d id r f reason :
  mid x T L d id r f -> mid x T L d id (failed_with reason r) f.
Proof.
  intros Hm. pose proof Hm as [Ht Hok Ho Hop]. split; [| done | done | done].
  apply (tables_put _ T L _ f id r); try done.
  - destruct (mid_books _ _ _ _ _ _ _ Hm) as [H1 H2 H3 H4 H5 (D1 & D2 & _)]. by split.
  - intros t p Hp. by left.
  - intros e l Hl. by left.
Qed.

Lemma ring_issue_spec transfer x flow T L d tl id r f :
  let b := rg_bytes transfer in
  mid x T L d id r f -> co_failed r = false -> 0 <= rg_source transfer < participants r ->
  0 < b -> issued r + b <= planned r ->
  gives (issue_transfer id transfer) (fun w' _ => issued_one x d tl id r b w') (ring_at x flow T L d tl id r f).
Proof.
  intros b Hm Hf Hrank Hb Hle. unfold issue_transfer. apply gives_bind, gives_record_at.
  unfold participant_nic. apply gives_bind, gives_bind, gives_of_option. intros g1 _. apply gives_bind, wp_gets.
  apply gives_bind, gives_of_option. intros w1 _. apply wp_ret.
  apply gives_bind, gives_bind, gives_of_option. intros g2 _. apply gives_bind, wp_gets.
  apply gives_bind, gives_of_option. intros w2 _. apply wp_ret. apply gives_bind.
  destruct (_ =? _).
  - apply gives_bind. eapply gives_conseq; [by apply issue_local_spec |]. intros w' [] (L' & f' & -> & Hmid).
    apply wp_ret. apply gives_when; [intros _ | done]. apply gives_modify_record.
    eexists _, _, _, _, _. split; [reflexivity |]. split; [exact Hmid |].
    pose proof (books_bound _ _ _ _ _ _ _ Hm). pose proof (bk_pending _ _ _ _ (mid_books _ _ _ _ _ _ _ Hm)).
    pose proof (bk_issued _ _ _ _ (mid_books _ _ _ _ _ _ _ Hm)) as (I1 & I2 & I3).
    split; [done |]. cbn. rewrite Hf. unfold issued in *. cbn. rewrite !u64_wrap_id by word_lia. lia.
  - eapply gives_conseq; [by apply issue_fabric_spec |]. intros w' [] (flow' & T' & f' & r' & -> & Hr').
    + destruct Hr' as [-> Hmid]. apply gives_when; [intros _ | done]. apply gives_modify_record.
      eexists _, _, _, _, _. split; [reflexivity |]. split; [exact Hmid |].
      pose proof (books_bound _ _ _ _ _ _ _ Hm). pose proof (bk_pending _ _ _ _ (mid_books _ _ _ _ _ _ _ Hm)).
      pose proof (bk_issued _ _ _ _ (mid_books _ _ _ _ _ _ _ Hm)) as (I1 & I2 & I3).
      split; [done |]. cbn. rewrite Hf. unfold issued in *. cbn. rewrite !u64_wrap_id by word_lia. lia.
    + destruct Hr' as (-> & -> & Hl). apply gives_when; [done | intros _].
      eexists _, _, _, _, _. split; [reflexivity |].
      split; [apply mid_fail; by eapply mid_later |]. done.
Qed.

(** ** A round *)

Definition issued_all x d tl id r (sum : Z) w' : Prop :=
  exists flow' T' L' f' r', w' = ring_at x flow' T' L' d tl id r' f' /\ mid x T' L' d id r' f' /\
    same_round r r' /\ co_pending r <= co_pending r' /\ issued r <= issued r' <= issued r + sum /\
    (co_failed r = true -> co_failed r' = true) /\
    (co_failed r' = false -> issued r' = issued r + sum /\ (0 < sum -> co_pending r < co_pending r')).

Lemma issue_all_spec plan x flow T L d tl id r f :
  mid x T L d id r f ->
  Forall (fun t => 0 <= rg_source t < participants r /\ 0 <= rg_bytes t) plan ->
  issued r + sumZ (rg_bytes <$> plan) <= planned r ->
  gives (for_each plan (issue_planned id)) (fun w' _ => issued_all x d tl id r (sumZ (rg_bytes <$> plan)) w')
    (ring_at x flow T L d tl id r f).
Proof.
  revert flow T L r f. induction plan as [| t plan IH]; intros flow T L r f Hm Hplan Hsum.
  { apply wp_ret. exists flow, T, L, f, r. cbn. split_and!; try done; lia. }
  apply Forall_cons in Hplan as [[Hrank Hb] Hplan]. rewrite fmap_cons, sumZ_cons in *.
  assert (0 <= sumZ (rg_bytes <$> plan)) as Hnn.
  { apply sumZ_nonneg, Forall_fmap. eapply Forall_impl; [exact Hplan |]. by intros t' []. }
  cbn [for_each]. apply gives_bind. unfold issue_planned at 1. apply gives_bind, gives_record_at. apply gives_when.
  - intros [Hnz%negb_true_iff%Z.eqb_neq Hf%negb_true_iff]%andb_true_iff.
    eapply gives_conseq; [apply ring_issue_spec; [done | done | done | lia | lia] |].
    intros w' [] (flow' & T' & L' & f' & r' & -> & Hm' & Hsame & Hr').
    destruct (same_round_position _ _ Hsame) as [_ Hpart]. pose proof Hsame as (_ & _ & _ & _ & Hpl & _).
    eapply gives_conseq; [apply (IH flow' T' L' r' f'); [done | by rewrite Hpart | destruct (co_failed r'); lia] |].
    intros w'' [] (flow2 & T2 & L2 & f2 & r2 & -> & Hm2 & Hs2 & Hp2 & Hi2 & Hk2 & Hall2).
    exists flow2, T2, L2, f2, r2. split; [done | split; [done | split; [by eapply same_round_trans |]]].
    destruct (co_failed r') eqn:Hf'.
    + specialize (Hk2 eq_refl). split_and!; [lia | lia | lia | done |]. congruence.
    + split_and!; [lia | lia | lia | congruence |]. intros Hff. destruct (Hall2 Hff). lia.
  - intros Hskip. eapply gives_conseq; [apply (IH flow T L r f); [done | done | lia] |].
    intros w'' [] (flow2 & T2 & L2 & f2 & r2 & -> & Hm2 & Hs2 & Hp2 & Hi2 & Hk2 & Hall2).
    exists flow2, T2, L2, f2, r2. split; [done | split; [done | split; [done |]]].
    split_and!; [lia | lia | lia | done |]. intros Hff. destruct (Hall2 Hff).
    destruct (co_failed r); [by rewrite Hk2 in Hff |]. rewrite andb_true_r in Hskip.
    apply negb_false_iff, Z.eqb_eq in Hskip. lia.
Qed.

(** ** Finishing *)

Definition finished_record (now : SimTimeNs) r : CollectiveRecord :=
  let res := co_result r in
  {| r with co_finished := true; co_phase := final_phase r;
            co_result := {| res with cl_outcome := final_phase r; cl_finished := now |} |}.

Lemma no_owed x T L d id r f : mid x T L d id r f -> co_pending r = 0 ->
  entries id T L = 0 /\ owed id T L = 0 /\
  (forall t p, T !! t = Some p -> pd_collective p <> id) /\
  (forall e l, L !! e = Some l -> pd_collective (lp_transfer l) <> id).
Proof.
  intros Hm Hp. pose proof (md_tables _ _ _ _ _ _ _ Hm) as Ht.
  rewrite (bk_pending _ _ _ _ (mid_books _ _ _ _ _ _ _ Hm)) in Hp.
  pose proof (no_entries_owed _ _ _ _ _ _ Ht Hp). destruct (no_entries _ _ _ _ _ _ Ht Hp). done.
Qed.

Lemma tables_finish x T L d id r f now :
  mid x T L d id r f -> co_pending r = 0 ->
  tables (<[id := finished_record now r]> (rx_records_ x)) T L
    (taken ++ d ++ [co_result (finished_record now r)]) f.
Proof.
  intros Hm Hp. destruct (no_owed _ _ _ _ _ _ _ Hm Hp) as (_ & _ & HnT & HnL).
  pose proof (mid_books _ _ _ _ _ _ _ Hm) as [B1 B2 B3 B4 B5 B6].
  pose proof Hm as [[T1 T2 T3 T4 [T5 T6]] Hok Ho Hop]. split.
  - intros id' y. destruct (decide (id' = id)) as [-> | Hne].
    + rewrite lookup_insert_eq. intros [= <-]. by split.
    + rewrite lookup_insert_ne by done. intros Hy. apply T1. by rewrite lookup_insert_ne.
  - by eapply dense_put.
  - intros t p Htp. destruct (T3 t p Htp) as (K & Hb & Hs). split_and!; try done.
    assert (id <> pd_collective p) as Hne by (intros Hid; by apply (HnT t p)).
    rewrite lookup_insert_ne in Hs |- * by done. done.
  - intros e l Hel. destruct (T4 e l Hel) as (K & Hb & y & rank & Hy & Hrank & He). split_and!; try done.
    assert (id <> pd_collective (lp_transfer l)) as Hne by (intros Hid; by apply (HnL e l)).
    rewrite lookup_insert_ne in Hy |- * by done. eauto.
  - rewrite app_assoc. split.
    + rewrite fmap_app. apply NoDup_app. split; [done |]. split; [| apply NoDup_singleton].
      intros i (res & -> & (y & Hy & Hfin & _)%T6)%list_elem_of_fmap Hi.
      apply list_elem_of_singleton in Hi. cbn in Hi. rewrite Hi, B1, lookup_insert_eq in Hy. congruence.
    + intros res. rewrite elem_of_app, list_elem_of_singleton, T6. destruct (decide (cl_id res = id)) as [Hid | Hne].
      * rewrite Hid, !lookup_insert_eq. split.
        -- intros [(y & [= <-] & Hfin & _) | ->]; [congruence | eauto].
        -- intros (y & [= <-] & _ & <-). by right.
      * rewrite !lookup_insert_ne by done. split; [intros [? | ->]; [done |]; by rewrite <- B1 in Hne | by left].
Qed.

Lemma ring_finish_spec x flow T L d tl id r f :
  mid x T L d id r f -> co_pending r = 0 ->
  (co_failed r = false -> co_cancelled r = false -> delivered r = planned r) ->
  gives (finish_collective id) (fun w' _ => executor_ok w') (ring_at x flow T L d tl id r f).
Proof.
  intros Hm Hp Hdone. pose proof Hm as [Ht Hok Ho Hop]. unfold finish_collective.
  apply gives_bind, gives_record_at. apply gives_bind, gives_throw_if. intros _.
  apply gives_bind, gives_modify_record. apply gives_bind, gives_record_at. apply gives_bind, gives_throw_if. intros _.
  apply gives_bind, wp_gets. apply gives_bind, gives_modify_result. apply gives_bind, gives_trace. intros tl'.
  apply gives_bind, gives_record_at. apply gives_bind, wp_modify.
  set (now := fab_now _). set (r' := finished_record now r).
  match goal with |- gives _ _ ?w => change w with (ring_at x flow T L (d ++ [co_result r']) tl' id r' f) end.
  pose proof (tables_finish x T L d id r f now Hm Hp) as Ht'. fold r' in Ht'.
  assert (forall f', fab_later f f' -> executor_ok (ring_at x flow T L (d ++ [co_result r']) tl' id r' f')) as Hend.
  { intros f' Hl. split; [by eapply fab_later_ok | by eapply tables_later |]. intros id' y.
    cbn. destruct (decide (id' = id)) as [-> | Hne]; [| rewrite lookup_insert_ne by done; by apply Ho].
    rewrite lookup_insert_eq. intros [= <-]. unfold settled, r', delivered, planned in *. cbn.
    split_and!; try done. unfold final_phase. destruct (co_cancelled r); [done |]. destruct (co_failed r); [done |]. auto. }
  apply gives_bind, gives_emit; [done |]. intros f1 H1.
  apply gives_observe; [by eapply fab_later_ok | done |]. intros f2 H2. apply Hend. by etrans.
Qed.

(** ** Starting and ending rounds *)

(** A state in the middle of an operation is a state between operations once
    the collective has something pending. *)
Lemma mid_settle x flow T L d tl id r f :
  mid x T L d id r f -> running r -> 0 < co_pending r -> executor_ok (ring_at x flow T L d tl id r f).
Proof.
  intros [Ht Hok Ho Hop] Hr Hp. split; [done | done |]. intros id' y. cbn.
  destruct (decide (id' = id)) as [-> | Hne]; [| rewrite lookup_insert_ne by done; by apply Ho].
  rewrite lookup_insert_eq. intros [= <-]. unfold settled. by rewrite Hop.
Qed.

(** The plan of the current round. *)
Lemma round_plan r :
  ring_ok (participants r) (cq_bytes (co_request r)) -> u64 (cq_bytes (co_request r)) -> 2 <= participants r ->
  (co_phase r = ReduceScatter \/ co_phase r = AllGather) -> 0 <= co_round r < participants r - 1 ->
  exists plan, plan_round (u32_wrap (participants r)) (cq_bytes (co_request r)) (co_phase r) (co_round r) = Ret plan /\
    sumZ (rg_bytes <$> plan) = cq_bytes (co_request r) /\
    Forall (fun t => 0 <= rg_source t < participants r /\ 0 <= rg_bytes t) plan.
Proof.
  intros Hok Hu Hn Hph Hro. assert (u32_wrap (participants r) = participants r) as ->.
  { unfold u32_wrap. apply Z.mod_small. destruct Hok. word_lia. }
  eexists. split; [by apply plan_round_eq |]. split; [by apply plan_bytes |].
  apply Forall_fmap, Forall_forall. intros k Hk%elem_of_seqZ. cbn. split; [lia |]. apply u64_wrap_range.
Qed.

Lemma start_round_spec x flow T L d tl id r f :
  mid x T L d id r f -> co_failed r = false -> co_pending r = 0 -> 2 <= participants r ->
  (co_phase r = ReduceScatter \/ co_phase r = AllGather) -> 0 <= co_round r < participants r - 1 ->
  issued r = position r * cq_bytes (co_request r) ->
  gives (start_round id) (fun w' _ => executor_ok w') (ring_at x flow T L d tl id r f).
Proof.
  intros Hm Hf Hp Hn Hph Hro Hi. pose proof (mid_books _ _ _ _ _ _ _ Hm) as Hbk.
  destruct (bk_dims _ _ _ _ Hbk) as (Hok & Hu & _). pose proof (bk_planned _ _ _ _ Hbk) as Hpl.
  destruct (round_plan r Hok Hu Hn Hph Hro) as (plan & Hplan & Hsum & Hall).
  unfold start_round. apply gives_bind, gives_trace. intros tl1. apply gives_bind, gives_record_at.
  assert (forall f', fab_later f f' -> gives (
    do! emit id CollectiveTransition_RoundStarted None 0 in
    let! plan := of_outcome (plan_round (u32_wrap (zlength (cq_participants (co_request r))))
      (cq_bytes (co_request r)) (co_phase r) (co_round r)) in
    do! for_each plan (issue_planned id) in
    let! record := record_at id in
    when (co_pending record =? 0) (finish_collective id)) (fun w' _ => executor_ok w') (ring_at x flow T L d tl1 id r f')) as Hrest.
  { intros f1 H1. apply gives_bind, gives_emit; [by eapply fab_later_ok, Hm |]. intros f2 H2.
    apply gives_bind, gives_of_outcome. intros plan' Hplan'. unfold participants in Hplan. rewrite Hplan in Hplan'.
    injection Hplan' as <-. assert (position r + 1 <= 2 * (participants r - 1)) as Hpos.
    { unfold position. case_bool_decide; lia. }
    apply gives_bind. eapply gives_conseq.
    { apply issue_all_spec; [eapply mid_later; [exact (transitivity H1 H2) | exact Hm] | exact Hall |]. rewrite Hsum, Hi, Hpl. destruct Hok. nia. }
    intros w' [] (flow' & T' & L' & f' & r' & -> & Hm' & Hs & Hp' & Hi' & _ & Hall'). rewrite Hsum in *.
    apply gives_bind, gives_record_at. destruct (same_round_position _ _ Hs) as [Epos Epart].
    destruct Hok as (_ & Hpos0 & _). apply gives_when.
    - intros Hz%Z.eqb_eq. apply ring_finish_spec; [done | done |]. intros Hff. destruct (Hall' Hff). lia.
    - intros Hz%Z.eqb_neq. apply mid_settle; [done | | lia]. destruct Hs as (E1 & E2 & E3 & _).
      split; rewrite ?Epart, ?Epos, ?E1, ?E2, ?E3; try done; [lia |]. intros Hff. destruct (Hall' Hff). lia. }
  apply gives_bind, gives_when; intros _; [| by apply Hrest]. by apply gives_emit; [apply Hm |].
Qed.

(** The record moves on with nothing pending. *)
Lemma mid_move x T L d id r f r' :
  mid x T L d id r f -> co_pending r = 0 ->
  co_request r' = co_request r -> co_result r' = co_result r -> co_pending r' = co_pending r ->
  co_failed r' = co_failed r -> co_finished r' = false -> mid x T L d id r' f.
Proof.
  intros Hm Hp E1 E2 E3 E4 E5. destruct (no_owed _ _ _ _ _ _ _ Hm Hp) as (_ & _ & _ & HnL).
  pose proof Hm as [Ht Hok Ho Hop]. split; [| done | done | done].
  apply (tables_put _ T L _ f id r); try done.
  - destruct (mid_books _ _ _ _ _ _ _ Hm) as [B1 B2 B3 B4 B5 B6].
    split; unfold issued, planned, delivered, participants in *; rewrite ?E1, ?E2, ?E3, ?E4; done.
  - intros t p Htp. by left.
  - intros e l Hel. left. split; [done |]. intros Hid. by apply HnL in Hel.
Qed.

Lemma advance_spec x flow T L d tl id r f :
  mid x T L d id r f -> running r ->
  gives (advance id) (fun w' _ => executor_ok w') (ring_at x flow T L d tl id r f).
Proof.
  intros Hm Hr. pose proof (mid_books _ _ _ _ _ _ _ Hm) as Hbk.
  pose proof (books_bound _ _ _ _ _ _ _ Hm) as (B1 & _). pose proof (bk_pending _ _ _ _ Hbk) as Hpe.
  unfold advance. apply gives_bind, gives_record_at. destruct (Z.eqb_spec (co_pending r) 0) as [Hp | Hp]; cbn [negb].
  2:{ apply wp_ret. apply mid_settle; [done | done | lia]. }
  apply gives_bind, gives_emit; [apply Hm |]. intros f1 H1. apply (mid_later _ _ _ _ _ _ _ _ H1) in Hm.
  pose proof (md_open _ _ _ _ _ _ _ Hm) as Hopen.
  destruct (co_failed r) eqn:Hf; [apply ring_finish_spec; [done | done | congruence] |].
  destruct (co_cancelled r) eqn:Hc; [apply ring_finish_spec; [done | done | congruence] |]. cbn [orb].
  destruct (no_owed _ _ _ _ _ _ _ Hm Hp) as (_ & Howed & _).
  destruct (bk_balance _ _ _ _ Hbk) as (_ & _ & Hbal). rewrite Howed in Hbal. specialize (Hbal Hf).
  destruct Hr as [Hph Hn Hro _ Hall]. specialize (Hall Hf).
  destruct (bk_dims _ _ _ _ Hbk) as (Hok & _ & _). pose proof (bk_planned _ _ _ _ Hbk) as Hpl.
  assert (u32_wrap (co_round r + 1) = co_round r + 1) as Hw.
  { unfold u32_wrap. apply Z.mod_small. destruct Hok. word_lia. }
  assert (u64_wrap (participants r - 1) = participants r - 1) as Hw' by (apply u64_wrap_id; destruct Hok; word_lia).
  apply gives_bind, gives_modify_record. rewrite Hw. apply gives_bind, gives_record_at. cbn [co_round co_phase co_request].
  unfold participants in Hw'. rewrite Hw'. fold (participants r).
  destruct (Z.eqb_spec (co_round r + 1) (participants r - 1)) as [Hend | Hmore].
  - case_bool_decide as Hag.
    + apply ring_finish_spec; [by apply (mid_move x T L d id r f1) | done |]. intros _ _. unfold delivered, planned, issued in *. cbn.
      unfold position in Hall. rewrite bool_decide_eq_true_2 in Hall by done. rewrite Hpl. nia.
    + apply gives_bind, gives_modify_record. apply start_round_spec; try done; [by apply (mid_move x T L d id r f1) | by right | |].
      * cbn. unfold participants in *. cbn. lia.
      * unfold position, issued, participants in *. cbn.
        rewrite bool_decide_eq_false_2 in Hall by done. case_bool_decide; [nia | done].
  - apply start_round_spec; try done; [by apply (mid_move x T L d id r f1) | |].
    + cbn. unfold participants in *. cbn. lia.
    + unfold position, issued, participants in *. cbn. destruct (bool_decide _); nia.
Qed.
End Rounds.

(** ** Requests and events of the ring executor

    Submission, completions, cancellation and the hand-over of results keep the
    books of the executor. *)

(** What transport promises of a completion: its counts are words, and a
    transfer that succeeded dropped nothing. *)
Definition honest (cm : TransferCompletion) : Prop :=
  traffic_ok (cm_delivered cm) /\ traffic_ok (cm_dropped_buffer_full cm) /\
  traffic_ok (cm_dropped_link_down cm) /\
  (cm_outcome cm = TransferOutcome_Succeeded ->
   tc_bytes (cm_dropped_buffer_full cm) = 0 /\ tc_bytes (cm_dropped_link_down cm) = 0).

Section Handlers.
Context {F : Type} `{FabricLaws F} (taken : list CollectiveResult).
Implicit Types (x : RingExecutor) (w : Ring F) (f : F) (id : CollectiveId) (r : CollectiveRecord).
Implicit Types (T : gmap TransferId Pending) (L : gmap EventId LocalPending).

Abbreviation mid := (mid taken).
Abbreviation executor_ok := (executor_ok taken).

(** A collective with pending entries is running. *)
Lemma executor_mid w id r :
  executor_ok w -> rx_records_ (rg_executor w) !! id = Some r -> 0 < co_pending r ->
  let x := rg_executor w in
  mid x (rx_transfers_ x) (rx_locals_ x) (rx_completed_ x) id r (rg_fabric w) /\ running r.
Proof.
  intros [Hok Ht Hs] Hr Hp. pose proof (Hs id r Hr) as Hset. unfold settled in Hset.
  destruct (co_finished r) eqn:Hf; [lia |]. destruct Hset as [Hrun _]. split; [| done].
  split; [by rewrite insert_id | done | | done]. intros id' r' _ Hr'. by eapply Hs.
Qed.

(** ** Completions *)

Definition debit (amount : Z) r : CollectiveRecord :=
  let res := co_result r in
  {| r with co_result := {| res with cl_delivered_bytes := u64_wrap (cl_delivered_bytes res + amount) |} |}.

Definition uncount r : CollectiveRecord := {| r with co_pending := u64_wrap (co_pending r - 1) |}.

(** An entry of [b] bytes is gone, of which [amount] were delivered. *)
Lemma mid_drop x T L d id r f T' L' f' r1 b amount :
  mid x T L d id r f -> running r -> fab_later f f' -> 0 <= amount <= b -> 0 < b -> b <= owed id T L ->
  1 <= entries id T L ->
  (forall id' v, outstanding id' v T' L' =
     outstanding id' v T L - owned id' v (mkPending id b)) ->
  (forall t p, T' !! t = Some p -> T !! t = Some p) -> (forall e l, L' !! e = Some l -> L !! e = Some l) ->
  r1 = debit amount r \/ (exists reason, r1 = failed_with reason (debit amount r)) ->
  (co_failed r1 = false -> amount = b) ->
  mid x T' L' d id (uncount r1) f' /\ running (uncount r1).
Proof.
  intros Hm Hrun Hl Ha Hb Hle Hone Hout HT HL Hr1 Hfull. pose proof Hm as [Ht Hok Ho Hop].
  pose proof (books_bound taken _ _ _ _ _ _ _ Hm) as (B1 & B2 & B3).
  pose proof (mid_books taken _ _ _ _ _ _ _ Hm) as [H1 H2 H3 H4 H5 (D1 & D2 & D3)].
  assert (cl_delivered_bytes (co_result r) + amount <= u64_max) as Hmax by (unfold delivered in *; lia).
  assert (u64_wrap (co_pending r - 1) = co_pending r - 1) as W1 by (apply u64_wrap_id; word_lia).
  assert (u64_wrap (cl_delivered_bytes (co_result r) + amount) = cl_delivered_bytes (co_result r) + amount) as W2
    by (apply u64_wrap_id; unfold delivered in *; word_lia).
  assert (entries id T' L' = entries id T L - 1) as E1 by (unfold entries; by rewrite Hout, owned_self).
  assert (owed id T' L' = owed id T L - b) as E2 by (unfold owed; by rewrite Hout, owned_self).
  assert (co_failed r1 = false -> co_failed r = false) as Hmono by (by destruct Hr1 as [-> | [reason ->]]).
  assert (same_round r (uncount r1) /\ issued (uncount r1) = issued r /\ delivered (uncount r1) = delivered r + amount /\
    co_pending (uncount r1) = co_pending r - 1 /\ co_failed (uncount r1) = co_failed r1 /\
    co_finished (uncount r1) = false /\ cl_issued_fabric_bytes (co_result (uncount r1)) = cl_issued_fabric_bytes (co_result r) /\
    cl_issued_local_bytes (co_result (uncount r1)) = cl_issued_local_bytes (co_result r)) as (S1 & S2 & S3 & S4 & S5 & S6 & S7 & S8).
  { destruct Hr1 as [-> | [reason ->]]; unfold delivered, issued; cbn; rewrite W1, W2; done. }
  destruct (same_round_position _ _ S1) as [Epos Epart]. pose proof S1 as (R1 & R2 & R3 & _ & R5 & R6).
  split; [| destruct Hrun as [U1 U2 U3 U4 U5]; split; rewrite ?Epart, ?Epos, ?R1, ?R2, ?R3, ?S2, ?S5; auto].
  split; [| by eapply fab_later_ok | done | done].
  apply (tables_put _ T L _ f id r); try done.
  - split; rewrite ?R6, ?Epart, ?R1, ?R5, ?S4, ?S7, ?S8, ?S2, ?S3, ?S5, ?E1, ?E2; try done; [lia |].
    split; [lia | split; [lia |]]. intros Hff. specialize (D3 (Hmono Hff)). specialize (Hfull Hff). lia.
  - intros id' Hne. unfold entries, owed. rewrite !Hout, !owned_other by (cbn; congruence). lia.
  - intros t p Htp. left. by apply HT.
  - intros e l Hel. left. split; [by apply HL | done].
Qed.

Lemma handle_local_spec event w :
  executor_ok w -> gives (handle_local event) (fun w' _ => executor_ok w') w.
Proof.
  intros Hw. pose proof Hw as [Hok Ht Hs]. unfold handle_local. apply gives_bind.
  unfold gives at 1, wp. destruct (fab_current_event_id (rg_fabric w)) as [current |]; [| done].
  apply gives_bind, wp_gets. apply gives_bind, gives_of_option. intros l Hl.
  apply gives_bind, gives_throw_if. intros Hev%negb_false_iff%bool_decide_eq_true.
  destruct (tb_locals _ _ _ _ _ Ht current l Hl) as (_ & Hb & r & rank & Hr & Hrank & He).
  rewrite Hev in He. rewrite He. clear Hev He event. cbn [lc_collective lc_round lc_phase lc_rank].
  set (id := pd_collective (lp_transfer l)) in *.
  destruct (entries_local _ _ _ _ _ (tb_transfers _ _ _ _ _ Ht) (tb_locals _ _ _ _ _ Ht) id current l Hl eq_refl) as [N1 N2].
  pose proof (bk_pending _ _ _ _ (tb_books _ _ _ _ _ Ht id r Hr)) as Hpe.
  destruct (executor_mid w id r Hw Hr) as [Hm Hrun]; [lia |].
  rewrite (ring_at_start w id r Hr). cbv zeta. set (x := rg_executor w) in *.
  apply gives_bind, gives_record_at. apply gives_bind, gives_throw_if. intros _.
  apply gives_bind, gives_modify_result. apply gives_bind, gives_emit_counter; [apply Hm |]. intros f1 H1.
  apply gives_bind, wp_modify.
  match goal with |- gives _ _ ?w => change w with (ring_at x (rx_next_flow_ x) (rx_transfers_ x)
    (delete current (rx_locals_ x)) (rx_completed_ x) (rx_timeline_ x) id (debit (pd_bytes (lp_transfer l)) r) f1) end.
  apply gives_bind, gives_modify_record. fold (uncount (debit (pd_bytes (lp_transfer l)) r)).
  destruct (mid_drop x (rx_transfers_ x) (rx_locals_ x) (rx_completed_ x) id r (rg_fabric w) (rx_transfers_ x)
    (delete current (rx_locals_ x)) f1 (debit (pd_bytes (lp_transfer l)) r) (pd_bytes (lp_transfer l))
    (pd_bytes (lp_transfer l))) as [Hm' Hrun']; try done; try lia.
  - intros id' v. rewrite (outstanding_drop_local id' v _ _ current l) by done.
    destruct (lp_transfer l); done.
  - intros e l' [_ ?]%lookup_delete_Some. done.
  - by left.
  - by apply advance_spec.
Qed.

Lemma handle_transfer_spec cm w :
  executor_ok w -> honest cm -> gives (handle_transfer cm) (fun w' _ => executor_ok w') w.
Proof.
  intros Hw (K1 & K2 & K3 & Hsucc). pose proof Hw as [Hok Ht Hs]. unfold handle_transfer.
  apply gives_bind, wp_gets. apply gives_bind, gives_of_option. intros p Hp.
  apply gives_bind, gives_of_outcome. intros dropped Hdrop. apply gives_bind, gives_of_outcome. intros all Hall.
  apply gives_bind, gives_throw_if. intros Heq%negb_false_iff%Z.eqb_eq.
  assert (traffic_le no_traffic (cm_dropped_link_down cm)) as Hle by (destruct K3; split; cbn; word_lia).
  destruct (add_traffic_Ret _ _ _ K2 Hle Hdrop) as [-> K4].
  assert (traffic_le no_traffic (cm_dropped_buffer_full cm ⊕ cm_dropped_link_down cm)) as Hle'
    by (destruct K4; split; cbn in *; word_lia).
  destruct (add_traffic_Ret _ _ _ K1 Hle' Hall) as [-> _]. cbn [plus_traffic tc_bytes] in Heq.
  destruct (tb_transfers _ _ _ _ _ Ht _ p Hp) as (_ & Hb & [r Hr]). set (id := pd_collective p) in *.
  destruct (entries_transfer _ _ _ _ _ (tb_transfers _ _ _ _ _ Ht) (tb_locals _ _ _ _ _ Ht) id _ p Hp eq_refl) as [N1 N2].
  pose proof (bk_pending _ _ _ _ (tb_books _ _ _ _ _ Ht id r Hr)) as Hpe.
  destruct (executor_mid w id r Hw Hr) as [Hm Hrun]; [lia |].
  rewrite (ring_at_start w id r Hr). cbv zeta. set (x := rg_executor w) in *. set (a := tc_bytes (cm_delivered cm)) in *.
  apply gives_bind, gives_record_at. apply gives_bind, gives_modify_result.
  apply gives_bind, gives_emit_counter; [apply Hm |]. intros f1 H1. fold (debit a r).
  assert (0 <= a <= pd_bytes p) as Ha by (destruct K1, K2, K3; word_lia).
  assert (forall r1, (r1 = debit a r \/ exists reason, r1 = failed_with reason (debit a r)) ->
    (co_failed r1 = false -> a = pd_bytes p) ->
    gives (do! modify_executor (fun x => {| x with rx_transfers_ := delete (cm_transfer cm) (rx_transfers_ x) |}) in
           do! modify_record id uncount in advance id) (fun w' _ => executor_ok w')
      (ring_at x (rx_next_flow_ x) (rx_transfers_ x) (rx_locals_ x) (rx_completed_ x) (rx_timeline_ x) id r1 f1)) as Hrest.
  { intros r1 Hr1 Hfull. apply gives_bind, wp_modify.
    match goal with |- gives _ _ ?w => change w with (ring_at x (rx_next_flow_ x)
      (delete (cm_transfer cm) (rx_transfers_ x)) (rx_locals_ x) (rx_completed_ x) (rx_timeline_ x) id r1 f1) end.
    apply gives_bind, gives_modify_record.
    destruct (mid_drop x (rx_transfers_ x) (rx_locals_ x) (rx_completed_ x) id r (rg_fabric w)
      (delete (cm_transfer cm) (rx_transfers_ x)) (rx_locals_ x) f1 r1 (pd_bytes p) a) as [Hm' Hrun']; try done.
    - intros id' v. rewrite (outstanding_drop_transfer id' v _ _ (cm_transfer cm) p) by done. by destruct p.
    - intros t p' [_ ?]%lookup_delete_Some. done.
    - by apply advance_spec. }
  apply gives_bind, gives_when.
  - intros _. apply gives_bind, gives_modify_record. apply gives_modify_result.
    apply (Hrest (failed_with "collective fabric transfer failed" (debit a r))); [eauto | done].
  - intros Hout%negb_false_iff%bool_decide_eq_true. apply Hrest; [by left |]. destruct (Hsucc Hout). lia.
Qed.

(** ** Requests *)

Lemma cancel_collective_spec id w :
  executor_ok w -> gives (cancel_collective id) (fun w' _ => executor_ok w') w.
Proof.
  intros Hw. pose proof Hw as [Hok Ht Hs]. unfold cancel_collective, record_at.
  apply gives_bind, gives_bind, wp_gets. apply gives_of_option. intros r Hr. apply gives_when; [| done].
  intros Hf%negb_true_iff. pose proof (Hs id r Hr) as Hset. unfold settled in Hset. rewrite Hf in Hset.
  destruct Hset as [Hrun Hp]. destruct (executor_mid w id r Hw Hr Hp) as [Hm _].
  rewrite (ring_at_start w id r Hr). cbv zeta. set (x := rg_executor w) in *.
  apply gives_bind, gives_modify_record. apply gives_modify_result. apply mid_settle; [| by destruct Hrun | done].
  pose proof Hm as [Ht' _ Ho _]. split; [| done | done | done].
  apply (tables_put _ (rx_transfers_ x) (rx_locals_ x) _ (rg_fabric w) id r); try done.
  - pose proof (mid_books taken _ _ _ _ _ _ _ Hm) as [H1 H2 H3 H4 H5 H6]. by split.
  - intros t p Htp. by left.
  - intros e l Hel. by left.
Qed.

(** A fresh record joins the tables. *)
Lemma tables_new R T L log f id r :
  tables R T L log f -> id = Z.of_nat (size R) -> co_finished r = false ->
  (entries id T L = 0 -> owed id T L = 0 -> books T L id r) -> tables (<[id := r]> R) T L log f.
Proof.
  intros Ht Hid Hfin Hb. pose proof Ht as [H1 H2 H3 H4 [H5 H6]].
  assert (R !! id = None) as Hnone.
  { destruct (R !! id) eqn:E; [| done]. destruct (proj1 (H2 id)); [eauto | lia]. }
  assert (forall i y, R !! i = Some y -> id <> i) as Hne by (intros i y Hy <-; congruence).
  assert (entries id T L = 0 /\ owed id T L = 0) as [E1 E2].
  { assert (forall v, outstanding id v T L = 0) as Hz; [| by split; apply Hz]. intros v. unfold outstanding.
    assert (forall t p, T !! t = Some p -> owned id v p = 0) as HT.
    { intros t p Hp. destruct (H3 t p Hp) as (_ & _ & [y Hy]). apply owned_other. intros Hx. by eapply Hne. }
    assert (forall e l, L !! e = Some l -> owned id v (lp_transfer l) = 0) as HL.
    { intros e l Hl. destruct (H4 e l Hl) as (_ & _ & y & _ & Hy & _). apply owned_other. intros Hx. by eapply Hne. }
    by rewrite !weigh_all_zero. }
  split.
  - intros i y. destruct (decide (i = id)) as [-> | Hi]; [rewrite lookup_insert_eq; intros [= <-]; auto |].
    rewrite lookup_insert_ne by done. apply H1.
  - intros i. rewrite map_size_insert, Hnone. destruct (decide (i = id)) as [-> | Hi].
    + rewrite lookup_insert_eq. split; [lia | eauto].
    + rewrite lookup_insert_ne, (H2 i) by done. lia.
  - intros t p Hp. destruct (H3 t p Hp) as (? & ? & [y Hy]). split_and!; try done.
    rewrite lookup_insert_ne by (by eapply Hne). eauto.
  - intros e l Hl. destruct (H4 e l Hl) as (? & ? & y & rank & Hy & ?). split_and!; try done.
    exists y, rank. rewrite lookup_insert_ne by (by eapply Hne). done.
  - split; [done |]. intros res. rewrite H6. destruct (decide (cl_id res = id)) as [-> | Hi].
    + rewrite Hnone, lookup_insert_eq. split; intros (y & Hy & Hf & _); [done |]. injection Hy as <-. congruence.
    + by rewrite lookup_insert_ne.
Qed.

Lemma ring_submit_spec request w :
  executor_ok w -> u64 (cq_bytes request) -> u64 (cq_chunk_bytes request) ->
  gives (ring_submit request) (fun w' _ => executor_ok w') w.
Proof.
  intros Hw Hb Hc. pose proof Hw as [Hok Ht Hs]. unfold ring_submit. cbv zeta.
  apply gives_bind, gives_throw_if. intros Hg. apply gives_bind, gives_of_outcome. intros volume Hv.
  set (n := zlength (cq_participants request)) in *.
  apply orb_false_iff in Hg as [[G1%Z.eqb_neq G2]%orb_false_iff _]. rewrite Z.gtb_ltb in G2. apply Z.ltb_ge in G2.
  pose proof (zlength_nonneg (cq_participants request)) as G0. fold n in G0.
  assert (u32_wrap n = n) as Hn by (unfold u32_wrap; apply Z.mod_small; word_lia). rewrite Hn in Hv.
  pose proof (planned_volume_eq n (cq_bytes request) ltac:(word_lia) Hb) as Hvol. rewrite Hv in Hvol.
  destruct Hvol as [Hring ->].
  apply gives_bind, wp_gets. apply gives_bind, gives_throw_if. intros _. apply gives_bind, wp_gets.
  apply gives_bind, gives_of_outcome. intros _ _. apply gives_bind, wp_gets. apply gives_bind, wp_modify.
  set (x := rg_executor w) in *. set (id := Z.of_nat (size (rx_records_ x))).
  assert (rx_records_ x !! id = None) as Hnone.
  { destruct (rx_records_ x !! id) eqn:E; [| done]. destruct (proj1 (tb_dense _ _ _ _ _ Ht id)); [eauto | lia]. }
  rewrite Hnone. set (now := fab_now (rg_fabric w)).
  set (r := mkCollectiveRecord _ _ _ _ _ _ _ _).
  set (x' := {| x with rx_participant_entries_ := u64_wrap (rx_participant_entries_ x + n) |}).
  match goal with |- gives _ _ ?w => change w with (ring_at x' (rx_next_flow_ x) (rx_transfers_ x)
    (rx_locals_ x) (rx_completed_ x) (rx_timeline_ x) id r (rg_fabric w)) end.
  assert (mid x' (rx_transfers_ x) (rx_locals_ x) (rx_completed_ x) id r (rg_fabric w)) as Hm.
  { split; [| done | | done].
    - apply tables_new; [done | done | done |]. intros E1 E2. assert (0 <= 2 * (n - 1) * cq_bytes request) by (destruct Hring; nia).
      split; unfold issued, planned, delivered, participants; cbn; rewrite ?E1, ?E2; fold n; try done; lia.
    - intros id' r' _ Hr'. by eapply Hs. }
  apply gives_bind, gives_emit; [done |]. intros f1 H1.
  apply gives_bind, gives_emit_counter; [by eapply fab_later_ok |]. intros f2 H2.
  apply (mid_later taken _ _ _ _ _ _ _ f2) in Hm; [| by etrans].
  apply gives_bind. apply (gives_conseq _ (fun w' _ => executor_ok w')); [| intros w' [] Hw'; exact Hw'].
  destruct (Z.eqb_spec n 1) as [H1n | H1n].
  - apply ring_finish_spec; [done | done |]. intros _ _. unfold delivered, planned. cbn. rewrite H1n. lia.
  - apply start_round_spec; try done; unfold participants; cbn; fold n; [lia | by left | lia].
Qed.

Lemma take_completed_spec w w' l :
  executor_ok w -> take_completed w = (w', Ret l) -> CollectiveSteps.executor_ok (taken ++ l) w'.
Proof.
  intros [Hok Ht Hs]. unfold take_completed, modify_executor, bind, gets, modify, ret. intros [= <- <-].
  split; [done | | done]. cbn. by rewrite app_nil_r.
Qed.

Lemma executor_later w f' : executor_ok w -> fab_later (rg_fabric w) f' -> executor_ok {| w with rg_fabric := f' |}.
Proof. intros [Hok Ht Hs] Hl. split; [by eapply fab_later_ok | by eapply tables_later | done]. Qed.
End Handlers.
