(* ===== verification/CollectiveFabric.v ===== *)
(** * The router as the executor's fabric

    The router over transport and simulation context discharges the laws the
    ring executor relies on, and transport's completions are honest. *)

From S2P Require Import Prelude SimTime Entities TelemetryRecords EventQueue SimContext.
From S2P Require Import Timing LinkQueue LinkService LinkServiceLaws Topology Transport.
From S2P Require Import TransportLaws TransportInv TransportSteps TransportSubmit TransportReach.
From S2P Require Import TransportTheorems RoutingPaths RoutingPolicy Router RouterTheorems.
From S2P Require Import CollectivePlan CollectiveRuntime CollectiveLaws CollectiveSteps.

(** ** The context through transport and router *)

(** Later, and nothing was cancelled. *)
Definition proceeds {C} `{SimContextLaws C} (c c' : C) : Prop :=
  ctx_evolves c c' /\ ctx_live c ⊆ ctx_live c'.

#[global] Instance proceeds_preorder {C} `{SimContextLaws C} : PreOrder proceeds.
Proof.
  split; [intros c; by split | intros c1 c2 c3 [A1 A2] [B1 B2]; split; by etrans].
Qed.

Lemma record_proceeds {C} `{SimContextLaws C} sink ts corr obs c : ctx_ok c ->
  wp (ctx_sink_record sink ts corr obs) (fun c' _ => proceeds c c') (fun c' _ => proceeds c c') c.
Proof.
  intros Hok. eapply wp_conseq; [by apply ctx_record_law | |]; cbn; intros c' ? [He Hl]; (split; [done | by rewrite Hl]).
Qed.

Lemma schedule_proceeds {C} `{SimContextLaws C} spec c : ctx_ok c -> u64 (spec_timestamp spec) ->
  wp (ctx_schedule spec) (fun c' _ => proceeds c c') (fun c' _ => proceeds c c') c.
Proof.
  intros Hok Hu. eapply wp_conseq; [by apply ctx_schedule_law | |]; cbn.
  - intros c' id (He & Hn & e & Hl & _). split; [done |]. rewrite Hl. by apply insert_subseteq.
  - intros c' e [He Hl]. by split.
Qed.

Section Context_.
Context {C : Type} `{SimContextLaws C} (c0 : C) (Hc0 : ctx_ok c0).

(** Later than [c0]. *)
Definition evolved_from (t : Transport C) : Prop := proceeds c0 (tp_context t).

Lemma kept_quiet {A} (m : M (Transport C) A) :
  (forall t, tp_context (fst (m t)) = tp_context t) -> preserves evolved_from m.
Proof.
  intros Hm t Ht. unfold wp. specialize (Hm t). destruct (m t) as [t' [a | e]]; cbn in Hm;
    unfold evolved_from; by rewrite Hm.
Qed.

Lemma kept_record sink ts corr obs : preserves evolved_from (with_context (ctx_sink_record sink ts corr obs)).
Proof.
  intros t Ht. apply wp_zoom. assert (ctx_ok (tp_context t)) as Hok by (by eapply ctx_evolves_ok; [apply Ht |]).
  eapply wp_conseq; [by apply record_proceeds | |]; cbn; intros c' ? He; unfold evolved_from; cbn; by etrans.
Qed.

Lemma kept_schedule_initial_arrival chunk : preserves evolved_from (schedule_initial_arrival chunk).
Proof.
  unfold schedule_initial_arrival. apply preserves_bind; [by apply kept_quiet; intros t; unfold require_chunk, bind, gets, of_option; destruct (_ !! _) |].
  intros record. apply preserves_bind; [apply kept_quiet; intros t; by destruct (negb _) |]. intros _.
  intros t Ht. assert (ctx_ok (tp_context t)) as Hok by (by eapply ctx_evolves_ok; [apply Ht |]).
  apply wp_bind, wp_gets. pose proof (ctx_now_u64 _ Hok) as Hu.
  apply wp_bind. apply (wp_conseq _ (fun t' _ => t' = t) _ (fun t' _ => t' = t) _); [unfold wp, check; by destruct (validate_timing _ _ _ _) | |].
  2:{ intros t' e ->. done. }
  intros t' [] ->. apply wp_bind, wp_zoom.
  eapply wp_conseq; [by apply schedule_proceeds | |]; cbn.
  2:{ intros c' e He. unfold evolved_from. cbn. by etrans. }
  intros c' id He. set (t1 := mkTransport _ _ _).
  assert (evolved_from t1) as H1 by (unfold evolved_from; cbn; by etrans). clearbody t1. revert t1 H1.
  apply preserves_bind; [by apply kept_quiet |]. intros _. cbv zeta.
  apply preserves_bind; [apply kept_quiet; intros t2; unfold transfer_at, bind, gets, of_option; by destruct (_ !! _) |].
  intros x. apply preserves_bind; [| by intros _; apply kept_quiet]. destruct (negb _); [| by apply kept_quiet].
  apply preserves_bind; [by apply kept_quiet |]. intros now. apply preserves_bind; [by apply kept_quiet |]. intros _.
  apply preserves_bind; [by apply kept_quiet |]. intros enabled. destruct enabled; [| by apply kept_quiet].
  apply preserves_bind.
  { apply kept_quiet. intros t2. unfold event_correlation, current_event, bind, ret.
    destruct (ctx_current_event_id _); [| done]. by destruct (ctx_cause _). }
  intros corr. apply preserves_bind; [by apply kept_quiet |]. intros sink. apply kept_record.
Qed.

Lemma kept_schedule_all chunks : preserves evolved_from (schedule_all chunks).
Proof.
  apply preserves_for_each. intros chunk. apply preserves_bind; [apply kept_schedule_initial_arrival |].
  intros _. by apply kept_quiet.
Qed.

Definition routed_from (w : Routed C) : Prop := evolved_from (ro_transport w).

Lemma kept_with_transport {A} (m : M (Transport C) A) :
  preserves evolved_from m -> preserves routed_from (with_transport m).
Proof.
  intros Hm w Hw. apply wp_zoom. eapply wp_conseq; [by apply Hm | |]; done.
Qed.

Lemma kept_routed_quiet {A} (m : M (Routed C) A) :
  (forall w, ro_transport (fst (m w)) = ro_transport w) -> preserves routed_from m.
Proof.
  intros Hm w Hw. unfold wp. specialize (Hm w). destruct (m w) as [w' [a | e]]; cbn in Hm;
    unfold routed_from; by rewrite Hm.
Qed.

Lemma kept_record_decision d o : preserves routed_from (record_decision d o).
Proof.
  unfold record_decision. apply preserves_bind.
  { apply kept_routed_quiet. intros w. unfold next_decision_id, throw_if, bind, gets, ret, modify_router, modify.
    by destruct (rt_decision_ids_exhausted_ _). }
  intros id. apply preserves_bind; [| by intros _; apply kept_routed_quiet].
  unfold emit_decision. apply preserves_bind; [by apply kept_routed_quiet |]. intros sink.
  apply preserves_bind; [by apply kept_routed_quiet |]. intros [|]; [| by apply kept_routed_quiet].
  apply preserves_bind.
  { apply kept_with_transport, kept_quiet. intros t. unfold event_correlation, current_event, bind, ret.
    destruct (ctx_current_event_id _); [| done]. by destruct (ctx_cause _). }
  intros corr. apply preserves_bind; [by apply kept_with_transport, kept_quiet |]. intros now.
  apply preserves_bind; [apply kept_with_transport, kept_record |]. intros _.
  apply preserves_bind; [by apply kept_routed_quiet |]. intros labels. apply kept_with_transport, kept_record.
Qed.
End Context_.

(** ** The services through the router *)

Section Services.
Context {C : Type} `{SimContext C} (services : gmap DirectedLinkId DirectedLinkService).

Definition services_are (w : Routed C) : Prop := services_ (tp_runtime (ro_transport w)) = services.

Lemma services_transport {A} (m : M (Transport C) A) : serviceless m -> preserves services_are (with_transport m).
Proof.
  intros Hm w Hw. apply wp_zoom. unfold wp, services_are in *. specialize (Hm (ro_transport w)).
  destruct (m (ro_transport w)) as [t [a | e]]; cbn in *; congruence.
Qed.

Lemma services_quiet {A} (m : M (Routed C) A) :
  (forall w, ro_transport (fst (m w)) = ro_transport w) -> preserves services_are m.
Proof.
  intros Hm w Hw. unfold wp, services_are in *. specialize (Hm w). destruct (m w) as [w' [a | e]]; cbn in *; congruence.
Qed.

Lemma services_record_decision d o : preserves services_are (record_decision d o).
Proof.
  unfold record_decision. apply preserves_bind.
  { apply services_quiet. intros w. unfold next_decision_id, throw_if, bind, gets, ret, modify_router, modify.
    by destruct (rt_decision_ids_exhausted_ _). }
  intros id. apply preserves_bind; [| by intros _; apply services_quiet].
  unfold emit_decision. apply preserves_bind; [by apply services_quiet |]. intros sink.
  apply preserves_bind; [by apply services_quiet |]. intros [|]; [| by apply services_quiet].
  apply preserves_bind; [apply services_transport; serviceless_auto |]. intros corr.
  apply preserves_bind; [apply services_transport; serviceless_auto |]. intros now.
  apply preserves_bind; [apply services_transport; serviceless_auto |]. intros _.
  apply preserves_bind; [by apply services_quiet |]. intros labels. apply services_transport. serviceless_auto.
Qed.

Lemma services_router_submit request : preserves services_are (router_submit request).
Proof.
  unfold router_submit. apply preserves_bind; [apply services_quiet; intros w; by destruct (_ || _) |]. intros _.
  apply preserves_bind; [by apply services_quiet |]. intros r.
  apply preserves_bind; [apply services_quiet; intros w; by destruct (_ =? _) |]. intros _.
  apply preserves_bind; [apply services_quiet; intros w; unfold lookup_paths; by destruct (path_lookup _ _ _) as [[? ?] |] |].
  intros candidates. apply preserves_bind; [apply services_transport; serviceless_auto |]. intros now.
  apply preserves_bind; [by apply services_quiet |]. intros g. cbv zeta. case_bool_decide.
  - apply preserves_bind; [apply services_record_decision | by intros _; apply services_quiet].
  - apply preserves_bind; [by apply services_quiet |]. intros fabric.
    apply preserves_bind; [by apply services_quiet |]. intros choice.
    apply preserves_bind; [apply services_quiet; intros w; by destruct (_ >=? _) |]. intros _.
    apply preserves_bind; [apply services_transport, serviceless_submit |]. intros st.
    apply preserves_bind; [apply services_record_decision | by intros _; apply services_quiet].
Qed.
End Services.

(** ** The laws *)

Section Laws.
Context {C : Type} `{SimContextLaws C}.
Implicit Types (w : Routed C) (t : Transport C).

Abbreviation ctx w := (tp_context (ro_transport w)).
Abbreviation chunks_of w := (chunks_ (tp_runtime (ro_transport w))).

Lemma submit_transfer_context taken request t :
  runtime_ok (tp_runtime t) no_extra taken -> ctx_ok (tp_context t) ->
  u64 (tr_bytes request) -> u64 (tr_maximum_chunk_bytes request) ->
  wp (submit_transfer request) (fun t' _ => proceeds (tp_context t) (tp_context t')) (fun _ _ => True) t.
Proof.
  intros Hrt Hok Hb Hm. unfold wp.
  destruct (submit_transfer_run taken request t Hrt (ctx_now_u64 _ Hok) Hb Hm) as [[e ->] | (T & chunks & t1 & Hsub & ->)]; [done |].
  pose proof (kept_schedule_all (tp_context t) Hok chunks t1) as Hk. unfold evolved_from, wp in Hk.
  rewrite (sb_context _ _ _ _ _ _ Hsub) in Hk. specialize (Hk (reflexivity _)).
  unfold bind, ret. destruct (schedule_all chunks t1) as [t2 [[] | e]]; [done | done].
Qed.

Lemma router_submit_context taken request w :
  router_ok w taken -> ctx_ok (ctx w) -> u64 (rq_bytes request) -> u64 (rq_maximum_chunk_bytes request) ->
  wp (router_submit request) (fun w' _ => proceeds (ctx w) (ctx w')) (fun _ _ => True) w.
Proof.
  intros Hw Hok Hb Hm. unfold router_submit. wp_step. apply wp_throw_if; [done | intros _]. wp_step. apply wp_gets.
  wp_step. apply wp_throw_if; [done | intros _]. wp_step.
  eapply wp_conseq; [by apply (lookup_paths_spec _ _ taken) | | done]. intros w1 paths (_ & Ht1 & _).
  wp_step. apply wp_with_read; [done | | done]. intros now. wp_step. apply wp_gets. cbv zeta.
  assert (forall w2 d o A (r : A), proceeds (ctx w) (ctx w2) ->
    wp (bind (record_decision d o) (fun _ => ret r)) (fun w' _ => proceeds (ctx w) (ctx w')) (fun _ _ => True) w2) as Hrec.
  { intros w2 d o A r He. apply wp_bind. eapply wp_conseq; [by apply (kept_record_decision (ctx w)) | | done].
    intros w3 [] H3. by apply wp_ret. }
  case_bool_decide; [apply Hrec; by rewrite Ht1 |]. wp_step. apply wp_gets. wp_step. apply wp_of_outcome; [| done].
  intros choice _. wp_step. apply wp_throw_if; [done | intros _]. wp_step. apply wp_zoom. rewrite Ht1.
  eapply wp_conseq; [apply (submit_transfer_context taken); [apply Hw | done | done | done] | | done].
  intros t' st He. by apply Hrec.
Qed.

(** Some chunk of the transfer is registered. *)
Definition transfer_seen w (x : TransferId) : Prop :=
  exists c r, chunks_of w !! c = Some r /\ chunk_transfer (cr_chunk r) = x.

Definition routed_fine w : Prop := (exists taken, router_ok w taken) /\ ctx_ok (ctx w).

Definition routed_later w w' : Prop :=
  (routed_fine w -> routed_fine w') /\ chunks_advance (chunks_of w) (chunks_of w') /\
  (routed_fine w -> forall e, ctx_issued (ctx w) e -> ctx_issued (ctx w') e).

#[global] Instance routed_later_preorder : PreOrder routed_later.
Proof.
  split.
  - intros w. split; [done | split; [reflexivity | done]].
  - intros w1 w2 w3 (A1 & A2 & A3) (B1 & B2 & B3). split; [auto | split; [by etrans | auto]].
Qed.

(** A step of the context alone. *)
Lemma routed_context_later w c : routed_fine w -> ctx_evolves (ctx w) c ->
  let t := ro_transport w in
  routed_later w {| w with ro_transport := {| t with tp_context := c |} |}.
Proof.
  intros [[taken Hw] Hok] He t. split; [| split; [reflexivity |]].
  - intros _. split; [| by eapply ctx_evolves_ok]. exists taken. by apply (decided_ok w).
  - intros _ e. by apply ctx_evolves_issued.
Qed.

Lemma transfer_seen_fresh w taken :
  router_ok w taken -> ~ transfer_seen w (frontier (transfer_ids_ (tp_runtime (ro_transport w)))).
Proof.
  intros [Hrt _ _] (c & r & Hr & Hx).
  destruct (to_known _ _ _ (ro_transfers _ _ _ Hrt) c r Hr) as [x Htr]. rewrite Hx in Htr.
  destruct (ro_transfer_ids _ _ _ Hrt) as [_ Hlt]. apply Hlt in Htr. lia.
Qed.

(** A submission registers chunks of its transfer only. *)
Lemma router_submit_later taken request w :
  router_ok w taken -> ctx_ok (ctx w) -> u64 (rq_bytes request) -> u64 (rq_maximum_chunk_bytes request) ->
  wp (router_submit request)
    (fun w' r => routed_later w w' /\
       forall st, r = Some st -> ~ transfer_seen w (st_id st) /\ transfer_seen w' (st_id st))
    (fun _ _ => True) w.
Proof.
  intros Hw Hok Hb Hm. pose proof (router_submit_context taken request w Hw Hok Hb Hm) as Hc.
  pose proof (router_submit_spec taken request w Hw (ctx_now_u64 _ Hok) Hb Hm) as Hs. unfold wp in *. cbv zeta in Hs.
  destruct (router_submit request w) as [w' [r | e]]; [| done]. destruct Hc as [Hc Hl0].
  destruct Hs as (Hw' & _ & _ & _ & decision & _ & _ & Hr).
  assert (routed_fine w') as Hfine by (split; [by exists taken | by eapply ctx_evolves_ok]).
  assert (chunks_advance (chunks_of w) (chunks_of w') -> routed_later w w') as Hl.
  { intros Ha. split; [done | split; [done |]]. intros _ x. by apply ctx_evolves_issued. }
  destruct r as [st |].
  2:{ destruct Hr as (Hrt & _). split; [apply Hl; by rewrite Hrt | done]. }
  destruct Hr as (t1 & _ & Hsub & Hrt & _).
  destruct (submit_transfer_spec taken (routed_request request (rd_path decision)) (ro_transport w) t1 st
    (rok_runtime _ _ Hw) (ctx_now_u64 _ Hok) Hb Hm Hsub) as (t0 & Hsb & _ & Ha2 & _).
  pose proof (sb_advance _ _ _ _ _ _ Hsb) as Ha1.
  split; [apply Hl; rewrite Hrt; by etrans |]. intros st' [= <-]. split.
  - rewrite (sb_transfer _ _ _ _ _ _ Hsb). by eapply transfer_seen_fresh.
  - destruct (sb_record _ _ _ _ _ _ Hsb) as (x & Hx & _).
    pose proof (to_each _ _ _ (ro_transfers _ _ _ (sb_ok _ _ _ _ _ _ Hsb)) _ _ Hx) as Hok1.
    destruct (tf_chunks x) as [| c l] eqn:Hl'; [by destruct (tk_nonempty _ _ _ Hok1) |].
    destruct (proj1 (tk_members _ _ _ Hok1 c)) as (r & Hr & Hrx); [rewrite Hl'; by left |].
    destruct (Ha2 c r Hr) as (r' & Hr' & Hsame & _). exists c, r'. rewrite Hrt. split; [done |].
    destruct Hsame as (? & ? & ?). congruence.
Qed.

#[global] Program Instance routed_fabric_laws : FabricLaws (Routed C) := {
  fab_ok := routed_fine;
  fab_later := routed_later;
  fab_transfer_known := transfer_seen;
  fab_event_known := fun w e => ctx_issued (ctx w) e /\ routed_fine w;
}.
Next Obligation. intros w w' (Hl & _) Hok. by apply Hl. Qed.
Next Obligation.
  intros w w' x (_ & Ha & _) (c & r & Hr & Hx). destruct (Ha c r Hr) as (r' & Hr' & Hsame & _).
  exists c, r'. split; [done |]. destruct Hsame as (? & ? & ?). congruence.
Qed.
Next Obligation. intros w w' e (Hf & _ & Hi) [He Hok]. split; [by apply Hi | by apply Hf]. Qed.
Next Obligation.
  intros spec w Hok Hu. pose proof Hok as [_ Hc]. cbn. unfold with_transport. apply wp_zoom, wp_zoom.
  pose proof (ctx_schedule_law spec _ Hc Hu) as H1. pose proof (ctx_schedule_fresh spec _ Hc Hu) as H2.
  unfold wp in *. destruct (ctx_schedule spec (ctx w)) as [c' [e | e]]; [| done].
  destruct H1 as [He _], H2 as [Hn Hi]. pose proof (routed_context_later w c' Hok He) as Hl.
  split; [exact Hl |]. split; [by intros [? _] |]. split; [done |]. by apply Hl.
Qed.
Next Obligation. intros request w [[taken Hw] Hc] Hb Hm. by eapply router_submit_later. Qed.
Next Obligation.
  intros sink now corr o w Hok. pose proof Hok as [_ Hc]. cbn. unfold with_transport. apply wp_zoom, wp_zoom.
  eapply wp_conseq; [by apply ctx_record_law | | done]. intros c' [] [He _]. by apply routed_context_later.
Qed.
End Laws.

(** ** Completions *)

Lemma completion_honest rt taken cm :
  runtime_ok rt no_extra taken -> cm ∈ taken ++ completions_ rt -> honest cm.
Proof.
  intros Hrt Hin. pose proof (ro_transfers _ _ _ Hrt) as Ht.
  apply (to_log _ _ _ Ht) in Hin as (x & Hx & Hcm). pose proof (to_each _ _ _ Ht _ _ Hx) as Hok.
  pose proof (tk_completion _ _ _ Hok) as Hc. rewrite Hcm in Hc. destruct Hc as [_ Hexp].
  assert (forall c r, c ∈ tf_chunks x -> chunks_ rt !! c = Some r -> 0 <= chunk_bytes (cr_chunk r)) as Hb.
  { intros c r _ Hr. pose proof (to_bytes _ _ _ Ht c r Hr) as Hco. destruct Hco. lia. }
  assert (forall P, traffic_ok (tally P (chunks_ rt) (tf_chunks x)) /\
    traffic_le no_traffic (tally P (chunks_ rt) (tf_chunks x))) as Hword.
  { intros P. pose proof (tally_nonneg _ _ Hb P) as Hn. split; [| done].
    pose proof (tally_sub _ _ Hb P any_state ltac:(done)) as Hle. rewrite <- (tk_total _ _ _ Hok) in Hle.
    pose proof (tk_total_ok _ _ _ Hok) as Hmax. destruct Hn, Hle, Hmax. split; cbn in *; word_lia. }
  pose proof (outcome_all_delivered _ _ _ Hok Hb) as Hout. rewrite tally_terminal in Hout.
  rewrite Hexp. unfold expected_completion. unfold honest. cbn.
  rewrite (tk_delivered _ _ _ Hok), (tk_full _ _ _ Hok), (tk_down _ _ _ Hok) in *.
  split; [apply Hword | split; [apply Hword | split; [apply Hword |]]].
  intros Hsucc%Hout. apply (f_equal tc_bytes) in Hsucc. cbn in Hsucc.
  destruct (Hword is_full) as [_ [N1 _]], (Hword is_down) as [_ [N2 _]]. cbn in N1, N2. lia.
Qed.
