(* ===== verification/CollectiveTheorems.v ===== *)
(** * Theorems on the ring executor

    The steps of an executor over any fabric that keeps the laws, the states
    they reach, and what holds in them. *)

From S2P Require Import Prelude SimTime Entities TelemetryRecords Trace EventQueue SimContext.
From S2P Require Import Simulation SimulationLaws Timing LinkQueue LinkService LinkServiceLaws.
From S2P Require Import Topology TopologyLaws Transport TransportInv TransportReach TransportTheorems.
From S2P Require Import RoutingPaths RoutingPathsLaws RoutingCache RoutingPolicy Router RouterTheorems.
From S2P Require Import CollectivePlan CollectiveRuntime CollectiveLaws CollectiveSteps.
From S2P Require Import CollectiveFabric.

Section Reach.
Context {F : Type} `{FabricLaws F}.
Implicit Types (w : Ring F) (taken : list CollectiveResult).

(** One call that returned; the second component collects the results handed
    out.  The fabric moves on in between. *)
Inductive ring_step : Ring F * list CollectiveResult -> Ring F * list CollectiveResult -> Prop :=
  | ring_step_submit request w taken w' id :
      u64 (cq_bytes request) -> u64 (cq_chunk_bytes request) ->
      ring_submit request w = (w', Ret id) -> ring_step (w, taken) (w', taken)
  | ring_step_local event w taken w' :
      handle_local event w = (w', Ret tt) -> ring_step (w, taken) (w', taken)
  | ring_step_transfer cm w taken w' :
      honest cm -> handle_transfer cm w = (w', Ret tt) -> ring_step (w, taken) (w', taken)
  | ring_step_cancel id w taken w' :
      cancel_collective id w = (w', Ret tt) -> ring_step (w, taken) (w', taken)
  | ring_step_take w taken w' l :
      take_completed w = (w', Ret l) -> ring_step (w, taken) (w', taken ++ l)
  | ring_step_fabric w taken f' :
      fab_later (rg_fabric w) f' -> ring_step (w, taken) ({| w with rg_fabric := f' |}, taken).

Lemma ring_step_ok p p' : ring_step p p' -> executor_ok (snd p) (fst p) -> executor_ok (snd p') (fst p').
Proof.
  intros [request w taken w' id Hb Hc Hr | event w taken w' Hr | cm w taken w' Hh Hr | id w taken w' Hr
    | w taken w' l Hr | w taken f' Hl] Hw; cbn [fst snd] in *.
  - exact (wp_run _ _ _ _ _ _ (ring_submit_spec taken request w Hw Hb Hc) Hr).
  - exact (wp_run _ _ _ _ _ _ (handle_local_spec taken event w Hw) Hr).
  - exact (wp_run _ _ _ _ _ _ (handle_transfer_spec taken cm w Hw Hh) Hr).
  - exact (wp_run _ _ _ _ _ _ (cancel_collective_spec taken id w Hw) Hr).
  - by eapply take_completed_spec.
  - by apply executor_later.
Qed.

Record reachable_ring w taken : Prop := {
  rri_run : exists configuration telemetry x f,
    new_ring_executor configuration telemetry = Ret x /\ fab_ok f /\
    rtc ring_step (mkRing x f, []) (w, taken);
}.

Lemma new_executor_ok configuration telemetry x (f : F) :
  new_ring_executor configuration telemetry = Ret x -> fab_ok f -> executor_ok [] (mkRing x f).
Proof.
  unfold new_ring_executor. destruct (_ || _); [done |]. intros [= <-] Hf. split; [done | | done].
  split; cbn; try done.
  - intros id. rewrite map_size_empty, lookup_empty. split; [by intros [? ?] | lia].
  - split; [apply NoDup_nil_2 |]. intros res. split; [by intros ?%elem_of_nil | by intros (r & ? & _)].
Qed.

Lemma reachable_ring_ok w taken : reachable_ring w taken -> executor_ok taken w.
Proof.
  intros [(configuration & telemetry & x & f & Hn & Hf & Hsteps)].
  pose proof (new_executor_ok _ _ _ _ Hn Hf) as H0'.
  change (executor_ok (snd (w, taken)) (fst (w, taken))). revert H0'.
  change (executor_ok [] (mkRing x f)) with (executor_ok (snd (mkRing x f, @nil CollectiveResult)) (fst (mkRing x f, @nil CollectiveResult))).
  induction Hsteps as [| p1 p2 p3 H12 _ IH]; [done |]. intros H1. by eapply IH, ring_step_ok.
Qed.

(** C8: collectives are accounted for.  In every reachable state the pending
    count of a collective is the number of its transfers and local events under
    way; the bytes delivered and those under way are the bytes issued, unless a
    transfer failed; while it runs, without a failure, exactly the bytes of the
    rounds started so far have been issued; and once it has finished nothing is
    under way, and if it succeeded, all of the volume planned was delivered. *)
Theorem collectives_accounted w taken id r :
  reachable_ring w taken -> rx_records_ (rg_executor w) !! id = Some r ->
  let x := rg_executor w in
  let under_way := owed id (rx_transfers_ x) (rx_locals_ x) in
  co_pending r = entries id (rx_transfers_ x) (rx_locals_ x) /\
  planned r = 2 * (participants r - 1) * cq_bytes (co_request r) /\
  0 <= delivered r /\ delivered r + under_way <= issued r <= planned r /\
  (co_failed r = false -> delivered r + under_way = issued r) /\
  (if co_finished r
   then under_way = 0 /\ (co_phase r = Phase_Succeeded -> delivered r = planned r)
   else 0 < co_pending r /\ position r < 2 * (participants r - 1) /\
        (co_failed r = false -> issued r = (position r + 1) * cq_bytes (co_request r))).
Proof.
  intros [Hok Ht Hs]%reachable_ring_ok Hr. cbv zeta. set (x := rg_executor w) in *.
  pose proof (tb_books _ _ _ _ _ Ht id r Hr) as [B1 B2 B3 B4 B5 (B6 & B7 & B8)].
  split_and!; try done; [lia |]. specialize (Hs id r Hr). unfold settled in Hs. destruct (co_finished r).
  - destruct Hs as (Hp & _ & _ & Hsucc). split; [| done]. rewrite B4 in Hp.
    by eapply no_entries_owed.
  - destruct Hs as [[U1 U2 U3 U4 U5] Hp]. split_and!; [done | | done]. unfold position. case_bool_decide; lia.
Qed.

(** C27: results are reported exactly once.  In every reachable state, the results
    handed out so far followed by those waiting name each collective at most
    once, and are exactly the results of the finished collectives, which no
    longer change; the outcome reported is cancelled, failed or succeeded as the
    record says. *)
Theorem collective_results_once w taken :
  reachable_ring w taken ->
  let log := taken ++ rx_completed_ (rg_executor w) in
  NoDup (cl_id <$> log) /\
  (forall res, res ∈ log <-> exists r, rx_records_ (rg_executor w) !! cl_id res = Some r /\
     co_finished r = true /\ co_result r = res) /\
  (forall res r, res ∈ log -> rx_records_ (rg_executor w) !! cl_id res = Some r ->
     cl_outcome res = final_phase r /\
     (cl_outcome res = Phase_Succeeded -> cl_delivered_bytes res = cl_planned_bytes res)).
Proof.
  intros [Hok Ht Hs]%reachable_ring_ok log. destruct (tb_log _ _ _ _ _ Ht) as [Hnd Hlog].
  split; [done | split; [done |]]. intros res r Hin Hr. apply Hlog in Hin as (r' & Hr' & Hfin & Hres).
  rewrite Hr in Hr'. injection Hr' as <-. specialize (Hs _ _ Hr). unfold settled in Hs. rewrite Hfin in Hs.
  destruct Hs as (_ & Hph & Hout & Hsucc). rewrite <- Hres. split; [congruence |]. rewrite Hout. apply Hsucc.
Qed.

(** Local completions are never stale.  In every reachable state, the event
    that completes a pending local transfer names a known collective, its current
    round and phase, and a rank of it: none of the checks of its handler can
    refuse it. *)
Theorem local_completions_current w taken event l :
  reachable_ring w taken -> rx_locals_ (rg_executor w) !! event = Some l ->
  exists r, rx_records_ (rg_executor w) !! lc_collective (lp_event l) = Some r /\
    negb (co_round r =? lc_round (lp_event l)) ||
    negb (bool_decide (co_phase r = lc_phase (lp_event l))) ||
    (lc_rank (lp_event l) >=? zlength (cq_participants (co_request r))) = false /\
    co_finished r = false.
Proof.
  intros [Hok Ht Hs]%reachable_ring_ok Hl.
  destruct (tb_locals _ _ _ _ _ Ht event l Hl) as (_ & _ & r & rank & Hr & Hrank & ->).
  exists r. cbn. split; [done |]. rewrite Z.eqb_refl, bool_decide_eq_true_2 by done. cbn. split.
  - rewrite Z.geb_leb. apply Z.leb_gt. apply Hrank.
  - specialize (Hs _ _ Hr). unfold settled in Hs. destruct (co_finished r); [| done]. exfalso.
    destruct (entries_local _ _ _ _ _ (tb_transfers _ _ _ _ _ Ht) (tb_locals _ _ _ _ _ Ht) _ event l Hl eq_refl) as [N1 _].
    rewrite (bk_pending _ _ _ _ (tb_books _ _ _ _ _ Ht _ r Hr)) in Hs. lia.
Qed.
End Reach.

(** ** A concrete run *)

(** Two GPUs at the first NIC and one at the second. *)
Definition ring_topology : list GraphOp := clos_topology ++ [OpAddGpu 0; OpAddGpu 0; OpAddGpu 1].

Definition ring_runtime : TransportRuntime :=
  match new_transport_runtime (build ring_topology) (demo_link <$> clos_links) clos_limits false with
  | Ret rt => rt
  | Throw _ => demo_runtime
  end.

Definition ring_routed : Routed (Kernel unit) :=
  mkRouted clos_router (mkTransport ring_runtime (build ring_topology) idle_kernel).

Definition ring_start : Ring (Routed (Kernel unit)) :=
  mkRing (mkRingExecutor default_collective_configuration false 0 0 ∅ ∅ ∅ [] []) ring_routed.

(** All three reduce 90 bytes; then the first GPU alone. *)
Definition ring_request : CollectiveRequest := mkCollectiveRequest [0; 1; 2] 90 50.

Definition ring_first : Ring (Routed (Kernel unit)) := fst (ring_submit ring_request ring_start).

Definition ring_second : Ring (Routed (Kernel unit)) :=
  fst (ring_submit (mkCollectiveRequest [0] 10 5) ring_first).

Lemma ring_router : match new_policy_registry with
  | Ret registry => new_router (build ring_topology) registry clos_configuration false = Ret clos_router
  | Throw _ => False
  end.
Proof. reflexivity. Qed.

Lemma ring_routed_fine : routed_fine ring_routed.
Proof.
  split; [exists [] | apply new_kernel_ok].
  pose proof ring_router as Hr. destruct new_policy_registry as [registry |]; [| destruct Hr].
  enough (routed_ok (ring_routed, [])) as [Hok _] by exact Hok.
  apply (new_router_ok (build ring_topology) ring_runtime registry clos_configuration false clos_router idle_kernel).
  - apply build_ok.
  - unfold u64. vm_compute. split; discriminate.
  - vm_compute. discriminate.
  - unfold path_limits_words, u64, u64_max. cbn. lia.
  - unfold u64, u64_max. cbn. lia.
  - apply (new_transport_runtime_ok (build ring_topology) (demo_link <$> clos_links) clos_limits false).
    + apply Forall_fmap, Forall_true. intros l. apply demo_link_ok.
    + unfold clos_limits, u64, u64_max. cbn. lia.
    + unfold clos_limits, u64, u64_max. cbn. lia.
    + unfold clos_limits, u64, u64_max. cbn. lia.
    + vm_compute. reflexivity.
  - exact Hr.
  - apply baseline_policy_ok.
Qed.

Lemma ring_first_run : ring_submit ring_request ring_start = (ring_first, Ret 0).
Proof. unfold ring_first. refine (run_of_snd (ring_submit ring_request) ring_start _ _). vm_compute. reflexivity. Qed.

Lemma ring_second_run : ring_submit (mkCollectiveRequest [0] 10 5) ring_first = (ring_second, Ret 1).
Proof.
  unfold ring_second. refine (run_of_snd (ring_submit (mkCollectiveRequest [0] 10 5)) ring_first _ _).
  vm_compute. reflexivity.
Qed.

Lemma ring_second_reachable : reachable_ring ring_second [].
Proof.
  constructor. exists default_collective_configuration, false, (rg_executor ring_start), ring_routed.
  split; [reflexivity | split; [exact ring_routed_fine |]]. eapply rtc_l; [| apply rtc_once].
  - eapply ring_step_submit; [| | exact ring_first_run]; unfold u64, u64_max; cbn; lia.
  - eapply ring_step_submit; [| | exact ring_second_run]; unfold u64, u64_max; cbn; lia.
Qed.

Definition ring_record : CollectiveRecord :=
  default (mkCollectiveRecord ring_request (mkCollectiveResult 0 ReduceScatter 0 0 0 0 0 0 "") ReduceScatter
             0 0 false false false)
    (rx_records_ (rg_executor ring_second) !! 0).

Lemma collectives_accounted_witness :
  delivered ring_record + owed 0 (rx_transfers_ (rg_executor ring_second)) (rx_locals_ (rg_executor ring_second)) =
    issued ring_record /\
  co_pending ring_record = 3 /\ cl_issued_fabric_bytes (co_result ring_record) = 60 /\
  cl_issued_local_bytes (co_result ring_record) = 30.
Proof.
  split; [| vm_compute; done].
  assert (rx_records_ (rg_executor ring_second) !! 0 = Some ring_record) as Hr by (vm_compute; reflexivity).
  assert (co_failed ring_record = false) as Hf by (vm_compute; reflexivity).
  destruct (collectives_accounted ring_second [] 0 ring_record ring_second_reachable Hr) as (_ & _ & _ & _ & Hall & _).
  exact (Hall Hf).
Defined.

Lemma collective_results_once_witness :
  NoDup (cl_id <$> [] ++ rx_completed_ (rg_executor ring_second)) /\
  (cl_id <$> rx_completed_ (rg_executor ring_second)) = [1].
Proof.
  split; [| vm_compute; reflexivity]. apply (collective_results_once ring_second [] ring_second_reachable).
Defined.

