(* ===== verification/Scheduling.v ===== *)
(** * GPU scheduling

    Models [scheduling/policy.hpp], [scheduling/inventory.cpp] and
    [scheduling/policy.cpp]: the inventory of GPUs with health and owner, and the
    built-in placement policies.  A [const Resource*] is the resource it points
    to, which nothing changes meanwhile.  [std::sort] is a merge sort: its
    comparators order any two different GPUs, so that the result does not depend
    on the algorithm. *)

From S2P Require Import Prelude SimTime Entities TelemetryRecords Topology.

(** ** Data *)

Record Resource : Type := mkResource {
  res_gpu : GpuId;
  res_rack : RackId;
  res_nic : NicId;
  res_healthy : bool;
  res_owner : option JobId;
}.

(** [ClusterResourceView] is a span over the inventory. *)
Abbreviation ResourceInventory := (list Resource) (only parsing).

Record JobRequest : Type := mkJobRequest {
  jr_job : JobId;
  jr_workers : Z;
  jr_priority : Z;
  jr_pinned : list GpuId;
}.

Inductive PlacementOutcome : Type := Placed | Waiting | Rejected.

Record Placement : Type := mkPlacement {
  pl_outcome : PlacementOutcome;
  pl_workers : list GpuId;
  pl_reason : string;
}.

Record Locality : Type := mkLocality {
  loc_racks : Z;
  loc_nics : Z;
  loc_cross_rack_ring_edges : Z;
}.

(** ** The standard library *)

Definition not_after (before : Resource -> Resource -> bool) (a b : Resource) : Prop := before b a = false.

#[global] Instance not_after_dec before : RelDecision (not_after before).
Proof. intros a b. unfold not_after. apply _. Defined.

(** [std::sort] by a strict order. *)
Definition sort_by (before : Resource -> Resource -> bool) (l : list Resource) : list Resource :=
  merge_sort (not_after before) l.

Definition gpu_before (a b : Resource) : bool := res_gpu a <? res_gpu b.

(** [std::lower_bound]: the first element that is not before [id]. *)
Definition lower_bound (id : GpuId) (gpus : list Resource) : option (nat * Resource) :=
  list_find (fun r => (res_gpu r <? id) = false) gpus.

(** [std::map::emplace] in a loop keeps the first entry of a key. *)
Definition find_resource (id : GpuId) (gpus : list Resource) : option Resource :=
  snd <$> list_find (fun r => res_gpu r = id) gpus.

(** [++counts[key]] in a loop. *)
Definition count_by (key : Resource -> Z) (l : list Resource) : gmap Z Z :=
  foldl (fun counts r => <[key r := default 0 (counts !! key r) + 1]> counts) ∅ l.

(** The keys of a [std::map] in the order of iteration. *)
Definition keys_in_order (m : gmap Z Z) : list Z := merge_sort Z.le (map_to_list m).*1.

(** ** The inventory *)

Definition new_inventory (g : TopologyGraph) : outcome ResourceInventory :=
  if bool_decide (gpus_ g = []) || (zlength (gpus_ g) >? 8192)
  then Throw (length_error "scheduler inventory requires 1..8192 GPUs")
  else Ret (sort_by gpu_before
              ((fun gpu => mkResource (gpu_id gpu) (gpu_rack gpu) (gpu_attached_nic gpu) true None) <$> gpus_ g)).

(** The loop that looks up the indices of the workers. *)
Fixpoint allocation_indices (gpus : ResourceInventory) (unique workers : list GpuId)
    : outcome (list nat) :=
  match workers with
  | [] => Ret []
  | id :: rest =>
      match lower_bound id gpus with
      | None => Throw (invalid_argument "placement contains unavailable or duplicate GPU")
      | Some (index, found) =>
          if negb (res_gpu found =? id) || negb (res_healthy found) || has_value (res_owner found) ||
             bool_decide (id ∈ unique)
          then Throw (invalid_argument "placement contains unavailable or duplicate GPU")
          else match allocation_indices gpus (id :: unique) rest with
               | Throw e => Throw e
               | Ret indices => Ret (index :: indices)
               end
      end
  end.

Definition own (job : JobId) (r : Resource) : Resource := {| r with res_owner := Some job |}.

Definition allocate (job : JobId) (workers : list GpuId) (gpus : ResourceInventory)
    : outcome ResourceInventory :=
  if bool_decide (workers = []) || (zlength workers >? zlength gpus) ||
     existsb (fun r => bool_decide (res_owner r = Some job)) gpus
  then Throw (invalid_argument "invalid or duplicate allocation") else
  match allocation_indices gpus [] workers with
  | Throw e => Throw e
  | Ret indices => Ret (foldl (fun gpus index => alter (own job) index gpus) gpus indices)
  end.

Definition release (job : JobId) (gpus : ResourceInventory) : ResourceInventory :=
  (fun r => if bool_decide (res_owner r = Some job) then {| r with res_owner := None |} else r) <$> gpus.

Definition set_health (gpu : GpuId) (healthy : bool) (gpus : ResourceInventory)
    : outcome (ResourceInventory * option JobId) :=
  match lower_bound gpu gpus with
  | None => Throw (invalid_argument "unknown scheduler GPU")
  | Some (index, found) =>
      if negb (res_gpu found =? gpu) then Throw (invalid_argument "unknown scheduler GPU")
      else Ret (alter (fun r => {| r with res_healthy := healthy |}) index gpus, res_owner found)
  end.

(** ** Measures *)

Definition is_free (r : Resource) : bool := res_healthy r && negb (has_value (res_owner r)).

(** One turn of the loop of [fragmentation]. *)
Definition count_free (st : gmap Z Z * Z * Z) (r : Resource) : gmap Z Z * Z * Z :=
  let '(free, total, largest) := st in
  if is_free r then
    let n := default 0 (free !! res_rack r) + 1 in
    (<[res_rack r := n]> free, total + 1, Z.max largest n)
  else st.

Definition fragmentation (gpus : ResourceInventory) : Z :=
  let '(_, total, largest) := foldl count_free (∅, 0, 0) gpus in u64_wrap (total - largest).

Fixpoint locality_from (gpus : ResourceInventory) (workers : list GpuId) (indices : list nat)
    (racks nics : list Z) (edges : Z) : outcome Locality :=
  match indices with
  | [] => Ret (mkLocality (zlength (remove_dups racks)) (zlength (remove_dups nics)) edges)
  | index :: rest =>
      match workers !! index ≫= fun id => find_resource id gpus,
            workers !! ((index + 1) mod length workers)%nat ≫= fun id => find_resource id gpus with
      | Some gpu, Some next =>
          locality_from gpus workers rest (res_rack gpu :: racks) (res_nic gpu :: nics)
            (if res_rack gpu =? res_rack next then edges else edges + 1)
      | _, _ => Throw (out_of_range "map::at")
      end
  end.

Definition locality (gpus : ResourceInventory) (workers : list GpuId) : outcome Locality :=
  locality_from gpus workers (seq 0 (length workers)) [] [] 0.

(** ** Placement *)

Definition mix (value : Z) : Z :=
  let value := u64_wrap (Z.lxor value (Z.shiftr value 30) * 0xbf58476d1ce4e5b9) in
  let value := u64_wrap (Z.lxor value (Z.shiftr value 27) * 0x94d049bb133111eb) in
  Z.lxor value (Z.shiftr value 31).

(** The loop over the pinned GPUs; [None] for an invalid list. *)
Fixpoint pinned_blocked (gpus : ResourceInventory) (unique : list GpuId) (blocked : bool)
    (ids : list GpuId) : option bool :=
  match ids with
  | [] => Some blocked
  | id :: rest =>
      match find_resource id gpus with
      | None => None
      | Some found =>
          if bool_decide (id ∈ unique) then None
          else pinned_blocked gpus (id :: unique)
                 (blocked || negb (res_healthy found) || has_value (res_owner found)) rest
      end
  end.

Definition pinned (request : JobRequest) (gpus : ResourceInventory) : Placement :=
  match pinned_blocked gpus [] false (jr_pinned request) with
  | None => mkPlacement Rejected [] "invalid pinned GPU list"
  | Some true => mkPlacement Waiting [] "pinned GPUs unavailable"
  | Some false => mkPlacement Placed (jr_pinned request) "pinned rank order"
  end.

(** The comparator of [compact]; every key is counted. *)
Definition compact_before (racks nics : gmap Z Z) (a b : Resource) : bool :=
  let racks_at k := default 0 (racks !! k) in
  let nics_at k := default 0 (nics !! k) in
  if negb (res_rack a =? res_rack b) then
    if negb (racks_at (res_rack a) =? racks_at (res_rack b))
    then racks_at (res_rack a) >? racks_at (res_rack b)
    else res_rack a <? res_rack b
  else if negb (res_nic a =? res_nic b) then
    if negb (nics_at (res_nic a) =? nics_at (res_nic b))
    then nics_at (res_nic a) >? nics_at (res_nic b)
    else res_nic a <? res_nic b
  else res_gpu a <? res_gpu b.

Definition compact (free : list Resource) : list Resource :=
  sort_by (compact_before (count_by res_rack free) (count_by res_nic free)) free.

(** [std::stable_partition] *)
Definition stable_partition (f : Resource -> bool) (l : list Resource) : list Resource :=
  List.filter f l ++ List.filter (fun r => negb (f r)) l.

Definition rack_local (free : list Resource) (count : Z) : list Resource :=
  let racks := count_by res_rack free in
  match list_find (fun rack => count <= default 0 (racks !! rack)) (keys_in_order racks) with
  | Some (_, rack) => stable_partition (fun gpu => res_rack gpu =? rack) free
  | None => free
  end.

Definition random_score (seed : Z) (request : JobRequest) (id : GpuId) : Z :=
  mix (Z.lxor (Z.lxor seed (mix (u64_wrap (jr_job request + 0x9e3779b97f4a7c15)))) (mix id)).

Definition random_before (seed : Z) (request : JobRequest) (a b : Resource) : bool :=
  let left := random_score seed request (res_gpu a) in
  let right := random_score seed request (res_gpu b) in
  if negb (left =? right) then left <? right else res_gpu a <? res_gpu b.

(** [BuiltinPolicy] is its name and seed. *)
Record BuiltinPolicy : Type := mkBuiltinPolicy { bp_name : string; bp_seed : Z }.

Definition order (policy : BuiltinPolicy) (free : list Resource) (request : JobRequest) : list Resource :=
  let free := sort_by gpu_before free in
  if bool_decide (bp_name policy = "random"%string) then sort_by (random_before (bp_seed policy) request) free
  else if bool_decide (bp_name policy = "rack-local"%string) then rack_local free (jr_workers request)
  else if bool_decide (bp_name policy = "compact"%string) then compact free
  else free.

Definition place (policy : BuiltinPolicy) (request : JobRequest) (gpus : ResourceInventory) : Placement :=
  if (jr_workers request =? 0) || (jr_workers request >? zlength gpus) ||
     (negb (bool_decide (jr_pinned request = [])) && negb (zlength (jr_pinned request) =? jr_workers request))
  then mkPlacement Rejected [] "request exceeds physical capacity or has invalid dimensions" else
  if negb (bool_decide (jr_pinned request = [])) then pinned request gpus else
  let free := List.filter is_free gpus in
  if zlength free <? jr_workers request then mkPlacement Waiting [] "insufficient free healthy GPUs" else
  mkPlacement Placed (res_gpu <$> take (Z.to_nat (jr_workers request)) (order policy free request))
    (bp_name policy +:+ " deterministic rank order")%string.

Definition make_policy (name : string) (seed : Z) : outcome BuiltinPolicy :=
  if negb (bool_decide (name = "first-fit"%string)) && negb (bool_decide (name = "random"%string)) &&
     negb (bool_decide (name = "rack-local"%string)) && negb (bool_decide (name = "compact"%string))
  then Throw (invalid_argument "unknown scheduling policy")
  else Ret (mkBuiltinPolicy name seed).
