(* ===== verification/SchedulingLaws.v ===== *)
(** * What the scheduler promises

    Allocation refines an assignment of GPUs to jobs, and placements are exactly
    what allocation accepts. *)

From S2P Require Import Prelude SimTime Entities TelemetryRecords Topology TopologyLaws Scheduling.

(** ** Inventories *)

Lemma strongly_sorted_lookup {A} (R : A -> A -> Prop) (l : list A) i j x y :
  StronglySorted R l -> l !! i = Some x -> l !! j = Some y -> (i < j)%nat -> R x y.
Proof.
  intros Hs. revert i j. induction Hs as [| z l Hs IH Hall]; intros i j Hi Hj Hlt; [done |].
  destruct j as [| j]; [lia |]. destruct i as [| i]; cbn in Hi, Hj.
  - injection Hi as ->. rewrite Forall_forall in Hall. apply Hall. by eapply list_elem_of_lookup_2.
  - apply (IH i j); try done. lia.
Qed.

Section Inventory.
Implicit Types (gpus : list Resource) (r : Resource) (job : JobId) (id : GpuId).

(** Sorted by identifier, without duplicates. *)
Definition inventory_ok gpus : Prop := StronglySorted Z.lt (res_gpu <$> gpus).

Lemma inventory_lt gpus i j r s : inventory_ok gpus ->
  gpus !! i = Some r -> gpus !! j = Some s -> (i < j)%nat -> res_gpu r < res_gpu s.
Proof.
  intros Hok Hi Hj. apply (strongly_sorted_lookup Z.lt _ _ _ _ _ Hok); by apply list_lookup_fmap_Some_2.
Qed.

Lemma inventory_inj gpus i j r s : inventory_ok gpus ->
  gpus !! i = Some r -> gpus !! j = Some s -> res_gpu r = res_gpu s -> i = j.
Proof.
  intros Hok Hi Hj Heq. destruct (Nat.lt_trichotomy i j) as [Hlt | [-> | Hlt]]; [| done |].
  - pose proof (inventory_lt gpus i j r s Hok Hi Hj Hlt). lia.
  - pose proof (inventory_lt gpus j i s r Hok Hj Hi Hlt). lia.
Qed.

Lemma inventory_NoDup gpus : inventory_ok gpus -> NoDup (res_gpu <$> gpus).
Proof.
  intros Hok. apply NoDup_alt. intros i j x Hi Hj.
  apply list_lookup_fmap_Some in Hi as (r & -> & Hr). apply list_lookup_fmap_Some in Hj as (s & Heq & Hs).
  by apply (inventory_inj gpus i j r s).
Qed.

(** The binary search finds a GPU that is there. *)
Lemma lower_bound_known gpus i r : inventory_ok gpus -> gpus !! i = Some r ->
  lower_bound (res_gpu r) gpus = Some (i, r).
Proof.
  intros Hok Hi. apply list_find_Some. split; [done | split; [apply Z.ltb_ge; lia |]].
  intros j s Hj Hlt. pose proof (inventory_lt gpus j i s r Hok Hj Hi Hlt) as H. intros Hf%Z.ltb_ge. lia.
Qed.

Lemma lower_bound_inv gpus id i r : lower_bound id gpus = Some (i, r) -> gpus !! i = Some r.
Proof. intros H. by apply list_find_Some in H as [? _]. Qed.

Lemma find_resource_known gpus id r : inventory_ok gpus ->
  find_resource id gpus = Some r <-> r ∈ gpus /\ res_gpu r = id.
Proof.
  intros Hok. unfold find_resource. rewrite fmap_Some. split.
  - intros ([i s] & (Hi & <- & _)%list_find_Some & ->). split; [by eapply list_elem_of_lookup_2 | done].
  - intros [(i & Hi)%list_elem_of_lookup <-]. exists (i, r). split; [| done]. apply list_find_Some.
    split; [done | split; [done |]]. intros j s Hj Hlt Heq.
    pose proof (inventory_lt gpus j i s r Hok Hj Hi Hlt). lia.
Qed.

(** ** Allocation *)

(** The GPU is known, healthy and free. *)
Definition available gpus id : Prop := exists r, r ∈ gpus /\ res_gpu r = id /\ is_free r = true.

Lemma is_free_spec r : is_free r = true <-> res_healthy r = true /\ res_owner r = None.
Proof.
  unfold is_free, has_value. rewrite andb_true_iff, negb_true_iff, bool_decide_eq_false, <- eq_None_not_Some. done.
Qed.

Lemma allocation_indices_spec gpus unique workers : inventory_ok gpus ->
  match allocation_indices gpus unique workers with
  | Ret indices => NoDup workers /\ (forall id, id ∈ workers -> id ∉ unique) /\
      Forall2 (fun id i => exists r, gpus !! i = Some r /\ res_gpu r = id /\ is_free r = true) workers indices
  | Throw _ => ~ (NoDup workers /\ (forall id, id ∈ workers -> id ∉ unique) /\
      forall id, id ∈ workers -> available gpus id)
  end.
Proof.
  intros Hok. revert unique. induction workers as [| id workers IH]; intros unique; cbn [allocation_indices].
  { split; [constructor | split; [by intros id ?%elem_of_nil | constructor]]. }
  assert (forall e, (forall i r, lower_bound id gpus = Some (i, r) ->
      ~ (res_gpu r = id /\ is_free r = true /\ id ∉ unique)) ->
    match (Throw e : outcome (list nat)) with
    | Ret _ => False
    | Throw _ => ~ (NoDup (id :: workers) /\ (forall id0, id0 ∈ id :: workers -> id0 ∉ unique) /\
        forall id0, id0 ∈ id :: workers -> available gpus id0)
    end) as Hno.
  { intros e Hf (_ & Hu & Hav). destruct (Hav id ltac:(left)) as (r & (i & Hi)%list_elem_of_lookup & <- & Hfree).
    apply (Hf i r); [by apply lower_bound_known |]. split_and!; try done. apply Hu. by left. }
  destruct (lower_bound id gpus) as [[i r] |] eqn:Hlb; [| by apply (Hno (invalid_argument ""))].
  destruct (_ || _) eqn:Hg.
  { apply (Hno (invalid_argument "")). intros i' r' [= <- <-] (H1 & H2%is_free_spec & H3). destruct H2 as [H2 H4].
    rewrite H1, Z.eqb_refl, H2, H4, bool_decide_eq_false_2 in Hg by done. done. }
  apply orb_false_iff in Hg as [[[G1 G2]%orb_false_iff G3]%orb_false_iff G4%bool_decide_eq_false].
  apply negb_false_iff, Z.eqb_eq in G1. apply negb_false_iff in G2.
  assert (is_free r = true) as Hfree by (unfold is_free; by rewrite G2, G3).
  specialize (IH (id :: unique)). destruct (allocation_indices gpus (id :: unique) workers) as [indices | e].
  - destruct IH as (Hnd & Hu & Hall). split; [| split].
    + apply NoDup_cons. split; [| done]. intros Hin. apply (Hu id Hin). by left.
    + intros id' [-> | Hin]%elem_of_cons; [done |]. intros Hx. apply (Hu id' Hin). by right.
    + constructor; [| done]. exists r. split; [by eapply lower_bound_inv | done].
  - intros (Hnd & Hu & Hav). apply NoDup_cons in Hnd as [Hn Hnd]. apply IH. split; [done | split].
    + intros id' Hin [-> | Hx]%elem_of_cons; [done |]. apply (Hu id'); [by right | done].
    + intros id' Hin. apply Hav. by right.
Qed.

Lemma own_all job indices gpus j :
  foldl (fun gpus index => alter (own job) index gpus) gpus indices !! j =
  (fun r => if bool_decide (j ∈ indices) then own job r else r) <$> gpus !! j.
Proof.
  revert gpus. induction indices as [| i indices IH]; intros gpus; cbn [foldl].
  - rewrite bool_decide_eq_false_2 by apply not_elem_of_nil. by destruct (gpus !! j).
  - rewrite IH. destruct (decide (i = j)) as [-> | Hne].
    + rewrite list_lookup_alter_eq. rewrite (bool_decide_eq_true_2 (j ∈ j :: indices)) by left.
      destruct (gpus !! j) as [r |]; [| done]. cbn. f_equal. by case_bool_decide.
    + rewrite list_lookup_alter_ne by done. destruct (gpus !! j); [| done]. cbn. f_equal.
      destruct (decide (j ∈ indices)) as [Hin | Hin].
      * rewrite !bool_decide_eq_true_2; [done | by right | done].
      * rewrite !bool_decide_eq_false_2; [done | | done]. intros [? | ?]%elem_of_cons; congruence.
Qed.

(** What an allocation needs. *)
Definition allocatable gpus job (workers : list GpuId) : Prop :=
  workers <> [] /\ NoDup workers /\ (forall id, id ∈ workers -> available gpus id) /\
  (forall r, r ∈ gpus -> res_owner r <> Some job).

Definition assign job (workers : list GpuId) gpus : list Resource :=
  (fun r => if bool_decide (res_gpu r ∈ workers) then own job r else r) <$> gpus.

Lemma allocate_spec gpus job workers : inventory_ok gpus ->
  match allocate job workers gpus with
  | Ret gpus' => allocatable gpus job workers /\ gpus' = assign job workers gpus
  | Throw _ => ~ allocatable gpus job workers
  end.
Proof.
  intros Hok. unfold allocate. destruct (_ || _) eqn:Hg.
  { intros (Hne & Hnd & Hav & Hjob). apply orb_true_iff in Hg as [[Hg%bool_decide_eq_true | Hg]%orb_true_iff | Hg]; [done | |].
    - assert (length workers <= length (res_gpu <$> gpus))%nat as Hle.
      { apply submseteq_length, NoDup_submseteq; [done |]. intros id (r & Hr & <- & _)%Hav.
        apply list_elem_of_fmap. eauto. }
      rewrite length_fmap in Hle. unfold zlength in Hg. lia.
    - apply existsb_exists in Hg as (r & Hr%list_elem_of_In & Ho%bool_decide_eq_true). by apply (Hjob r). }
  apply orb_false_iff in Hg as [[Hne%bool_decide_eq_false _]%orb_false_iff Hjob].
  assert (forall r, r ∈ gpus -> res_owner r <> Some job) as Hfree.
  { intros r Hr Ho. assert (existsb (fun r => bool_decide (res_owner r = Some job)) gpus = true); [| congruence].
    apply existsb_exists. exists r. split; [by apply list_elem_of_In | by apply bool_decide_eq_true]. }
  pose proof (allocation_indices_spec gpus [] workers Hok) as Hi.
  destruct (allocation_indices gpus [] workers) as [indices | e].
  2:{ intros (_ & Hnd & Hav & _). apply Hi. split; [done | split; [| done]]. intros id _. apply not_elem_of_nil. }
  destruct Hi as (Hnd & _ & Hall). split.
  - split; [done | split; [done | split; [| done]]]. intros id (k & Hk)%list_elem_of_lookup.
    destruct (Forall2_lookup_l _ _ _ _ _ Hall Hk) as (i & _ & r & Hr & <- & Hf).
    exists r. split; [by eapply list_elem_of_lookup_2 | done].
  - apply list_eq. intros j. rewrite own_all. unfold assign. rewrite list_lookup_fmap.
    destruct (gpus !! j) as [r |] eqn:Hj; [| done]. cbn. f_equal.
    assert (j ∈ indices <-> res_gpu r ∈ workers) as Hiff.
    { split; intros (k & Hk)%list_elem_of_lookup.
      - destruct (Forall2_lookup_r _ _ _ _ _ Hall Hk) as (id & Hid & s & Hs & <- & _).
        rewrite Hj in Hs. injection Hs as <-. by eapply list_elem_of_lookup_2.
      - destruct (Forall2_lookup_l _ _ _ _ _ Hall Hk) as (i & Hii & s & Hs & Heq & _).
        rewrite (inventory_inj gpus j i r s Hok Hj Hs) by done. by eapply list_elem_of_lookup_2. }
    destruct (decide (j ∈ indices)) as [Hin | Hin].
    + rewrite !bool_decide_eq_true_2; [done | by apply Hiff | done].
    + rewrite !bool_decide_eq_false_2; [done | by rewrite <- Hiff | done].
Qed.
End Inventory.

(** ** Placement *)

Section Placement.
Implicit Types (gpus free : list Resource) (r : Resource) (request : JobRequest).

Lemma sort_by_perm before free : sort_by before free ≡ₚ free.
Proof. apply merge_sort_Permutation. Qed.

Lemma stable_partition_perm f free : stable_partition f free ≡ₚ free.
Proof.
  unfold stable_partition. induction free as [| r free IH]; [done |]. cbn [List.filter].
  destruct (f r); cbn [negb app]; [by rewrite IH |]. rewrite <- Permutation_middle. by rewrite IH.
Qed.

Lemma order_perm policy free request : order policy free request ≡ₚ free.
Proof.
  unfold order. destruct (bool_decide _); [by rewrite !sort_by_perm |]. destruct (bool_decide _).
  - unfold rack_local. destruct (list_find _ _) as [[i rack] |]; [by rewrite stable_partition_perm, sort_by_perm |].
    apply sort_by_perm.
  - destruct (bool_decide _); [unfold compact |]; by rewrite ?sort_by_perm.
Qed.

Lemma elem_of_free gpus r : r ∈ List.filter is_free gpus <-> r ∈ gpus /\ is_free r = true.
Proof. rewrite !list_elem_of_In. apply filter_In. Qed.

#[global] Instance filter_proper {A} (f : A -> bool) : Proper ((≡ₚ) ==> (≡ₚ)) (List.filter f).
Proof.
  intros l1 l2 Hp. induction Hp as [| x l1 l2 _ IH | x y l | l1 l2 l3 _ IH1 _ IH2]; cbn [List.filter]; [done | | |].
  - destruct (f x); [by f_equiv | done].
  - destruct (f x), (f y); try done. apply Permutation_swap.
  - by etrans.
Qed.

(** The GPUs that are healthy and free. *)
Definition free_count gpus : Z := zlength (List.filter is_free gpus).

Lemma filter_fmap_sublist {A B} (g : A -> B) (f : A -> bool) (l : list A) :
  g <$> List.filter f l `sublist_of` g <$> l.
Proof.
  induction l as [| x l IH]; cbn [List.filter]; [done |]. destruct (f x); rewrite !fmap_cons;
    [by apply sublist_skip | by apply sublist_cons].
Qed.

(** A selection of free GPUs. *)
Lemma selection_available gpus n l : inventory_ok gpus -> l ≡ₚ List.filter is_free gpus ->
  NoDup (res_gpu <$> take n l) /\ forall id, id ∈ res_gpu <$> take n l -> available gpus id.
Proof.
  intros Hok Hl. split.
  - apply (sublist_NoDup _ (res_gpu <$> l)).
    + rewrite Hl. eapply sublist_NoDup; [by apply inventory_NoDup | apply filter_fmap_sublist].
    + rewrite fmap_take. apply sublist_take.
  - intros id (r & -> & (i & Hi & _)%elem_of_take)%list_elem_of_fmap. exists r.
    assert (r ∈ List.filter is_free gpus) as Hin by (rewrite <- Hl; by eapply list_elem_of_lookup_2).
    apply elem_of_free in Hin as [? ?]. done.
Qed.

Lemma pinned_blocked_spec gpus unique blocked ids : inventory_ok gpus ->
  let valid := NoDup ids /\ (forall id, id ∈ ids -> id ∉ unique) /\
               (forall id, id ∈ ids -> exists r, r ∈ gpus /\ res_gpu r = id) in
  match pinned_blocked gpus unique blocked ids with
  | None => ~ valid
  | Some b => valid /\ (b = false <-> blocked = false /\ forall id, id ∈ ids -> available gpus id)
  end.
Proof.
  intros Hok. revert unique blocked. induction ids as [| id ids IH]; intros unique blocked; cbn [pinned_blocked].
  { split; [split; [constructor |]; split; by intros id ?%elem_of_nil |].
    split; [intros ->; split; [done |]; by intros id ?%elem_of_nil | by intros [? _]]. }
  destruct (find_resource id gpus) as [found |] eqn:Hf.
  2:{ intros (_ & _ & Hall). destruct (Hall id ltac:(left)) as (r & Hr & Hid).
      by rewrite (proj2 (find_resource_known gpus id r Hok)) in Hf. }
  apply (find_resource_known gpus id found Hok) in Hf as [Hin Hid]. case_bool_decide as Hu.
  { intros (_ & Hdis & _). by apply (Hdis id ltac:(left)). }
  set (busy := blocked || negb (res_healthy found) || has_value (res_owner found)).
  specialize (IH (id :: unique) busy). cbv zeta in IH.
  assert (NoDup (id :: ids) /\ (forall x, x ∈ id :: ids -> x ∉ unique) /\
      (forall x, x ∈ id :: ids -> exists r, r ∈ gpus /\ res_gpu r = x) <->
    NoDup ids /\ (forall x, x ∈ ids -> x ∉ id :: unique) /\
      (forall x, x ∈ ids -> exists r, r ∈ gpus /\ res_gpu r = x)) as Hiff.
  { rewrite NoDup_cons. setoid_rewrite not_elem_of_cons. setoid_rewrite elem_of_cons. split.
    - intros ([Hn Hnd] & Hd & Hk). split_and!; try done; [| by auto]. intros x Hx. split; [by intros -> | auto].
    - intros (Hnd & Hd & Hk). split; [split; [intros Hx; by destruct (Hd id Hx) | done] |].
      split; intros x [-> | Hx]; eauto. apply (Hd x Hx). }
  destruct (pinned_blocked gpus (id :: unique) busy ids) as [b |]; [| by rewrite Hiff].
  destruct IH as [Hv Hb]. rewrite Hiff. split; [done |]. rewrite Hb.
  assert (busy = false <-> blocked = false /\ available gpus id) as ->.
  { unfold busy. rewrite !orb_false_iff, negb_false_iff. split.
    - intros [[-> Hh] Ho]. split; [done |]. exists found. unfold is_free. by rewrite Hh, Ho.
    - intros [-> (r & Hr & Hid' & Hfr)].
      assert (find_resource id gpus = Some r) as E1 by (by apply find_resource_known).
      assert (find_resource id gpus = Some found) as E2 by (by apply find_resource_known).
      rewrite E1 in E2. injection E2 as ->. unfold is_free in Hfr. apply andb_true_iff in Hfr as [Hh Ho%negb_true_iff]. done. }
  setoid_rewrite elem_of_cons. split; [intros [[? ?] ?]; split; [done |]; intros x [-> | ?]; auto | intros [? ?]; auto].
Qed.

(** The dimensions of a request fit the cluster. *)
Definition fits gpus request : Prop :=
  0 < jr_workers request <= zlength gpus /\
  (jr_pinned request <> [] -> zlength (jr_pinned request) = jr_workers request).

(** The pinned GPUs, if any, are different GPUs of the cluster. *)
Definition pinned_known gpus request : Prop :=
  NoDup (jr_pinned request) /\ forall id, id ∈ jr_pinned request -> exists r, r ∈ gpus /\ res_gpu r = id.

(** The request can be met now. *)
Definition satisfiable gpus request : Prop :=
  match jr_pinned request with
  | [] => jr_workers request <= free_count gpus
  | ids => forall id, id ∈ ids -> available gpus id
  end.

Lemma place_spec policy request gpus : inventory_ok gpus -> 0 <= jr_workers request ->
  let p := place policy request gpus in
  match pl_outcome p with
  | Placed => fits gpus request /\ pinned_known gpus request /\ satisfiable gpus request /\
      zlength (pl_workers p) = jr_workers request /\ NoDup (pl_workers p) /\
      (forall id, id ∈ pl_workers p -> available gpus id) /\
      (jr_pinned request <> [] -> pl_workers p = jr_pinned request)
  | Waiting => fits gpus request /\ pinned_known gpus request /\ ~ satisfiable gpus request /\ pl_workers p = []
  | Rejected => ~ (fits gpus request /\ pinned_known gpus request) /\ pl_workers p = []
  end.
Proof.
  intros Hok Hw0. unfold place. destruct (_ || _) eqn:Hg; cbv zeta.
  { cbn [pl_outcome pl_workers]. split; [| done]. intros [[Hw Hp] _].
    apply orb_true_iff in Hg as [Hg | [Hne%negb_true_iff%bool_decide_eq_false Hl%negb_true_iff%Z.eqb_neq]%andb_true_iff]; [lia |].
    by apply Hl, Hp. }
  apply orb_false_iff in Hg as [[G1 G2]%orb_false_iff G3].
  assert (fits gpus request) as Hfits.
  { split; [lia |]. intros Hne. rewrite bool_decide_eq_false_2 in G3 by done. cbn in G3. lia. }
  case_bool_decide as Hpin; cbn [negb].
  - assert (pinned_known gpus request) as Hk.
    { unfold pinned_known. rewrite Hpin. split; [constructor | by intros id ?%elem_of_nil]. }
    unfold satisfiable. rewrite Hpin. unfold free_count. destruct (_ <? _) eqn:Hlt; cbn [pl_outcome pl_workers].
    { split_and!; try done; try apply Hfits; try apply Hk. lia. }
    pose proof (order_perm policy (List.filter is_free gpus) request) as Hperm.
    destruct (selection_available gpus (Z.to_nat (jr_workers request)) _ Hok Hperm) as [Hnd Hav].
    split; [done | split; [done | split; [lia | split; [| done]]]].
    rewrite zlength_fmap. unfold zlength in *. rewrite length_take, Hperm. lia.
  - unfold pinned. pose proof (pinned_blocked_spec gpus [] false (jr_pinned request) Hok) as Hb. cbv zeta in Hb.
    assert (satisfiable gpus request <-> forall id, id ∈ jr_pinned request -> available gpus id) as Hsat.
    { unfold satisfiable. by destruct (jr_pinned request). }
    destruct (pinned_blocked _ _ _ _) as [[|] |]; cbn [pl_outcome pl_workers].
    + destruct Hb as [(Hnd & _ & Hk) Hb]. split; [done | split; [done | split; [| done]]].
      rewrite Hsat. intros Hall. assert (true = false) by (by apply Hb). done.
    + destruct Hb as [(Hnd & _ & Hk) [Hb _]]. destruct (Hb eq_refl) as [_ Hav].
      split; [done | split; [done | split; [by apply Hsat |]]]. split; [by apply Hfits | done].
    + split; [| done]. intros [_ [Hnd Hk]]. apply Hb. split; [done | split; [| done]].
      intros id _. apply not_elem_of_nil.
Qed.
End Placement.
