(* ===== verification/SchedulingTheorems.v ===== *)
(** * Theorems on the scheduler

    The inventories the program can have, and what allocation, placement and the
    rack-local policy do on them. *)

From S2P Require Import Prelude SimTime Entities TelemetryRecords Topology TopologyLaws Scheduling.
From S2P Require Import SchedulingLaws.

(** ** Reachable inventories *)

Implicit Types (gpus : list Resource) (job : JobId) (request : JobRequest).

Inductive inventory_step gpus : list Resource -> Prop :=
  | step_allocate job workers gpus' : allocate job workers gpus = Ret gpus' -> inventory_step gpus gpus'
  | step_release job : inventory_step gpus (release job gpus)
  | step_health gpu healthy gpus' owner :
      set_health gpu healthy gpus = Ret (gpus', owner) -> inventory_step gpus gpus'.

Definition reachable_inventory gpus : Prop :=
  exists ops start, new_inventory (build ops) = Ret start /\ rtc inventory_step start gpus.

Lemma same_gpus_ok gpus gpus' : (res_gpu <$> gpus') = (res_gpu <$> gpus) -> inventory_ok gpus -> inventory_ok gpus'.
Proof. unfold inventory_ok. by intros ->. Qed.

Lemma alter_gpus (f : Resource -> Resource) i gpus :
  (forall r, res_gpu (f r) = res_gpu r) -> (res_gpu <$> alter f i gpus) = (res_gpu <$> gpus).
Proof.
  intros Hf. apply list_eq. intros j. rewrite !list_lookup_fmap. destruct (decide (i = j)) as [-> | Hne].
  - rewrite list_lookup_alter_eq. destruct (gpus !! j); [cbn; by rewrite Hf | done].
  - by rewrite list_lookup_alter_ne.
Qed.

Lemma inventory_step_ok gpus gpus' : inventory_step gpus gpus' -> inventory_ok gpus -> inventory_ok gpus'.
Proof.
  intros [job workers gpus1 Hr | job | gpu healthy gpus1 owner Hr] Hok; apply (same_gpus_ok gpus); try done.
  - pose proof (allocate_spec gpus job workers Hok) as Hs. rewrite Hr in Hs. destruct Hs as [_ ->].
    unfold assign. rewrite <- list_fmap_compose. apply list_fmap_ext. intros i r _. cbn. by destruct (bool_decide _).
  - unfold release. rewrite <- list_fmap_compose. apply list_fmap_ext. intros i r _. cbn. by destruct (bool_decide _).
  - unfold set_health in Hr. destruct (lower_bound gpu gpus) as [[i r] |]; [| done].
    destruct (negb _); [done |]. injection Hr as <- _. by apply alter_gpus.
Qed.

(** Different identifiers in ascending order. *)
Lemma sorted_strict (l : list Z) : Sorted Z.le l -> NoDup l -> StronglySorted Z.lt l.
Proof.
  intros Hs Hnd. apply Sorted_StronglySorted in Hs; [| intros x y z; lia].
  induction Hs as [| x l Hs IH Hall]; [constructor |]. apply NoDup_cons in Hnd as [Hx Hnd].
  constructor; [by apply IH |]. rewrite Forall_forall in *. intros y Hy. specialize (Hall y Hy).
  assert (x <> y) by (by intros ->). lia.
Qed.

Lemma sort_by_gpu_sorted (l : list Resource) : Sorted Z.le (res_gpu <$> sort_by gpu_before l).
Proof.
  assert (Sorted (not_after gpu_before) (sort_by gpu_before l)) as Hs.
  { apply Sorted_merge_sort. intros a b. unfold not_after, gpu_before. destruct (Z.ltb_spec (res_gpu b) (res_gpu a));
      [right; apply Z.ltb_ge; lia | by left]. }
  induction Hs as [| r l' Hs IH Hhd]; [constructor |]. rewrite fmap_cons. constructor; [done |].
  destruct Hhd as [| r' l'' Hle]; [constructor |]. rewrite fmap_cons. constructor.
  unfold not_after, gpu_before in Hle. apply Z.ltb_ge in Hle. done.
Qed.

Lemma new_inventory_ok ops gpus : new_inventory (build ops) = Ret gpus -> inventory_ok gpus.
Proof.
  unfold new_inventory. destruct (_ || _); [done |]. intros [= <-]. unfold inventory_ok.
  apply sorted_strict; [apply sort_by_gpu_sorted |]. rewrite sort_by_perm, <- list_fmap_compose.
  destruct (gv_gpus _ (go_vectors _ (build_ok ops))) as [_ Hd].
  apply NoDup_alt. intros i j x Hi Hj.
  apply list_lookup_fmap_Some in Hi as (g1 & -> & Hg1), Hj as (g2 & Heq & Hg2). cbn in Heq.
  rewrite (Hd i g1 Hg1), (Hd j g2 Hg2) in Heq. lia.
Qed.

Lemma reachable_inventory_ok gpus : reachable_inventory gpus -> inventory_ok gpus.
Proof.
  intros (ops & start & Hn & Hs). apply new_inventory_ok in Hn. induction Hs as [| g1 g2 g3 H12 _ IH]; [done |].
  by apply IH, (inventory_step_ok g1).
Qed.

(** ** The rack-local policy *)

Definition in_rack (rack : RackId) (r : Resource) : bool := res_rack r =? rack.

(** The free healthy GPUs of a rack. *)
Definition rack_free (rack : RackId) gpus : Z := zlength (List.filter (in_rack rack) (List.filter is_free gpus)).

Lemma count_by_rack (l : list Resource) rack :
  default 0 (count_by res_rack l !! rack) = zlength (List.filter (in_rack rack) l) /\
  (is_Some (count_by res_rack l !! rack) <-> exists r, r ∈ l /\ res_rack r = rack).
Proof.
  induction l as [| r l IH] using rev_ind.
  - cbn. split; [done |]. split; [by intros [? ?] | by intros (r & ?%elem_of_nil & _)].
  - unfold count_by in *. rewrite foldl_app. cbn [foldl]. set (m := foldl _ ∅ l) in *. destruct IH as [IH1 IH2].
    rewrite List.filter_app, zlength_app. cbn [List.filter]. unfold in_rack at 2.
    destruct (decide (res_rack r = rack)) as [<- | Hne].
    + rewrite lookup_insert_eq, Z.eqb_refl. cbn [default from_option id]. rewrite IH1. split; [done |].
      split; [intros _ | by eauto]. exists r. split; [| done]. apply elem_of_app. right. by left.
    + rewrite lookup_insert_ne by done. rewrite (proj2 (Z.eqb_neq _ _) Hne). rewrite IH1, Z.add_0_r. split; [done |].
      rewrite IH2. split.
      * intros (r' & Hr & Hk). exists r'. rewrite elem_of_app. by auto.
      * intros (r' & [Hr | ->%list_elem_of_singleton]%elem_of_app & Hk); [eauto | done].
Qed.

Lemma keys_in_order_spec (m : gmap Z Z) :
  Sorted Z.le (keys_in_order m) /\ forall k, k ∈ keys_in_order m <-> is_Some (m !! k).
Proof.
  unfold keys_in_order. split; [apply Sorted_merge_sort; intros x y; lia |].
  intros k. rewrite merge_sort_Permutation, list_elem_of_fmap. split.
  - intros ([k' v] & -> & Hk%elem_of_map_to_list). eauto.
  - intros [v Hv]. exists (k, v). split; [done | by apply elem_of_map_to_list].
Qed.

(** The least rack with room takes the whole job. *)
Lemma rack_local_spec free count :
  0 < count -> (exists rack, count <= zlength (List.filter (in_rack rack) free)) ->
  exists rack, count <= zlength (List.filter (in_rack rack) free) /\
    (forall rack', count <= zlength (List.filter (in_rack rack') free) -> rack <= rack') /\
    rack_local free count = stable_partition (in_rack rack) free.
Proof.
  intros Hc (rack0 & H0). unfold rack_local. destruct (keys_in_order_spec (count_by res_rack free)) as [Hs Hk].
  assert (forall rack, count <= zlength (List.filter (in_rack rack) free) ->
    rack ∈ keys_in_order (count_by res_rack free) /\ count <= default 0 (count_by res_rack free !! rack)) as Hfind.
  { intros rack Hr. destruct (count_by_rack free rack) as [E1 E2]. rewrite E1. split; [| done].
    apply Hk, E2. destruct (List.filter (in_rack rack) free) as [| r l] eqn:Hf; [unfold zlength in Hr; cbn in Hr; lia |].
    exists r. assert (r ∈ List.filter (in_rack rack) free) as Hin by (rewrite Hf; by left).
    apply list_elem_of_In, filter_In in Hin as [Hin Heq%Z.eqb_eq]. split; [by apply list_elem_of_In | done]. }
  destruct (list_find _ _) as [[i rack] |] eqn:Hlf.
  - apply list_find_Some in Hlf as (Hi & Hr & Hmin). exists rack. destruct (count_by_rack free rack) as [E1 _].
    rewrite E1 in Hr. split; [done | split; [| done]]. intros rack' Hr'. destruct (Hfind rack' Hr') as [(j & Hj)%list_elem_of_lookup Hd].
    destruct (decide (j < i)%nat) as [Hlt | Hge]; [by destruct (Hmin j rack' Hj Hlt) |].
    apply Sorted_StronglySorted in Hs; [| intros x y z; lia].
    destruct (decide (j = i)) as [-> | Hne]; [rewrite Hi in Hj; by injection Hj as -> |].
    apply (strongly_sorted_lookup Z.le _ _ _ _ _ Hs Hi Hj). lia.
  - apply list_find_None in Hlf. rewrite Forall_forall in Hlf. destruct (Hfind rack0 H0) as [Hin Hd].
    by destruct (Hlf rack0 Hin).
Qed.

(** ** Theorems *)

(** C33: allocation is exclusive.  On every inventory the program can have,
    [allocate] succeeds exactly when the workers are one or more different GPUs,
    all known, healthy and without an owner, and the job has no GPU yet; it then
    gives the job exactly these GPUs and changes nothing else, and [release]
    takes back exactly them. *)
Theorem allocate_exact gpus job workers :
  reachable_inventory gpus ->
  match allocate job workers gpus with
  | Ret gpus' => allocatable gpus job workers /\ gpus' = assign job workers gpus /\ release job gpus' = gpus
  | Throw _ => ~ allocatable gpus job workers
  end.
Proof.
  intros Hok%reachable_inventory_ok. pose proof (allocate_spec gpus job workers Hok) as Hs.
  destruct (allocate job workers gpus) as [gpus' |]; [| done]. destruct Hs as [Ha ->]. split; [done | split; [done |]].
  destruct Ha as (_ & _ & Hav & Hjob). unfold release, assign. rewrite <- list_fmap_compose.
  rewrite <- (list_fmap_id gpus) at 2. apply list_fmap_ext. intros i r Hi%list_elem_of_lookup_2. cbn.
  destruct (bool_decide (res_gpu r ∈ workers)) eqn:Hw; cbn.
  - apply bool_decide_eq_true in Hw. rewrite bool_decide_eq_true_2 by done. destruct (Hav _ Hw) as (r' & (k & Hk)%list_elem_of_lookup & Heq & Hf%is_free_spec).
    apply list_elem_of_lookup in Hi as (i' & Hi). pose proof (inventory_inj _ _ _ _ _ Hok Hk Hi Heq) as ->.
    rewrite Hi in Hk. injection Hk as ->. destruct Hf as [_ Hf]. destruct r'. cbn in *. by rewrite Hf.
  - rewrite bool_decide_eq_false_2 by (by apply Hjob). done.
Qed.

(** C32: placement is sound and complete.  On every inventory the program can
    have, a built-in policy rejects exactly the requests that the cluster could
    never meet, lets a request wait exactly when it cannot be met now, and
    otherwise answers as many different free healthy GPUs as asked, the pinned
    ones in their order when there are any: workers that [allocate] accepts for
    any job without GPUs. *)
Theorem place_exact policy request gpus :
  reachable_inventory gpus -> u32 (jr_workers request) ->
  let p := place policy request gpus in
  match pl_outcome p with
  | Placed => satisfiable gpus request /\ zlength (pl_workers p) = jr_workers request /\
      (jr_pinned request <> [] -> pl_workers p = jr_pinned request) /\
      (forall job, (forall r, r ∈ gpus -> res_owner r <> Some job) ->
         allocate job (pl_workers p) gpus = Ret (assign job (pl_workers p) gpus))
  | Waiting => fits gpus request /\ pinned_known gpus request /\ ~ satisfiable gpus request
  | Rejected => ~ (fits gpus request /\ pinned_known gpus request)
  end.
Proof.
  intros Hok%reachable_inventory_ok [Hw _] p. pose proof (place_spec policy request gpus Hok Hw) as Hs.
  cbv zeta in Hs. fold p in Hs. destruct (pl_outcome p); [| tauto | tauto].
  destruct Hs as ([Hpos _] & _ & Hsat & Hlen & Hnd & Hav & Hpin). split_and!; try done. intros job Hjob.
  pose proof (allocate_spec gpus job (pl_workers p) Hok) as Ha.
  destruct (allocate job (pl_workers p) gpus) as [gpus' |]; [by destruct Ha as [_ ->] |]. destruct Ha.
  split; [| done]. intros Hnil. rewrite Hnil in Hlen. unfold zlength in *. cbn in Hlen. lia.
Qed.

(** The rack-local policy keeps jobs in one rack.  When some rack has enough
    free healthy GPUs for an unpinned job, all the workers it is given are in the
    lowest-numbered rack of this kind. *)
Theorem rack_local_placement seed request gpus :
  reachable_inventory gpus -> 0 < jr_workers request -> jr_pinned request = [] ->
  (exists rack, jr_workers request <= rack_free rack gpus) ->
  let p := place (mkBuiltinPolicy "rack-local" seed) request gpus in
  pl_outcome p = Placed ->
  exists rack, jr_workers request <= rack_free rack gpus /\
    (forall rack', jr_workers request <= rack_free rack' gpus -> rack <= rack') /\
    forall id, id ∈ pl_workers p -> exists r, r ∈ gpus /\ res_gpu r = id /\ res_rack r = rack.
Proof.
  intros Hok%reachable_inventory_ok Hw Hpin (rack0 & Hrack0) p Hp.
  set (free := sort_by gpu_before (List.filter is_free gpus)).
  assert (forall rack, zlength (List.filter (in_rack rack) free) = rack_free rack gpus) as Hsame.
  { intros rack. unfold rack_free, zlength, free. f_equal. apply Permutation_length. by rewrite sort_by_perm. }
  destruct (rack_local_spec free (jr_workers request)) as (rack & Hc & Hmin & Hrun); [done | by exists rack0; rewrite Hsame |].
  exists rack. rewrite Hsame in Hc. split; [done | split].
  { intros rack' Hr'. apply Hmin. by rewrite Hsame. }
  assert (pl_workers p = res_gpu <$> take (Z.to_nat (jr_workers request)) (stable_partition (in_rack rack) free)) as ->.
  { revert Hp. unfold p, place. destruct (_ || _); [done |]. rewrite Hpin. cbn [negb bool_decide].
    rewrite bool_decide_eq_true_2 by done. cbn [negb]. destruct (_ <? _); [done |]. intros _. cbn [pl_workers]. f_equal. f_equal.
    unfold order. fold free. cbn [bp_name]. by rewrite <- Hrun. }
  intros id (r & -> & Hr)%list_elem_of_fmap. exists r.
  assert (r ∈ List.filter (in_rack rack) free) as Hin.
  { unfold stable_partition in Hr. rewrite take_app_le in Hr; [by apply elem_of_take in Hr as (i & ? & _); eapply list_elem_of_lookup_2 |].
    rewrite <- Hsame in Hc. unfold zlength in Hc. lia. }
  apply list_elem_of_In, filter_In in Hin as [Hin Hk%Z.eqb_eq]. apply list_elem_of_In in Hin.
  unfold free in Hin. rewrite sort_by_perm in Hin. by apply elem_of_free in Hin as [? _].
Qed.

(** ** A concrete cluster *)

(** One GPU in the first rack, two in the second. *)
Definition cluster : list GraphOp :=
  [OpAddRack; OpAddRack; OpAddNic 0; OpAddNic 1; OpAddGpu 0; OpAddGpu 1; OpAddGpu 1].

Definition cluster_gpus : list Resource :=
  [mkResource 0 0 0 true None; mkResource 1 1 1 true None; mkResource 2 1 1 true None].

(** The second GPU works for job 7. *)
Definition cluster_busy : list Resource :=
  [mkResource 0 0 0 true None; mkResource 1 1 1 true (Some 7); mkResource 2 1 1 true None].

Definition pair_request : JobRequest := mkJobRequest 8 2 0 [].

Lemma cluster_reachable : reachable_inventory cluster_gpus.
Proof. exists cluster, cluster_gpus. split; [vm_compute; reflexivity | apply rtc_refl]. Qed.

Lemma cluster_busy_reachable : reachable_inventory cluster_busy.
Proof.
  exists cluster, cluster_gpus. split; [vm_compute; reflexivity |].
  apply rtc_once, (step_allocate _ 7 [1]). vm_compute. reflexivity.
Qed.

Lemma allocate_exact_witness :
  allocate 8 [2; 0] cluster_busy = Ret (assign 8 [2; 0] cluster_busy) /\
  release 8 (assign 8 [2; 0] cluster_busy) = cluster_busy /\
  ~ allocatable cluster_busy 8 [1].
Proof.
  pose proof (allocate_exact cluster_busy 8 [2; 0] cluster_busy_reachable) as H1.
  pose proof (allocate_exact cluster_busy 8 [1] cluster_busy_reachable) as H2.
  change (allocate 8 [2; 0] cluster_busy) with
    (Ret (A := list Resource) (assign 8 [2; 0] cluster_busy)) in H1.
  split; [vm_compute; reflexivity | split; [apply H1 | exact H2]].
Defined.

Lemma place_exact_witness :
  let p := place (mkBuiltinPolicy "first-fit" 1) pair_request cluster_busy in
  pl_workers p = [0; 2] /\
  allocate 8 (pl_workers p) cluster_busy = Ret (assign 8 (pl_workers p) cluster_busy).
Proof.
  intros p. split; [vm_compute; reflexivity |].
  pose proof (place_exact (mkBuiltinPolicy "first-fit" 1) pair_request cluster_busy cluster_busy_reachable) as Hx.
  cbv zeta in Hx. fold p in Hx. assert (pl_outcome p = Placed) as Hp by (vm_compute; reflexivity).
  rewrite Hp in Hx. apply Hx; [unfold u32; vm_compute; split; discriminate |].
  intros r Hr. apply list_elem_of_In in Hr. cbn in Hr. destruct Hr as [<- | [<- | [<- | []]]]; discriminate.
Defined.

