(* ===== verification/Workload.v ===== *)
(** * The workload engine

    Models [workload/model.{hpp,cpp}], [workload/engine.{hpp,cpp}],
    [workload/scheduling.cpp], [workload/metrics.cpp] and
    [workload/telemetry.cpp]: training jobs that alternate compute and
    collectives, their admission to GPUs and their accounts.  A [Record&] is the
    identifier of the record, whose entry in [jobs_] the operations read and
    write. *)

From S2P Require Import Prelude SimTime Entities TelemetryRecords EventQueue SimContext.
From S2P Require Import Topology Transport Router CollectivePlan CollectiveRuntime Scheduling.

(** ** The interface to the cluster

    What the engine uses of topology, collective executor and simulation
    context. *)

Class Cluster (X : Type) : Type := {
  cs_topology : X -> TopologyGraph;
  cs_now : X -> SimTimeNs;
  cs_current_event_id : X -> outcome EventId;
  cs_cause : X -> outcome (option EventId);
  cs_schedule : EventSpec -> M X EventId;
  cs_cancel_event : EventId -> M X bool;
  cs_submit : CollectiveRequest -> M X CollectiveId;
  cs_cancel : CollectiveId -> M X unit;
  cs_sink_enabled : TelemetrySink -> X -> bool;
  cs_sink_record : TelemetrySink -> SimTimeNs -> Correlation -> TelemetryObservation -> M X unit;
}.

#[global] Instance ring_cluster {C} `{SimContext C} : Cluster (Ring (Routed C)) := {
  cs_topology := fun w => fab_topology (rg_fabric w);
  cs_now := fun w => fab_now (rg_fabric w);
  cs_current_event_id := fun w => fab_current_event_id (rg_fabric w);
  cs_cause := fun w => fab_cause (rg_fabric w);
  cs_schedule := fun spec => with_fabric (fab_schedule spec);
  cs_cancel_event := fun id => with_fabric (with_transport (with_context (ctx_cancel id)));
  cs_submit := ring_submit;
  cs_cancel := cancel_collective;
  cs_sink_enabled := fun sink w => fab_sink_enabled sink (rg_fabric w);
  cs_sink_record := fun sink now correlation o => with_fabric (fab_sink_record sink now correlation o);
}.

(** ** Data *)

Inductive JobState : Type :=
  | JobState_Scheduled | JobState_Computing | JobState_Overlapping | JobState_Communicating
  | JobState_Succeeded | JobState_Failed | JobState_Cancelled | JobState_Waiting.

Definition JobState_value (s : JobState) : Z :=
  match s with
  | JobState_Scheduled => 1 | JobState_Computing => 2 | JobState_Overlapping => 3
  | JobState_Communicating => 4 | JobState_Succeeded => 5 | JobState_Failed => 6
  | JobState_Cancelled => 7 | JobState_Waiting => 8
  end.

#[global] Instance JobState_eq_dec : EqDecision JobState.
Proof. solve_decision. Defined.

Inductive CollectiveKind : Type := AllReduce.

Inductive CollectiveAlgorithm : Type := RingAlgorithm.

#[global] Instance PlacementOutcome_eq_dec : EqDecision PlacementOutcome.
Proof. solve_decision. Defined.

#[global] Instance CollectiveKind_eq_dec : EqDecision CollectiveKind.
Proof. solve_decision. Defined.

#[global] Instance CollectiveAlgorithm_eq_dec : EqDecision CollectiveAlgorithm.
Proof. solve_decision. Defined.

Record JobSpec : Type := mkJobSpec {
  js_name : string;
  js_workers : list GpuId;
  js_requested_workers : Z;
  js_compute : list SimDurationNs;
  js_arrival : SimTimeNs;
  js_steps : Z;
  js_gradient_bytes : ByteCount;
  js_bucket_bytes : ByteCount;
  js_chunk_bytes : ByteCount;
  js_priority : Z;
  js_overlap : bool;
  js_collective : CollectiveKind;
  js_algorithm : CollectiveAlgorithm;
}.

Record WorkloadLimits : Type := mkWorkloadLimits {
  wl_jobs : Z;
  wl_worker_entries : Z;
  wl_compute_event_entries : Z;
  wl_workers_per_job : Z;
  wl_steps_per_job : Z;
  wl_buckets_per_step : Z;
  wl_compute_events_per_job : Z;
  wl_timeline_entries : Z;
}.

Definition default_workload_limits : WorkloadLimits :=
  mkWorkloadLimits 10000 1000000 1000000 8192 1000000 4096 1000000 1000000.

Record JobSnapshot : Type := mkJobSnapshot {
  sn_id : JobId;
  sn_state : JobState;
  sn_completed_steps : Z;
  sn_arrival : SimTimeNs;
  sn_finished : option SimTimeNs;
  sn_compute_gpu_ns : Z;
  sn_idle_gpu_ns : Z;
  sn_elapsed_ns : Z;
  sn_reason : string;
  sn_allocated_at : option SimTimeNs;
  sn_waiting_ns : Z;
}.

Record JobTimeline : Type := mkJobTimeline {
  jt_job : JobId;
  jt_timestamp : SimTimeNs;
  jt_state : JobState;
  jt_step : Z;
  jt_bucket : Z;
  jt_action : string;
  jt_collective : option CollectiveId;
}.

(** [scheduling::Configuration] *)
Record SchedulingConfiguration : Type := mkSchedulingConfiguration {
  sc_policy : string;
  sc_seed : Z;
  sc_decision_entries : Z;
  sc_allocation_entries : Z;
}.

Record PlacementDecision : Type := mkPlacementDecision {
  dcn_job : JobId;
  dcn_timestamp : SimTimeNs;
  dcn_policy : string;
  dcn_version : Z;
  dcn_priority : Z;
  dcn_requested_workers : Z;
  dcn_outcome : PlacementOutcome;
  dcn_workers : list GpuId;
  dcn_reason : string;
  dcn_locality : Locality;
  dcn_fragmentation_before : Z;
  dcn_fragmentation_after : Z;
}.

(** [SchedulingPolicy]: its one method. *)
Abbreviation SchedulingPolicy := (JobRequest -> ResourceInventory -> Placement) (only parsing).

(** [WorkloadEngine::Record] *)
Record JobRecord : Type := mkJobRecord {
  jb_id : JobId;
  jb_spec : JobSpec;
  jb_state : JobState;
  jb_step : Z;
  jb_buckets : Z;
  jb_completed_buckets : Z;
  jb_compute_complete : Z;
  jb_step_started : SimTimeNs;
  jb_compute_gpu_ns : Z;
  jb_finished : option SimTimeNs;
  jb_arrival_event : option EventId;
  jb_active_collective : option CollectiveId;
  jb_ready : list Z;
  jb_events : list (option EventId);
  jb_reason : string;
  jb_assigned : bool;
  jb_allocated_at : option SimTimeNs;
}.

Definition new_job_record (id : JobId) (specification : JobSpec) : JobRecord :=
  mkJobRecord id specification JobState_Scheduled 0 0 0 0 0 0 None None None [] [] "" false None.

(** The pointers to graph and executor are the cluster, beside the engine. *)
Record WorkloadEngine : Type := mkWorkloadEngine {
  en_limits_ : WorkloadLimits;
  en_scheduling_ : option SchedulingConfiguration;
  en_inventory_ : option ResourceInventory;
  en_policy_ : option SchedulingPolicy;
  en_telemetry_ : TelemetrySink;
  en_admission_pending_ : bool;
  en_allocation_entries_ : Z;
  en_placements_ : list PlacementDecision;
  en_worker_entries_ : Z;
  en_event_entries_ : Z;
  en_jobs_ : gmap JobId JobRecord;
  en_assignments_ : gmap GpuId JobId;
  en_collectives_ : gmap CollectiveId JobId;
  en_completed_ : list JobSnapshot;
  en_timeline_ : list JobTimeline;
}.

(** ** Arithmetic *)

Definition checked_sum (left right : Z) : outcome Z :=
  if right >? u64_max - left then Throw (overflow_error "workload quantity overflow")
  else Ret (u64_wrap (left + right)).

Definition checked_product (left right : Z) : outcome Z :=
  if negb (right =? 0) && (left >? u64_max / right)
  then Throw (overflow_error "workload quantity overflow")
  else Ret (u64_wrap (left * right)).

(** [checked_sum] in a loop over durations. *)
Fixpoint sum_durations (total : Z) (durations : list Z) : outcome Z :=
  match durations with
  | [] => Ret total
  | d :: rest => match checked_sum total d with
                 | Throw e => Throw e
                 | Ret total => sum_durations total rest
                 end
  end.

Definition terminal (state : JobState) : bool :=
  bool_decide (state = JobState_Succeeded) || bool_decide (state = JobState_Failed) ||
  bool_decide (state = JobState_Cancelled).

(** ** Construction and validation *)

Definition limits_invalid (limits : WorkloadLimits) : bool :=
  (wl_worker_entries limits =? 0) || (wl_compute_event_entries limits =? 0) ||
  (wl_jobs limits =? 0) || (wl_workers_per_job limits =? 0) || (wl_workers_per_job limits >? 8192) ||
  (wl_steps_per_job limits =? 0) || (wl_buckets_per_step limits =? 0) ||
  (wl_compute_events_per_job limits =? 0) || (wl_timeline_entries limits =? 0).

(** The constructor up to the check of the limits. *)
Definition engine_policy (g : TopologyGraph) (scheduling : option SchedulingConfiguration)
    (policy : option SchedulingPolicy) : outcome (option ResourceInventory * option SchedulingPolicy) :=
  match scheduling with
  | Some config =>
      if (sc_decision_entries config =? 0) || (sc_allocation_entries config =? 0) ||
         bool_decide (sc_policy config = ""%string) || (Z.of_nat (String.length (sc_policy config)) >? 256)
      then Throw (invalid_argument "invalid scheduling configuration") else
      match new_inventory g with
      | Throw e => Throw e
      | Ret inventory =>
          match policy with
          | Some _ => Ret (Some inventory, policy)
          | None => match make_policy (sc_policy config) (sc_seed config) with
                    | Throw e => Throw e
                    | Ret p => Ret (Some inventory, Some (place p))
                    end
          end
      end
  | None =>
      match policy with
      | Some _ => Throw (invalid_argument "custom policy requires scheduler configuration")
      | None => Ret (None, None)
      end
  end.

Definition new_workload_engine (g : TopologyGraph) (limits : WorkloadLimits)
    (scheduling : option SchedulingConfiguration) (policy : option SchedulingPolicy)
    (telemetry : TelemetrySink) : outcome WorkloadEngine :=
  match engine_policy g scheduling policy with
  | Throw e => Throw e
  | Ret (inventory, policy) =>
      if limits_invalid limits then Throw (invalid_argument "invalid workload limits")
      else Ret (mkWorkloadEngine limits scheduling inventory policy telemetry false 0 [] 0 0 ∅ ∅ ∅ [] [])
  end.

(** The loop over the workers of a specification; [None] for a worker that is
    not pinned. *)
Fixpoint validate_workers (g : TopologyGraph) (spec : JobSpec) (unique : list GpuId) (compute_total : Z)
    (workers : list (option GpuId * SimDurationNs)) : outcome Z :=
  match workers with
  | [] => Ret compute_total
  | (pinned, duration) :: rest =>
      if (match pinned with
          | Some gpu => negb (has_value (find_gpu gpu g)) || bool_decide (gpu ∈ unique)
          | None => false
          end) || (duration =? 0)
      then Throw (invalid_argument "invalid worker assignment or compute duration") else
      match checked_sum compute_total duration with
      | Throw e => Throw e
      | Ret compute_total =>
          match checked_product (js_steps spec) duration with
          | Throw e => Throw e
          | Ret total =>
              match checked_sum (js_arrival spec) total with
              | Throw e => Throw e
              | Ret _ => validate_workers g spec
                           (match pinned with Some gpu => gpu :: unique | None => unique end)
                           compute_total rest
              end
          end
      end
  end.

Definition worker_count (spec : JobSpec) : Z :=
  if negb (js_requested_workers spec =? 0) then js_requested_workers spec else zlength (js_workers spec).

Definition bucket_count (spec : JobSpec) : Z :=
  u64_wrap (js_gradient_bytes spec / js_bucket_bytes spec +
            Z.b2z (negb (js_gradient_bytes spec mod js_bucket_bytes spec =? 0))).

Definition pinned_workers (spec : JobSpec) : list (option GpuId) :=
  if bool_decide (js_workers spec = []) then (fun _ => None) <$> js_compute spec else Some <$> js_workers spec.

Definition validate (g : TopologyGraph) (limits : WorkloadLimits)
    (scheduling : option SchedulingConfiguration) (spec : JobSpec) : outcome Z :=
  let workers := worker_count spec in
  if negb (js_requested_workers spec =? 0) &&
     (negb (has_value scheduling) || negb (bool_decide (js_workers spec = [])))
  then Throw (invalid_argument "requested workers require scheduling and exclude pinned workers") else
  if negb (bool_decide (js_collective spec = AllReduce)) ||
     negb (bool_decide (js_algorithm spec = RingAlgorithm)) || bool_decide (js_name spec = ""%string) ||
     (Z.of_nat (String.length (js_name spec)) >? 256) || (workers =? 0) ||
     (workers >? wl_workers_per_job limits) || negb (zlength (js_compute spec) =? workers) ||
     (js_steps spec =? 0) || (js_steps spec >? wl_steps_per_job limits) ||
     (js_gradient_bytes spec =? 0) || (js_bucket_bytes spec =? 0) || (js_chunk_bytes spec =? 0)
  then Throw (invalid_argument "invalid workload job specification") else
  let buckets := bucket_count spec in
  if buckets >? wl_buckets_per_step limits
  then Throw (length_error "workload bucket or compute-event limit exceeded") else
  match checked_product workers (if js_overlap spec then buckets else 1) with
  | Throw e => Throw e
  | Ret events =>
      if events >? wl_compute_events_per_job limits
      then Throw (length_error "workload bucket or compute-event limit exceeded") else
      match validate_workers g spec [] 0 (zip (pinned_workers spec) (js_compute spec)) with
      | Throw e => Throw e
      | Ret compute_total =>
          match checked_product compute_total (js_steps spec) with
          | Throw e => Throw e
          | Ret _ => Ret (u32_wrap buckets)
          end
      end
  end.

(** ** Accounts *)

Definition inspect (r : JobRecord) (now : SimTimeNs) : outcome JobSnapshot :=
  let end_ := default now (jb_finished r) in
  let arrival := js_arrival (jb_spec r) in
  let snapshot compute idle elapsed waiting :=
    mkJobSnapshot (jb_id r) (jb_state r) (jb_step r) arrival (jb_finished r) compute idle elapsed
      (jb_reason r) (jb_allocated_at r) waiting in
  if end_ <? arrival then Ret (snapshot 0 0 0 0) else
  let elapsed := u64_wrap (end_ - arrival) in
  match (if jb_assigned r && negb (terminal (jb_state r)) then
           if now <? jb_step_started r then Throw (invalid_argument "snapshot precedes current step")
           else sum_durations (jb_compute_gpu_ns r)
                  ((fun d => Z.min d (u64_wrap (now - jb_step_started r))) <$> js_compute (jb_spec r))
         else Ret (jb_compute_gpu_ns r)) with
  | Throw e => Throw e
  | Ret compute =>
      let waiting := u64_wrap (default end_ (jb_allocated_at r) - arrival) in
      match (match jb_allocated_at r with
             | Some at_ => checked_product (u64_wrap (end_ - at_)) (zlength (js_workers (jb_spec r)))
             | None => Ret 0
             end) with
      | Throw e => Throw e
      | Ret allocated =>
          if compute >? allocated then Throw (logic_error "GPU compute exceeds allocated time")
          else Ret (snapshot compute (u64_wrap (allocated - compute)) elapsed waiting)
      end
  end.

(** The end of a share of the compute phase, relative to its start. *)
Definition compute_offset (duration events_per_worker index : Z) : outcome Z :=
  let fraction := u32_wrap (index + 1) in
  match checked_product (duration / events_per_worker) fraction with
  | Throw e => Throw e
  | Ret whole =>
      match checked_product (duration mod events_per_worker) fraction with
      | Throw e => Throw e
      | Ret rest => checked_sum whole (u64_wrap (rest + events_per_worker - 1) / events_per_worker)
      end
  end.

Definition events_per_worker (r : JobRecord) : Z := if js_overlap (jb_spec r) then jb_buckets r else 1.

(** The place of a compute event in [events]. *)
Definition event_slot (r : JobRecord) (worker index : Z) : nat :=
  Z.to_nat (u64_wrap (worker * events_per_worker r + index)).
