(* ===== verification/WorkloadRuntime.v ===== *)
(** * The operations of the workload engine

    The stateful part of [workload/engine.cpp], [workload/scheduling.cpp],
    [workload/metrics.cpp] and [workload/telemetry.cpp]. *)

From S2P Require Import Prelude SimTime Entities TelemetryRecords EventQueue SimContext.
From S2P Require Import Topology RoutingPaths CollectivePlan CollectiveRuntime Scheduling Workload.

Record Training (X : Type) : Type := mkTraining {
  tn_engine : WorkloadEngine;
  tn_cluster : X;
}.
Arguments mkTraining {X} _ _.
Arguments tn_engine {X} _.
Arguments tn_cluster {X} _.

(** The order in which waiting jobs are considered. *)
Definition considered_before (a b : JobRecord) : bool :=
  let p := js_priority (jb_spec a) in
  let q := js_priority (jb_spec b) in
  if negb (p =? q) then p >? q else
  let s := js_arrival (jb_spec a) in
  let t := js_arrival (jb_spec b) in
  if negb (s =? t) then s <? t else jb_id a <? jb_id b.

Definition considered_not_after (a b : JobRecord) : Prop := considered_before b a = false.

#[global] Instance considered_not_after_dec : RelDecision considered_not_after.
Proof. intros a b. unfold considered_not_after. apply _. Defined.

(** The waiting records, sorted; the order is total, so that the order of
    iteration does not matter. *)
Definition waiting_jobs (jobs : gmap JobId JobRecord) : list JobRecord :=
  merge_sort considered_not_after
    (List.filter (fun r => bool_decide (jb_state r = JobState_Waiting)) (map_to_list jobs).*2).

Section Operations.
Context {X : Type} `{Cluster X}.

Abbreviation EM := (M (Training X)).

Definition with_cluster {A} (m : M X A) : EM A :=
  zoom tn_cluster (fun x w => {| w with tn_cluster := x |}) m.

Definition read_cluster {A} (f : X -> A) : EM A := gets (fun w => f (tn_cluster w)).

Definition ask_cluster {A} (f : X -> outcome A) : EM A := fun w => (w, f (tn_cluster w)).

Definition modify_engine (f : WorkloadEngine -> WorkloadEngine) : EM unit :=
  modify (fun w => {| w with tn_engine := f (tn_engine w) |}).

(** [jobs_.at(id)], and the use of a reference to an entry. *)
Definition job_at (id : JobId) : EM JobRecord :=
  let! en := gets tn_engine in
  of_option (out_of_range "map::at") (en_jobs_ en !! id).

Definition modify_job (id : JobId) (f : JobRecord -> JobRecord) : EM unit :=
  modify_engine (fun en => {| en with en_jobs_ := alter f id (en_jobs_ en) |}).

(** ** Telemetry *)

Definition job_correlation (job : JobId) (collective : option CollectiveId)
    (placement : option Z) : EM Correlation :=
  let! event := ask_cluster cs_current_event_id in
  let! cause := ask_cluster cs_cause in
  ret {| no_correlation with corr_event := Some event; corr_cause := cause; corr_job := Some job;
         corr_collective := collective; corr_placement_decision := placement |}.

Definition record_all (correlation : Correlation) (observations : list TelemetryObservation) : EM unit :=
  let! sink := gets (fun w => en_telemetry_ (tn_engine w)) in
  for_each observations (fun o =>
    let! now := read_cluster cs_now in
    with_cluster (cs_sink_record sink now correlation o)).

(** [if (!telemetry_.enabled()) return;] *)
Definition when_enabled (m : EM unit) : EM unit :=
  let! sink := gets (fun w => en_telemetry_ (tn_engine w)) in
  let! enabled := read_cluster (cs_sink_enabled sink) in
  when enabled m.

Definition emit_job (id : JobId) (transition : JobTransition) (worker : Z) : EM unit :=
  when_enabled
    (let! r := job_at id in
     let! correlation := job_correlation (jb_id r) (jb_active_collective r) None in
     let allocated := if jb_assigned r then u32_wrap (zlength (js_workers (jb_spec r))) else 0 in
     record_all correlation
       [JobObservation transition (jb_step r) (jb_completed_buckets r) worker allocated]).

Definition emit_terminal_metrics (snapshot : JobSnapshot) : EM unit :=
  when_enabled
    (let! correlation := job_correlation (sn_id snapshot) None None in
     let! none := of_outcome (make_labels []) in
     let! outcome_label := of_outcome (make_labels
       [mkMetricLabelValue MetricLabel_Outcome (JobState_value (sn_state snapshot))]) in
     record_all correlation
       [HistogramObservation JobCompletionTimeNs none (sn_elapsed_ns snapshot);
        HistogramObservation JobSchedulingWaitNs none (sn_waiting_ns snapshot);
        CounterObservation JobComputeGpuNs none (sn_compute_gpu_ns snapshot);
        CounterObservation JobGpuIdleNs none (sn_idle_gpu_ns snapshot);
        CounterObservation JobCompletedSteps none (sn_completed_steps snapshot);
        CounterObservation JobTerminalTotal outcome_label 1]).

Definition placement_outcome (o : PlacementOutcome) : PlacementDecisionOutcome :=
  match o with
  | Placed => PlacementDecisionOutcome_Placed
  | Waiting => PlacementDecisionOutcome_Waiting
  | Rejected => PlacementDecisionOutcome_Rejected
  end.

Definition placement_outcome_value (o : PlacementDecisionOutcome) : Z :=
  match o with
  | PlacementDecisionOutcome_Placed => 1
  | PlacementDecisionOutcome_Waiting => 2
  | PlacementDecisionOutcome_Rejected => 3
  end.

Definition emit_placement (decision : PlacementDecision) (id : Z) : EM unit :=
  when_enabled
    (let outcome := placement_outcome (dcn_outcome decision) in
     let locality := dcn_locality decision in
     let! correlation := job_correlation (dcn_job decision) None (Some id) in
     let! none := of_outcome (make_labels []) in
     do! record_all correlation
       [PlacementDecisionObservation_ (mkPlacementDecisionObservation id (dcn_policy decision)
          (dcn_version decision) (dcn_priority decision) (dcn_requested_workers decision)
          (dcn_workers decision) (loc_racks locality) (loc_nics locality)
          (loc_cross_rack_ring_edges locality) (dcn_reason decision) outcome)] in
     let! labels := of_outcome (make_labels
       [mkMetricLabelValue MetricLabel_Policy (policy_label_value (dcn_policy decision));
        mkMetricLabelValue MetricLabel_Outcome (placement_outcome_value outcome)]) in
     do! record_all correlation [CounterObservation PlacementDecisionTotal labels 1] in
     when (bool_decide (dcn_outcome decision = Placed))
       (record_all correlation
         [HistogramObservation PlacementCrossRackRingEdges none (loc_cross_rack_ring_edges locality);
          HistogramObservation PlacementRackCount none (loc_racks locality);
          HistogramObservation PlacementNicCount none (loc_nics locality)])).

(** ** Jobs *)

Definition trace_job (id : JobId) (action : string) : EM unit :=
  let! now := read_cluster cs_now in
  let! r := job_at id in
  let! en := gets tn_engine in
  do! throw_if (zlength (en_timeline_ en) =? wl_timeline_entries (en_limits_ en))
        (length_error "workload timeline limit exceeded") in
  modify_engine (fun en => {| en with en_timeline_ := en_timeline_ en ++
    [mkJobTimeline (jb_id r) now (jb_state r) (jb_step r) (jb_completed_buckets r) action
       (jb_active_collective r)] |}).

Definition terminal_transition (state : JobState) : JobTransition :=
  match state with
  | JobState_Succeeded => JobTransition_Succeeded
  | JobState_Cancelled => JobTransition_Cancelled
  | _ => JobTransition_Failed
  end.

Definition cancel_pending (event : option EventId) : EM unit :=
  match event with
  | Some e => let! _ := with_cluster (cs_cancel_event e) in ret tt
  | None => ret tt
  end.

(** The part of [finish] that gives resources back. *)
Definition release_resources (id : JobId) : EM unit :=
  let! r := job_at id in
  do! when (jb_assigned r) (for_each (js_workers (jb_spec r)) (fun worker =>
        modify_engine (fun en => {| en with en_assignments_ := delete worker (en_assignments_ en) |}))) in
  let! en := gets tn_engine in
  match en_inventory_ en with
  | Some inventory =>
      modify_engine (fun en => {| en with en_inventory_ := Some (release (jb_id r) inventory);
                                          en_admission_pending_ := true |})
  | None => ret tt
  end.

Definition finish_job (id : JobId) (state : JobState) (reason : string) : EM unit :=
  let! r := job_at id in
  if terminal (jb_state r) then ret tt else
  let! now := read_cluster cs_now in
  do! when (negb (bool_decide (state = JobState_Succeeded)) && jb_assigned r)
        (let! snapshot := of_outcome (inspect r now) in
         modify_job id (fun r => {| r with jb_compute_gpu_ns := sn_compute_gpu_ns snapshot |})) in
  do! for_each (jb_events r) cancel_pending in
  do! when (has_value (jb_arrival_event r))
        (do! cancel_pending (jb_arrival_event r) in
         modify_job id (fun r => {| r with jb_arrival_event := None |})) in
  do! (match jb_active_collective r with
       | Some c => with_cluster (cs_cancel c)
       | None => ret tt
       end) in
  do! release_resources id in
  let! now := read_cluster cs_now in
  do! modify_job id (fun r => {| r with jb_state := state; jb_reason := reason; jb_finished := Some now |}) in
  do! trace_job id "job_terminal" in
  let! r := job_at id in
  let! now := read_cluster cs_now in
  let! snapshot := of_outcome (inspect r now) in
  do! modify_engine (fun en => {| en with en_completed_ := en_completed_ en ++ [snapshot] |}) in
  do! emit_job id (terminal_transition state) 0 in
  emit_terminal_metrics snapshot.

(** One turn of the loops of [start_step]. *)
Definition schedule_compute (id : JobId) (worker index : Z) : EM unit :=
  let! r := job_at id in
  let! duration := of_option null_pointer (js_compute (jb_spec r) !! Z.to_nat worker) in
  let! offset := of_outcome (compute_offset duration (events_per_worker r) index) in
  let! now := read_cluster cs_now in
  let! time := of_option (overflow_error "compute event time overflow") (checked_add now offset) in
  let bucket := if js_overlap (jb_spec r) then index else u32_wrap (jb_buckets r - 1) in
  let! event := with_cluster (cs_schedule (mkEventSpec time Normal
    (Workload_ (mkWorkloadEvent (jb_id r) ComputeReady worker (jb_step r) bucket)))) in
  let! _ := of_option null_pointer (jb_events r !! event_slot r worker index) in
  modify_job id (fun r => {| r with jb_events := <[event_slot r worker index := Some event]> (jb_events r) |}).

Definition start_step (id : JobId) : EM unit :=
  let! now := read_cluster cs_now in
  do! modify_job id (fun r => {| r with
        jb_state := JobState_Computing; jb_step_started := now; jb_completed_buckets := 0;
        jb_compute_complete := 0; jb_ready := replicate (Z.to_nat (jb_buckets r)) 0;
        jb_events := replicate
          (Z.to_nat (u64_wrap (zlength (js_workers (jb_spec r)) * events_per_worker r))) None |}) in
  let! r := job_at id in
  do! for_each (seqZ 0 (zlength (js_workers (jb_spec r)))) (fun worker =>
        for_each (seqZ 0 (events_per_worker r)) (schedule_compute id worker)) in
  do! trace_job id "step_compute_started" in
  emit_job id JobTransition_ComputeStarted 0.

Definition compute_phase_done (r : JobRecord) : bool :=
  jb_compute_complete r =? zlength (js_workers (jb_spec r)).

(** The bytes of the next bucket. *)
Definition bucket_size (r : JobRecord) : outcome Z :=
  match checked_product (jb_completed_buckets r) (js_bucket_bytes (jb_spec r)) with
  | Throw e => Throw e
  | Ret consumed => Ret (Z.min (js_bucket_bytes (jb_spec r))
                               (u64_wrap (js_gradient_bytes (jb_spec r) - consumed)))
  end.

Definition start_collective (id : JobId) : EM unit :=
  let! r := job_at id in
  if has_value (jb_active_collective r) then ret tt else
  let! ready := of_option null_pointer (jb_ready r !! Z.to_nat (jb_completed_buckets r)) in
  if negb (ready =? zlength (js_workers (jb_spec r))) then ret tt else
  let! bytes := of_outcome (bucket_size r) in
  let! c := with_cluster (cs_submit
    (mkCollectiveRequest (js_workers (jb_spec r)) bytes (js_chunk_bytes (jb_spec r)))) in
  do! modify_job id (fun r => {| r with jb_active_collective := Some c |}) in
  do! modify_engine (fun en => {| en with en_collectives_ :=
        match en_collectives_ en !! c with
        | Some _ => en_collectives_ en
        | None => <[c := jb_id r]> (en_collectives_ en)
        end |}) in
  do! modify_job id (fun r => {| r with jb_state :=
        if compute_phase_done r then JobState_Communicating else JobState_Overlapping |}) in
  do! trace_job id "bucket_collective_started" in
  emit_job id JobTransition_CollectiveStarted 0.

Definition compute_ready (id : JobId) (event : WorkloadEvent) : EM unit :=
  let! r := job_at id in
  do! throw_if (bool_decide (jb_state r = JobState_Scheduled) ||
                bool_decide (jb_state r = JobState_Waiting) || negb (we_step event =? jb_step r) ||
                (we_worker event >=? zlength (js_workers (jb_spec r))) ||
                (we_bucket event >=? jb_buckets r))
        (logic_error "stale workload compute event") in
  let slot := event_slot r (we_worker event) (if js_overlap (jb_spec r) then we_bucket event else 0) in
  let! pending := of_option null_pointer (jb_events r !! slot) in
  let! current := (match pending with
                   | Some _ => ask_cluster cs_current_event_id
                   | None => throw (logic_error "unexpected compute completion")
                   end) in
  do! throw_if (negb (bool_decide (pending = Some current)))
        (logic_error "unexpected compute completion") in
  do! modify_job id (fun r => {| r with jb_events := <[slot := None]> (jb_events r) |}) in
  do! modify_job id (fun r => {| r with jb_ready :=
        if js_overlap (jb_spec r)
        then alter (fun n => u32_wrap (n + 1)) (Z.to_nat (we_bucket event)) (jb_ready r)
        else (fun n => u32_wrap (n + 1)) <$> jb_ready r |}) in
  do! when (we_bucket event =? u32_wrap (jb_buckets r - 1))
        (do! modify_job id (fun r => {| r with jb_compute_complete := u32_wrap (jb_compute_complete r + 1) |}) in
         let! r := job_at id in
         when ((jb_compute_complete r =? 1) && (zlength (js_workers (jb_spec r)) >? 1))
           (emit_job id JobTransition_StragglerStarted (we_worker event))) in
  let! r := job_at id in
  do! when (compute_phase_done r)
        (do! when (has_value (jb_active_collective r))
               (modify_job id (fun r => {| r with jb_state := JobState_Communicating |})) in
         do! trace_job id "step_compute_finished" in
         emit_job id JobTransition_ComputeCompleted (we_worker event)) in
  start_collective id.

(** [assignments_.emplace] for each worker. *)
Definition assign_workers (id : JobId) : EM unit :=
  let! r := job_at id in
  for_each (js_workers (jb_spec r)) (fun worker =>
    modify_engine (fun en => {| en with en_assignments_ :=
      match en_assignments_ en !! worker with
      | Some _ => en_assignments_ en
      | None => <[worker := jb_id r]> (en_assignments_ en)
      end |})).

Definition arrive (id : JobId) : EM unit :=
  do! emit_job id JobTransition_Arrived 0 in
  let! en := gets tn_engine in
  if has_value (en_inventory_ en) then
    do! modify_job id (fun r => {| r with jb_state := JobState_Waiting |}) in
    do! trace_job id "job_waiting" in
    do! emit_job id JobTransition_Waiting 0 in
    modify_engine (fun en => {| en with en_admission_pending_ := true |})
  else
    let! r := job_at id in
    if existsb (fun worker => has_value (en_assignments_ en !! worker)) (js_workers (jb_spec r))
    then finish_job id JobState_Failed "GPU assignment conflict" else
    do! assign_workers id in
    let! now := read_cluster cs_now in
    do! modify_job id (fun r => {| r with jb_assigned := true; jb_allocated_at := Some now |}) in
    do! emit_job id JobTransition_Admitted 0 in
    start_step id.

(** ** Admission *)

Definition policy_result_invalid (placement : Placement) : bool :=
  bool_decide (pl_reason placement = ""%string) ||
  (Z.of_nat (String.length (pl_reason placement)) >? 256) ||
  (negb (bool_decide (pl_outcome placement = Placed)) && negb (bool_decide (pl_workers placement = []))).

(** The branch of [admit_job] that allocates a placement. *)
Definition allocate_placement (config : SchedulingConfiguration) (r : JobRecord) (requested : Z)
    (placement : Placement) (inventory : ResourceInventory) : EM Locality :=
  do! throw_if (negb (zlength (pl_workers placement) =? requested) ||
                (negb (bool_decide (js_workers (jb_spec r) = [])) &&
                 negb (bool_decide (pl_workers placement = js_workers (jb_spec r)))))
        (logic_error "policy violated allocation dimensions or pinned order") in
  let! en := gets tn_engine in
  do! throw_if (zlength (pl_workers placement) >?
                u64_wrap (sc_allocation_entries config - en_allocation_entries_ en))
        (length_error "scheduler allocation record limit exceeded") in
  let! inventory := of_outcome (allocate (jb_id r) (pl_workers placement) inventory) in
  do! modify_engine (fun en => {| en with en_inventory_ := Some inventory;
        en_allocation_entries_ := u64_wrap (en_allocation_entries_ en + zlength (pl_workers placement)) |}) in
  of_outcome (locality inventory (pl_workers placement)).

(** The part of [admit_job] after the decision was recorded. *)
Definition apply_placement (id : JobId) (placement : Placement) : EM unit :=
  do! modify_job id (fun r => {| r with jb_reason := pl_reason placement |}) in
  match pl_outcome placement with
  | Rejected => finish_job id JobState_Failed (pl_reason placement)
  | Waiting => ret tt
  | Placed =>
      do! modify_job id (fun r => let spec := jb_spec r in
            {| r with jb_spec := {| spec with js_workers := pl_workers placement |} |}) in
      do! assign_workers id in
      let! now := read_cluster cs_now in
      do! modify_job id (fun r => {| r with jb_assigned := true; jb_allocated_at := Some now |}) in
      do! trace_job id "job_allocated" in
      do! emit_job id JobTransition_Admitted 0 in
      start_step id
  end.

Definition admit_job (id : JobId) : EM unit :=
  let! en := gets tn_engine in
  let! config := of_option (logic_error "admission requires scheduler") (en_scheduling_ en) in
  do! throw_if (zlength (en_placements_ en) =? sc_decision_entries config)
        (length_error "scheduler decision limit exceeded") in
  let! inventory := of_option null_pointer (en_inventory_ en) in
  let! policy := of_option null_pointer (en_policy_ en) in
  let! r := job_at id in
  let requested := u32_wrap (zlength (js_compute (jb_spec r))) in
  let placement := policy (mkJobRequest (jb_id r) requested (js_priority (jb_spec r))
                             (js_workers (jb_spec r))) inventory in
  do! throw_if (policy_result_invalid placement) (logic_error "invalid scheduling policy result") in
  let! local := (if bool_decide (pl_outcome placement = Placed)
                 then allocate_placement config r requested placement inventory
                 else ret (mkLocality 0 0 0)) in
  let! en := gets tn_engine in
  let! after := of_option null_pointer (en_inventory_ en) in
  let! now := read_cluster cs_now in
  let decision := mkPlacementDecision (jb_id r) now (sc_policy config) 1 (js_priority (jb_spec r))
    requested (pl_outcome placement) (pl_workers placement) (pl_reason placement) local
    (fragmentation inventory) (fragmentation after) in
  do! modify_engine (fun en => {| en with en_placements_ := en_placements_ en ++ [decision] |}) in
  do! emit_placement decision (zlength (en_placements_ en)) in
  apply_placement id placement.

Definition dispatch_waiting : EM unit :=
  let! en := gets tn_engine in
  if negb (en_admission_pending_ en) || negb (has_value (en_inventory_ en)) then ret tt else
  do! modify_engine (fun en => {| en with en_admission_pending_ := false |}) in
  do! for_each (waiting_jobs (en_jobs_ en)) (fun r => admit_job (jb_id r)) in
  modify_engine (fun en => {| en with en_admission_pending_ := false |}).

(** ** Requests and events *)

(** [Simulation::schedule] is the same function as [SimulationContext::schedule]. *)
Definition schedule_job (specification : JobSpec) : EM JobId :=
  let! en := gets tn_engine in
  let! g := read_cluster cs_topology in
  let limits := en_limits_ en in
  let! buckets := of_outcome (validate g limits (en_scheduling_ en) specification) in
  do! throw_if (Z.of_nat (size (en_jobs_ en)) =? wl_jobs limits)
        (length_error "workload job limit exceeded") in
  let workers := zlength (js_compute specification) in
  let slots := u64_wrap (workers * (if js_overlap specification then buckets else 1)) in
  do! throw_if ((workers >? u64_wrap (wl_worker_entries limits - en_worker_entries_ en)) ||
                (slots >? u64_wrap (wl_compute_event_entries limits - en_event_entries_ en)))
        (length_error "workload global retained-state limit exceeded") in
  let id := Z.of_nat (size (en_jobs_ en)) in
  let! event := with_cluster (cs_schedule (mkEventSpec (js_arrival specification) Normal
    (Workload_ (mkWorkloadEvent id Arrival 0 0 0)))) in
  let blank := new_job_record id specification in
  let record := {| blank with jb_buckets := buckets; jb_arrival_event := Some event |} in
  do! modify_engine (fun en => {| en with
        en_worker_entries_ := u64_wrap (en_worker_entries_ en + workers);
        en_event_entries_ := u64_wrap (en_event_entries_ en + slots);
        en_jobs_ := match en_jobs_ en !! id with
                    | Some _ => en_jobs_ en
                    | None => <[id := record]> (en_jobs_ en)
                    end |}) in
  ret id.

Definition schedule_control (job : JobId) (kind : WorkloadEventKind) (time : SimTimeNs) (worker : Z)
    : EM EventId :=
  let! r := job_at job in
  do! throw_if ((negb (bool_decide (kind = Cancel)) && negb (bool_decide (kind = WorkerFailure))) ||
                (worker >=? zlength (js_compute (jb_spec r))))
        (invalid_argument "invalid workload control event") in
  with_cluster (cs_schedule (mkEventSpec time Critical (Workload_ (mkWorkloadEvent job kind worker 0 0)))).

Definition schedule_gpu_state (gpu : GpuId) (healthy : bool) (time : SimTimeNs) : EM EventId :=
  let! en := gets tn_engine in
  let! g := read_cluster cs_topology in
  do! throw_if (negb (has_value (en_inventory_ en)) || negb (has_value (find_gpu gpu g)) || (gpu >? u32_max))
        (invalid_argument "GPU state requires scheduler and known GPU") in
  with_cluster (cs_schedule (mkEventSpec time Critical
    (Workload_ (mkWorkloadEvent 0 (if healthy then GpuUp else GpuDown) (u32_wrap gpu) 0 0)))).

Definition gpu_state (event : WorkloadEvent) : EM unit :=
  let! en := gets tn_engine in
  let! inventory := of_option (logic_error "GPU state without scheduler") (en_inventory_ en) in
  let! changed := of_outcome (set_health (we_worker event) (bool_decide (we_kind event = GpuUp)) inventory) in
  do! modify_engine (fun en => {| en with en_inventory_ := Some (fst changed) |}) in
  do! (match snd changed with
       | Some owner =>
           when (bool_decide (we_kind event = GpuDown))
             (finish_job owner JobState_Failed "allocated GPU failed")
       | None => ret tt
       end) in
  modify_engine (fun en => {| en with en_admission_pending_ := true |}).

(** [handle(const WorkloadEvent&)] *)
Definition handle_workload (event : WorkloadEvent) : EM unit :=
  if bool_decide (we_kind event = GpuDown) || bool_decide (we_kind event = GpuUp) then gpu_state event else
  let id := we_job event in
  let! r := job_at id in
  if terminal (jb_state r) then ret tt else
  match we_kind event with
  | Arrival =>
      let! current := (match jb_arrival_event r with
                       | Some _ => ask_cluster cs_current_event_id
                       | None => throw (logic_error "unexpected job arrival")
                       end) in
      do! throw_if (negb (bool_decide (jb_arrival_event r = Some current)))
            (logic_error "unexpected job arrival") in
      do! modify_job id (fun r => {| r with jb_arrival_event := None |}) in
      arrive id
  | ComputeReady => compute_ready id event
  | Cancel => finish_job id JobState_Cancelled "job cancelled"
  | WorkerFailure =>
      do! throw_if (we_worker event >=? zlength (js_compute (jb_spec r)))
            (invalid_argument "unknown failed worker") in
      finish_job id JobState_Failed "worker failed"
  | GpuDown | GpuUp => throw (invalid_argument "unknown workload event")
  end.

(** The branch of a successful result that completes the step. *)
Definition complete_step (id : JobId) : EM unit :=
  let! r := job_at id in
  let! compute := of_outcome (sum_durations (jb_compute_gpu_ns r) (js_compute (jb_spec r))) in
  do! modify_job id (fun r => {| r with jb_compute_gpu_ns := compute |}) in
  do! emit_job id JobTransition_StepCompleted 0 in
  do! modify_job id (fun r => {| r with jb_step := u32_wrap (jb_step r + 1) |}) in
  let! r := job_at id in
  if jb_step r =? js_steps (jb_spec r)
  then finish_job id JobState_Succeeded "all training steps completed"
  else start_step id.

(** [handle(const CollectiveResult&)] *)
Definition handle_result (completion : CollectiveResult) : EM unit :=
  let! en := gets tn_engine in
  let! id := of_option (logic_error "unowned collective result") (en_collectives_ en !! cl_id completion) in
  let! r := job_at id in
  do! modify_engine (fun en => {| en with en_collectives_ := delete (cl_id completion) (en_collectives_ en) |}) in
  let no_collective := modify_job id (fun r => {| r with jb_active_collective := None |}) in
  if terminal (jb_state r) then no_collective else
  if negb (bool_decide (cl_outcome completion = Phase_Succeeded)) then
    do! emit_job id JobTransition_CollectiveCompleted 0 in
    do! no_collective in
    finish_job id JobState_Failed (cl_reason completion)
  else
    do! trace_job id "bucket_collective_completed" in
    do! emit_job id JobTransition_CollectiveCompleted 0 in
    do! no_collective in
    do! modify_job id (fun r => {| r with jb_completed_buckets := u32_wrap (jb_completed_buckets r + 1) |}) in
    let! r := job_at id in
    if jb_completed_buckets r =? jb_buckets r then complete_step id else
    do! modify_job id (fun r => {| r with jb_state :=
          if compute_phase_done r then JobState_Communicating else JobState_Computing |}) in
    start_collective id.

Definition job_snapshot (id : JobId) (now : SimTimeNs) (en : WorkloadEngine) : outcome (option JobSnapshot) :=
  match en_jobs_ en !! id with
  | None => Ret None
  | Some r => match inspect r now with
              | Throw e => Throw e
              | Ret s => Ret (Some s)
              end
  end.

Definition take_completed_jobs : EM (list JobSnapshot) :=
  let! en := gets tn_engine in
  do! modify_engine (fun en => {| en with en_completed_ := [] |}) in
  ret (en_completed_ en).
End Operations.
