(* ===== verification/WorkloadLaws.v ===== *)
(** * Arithmetic and accounts of the workload engine

    The checked arithmetic, the shares of the compute phase and the snapshot of
    a job, as exact results; what the engine needs from the cluster. *)

From S2P Require Import Prelude SimTime Entities TelemetryRecords EventQueue SimContext.
From S2P Require Import Topology CollectivePlan CollectiveRuntime Scheduling Workload.

(** ** Checked arithmetic *)

Lemma checked_sum_spec a b : u64 a -> 0 <= b ->
  checked_sum a b = if u64_max <? a + b then Throw (overflow_error "workload quantity overflow") else Ret (a + b).
Proof.
  intros Ha Hb. unfold checked_sum. destruct (b >? u64_max - a) eqn:E1, (u64_max <? a + b) eqn:E2; try word_lia; [done |].
  by rewrite u64_wrap_id by word_lia.
Qed.

Lemma checked_sum_ret a b : u64 a -> 0 <= b -> a + b <= u64_max -> checked_sum a b = Ret (a + b).
Proof. intros Ha Hb Hle. rewrite checked_sum_spec by done. destruct (u64_max <? a + b) eqn:E; [lia | done]. Qed.

Lemma checked_product_spec a b : 0 <= a -> 0 <= b ->
  checked_product a b = if u64_max <? a * b then Throw (overflow_error "workload quantity overflow") else Ret (a * b).
Proof.
  intros Ha Hb. unfold checked_product. destruct (Z.eqb_spec b 0) as [-> |]; [by rewrite Z.mul_0_r |]. cbn [negb andb].
  pose proof (Z.mul_div_le u64_max b ltac:(lia)) as H1. pose proof (Z.mul_succ_div_gt u64_max b ltac:(lia)) as H2.
  destruct (a >? u64_max / b) eqn:E1, (u64_max <? a * b) eqn:E2; try done; try nia.
  rewrite u64_wrap_id by (split; nia). done.
Qed.

Lemma checked_product_ret a b : 0 <= a -> 0 <= b -> a * b <= u64_max -> checked_product a b = Ret (a * b).
Proof. intros Ha Hb Hle. rewrite checked_product_spec by done. destruct (u64_max <? a * b) eqn:E; [lia | done]. Qed.

Lemma sum_durations_spec total l : u64 total -> Forall (fun d => 0 <= d) l ->
  sum_durations total l =
    if u64_max <? total + sumZ l then Throw (overflow_error "workload quantity overflow") else Ret (total + sumZ l).
Proof.
  intros Ht Hl. revert total Ht. induction Hl as [| d l Hd Hl IH]; intros total Ht; cbn [sum_durations].
  - change (sumZ []) with 0. destruct (u64_max <? total + 0) eqn:E; [word_lia | by rewrite Z.add_0_r].
  - rewrite checked_sum_spec by done. rewrite sumZ_cons. pose proof (sumZ_nonneg l Hl).
    destruct (u64_max <? total + d) eqn:E.
    + destruct (u64_max <? total + (d + sumZ l)) eqn:E'; [done | lia].
    + rewrite IH by word_lia. by rewrite Z.add_assoc.
Qed.

Lemma sum_durations_ret total l : u64 total -> Forall (fun d => 0 <= d) l -> total + sumZ l <= u64_max ->
  sum_durations total l = Ret (total + sumZ l).
Proof.
  intros Ht Hl Hle. rewrite sum_durations_spec by done. destruct (u64_max <? total + sumZ l) eqn:E; [lia | done].
Qed.

(** ** Shares of the compute phase *)

(** The time, rounded up, at which [index + 1] of [n] parts of [d] are done. *)
Definition share_end (d n index : Z) : Z := (d * (index + 1) + (n - 1)) / n.

Lemma share_end_bounds d n index : 0 <= d -> 0 < n -> 0 <= index < n -> 0 <= share_end d n index <= d.
Proof.
  intros Hd Hn Hi. unfold share_end. split; [apply Z.div_pos; nia |].
  assert (d * (index + 1) <= d * n) by nia.
  transitivity ((d * n + (n - 1)) / n); [apply Z.div_le_mono; lia |].
  rewrite Z.add_comm, Z.div_add by lia. rewrite Z.div_small by lia. lia.
Qed.

Lemma share_end_last d n : 0 < n -> share_end d n (n - 1) = d.
Proof.
  intros Hn. unfold share_end. replace (d * (n - 1 + 1) + (n - 1)) with ((n - 1) + d * n) by lia.
  rewrite Z.div_add, Z.div_small by lia. lia.
Qed.

Lemma share_end_mono d n i j : 0 <= d -> 0 < n -> i <= j -> share_end d n i <= share_end d n j.
Proof. intros Hd Hn Hij. unfold share_end. apply Z.div_le_mono; [done | nia]. Qed.

Lemma compute_offset_spec d n index : u64 d -> 0 < n <= u32_max -> 0 <= index < n ->
  compute_offset d n index = Ret (share_end d n index).
Proof.
  intros Hd Hn Hi. unfold compute_offset.
  assert (u32_wrap (index + 1) = index + 1) as -> by (unfold u32_wrap; apply Z.mod_small; word_lia).
  pose proof (Z.mod_pos_bound d n ltac:(lia)) as Hm. pose proof (Z.div_mod d n ltac:(lia)) as Hdm.
  pose proof (Z.div_pos d n ltac:(word_lia) ltac:(lia)) as Hq. set (q := d / n) in *. set (m := d mod n) in *.
  assert (q * (index + 1) <= d) by nia.
  assert (m * (index + 1) + n - 1 < 2 ^ 64) as Hlt by (unfold u32_max in Hn; nia).
  rewrite checked_product_ret by (word_lia || nia).
  rewrite checked_product_ret by (word_lia || nia). rewrite u64_wrap_id by (split; [nia | word_lia]).
  assert (share_end d n index = q * (index + 1) + (m * (index + 1) + n - 1) / n) as Hs.
  { unfold share_end. rewrite Hdm. replace ((n * q + m) * (index + 1) + (n - 1))
      with ((m * (index + 1) + n - 1) + q * (index + 1) * n) by lia. rewrite Z.div_add by lia. lia. }
  pose proof (share_end_bounds d n index ltac:(word_lia) ltac:(lia) Hi).
  rewrite checked_sum_ret; [by rewrite Hs | split; [nia | word_lia] | apply Z.div_pos; nia | rewrite <- Hs; word_lia].
Qed.

(** ** Snapshots *)

Definition width (r : JobRecord) : Z := zlength (js_compute (jb_spec r)).

Definition compute_sum (r : JobRecord) : Z := sumZ (js_compute (jb_spec r)).

(** On GPUs, and not finished. *)
Definition busy (r : JobRecord) : bool := jb_assigned r && negb (terminal (jb_state r)).

(** GPU time of the step under way up to [end_], worker by worker. *)
Definition elapsed_compute (r : JobRecord) (end_ : Z) : Z :=
  sumZ ((fun d => Z.min d (end_ - jb_step_started r)) <$> js_compute (jb_spec r)).

(** What the job has computed: all compute of the steps it completed, and for each
    worker the part of the step under way when it ended, or by [now]. *)
Definition worked (r : JobRecord) (now : Z) : Z :=
  match jb_allocated_at r with
  | None => 0
  | Some _ => jb_step r * compute_sum r +
      (if decide (jb_state r = JobState_Succeeded) then 0 else elapsed_compute r (default now (jb_finished r)))
  end.

(** GPU time computed up to [now], from the account of the record. *)
Definition computed (r : JobRecord) (now : Z) : Z :=
  jb_compute_gpu_ns r +
  if busy r then sumZ ((fun d => Z.min d (now - jb_step_started r)) <$> js_compute (jb_spec r)) else 0.

(** GPU time allocated up to the end of the job or [now]. *)
Definition allocated (r : JobRecord) (now : Z) : Z :=
  match jb_allocated_at r with
  | Some at_ => (default now (jb_finished r) - at_) * zlength (js_workers (jb_spec r))
  | None => 0
  end.

(** What the accounts of a job say at time [now]. *)
Record accounts (now : Z) (r : JobRecord) : Prop := {
  ac_words : u64 (js_arrival (jb_spec r)) /\ Forall (fun d => 0 < d) (js_compute (jb_spec r)) /\
    compute_sum r * js_steps (jb_spec r) <= u64_max;
  ac_steps : 0 <= jb_step r <= js_steps (jb_spec r) /\ 1 <= js_steps (jb_spec r) <= u32_max;
  ac_assigned : jb_assigned r = true <-> is_Some (jb_allocated_at r);
  ac_compute : 0 <= jb_compute_gpu_ns r <= js_steps (jb_spec r) * compute_sum r;
  ac_finished : is_Some (jb_finished r) <-> terminal (jb_state r) = true;
  ac_finished_now f : jb_finished r = Some f -> 0 <= f <= now;
  ac_allocated a : jb_allocated_at r = Some a ->
    js_arrival (jb_spec r) <= a /\ a <= default now (jb_finished r) /\
    zlength (js_workers (jb_spec r)) = width r /\
    (terminal (jb_state r) = true ->
       jb_compute_gpu_ns r <= (default now (jb_finished r) - a) * width r) /\
    (terminal (jb_state r) = false -> jb_step r < js_steps (jb_spec r) /\
       a <= jb_step_started r <= now /\ jb_compute_gpu_ns r = jb_step r * compute_sum r /\
       jb_compute_gpu_ns r <= (jb_step_started r - a) * width r);
  ac_unallocated : jb_allocated_at r = None -> jb_compute_gpu_ns r = 0 /\ jb_step r = 0;
  ac_succeeded : jb_state r = JobState_Succeeded ->
    jb_step r = js_steps (jb_spec r) /\ jb_compute_gpu_ns r = js_steps (jb_spec r) * compute_sum r;
  ac_interrupted f : jb_finished r = Some f -> jb_assigned r = true -> jb_state r <> JobState_Succeeded ->
    jb_step_started r <= f /\ jb_compute_gpu_ns r = jb_step r * compute_sum r + elapsed_compute r f;
}.

Lemma sumZ_le_map (f g : Z -> Z) l : (forall d, d ∈ l -> f d <= g d) -> sumZ (f <$> l) <= sumZ (g <$> l).
Proof.
  induction l as [| d l IH]; intros Hle; [done |]. rewrite !fmap_cons, !sumZ_cons.
  pose proof (Hle d ltac:(left)). enough (sumZ (f <$> l) <= sumZ (g <$> l)) by lia.
  apply IH. intros x Hx. apply Hle. by right.
Qed.

Lemma sumZ_const (c : Z) (l : list Z) : sumZ ((fun _ => c) <$> l) = zlength l * c.
Proof. induction l as [| d l IH]; [done |]. rewrite fmap_cons, sumZ_cons, zlength_cons, IH. lia. Qed.

Section Snapshot.
Context (t now : Z) (r : JobRecord) (Hr : accounts t r) (Ht : t <= now) (Hnow : u64 now).

Lemma accounts_time : default now (jb_finished r) <= now /\ u64 (default now (jb_finished r)).
Proof.
  destruct (jb_finished r) as [f |] eqn:Hf; cbn; [| split; [lia | done]].
  pose proof (ac_finished_now _ _ Hr f Hf). split; [lia | word_lia].
Qed.

Lemma busy_facts : busy r = true ->
  terminal (jb_state r) = false /\ jb_finished r = None /\ exists a, jb_allocated_at r = Some a.
Proof.
  unfold busy. intros [Ha Hs%negb_true_iff]%andb_true_iff. split; [done |]. split.
  - destruct (jb_finished r) eqn:Hf; [| done]. assert (terminal (jb_state r) = true) by (apply (ac_finished _ _ Hr); eauto).
    congruence.
  - by apply (ac_assigned _ _ Hr) in Ha.
Qed.

(** The share of the current step. *)
Lemma partial_sum : busy r = true ->
  let l := (fun d => Z.min d (now - jb_step_started r)) <$> js_compute (jb_spec r) in
  Forall (fun d => 0 <= d) l /\ 0 <= sumZ l <= compute_sum r /\ sumZ l <= width r * (now - jb_step_started r).
Proof.
  intros Hb l. destruct (busy_facts Hb) as (Hs & Hf & a & Ha).
  destruct (ac_allocated _ _ Hr a Ha) as (_ & _ & _ & _ & Hstep). destruct (Hstep Hs) as (_ & Hst & _).
  destruct (ac_words _ _ Hr) as (_ & Hpos & _). rewrite Forall_forall in Hpos.
  assert (Forall (fun d => 0 <= d) l) as Hl.
  { apply Forall_forall. intros x (d & -> & Hd)%list_elem_of_fmap. specialize (Hpos d Hd). lia. }
  split; [done |]. split; [split; [by apply sumZ_nonneg |] |].
  - unfold l, compute_sum. etrans; [apply (sumZ_le_map _ id); intros d _; cbn; lia | by rewrite list_fmap_id].
  - unfold l, width. rewrite <- sumZ_const. apply sumZ_le_map. intros d _. lia.
Qed.

Lemma compute_sum_nonneg : 0 <= compute_sum r.
Proof.
  destruct (ac_words _ _ Hr) as (_ & Hpos & _). apply sumZ_nonneg.
  apply (Forall_impl _ _ _ Hpos). lia.
Qed.

(** No more than what was allocated, nor than what the job has to do. *)
Lemma computed_bounds :
  0 <= computed r now <= js_steps (jb_spec r) * compute_sum r /\ computed r now <= allocated r now.
Proof.
  pose proof compute_sum_nonneg as Hc. pose proof (ac_compute _ _ Hr) as H0. unfold computed, allocated.
  destruct (busy r) eqn:Hb.
  - destruct (busy_facts Hb) as (Hs & Hf & a & Ha). rewrite Ha, Hf. cbn.
    destruct (partial_sum Hb) as (_ & P1 & P2). destruct (ac_allocated _ _ Hr a Ha) as (_ & _ & Hw & _ & Hstep).
    destruct (Hstep Hs) as (L1 & L2 & L3 & L4). rewrite Hw. destruct (ac_steps _ _ Hr) as [S1 S2]. split; nia.
  - rewrite Z.add_0_r. split; [done |]. destruct (jb_allocated_at r) as [a |] eqn:Ha.
    2:{ destruct (ac_unallocated _ _ Hr Ha). lia. }
    assert (jb_assigned r = true) as Hasg by (apply (ac_assigned _ _ Hr); eauto).
    assert (terminal (jb_state r) = true) as Hs.
    { unfold busy in Hb. rewrite Hasg in Hb. by destruct (terminal (jb_state r)). }
    destruct (ac_allocated _ _ Hr a Ha) as (_ & _ & Hw & Hterm & _). specialize (Hterm Hs).
    destruct (jb_finished r) as [f |] eqn:Hf; [by rewrite Hw |].
    apply (ac_finished _ _ Hr) in Hs. rewrite Hf in Hs. by destruct Hs.
Qed.

(** The account of the record is right. *)
Lemma computed_worked : computed r now = worked r now.
Proof.
  unfold computed, worked. fold (elapsed_compute r now). destruct (jb_allocated_at r) as [a |] eqn:Ha.
  2:{ destruct (ac_unallocated _ _ Hr Ha) as [-> _]. destruct (busy r) eqn:Hb; [| done]. destruct (busy_facts Hb) as (_ & _ & a & Ha'). congruence. }
  assert (jb_assigned r = true) as Hasg by (apply (ac_assigned _ _ Hr); eauto).
  destruct (busy r) eqn:Hb.
  - destruct (busy_facts Hb) as (Hs & Hf & _). destruct (ac_allocated _ _ Hr a Ha) as (_ & _ & _ & _ & Hstep).
    destruct (Hstep Hs) as (_ & _ & -> & _). rewrite Hf. rewrite decide_False; [done |]. intros Hsu. by rewrite Hsu in Hs.
  - assert (terminal (jb_state r) = true) as Hs by (unfold busy in Hb; rewrite Hasg in Hb; by destruct (terminal (jb_state r))).
    case_decide as Hsu; [destruct (ac_succeeded _ _ Hr Hsu) as [-> ->]; lia |].
    apply (ac_finished _ _ Hr) in Hs as [f Hf]. destruct (ac_interrupted _ _ Hr f Hf Hasg Hsu) as [_ ->]. rewrite Hf. cbn. lia.
Qed.

Lemma allocated_nonneg : 0 <= allocated r now.
Proof. pose proof computed_bounds. lia. Qed.

(** Before the arrival nothing was allocated. *)
Lemma early_unallocated : default now (jb_finished r) < js_arrival (jb_spec r) ->
  jb_allocated_at r = None.
Proof.
  intros He. destruct (jb_allocated_at r) as [a |] eqn:Ha; [| done].
  destruct (ac_allocated _ _ Hr a Ha) as (H1 & H2 & _). destruct (jb_finished r); cbn in *; lia.
Qed.

(** The snapshot of a job, which only an overflow of the allocated time refuses. *)
Definition expected_snapshot : JobSnapshot :=
  let end_ := default now (jb_finished r) in
  let arrival := js_arrival (jb_spec r) in
  mkJobSnapshot (jb_id r) (jb_state r) (jb_step r) arrival (jb_finished r) (computed r now)
    (allocated r now - computed r now) (Z.max 0 (end_ - arrival)) (jb_reason r) (jb_allocated_at r)
    (Z.max 0 (default end_ (jb_allocated_at r) - arrival)).

Lemma inspect_spec :
  inspect r now = if u64_max <? allocated r now then Throw (overflow_error "workload quantity overflow")
                  else Ret expected_snapshot.
Proof.
  destruct accounts_time as [Hend Hu]. destruct (ac_words _ _ Hr) as (Harr & _ & Hsum).
  pose proof computed_bounds as [C1 C2]. pose proof allocated_nonneg as Hal. rewrite Z.mul_comm in Hsum.
  pose proof (ac_compute _ _ Hr) as C0.
  unfold inspect, expected_snapshot. fold (busy r). set (end_ := default now (jb_finished r)) in *.
  destruct (end_ <? js_arrival (jb_spec r)) eqn:Hlt.
  - assert (jb_allocated_at r = None) as Ha by (apply early_unallocated; subst end_; lia).
    assert (allocated r now = 0) as H0 by (unfold allocated; by rewrite Ha). rewrite H0, Ha in *. cbn [from_option id].
    replace (computed r now) with 0 by lia. rewrite !Z.max_l by lia. done.
  - rewrite (u64_wrap_id (end_ - _)) by word_lia. rewrite (Z.max_r 0 (end_ - _)) by lia.
    assert (forall k, match (if busy r then if now <? jb_step_started r
        then Throw (invalid_argument "snapshot precedes current step")
        else sum_durations (jb_compute_gpu_ns r) ((fun d => Z.min d (u64_wrap (now - jb_step_started r))) <$> js_compute (jb_spec r))
        else Ret (jb_compute_gpu_ns r)) with Throw e => Throw e | Ret c => k c end = (k (computed r now) : outcome JobSnapshot)) as ->.
    { intros k. unfold computed in *. destruct (busy r) eqn:Hb; [| by rewrite Z.add_0_r].
      destruct (busy_facts Hb) as (Hs & Hf & a & Ha). destruct (partial_sum Hb) as (P0 & P1 & _).
      destruct (ac_allocated _ _ Hr a Ha) as (A1 & _ & _ & _ & Hstep). destruct (Hstep Hs) as (_ & L2 & _).
      rewrite u64_wrap_id by word_lia. destruct (now <? jb_step_started r) eqn:Hs'; [lia |].
      rewrite sum_durations_ret; [done | split; lia | done | lia]. }
    destruct (jb_allocated_at r) as [a |] eqn:Ha; cbn [from_option id].
    + destruct (ac_allocated _ _ Hr a Ha) as (A1 & A2 & _).
      assert (a <= end_) by (subst end_; destruct (jb_finished r); cbn in *; lia).
      rewrite !u64_wrap_id by word_lia. rewrite checked_product_spec by (word_lia || apply zlength_nonneg).
      replace ((end_ - a) * zlength (js_workers (jb_spec r))) with (allocated r now) by (unfold allocated; by rewrite Ha).
      destruct (u64_max <? allocated r now) eqn:Hov; [done |].
      destruct (computed r now >? allocated r now) eqn:Hgt; [lia |].
      rewrite u64_wrap_id by (split; lia). rewrite Z.max_r by lia. done.
    + assert (allocated r now = 0) as H0 by (unfold allocated; by rewrite Ha). rewrite H0 in *.
      replace (computed r now) with 0 by lia. cbn. rewrite !u64_wrap_id by word_lia. rewrite Z.max_r by lia. done.
Qed.
End Snapshot.

(** ** What the engine needs from the cluster

    Times and identifiers are stable while an event is handled; events stay
    scheduled until they are cancelled; collectives get new identifiers. *)

Class ClusterLaws (X : Type) `{Cluster X} : Type := {
  cs_ok : X -> Prop;
  cs_live : X -> gmap EventId Event;
  cs_known : X -> CollectiveId -> Prop;
  cs_later : relation X;
  cs_later_preorder :: PreOrder cs_later;
  cs_later_ok x x' : cs_later x x' -> cs_ok x -> cs_ok x';
  cs_later_now x x' : cs_later x x' -> cs_ok x -> cs_now x' = cs_now x;
  cs_later_known x x' c : cs_later x x' -> cs_known x c -> cs_known x' c;
  cs_now_u64 x : cs_ok x -> u64 (cs_now x);
  cs_live_future x id e : cs_ok x -> cs_live x !! id = Some e -> cs_now x <= ev_timestamp e;
  cs_schedule_law spec x : cs_ok x -> u64 (spec_timestamp spec) ->
    wp (cs_schedule spec)
      (fun x' id => cs_later x x' /\ cs_live x !! id = None /\
         exists e, cs_live x' = <[id := e]> (cs_live x) /\
           ev_timestamp e = spec_timestamp spec /\ ev_payload e = spec_payload spec)
      (fun _ _ => True) x;
  cs_cancel_event_law id x : cs_ok x ->
    wp (cs_cancel_event id)
      (fun x' _ => cs_later x x' /\ forall id', id' <> id -> cs_live x' !! id' = cs_live x !! id')
      (fun _ _ => True) x;
  cs_submit_law request x : cs_ok x -> u64 (cq_bytes request) -> u64 (cq_chunk_bytes request) ->
    wp (cs_submit request)
      (fun x' c => cs_later x x' /\ cs_live x ⊆ cs_live x' /\ ~ cs_known x c /\ cs_known x' c)
      (fun _ _ => True) x;
  cs_cancel_law c x : cs_ok x ->
    wp (cs_cancel c) (fun x' _ => cs_later x x' /\ cs_live x ⊆ cs_live x') (fun _ _ => True) x;
  cs_record_law sink now correlation o x : cs_ok x ->
    wp (cs_sink_record sink now correlation o)
      (fun x' _ => cs_later x x' /\ cs_live x ⊆ cs_live x') (fun _ _ => True) x;
}.
