(* ===== verification/WorkloadInv.v ===== *)
(** * The invariant of the workload engine

    What holds of one job between two events, and of the tables of the engine:
    GPUs, collectives and reports agree with the records of the jobs. *)

From S2P Require Import Prelude SimTime Entities TelemetryRecords EventQueue SimContext.
From S2P Require Import Topology CollectivePlan CollectiveRuntime Scheduling SchedulingLaws.
From S2P Require Import Workload WorkloadRuntime WorkloadLaws.

(** ** The compute events of a step *)

Section Cells.
Implicit Types (r : JobRecord).

Definition cell_range r (w i : Z) : Prop := 0 <= w < width r /\ 0 <= i < events_per_worker r.

Definition cell r (w i : Z) : option (option EventId) := jb_events r !! event_slot r w i.

Definition index_of r (bucket : Z) : Z := if js_overlap (jb_spec r) then bucket else 0.

Definition bucket_of r (index : Z) : Z := if js_overlap (jb_spec r) then index else jb_buckets r - 1.

Definition duration r (w : Z) : Z := default 0 (js_compute (jb_spec r) !! Z.to_nat w).

(** When the share is done. *)
Definition due r (w i : Z) : Z := jb_step_started r + share_end (duration r w) (events_per_worker r) i.

(** The workers whose share is done. *)
Definition passed r (i : Z) : Z := zlength (filter (fun w => cell r w i = Some None) (seqZ 0 (width r))).

(** What validation established. *)
Record spec_ok r : Prop := {
  so_buckets : 1 <= jb_buckets r <= u32_max;
  so_bucket_count : jb_buckets r = bucket_count (jb_spec r);
  so_bytes : 0 < js_gradient_bytes (jb_spec r) <= u64_max /\ 0 < js_bucket_bytes (jb_spec r) <= u64_max /\
    0 < js_chunk_bytes (jb_spec r) <= u64_max;
  so_width : 1 <= width r <= 8192;
  so_workers : js_workers (jb_spec r) = [] \/
    NoDup (js_workers (jb_spec r)) /\ zlength (js_workers (jb_spec r)) = width r;
}.

Lemma events_per_worker_pos r : spec_ok r -> 1 <= events_per_worker r <= u32_max.
Proof. intros Hs. unfold events_per_worker. pose proof (so_buckets _ Hs). destruct (js_overlap _); word_lia. Qed.

Lemma index_range r b : spec_ok r -> 0 <= b < jb_buckets r -> 0 <= index_of r b < events_per_worker r.
Proof. intros Hs Hb. unfold index_of, events_per_worker. destruct (js_overlap _); lia. Qed.

Lemma bucket_range r i : spec_ok r -> 0 <= i < events_per_worker r -> 0 <= bucket_of r i < jb_buckets r.
Proof. intros Hs Hi. pose proof (so_buckets _ Hs). unfold bucket_of, events_per_worker in *. destruct (js_overlap _); lia. Qed.

Lemma index_of_bucket r i : 0 <= i < events_per_worker r -> index_of r (bucket_of r i) = i.
Proof. unfold index_of, bucket_of, events_per_worker. destruct (js_overlap _); lia. Qed.

(** The last bucket is the last share. *)
Lemma index_last r : spec_ok r -> index_of r (jb_buckets r - 1) = events_per_worker r - 1.
Proof. intros Hs. unfold index_of, events_per_worker. destruct (js_overlap _); lia. Qed.

Lemma slot_exact r w i : spec_ok r -> cell_range r w i ->
  event_slot r w i = Z.to_nat (w * events_per_worker r + i) /\
  0 <= w * events_per_worker r + i < width r * events_per_worker r.
Proof.
  intros Hs [Hw Hi]. pose proof (events_per_worker_pos r Hs). pose proof (so_width _ Hs).
  assert (0 <= w * events_per_worker r + i < width r * events_per_worker r) as Hb by nia. split; [| done].
  unfold event_slot. rewrite u64_wrap_id; [done |]. unfold u64, u32_max, u64_max in *. nia.
Qed.

Lemma event_slot_inj r w i w' i' : spec_ok r -> cell_range r w i -> cell_range r w' i' ->
  event_slot r w i = event_slot r w' i' -> w = w' /\ i = i'.
Proof.
  intros Hs H1 H2. destruct (slot_exact r w i Hs H1) as [-> B1], (slot_exact r w' i' Hs H2) as [-> B2].
  intros Heq. assert (w * events_per_worker r + i = w' * events_per_worker r + i') by lia.
  destruct H1 as [_ I1], H2 as [_ I2]. assert (w = w') as -> by nia. lia.
Qed.

(** Every entry is a cell. *)
Lemma slot_surj r k o : spec_ok r -> length (jb_events r) = Z.to_nat (width r * events_per_worker r) ->
  jb_events r !! k = Some o -> exists w i, cell_range r w i /\ cell r w i = Some o.
Proof.
  intros Hs Hlen Hk. pose proof (lookup_lt_Some _ _ _ Hk) as Hlt. rewrite Hlen in Hlt.
  pose proof (events_per_worker_pos r Hs). pose proof (so_width _ Hs). set (n := events_per_worker r) in *.
  pose proof (Z.div_mod (Z.of_nat k) n ltac:(lia)). pose proof (Z.mod_pos_bound (Z.of_nat k) n ltac:(lia)).
  exists (Z.of_nat k / n), (Z.of_nat k mod n).
  assert (cell_range r (Z.of_nat k / n) (Z.of_nat k mod n)) as Hr.
  { split; [split; [apply Z.div_pos; lia | apply Z.div_lt_upper_bound; nia] | done]. }
  split; [done |]. unfold cell. destruct (slot_exact r _ _ Hs Hr) as [-> _]. fold n.
  replace (Z.of_nat k / n * n + Z.of_nat k mod n) with (Z.of_nat k) by lia. by rewrite Nat2Z.id.
Qed.

Lemma cell_some r w i : spec_ok r -> length (jb_events r) = Z.to_nat (width r * events_per_worker r) ->
  cell_range r w i -> is_Some (cell r w i).
Proof.
  intros Hs Hlen Hr. destruct (slot_exact r w i Hs Hr) as [E B]. apply lookup_lt_is_Some. rewrite E, Hlen. lia.
Qed.

Lemma passed_range r i : spec_ok r -> 0 <= passed r i <= width r.
Proof.
  intros Hs. pose proof (so_width _ Hs). unfold passed, zlength.
  pose proof (length_filter (fun w => cell r w i = Some None) (seqZ 0 (width r))) as Hl. rewrite length_seqZ in Hl. lia.
Qed.

(** All workers are done. *)
Lemma passed_all r i w : spec_ok r -> passed r i = width r -> 0 <= w < width r -> cell r w i = Some None.
Proof.
  intros Hs Hp Hw. unfold passed, zlength in Hp. pose proof (so_width _ Hs).
  set (l := seqZ 0 (width r)) in *.
  assert (length (filter (fun w => cell r w i = Some None) l) = length l) as Hl by (unfold l at 2; rewrite length_seqZ; lia).
  assert (w ∈ filter (fun w => cell r w i = Some None) l) as Hin; [| by apply list_elem_of_filter in Hin as [? _]].
  rewrite filter_length_full; [by apply elem_of_seqZ; lia | done].
Qed.

Lemma passed_not_all r i : spec_ok r -> length (jb_events r) = Z.to_nat (width r * events_per_worker r) ->
  0 <= i < events_per_worker r -> passed r i <> width r ->
  exists w e, cell_range r w i /\ cell r w i = Some (Some e).
Proof.
  intros Hs Hlen Hi Hne. pose proof (so_width _ Hs).
  destruct (decide (Exists (fun w => cell r w i <> Some None) (seqZ 0 (width r)))) as [He | He].
  - apply Exists_exists in He as (w & Hw%elem_of_seqZ & Hc). assert (cell_range r w i) as Hr by (split; [lia | done]).
    destruct (cell_some r w i Hs Hlen Hr) as [[e |] Ho]; [eauto | congruence].
  - exfalso. apply Hne. unfold passed. rewrite filter_all; [unfold zlength; rewrite length_seqZ; lia |].
    intros w Hw. destruct (decide (cell r w i = Some None)) as [| Hc]; [done |].
    exfalso. apply He, Exists_exists. eauto.
Qed.

(** A share gets done. *)
Definition pass_cell r (w i : Z) : JobRecord :=
  {| r with jb_events := <[event_slot r w i := None]> (jb_events r) |}.

Lemma cell_pass r w i w' i' : spec_ok r -> length (jb_events r) = Z.to_nat (width r * events_per_worker r) ->
  cell_range r w i -> cell_range r w' i' ->
  cell (pass_cell r w i) w' i' = if decide (w = w' /\ i = i') then Some None else cell r w' i'.
Proof.
  intros Hs Hlen H1 H2. change (cell (pass_cell r w i) w' i')
    with (<[event_slot r w i := None]> (jb_events r) !! event_slot r w' i').
  destruct (decide (w = w' /\ i = i')) as [[-> ->] | Hne].
  - apply list_lookup_insert_eq. destruct (slot_exact r w' i' Hs H1) as [-> ?]. rewrite Hlen. lia.
  - rewrite list_lookup_insert_ne; [done |]. intros Heq. apply Hne. by apply (event_slot_inj r).
Qed.

Lemma passed_pass r w i e i' : spec_ok r -> length (jb_events r) = Z.to_nat (width r * events_per_worker r) ->
  cell_range r w i -> cell r w i = Some (Some e) -> 0 <= i' < events_per_worker r ->
  passed (pass_cell r w i) i' = if decide (i = i') then passed r i' + 1 else passed r i'.
Proof.
  intros Hs Hlen Hr Hc Hi'. unfold passed. change (width (pass_cell r w i)) with (width r).
  assert (forall w', w' ∈ seqZ 0 (width r) -> cell_range r w' i') as Hrange
    by (intros w' Hw'%elem_of_seqZ; split; [lia | done]).
  destruct (decide (i = i')) as [<- | Hne].
  - rewrite (filter_length_flip (fun w => cell r w i = Some None) _ _ w).
    + by rewrite Z.add_comm.
    + apply NoDup_seqZ.
    + apply elem_of_seqZ. destruct Hr. lia.
    + rewrite Hc. done.
    + rewrite cell_pass by done. by rewrite decide_True.
    + intros w' Hw' Hww'. rewrite cell_pass by auto. by rewrite decide_False by (intros [? ?]; congruence).
  - f_equal. apply filter_ext_in. intros w' Hw'. rewrite cell_pass by auto. by rewrite decide_False by (intros [? ?]; congruence).
Qed.
End Cells.

(** ** One job *)

Definition queued (s : JobState) : bool :=
  bool_decide (s = JobState_Scheduled) || bool_decide (s = JobState_Waiting).

Section Job.
Implicit Types (r : JobRecord) (L : gmap EventId Event) (id : JobId) (e : EventId).

Definition compute_payload id r (w i : Z) : EventPayload :=
  Workload_ (mkWorkloadEvent id ComputeReady w (jb_step r) (bucket_of r i)).

(** The event is scheduled for the given time. *)
Definition scheduled L e (time : SimTimeNs) (payload : EventPayload) : Prop :=
  exists ev, L !! e = Some ev /\ ev_timestamp ev = time /\ ev_payload ev = payload.

(** The current step. *)
Record step_ok (now : Z) L id r : Prop := {
  st_workers : zlength (js_workers (jb_spec r)) = width r;
  st_events_len : length (jb_events r) = Z.to_nat (width r * events_per_worker r);
  st_pending w i e : cell_range r w i -> cell r w i = Some (Some e) ->
    scheduled L e (due r w i) (compute_payload id r w i);
  st_passed w i : cell_range r w i -> cell r w i = Some None -> due r w i <= now;
  st_ready_len : length (jb_ready r) = Z.to_nat (jb_buckets r);
  st_ready b : 0 <= b < jb_buckets r -> jb_ready r !! Z.to_nat b = Some (passed r (index_of r b));
  st_complete : jb_compute_complete r = passed r (events_per_worker r - 1);
  st_buckets : 0 <= jb_completed_buckets r < jb_buckets r;
  st_order b : 0 <= b < jb_completed_buckets r \/ b = jb_completed_buckets r /\ is_Some (jb_active_collective r) ->
    passed r (index_of r b) = width r;
}.

(** A bucket that is ready is being reduced. *)
Definition moving r : Prop :=
  jb_active_collective r = None -> passed r (index_of r (jb_completed_buckets r)) <> width r.

Definition arrival_payload id : EventPayload := Workload_ (mkWorkloadEvent id Arrival 0 0 0).

Record job_ok (now : Z) L id r : Prop := {
  jo_id : jb_id r = id;
  jo_spec : spec_ok r;
  jo_accounts : accounts now r;
  jo_assigned : terminal (jb_state r) = false -> jb_assigned r = negb (queued (jb_state r));
  jo_arrival : match jb_state r with
    | JobState_Scheduled => exists e, jb_arrival_event r = Some e /\
        scheduled L e (js_arrival (jb_spec r)) (arrival_payload id)
    | _ => jb_arrival_event r = None
    end;
  jo_waiting : jb_state r = JobState_Waiting -> js_arrival (jb_spec r) <= now;
  jo_queued : queued (jb_state r) = true -> jb_active_collective r = None /\ jb_events r = [];
  jo_step : busy r = true -> step_ok now L id r /\ moving r;
}.

(** The events a job waits for. *)
Definition pending r e : Prop := Some e ∈ jb_events r \/ jb_arrival_event r = Some e.

Lemma scheduled_kept L L' e time payload :
  (forall ev, L !! e = Some ev -> L' !! e = Some ev) -> scheduled L e time payload -> scheduled L' e time payload.
Proof. intros Hk (ev & Hev & ?). exists ev. auto. Qed.

Lemma accounts_later now now' r : now <= now' -> accounts now r -> accounts now' r.
Proof.
  intros Hle [H1 H2 H3 H4 H5 H6 H7 H8 H9 H10]. split; try done.
  - intros f Hf. specialize (H6 f Hf). lia.
  - intros a Ha. destruct (H7 a Ha) as (A1 & A2 & A3 & A4 & A5). destruct (jb_finished r) as [f |] eqn:Hf; cbn in *.
    + split_and!; try done. intros Hs. destruct (A5 Hs) as (? & ? & ?). split_and!; try done; lia.
    + assert (terminal (jb_state r) = false) as Hs.
      { destruct (terminal (jb_state r)); [| done]. by destruct (proj2 H5 eq_refl). }
      destruct (A5 Hs) as (? & ? & ? & ?). split_and!; try done; try lia; congruence || (intros; split_and!; done || lia).
Qed.

Lemma cell_pending r w i e : cell r w i = Some (Some e) -> pending r e.
Proof. intros Hc. left. by eapply list_elem_of_lookup_2. Qed.

(** Time passes and other events come and go. *)
Lemma step_ok_later now now' L L' id r :
  step_ok now L id r -> now <= now' ->
  (forall e ev, pending r e -> L !! e = Some ev -> L' !! e = Some ev) -> step_ok now' L' id r.
Proof.
  intros [H1 H2 H3 H4 H5 H6 H7 H8 H9] Hle Hk. split; try done.
  - intros w i e Hr Hc. eapply scheduled_kept; [| by eapply H3]. intros ev. apply Hk. by eapply cell_pending.
  - intros w i Hr Hc. specialize (H4 w i Hr Hc). lia.
Qed.

Lemma job_ok_later now now' L L' id r :
  job_ok now L id r -> now <= now' ->
  (forall e ev, pending r e -> L !! e = Some ev -> L' !! e = Some ev) -> job_ok now' L' id r.
Proof.
  intros [H1 H2 H3 H4 H5 H6 H7 H8] Hle Hk. split; try done.
  - by eapply accounts_later.
  - destruct (jb_state r); try done. destruct H5 as (e & He & Hs). exists e. split; [done |].
    eapply scheduled_kept; [| done]. intros ev. apply Hk. by right.
  - intros Hw. specialize (H6 Hw). lia.
  - intros Hb. destruct (H8 Hb) as [Hs Hm]. split; [| done]. by eapply step_ok_later.
Qed.

(** An event a job waits for names the job. *)
Definition names id (ev : Event) : Prop :=
  ev_payload ev = arrival_payload id \/
  exists r w i, cell_range r w i /\ ev_payload ev = compute_payload id r w i.

Lemma busy_unfold r : busy r = true <-> jb_assigned r = true /\ terminal (jb_state r) = false.
Proof. unfold busy. by rewrite andb_true_iff, negb_true_iff. Qed.

Lemma job_busy now L id r : job_ok now L id r ->
  busy r = negb (terminal (jb_state r)) && negb (queued (jb_state r)).
Proof.
  intros Hok. unfold busy. destruct (terminal (jb_state r)) eqn:Ht; [by rewrite andb_false_r |].
  rewrite (jo_assigned _ _ _ _ Hok Ht). by rewrite andb_true_r.
Qed.

Lemma terminal_not_queued s : terminal s = true -> queued s = false.
Proof. by destruct s. Qed.

(** Where a pending event of a live job comes from. *)
Lemma job_pending now L id r e :
  job_ok now L id r -> terminal (jb_state r) = false -> pending r e ->
  (jb_state r = JobState_Scheduled /\ jb_arrival_event r = Some e /\
     scheduled L e (js_arrival (jb_spec r)) (arrival_payload id)) \/
  (busy r = true /\ exists w i, cell_range r w i /\ cell r w i = Some (Some e) /\
     scheduled L e (due r w i) (compute_payload id r w i)).
Proof.
  intros Hok Ht [He | He].
  - right. assert (busy r = true) as Hb.
    { rewrite (job_busy _ _ _ _ Hok), Ht. destruct (queued (jb_state r)) eqn:Hq; [| done].
      destruct (jo_queued _ _ _ _ Hok Hq) as [_ Hn]. rewrite Hn in He. by apply elem_of_nil in He. }
    split; [done |]. destruct (jo_step _ _ _ _ Hok Hb) as [Hs _].
    apply list_elem_of_lookup in He as [k Hk].
    destruct (slot_surj r k (Some e) (jo_spec _ _ _ _ Hok) (st_events_len _ _ _ _ Hs) Hk) as (w & i & Hr & Hc).
    exists w, i. split; [done | split; [done |]]. by apply Hs.
  - left. pose proof (jo_arrival _ _ _ _ Hok) as Ha. destruct (jb_state r); try congruence.
    destruct Ha as (e' & He' & Hs). rewrite He in He'. injection He' as <-. done.
Qed.

Lemma job_pending_names now L id r e ev :
  job_ok now L id r -> terminal (jb_state r) = false -> pending r e -> L !! e = Some ev -> names id ev.
Proof.
  intros Hok Ht Hp Hev. destruct (job_pending _ _ _ _ _ Hok Ht Hp) as
    [(_ & _ & ev' & Hev' & _ & Hpay) | (_ & w & i & Hr & _ & ev' & Hev' & _ & Hpay)];
    rewrite Hev in Hev'; injection Hev' as <-; [by left | right; eauto].
Qed.

Lemma names_inj id id' ev : names id ev -> names id' ev -> id = id'.
Proof.
  unfold names, arrival_payload, compute_payload.
  intros [H1 | (r1 & w1 & i1 & _ & H1)] [H2 | (r2 & w2 & i2 & _ & H2)]; congruence.
Qed.

(** A finished job waits for nothing. *)
Lemma job_ok_ended now L L' id r : job_ok now L id r -> terminal (jb_state r) = true -> job_ok now L' id r.
Proof.
  intros [H1 H2 H3 H4 H5 H6 H7 H8] Ht. split; try done.
  - by destruct (jb_state r).
  - intros [_ Hf]%busy_unfold. congruence.
Qed.
End Job.

(** ** Tables

    What the tables of the engine depend on of a job: its seat on GPUs, its
    collective and its report. *)

Definition seat (r : JobRecord) : option (list GpuId) :=
  if busy r then Some (js_workers (jb_spec r)) else None.

(** The snapshot of a finished job does not depend on the time. *)
Definition final_snapshot (r : JobRecord) : outcome JobSnapshot := inspect r 0.

Definition report (r : JobRecord) : option (outcome JobSnapshot) :=
  if terminal (jb_state r) then Some (final_snapshot r) else None.

Lemma inspect_ended r now f : jb_finished r = Some f -> terminal (jb_state r) = true ->
  inspect r now = final_snapshot r.
Proof. intros Hf Ht. unfold final_snapshot, inspect. rewrite Hf, Ht. cbn. by rewrite andb_false_r. Qed.

Lemma inspect_id r now s : inspect r now = Ret s -> sn_id s = jb_id r.
Proof.
  unfold inspect. cbv zeta.
  repeat match goal with |- context [if ?b then _ else _] => destruct b | |- context [match ?o with Ret _ => _ | Throw _ => _ end] => destruct o end;
    congruence || (by intros [= <-]).
Qed.

(** The GPUs in use and their jobs. *)
Definition owned_by (gpus : list Resource) (g : GpuId) (id : JobId) : Prop :=
  exists res, res ∈ gpus /\ res_gpu res = g /\ res_owner res = Some id.

Section Tables.
Implicit Types (J : gmap JobId JobRecord) (A : gmap GpuId JobId) (K : gmap CollectiveId JobId).
Implicit Types (log : list JobSnapshot) (id : JobId) (r : JobRecord) (inv : option (list Resource)).
Implicit Types (known : CollectiveId -> Prop).

Record tables J A K inv log known : Prop := {
  tb_dense id : is_Some (J !! id) <-> 0 <= id < Z.of_nat (size J);
  tb_ids id r : J !! id = Some r -> jb_id r = id;
  tb_assign g id : A !! g = Some id <-> exists r l, J !! id = Some r /\ seat r = Some l /\ g ∈ l;
  tb_collect c id : K !! c = Some id <-> exists r, J !! id = Some r /\ jb_active_collective r = Some c;
  tb_known c id : K !! c = Some id -> known c;
  tb_inventory gpus : inv = Some gpus ->
    inventory_ok gpus /\ forall g id, owned_by gpus g id <-> A !! g = Some id;
  tb_log_ids : NoDup (sn_id <$> log);
  tb_log s : s ∈ log <-> exists r, J !! sn_id s = Some r /\ report r = Some (Ret s);
  tb_reported id r e : J !! id = Some r -> report r <> Some (Throw e);
}.

Lemma tables_known J A K inv log known known' :
  (forall c, known c -> known' c) -> tables J A K inv log known -> tables J A K inv log known'.
Proof. intros Hk [H1 H2 H3 H4 H5 H6 H7 H8 H9]. split; try done. intros c id Hc. eauto. Qed.

Lemma tables_inventory J A K inv inv' log known :
  (forall gpus, inv' = Some gpus -> inventory_ok gpus /\ forall g id, owned_by gpus g id <-> A !! g = Some id) ->
  tables J A K inv log known -> tables J A K inv' log known.
Proof. intros Hi [H1 H2 H3 H4 H5 H6 H7 H8 H9]. by split. Qed.

Section Put.
Context (J : gmap JobId JobRecord) (id : JobId) (r r' : JobRecord) (Hr : J !! id = Some r).

Lemma put_dense : (forall i, is_Some (J !! i) <-> 0 <= i < Z.of_nat (size J)) ->
  forall i, is_Some (<[id := r']> J !! i) <-> 0 <= i < Z.of_nat (size (<[id := r']> J)).
Proof.
  intros Hd i. rewrite map_size_insert, Hr. destruct (decide (i = id)) as [-> | Hne].
  - rewrite lookup_insert_eq. split; [intros _; apply Hd; eauto | eauto].
  - by rewrite lookup_insert_ne.
Qed.

(** The two records differ in nothing [P] sees. *)
Lemma put_exists (P : JobRecord -> Prop) i : (P r' <-> P r) ->
  (exists x, <[id := r']> J !! i = Some x /\ P x) <-> (exists x, J !! i = Some x /\ P x).
Proof.
  intros Hp. destruct (decide (i = id)) as [-> | Hne].
  - rewrite lookup_insert_eq, Hr. split; intros (x & [= <-] & Hx); eexists; (split; [done | by apply Hp]).
  - by rewrite lookup_insert_ne.
Qed.

Lemma put_other (P : JobRecord -> Prop) i : i <> id ->
  (exists x, <[id := r']> J !! i = Some x /\ P x) <-> (exists x, J !! i = Some x /\ P x).
Proof. intros Hne. by rewrite lookup_insert_ne. Qed.

Lemma put_self (P : JobRecord -> Prop) : (exists x, <[id := r']> J !! id = Some x /\ P x) <-> P r'.
Proof. rewrite lookup_insert_eq. split; [by intros (x & [= <-] & ?) | eauto]. Qed.

Lemma get_self (P : JobRecord -> Prop) : (exists x, J !! id = Some x /\ P x) <-> P r.
Proof. rewrite Hr. split; [by intros (x & [= <-] & ?) | eauto]. Qed.

Lemma put_ids : (forall i x, J !! i = Some x -> jb_id x = i) -> jb_id r' = jb_id r ->
  forall i x, <[id := r']> J !! i = Some x -> jb_id x = i.
Proof. intros Hids Heq i x [[<- <-] | [Hne Hx]]%lookup_insert_Some; [rewrite Heq; by apply Hids | by apply Hids]. Qed.

Lemma put_reported : (forall i x e, J !! i = Some x -> report x <> Some (Throw e)) ->
  (forall e, report r' <> Some (Throw e)) -> forall i x e, <[id := r']> J !! i = Some x -> report x <> Some (Throw e).
Proof. intros Hrep Hn i x e [[<- <-] | [Hne Hx]]%lookup_insert_Some; [apply Hn | by eapply Hrep]. Qed.
End Put.

Lemma assign_unfold J g id : (exists r l, J !! id = Some r /\ seat r = Some l /\ g ∈ l) <->
  exists r, J !! id = Some r /\ (exists l, seat r = Some l /\ g ∈ l).
Proof. split; intros (r & H); exists r; [destruct H as (l & ? & ?); eauto | destruct H as (? & l & ?); eauto]. Qed.

(** The record changes in other respects. *)
Lemma jobs_put J A K inv log known id r r' :
  J !! id = Some r -> tables J A K inv log known ->
  jb_id r' = jb_id r -> seat r' = seat r -> jb_active_collective r' = jb_active_collective r ->
  report r' = report r -> tables (<[id := r']> J) A K inv log known.
Proof.
  intros Hr [H1 H2 H3 H4 H5 H6 H7 H8 H9] E0 E1 E2 E3. split; try done.
  - by eapply put_dense.
  - by eapply put_ids.
  - intros g i. rewrite H3, !assign_unfold. symmetry. apply (put_exists J id r); [done |]. by rewrite E1.
  - intros c i. rewrite H4. symmetry. apply (put_exists J id r); [done |]. by rewrite E2.
  - intros s. rewrite H8. symmetry. apply (put_exists J id r); [done |]. by rewrite E3.
  - apply put_reported; [done |]. intros e. rewrite E3. by eapply H9.
Qed.

(** A job gets GPUs that are free. *)
Lemma tables_seat J A K inv inv' log known id r r' l A' :
  J !! id = Some r -> tables J A K inv log known ->
  jb_id r' = jb_id r -> seat r = None -> seat r' = Some l -> jb_active_collective r' = jb_active_collective r ->
  report r' = report r ->
  (forall g, g ∈ l -> A !! g = None) -> (forall g, A' !! g = if decide (g ∈ l) then Some id else A !! g) ->
  (forall gpus, inv' = Some gpus -> inventory_ok gpus /\ forall g i, owned_by gpus g i <-> A' !! g = Some i) ->
  tables (<[id := r']> J) A' K inv' log known.
Proof.
  intros Hr [H1 H2 H3 H4 H5 H6 H7 H8 H9] E0 E1 E1' E2 E3 Hfree HA' Hinv. split; try done.
  - by eapply put_dense.
  - by eapply put_ids.
  - intros g i. rewrite assign_unfold, HA'. destruct (decide (i = id)) as [-> | Hne].
    + rewrite (put_self J id r'). destruct (decide (g ∈ l)) as [Hg | Hg]; [split; eauto |].
      split; [| by intros (l' & [= <-]%(eq_trans (eq_sym E1')) & ?)].
      intros (x & l' & Hx & Hl' & _)%H3. congruence.
    + rewrite put_other by done. rewrite <- assign_unfold, <- H3. destruct (decide (g ∈ l)) as [Hg | Hg]; [| done].
      rewrite (Hfree g Hg). split; congruence.
  - intros c i. rewrite H4. symmetry. apply (put_exists J id r); [done |]. by rewrite E2.
  - intros s. rewrite H8. symmetry. apply (put_exists J id r); [done |]. by rewrite E3.
  - apply put_reported; [done |]. intros e. rewrite E3. by eapply H9.
Qed.

(** A collective is started, or its result arrives. *)
Lemma tables_collect J A K inv log known id r r' c :
  J !! id = Some r -> tables J A K inv log known ->
  jb_id r' = jb_id r -> seat r' = seat r -> jb_active_collective r = None ->
  jb_active_collective r' = Some c -> report r' = report r -> K !! c = None -> known c ->
  tables (<[id := r']> J) A (<[c := id]> K) inv log known.
Proof.
  intros Hr [H1 H2 H3 H4 H5 H6 H7 H8 H9] E0 E1 E2 E2' E3 Hc Hk. split; try done.
  - by eapply put_dense.
  - by eapply put_ids.
  - intros g i. rewrite H3, !assign_unfold. symmetry. apply (put_exists J id r); [done |]. by rewrite E1.
  - intros c' i. destruct (decide (i = id)) as [-> | Hne].
    + rewrite (put_self J id r'), E2'. destruct (decide (c = c')) as [<- | Hcc].
      * by rewrite lookup_insert_eq.
      * rewrite lookup_insert_ne by done. split; [| congruence]. intros (x & Hx & ?)%H4. congruence.
    + rewrite put_other, <- H4 by done. destruct (decide (c = c')) as [<- | Hcc].
      * rewrite lookup_insert_eq, Hc. split; congruence.
      * by rewrite lookup_insert_ne.
  - intros c' i [[<- _] | [_ ?]]%lookup_insert_Some; [done | eauto].
  - intros s. rewrite H8. symmetry. apply (put_exists J id r); [done |]. by rewrite E3.
  - apply put_reported; [done |]. intros e. rewrite E3. by eapply H9.
Qed.

Lemma tables_uncollect J A K inv log known id r r' c :
  J !! id = Some r -> tables J A K inv log known ->
  jb_id r' = jb_id r -> seat r' = seat r -> jb_active_collective r = Some c ->
  jb_active_collective r' = None -> report r' = report r ->
  tables (<[id := r']> J) A (delete c K) inv log known.
Proof.
  intros Hr [H1 H2 H3 H4 H5 H6 H7 H8 H9] E0 E1 E2 E2' E3. split; try done.
  - by eapply put_dense.
  - by eapply put_ids.
  - intros g i. rewrite H3, !assign_unfold. symmetry. apply (put_exists J id r); [done |]. by rewrite E1.
  - assert (K !! c = Some id) as Hc by (apply H4; eauto). intros c' i.
    destruct (decide (c = c')) as [<- | Hcc]; rewrite ?lookup_delete_eq, ?lookup_delete_ne by done.
    + split; [done |]. intros (x & Hx & Hxc). destruct (decide (i = id)) as [-> | Hne].
      * rewrite lookup_insert_eq in Hx. congruence.
      * rewrite lookup_insert_ne in Hx by done. assert (K !! c = Some i) by (apply H4; eauto). congruence.
    + rewrite H4. destruct (decide (i = id)) as [-> | Hne]; [| by rewrite put_other].
      rewrite (put_self J id r'), (get_self J id r Hr). split; congruence.
  - intros c' i [_ ?]%lookup_delete_Some. eauto.
  - intros s. rewrite H8. symmetry. apply (put_exists J id r); [done |]. by rewrite E3.
  - apply put_reported; [done |]. intros e. rewrite E3. by eapply H9.
Qed.

(** A job ends: its GPUs are free and it is reported. *)
Lemma jobs_finish J A K inv inv' log known id r r' A' s :
  J !! id = Some r -> tables J A K inv log known ->
  jb_id r' = jb_id r -> report r = None -> seat r' = None ->
  jb_active_collective r' = jb_active_collective r -> report r' = Some (Ret s) -> sn_id s = id ->
  (forall g i, A' !! g = Some i <-> A !! g = Some i /\ i <> id) ->
  (forall gpus, inv' = Some gpus -> inventory_ok gpus /\ forall g i, owned_by gpus g i <-> A' !! g = Some i) ->
  tables (<[id := r']> J) A' K inv' (log ++ [s]) known.
Proof.
  intros Hr [H1 H2 H3 H4 H5 H6 H7 H8 H9] E0 E3 E1 E2 E3' Hs HA' Hinv. split; try done.
  - by eapply put_dense.
  - by eapply put_ids.
  - intros g i. rewrite assign_unfold, HA'. destruct (decide (i = id)) as [-> | Hne].
    + rewrite (put_self J id r'), E1. split; [tauto | by intros (? & ? & ?)].
    + rewrite put_other, <- assign_unfold, <- H3 by done. tauto.
  - intros c i. rewrite H4. symmetry. apply (put_exists J id r); [done |]. by rewrite E2.
  - rewrite fmap_app. apply NoDup_app. split; [done | split; [| apply NoDup_singleton]].
    intros i (s' & -> & (x & Hx & Hrep)%H8)%list_elem_of_fmap Heq%list_elem_of_singleton.
    rewrite Heq, Hs in Hx. congruence.
  - intros s'. rewrite elem_of_app, list_elem_of_singleton, H8. destruct (decide (sn_id s' = id)) as [Hid | Hne].
    + rewrite Hid, (put_self J id r'), (get_self J id r Hr), E3, E3'. split; [intros [| ->]; done | intros [= ->]; by right].
    + rewrite put_other by done. split; [intros [? | ->]; congruence || done | by left].
  - apply put_reported; [done |]. intros e. by rewrite E3'.
Qed.
End Tables.
