(* ===== verification/WorkloadSteps.v ===== *)
(** * Operations on one job

    Starting a step, starting a collective and finishing a job keep the
    invariant of the workload engine. *)

From S2P Require Import Prelude SimTime Entities TelemetryRecords EventQueue SimContext.
From S2P Require Import Topology CollectivePlan CollectiveRuntime Scheduling SchedulingLaws.
From S2P Require Import Workload WorkloadRuntime WorkloadLaws WorkloadInv.

(** ** Running operations on one job *)

Section Rules.
Context {X : Type} `{ClusterLaws X}.
Implicit Types (en : WorkloadEngine) (w : Training X) (x : X) (id : JobId) (r : JobRecord).

(** What holds when a call returns. *)
Definition yields {A} (m : M (Training X) A) (Q : Training X -> A -> Prop) w : Prop :=
  wp m Q (fun _ _ => True) w.

(** The state in the middle of an operation on [id]. *)
Definition state_at en id r x : Training X :=
  mkTraining {| en with en_jobs_ := <[id := r]> (en_jobs_ en) |} x.

Lemma state_at_start w id r : en_jobs_ (tn_engine w) !! id = Some r ->
  w = state_at (tn_engine w) id r (tn_cluster w).
Proof. intros Hr. destruct w as [[] x]. unfold state_at. cbn in *. by rewrite insert_id. Qed.

(** Nothing was cancelled. *)
Definition onward x x' : Prop := cs_later x x' /\ cs_live x ⊆ cs_live x'.

#[global] Instance onward_preorder : PreOrder onward.
Proof.
  split; [by split | intros x1 x2 x3 [A1 A2] [B1 B2]; split; by etrans].
Qed.

Lemma onward_ok x x' : onward x x' -> cs_ok x -> cs_ok x' /\ cs_now x' = cs_now x.
Proof. intros [Hl _] Hok. split; [by eapply cs_later_ok | by apply cs_later_now]. Qed.

Lemma yields_bind {A B} (m : M (Training X) A) (k : A -> M (Training X) B) Q w :
  yields m (fun w' a => yields (k a) Q w') w -> yields (bind m k) Q w.
Proof. apply wp_bind. Qed.

Lemma yields_conseq {A} (m : M (Training X) A) (Q Q' : Training X -> A -> Prop) w :
  yields m Q w -> (forall w' a, Q w' a -> Q' w' a) -> yields m Q' w.
Proof. intros Hm HQ. by eapply wp_conseq. Qed.

Lemma yields_throw_if b e Q w : (b = false -> Q w tt) -> yields (throw_if b e) Q w.
Proof. intros HQ. by apply wp_throw_if. Qed.

Lemma yields_of_option {A} e (o : option A) Q w : (forall a, o = Some a -> Q w a) -> yields (of_option e o) Q w.
Proof. intros HQ. by apply wp_of_option. Qed.

Lemma yields_of_outcome {A} (o : outcome A) Q w : (forall a, o = Ret a -> Q w a) -> yields (of_outcome o) Q w.
Proof. intros HQ. by apply wp_of_outcome. Qed.

Lemma yields_when b (m : M (Training X) unit) Q w :
  (b = true -> yields m Q w) -> (b = false -> Q w tt) -> yields (when b m) Q w.
Proof. apply wp_when. Qed.

Lemma yields_ask {A} (f : X -> outcome A) Q w : (forall a, f (tn_cluster w) = Ret a -> Q w a) -> yields (ask_cluster f) Q w.
Proof. intros HQ. unfold yields, wp, ask_cluster. destruct (f (tn_cluster w)); [by apply HQ | done]. Qed.

Lemma yields_with_cluster {A} (m : M X A) (P : X -> A -> Prop) Q w :
  wp m P (fun _ _ => True) (tn_cluster w) ->
  (forall x' a, P x' a -> Q {| w with tn_cluster := x' |} a) -> yields (with_cluster m) Q w.
Proof. intros Hm HQ. apply wp_zoom. eapply wp_conseq; [exact Hm | | done]. intros x' a. apply HQ. Qed.

Lemma yields_job_at Q en id r x : Q (state_at en id r x) r -> yields (job_at id) Q (state_at en id r x).
Proof. intros HQ. unfold job_at. apply yields_bind, wp_gets. cbn. rewrite lookup_insert_eq. done. Qed.

Lemma yields_modify_job g Q en id r x :
  Q (state_at en id (g r) x) tt -> yields (modify_job id g) Q (state_at en id r x).
Proof. intros HQ. apply wp_modify. unfold state_at. cbn. by rewrite alter_insert_eq. Qed.

(** ** Telemetry and timeline *)

Lemma yields_correlation job c p Q w : (forall corr, Q w corr) -> yields (job_correlation job c p) Q w.
Proof.
  intros HQ. unfold job_correlation. apply yields_bind, yields_ask. intros e _.
  apply yields_bind, yields_ask. intros cause _. apply HQ.
Qed.

Lemma yields_record_all corr obs Q w :
  cs_ok (tn_cluster w) -> (forall x', onward (tn_cluster w) x' -> Q {| w with tn_cluster := x' |} tt) ->
  yields (record_all corr obs) Q w.
Proof.
  intros Hok HQ. unfold record_all. apply yields_bind, wp_gets.
  apply (yields_conseq _ (fun w' _ => exists x', w' = {| w with tn_cluster := x' |} /\ onward (tn_cluster w) x')).
  - apply (wp_for_each (fun w' => exists x', w' = {| w with tn_cluster := x' |} /\ onward (tn_cluster w) x')).
    + intros o w' _ (x1 & -> & H1). apply yields_bind, wp_gets. cbn.
      destruct (onward_ok _ _ H1 Hok) as [Hok1 _].
      eapply yields_with_cluster; [by apply cs_record_law |]. cbn. intros x2 [] H2. exists x2. split; [done | by etrans].
    + exists (tn_cluster w). split; [by destruct w | reflexivity].
  - intros w' [] (x' & -> & Hx). by apply HQ.
Qed.

Lemma yields_when_enabled m Q w :
  yields m Q w -> Q w tt -> yields (when_enabled m) Q w.
Proof.
  intros Hm HQ. unfold when_enabled. apply yields_bind, wp_gets. apply yields_bind, wp_gets.
  by apply yields_when.
Qed.

Lemma yields_emit_job id' tr worker Q en id r x :
  cs_ok x -> (forall x', onward x x' -> Q (state_at en id r x') tt) ->
  yields (emit_job id' tr worker) Q (state_at en id r x).
Proof.
  intros Hok HQ. apply yields_when_enabled; [| apply HQ; reflexivity]. apply yields_bind.
  unfold job_at. apply yields_bind, wp_gets. apply yields_of_option. intros r' _.
  apply yields_bind, yields_correlation. intros corr. by apply yields_record_all.
Qed.

Lemma yields_emit_terminal snapshot Q en id r x :
  cs_ok x -> (forall x', onward x x' -> Q (state_at en id r x') tt) ->
  yields (emit_terminal_metrics snapshot) Q (state_at en id r x).
Proof.
  intros Hok HQ. apply yields_when_enabled; [| apply HQ; reflexivity].
  apply yields_bind, yields_correlation. intros corr. do 2 (apply yields_bind, yields_of_outcome; intros ? _).
  by apply yields_record_all.
Qed.

Lemma yields_emit_placement decision n Q en id r x :
  cs_ok x -> (forall x', onward x x' -> Q (state_at en id r x') tt) ->
  yields (emit_placement decision n) Q (state_at en id r x).
Proof.
  intros Hok HQ. apply yields_when_enabled; [| apply HQ; reflexivity].
  apply yields_bind, yields_correlation. intros corr. apply yields_bind, yields_of_outcome. intros none _.
  apply yields_bind, yields_record_all; [done |]. intros x1 H1. destruct (onward_ok _ _ H1 Hok) as [Ho1 _].
  apply yields_bind, yields_of_outcome. intros labels _.
  apply yields_bind, yields_record_all; [done |]. intros x2 H2. destruct (onward_ok _ _ H2 Ho1) as [Ho2 _].
  apply yields_when; [intros _ | intros _; apply HQ; by etrans].
  apply yields_record_all; [done |]. intros x3 H3. apply HQ. etrans; [done | by etrans].
Qed.

Definition with_timeline tl en : WorkloadEngine := {| en with en_timeline_ := tl |}.

Lemma yields_trace id' action Q en id r x :
  (forall tl, Q (state_at (with_timeline tl en) id r x) tt) -> yields (trace_job id' action) Q (state_at en id r x).
Proof.
  intros HQ. unfold trace_job. apply yields_bind, wp_gets. apply yields_bind. unfold job_at.
  apply yields_bind, wp_gets. apply yields_of_option. intros r' _. apply yields_bind, wp_gets.
  apply yields_bind, yields_throw_if. intros _. apply wp_modify. apply HQ.
Qed.
End Rules.

(** Writes the state in the form of [state_at]. *)
Ltac into_state_at s := cbv beta; match goal with |- yields ?m ?Q _ => change (yields m Q s) end.

(** ** The invariant *)

Section Steps.
Context {X : Type} `{ClusterLaws X} (taken : list JobSnapshot).
Implicit Types (en : WorkloadEngine) (w : Training X) (x : X) (id : JobId) (r : JobRecord).

Record config_ok en : Prop := {
  cf_scheduler : en_inventory_ en = None -> en_scheduling_ en = None;
  cf_workers : 0 <= wl_workers_per_job (en_limits_ en) <= 8192;
  cf_steps : u32 (wl_steps_per_job (en_limits_ en));
  cf_buckets : u32 (wl_buckets_per_step (en_limits_ en)) /\ u64 (wl_compute_events_per_job (en_limits_ en));
}.

Definition engine_tables en (J : gmap JobId JobRecord) x : Prop :=
  tables J (en_assignments_ en) (en_collectives_ en) (en_inventory_ en) (taken ++ en_completed_ en) (cs_known x).

(** Without a scheduler all jobs are pinned. *)
Definition all_pinned en (J : gmap JobId JobRecord) : Prop :=
  en_inventory_ en = None -> forall id r, J !! id = Some r -> js_workers (jb_spec r) <> [].

Record engine_ok w : Prop := {
  eo_cluster : cs_ok (tn_cluster w);
  eo_config : config_ok (tn_engine w);
  eo_tables : engine_tables (tn_engine w) (en_jobs_ (tn_engine w)) (tn_cluster w);
  eo_pinned : all_pinned (tn_engine w) (en_jobs_ (tn_engine w));
  eo_jobs id r : en_jobs_ (tn_engine w) !! id = Some r ->
    job_ok (cs_now (tn_cluster w)) (cs_live (tn_cluster w)) id r;
}.

(** The tables are right and the other jobs are too. *)
Record mid en id r x : Prop := {
  md_cluster : cs_ok x;
  md_config : config_ok en;
  md_tables : engine_tables en (<[id := r]> (en_jobs_ en)) x;
  md_pinned : all_pinned en (<[id := r]> (en_jobs_ en));
  md_others id' r' : id' <> id -> en_jobs_ en !! id' = Some r' -> job_ok (cs_now x) (cs_live x) id' r';
}.

Lemma mid_open w id r : engine_ok w -> en_jobs_ (tn_engine w) !! id = Some r ->
  w = state_at (tn_engine w) id r (tn_cluster w) /\ mid (tn_engine w) id r (tn_cluster w) /\
  job_ok (cs_now (tn_cluster w)) (cs_live (tn_cluster w)) id r.
Proof.
  intros [H1 H2 H3 H4 H5] Hr. split; [by apply state_at_start |]. split; [| by apply H5].
  split; try done; [by rewrite insert_id | by rewrite insert_id |]. intros id' r' _. apply H5.
Qed.

Lemma mid_close en id r x : mid en id r x -> job_ok (cs_now x) (cs_live x) id r -> engine_ok (state_at en id r x).
Proof.
  intros [H1 H2 H3 H4 H5] Hr. split; cbn; [done | by destruct H2 | done | done |].
  intros id' r' [[<- <-] | [Hne Hx]]%lookup_insert_Some; [done | by eauto].
Qed.

Lemma subseteq_kept (L L' : gmap EventId Event) (P : EventId -> Prop) :
  L ⊆ L' -> forall e ev, P e -> L !! e = Some ev -> L' !! e = Some ev.
Proof. intros Hsub e ev _ He. by eapply lookup_weaken. Qed.

Lemma mid_onward en id r x x' : onward x x' -> mid en id r x -> mid en id r x'.
Proof.
  intros Hon [H1 H2 H3 H4 H5]. destruct (onward_ok _ _ Hon H1) as [Hok Hnow]. destruct Hon as [Hl Hsub].
  split; try done.
  - eapply tables_known; [| done]. intros c. by apply cs_later_known.
  - intros id' r' Hne Hr'. eapply job_ok_later; [by eapply H5 | lia | by apply subseteq_kept].
Qed.

Lemma step_onward x x' id r : onward x x' -> cs_ok x ->
  step_ok (cs_now x) (cs_live x) id r -> step_ok (cs_now x') (cs_live x') id r.
Proof.
  intros Hon Hok Hs. destruct (onward_ok _ _ Hon Hok) as [_ Hnow]. destruct Hon as [_ Hsub].
  eapply step_ok_later; [done | lia | by apply subseteq_kept].
Qed.

Lemma job_onward x x' id r : onward x x' -> cs_ok x ->
  job_ok (cs_now x) (cs_live x) id r -> job_ok (cs_now x') (cs_live x') id r.
Proof.
  intros Hon Hok Hs. destruct (onward_ok _ _ Hon Hok) as [_ Hnow]. destruct Hon as [_ Hsub].
  eapply job_ok_later; [done | lia | by apply subseteq_kept].
Qed.

(** The record changes in nothing the tables see. *)
Definition same_views r r' : Prop :=
  jb_id r' = jb_id r /\ seat r' = seat r /\ jb_active_collective r' = jb_active_collective r /\
  report r' = report r /\ js_workers (jb_spec r') = js_workers (jb_spec r).

Lemma mid_put en id r r' x : mid en id r x -> same_views r r' -> mid en id r' x.
Proof.
  intros [H1 H2 H3 H4 H5] (V1 & V2 & V3 & V4 & V5). split; try done.
  - unfold engine_tables in *. rewrite <- (insert_insert_eq (en_jobs_ en) id r' r).
    eapply jobs_put; try done. apply lookup_insert_eq.
  - intros Hi id' y [[<- <-] | [Hne Hy]]%lookup_insert_Some.
    + rewrite V5. apply (H4 Hi id). apply lookup_insert_eq.
    + apply (H4 Hi id'). by rewrite lookup_insert_ne.
Qed.

(** A field outside the tables changes. *)
Lemma mid_timeline en id r x tl : mid en id r x -> mid (with_timeline tl en) id r x.
Proof. intros [H1 H2 H3 H4 H5]. split; try done. by destruct H2. Qed.

(** ** Starting a step *)

Definition started (now : Z) r : JobRecord :=
  {| r with jb_state := JobState_Computing; jb_step_started := now; jb_completed_buckets := 0;
     jb_compute_complete := 0; jb_ready := replicate (Z.to_nat (jb_buckets r)) 0;
     jb_events := replicate (Z.to_nat (u64_wrap (zlength (js_workers (jb_spec r)) * events_per_worker r))) None |}.

Definition with_events l r : JobRecord := {| r with jb_events := l |}.

Lemma duration_word now r k d : accounts now r -> js_compute (jb_spec r) !! k = Some d -> 0 < d <= u64_max.
Proof.
  intros Hac Hk. destruct (ac_words _ _ Hac) as (_ & Hpos & Hsum). destruct (ac_steps _ _ Hac) as [_ Hst].
  rewrite Forall_forall in Hpos. pose proof (list_elem_of_lookup_2 _ _ _ Hk) as Hin.
  pose proof (Hpos d Hin) as H0d. cbv beta in H0d. split; [done |]. enough (d <= compute_sum r) by nia.
  unfold compute_sum. apply elem_of_Permutation in Hin as [l Hl].
  assert (Forall (fun d => 0 <= d) l) as Hl0.
  { apply Forall_forall. intros y Hy. enough (0 < y) by lia. apply Hpos. rewrite Hl. by right. }
  rewrite Hl, sumZ_cons. pose proof (sumZ_nonneg l Hl0). lia.
Qed.

(** The cells before [(w, i)] are scheduled. *)
Definition filled en id r0 x0 (w i : Z) (s : Training X) : Prop :=
  exists l x, s = state_at en id (with_events l r0) x /\ onward x0 x /\
    length l = Z.to_nat (width r0 * events_per_worker r0) /\
    forall (w' i' : Z), cell_range r0 w' i' -> w' < w \/ w' = w /\ i' < i ->
      exists e, l !! event_slot r0 w' i' = Some (Some e) /\
        scheduled (cs_live x) e (due r0 w' i') (compute_payload id r0 w' i').

Lemma schedule_compute_spec en id r0 x0 (w i : Z) s :
  cs_ok x0 -> spec_ok r0 -> accounts (cs_now x0) r0 -> jb_id r0 = id -> jb_step_started r0 = cs_now x0 ->
  cell_range r0 w i -> filled en id r0 x0 w i s ->
  yields (schedule_compute id w i) (fun s' _ => filled en id r0 x0 w (i + 1) s') s.
Proof.
  intros Hok0 Hs Hac Hid Hst Hr (l & x & -> & Hon & Hlen & Hall). destruct (onward_ok _ _ Hon Hok0) as [Hok Hnow].
  unfold schedule_compute. apply yields_bind, yields_job_at. cbn [jb_spec jb_events with_events].
  apply yields_bind, yields_of_option. intros d Hd. pose proof (duration_word _ _ _ _ Hac Hd) as Hdw.
  change (events_per_worker (with_events l r0)) with (events_per_worker r0).
  pose proof (events_per_worker_pos r0 Hs) as Hn. destruct Hr as [Hw Hi].
  rewrite compute_offset_spec by (word_lia || lia). apply yields_bind, yields_of_outcome. intros offset [= <-].
  apply yields_bind, wp_gets. apply yields_bind, yields_of_option. intros time Ht. cbn [tn_cluster state_at] in Ht.
  pose proof (share_end_bounds d (events_per_worker r0) i ltac:(lia) ltac:(lia) Hi).
  apply checked_add_Some in Ht as [-> Hmax]; [| by apply cs_now_u64 | word_lia].
  pose proof (cs_now_u64 _ Hok) as Hu. apply yields_bind.
  eapply yields_with_cluster; [apply cs_schedule_law; [done | cbn; split; word_lia] |].
  intros x1 e (Hl1 & Hfresh & ev & Hlive & Hts & Hpay). apply yields_bind, yields_of_option. intros _ _.
  change (mkTraining (tn_engine (state_at en id (with_events l r0) x)) x1) with (state_at en id (with_events l r0) x1).
  apply yields_modify_job. set (slot := event_slot r0 w i).
  exists (<[slot := Some e]> l), x1. split; [done |].
  assert (onward x x1) as Hx1 by (split; [done | rewrite Hlive; by apply insert_subseteq]).
  split; [by etrans |]. split; [by rewrite length_insert |]. intros w' i' Hr' Hlt.
  destruct (decide (w' = w /\ i' = i)) as [[-> ->] | Hne].
  - exists e. rewrite list_lookup_insert_eq.
    2:{ destruct (slot_exact r0 w i Hs ltac:(done)) as [E ?]. unfold slot. rewrite E, Hlen. lia. }
    split; [done |]. exists ev. rewrite Hlive, lookup_insert_eq. split; [done |]. split.
    + rewrite Hts. cbn. unfold due, duration. rewrite Hd, Hst, <- Hnow. done.
    + rewrite Hpay. cbn. unfold compute_payload, bucket_of. rewrite Hid. do 2 f_equal.
      destruct (js_overlap _); [done |]. pose proof (so_buckets _ Hs). unfold u32_wrap. rewrite Z.mod_small; [done | word_lia].
  - destruct (Hall w' i' Hr') as (e' & He' & Hsch); [lia |]. exists e'.
    rewrite list_lookup_insert_ne.
    2:{ intros Heq. apply Hne. apply (event_slot_inj r0); [done | done | done |]. by symmetry. }
    split; [done |]. eapply scheduled_kept; [| done]. intros ev' Hev'. eapply lookup_weaken; [done | apply Hx1].
Qed.

(** The last cell of a worker is followed by the first one of the next. *)
Lemma filled_next en id r0 x0 (w : Z) s :
  filled en id r0 x0 w (events_per_worker r0) s -> filled en id r0 x0 (w + 1) 0 s.
Proof.
  intros (l & x & Hs & Hon & Hlen & Hall). exists l, x. split_and!; try done.
  intros w' i' Hr Hlt. apply Hall; [done |]. destruct Hr. lia.
Qed.

Lemma filled_all en id r0 x0 s :
  filled en id r0 x0 (width r0) 0 s -> exists l x, s = state_at en id (with_events l r0) x /\ onward x0 x /\
    length l = Z.to_nat (width r0 * events_per_worker r0) /\
    forall (w i : Z), cell_range r0 w i -> exists e, l !! event_slot r0 w i = Some (Some e) /\
      scheduled (cs_live x) e (due r0 w i) (compute_payload id r0 w i).
Proof.
  intros (l & x & Hs & Hon & Hlen & Hall). exists l, x. split_and!; try done.
  intros w i Hr. apply Hall; [done |]. destruct Hr. lia.
Qed.

(** A step none of whose shares is done. *)
Lemma started_ok now L id r0 :
  spec_ok r0 -> zlength (js_workers (jb_spec r0)) = width r0 ->
  length (jb_events r0) = Z.to_nat (width r0 * events_per_worker r0) ->
  (forall (w i : Z), cell_range r0 w i -> exists e, cell r0 w i = Some (Some e) /\
     scheduled L e (due r0 w i) (compute_payload id r0 w i)) ->
  jb_ready r0 = replicate (Z.to_nat (jb_buckets r0)) 0 -> jb_compute_complete r0 = 0 ->
  jb_completed_buckets r0 = 0 -> jb_active_collective r0 = None ->
  step_ok now L id r0 /\ moving r0.
Proof.
  intros Hs Hw Hlen Hall Hrd Hcc Hcb Hact. pose proof (so_buckets _ Hs). pose proof (so_width _ Hs).
  pose proof (events_per_worker_pos r0 Hs) as Hn.
  assert (forall (w i : Z), cell_range r0 w i -> cell r0 w i <> Some None) as Hnot.
  { intros w i Hr. destruct (Hall w i Hr) as (e & -> & _). congruence. }
  assert (forall i, 0 <= i < events_per_worker r0 -> passed r0 i = 0) as Hpassed.
  { intros i Hi. unfold passed. rewrite (filter_none (fun w : Z => cell r0 w i = Some None)); [done |].
    intros w Hw'%elem_of_seqZ. apply Hnot. split; [lia | done]. }
  split.
  - split; try done.
    + intros w i e Hr Hc. destruct (Hall w i Hr) as (e' & Hc' & Hsch). rewrite Hc in Hc'. by injection Hc' as <-.
    + intros w i Hr Hc. by destruct (Hnot w i Hr).
    + by rewrite Hrd, length_replicate.
    + intros b Hb. rewrite Hrd, lookup_replicate_2 by lia. by rewrite Hpassed by (by apply index_range).
    + rewrite Hcc, Hpassed by lia. done.
    + rewrite Hcb. lia.
    + intros b [Hb | [_ Ha]]; [lia |]. rewrite Hact in Ha. by destruct Ha.
  - intros _. rewrite Hpassed by (apply index_range; [done | lia]). lia.
Qed.

Lemma start_step_spec en id r x :
  mid en id r x -> spec_ok r -> jb_id r = id -> busy r = true -> zlength (js_workers (jb_spec r)) = width r ->
  jb_arrival_event r = None -> jb_active_collective r = None -> accounts (cs_now x) (started (cs_now x) r) ->
  yields (start_step id) (fun w' _ => engine_ok w') (state_at en id r x).
Proof.
  intros Hm Hs Hid Hb Hw Harr Hact Hac. pose proof (md_cluster _ _ _ _ Hm) as Hok.
  pose proof (so_width _ Hs) as Hwd. pose proof (events_per_worker_pos r Hs) as Hn.
  unfold start_step. apply yields_bind, wp_gets. apply yields_bind, yields_modify_job.
  change (tn_cluster (state_at en id r x)) with x. fold (started (cs_now x) r). set (r0 := started (cs_now x) r).
  apply yields_bind, yields_job_at. apply yields_bind.
  assert (spec_ok r0) as Hs0 by (destruct Hs; by split).
  assert (length (jb_events r0) = Z.to_nat (width r0 * events_per_worker r0)) as Hlen0.
  { unfold r0 at 1. unfold started. cbn [jb_events]. rewrite length_replicate, Hw.
    change (width r0) with (width r). change (events_per_worker r0) with (events_per_worker r).
    f_equal. apply u64_wrap_id. assert (0 <= width r * events_per_worker r <= 8192 * u32_max) by nia. word_lia. }
  apply (yields_conseq _ (fun s _ => filled en id r0 x (width r0) 0 s)).
  { change (js_workers (jb_spec r0)) with (js_workers (jb_spec r)). rewrite Hw. change (width r) with (width r0).
    apply (wp_for_each_seqZ (fun (k : Z) s => filled en id r0 x k 0 s)); [| | unfold width; apply zlength_nonneg].
    - intros w s Hwr Hf. apply (yields_conseq _ (fun s' _ => filled en id r0 x w (events_per_worker r0) s')); [| intros s' []; apply filled_next].
      apply (wp_for_each_seqZ (fun i s => filled en id r0 x w i s)); [| done | change (events_per_worker r0) with (events_per_worker r); lia].
      intros i s' Hi Hf'. by apply schedule_compute_spec.
    - exists (jb_events r0), x. split; [done |]. split; [reflexivity |]. split; [done |]. intros w' i' [Hw' Hi'] Hlt. lia. }
  intros s [] (l & x1 & -> & Hon & Hlen & Hall)%filled_all.
  apply yields_bind, yields_trace. intros tl. destruct (onward_ok _ _ Hon Hok) as [Hok1 Hnow].
  apply yields_emit_job; [done |]. intros x2 H2. destruct (onward_ok _ _ H2 Hok1) as [Hok2 Hnow2].
  set (r1 := with_events l r0). assert (accounts (cs_now x2) r1) as Hac1.
  { rewrite Hnow2, Hnow. destruct Hac; by split. }
  assert (spec_ok r1) as Hs1 by (destruct Hs0; by split).
  apply busy_unfold in Hb as [Ha Ht]. apply mid_close.
  - apply mid_timeline, (mid_onward _ _ _ x); [by etrans |]. apply (mid_put _ _ r); [done |].
    unfold same_views, seat, report, busy. cbn. by rewrite Ha, Ht.
  - split; try done. intros _.
    apply started_ok; try done. intros w i Hr. destruct (Hall w i Hr) as (e & He & Hsch). exists e. split; [done |].
    eapply scheduled_kept; [| done]. intros ev Hev. eapply lookup_weaken; [done | apply H2].
Qed.

(** ** Finishing a job *)

(** Events in [P] may be gone. *)
Definition keeps (P : EventId -> Prop) x x' : Prop :=
  cs_later x x' /\ forall e ev, ~ P e -> cs_live x !! e = Some ev -> cs_live x' !! e = Some ev.

Lemma keeps_trans P x1 x2 x3 : keeps P x1 x2 -> keeps P x2 x3 -> keeps P x1 x3.
Proof. intros [A1 A2] [B1 B2]. split; [by etrans | eauto]. Qed.

Lemma onward_keeps P x x' : onward x x' -> keeps P x x'.
Proof. intros [Hl Hsub]. split; [done |]. intros e ev _ Hev. by eapply lookup_weaken. Qed.

(** The events of a job are its own. *)
Definition own_events id (L : gmap EventId Event) r : Prop :=
  forall e, pending r e -> exists ev, L !! e = Some ev /\ names id ev.

Lemma job_own_events now L id r : job_ok now L id r -> terminal (jb_state r) = false -> own_events id L r.
Proof.
  intros Hok Ht e He. destruct (job_pending _ _ _ _ _ Hok Ht He) as
    [(_ & _ & ev & Hev & _) | (_ & w & i & _ & _ & ev & Hev & _)]; exists ev; (split; [done |]);
    by eapply job_pending_names.
Qed.

Lemma own_onward x x' id r : onward x x' -> own_events id (cs_live x) r -> own_events id (cs_live x') r.
Proof.
  intros [_ Hsub] Hown e He. destruct (Hown e He) as (ev & Hev & Hn). exists ev. split; [| done]. by eapply lookup_weaken.
Qed.

(** Another job keeps its events. *)
Lemma others_kept x x' id r id' r' :
  own_events id (cs_live x) r -> keeps (pending r) x x' -> cs_ok x -> id' <> id ->
  job_ok (cs_now x) (cs_live x) id' r' -> job_ok (cs_now x') (cs_live x') id' r'.
Proof.
  intros Hown [Hl Hk] Hok Hne Hj. rewrite (cs_later_now _ _ Hl Hok).
  destruct (terminal (jb_state r')) eqn:Ht; [by eapply job_ok_ended |].
  eapply job_ok_later; [done | done |]. intros e ev He Hev. apply Hk; [| done]. intros Hp. apply Hne.
  destruct (Hown e Hp) as (ev' & Hev' & Hn). rewrite Hev in Hev'. injection Hev' as <-.
  eapply names_inj; [by eapply job_pending_names | done].
Qed.

Lemma yields_cancel_pending (P : EventId -> Prop) (o : option EventId) Q en id r x :
  cs_ok x -> (forall e, o = Some e -> P e) ->
  (forall x', keeps P x x' -> Q (state_at en id r x') tt) -> yields (cancel_pending o) Q (state_at en id r x).
Proof.
  intros Hok HP HQ. destruct o as [e |]; cbn [cancel_pending].
  - apply yields_bind. eapply yields_with_cluster; [by apply cs_cancel_event_law |].
    intros x' b [Hl Hk]. apply (HQ x'). split; [done |]. intros e' ev He' Hev. cbn in Hk. rewrite Hk; [done |].
    intros ->. by apply He', HP.
  - apply HQ. split; [reflexivity | done].
Qed.

Lemma yields_cancel_all (P : EventId -> Prop) (l : list (option EventId)) Q en id r x :
  cs_ok x -> (forall e, Some e ∈ l -> P e) ->
  (forall x', keeps P x x' -> Q (state_at en id r x') tt) -> yields (for_each l cancel_pending) Q (state_at en id r x).
Proof.
  intros Hok HP HQ.
  apply (yields_conseq _ (fun s _ => exists x', s = state_at en id r x' /\ keeps P x x')).
  2:{ intros s [] (x' & -> & Hk). by apply HQ. }
  apply (wp_for_each (fun s => exists x', s = state_at en id r x' /\ keeps P x x')).
  - intros o s Ho (x1 & -> & Hk1). apply (yields_cancel_pending P).
    + destruct Hk1 as [Hl _]. by eapply cs_later_ok.
    + intros e ->. by apply HP.
    + intros x2 Hk2. exists x2. split; [done | by eapply keeps_trans].
  - exists x. split; [done |]. split; [reflexivity | done].
Qed.

(** The GPUs of a list are given back. *)
Lemma yields_unassign (l : list GpuId) Q en id r x :
  (forall A', (forall g, A' !! g = if decide (g ∈ l) then None else en_assignments_ en !! g) ->
     Q (state_at {| en with en_assignments_ := A' |} id r x) tt) ->
  yields (for_each l (fun worker => modify_engine (fun en =>
    {| en with en_assignments_ := delete worker (en_assignments_ en) |}))) Q (state_at en id r x).
Proof.
  revert en. induction l as [| g l IH]; intros en HQ; cbn [for_each].
  - apply wp_ret. specialize (HQ (en_assignments_ en)). destruct en. apply HQ. intros g. by rewrite decide_False by apply not_elem_of_nil.
  - apply yields_bind, wp_modify.
    into_state_at (state_at {| en with en_assignments_ := delete g (en_assignments_ en) |} id r x). apply IH.
    intros A' HA'. apply HQ. intros g'. rewrite HA'. cbn [en_assignments_].
    destruct (decide (g' ∈ l)) as [Hin | Hin]; [by rewrite decide_True by (by right) |].
    destruct (decide (g' = g)) as [-> | Hne].
    + rewrite decide_True by (by left). by rewrite lookup_delete_eq.
    + rewrite decide_False by (by intros [? | ?]%elem_of_cons). by rewrite lookup_delete_ne.
Qed.

Lemma release_spec (gpus : list Resource) id : inventory_ok gpus ->
  inventory_ok (release id gpus) /\ forall g i, owned_by (release id gpus) g i <-> owned_by gpus g i /\ i <> id.
Proof.
  intros Hok. split.
  - unfold inventory_ok, release in *. rewrite <- list_fmap_compose.
    rewrite (list_fmap_ext _ res_gpu gpus); [done |]. intros _ res _. cbn. by case_bool_decide.
  - intros g i. unfold owned_by, release. split.
    + intros (res' & (res & -> & Hin)%list_elem_of_fmap & Hg & Ho). case_bool_decide as Hd; [done |].
      split; [eauto |]. intros ->. congruence.
    + intros [(res & Hin & Hg & Ho) Hne]. exists res. split; [| done]. apply list_elem_of_fmap. exists res.
      split; [| done]. rewrite bool_decide_eq_false_2; [done |]. congruence.
Qed.

Definition ended (state : JobState) (reason : string) (now : Z) r : JobRecord :=
  {| r with jb_state := state; jb_reason := reason; jb_finished := Some now; jb_arrival_event := None |}.

Definition charged (c : Z) r : JobRecord := {| r with jb_compute_gpu_ns := c |}.

Definition reported (s : JobSnapshot) en : WorkloadEngine := {| en with en_completed_ := en_completed_ en ++ [s] |}.

(** What [release_resources] leaves. *)
Definition released id en en' : Prop :=
  (forall g i, en_assignments_ en' !! g = Some i <-> en_assignments_ en !! g = Some i /\ i <> id) /\
  (forall gpus, en_inventory_ en' = Some gpus -> inventory_ok gpus /\
     forall g i, owned_by gpus g i <-> en_assignments_ en' !! g = Some i) /\
  (en_inventory_ en' = None <-> en_inventory_ en = None) /\
  en_jobs_ en' = en_jobs_ en /\ en_collectives_ en' = en_collectives_ en /\ en_completed_ en' = en_completed_ en /\
  en_scheduling_ en' = en_scheduling_ en /\ en_limits_ en' = en_limits_ en.

Lemma release_resources_spec Q en id r0 r x x0 :
  mid en id r0 x0 -> jb_id r = id -> jb_assigned r = jb_assigned r0 -> jb_spec r = jb_spec r0 ->
  terminal (jb_state r0) = false ->
  (forall en', released id en en' -> Q (state_at en' id r x) tt) ->
  yields (release_resources id) Q (state_at en id r x).
Proof.
  intros Hm Hid Ha Hs Ht HQ. pose proof (md_tables _ _ _ _ Hm) as Hta.
  assert (forall g, en_assignments_ en !! g = Some id <-> jb_assigned r0 = true /\ g ∈ js_workers (jb_spec r0)) as Hown.
  { intros g. rewrite (tb_assign _ _ _ _ _ _ Hta), assign_unfold, put_self. unfold seat, busy.
    rewrite Ht, andb_true_r. destruct (jb_assigned r0); [| split; [by intros (? & ? & ?) | by intros [? _]]].
    split; [by intros (l & [= <-] & ?) | intros [_ ?]; eauto]. }
  unfold release_resources. apply yields_bind, yields_job_at. apply yields_bind. rewrite Ha, Hs.
  assert (forall A', (forall g i, A' !! g = Some i <-> en_assignments_ en !! g = Some i /\ i <> id) ->
    yields (let! en := gets tn_engine in
      match en_inventory_ en with
      | Some inventory => modify_engine (fun en => {| en with en_inventory_ := Some (release (jb_id r) inventory);
                                                            en_admission_pending_ := true |})
      | None => ret tt
      end) Q (state_at {| en with en_assignments_ := A' |} id r x)) as Hrest.
  { intros A' HA'. apply yields_bind, wp_gets. cbn. destruct (en_inventory_ en) as [gpus |] eqn:Hi.
    - destruct (tb_inventory _ _ _ _ _ _ Hta gpus Hi) as [Hg1 Hg2]. rewrite Hid. destruct (release_spec gpus id Hg1) as [R1 R2].
      apply wp_modify. apply (HQ {| en with en_assignments_ := A'; en_inventory_ := Some (release id gpus); en_admission_pending_ := true |}).
      split; [done |]. split; [| cbn; rewrite Hi; done]. intros gpus' [= <-]. split; [done |]. intros g i. rewrite R2, Hg2. symmetry. apply HA'.
    - apply wp_ret. rewrite <- Hi. apply (HQ {| en with en_assignments_ := A' |}). split; [done |]. split; [| done].
      cbn. rewrite Hi. done. }
  apply yields_when; intros Hb.
  - apply yields_unassign. intros A' HA'. apply Hrest. intros g i. rewrite HA'. destruct (decide (g ∈ _)) as [Hg | Hg].
    + split; [done |]. intros [Hg' Hne]. assert (en_assignments_ en !! g = Some id) by (by apply Hown). congruence.
    + split; [| by intros [? _]]. intros Hg'. split; [done |]. intros ->. apply Hown in Hg'. tauto.
  - pose proof (Hrest (en_assignments_ en)) as Hr'. destruct en. apply Hr'. cbn. intros g i. split; [| by intros [? _]].
    intros Hg. split; [done |]. intros ->. apply Hown in Hg as [? _]. congruence.
Qed.

Lemma terminal_ended state reason now r : terminal state = true ->
  job_ok now ∅ (jb_id r) (ended state reason now r) <->
  spec_ok r /\ accounts now (ended state reason now r).
Proof.
  intros Ht. split; [intros [? [] ? ? ? ? ? ?]; split; [by split | done] |].
  intros [[] Hac]. split; try done.
  - cbn. congruence.
  - by destruct state.
  - cbn. intros ->. done.
  - cbn. intros Hq. by rewrite terminal_not_queued in Hq.
  - intros [_ Hf]%busy_unfold. cbn in Hf. congruence.
Qed.

(** The report of the job is pushed and all is well again. *)
Lemma finished_ok en en' id r0 r x x' state reason s :
  mid en id r0 x -> cs_ok x -> own_events id (cs_live x) r0 -> keeps (pending r0) x x' ->
  terminal (jb_state r0) = false -> terminal state = true -> spec_ok r -> jb_id r = id -> jb_id r0 = id ->
  jb_active_collective r = jb_active_collective r0 -> js_workers (jb_spec r) = js_workers (jb_spec r0) ->
  accounts (cs_now x') (ended state reason (cs_now x') r) ->
  inspect (ended state reason (cs_now x') r) (cs_now x') = Ret s ->
  released id en en' ->
  engine_ok (state_at (reported s en') id (ended state reason (cs_now x') r) x').
Proof.
  intros Hm Hok Hown Hk Ht Hst Hs Hid Hid0 Hact Hws Hac Hins (R1 & R2 & R3 & R4 & R5 & R6 & R7 & R8).
  destruct Hm as [M1 M2 M3 M4 M5]. set (rf := ended state reason (cs_now x') r) in *.
  assert (final_snapshot rf = Ret s) as Hfin by (by rewrite <- (inspect_ended rf (cs_now x') (cs_now x'))).
  split; cbn.
  - destruct Hk as [Hl _]. by eapply cs_later_ok.
  - destruct M2 as [C1 C2 C3 C4]. split; cbn; rewrite ?R7, ?R8; try done. intros Hi%R3. by apply C1.
  - unfold engine_tables in *. cbn. rewrite R4, R5, R6, app_assoc.
    rewrite <- (insert_insert_eq (en_jobs_ en) id rf r0). eapply tables_known; [intros c; apply cs_later_known; apply Hk |].
    eapply (jobs_finish _ _ _ _ _ _ _ id r0); [apply lookup_insert_eq | done | | | | | | | done | done].
    + by rewrite Hid0.
    + unfold report. by rewrite Ht.
    + unfold seat, busy. cbn. by rewrite Hst, andb_false_r.
    + done.
    + unfold report. cbn. by rewrite Hst, Hfin.
    + apply inspect_id in Hins. by rewrite Hins.
  - intros Hi id' r'. rewrite R4. intros [[<- <-] | [Hne Hx]]%lookup_insert_Some.
    + cbn. rewrite Hws. apply (M4 (proj1 R3 Hi) id), lookup_insert_eq.
    + apply (M4 (proj1 R3 Hi) id'). by rewrite lookup_insert_ne.
  - intros id' r'. rewrite R4. intros [[<- <-] | [Hne Hx]]%lookup_insert_Some.
    + eapply job_ok_ended; [| done]. rewrite <- Hid. by apply terminal_ended.
    + by eapply others_kept; [| | | | by eapply M5].
Qed.

Lemma finish_job_spec en id r x state reason :
  mid en id r x -> own_events id (cs_live x) r -> terminal (jb_state r) = false -> terminal state = true ->
  spec_ok r -> jb_id r = id ->
  (state = JobState_Succeeded \/ jb_assigned r = false -> accounts (cs_now x) (ended state reason (cs_now x) r)) ->
  (state <> JobState_Succeeded -> jb_assigned r = true -> forall s, inspect r (cs_now x) = Ret s ->
     accounts (cs_now x) (ended state reason (cs_now x) (charged (sn_compute_gpu_ns s) r))) ->
  yields (finish_job id state reason) (fun w' _ => engine_ok w') (state_at en id r x).
Proof.
  intros Hm Hown Ht Hst Hs Hid Hac1 Hac2. pose proof (md_cluster _ _ _ _ Hm) as Hok.
  unfold finish_job. apply yields_bind, yields_job_at. rewrite Ht. cbv iota. apply yields_bind, wp_gets. apply yields_bind.
  apply (yields_conseq _ (fun w' _ => exists c, w' = state_at en id (charged c r) x /\
    accounts (cs_now x) (ended state reason (cs_now x) (charged c r)))).
  { apply yields_when; intros Hc.
    - apply andb_true_iff in Hc as [Hc%negb_true_iff%bool_decide_eq_false Ha].
      apply yields_bind, yields_of_outcome. intros s Hin. apply yields_modify_job. exists (sn_compute_gpu_ns s). auto.
    - exists (jb_compute_gpu_ns r). assert (charged (jb_compute_gpu_ns r) r = r) as -> by (by destruct r). split; [done |].
      apply Hac1. apply andb_false_iff in Hc as [Hc%negb_false_iff%bool_decide_eq_true | Hc]; [by left | by right]. }
  intros w' [] (c & -> & Hac). set (r1 := charged c r) in *.
  apply yields_bind, (yields_cancel_all (pending r)); [done | by left |]. intros x1 K1.
  assert (cs_ok x1) as Hok1 by (destruct K1; by eapply cs_later_ok).
  apply yields_bind. apply (yields_conseq _ (fun w' _ => exists x2, w' = state_at en id {| r1 with jb_arrival_event := None |} x2 /\
    keeps (pending r) x x2 /\ cs_ok x2)).
  { apply yields_when; intros Hv.
    - apply yields_bind, (yields_cancel_pending (pending r)); [done | by right |]. intros x2 K2. apply yields_modify_job.
      exists x2. split; [done |]. split; [by eapply keeps_trans | destruct K2; by eapply cs_later_ok].
    - exists x1. split; [| done]. apply bool_decide_eq_false, eq_None_not_Some in Hv. rewrite <- Hv. by destruct r. }
  intros w' [] (x2 & -> & K2 & Hok2). apply yields_bind.
  apply (yields_conseq _ (fun w' _ => exists x3, w' = state_at en id {| r1 with jb_arrival_event := None |} x3 /\
    keeps (pending r) x x3 /\ cs_ok x3)).
  { destruct (jb_active_collective r) as [cl |]; [| exists x2; done].
    eapply yields_with_cluster; [by apply cs_cancel_law |]. intros x3 [] H3. exists x3. split; [done |].
    split; [eapply keeps_trans; [done |]; by apply onward_keeps | by destruct (onward_ok _ _ H3 Hok2)]. }
  intros w' [] (x3 & -> & K3 & Hok3). apply yields_bind.
  eapply (release_resources_spec _ _ _ r); [done | done | done | done | done |]. intros en' Hrel.
  apply yields_bind, wp_gets. apply yields_bind, yields_modify_job. cbn [tn_cluster state_at].
  assert (cs_now x3 = cs_now x) as Hn3 by (destruct K3; by apply cs_later_now). rewrite Hn3.
  match goal with |- context [state_at en' id ?z x3] => change z with (ended state reason (cs_now x) r1) end.
  apply yields_bind, yields_trace. intros tl. apply yields_bind, yields_job_at. apply yields_bind, wp_gets.
  cbn [tn_cluster state_at]. apply yields_bind, yields_of_outcome. intros s Hins. apply yields_bind, wp_modify.
  into_state_at (state_at (reported s (with_timeline tl en')) id
    (ended state reason (cs_now x) r1) x3).
  apply yields_bind, yields_emit_job; [done |]. intros x4 H4. destruct (onward_ok _ _ H4 Hok3) as [Hok4 Hn4].
  apply yields_emit_terminal; [done |]. intros x5 H5. destruct (onward_ok _ _ H5 Hok4) as [Hok5 Hn5].
  assert (keeps (pending r) x x5) as K5.
  { eapply keeps_trans; [done |]. apply onward_keeps. by etrans. }
  rewrite Hn3 in Hins. assert (cs_now x5 = cs_now x) as Hn by congruence. rewrite <- Hn in *.
  apply (finished_ok en (with_timeline tl en') id r r1 x); try done. by destruct Hs.
Qed.
End Steps.
