(* ===== verification/WorkloadHandlers.v ===== *)
(** * Events of one job

    Compute events and collective results keep the invariant of the workload
    engine. *)

From S2P Require Import Prelude SimTime Entities TelemetryRecords EventQueue SimContext Topology CollectivePlan.
From S2P Require Import CollectiveRuntime Scheduling SchedulingLaws Workload WorkloadRuntime WorkloadLaws.
From S2P Require Import WorkloadInv WorkloadSteps.

(** ** Accounts at the end of a step and of a job *)

(** All shares of a step are done. *)
Section StepTime.
Context (now : Z) (r : JobRecord) (L : gmap EventId Event) (id : JobId).
Context (Hs : spec_ok r) (Hst : step_ok now L id r).
Context (Hall : forall b, 0 <= b < jb_buckets r -> passed r (index_of r b) = width r).

Lemma step_time (w : Z) : 0 <= w < width r -> jb_step_started r + duration r w <= now.
Proof.
  intros Hw. pose proof (so_buckets _ Hs). pose proof (events_per_worker_pos r Hs).
  assert (cell_range r w (events_per_worker r - 1)) as Hr by (split; lia).
  pose proof (st_passed _ _ _ _ Hst w _ Hr) as Hp. unfold due in Hp. rewrite share_end_last in Hp by lia. apply Hp.
  apply passed_all; [done | | done]. rewrite <- index_last by done. apply Hall. lia.
Qed.

Lemma step_sum : compute_sum r <= width r * (now - jb_step_started r).
Proof.
  unfold compute_sum, width. rewrite <- sumZ_const. rewrite <- (list_fmap_id (js_compute (jb_spec r))) at 1.
  apply sumZ_le_map. intros d (k & Hk)%list_elem_of_lookup. cbn.
  pose proof (lookup_lt_Some _ _ _ Hk). pose proof (step_time (Z.of_nat k)) as Ht.
  unfold duration in Ht. rewrite Nat2Z.id, Hk in Ht. cbn in Ht. unfold width, zlength in Ht. lia.
Qed.
End StepTime.

Section Accounts.
Context (now : Z) (r : JobRecord) (Hnow : u64 now) (Hac : accounts now r).

Lemma ended_unassigned state reason :
  terminal (jb_state r) = false -> terminal state = true -> state <> JobState_Succeeded ->
  jb_assigned r = false -> accounts now (ended state reason now r).
Proof.
  intros Ht Hst Hns Ha. destruct Hac as [H1 H2 H3 H4 H5 H6 H7 H8 H9 H10].
  assert (jb_allocated_at r = None) as Hal.
  { apply eq_None_not_Some. intros Hs%H3. congruence. }
  split; try done; cbn.
  - intros f [= <-]. word_lia.
  - rewrite Hal. done.
  - intros f _ Hasg. congruence.
Qed.

Lemma ended_charged state reason s :
  terminal (jb_state r) = false -> terminal state = true -> state <> JobState_Succeeded ->
  jb_assigned r = true -> inspect r now = Ret s ->
  accounts now (ended state reason now (charged (sn_compute_gpu_ns s) r)).
Proof.
  intros Ht Hst Hns Ha Hin. rewrite (inspect_spec now now r Hac ltac:(lia) Hnow) in Hin.
  destruct (u64_max <? allocated r now); [done |]. injection Hin as <-. cbn [sn_compute_gpu_ns expected_snapshot].
  destruct (computed_bounds now now r Hac ltac:(lia)) as [C1 C2].
  destruct (proj1 (ac_assigned _ _ Hac) Ha) as [a Hal].
  destruct (ac_allocated _ _ Hac a Hal) as (A1 & A2 & A3 & A4 & A5). destruct (A5 Ht) as (B1 & B2 & B3 & B4).
  destruct (busy_facts now r Hac) as (_ & Hfin & _); [by unfold busy; rewrite Ha, Ht |].
  destruct Hac as [H1 H2 H3 H4 H5 H6 H7 H8 H9 H10]. split; try done; cbn.
  - intros f [= <-]. word_lia.
  - intros a' Ha'. rewrite Hal in Ha'. injection Ha' as <-. rewrite Hfin in A2. cbn in A2.
    split_and!; try done; [| congruence]. intros _.
    unfold allocated in C2. rewrite Hal, Hfin in C2. cbn in C2. by rewrite A3 in C2.
  - rewrite Hal. done.
  - intros f [= <-] _ _. unfold computed, elapsed_compute, busy. rewrite Ha, Ht, B3. split; [lia | done].
Qed.

(** The step took long enough for all shares. *)
Context (Hb : busy r = true) (Hdone : compute_sum r <= width r * (now - jb_step_started r)).

(** The job after the step. *)
Definition stepped (c n : Z) : JobRecord := {| r with jb_compute_gpu_ns := c; jb_step := n |}.

Lemma step_charge : exists a, jb_allocated_at r = Some a /\ jb_finished r = None /\
  js_arrival (jb_spec r) <= a <= jb_step_started r /\ jb_step_started r <= now /\
  jb_compute_gpu_ns r + compute_sum r = (jb_step r + 1) * compute_sum r /\
  0 <= (jb_step r + 1) * compute_sum r <= (now - a) * width r /\ 0 <= jb_step r < js_steps (jb_spec r) /\
  (jb_step r + 1) * compute_sum r <= js_steps (jb_spec r) * compute_sum r.
Proof.
  destruct (busy_facts now r Hac Hb) as (Ht & Hf & a & Ha). exists a.
  destruct (ac_allocated _ _ Hac a Ha) as (A1 & A2 & A3 & A4 & A5). destruct (A5 Ht) as (B1 & B2 & B3 & B4).
  pose proof (compute_sum_nonneg now r Hac). destruct (ac_steps _ _ Hac) as [S1 S2].
  split_and!; try done; try lia; nia.
Qed.

Lemma stepped_succeeded reason :
  jb_step r + 1 = js_steps (jb_spec r) ->
  accounts now (ended JobState_Succeeded reason now (stepped ((jb_step r + 1) * compute_sum r) (jb_step r + 1))).
Proof.
  intros Hlast. destruct step_charge as (a & Ha & Hf & P1 & P2 & P3 & P4 & P5 & P6).
  destruct Hac as [H1 H2 H3 H4 H5 H6 H7 H8 H9 H10]. split; try done; cbn.
  - lia.
  - change (compute_sum (ended _ _ _ _)) with (compute_sum r). lia.
  - intros f [= <-]. word_lia.
  - intros a' Ha'. rewrite Ha in Ha'. injection Ha' as <-. destruct (H7 a Ha) as (_ & _ & A3 & _).
    change (width (ended _ _ _ _)) with (width r). split_and!; try done; [lia | lia | lia].
  - rewrite Ha. done.
  - intros _. split; [done |]. by rewrite Hlast.
Qed.

Lemma stepped_started :
  jb_step r + 1 < js_steps (jb_spec r) ->
  accounts now (started now (stepped ((jb_step r + 1) * compute_sum r) (jb_step r + 1))).
Proof.
  intros Hlast. destruct step_charge as (a & Ha & Hf & P1 & P2 & P3 & P4 & P5 & P6).
  destruct Hac as [H1 H2 H3 H4 H5 H6 H7 H8 H9 H10]. split; try done; cbn.
  - lia.
  - change (compute_sum (started _ _)) with (compute_sum r). lia.
  - rewrite Hf. split; [by intros [? ?] | done].
  - intros a' Ha'. rewrite Ha in Ha'. injection Ha' as <-. destruct (H7 a Ha) as (_ & _ & A3 & _). rewrite Hf. cbn.
    change (compute_sum (started _ _)) with (compute_sum r). change (width (started _ _)) with (width r).
    split_and!; try done; try lia.
  - rewrite Ha. done.
  - intros f. by rewrite Hf.
Qed.
End Accounts.

(** ** Passing a share *)

Section Pass.
Context (L0 L : gmap EventId Event) (now0 now : Z) (id : JobId) (r : JobRecord) (w i : Z) (e : EventId) (ev : Event).
Context (Hs : spec_ok r) (Hst : step_ok now0 L0 id r) (Hr : cell_range r w i) (Hc : cell r w i = Some (Some e)).
Context (Hev : L0 !! e = Some ev) (Hts : ev_timestamp ev = now) (Hle : now0 <= now).
Context (Hpay : ev_payload ev = compute_payload id r w i).
Context (Hkept : forall e' ev', e' <> e -> L0 !! e' = Some ev' -> L !! e' = Some ev').

Definition counted (ready : list Z) (bucket : Z) : list Z :=
  if js_overlap (jb_spec r) then alter (fun n => u32_wrap (n + 1)) (Z.to_nat bucket) ready
  else (fun n => u32_wrap (n + 1)) <$> ready.

(** The record after the event. *)
Definition advanced : JobRecord :=
  let p := pass_cell r w i in
  {| p with jb_ready := counted (jb_ready r) (bucket_of r i);
     jb_compute_complete := if bucket_of r i =? jb_buckets r - 1 then u32_wrap (jb_compute_complete r + 1)
                            else jb_compute_complete r |}.

Lemma passed_open : passed r i < width r.
Proof.
  pose proof (passed_range r i Hs). destruct (Z.eq_dec (passed r i) (width r)) as [Heq |]; [| lia].
  rewrite (passed_all r i w Hs Heq) in Hc by apply Hr. done.
Qed.

Lemma passed_advanced i' : 0 <= i' < events_per_worker r ->
  passed advanced i' = if decide (i = i') then passed r i' + 1 else passed r i'.
Proof. intros Hi'. apply (passed_pass r w i e); [done | apply Hst | done | done | done]. Qed.

Lemma last_bucket : (bucket_of r i =? jb_buckets r - 1) = bool_decide (i = events_per_worker r - 1).
Proof.
  destruct Hr as [_ Hi]. unfold bucket_of, events_per_worker in *. destruct (js_overlap _).
  - case_bool_decide; lia.
  - rewrite bool_decide_eq_true_2 by lia. apply Z.eqb_refl.
Qed.

Lemma count_wrap n : 0 <= n < width r -> u32_wrap (n + 1) = n + 1.
Proof. intros Hn. pose proof (so_width _ Hs). unfold u32_wrap. apply Z.mod_small. lia. Qed.

Lemma advanced_ready b : 0 <= b < jb_buckets r ->
  jb_ready advanced !! Z.to_nat b = Some (passed advanced (index_of r b)).
Proof.
  intros Hb. pose proof (passed_range r i Hs). pose proof passed_open. destruct Hr as [_ Hi].
  rewrite passed_advanced by (by apply index_range). pose proof (st_ready _ _ _ _ Hst b Hb) as Hrd.
  change (jb_ready advanced) with (counted (jb_ready r) (bucket_of r i)). unfold counted, index_of, bucket_of in *.
  destruct (js_overlap (jb_spec r)) eqn:Ho.
  - destruct (decide (i = b)) as [<- | Hne].
    + rewrite list_lookup_alter_eq, Hrd. cbn. rewrite count_wrap by lia. done.
    + rewrite list_lookup_alter_ne by lia. done.
  - assert (i = 0) as -> by (unfold events_per_worker in Hi; rewrite Ho in Hi; lia).
    rewrite list_lookup_fmap, Hrd. cbn. rewrite count_wrap by lia. done.
Qed.

Lemma advanced_complete : jb_compute_complete advanced = passed advanced (events_per_worker r - 1).
Proof.
  pose proof (events_per_worker_pos r Hs). pose proof (passed_range r i Hs). pose proof passed_open.
  rewrite passed_advanced by lia. cbn [advanced jb_compute_complete]. rewrite last_bucket.
  rewrite (st_complete _ _ _ _ Hst). case_bool_decide as Hi.
  - rewrite decide_True by done. rewrite count_wrap; [done |]. rewrite <- Hi. lia.
  - by rewrite decide_False.
Qed.

Lemma pass_kept (w' i' : Z) e' : cell_range r w' i' -> cell r w' i' = Some (Some e') -> ~ (w = w' /\ i = i') -> e' <> e.
Proof.
  intros Hr' Hc' Hne ->. destruct (st_pending _ _ _ _ Hst w' i' e Hr' Hc') as (ev' & Hev' & _ & Hp').
  rewrite Hev in Hev'. injection Hev' as <-. rewrite Hpay in Hp'. injection Hp' as Hw Hbk.
  apply Hne. split; [done |]. rewrite <- (index_of_bucket r i), <- (index_of_bucket r i'), Hbk by (apply Hr || apply Hr'). done.
Qed.

Lemma step_advanced : step_ok now L id advanced.
Proof.
  pose proof Hst as [H1 H2 H3 H4 H5 H6 H7 H8 H9].
  assert (due r w i = now) as Hdue.
  { destruct (H3 w i e Hr Hc) as (ev' & Hev' & Hts' & _). congruence. }
  assert (forall (w' i' : Z), cell_range r w' i' ->
    cell advanced w' i' = if decide (w = w' /\ i = i') then Some None else cell r w' i') as Hcell.
  { intros w' i' Hr'. by apply cell_pass. }
  split; try done.
  - cbn. by rewrite length_insert.
  - intros w' i' e' Hr' Hc'. rewrite (Hcell w' i' Hr') in Hc'. destruct (decide _) as [|Hne]; [done |].
    pose proof (pass_kept w' i' e' Hr' Hc' Hne) as He'. eapply scheduled_kept; [| by apply H3]. intros ev'. by apply Hkept.
  - intros w' i' Hr' Hc'. rewrite (Hcell w' i' Hr') in Hc'. change (due advanced w' i') with (due r w' i').
    destruct (decide _) as [[<- <-] | Hne]; [lia |]. specialize (H4 w' i' Hr' Hc'). lia.
  - cbn. unfold counted. destruct (js_overlap _); [by rewrite length_alter | by rewrite length_fmap].
  - exact advanced_ready.
  - exact advanced_complete.
  - intros b Hb. specialize (H9 b Hb). cbn in Hb. change (index_of advanced b) with (index_of r b).
    assert (0 <= b < jb_buckets r) as Hbr by lia. change (width advanced) with (width r).
    rewrite passed_advanced by (by apply index_range). destruct (decide (i = index_of r b)) as [Hi |]; [| done].
    pose proof passed_open. rewrite <- Hi in H9. lia.
Qed.
End Pass.

(** ** A running job *)

Section Running.
Context {X : Type} `{ClusterLaws X} (taken : list JobSnapshot).
Implicit Types (en : WorkloadEngine) (x : X) (id : JobId) (r : JobRecord).

Abbreviation mid := (mid taken).
Abbreviation engine_ok := (engine_ok taken).

(** Up to the start of the next collective. *)
Record settling x id r : Prop := {
  se_id : jb_id r = id;
  se_spec : spec_ok r;
  se_accounts : accounts (cs_now x) r;
  se_busy : busy r = true;
  se_queued : queued (jb_state r) = false;
  se_arrival : jb_arrival_event r = None;
  se_step : step_ok (cs_now x) (cs_live x) id r;
}.

Lemma settled_job x id r : settling x id r -> moving r -> job_ok (cs_now x) (cs_live x) id r.
Proof.
  intros [H1 H2 H3 H4 H5 H6 H7] Hm. apply busy_unfold in H4 as [Ha Ht]. split; try done.
  - intros _. by rewrite H5.
  - by destruct (jb_state r).
  - intros Hw. rewrite Hw in H5. done.
  - congruence.
Qed.

Lemma job_settling x id r : job_ok (cs_now x) (cs_live x) id r -> busy r = true -> settling x id r.
Proof.
  intros Hok Hb. pose proof (job_busy _ _ _ _ Hok) as Hq. rewrite Hb in Hq.
  symmetry in Hq. apply andb_true_iff in Hq as [Ht%negb_true_iff Hq%negb_true_iff].
  destruct (jo_step _ _ _ _ Hok Hb) as [Hst _]. destruct Hok as [H1 H2 H3 H4 H5 H6 H7 H8]. split; try done.
  by destruct (jb_state r).
Qed.

Lemma settling_onward x x' id r : onward x x' -> cs_ok x -> settling x id r -> settling x' id r.
Proof.
  intros Hon Hok [H1 H2 H3 H4 H5 H6 H7]. destruct (onward_ok _ _ Hon Hok) as [_ Hnow]. split; try done; [by rewrite Hnow |].
  by eapply step_onward.
Qed.

Lemma settling_own x id r : settling x id r -> own_events id (cs_live x) r.
Proof.
  intros [H1 H2 H3 H4 H5 H6 H7] e [He | He]; [| congruence].
  apply list_elem_of_lookup in He as [k Hk].
  destruct (slot_surj r k (Some e) H2 (st_events_len _ _ _ _ H7) Hk) as (w & i & Hr & Hc).
  destruct (st_pending _ _ _ _ H7 w i e Hr Hc) as (ev & Hev & _ & Hp). exists ev. split; [done |].
  right. exists r, w, i. done.
Qed.

(** The state of a running job changes. *)
Definition in_state (s : JobState) r : JobRecord := {| r with jb_state := s |}.

Definition running (s : JobState) : Prop := terminal s = false /\ queued s = false.

Lemma settling_state x id r s : settling x id r -> running s ->
  settling x id (in_state s r) /\ same_views r (in_state s r).
Proof.
  intros [H1 H2 [A1 A2 A3 A4 A5 A6 A7 A8 A9 A10] H4 H5 H6 [P1 P2 P3 P4 P5 P6 P7 P8 P9]] [Hs Hq].
  apply busy_unfold in H4 as [Ha Ht]. rewrite Ht in *. split.
  - split; try done; [by destruct H2 | | by apply busy_unfold]. split; try done; cbn; [by rewrite Hs | by rewrite Hs | by intros -> |].
    intros f Hf. exfalso; discriminate (proj1 A5 (ex_intro _ f Hf)).
  - unfold same_views, seat, report, busy. cbn. by rewrite Ha, Ht, Hs.
Qed.

(** ** Starting a collective *)

Lemma bucket_size_word r n : bucket_size r = Ret n -> spec_ok r -> u64 n.
Proof.
  unfold bucket_size. destruct (checked_product _ _) as [c |]; [| done]. intros [= <-] Hs.
  destruct (so_bytes _ Hs) as (_ & Hb & _). pose proof (u64_wrap_range (js_gradient_bytes (jb_spec r) - c)).
  unfold u64 in *. lia.
Qed.

Definition with_collective (c : option CollectiveId) r : JobRecord := {| r with jb_active_collective := c |}.

Lemma settling_collective x id r c : settling x id r ->
  passed r (index_of r (jb_completed_buckets r)) = width r -> settling x id (with_collective (Some c) r).
Proof.
  intros [H1 H2 [A1 A2 A3 A4 A5 A6 A7 A8 A9 A10] H4 H5 H6 [P1 P2 P3 P4 P5 P6 P7 P8 P9]] Hp.
  split; try done; [by destruct H2 |]. split; try done. cbn. intros b [Hb | [-> _]]; [apply P9; by left | done].
Qed.

(** The engine with a new collective. *)
Lemma mid_collect en id r x c :
  mid en id r x -> jb_active_collective r = None -> en_collectives_ en !! c = None -> cs_known x c ->
  mid {| en with en_collectives_ := <[c := id]> (en_collectives_ en) |} id (with_collective (Some c) r) x.
Proof.
  intros [M1 M2 M3 M4 M5] Ha Hc Hk. split; try done; [by destruct M2 | |].
  - unfold engine_tables in *. cbn. rewrite <- (insert_insert_eq (en_jobs_ en) id (with_collective (Some c) r) r).
    apply (tables_collect _ _ _ _ _ _ id r); try done. apply lookup_insert_eq.
  - intros Hi id' y [[<- <-] | [Hne Hy]]%lookup_insert_Some; [apply (M4 Hi id r), lookup_insert_eq |].
    apply (M4 Hi id'). by rewrite lookup_insert_ne.
Qed.

Lemma start_collective_spec en id r x :
  mid en id r x -> settling x id r ->
  yields (start_collective id) (fun w' _ => engine_ok w') (state_at en id r x).
Proof.
  intros Hm Hse. pose proof (md_cluster _ _ _ _ _ Hm) as Hok. pose proof Hse as [E1 E2 E3 E4 E5 E6 E7].
  unfold start_collective. apply yields_bind, yields_job_at.
  destruct (has_value (jb_active_collective r)) eqn:Hact.
  { apply bool_decide_eq_true in Hact as [c Hc]. apply (mid_close taken); [done |]. apply settled_job; [done |]. intros Hn. congruence. }
  apply bool_decide_eq_false, eq_None_not_Some in Hact.
  apply yields_bind, yields_of_option. intros n Hn. rewrite (st_ready _ _ _ _ E7) in Hn by apply E7. injection Hn as <-.
  rewrite (st_workers _ _ _ _ E7). destruct (Z.eqb_spec (passed r (index_of r (jb_completed_buckets r))) (width r)) as [Hp | Hp]; cbn [negb].
  2:{ apply (mid_close taken); [done |]. apply settled_job; [done |]. by intros _. }
  apply yields_bind, yields_of_outcome. intros bytes Hb. pose proof (bucket_size_word r bytes Hb E2) as Hbw.
  destruct (so_bytes _ E2) as (_ & _ & Hcb). apply yields_bind.
  eapply yields_with_cluster; [apply cs_submit_law; [done | done | unfold u64; cbn; lia] |].
  intros x1 c (Hl1 & Hsub & Hfresh & Hknown). assert (onward x x1) as H1 by done.
  into_state_at (state_at en id r x1). destruct (onward_ok _ _ H1 Hok) as [Hok1 _].
  assert (en_collectives_ en !! c = None) as Hnone.
  { destruct (en_collectives_ en !! c) as [i |] eqn:Hi; [| done]. destruct Hfresh.
    exact (tb_known _ _ _ _ _ _ (md_tables _ _ _ _ _ Hm) c i Hi). }
  apply (mid_onward taken _ _ _ x x1 H1) in Hm. apply (settling_onward _ _ _ _ H1 Hok) in Hse.
  apply yields_bind, yields_modify_job. apply yields_bind, wp_modify.
  into_state_at (state_at {| en with en_collectives_ := match en_collectives_ en !! c with Some _ => en_collectives_ en
    | None => <[c := jb_id r]> (en_collectives_ en) end |} id (with_collective (Some c) r) x1).
  rewrite Hnone, E1. apply (mid_collect en id r x1 c) in Hm; [| done | done | done].
  apply (settling_collective x1 id r c) in Hse; [| done].
  apply yields_bind, yields_modify_job.
  match goal with |- context [state_at _ id ?z x1] => set (r1 := z) end.
  assert (exists s, r1 = in_state s (with_collective (Some c) r) /\ running s) as (s & Hr1 & Hs).
  { eexists. split; [reflexivity |]. by destruct (compute_phase_done _). }
  destruct (settling_state _ _ _ s Hse Hs) as [Hse1 Hv]. rewrite <- Hr1 in *. clearbody r1. clear Hr1.
  apply (mid_put taken _ _ _ r1) in Hm; [| done].
  assert (moving r1) as Hmov by (intros Hn; destruct Hv as (_ & _ & Hv & _); cbn in Hv; congruence).
  apply yields_bind, yields_trace. intros tl. apply yields_emit_job; [done |]. intros x2 H2.
  apply (mid_close taken); [apply (mid_timeline taken); by eapply (mid_onward taken) |].
  apply settled_job; [by eapply settling_onward | done].
Qed.

(** ** Compute events *)

(** The rest of [compute_ready] after the share was counted. *)
Lemma compute_counted_spec en id r x (worker : Z) :
  mid en id r x -> settling x id r ->
  yields (let! r := job_at id in
          do! when (compute_phase_done r)
                (do! when (has_value (jb_active_collective r))
                       (modify_job id (fun r => {| r with jb_state := JobState_Communicating |})) in
                 do! trace_job id "step_compute_finished" in
                 emit_job id JobTransition_ComputeCompleted worker) in
          start_collective id) (fun w' _ => engine_ok w') (state_at en id r x).
Proof.
  intros Hm Hse. pose proof (md_cluster _ _ _ _ _ Hm) as Hok. apply yields_bind, yields_job_at. apply yields_bind, yields_when.
  2:{ intros _. by apply start_collective_spec. }
  intros _. apply yields_bind. apply (yields_conseq _ (fun w' _ => exists r', w' = state_at en id r' x /\ mid en id r' x /\ settling x id r')).
  { apply yields_when; intros _; [| by exists r]. apply yields_modify_job.
    destruct (settling_state x id r JobState_Communicating Hse ltac:(done)) as [Hse' Hv].
    exists (in_state JobState_Communicating r). split; [done |]. split; [by eapply (mid_put taken) | done]. }
  intros w' [] (r' & -> & Hm' & Hse'). apply yields_bind, yields_trace. intros tl. apply yields_emit_job; [done |].
  intros x1 H1. apply start_collective_spec; [| by eapply settling_onward].
  apply (mid_timeline taken). by eapply (mid_onward taken).
Qed.
End Running.

(** ** Events of the workload engine

    Every handler keeps the invariant: compute events, collective results,
    arrivals, failures, admission and submission. *)

Section Events.
Context {X : Type} `{ClusterLaws X} (taken : list JobSnapshot).
Implicit Types (en : WorkloadEngine) (x : X) (id : JobId) (r : JobRecord).

Abbreviation mid := (mid taken).
Abbreviation engine_ok := (engine_ok taken).

(** ** Dispatch

    The kernel takes an event from the queue; the clock moves to its time. *)
Record dispatched (ev : Event) x0 x : Prop := {
  di_ok : cs_ok x;
  di_live : cs_live x0 !! ev_id ev = Some ev;
  di_now : cs_now x = ev_timestamp ev;
  di_current : cs_current_event_id x = Ret (ev_id ev);
  di_known c : cs_known x0 c -> cs_known x c;
  di_kept e ev' : e <> ev_id ev -> cs_live x0 !! e = Some ev' -> cs_live x !! e = Some ev';
}.

Lemma dispatched_time ev x0 x : cs_ok x0 -> dispatched ev x0 x -> cs_now x0 <= cs_now x.
Proof. intros Hok Hd. rewrite (di_now _ _ _ Hd). eapply cs_live_future; [done | apply Hd]. Qed.

Lemma dispatched_job ev x0 x id r :
  cs_ok x0 -> dispatched ev x0 x -> job_ok (cs_now x0) (cs_live x0) id r ->
  (terminal (jb_state r) = false -> ~ pending r (ev_id ev)) -> job_ok (cs_now x) (cs_live x) id r.
Proof.
  intros Hok Hd Hj Hn. pose proof (dispatched_time _ _ _ Hok Hd).
  destruct (terminal (jb_state r)) eqn:Ht.
  - eapply job_ok_ended, Ht. eapply job_ok_later; [done | done | by intros ? ?].
  - eapply job_ok_later; [done | done |]. intros e ev' He Hev'. apply Hd; [| done]. intros ->. by apply Hn.
Qed.

(** Only the job the event names waits for it. *)
Lemma dispatched_engine en ev x0 x id :
  engine_ok (mkTraining en x0) -> dispatched ev x0 x -> (forall id', names id' ev -> id' = id) ->
  config_ok en /\ engine_tables taken en (en_jobs_ en) x /\ all_pinned en (en_jobs_ en) /\ cs_ok x /\
  forall id' r', id' <> id -> en_jobs_ en !! id' = Some r' -> job_ok (cs_now x) (cs_live x) id' r'.
Proof.
  intros [H1 H2 H3 H4 H5] Hd Hn. cbn in *. split_and!; try done.
  - eapply tables_known; [| done]. apply Hd.
  - apply Hd.
  - intros id' r' Hne Hr'. eapply dispatched_job; [done | done | by apply H5 |]. intros Ht Hp. apply Hne, Hn.
    eapply job_pending_names; [by apply H5 | done | done | apply Hd].
Qed.

(** No job waits for the event. *)
Lemma dispatched_all en ev x0 x :
  engine_ok (mkTraining en x0) -> dispatched ev x0 x -> (forall id', ~ names id' ev) -> engine_ok (mkTraining en x).
Proof.
  intros Hen Hd Hn. destruct (dispatched_engine en ev x0 x (-1) Hen Hd) as (E1 & E2 & E3 & E4 & _); [by intros id' ?%Hn |].
  split; try done. cbn. intros id r Hr. destruct (dispatched_engine en ev x0 x (id + 1) Hen Hd) as (_ & _ & _ & _ & E5); [by intros id' ?%Hn |].
  apply E5; [lia | done].
Qed.

Lemma dispatched_mid en ev x0 x id r :
  engine_ok (mkTraining en x0) -> dispatched ev x0 x -> (forall id', names id' ev -> id' = id) ->
  en_jobs_ en !! id = Some r ->
  mkTraining en x = state_at en id r x /\ mid en id r x /\ job_ok (cs_now x0) (cs_live x0) id r.
Proof.
  intros Hen Hd Hn Hr. destruct (dispatched_engine en ev x0 x id Hen Hd Hn) as (E1 & E2 & E3 & E4 & E5).
  split; [by apply (state_at_start (mkTraining en x)) |]. split; [split; try done; by rewrite insert_id |].
  by apply (eo_jobs taken _ Hen).
Qed.

(** ** Ending early *)

Lemma job_fail_spec en id r x state reason :
  mid en id r x -> own_events id (cs_live x) r -> spec_ok r -> jb_id r = id -> accounts (cs_now x) r ->
  terminal (jb_state r) = false -> terminal state = true -> state <> JobState_Succeeded ->
  yields (finish_job id state reason) (fun w' _ => engine_ok w') (state_at en id r x).
Proof.
  intros Hm Hown Hs Hid Hac Ht Hst Hns. pose proof (cs_now_u64 _ (md_cluster _ _ _ _ _ Hm)) as Hu.
  apply (finish_job_spec taken); try done.
  - intros [? | Ha]; [done |]. by apply ended_unassigned.
  - intros _ Ha s Hin. by apply ended_charged.
Qed.

Lemma fail_job_spec en id r x state reason :
  mid en id r x -> job_ok (cs_now x) (cs_live x) id r -> terminal (jb_state r) = false ->
  terminal state = true -> state <> JobState_Succeeded ->
  yields (finish_job id state reason) (fun w' _ => engine_ok w') (state_at en id r x).
Proof.
  intros Hm Hj Ht Hst Hns. apply job_fail_spec; try done; [by eapply job_own_events | apply Hj | apply Hj | apply Hj].
Qed.

(** ** Compute events *)

Lemma busy_state now L id r : job_ok now L id r -> terminal (jb_state r) = false ->
  queued (jb_state r) = false -> busy r = true.
Proof. intros Hj Ht Hq. by rewrite (job_busy _ _ _ _ Hj), Ht, Hq. Qed.

Lemma advanced_settling ev x0 x id r (w i : Z) :
  cs_ok x0 -> dispatched ev x0 x -> job_ok (cs_now x0) (cs_live x0) id r -> busy r = true ->
  cell_range r w i -> cell r w i = Some (Some (ev_id ev)) -> ev_payload ev = compute_payload id r w i ->
  settling x id (advanced r w i) /\ same_views r (advanced r w i).
Proof.
  intros Hok Hd Hj Hb Hr Hc Hpay. pose proof (dispatched_time _ _ _ Hok Hd) as Ht.
  pose proof (job_settling x0 id r Hj Hb) as [H1 H2 H3 H4 H5 H6 H7].
  split; [| done]. split; try done; [by destruct H2 | |].
  - destruct (accounts_later _ _ _ Ht H3) as [A1 A2 A3 A4 A5 A6 A7 A8 A9 A10]. by split.
  - eapply step_advanced; try done; [apply Hd | by rewrite (di_now _ _ _ Hd) |]. apply Hd.
Qed.

Lemma compute_ready_spec en ev we x0 x id r :
  engine_ok (mkTraining en x0) -> dispatched ev x0 x -> ev_payload ev = Workload_ we ->
  mid en id r x -> job_ok (cs_now x0) (cs_live x0) id r -> terminal (jb_state r) = false ->
  yields (compute_ready id we) (fun w' _ => engine_ok w') (state_at en id r x).
Proof.
  intros Hen Hd Hpay Hm Hj Ht. pose proof (md_cluster _ _ _ _ _ Hm) as Hok.
  unfold compute_ready. apply yields_bind, yields_job_at. apply yields_bind, yields_throw_if. intros Hg.
  apply orb_false_iff in Hg as [[[[G1 G2]%orb_false_iff _]%orb_false_iff _]%orb_false_iff _].
  assert (busy r = true) as Hb by (eapply busy_state; [done | done | unfold queued; by rewrite G1, G2]).
  destruct (jo_step _ _ _ _ Hj Hb) as [Hst _]. pose proof (jo_spec _ _ _ _ Hj) as Hs.
  apply yields_bind, yields_of_option. intros pend Hk. apply yields_bind. destruct pend as [e |]; [| done].
  apply yields_ask. intros cur Hcur. apply yields_bind, yields_throw_if. intros Heq%negb_false_iff%bool_decide_eq_true.
  injection Heq as ->. cbn in Hcur. rewrite (di_current _ _ _ Hd) in Hcur. injection Hcur as <-.
  destruct (slot_surj r _ _ Hs (st_events_len _ _ _ _ Hst) Hk) as (w & i & Hr & Hc).
  destruct (st_pending _ _ _ _ Hst w i _ Hr Hc) as (ev' & Hev' & _ & Hp). rewrite (di_live _ _ _ Hd) in Hev'. injection Hev' as <-.
  pose proof Hp as Hp'. rewrite Hpay in Hp'. injection Hp' as ->. cbn [we_worker we_bucket].
  destruct (advanced_settling ev x0 x id r w i (eo_cluster _ _ Hen) Hd Hj Hb Hr Hc Hp) as [Hse Hv].
  fold (index_of r (bucket_of r i)). rewrite index_of_bucket by apply Hr.
  pose proof (so_buckets _ Hs) as Hbk. assert (u32_wrap (jb_buckets r - 1) = jb_buckets r - 1) as ->
    by (unfold u32_wrap; apply Z.mod_small; word_lia).
  apply yields_bind, yields_modify_job. apply yields_bind, yields_modify_job. apply yields_bind.
  apply (mid_put taken _ _ _ (advanced r w i)) in Hm; [| done].
  apply (yields_conseq _ (fun w' _ => exists x1, w' = state_at en id (advanced r w i) x1 /\ onward x x1)).
  2:{ intros w' [] (x1 & -> & H1). apply (compute_counted_spec taken); [by eapply (mid_onward taken) | by eapply settling_onward]. }
  unfold advanced. destruct (bucket_of r i =? jb_buckets r - 1); cbn [when].
  - apply yields_bind, yields_modify_job. apply yields_bind, yields_job_at. apply yields_when.
    + intros _. apply yields_emit_job; [done |]. intros x1 H1. exists x1. done.
    + intros _. exists x. split; [done | reflexivity].
  - exists x. split; [done | reflexivity].
Qed.

(** ** Results of collectives *)

Lemma complete_step_spec en id r x :
  mid en id r x -> spec_ok r -> accounts (cs_now x) r -> busy r = true -> jb_id r = id ->
  jb_arrival_event r = None -> jb_active_collective r = None ->
  zlength (js_workers (jb_spec r)) = width r -> own_events id (cs_live x) r ->
  compute_sum r <= width r * (cs_now x - jb_step_started r) ->
  yields (complete_step id) (fun w' _ => engine_ok w') (state_at en id r x).
Proof.
  intros Hm Hs Hac Hb Hid Harr Hact Hw Hown Hdone. pose proof (md_cluster _ _ _ _ _ Hm) as Hok.
  pose proof (cs_now_u64 _ Hok) as Hu. pose proof (compute_sum_nonneg _ _ Hac) as Hsum.
  destruct (step_charge _ r Hac Hb Hdone) as (a & Ha & Hf & P1 & P2 & P3 & P4 & P5 & P6).
  destruct (ac_words _ _ Hac) as (_ & Hpos & Hmax). pose proof (ac_compute _ _ Hac) as Hcg. destruct (ac_steps _ _ Hac) as [_ S2].
  unfold complete_step. apply yields_bind, yields_job_at.
  rewrite sum_durations_ret; [| split; nia | by eapply Forall_impl; [done |]; cbn; intros; lia | fold (compute_sum r); nia].
  fold (compute_sum r). rewrite P3. apply yields_bind, yields_of_outcome. intros c [= <-].
  apply yields_bind, yields_modify_job. apply yields_bind, yields_emit_job; [done |]. intros x1 H1.
  destruct (onward_ok _ _ H1 Hok) as [Hok1 Hnow]. apply yields_bind, yields_modify_job. cbn [jb_step].
  assert (u32_wrap (jb_step r + 1) = jb_step r + 1) as -> by (unfold u32_wrap; apply Z.mod_small; word_lia).
  set (c := (jb_step r + 1) * compute_sum r) in *. fold (charged c r).
  change (state_at en id _ x1) with (state_at en id (stepped r c (jb_step r + 1)) x1).
  apply busy_unfold in Hb as Hb'. destruct Hb' as [Hasg Ht].
  assert (mid en id (stepped r c (jb_step r + 1)) x1) as Hm1.
  { eapply (mid_onward taken); [done |]. eapply (mid_put taken); [done |]. unfold same_views, report, seat, busy. cbn. by rewrite Ht. }
  assert (spec_ok (stepped r c (jb_step r + 1))) as Hs1 by (destruct Hs; by split).
  apply yields_bind, yields_job_at. cbn [jb_step stepped jb_spec].
  destruct (Z.eqb_spec (jb_step r + 1) (js_steps (jb_spec r))) as [Hlast | Hlast].
  - apply (finish_job_spec taken); try done.
    + by eapply own_onward.
    + intros _. rewrite Hnow. by apply stepped_succeeded.
  - apply (start_step_spec taken); try done. rewrite Hnow. apply stepped_started; try done. lia.
Qed.

Lemma mid_uncollect en id r x c :
  mid en id r x -> jb_active_collective r = Some c ->
  mid {| en with en_collectives_ := delete c (en_collectives_ en) |} id (with_collective None r) x.
Proof.
  intros [M1 M2 M3 M4 M5] Ha. split; try done; [by destruct M2 | |].
  - unfold engine_tables in *. cbn. rewrite <- (insert_insert_eq (en_jobs_ en) id (with_collective None r) r).
    apply (tables_uncollect _ _ _ _ _ _ id r); try done. apply lookup_insert_eq.
  - intros Hi id' y [[<- <-] | [Hne Hy]]%lookup_insert_Some; [apply (M4 Hi id r), lookup_insert_eq |].
    apply (M4 Hi id'). by rewrite lookup_insert_ne.
Qed.

Lemma job_uncollected now L id r : job_ok now L id r -> terminal (jb_state r) = true ->
  job_ok now L id (with_collective None r).
Proof.
  intros [H1 [] [A1 A2 A3 A4 A5 A6 A7 A8 A9 A10] H4 H5 H6 H7 H8] Ht. split; try done.
  - cbn. intros Hq. by rewrite terminal_not_queued in Hq.
  - intros [_ Hf]%busy_unfold. cbn in Hf. congruence.
Qed.

Lemma accounts_uncollected now r : accounts now r -> accounts now (with_collective None r).
Proof. intros []. by split. Qed.

(** The bucket is reduced. *)
Definition bucket_done r : JobRecord :=
  {| r with jb_active_collective := None; jb_completed_buckets := jb_completed_buckets r + 1 |}.

Lemma bucket_done_settling x id r c :
  settling x id r -> jb_active_collective r = Some c -> jb_completed_buckets r + 1 <> jb_buckets r ->
  settling x id (bucket_done r).
Proof.
  intros [H1 [] [A1 A2 A3 A4 A5 A6 A7 A8 A9 A10] H4 H5 H6 [P1 P2 P3 P4 P5 P6 P7 P8 P9]] Ha Hne.
  split; try done. split; try done; cbn; [lia |]. intros b [Hb | [_ Hs]]; [| by destruct Hs].
  destruct (Z.eq_dec b (jb_completed_buckets r)) as [-> |]; [| apply P9; left; lia]. apply P9. right. eauto.
Qed.

Lemma handle_result_spec completion en x :
  engine_ok (mkTraining en x) -> yields (handle_result completion) (fun w' _ => engine_ok w') (mkTraining en x).
Proof.
  intros Hen. unfold handle_result. apply yields_bind, wp_gets. apply yields_bind, yields_of_option. intros id Hk.
  set (c := cl_id completion) in *. cbn [tn_engine] in Hk.
  destruct (proj1 (tb_collect _ _ _ _ _ _ (eo_tables _ _ Hen) c id) Hk) as (r & Hr & Ha). cbn in Hr.
  destruct (mid_open taken _ id r Hen Hr) as (Heq & Hm & Hj). cbn [tn_engine tn_cluster] in Heq, Hm, Hj. rewrite Heq.
  pose proof (md_cluster _ _ _ _ _ Hm) as Hok. pose proof (mid_uncollect _ _ _ _ c Hm Ha) as Hm'.
  apply yields_bind, yields_job_at. apply yields_bind, wp_modify. set (en' := {| en with en_collectives_ := _ |}) in Hm'.
  into_state_at (state_at en' id r x). destruct (terminal (jb_state r)) eqn:Ht.
  { apply yields_modify_job. apply (mid_close taken); [done | by apply job_uncollected]. }
  assert (busy r = true) as Hb.
  { rewrite (job_busy _ _ _ _ Hj), Ht. destruct (queued (jb_state r)) eqn:Hq; [| done].
    destruct (jo_queued _ _ _ _ Hj Hq). congruence. }
  pose proof (job_settling _ _ _ Hj Hb) as Hse. destruct (negb _) eqn:Hout.
  - apply yields_bind, yields_emit_job; [done |]. intros x1 H1. apply yields_bind, yields_modify_job.
    destruct (onward_ok _ _ H1 Hok) as [Hok1 Hn1]. pose proof (settling_own _ _ _ (settling_onward _ _ _ _ H1 Hok Hse)).
    apply job_fail_spec; try done; [by eapply (mid_onward taken) | by destruct (jo_spec _ _ _ _ Hj) | apply Hj |].
    rewrite Hn1. apply accounts_uncollected, Hj.
  - apply yields_bind, yields_trace. intros tl. apply yields_bind, yields_emit_job; [done |]. intros x1 H1.
    destruct (onward_ok _ _ H1 Hok) as [Hok1 Hn1]. apply (settling_onward _ _ _ _ H1 Hok) in Hse.
    apply yields_bind, yields_modify_job. apply yields_bind, yields_modify_job. cbn [jb_completed_buckets].
    pose proof (st_buckets _ _ _ _ (se_step _ _ _ Hse)) as Hcb. pose proof (so_buckets _ (se_spec _ _ _ Hse)) as Hbk.
    assert (u32_wrap (jb_completed_buckets r + 1) = jb_completed_buckets r + 1) as -> by (unfold u32_wrap; apply Z.mod_small; word_lia).
    change (state_at (with_timeline tl en') id _ x1) with (state_at (with_timeline tl en') id (bucket_done r) x1).
    assert (mid (with_timeline tl en') id (bucket_done r) x1) as Hm1.
    { apply (mid_timeline taken). eapply (mid_onward taken); [done |]. by eapply (mid_put taken). }
    apply yields_bind, yields_job_at. cbn [jb_completed_buckets bucket_done jb_buckets].
    destruct (Z.eqb_spec (jb_completed_buckets r + 1) (jb_buckets r)) as [Hlast | Hlast].
    + pose proof Hse as [E1 E2 E3 E4 E5 E6 E7]. apply complete_step_spec; try done.
      * by destruct E2.
      * by destruct E3.
      * apply E7.
      * exact (settling_own _ _ _ Hse).
      * eapply (step_sum (cs_now x1) r); [done | done |]. intros b Hbr.
        apply (st_order _ _ _ _ E7). destruct (Z.eq_dec b (jb_completed_buckets r)); [right; eauto | left; lia].
    + apply yields_bind, yields_modify_job.
      match goal with |- context [state_at _ id ?z x1] => set (r1 := z) end.
      assert (exists s, r1 = in_state s (bucket_done r) /\ running s) as (s & Hr1 & Hs)
        by (eexists; split; [reflexivity |]; by destruct (compute_phase_done _)).
      destruct (settling_state x1 id (bucket_done r) s) as [Hse1 Hv]; [by eapply bucket_done_settling | done |].
      rewrite <- Hr1 in *. apply (start_collective_spec taken); [by eapply (mid_put taken) | done].
Qed.
End Events.
