(* ===== verification/WorkloadAdmission.v ===== *)
(** * Arrival, admission and GPU failures

    Jobs get GPUs that are free, and the inventory of the scheduler agrees with
    the assignments of the engine. *)

From S2P Require Import Prelude SimTime Entities TelemetryRecords EventQueue SimContext Topology CollectivePlan.
From S2P Require Import RoutingPaths CollectiveRuntime Scheduling SchedulingLaws Workload WorkloadRuntime.
From S2P Require Import WorkloadLaws WorkloadInv WorkloadSteps WorkloadHandlers.

(** ** The inventory *)

Lemma same_gpus_inventory (gpus gpus' : list Resource) :
  (res_gpu <$> gpus') = (res_gpu <$> gpus) -> inventory_ok gpus -> inventory_ok gpus'.
Proof. unfold inventory_ok. by intros ->. Qed.

(** An allocation takes free GPUs. *)
Lemma allocated_gpus (gpus gpus' : list Resource) id (l : list GpuId) (A : gmap GpuId JobId) :
  inventory_ok gpus -> (forall g i, owned_by gpus g i <-> A !! g = Some i) ->
  allocate id l gpus = Ret gpus' ->
  NoDup l /\ l <> [] /\ (forall g, g ∈ l -> A !! g = None) /\
  forall (A' : gmap GpuId JobId), (forall g, A' !! g = if decide (g ∈ l) then Some id else A !! g) ->
    inventory_ok gpus' /\ forall g i, owned_by gpus' g i <-> A' !! g = Some i.
Proof.
  intros Hok Hown Hrun. pose proof (allocate_spec gpus id l Hok) as Ha. rewrite Hrun in Ha.
  destruct Ha as [(Hne & Hnd & Hav & Hjob) ->]. split; [done | split; [done |]]. split.
  - intros g Hg. destruct (A !! g) as [i |] eqn:Hi; [| done]. apply Hown in Hi as (res & Hin & Hgpu & Ho).
    destruct (Hav g Hg) as (res' & Hin' & Hgpu' & [_ Hf]%is_free_spec).
    apply list_elem_of_lookup in Hin as [k Hk]. apply list_elem_of_lookup in Hin' as [k' Hk'].
    assert (k = k') as <- by (eapply inventory_inj; [done | done | done | congruence]). congruence.
  - intros A' HA'. split.
    + eapply same_gpus_inventory; [| done]. unfold assign. rewrite <- list_fmap_compose. apply list_fmap_ext.
      intros k res _. cbn. by case_bool_decide.
    + intros g i. rewrite HA'. unfold owned_by, assign. split.
      * intros (res' & (res & -> & Hin)%list_elem_of_fmap & Hg & Ho). case_bool_decide as Hd; cbn in Hg, Ho.
        -- rewrite decide_True by congruence. congruence.
        -- rewrite decide_False by congruence. apply Hown. by exists res.
      * destruct (decide (g ∈ l)) as [Hg | Hg].
        -- intros [= <-]. destruct (Hav g Hg) as (res & Hin & Hgpu & _). exists (own id res).
           split; [| done]. apply list_elem_of_fmap. exists res. split; [| done]. rewrite bool_decide_eq_true_2; [done | congruence].
        -- intros (res & Hin & Hgpu & Ho)%Hown. exists res. split; [| done]. apply list_elem_of_fmap. exists res.
           split; [| done]. rewrite bool_decide_eq_false_2; [done | congruence].
Qed.

Lemma set_health_gpus (gpus gpus' : list Resource) g healthy o :
  inventory_ok gpus -> set_health g healthy gpus = Ret (gpus', o) ->
  inventory_ok gpus' /\ forall g' i, owned_by gpus' g' i <-> owned_by gpus g' i.
Proof.
  intros Hok. unfold set_health. destruct (lower_bound g gpus) as [[k found] |]; [| done].
  destruct (negb _); [done |]. intros [= <- _]. set (f := fun r => {| r with res_healthy := healthy |}).
  assert (forall j res, gpus !! j = Some res -> exists res', alter f k gpus !! j = Some res' /\
    res_gpu res' = res_gpu res /\ res_owner res' = res_owner res) as Hfwd.
  { intros j res Hj. destruct (decide (k = j)) as [<- | Hne].
    - rewrite list_lookup_alter_eq, Hj. by eexists.
    - rewrite list_lookup_alter_ne by done. eauto. }
  assert (forall j res', alter f k gpus !! j = Some res' -> exists res, gpus !! j = Some res /\
    res_gpu res' = res_gpu res /\ res_owner res' = res_owner res) as Hbwd.
  { intros j res' Hj. assert (is_Some (gpus !! j)) as [res Hres].
    { apply lookup_lt_is_Some. apply lookup_lt_Some in Hj. by rewrite length_alter in Hj. }
    destruct (Hfwd j res Hres) as (res'' & Hres'' & ?). rewrite Hj in Hres''. injection Hres'' as <-. eauto. }
  split.
  - eapply same_gpus_inventory; [| done]. apply list_eq. intros j. rewrite !list_lookup_fmap.
    destruct (gpus !! j) as [res |] eqn:Hj.
    + destruct (Hfwd j res Hj) as (res' & -> & Hg & _). cbn. by rewrite Hg.
    + apply lookup_ge_None in Hj. rewrite (proj2 (lookup_ge_None _ _)); [done | by rewrite length_alter].
  - intros g' i. unfold owned_by. split; intros (res & (j & Hj)%list_elem_of_lookup & Hg & Ho).
    + destruct (Hbwd j res Hj) as (res0 & H0 & E1 & E2). exists res0. split; [by eapply list_elem_of_lookup_2 |]. by rewrite <- E1, <- E2.
    + destruct (Hfwd j res Hj) as (res0 & H0 & E1 & E2). exists res0. split; [by eapply list_elem_of_lookup_2 |]. by rewrite E1, E2.
Qed.

(** ** Taking GPUs *)

Section Admission.
Context {X : Type} `{ClusterLaws X} (taken : list JobSnapshot).
Implicit Types (en : WorkloadEngine) (x : X) (id : JobId) (r : JobRecord).

Abbreviation mid := (mid taken).
Abbreviation engine_ok := (engine_ok taken).

(** The fields the invariant depends on. *)
Definition same_books en en' : Prop :=
  en_jobs_ en' = en_jobs_ en /\ en_limits_ en' = en_limits_ en /\ en_scheduling_ en' = en_scheduling_ en /\
  en_inventory_ en' = en_inventory_ en /\ en_assignments_ en' = en_assignments_ en /\
  en_collectives_ en' = en_collectives_ en /\ en_completed_ en' = en_completed_ en.

Lemma mid_engine_books en en' id r x : same_books en en' -> mid en id r x -> mid en' id r x.
Proof.
  intros (E1 & E2 & E3 & E4 & E5 & E6 & E7) [M1 [C1 C2 C3 C4] M3 M4 M5].
  split; [done | split; by rewrite ?E2, ?E3, ?E4 | | | by rewrite E1].
  - unfold engine_tables in *. by rewrite E1, E4, E5, E6, E7.
  - unfold all_pinned in *. by rewrite E1, E4.
Qed.

Lemma engine_books en en' x : same_books en en' -> engine_ok (mkTraining en x) -> engine_ok (mkTraining en' x).
Proof.
  intros (E1 & E2 & E3 & E4 & E5 & E6 & E7) [M1 [C1 C2 C3 C4] M3 M4 M5]. cbn in *.
  split; cbn; [done | split; by rewrite ?E2, ?E3, ?E4 | | | by rewrite E1].
  - unfold engine_tables in *. by rewrite E1, E4, E5, E6, E7.
  - unfold all_pinned in *. by rewrite E1, E4.
Qed.

Lemma assign_workers_spec Q en id r x :
  jb_id r = id -> (forall g, g ∈ js_workers (jb_spec r) -> en_assignments_ en !! g = None) ->
  (forall (A' : gmap GpuId JobId), (forall g, A' !! g = if decide (g ∈ js_workers (jb_spec r)) then Some id else en_assignments_ en !! g) ->
     Q (state_at {| en with en_assignments_ := A' |} id r x) tt) ->
  yields (assign_workers id) Q (state_at en id r x).
Proof.
  intros Hid Hfree HQ. unfold assign_workers. apply yields_bind, yields_job_at. rewrite Hid.
  set (l := js_workers (jb_spec r)) in *.
  enough (forall l' en', (forall g, g ∈ l' -> en_assignments_ en' !! g = None \/ en_assignments_ en' !! g = Some id) ->
    (forall (A' : gmap GpuId JobId), (forall g, A' !! g = if decide (g ∈ l') then Some id else en_assignments_ en' !! g) ->
       Q (state_at {| en' with en_assignments_ := A' |} id r x) tt) ->
    yields (for_each l' (fun worker => modify_engine (fun en => {| en with en_assignments_ :=
      match en_assignments_ en !! worker with
      | Some _ => en_assignments_ en
      | None => <[worker := id]> (en_assignments_ en)
      end |}))) Q (state_at en' id r x)) as Hgen by (apply Hgen; [intros g Hg; left; by apply Hfree | done]).
  clear. induction l' as [| g l' IH]; intros en Hfree HQ; cbn [for_each].
  - apply wp_ret. specialize (HQ (en_assignments_ en)). destruct en. apply HQ. intros g.
    by rewrite decide_False by apply not_elem_of_nil.
  - apply yields_bind, wp_modify. set (A1 := match en_assignments_ en !! g with Some _ => en_assignments_ en
      | None => <[g := id]> (en_assignments_ en) end).
    assert (forall g', A1 !! g' = if decide (g' = g) then Some id else en_assignments_ en !! g') as HA1.
    { intros g'. unfold A1. destruct (Hfree g ltac:(left)) as [Hg | Hg]; rewrite Hg.
      - destruct (decide (g' = g)) as [-> | Hne]; [by rewrite lookup_insert_eq | by rewrite lookup_insert_ne].
      - destruct (decide (g' = g)) as [-> | Hne]; done. }
    into_state_at (state_at {| en with en_assignments_ := A1 |} id r x). apply IH.
    + intros g' Hg'. cbn. rewrite HA1. destruct (decide (g' = g)); [by right |]. apply Hfree. by right.
    + intros A' HA'. apply HQ. intros g'. rewrite HA'. cbn. rewrite HA1. destruct (decide (g' ∈ l')) as [Hin | Hin].
      * by rewrite decide_True by (by right).
      * destruct (decide (g' = g)) as [-> | Hne]; [by rewrite decide_True by left |].
        by rewrite decide_False by (by intros [? | ?]%elem_of_cons).
Qed.

(** A job that waits for GPUs. *)
Record unplaced (now : Z) r : Prop := {
  up_spec : spec_ok r;
  up_accounts : accounts now r;
  up_queued : queued (jb_state r) = true;
  up_assigned : jb_assigned r = false;
  up_arrival : jb_arrival_event r = None;
  up_active : jb_active_collective r = None;
  up_events : jb_events r = [];
  up_time : js_arrival (jb_spec r) <= now;
}.

Definition seated (now : Z) (l : list GpuId) (reason : string) r : JobRecord :=
  let spec := jb_spec r in
  {| r with jb_spec := {| spec with js_workers := l |}; jb_reason := reason; jb_assigned := true;
     jb_allocated_at := Some now |}.

Lemma queued_not_terminal s : queued s = true -> terminal s = false.
Proof. by destruct s. Qed.

Lemma seated_accounts now l reason r :
  u64 now -> unplaced now r -> zlength l = width r -> accounts now (started now (seated now l reason r)).
Proof.
  intros Hu [S1 [A1 A2 A3 A4 A5 A6 A7 A8 A9 A10] S3 S4 S5 S6 S7 S8] Hl.
  assert (jb_allocated_at r = None) as Hal by (apply eq_None_not_Some; intros Hs%A3; congruence).
  assert (jb_finished r = None) as Hf.
  { apply eq_None_not_Some. intros Hs%A5. by rewrite queued_not_terminal in Hs. }
  destruct (A8 Hal) as [Z1 Z2]. split; try done; cbn.
  - rewrite Hf. split; [by intros [? ?] | done].
  - intros a [= <-]. rewrite Hf, Z1, Z2. cbn. change (width (started _ _)) with (width r).
    split_and!; try done; try lia.
  - intros f. by rewrite Hf.
Qed.

(** The engine after the job took its seat. *)
Lemma mid_seat en en' id r x l reason (A' : gmap GpuId JobId) :
  mid en id r x -> unplaced (cs_now x) r -> l <> [] ->
  (forall g, g ∈ l -> en_assignments_ en !! g = None) ->
  (forall g, A' !! g = if decide (g ∈ l) then Some id else en_assignments_ en !! g) ->
  en_assignments_ en' = A' -> (en_inventory_ en' = None <-> en_inventory_ en = None) ->
  (forall gpus, en_inventory_ en' = Some gpus ->
     inventory_ok gpus /\ forall g i, owned_by gpus g i <-> A' !! g = Some i) ->
  en_jobs_ en' = en_jobs_ en -> en_collectives_ en' = en_collectives_ en -> en_completed_ en' = en_completed_ en ->
  en_limits_ en' = en_limits_ en -> en_scheduling_ en' = en_scheduling_ en ->
  mid en' id (seated (cs_now x) l reason r) x.
Proof.
  intros [M1 [C1 C2 C3 C4] M3 M4 M5] [S1 S2 S3 S4 S5 S6 S7 S8] Hl Hfree HA' EA EI Hinv EJ EK EC EL ES.
  pose proof (queued_not_terminal _ S3) as Ht. split; [done | | | | by rewrite EJ].
  - split; rewrite ?EL, ?ES; try done. by intros ?%EI%C1.
  - unfold engine_tables in *. rewrite EA, EJ, EK, EC.
    rewrite <- (insert_insert_eq (en_jobs_ en) id (seated (cs_now x) l reason r) r).
    apply (tables_seat _ (en_assignments_ en) _ (en_inventory_ en) _ _ _ id r _ l); try done.
    + apply lookup_insert_eq.
    + unfold seat, busy. by rewrite S4.
    + unfold seat, busy. cbn. by rewrite Ht.
    + unfold report. cbn. by rewrite Ht.
  - rewrite EJ. intros Hi id' y [[<- <-] | [Hne Hy]]%lookup_insert_Some; [done |].
    apply (M4 (proj1 EI Hi) id'). by rewrite lookup_insert_ne.
Qed.

Lemma seated_start en id r x l reason :
  mid en id (seated (cs_now x) l reason r) x -> unplaced (cs_now x) r -> jb_id r = id -> NoDup l -> zlength l = width r ->
  yields (start_step id) (fun w' _ => engine_ok w') (state_at en id (seated (cs_now x) l reason r) x).
Proof.
  intros Hm Hun Hid Hnd Hl. pose proof Hun as [[] S2 S3 S4 S5 S6 S7 S8].
  apply (start_step_spec taken); try done.
  - split; try done. by right.
  - apply busy_unfold. split; [done |]. by apply queued_not_terminal.
  - apply seated_accounts; try done. apply cs_now_u64, Hm.
Qed.

Lemma unplaced_onward x x' r : onward x x' -> cs_ok x -> unplaced (cs_now x) r -> unplaced (cs_now x') r.
Proof. intros Hon Hok Hun. destruct (onward_ok _ _ Hon Hok) as [_ Hn]. by rewrite Hn. Qed.

Lemma mid_books_close en en' id r x : same_books en en' ->
  engine_ok (state_at en id r x) -> engine_ok (state_at en' id r x).
Proof.
  intros (E1 & E2 & E3 & E4 & E5 & E6 & E7). apply engine_books. unfold same_books. cbn. by rewrite E1.
Qed.

(** ** Arrival *)

Definition waiting r : JobRecord := {| r with jb_state := JobState_Waiting |}.

Lemma unplaced_waiting now L id r : unplaced now r -> jb_id r = id -> job_ok now L id (waiting r).
Proof.
  intros [[] [A1 A2 A3 A4 A5 A6 A7 A8 A9 A10] S3 S4 S5 S6 S7 S8] Hid.
  assert (jb_allocated_at r = None) as Hal by (apply eq_None_not_Some; intros Hs%A3; congruence).
  pose proof (queued_not_terminal _ S3) as Ht. split; try done.
  - split; try done; cbn; [by rewrite Ht in A5 | by rewrite Hal | intros f Hf; rewrite Ht in A5; exfalso; discriminate (proj1 A5 (ex_intro _ f Hf))].
  - intros [? _]%busy_unfold. cbn in *. congruence.
Qed.

Lemma arrive_spec en id r x :
  mid en id r x -> unplaced (cs_now x) r -> jb_id r = id ->
  yields (arrive id) (fun w' _ => engine_ok w') (state_at en id r x).
Proof.
  intros Hm Hun Hid. pose proof (md_cluster _ _ _ _ _ Hm) as Hok. pose proof (queued_not_terminal _ (up_queued _ _ Hun)) as Ht.
  unfold arrive. apply yields_bind, yields_emit_job; [done |]. intros x1 H1.
  destruct (onward_ok _ _ H1 Hok) as [Hok1 _]. apply (mid_onward taken _ _ _ _ _ H1) in Hm. apply (unplaced_onward _ _ _ H1 Hok) in Hun.
  apply yields_bind, wp_gets. cbn [tn_engine state_at en_inventory_ en_assignments_].
  destruct (has_value (en_inventory_ en)) eqn:Hi.
  - apply yields_bind, yields_modify_job. fold (waiting r).
    assert (mid en id (waiting r) x1) as Hm1.
    { eapply (mid_put taken); [done |]. unfold same_views, report, seat, busy. cbn. by rewrite Ht, (up_assigned _ _ Hun). }
    apply yields_bind, yields_trace. intros tl. apply yields_bind, yields_emit_job; [done |]. intros x2 H2.
    destruct (onward_ok _ _ H2 Hok1) as [Hok2 _]. apply wp_modify.
    apply (mid_books_close (with_timeline tl en) {| en with en_timeline_ := tl; en_admission_pending_ := true |}); [done |].
    apply (mid_close taken); [apply (mid_timeline taken); by eapply (mid_onward taken) |].
    apply unplaced_waiting; [by eapply unplaced_onward | done].
  - apply bool_decide_eq_false, eq_None_not_Some in Hi. apply yields_bind, yields_job_at.
    pose proof (md_pinned _ _ _ _ _ Hm Hi id r (lookup_insert_eq _ _ _)) as Hne.
    destruct (so_workers _ (up_spec _ _ Hun)) as [? | [Hnd Hw]]; [done |].
    destruct (existsb _ _) eqn:Hex.
    + apply (job_fail_spec taken); try done; [| apply Hun | apply Hun].
      intros e [He | He]; [rewrite (up_events _ _ Hun) in He; by apply elem_of_nil in He | rewrite (up_arrival _ _ Hun) in He; done].
    + assert (forall g, g ∈ js_workers (jb_spec r) -> en_assignments_ en !! g = None) as Hfree.
      { intros g Hg. destruct (en_assignments_ en !! g) as [i |] eqn:Hgi; [| done].
        assert (existsb (fun worker => has_value (en_assignments_ en !! worker)) (js_workers (jb_spec r)) = true); [| congruence].
        apply existsb_exists. exists g. split; [by apply list_elem_of_In |]. unfold has_value. rewrite Hgi. by apply bool_decide_eq_true_2. }
      apply yields_bind, assign_workers_spec; [done | done |]. intros A' HA'. apply yields_bind, wp_gets. cbn [tn_cluster state_at].
      apply yields_bind, yields_modify_job. set (en' := {| en with en_assignments_ := A' |}).
      match goal with |- context [state_at en' id ?z x1] => replace z with (seated (cs_now x1) (js_workers (jb_spec r)) (jb_reason r) r)
        by (unfold seated; by destruct r as [? []]) end.
      assert (mid en' id (seated (cs_now x1) (js_workers (jb_spec r)) (jb_reason r) r) x1) as Hm1.
      { eapply (mid_seat en); try done. cbn. rewrite Hi. done. }
      apply yields_bind, yields_emit_job; [done |]. intros x2 H2. destruct (onward_ok _ _ H2 Hok1) as [Hok2 Hn2].
      rewrite <- Hn2 in *. apply seated_start; try done. by eapply (mid_onward taken).
Qed.

(** ** Admission *)

Lemma waiting_unplaced now L id r : job_ok now L id r -> jb_state r = JobState_Waiting -> unplaced now r.
Proof.
  intros [H1 H2 H3 H4 H5 H6 H7 H8] Hw. rewrite Hw in *. destruct (H7 eq_refl). split; try done; rewrite ?Hw; try done; auto.
Qed.

Definition with_reason (reason : string) r : JobRecord := {| r with jb_reason := reason |}.

Lemma unplaced_reason now reason r : unplaced now r -> unplaced now (with_reason reason r).
Proof. intros [[] [] S3 S4 S5 S6 S7 S8]. by split. Qed.

(** The job did not get GPUs. *)
Lemma not_placed_spec en id r x placement :
  mid en id r x -> unplaced (cs_now x) r -> jb_id r = id -> jb_state r = JobState_Waiting ->
  pl_outcome placement <> Placed ->
  yields (apply_placement id placement) (fun w' _ => engine_ok w') (state_at en id r x).
Proof.
  intros Hm Hun Hid Hw Hnp. unfold apply_placement. apply yields_bind, yields_modify_job.
  fold (with_reason (pl_reason placement) r). set (r1 := with_reason _ r).
  assert (mid en id r1 x) as Hm1.
  { eapply (mid_put taken); [done |]. unfold same_views, report. cbn. by rewrite Hw. }
  pose proof (unplaced_reason _ (pl_reason placement) _ Hun) as Hun1. fold r1 in Hun1.
  destruct (pl_outcome placement); [done | |].
  - apply (mid_close taken); [done |]. replace r1 with (waiting r1); [by apply unplaced_waiting |].
    unfold waiting. rewrite <- Hw. by destruct r.
  - apply (job_fail_spec taken); try done; [| apply Hun1 | apply Hun1 | cbn; by rewrite Hw].
    intros e [He | He]; [rewrite (up_events _ _ Hun1) in He; by apply elem_of_nil in He | rewrite (up_arrival _ _ Hun1) in He; done].
Qed.

(** The job got the GPUs of the placement. *)
Lemma placed_spec en en' id r x placement gpus' :
  mid en id r x -> unplaced (cs_now x) r -> jb_id r = id -> pl_outcome placement = Placed ->
  (exists gpus, en_inventory_ en = Some gpus /\ allocate id (pl_workers placement) gpus = Ret gpus') ->
  zlength (pl_workers placement) = width r ->
  same_books {| en with en_inventory_ := Some gpus' |} en' ->
  yields (apply_placement id placement) (fun w' _ => engine_ok w') (state_at en' id r x).
Proof.
  intros Hm Hun Hid Hp (gpus & Hi & Hal) Hl (E1 & E2 & E3 & E4 & E5 & E6 & E7).
  cbn in E1, E2, E3, E4, E5, E6, E7. set (l := pl_workers placement) in *.
  pose proof (md_cluster _ _ _ _ _ Hm) as Hok.
  destruct (tb_inventory _ _ _ _ _ _ (md_tables _ _ _ _ _ Hm) gpus Hi) as [Hg1 Hg2].
  destruct (allocated_gpus gpus gpus' id l _ Hg1 Hg2 Hal) as (Hnd & Hne & Hfree & Hinv).
  unfold apply_placement. rewrite Hp. apply yields_bind, yields_modify_job. apply yields_bind, yields_modify_job.
  apply yields_bind, assign_workers_spec; [done | rewrite E5; exact Hfree |]. cbn [jb_spec js_workers]. fold l. rewrite E5.
  intros A' HA'. apply yields_bind, wp_gets. cbn [tn_cluster state_at]. apply yields_bind, yields_modify_job.
  set (en2 := {| en' with en_assignments_ := A' |}).
  change (state_at en2 id _ x) with (state_at en2 id (seated (cs_now x) l (pl_reason placement) r) x).
  assert (mid en2 id (seated (cs_now x) l (pl_reason placement) r) x) as Hm2.
  { eapply (mid_seat en); try done; cbn; rewrite ?E4, ?Hi; try done. intros gs [= <-]. by apply Hinv. }
  apply yields_bind, yields_trace. intros tl. apply yields_bind, yields_emit_job; [done |]. intros x2 H2.
  destruct (onward_ok _ _ H2 Hok) as [Hok2 Hn2]. rewrite <- Hn2 in *. apply seated_start; try done.
  apply (mid_timeline taken). by eapply (mid_onward taken).
Qed.

Lemma admit_spec en id r x :
  mid en id r x -> job_ok (cs_now x) (cs_live x) id r -> jb_state r = JobState_Waiting ->
  yields (admit_job id) (fun w' _ => engine_ok w') (state_at en id r x).
Proof.
  intros Hm Hj Hw. pose proof (md_cluster _ _ _ _ _ Hm) as Hok. pose proof (waiting_unplaced _ _ _ _ Hj Hw) as Hun.
  pose proof (jo_id _ _ _ _ Hj) as Hid. pose proof (so_width _ (jo_spec _ _ _ _ Hj)) as Hwd.
  unfold admit_job. apply yields_bind, wp_gets. apply yields_bind, yields_of_option. intros config Hcfg.
  apply yields_bind, yields_throw_if. intros _. apply yields_bind, yields_of_option. intros gpus Hi. cbn in Hi.
  apply yields_bind, yields_of_option. intros policy _. apply yields_bind, yields_job_at. cbv zeta.
  fold (width r). assert (u32_wrap (width r) = width r) as -> by (unfold u32_wrap; apply Z.mod_small; lia).
  set (placement := policy _ gpus). clearbody placement. apply yields_bind, yields_throw_if. intros _.
  apply yields_bind. case_bool_decide as Hp.
  - unfold allocate_placement. apply yields_bind, yields_throw_if.
    intros [Hlen%negb_false_iff%Z.eqb_eq _]%orb_false_iff. apply yields_bind, wp_gets. apply yields_bind, yields_throw_if. intros _.
    rewrite Hid. apply yields_bind, yields_of_outcome. intros gpus' Hal. apply yields_bind, wp_modify.
    apply yields_of_outcome. intros local _. apply yields_bind, wp_gets. apply yields_bind, yields_of_option. intros after _.
    apply yields_bind, wp_gets. apply yields_bind, wp_modify.
    match goal with |- context [en_placements_ _ ++ [?d]] => set (decision := d) end.
    set (en1 := {| en with en_inventory_ := Some gpus'; en_placements_ := en_placements_ en ++ [decision];
      en_allocation_entries_ := u64_wrap (en_allocation_entries_ en + zlength (pl_workers placement)) |}).
    into_state_at (state_at en1 id r x). apply yields_bind, yields_emit_placement; [done |]. intros x1 H1.
    apply (placed_spec en en1 id r x1 placement gpus'); try done; [by eapply (mid_onward taken) | by eapply unplaced_onward | by exists gpus].
  - apply wp_ret. apply yields_bind, wp_gets. apply yields_bind, yields_of_option. intros after _. apply yields_bind, wp_gets.
    apply yields_bind, wp_modify. match goal with |- context [en_placements_ _ ++ [?d]] => set (decision := d) end.
    set (en1 := {| en with en_placements_ := en_placements_ en ++ [decision] |}).
    into_state_at (state_at en1 id r x). apply yields_bind, yields_emit_placement; [done |]. intros x1 H1.
    apply not_placed_spec; try done; [| by eapply unplaced_onward].
    apply (mid_engine_books en); [done |]. by eapply (mid_onward taken).
Qed.
End Admission.

(** ** Validation of job specifications

    [validate] accepts exactly the specifications that fit the limits, name
    known GPUs at most once and whose times and quantities fit 64 bits. *)

(** The number of buckets is the quotient, rounded up. *)
Lemma bucket_count_range spec :
  0 < js_gradient_bytes spec <= u64_max -> 0 < js_bucket_bytes spec <= u64_max ->
  0 < bucket_count spec /\ js_gradient_bytes spec <= bucket_count spec * js_bucket_bytes spec /\
  (bucket_count spec - 1) * js_bucket_bytes spec < js_gradient_bytes spec.
Proof.
  set (a := js_gradient_bytes spec). set (b := js_bucket_bytes spec). intros Hg Hb.
  pose proof (Z.div_mod a b ltac:(lia)) as Hdm. pose proof (Z.mod_pos_bound a b ltac:(lia)) as Hm.
  pose proof (Z.div_pos a b ltac:(lia) ltac:(lia)) as Hq.
  assert (a / b <= a) by (apply Z.div_le_upper_bound; nia).
  unfold bucket_count. fold a b. destruct (Z.eqb_spec (a mod b) 0) as [H0 | H0]; cbn [negb Z.b2z].
  - rewrite Z.add_0_r, u64_wrap_id by word_lia. nia.
  - assert (a / b < a) by (apply Z.div_lt_upper_bound; nia). rewrite u64_wrap_id by word_lia. nia.
Qed.

Section Validate.
Context (g : TopologyGraph) (spec : JobSpec).

(** The fields are words of their widths. *)
Record spec_words : Prop := {
  sw_requested : u32 (js_requested_workers spec);
  sw_workers : u64 (zlength (js_workers spec)) /\ u64 (zlength (js_compute spec));
  sw_compute : Forall u64 (js_compute spec);
  sw_arrival : u64 (js_arrival spec);
  sw_steps : u32 (js_steps spec);
  sw_bytes : u64 (js_gradient_bytes spec) /\ u64 (js_bucket_bytes spec) /\ u64 (js_chunk_bytes spec);
}.

Context (Hwords : spec_words).

(** ** The loop over the workers *)

Definition duration_ok (d : Z) : Prop := 0 < d /\ js_arrival spec + js_steps spec * d <= u64_max.

Definition pinned_ok (unique : list GpuId) (l : list (option GpuId)) : Prop :=
  NoDup (omap id l) /\ forall gpu, gpu ∈ (omap id l) -> ~ gpu ∈ unique /\ is_Some (find_gpu gpu g).

Lemma pinned_ok_cons unique o l : pinned_ok unique (o :: l) <->
  match o with
  | Some gpu => is_Some (find_gpu gpu g) /\ ~ gpu ∈ unique /\ pinned_ok (gpu :: unique) l
  | None => pinned_ok unique l
  end.
Proof.
  unfold pinned_ok. destruct o as [gpu |]; cbn; [| done]. rewrite NoDup_cons. split.
  - intros [[Hn Hnd] Hall]. destruct (Hall gpu ltac:(left)) as [H1 H2]. split; [done | split; [done |]].
    split; [done |]. intros y Hy. destruct (Hall y ltac:(by right)) as [H3 H4]. split; [| done].
    intros [-> | ?]%elem_of_cons; done.
  - intros (H1 & H2 & Hnd & Hall). split; [split; [| done]|].
    + intros Hin. destruct (Hall gpu Hin) as [Hn _]. apply Hn. left.
    + intros y [-> | Hy]%elem_of_cons; [done |]. destruct (Hall y Hy) as [Hn ?]. split; [| done]. intros ?. apply Hn. by right.
Qed.

Lemma validate_workers_spec unique total l :
  u64 total -> Forall u64 l.*2 ->
  match validate_workers g spec unique total l with
  | Ret t => pinned_ok unique l.*1 /\ Forall duration_ok l.*2 /\ t = total + sumZ l.*2 /\ t <= u64_max
  | Throw _ => ~ (pinned_ok unique l.*1 /\ Forall duration_ok l.*2 /\ total + sumZ l.*2 <= u64_max)
  end.
Proof.
  intros Ht Hl. revert unique total Ht. induction l as [| [o d] l IH]; intros unique total Ht; cbn [validate_workers].
  { split; [split; [constructor | intros ? ?%elem_of_nil; done] |]. split; [constructor |]. cbn. word_lia. }
  change (((o, d) :: l).*2) with (d :: l.*2) in *. change (((o, d) :: l).*1) with (o :: l.*1) in *. apply Forall_cons in Hl as [Hd Hl]. specialize (IH Hl).
  rewrite sumZ_cons. pose proof (sw_steps Hwords) as Hst. pose proof (sw_arrival Hwords) as Har.
  assert (Forall (fun x => 0 <= x) l.*2) as Hnn by (eapply Forall_impl; [exact Hl |]; unfold u64; lia).
  pose proof (sumZ_nonneg _ Hnn) as Hsum. unfold u64, u32 in *.
  destruct (_ || (d =? 0)) eqn:Hg.
  { apply orb_true_iff in Hg as [Hg | Hg%Z.eqb_eq]; [| by intros (_ & [[? _] _]%Forall_cons & _); lia].
    destruct o as [gpu |]; [| done]. unfold has_value in Hg. intros ((H1 & H2 & _)%pinned_ok_cons & _).
    rewrite bool_decide_eq_true_2, bool_decide_eq_false_2 in Hg by done. done. }
  apply orb_false_iff in Hg as [Hg Hd0%Z.eqb_neq]. rewrite checked_sum_spec by (unfold u64; lia).
  destruct (u64_max <? total + d) eqn:E1; [by intros (_ & _ & ?); lia |].
  rewrite checked_product_spec by lia. assert (0 <= js_steps spec * d) by nia.
  destruct (u64_max <? js_steps spec * d) eqn:E2; [by intros (_ & [[_ ?] _]%Forall_cons & _); lia |].
  rewrite checked_sum_spec by (unfold u64; lia).
  destruct (u64_max <? js_arrival spec + js_steps spec * d) eqn:E3; [by intros (_ & [[_ ?] _]%Forall_cons & _); lia |].
  assert (duration_ok d) as Hok by (unfold duration_ok; lia).
  specialize (IH (match o with Some gpu => gpu :: unique | None => unique end) (total + d) ltac:(lia)).
  assert (match o with Some gpu => is_Some (find_gpu gpu g) /\ ~ gpu ∈ unique /\ pinned_ok (gpu :: unique) l.*1
    | None => pinned_ok unique l.*1 end <-> pinned_ok (match o with Some gpu => gpu :: unique | None => unique end) l.*1) as Hpin.
  { destruct o as [gpu |]; [| done]. apply orb_false_iff in Hg as [H1%negb_false_iff%bool_decide_eq_true H2%bool_decide_eq_false]. tauto. }
  destruct (validate_workers g spec _ (total + d) l) as [t | e].
  - destruct IH as (I1 & I2 & I3 & I4). split; [by apply pinned_ok_cons, Hpin | split; [by apply Forall_cons |]]. lia.
  - intros (J1%pinned_ok_cons & [_ J2]%Forall_cons & J3). apply IH. split; [by apply Hpin | split; [done | lia]].
Qed.

(** ** The whole validation *)

Lemma pinned_workers_spec : zlength (js_compute spec) = worker_count spec ->
  (js_requested_workers spec <> 0 -> js_workers spec = []) ->
  (zip (pinned_workers spec) (js_compute spec)).*2 = js_compute spec /\
  omap id (zip (pinned_workers spec) (js_compute spec)).*1 = js_workers spec.
Proof.
  intros Hlen Hreq. assert (length (pinned_workers spec) = length (js_compute spec)) as Hl.
  { unfold pinned_workers. case_bool_decide as Hw; rewrite length_fmap; [done |].
    unfold worker_count, zlength in Hlen. destruct (Z.eqb_spec (js_requested_workers spec) 0) as [| Hr]; cbn in Hlen; [lia |].
    by apply Hreq in Hr. }
  rewrite fst_zip, snd_zip by lia. split; [done |]. unfold pinned_workers. case_bool_decide as Hw.
  - rewrite Hw. clear. induction (js_compute spec) as [| d l IH]; [done | exact IH].
  - clear. induction (js_workers spec) as [| w l IH]; [done |]. cbn. by rewrite IH.
Qed.

Context (limits : WorkloadLimits) (scheduling : option SchedulingConfiguration).
Context (Hl1 : 0 <= wl_workers_per_job limits <= 8192) (Hl2 : u32 (wl_buckets_per_step limits)).
Context (Hl3 : u64 (wl_compute_events_per_job limits)).

Record valid_spec : Prop := {
  vs_requested : js_requested_workers spec <> 0 -> is_Some scheduling /\ js_workers spec = [];
  vs_name : js_name spec <> ""%string /\ Z.of_nat (String.length (js_name spec)) <= 256;
  vs_workers : 0 < worker_count spec <= wl_workers_per_job limits /\ zlength (js_compute spec) = worker_count spec;
  vs_steps : 0 < js_steps spec <= wl_steps_per_job limits;
  vs_bytes : 0 < js_gradient_bytes spec /\ 0 < js_bucket_bytes spec /\ 0 < js_chunk_bytes spec;
  vs_buckets : bucket_count spec <= wl_buckets_per_step limits;
  vs_events : worker_count spec * (if js_overlap spec then bucket_count spec else 1) <= wl_compute_events_per_job limits;
  vs_pinned : NoDup (js_workers spec) /\ forall gpu, gpu ∈ js_workers spec -> is_Some (find_gpu gpu g);
  vs_compute : Forall duration_ok (js_compute spec);
  vs_total : sumZ (js_compute spec) * js_steps spec <= u64_max;
}.

Lemma validate_spec :
  match validate g limits scheduling spec with
  | Ret b => valid_spec /\ b = bucket_count spec
  | Throw _ => ~ valid_spec
  end.
Proof.
  destruct Hwords as [W1 [W2 W2'] W3 W4 W5 (W6 & W7 & W8)]. unfold validate.
  destruct (_ && _) eqn:G1.
  { apply andb_true_iff in G1 as [Hr%negb_true_iff%Z.eqb_neq Hs]. intros []. destruct (vs_requested0 Hr) as [S1 S2].
    unfold has_value in Hs. rewrite !bool_decide_eq_true_2 in Hs by done. done. }
  assert (js_requested_workers spec <> 0 -> is_Some scheduling /\ js_workers spec = []) as Hreq.
  { intros Hr%Z.eqb_neq. rewrite Hr in G1. cbn in G1. apply orb_false_iff in G1 as [A1%negb_false_iff%bool_decide_eq_true A2%negb_false_iff%bool_decide_eq_true]. done. }
  assert (0 <= worker_count spec <= u64_max) as Hwc by (unfold worker_count; destruct (negb _); [word_lia | word_lia]).
  destruct (js_collective spec), (js_algorithm spec). rewrite !bool_decide_eq_true_2 by done. cbn [negb orb].
  match goal with |- context [if ?b then _ else _] => destruct b eqn:G2 end.
  { intros []. unfold u64, u32 in *. rewrite !orb_true_iff in G2.
    destruct G2 as [[[[[[[[[G | G] | G] | G] | G] | G] | G] | G] | G] | G]; try lia.
    apply bool_decide_eq_true in G. by destruct vs_name0. }
  rewrite !orb_false_iff in G2. destruct G2 as [[[[[[[[[N1%bool_decide_eq_false N2] N3] N4] N5] N6] N7] N8] N9] N10].
  apply negb_false_iff, Z.eqb_eq in N5. unfold u64, u32 in *.
  destruct (bucket_count_range spec) as (B1 & _ & _); [lia | lia |].
  destruct (bucket_count spec >? wl_buckets_per_step limits) eqn:G3; [intros []; lia |].
  assert (0 <= (if js_overlap spec then bucket_count spec else 1)) by (destruct (js_overlap spec); lia).
  rewrite checked_product_spec by lia.
  destruct (u64_max <? worker_count spec * _) eqn:G4; [intros []; lia |].
  destruct (worker_count spec * _ >? wl_compute_events_per_job limits) eqn:G5; [intros []; lia |].
  destruct (pinned_workers_spec N5 (fun Hr => proj2 (Hreq Hr))) as [Z1 Z2].
  pose proof (validate_workers_spec [] 0 (zip (pinned_workers spec) (js_compute spec)) ltac:(unfold u64, u64_max; lia)) as Hv.
  unfold pinned_ok in Hv. rewrite Z1, Z2 in Hv. specialize (Hv W3).
  assert (forall gpu : Z, gpu ∉ []) as Hnil by (intros gpu; apply not_elem_of_nil).
  assert (Forall (fun d => 0 <= d) (js_compute spec)) as Hnn by (eapply Forall_impl; [exact W3 |]; unfold u64; lia).
  pose proof (sumZ_nonneg _ Hnn) as Hsum.
  destruct (validate_workers _ _ _ _ _) as [t | e].
  2:{ intros []. apply Hv. split; [split; [apply vs_pinned0 |] | split; [done |]].
      - intros gpu Hgpu. split; [done |]. by apply vs_pinned0.
      - nia. }
  destruct Hv as ([V1 V1'] & V2 & -> & V4). rewrite Z.add_0_l in *. rewrite checked_product_spec by lia.
  destruct (u64_max <? sumZ (js_compute spec) * js_steps spec) eqn:G6; [intros []; lia |].
  split.
  - split; try done; try lia; [split; [done | lia] |]. split; [done |]. intros gpu Hgpu. by apply V1'.
  - unfold u32_wrap. apply Z.mod_small. word_lia.
Qed.
End Validate.
