(* ===== verification/WorkloadReach.v ===== *)
(** * Reachable states of the workload engine

    What operations leave alone, the remaining handlers, and the steps of an
    engine over any cluster that keeps the laws. *)

From S2P Require Import Prelude SimTime Entities TelemetryRecords EventQueue SimContext.
From S2P Require Import Topology TopologyLaws RoutingPaths CollectivePlan CollectiveRuntime Scheduling SchedulingLaws SchedulingTheorems.
From S2P Require Import Workload WorkloadRuntime WorkloadLaws WorkloadInv WorkloadSteps WorkloadHandlers.
From S2P Require Import WorkloadAdmission.

(** ** What operations leave alone

    Reports are only added, and only the records of some jobs change. *)

Create HintDb tame.

Section Tame.
Context {X : Type} `{Cluster X} (P : JobId -> Prop).
Implicit Types (w : Training X).

Definition tamed w w' : Prop :=
  (forall id, ~ P id -> en_jobs_ (tn_engine w') !! id = en_jobs_ (tn_engine w) !! id) /\
  exists l, en_completed_ (tn_engine w') = en_completed_ (tn_engine w) ++ l.

Definition tame {A} (m : M (Training X) A) : Prop := forall w, tamed w (fst (m w)).

Lemma tamed_refl w : tamed w w.
Proof. split; [done |]. exists []. by rewrite app_nil_r. Qed.

Lemma tamed_trans w1 w2 w3 : tamed w1 w2 -> tamed w2 w3 -> tamed w1 w3.
Proof.
  intros [A1 [l1 A2]] [B1 [l2 B2]]. split; [intros id Hn; by rewrite B1, A1 |]. exists (l1 ++ l2). by rewrite B2, A2, app_assoc.
Qed.

Lemma tame_bind {A B} (m : M (Training X) A) (k : A -> M (Training X) B) :
  tame m -> (forall a, tame (k a)) -> tame (bind m k).
Proof.
  intros Hm Hk w. specialize (Hm w). unfold bind. destruct (m w) as [w' [a | e]]; cbn in Hm |- *; [| done].
  eapply tamed_trans; [done |]. apply Hk.
Qed.

Lemma tame_still {A} (m : M (Training X) A) : (forall w, fst (m w) = w) -> tame m.
Proof. intros Hm w. rewrite Hm. apply tamed_refl. Qed.

Lemma tame_ret {A} (a : A) : tame (ret a).
Proof. by apply tame_still. Qed.

Lemma tame_throw {A} e : tame (throw e : M (Training X) A).
Proof. by apply tame_still. Qed.

Lemma tame_gets {A} (f : Training X -> A) : tame (gets f).
Proof. by apply tame_still. Qed.

Lemma tame_of_option {A} e (o : option A) : tame (of_option e o).
Proof. apply tame_still. by destruct o. Qed.

Lemma tame_of_outcome {A} (o : outcome A) : tame (of_outcome o).
Proof. by apply tame_still. Qed.

Lemma tame_throw_if b e : tame (throw_if b e).
Proof. apply tame_still. by destruct b. Qed.

Lemma tame_read {A} (f : X -> A) : tame (read_cluster f).
Proof. by apply tame_still. Qed.

Lemma tame_ask {A} (f : X -> outcome A) : tame (ask_cluster f).
Proof. by apply tame_still. Qed.

Lemma tame_job_at id : tame (job_at id).
Proof. apply tame_still. intros w. unfold job_at, bind, gets, of_option. by destruct (_ !! _). Qed.

Lemma tame_cluster {A} (m : M X A) : tame (with_cluster m).
Proof.
  intros w. unfold with_cluster, zoom. destruct (m (tn_cluster w)) as [x' o]. cbn. apply (tamed_refl w).
Qed.

Lemma tame_modify_job id f : P id -> tame (modify_job id f).
Proof.
  intros Hp w. split; [| exists []; cbn; by rewrite app_nil_r]. cbn. intros id' Hn. apply lookup_alter_ne. by intros ->.
Qed.

Lemma tame_modify_engine f :
  (forall en, en_jobs_ (f en) = en_jobs_ en) -> (forall en, exists l, en_completed_ (f en) = en_completed_ en ++ l) ->
  tame (modify_engine f).
Proof. intros Hj Hc w. split; cbn; [intros id _; by rewrite Hj | apply Hc]. Qed.

Lemma tame_quiet_engine f :
  (forall en, en_jobs_ (f en) = en_jobs_ en) -> (forall en, en_completed_ (f en) = en_completed_ en) ->
  tame (modify_engine f).
Proof. intros Hj Hc. apply tame_modify_engine; [done |]. intros en. exists []. by rewrite Hc, app_nil_r. Qed.

Lemma tame_when b m : tame m -> tame (when b m).
Proof. intros Hm. destruct b; [done | apply tame_ret]. Qed.

Lemma tame_for_each {A} (l : list A) f : (forall a, tame (f a)) -> tame (for_each l f).
Proof. intros Hf. induction l as [| a l IH]; [apply tame_ret |]. cbn. by apply tame_bind. Qed.

Lemma tame_if {A} (b : bool) (m1 m2 : M (Training X) A) : tame m1 -> tame m2 -> tame (if b then m1 else m2).
Proof. by destruct b. Qed.

Lemma tame_match {A B} (o : option B) (m1 : B -> M (Training X) A) m2 :
  (forall b, tame (m1 b)) -> tame m2 -> tame (match o with Some b => m1 b | None => m2 end).
Proof. by destruct o. Qed.
End Tame.

(** Descends into an operation. *)
Ltac tame_step :=
  cbv zeta;
  first
    [ by eauto with tame | apply tame_bind; [| intros ?] | apply tame_when | apply tame_for_each; intros ? | apply tame_ret
    | apply tame_throw | apply tame_gets | apply tame_of_option | apply tame_of_outcome | apply tame_throw_if
    | apply tame_read | apply tame_ask | apply tame_job_at | apply tame_cluster | apply tame_modify_job; by auto
    | apply tame_quiet_engine; by intros ? | apply tame_if | apply tame_match; [intros ? |] ].

Ltac tame_auto := repeat tame_step.

Section Frame.
Context {X : Type} `{Cluster X} (P : JobId -> Prop).

Lemma tame_when_enabled (m : M (Training X) unit) : tame P m -> tame P (when_enabled m).
Proof. intros Hm. unfold when_enabled. tame_auto. Qed.

Lemma tame_record_all corr obs : tame P (record_all (X := X) corr obs).
Proof. unfold record_all. tame_auto. Qed.

Lemma tame_correlation job c p : tame P (job_correlation (X := X) job c p).
Proof. unfold job_correlation. tame_auto. Qed.

#[local] Hint Resolve tame_when_enabled tame_record_all tame_correlation : tame.

Lemma tame_emit_job id tr worker : tame P (emit_job (X := X) id tr worker).
Proof. unfold emit_job. apply tame_when_enabled. tame_auto. Qed.

Lemma tame_emit_terminal s : tame P (emit_terminal_metrics (X := X) s).
Proof. unfold emit_terminal_metrics. apply tame_when_enabled. tame_auto. Qed.

Lemma tame_emit_placement d n : tame P (emit_placement (X := X) d n).
Proof. unfold emit_placement. apply tame_when_enabled. tame_auto. Qed.

Lemma tame_trace id action : tame P (trace_job (X := X) id action).
Proof. unfold trace_job. tame_auto. Qed.

Lemma tame_cancel_pending e : tame P (cancel_pending (X := X) e).
Proof. unfold cancel_pending. tame_auto. Qed.

Lemma tame_release_resources id : tame P (release_resources (X := X) id).
Proof. unfold release_resources. tame_auto. Qed.

Lemma tame_assign id : tame P (assign_workers (X := X) id).
Proof. unfold assign_workers. tame_auto. Qed.

#[local] Hint Resolve tame_emit_job tame_emit_terminal tame_emit_placement tame_trace tame_cancel_pending
  tame_release_resources tame_assign : tame.

Context (id : JobId) (Hid : P id).

Lemma tame_finish state reason : tame P (finish_job (X := X) id state reason).
Proof.
  unfold finish_job. tame_auto; [.. |].
  apply tame_modify_engine; [done |]. intros en. by eexists.
Qed.

Lemma tame_schedule_compute w i : tame P (schedule_compute (X := X) id w i).
Proof. unfold schedule_compute. tame_auto. Qed.

#[local] Hint Resolve tame_finish tame_schedule_compute : tame.

Lemma tame_start_step : tame P (start_step (X := X) id).
Proof. unfold start_step. tame_auto. Qed.

Lemma tame_start_collective : tame P (start_collective (X := X) id).
Proof. unfold start_collective. tame_auto. Qed.

#[local] Hint Resolve tame_start_step tame_start_collective : tame.

Lemma tame_compute_ready event : tame P (compute_ready (X := X) id event).
Proof. unfold compute_ready. tame_auto. Qed.

Lemma tame_arrive : tame P (arrive (X := X) id).
Proof. unfold arrive. tame_auto.
Qed.

Lemma tame_apply_placement placement : tame P (apply_placement (X := X) id placement).
Proof. unfold apply_placement. apply tame_bind; [by apply tame_modify_job | intros _]. destruct (pl_outcome placement); tame_auto. Qed.

Lemma tame_allocate_placement config r n placement gpus :
  tame P (allocate_placement (X := X) config r n placement gpus).
Proof. unfold allocate_placement. tame_auto. Qed.

#[local] Hint Resolve tame_apply_placement tame_allocate_placement : tame.

Lemma tame_admit : tame P (admit_job (X := X) id).
Proof. unfold admit_job. tame_auto. Qed.

Lemma tame_complete_step : tame P (complete_step (X := X) id).
Proof. unfold complete_step. tame_auto. Qed.
End Frame.

(** Any record may change. *)
Definition anyone (id : JobId) : Prop := True.

Section AnyFrame.
Context {X : Type} `{Cluster X}.

Lemma anyone_true id : anyone id.
Proof. done. Qed.

#[local] Hint Resolve anyone_true tame_emit_job tame_trace tame_finish tame_start_collective tame_complete_step
  tame_compute_ready tame_arrive tame_admit : tame.

Lemma tame_handle_result c : tame anyone (handle_result (X := X) c).
Proof. unfold handle_result. tame_auto. Qed.

Lemma tame_gpu_state event : tame anyone (gpu_state (X := X) event).
Proof. unfold gpu_state. tame_auto. Qed.

Lemma tame_handle_workload event : tame anyone (handle_workload (X := X) event).
Proof.
  unfold handle_workload. apply tame_if; [apply tame_gpu_state |]. apply tame_bind; [tame_auto | intros r].
  apply tame_if; [tame_auto |]. destruct (we_kind event); tame_auto.
Qed.

Lemma tame_schedule_job spec : tame anyone (schedule_job (X := X) spec).
Proof.
  unfold schedule_job. tame_auto. intros w. split; [by intros id Hn; destruct Hn |]. exists []. by rewrite app_nil_r.
Qed.

Lemma tame_schedule_control job kind time worker : tame anyone (schedule_control (X := X) job kind time worker).
Proof. unfold schedule_control. tame_auto. Qed.

Lemma tame_schedule_gpu_state gpu healthy time : tame anyone (schedule_gpu_state (X := X) gpu healthy time).
Proof. unfold schedule_gpu_state. tame_auto. Qed.

Lemma tame_dispatch_waiting : tame anyone (dispatch_waiting (X := X)).
Proof. unfold dispatch_waiting. tame_auto. Qed.
End AnyFrame.

(** ** The remaining handlers *)

Lemma waiting_jobs_elem (J : gmap JobId JobRecord) r :
  r ∈ waiting_jobs J <-> jb_state r = JobState_Waiting /\ exists id, J !! id = Some r.
Proof.
  unfold waiting_jobs. rewrite merge_sort_Permutation, list_elem_of_In, filter_In, <- list_elem_of_In.
  rewrite bool_decide_eq_true, list_elem_of_fmap. split.
  - intros [([id r'] & -> & Hin%elem_of_map_to_list) Hw]. split; [done |]. by exists id.
  - intros [Hw [id Hr]]. split; [| done]. exists (id, r). split; [done |]. by apply elem_of_map_to_list.
Qed.

Lemma waiting_jobs_ids (J : gmap JobId JobRecord) :
  (forall id r, J !! id = Some r -> jb_id r = id) -> NoDup (jb_id <$> waiting_jobs J).
Proof.
  intros Hid. unfold waiting_jobs. rewrite merge_sort_Permutation.
  assert (NoDup (jb_id <$> (map_to_list J).*2)) as Hnd.
  { rewrite <- list_fmap_compose. replace (_ <$> map_to_list J) with (map_to_list J).*1; [apply NoDup_fst_map_to_list |].
    apply list_fmap_ext. intros k [id r] Hk. cbn. symmetry. apply Hid. apply elem_of_map_to_list. by eapply list_elem_of_lookup_2. }
  eapply sublist_NoDup; [exact Hnd |]. apply filter_fmap_sublist.
Qed.

Section Handle.
Context {X : Type} `{ClusterLaws X} (taken : list JobSnapshot).
Implicit Types (en : WorkloadEngine) (x : X) (id : JobId) (r : JobRecord) (w : Training X).

Abbreviation engine_ok := (engine_ok taken).

Definition still_waiting (jobs : list JobRecord) w : Prop :=
  engine_ok w /\ NoDup (jb_id <$> jobs) /\
  forall r, r ∈ jobs -> exists r', en_jobs_ (tn_engine w) !! jb_id r = Some r' /\ jb_state r' = JobState_Waiting.

Lemma dispatch_waiting_spec w : engine_ok w -> yields dispatch_waiting (fun w' _ => engine_ok w') w.
Proof.
  intros Hw. unfold dispatch_waiting. apply yields_bind, wp_gets. destruct (_ || _); [done |].
  apply yields_bind, wp_modify. apply yields_bind. destruct w as [en x].
  assert (forall b en', engine_ok (mkTraining en' x) -> engine_ok (mkTraining {| en' with en_admission_pending_ := b |} x)) as Hb
    by (intros b en' He; eapply engine_books; [| exact He]; done).
  apply (yields_conseq _ (fun w' _ => still_waiting [] w')).
  2:{ intros [en' x'] [] (He & _). apply wp_modify. eapply engine_books; [| exact He]; done. }
  apply (wp_for_each_rest still_waiting).
  - intros r rest [en' x'] (He & Hnd & Hall). apply NoDup_cons in Hnd as [Hn Hnd].
    destruct (Hall r ltac:(left)) as (r' & Hr' & Hws). destruct (mid_open taken _ _ _ He Hr') as (Heq & Hm & Hj).
    rewrite Heq. pose proof (admit_spec taken _ _ _ _ Hm Hj Hws) as Had. cbn [tn_engine tn_cluster] in *. rewrite <- Heq in *.
    pose proof (tame_admit (eq (jb_id r)) (jb_id r) eq_refl (mkTraining en' x')) as [Hframe _].
    unfold yields, wp in *. destruct (admit_job (jb_id r) (mkTraining en' x')) as [w' [[] | e]]; [| done]. cbn in Hframe.
    split; [done | split; [done |]]. intros y Hy. destruct (Hall y ltac:(by right)) as (y' & Hy' & Hyw).
    exists y'. rewrite Hframe; [done |]. intros Hid. apply Hn. rewrite Hid. by apply list_elem_of_fmap_2.
  - split; [by apply Hb | split].
    + apply waiting_jobs_ids. intros id r. apply (tb_ids _ _ _ _ _ _ (eo_tables _ _ Hw)).
    + intros r [Hws [id Hr]]%waiting_jobs_elem. exists r. cbn in *.
      by rewrite (tb_ids _ _ _ _ _ _ (eo_tables _ _ Hw) id r Hr).
Qed.

Lemma finish_any w id state reason : engine_ok w -> terminal state = true -> state <> JobState_Succeeded ->
  yields (finish_job id state reason) (fun w' _ => engine_ok w') w.
Proof.
  intros Hw Hst Hns. destruct (en_jobs_ (tn_engine w) !! id) as [r |] eqn:Hr.
  - destruct (mid_open taken _ _ _ Hw Hr) as (Heq & Hm & Hj). rewrite Heq. destruct (terminal (jb_state r)) eqn:Ht.
    + unfold finish_job. apply yields_bind, yields_job_at. rewrite Ht. by rewrite Heq in Hw.
    + by apply fail_job_spec.
  - unfold finish_job. apply yields_bind. unfold job_at. apply yields_bind, wp_gets. by rewrite Hr.
Qed.

Lemma gpu_state_spec w event : engine_ok w -> yields (gpu_state event) (fun w' _ => engine_ok w') w.
Proof.
  intros Hw. unfold gpu_state. apply yields_bind, wp_gets. apply yields_bind, yields_of_option. intros gpus Hi.
  apply yields_bind, yields_of_outcome. intros [gpus' owner] Hset. apply yields_bind, wp_modify. cbn [fst snd].
  destruct w as [en x]. cbn [tn_engine tn_cluster] in *.
  assert (engine_ok (mkTraining {| en with en_inventory_ := Some gpus' |} x)) as Hw1.
  { destruct Hw as [W1 [C1 C2 C3 C4] W3 W4 W5]. cbn in *. split; cbn; try done.
    destruct (tb_inventory _ _ _ _ _ _ W3 gpus Hi) as [I1 I2]. destruct (set_health_gpus _ _ _ _ _ I1 Hset) as [S1 S2].
    eapply tables_inventory; [| done]. intros gs [= <-]. split; [done |]. intros g i. by rewrite S2. }
  apply yields_bind. apply (yields_conseq _ (fun w' _ => engine_ok w')).
  - destruct owner as [owner |]; [| done]. apply yields_when; [intros _ | done]. by apply finish_any.
  - intros [en' x'] [] He. apply wp_modify. eapply engine_books; [| exact He]; done.
Qed.

(** [handle] of an event that was just dispatched. *)
Lemma handle_workload_spec en ev we x0 x :
  engine_ok (mkTraining en x0) -> dispatched ev x0 x -> ev_payload ev = Workload_ we ->
  yields (handle_workload we) (fun w' _ => engine_ok w') (mkTraining en x).
Proof.
  intros Hen Hd Hpay. set (id := we_job we).
  assert (forall id', names id' ev -> id' = id /\ (we_kind we = Arrival \/ we_kind we = ComputeReady)) as Hnames.
  { intros id' [Hn | (r & w & i & _ & Hn)]; rewrite Hpay in Hn; injection Hn as Hn; unfold id; rewrite Hn; cbn; auto. }
  assert (we_kind we <> Arrival -> we_kind we <> ComputeReady -> engine_ok (mkTraining en x)) as Hother.
  { intros Ha Hc. eapply dispatched_all; [done | done |]. intros id' [_ [? | ?]]%Hnames; done. }
  unfold handle_workload. destruct (_ || _) eqn:Hg.
  { apply gpu_state_spec, Hother; destruct (we_kind we); done. }
  apply yields_bind. unfold job_at. apply yields_bind, wp_gets. apply yields_of_option. intros r Hr. cbn in Hr. fold id in Hr |- *.
  destruct (dispatched_mid taken en ev x0 x id r Hen Hd) as (Heq & Hm & Hj); [by intros id' [? _]%Hnames | done |]. rewrite Heq.
  pose proof (eo_cluster _ _ Hen) as Hok0. cbn in Hok0. pose proof (dispatched_time _ _ _ Hok0 Hd) as Htime.
  destruct (terminal (jb_state r)) eqn:Ht.
  { apply (mid_close taken); [done |]. eapply dispatched_job; [done | done | done | congruence]. }
  destruct (we_kind we) eqn:Hkind; try done.
  - apply yields_bind. destruct (jb_arrival_event r) as [e |] eqn:Harr; [| done].
    apply yields_ask. intros cur Hcur. cbn in Hcur. rewrite (di_current _ _ _ Hd) in Hcur. injection Hcur as <-.
    apply yields_bind, yields_throw_if. intros He%negb_false_iff%bool_decide_eq_true. injection He as ->.
    apply yields_bind, yields_modify_job.
    destruct (job_pending _ _ _ _ _ Hj Ht (or_intror Harr)) as [(Hs & _ & ev' & Hev' & Hts & _) | (Hb & w & i & Hr' & _ & ev' & Hev' & _ & Hp)].
    2:{ rewrite (di_live _ _ _ Hd) in Hev'. injection Hev' as <-. rewrite Hpay in Hp. injection Hp as Hp. rewrite Hp in Hkind. done. }
    rewrite (di_live _ _ _ Hd) in Hev'. injection Hev' as <-.
    pose proof Hj as [J1 J2 J3 J4 J5 J6 J7 J8]. rewrite Hs in *. destruct (J7 eq_refl) as [K1 K2].
    apply arrive_spec; [| | done].
    + eapply (mid_put taken); [done |]. unfold same_views, report, seat, busy. cbn. by rewrite Hs.
    + split; cbn; try done; [by destruct J2 | | by apply J4 | rewrite (di_now _ _ _ Hd), Hts; lia].
      destruct (accounts_later _ _ _ Htime J3) as [A1 A2 A3 A4 A5 A6 A7 A8 A9 A10]. rewrite Hs in *. by split.
  - by eapply compute_ready_spec.
  - apply (fail_job_spec taken); try done. apply (eo_jobs taken (mkTraining en x)); [by apply Hother | done].
  - apply yields_bind, yields_throw_if. intros _. apply (fail_job_spec taken); try done.
    apply (eo_jobs taken (mkTraining en x)); [by apply Hother | done].
Qed.

(** ** Submission *)

Lemma jobs_new (J : gmap JobId JobRecord) A K inv log known r :
  tables J A K inv log known -> let id := Z.of_nat (size J) in
  jb_id r = id -> seat r = None -> jb_active_collective r = None -> report r = None ->
  J !! id = None /\ tables (<[id := r]> J) A K inv log known.
Proof.
  intros [H1 H2 H3 H4 H5 H6 H7 H8 H9] id Hid Hs Ha Hr. assert (J !! id = None) as Hnone.
  { apply eq_None_not_Some. rewrite H1. unfold id. lia. }
  assert (forall (P : JobRecord -> Prop) i, ~ P r ->
    (exists y, <[id := r]> J !! i = Some y /\ P y) <-> (exists y, J !! i = Some y /\ P y)) as Hex.
  { intros P i Hn. destruct (decide (i = id)) as [-> | Hne]; [| by rewrite lookup_insert_ne].
    rewrite lookup_insert_eq, Hnone. split; [by intros (y & [= <-] & ?) | by intros (y & ? & _)]. }
  split; [done |]. split; try done.
  - intros i. rewrite map_size_insert_None, Nat2Z.inj_succ by done. destruct (decide (i = id)) as [-> | Hne].
    + rewrite lookup_insert_eq. split; [unfold id; lia | eauto].
    + rewrite lookup_insert_ne, H1 by done. unfold id in Hne. lia.
  - intros i y [[<- <-] | [_ Hy]]%lookup_insert_Some; [done | by apply H2].
  - intros g i. rewrite H3, !assign_unfold. symmetry. apply Hex. rewrite Hs. by intros (? & ? & _).
  - intros c i. rewrite H4. symmetry. apply Hex. congruence.
  - intros s. rewrite H8. symmetry. apply Hex. congruence.
  - apply put_reported; [done |]. by rewrite Hr.
Qed.

Lemma engine_onward en x x' : onward x x' -> engine_ok (mkTraining en x) -> engine_ok (mkTraining en x').
Proof.
  intros Hon [E1 E2 E3 E4 E5]. cbn in *. destruct (onward_ok _ _ Hon E1) as [Hok _]. split; cbn; try done.
  - eapply tables_known; [| done]. intros c. apply cs_later_known, Hon.
  - intros id r Hr. eapply job_onward; [done | done | by apply E5].
Qed.

(** The record of a new job. *)
Definition fresh_job id (spec : JobSpec) (buckets : Z) (e : EventId) : JobRecord :=
  let blank := new_job_record id spec in
  {| blank with jb_buckets := buckets; jb_arrival_event := Some e |}.

Lemma fresh_job_ok g limits scheduling spec now L id e :
  spec_words spec -> valid_spec g spec limits scheduling ->
  0 <= wl_workers_per_job limits <= 8192 -> u32 (wl_buckets_per_step limits) ->
  scheduled L e (js_arrival spec) (arrival_payload id) ->
  job_ok now L id (fresh_job id spec (bucket_count spec) e).
Proof.
  intros Hw Hv Hl1 Hl2 Hsch. destruct Hv as [V1 V2 [V3 V3'] V4 (V5 & V5' & V5'') V6 V7 [V8 V8'] V9 V10].
  pose proof Hw as [W1 W2 W3 W4 W5 (W6 & W7 & W8)].
  destruct (bucket_count_range spec ltac:(word_lia) ltac:(word_lia)) as (B1 & _ & _).
  unfold u32, u64 in *. split; try done.
  - split; cbn; try lia; [unfold width; cbn; lia |]. destruct (decide (js_workers spec = [])) as [| Hne]; [by left | right].
    split; [done |]. unfold width. cbn. rewrite V3'. unfold worker_count.
    destruct (Z.eqb_spec (js_requested_workers spec) 0) as [| Hr]; [done |]. by destruct (V1 Hr).
  - assert (0 <= compute_sum (fresh_job id spec (bucket_count spec) e)).
    { apply sumZ_nonneg. eapply Forall_impl; [exact V9 |]. intros d []. lia. }
    split; cbn; try done; try lia.
    split; [done |]. split; [eapply Forall_impl; [exact V9 |]; by intros d [] | done].
  - by exists e.
Qed.

Lemma schedule_job_spec spec w :
  engine_ok w -> spec_words spec -> yields (schedule_job spec) (fun w' _ => engine_ok w') w.
Proof.
  intros Hw Hwords. destruct w as [en x]. pose proof Hw as [E1 [C1 C2 C3 [C4 C5]] E3 E4 E5]. cbn [tn_engine tn_cluster] in *.
  unfold schedule_job. apply yields_bind, wp_gets. apply yields_bind, wp_gets. cbv zeta. cbn [tn_engine tn_cluster].
  apply yields_bind, yields_of_outcome. intros buckets Hval.
  pose proof (validate_spec (cs_topology x) spec Hwords (en_limits_ en) (en_scheduling_ en) C2 C4 C5) as Hv. rewrite Hval in Hv.
  destruct Hv as [Hv ->]. apply yields_bind, yields_throw_if. intros _. apply yields_bind, yields_throw_if. intros _.
  set (id := Z.of_nat (size (en_jobs_ en))). apply yields_bind.
  eapply yields_with_cluster; [apply cs_schedule_law; [done | apply Hwords] |].
  intros x1 e (Hl1 & Hfresh & ev & Hlive & Hts & Hpay). cbn in Hfresh, Hlive, Hts, Hpay.
  assert (onward x x1) as Hon by (split; [done | rewrite Hlive; by apply insert_subseteq]).
  apply yields_bind, wp_modify. apply wp_ret. cbn [tn_engine tn_cluster]. fold (fresh_job id spec (bucket_count spec) e).
  set (r := fresh_job _ _ _ _). apply (engine_onward _ _ _ Hon) in Hw. destruct Hw as [F1 F2 F3 F4 F5]. cbn in *.
  destruct (jobs_new _ _ _ _ _ _ r F3) as [Hnone Ht]; try done. fold id in Hnone, Ht.
  assert (scheduled (cs_live x1) e (js_arrival spec) (arrival_payload id)) as Hsch
    by (exists ev; rewrite Hlive, lookup_insert_eq; done).
  rewrite Hnone. split; cbn; try done.
  - intros Hi i y [[<- <-] | [_ Hy]]%lookup_insert_Some; [| by eapply F4]. cbn.
    intros Hn. destruct Hv as [V1 V2 [V3 _] _ _ _ _ _ _ _]. unfold worker_count in V3.
    destruct (Z.eqb_spec (js_requested_workers spec) 0) as [| Hr]; cbn in V3; [rewrite Hn in V3; unfold zlength in V3; cbn in V3; lia |].
    destruct (V1 Hr) as [[c Hc] _]. rewrite (C1 Hi) in Hc. done.
  - intros i y [[<- <-] | [_ Hy]]%lookup_insert_Some; [| by apply F5]. by eapply fresh_job_ok.
Qed.
End Handle.

(** ** Construction *)

Lemma new_engine_ok {X} `{ClusterLaws X} g ops limits scheduling policy telemetry en (x : X) :
  g = build ops -> new_workload_engine g limits scheduling policy telemetry = Ret en -> cs_ok x ->
  0 <= wl_workers_per_job limits -> u32 (wl_steps_per_job limits) -> u32 (wl_buckets_per_step limits) ->
  u64 (wl_compute_events_per_job limits) -> engine_ok [] (mkTraining en x).
Proof.
  intros -> Hnew Hok L1 L2 L3 L4. unfold new_workload_engine in Hnew.
  destruct (engine_policy _ _ _) as [[inv pol] |] eqn:Hp; [| done]. destruct (limits_invalid limits) eqn:Hl; [done |].
  injection Hnew as <-. unfold limits_invalid in Hl. rewrite !orb_false_iff in Hl.
  assert (wl_workers_per_job limits <= 8192) by (destruct Hl as [[[[[_ Hg] _] _] _] _]; lia).
  unfold engine_policy in Hp. destruct scheduling as [config |].
  - destruct (_ || _); [done |]. destruct (new_inventory (build ops)) as [gpus |] eqn:Hi; [| done].
    assert (inv = Some gpus) as -> by (destruct policy; [| destruct (make_policy _ _)]; congruence).
    assert (forall g i, ~ owned_by gpus g i) as Hno.
    { intros g i (res & Hin & _ & Ho). unfold new_inventory in Hi. destruct (_ || _); [done |]. injection Hi as <-.
      rewrite sort_by_perm in Hin. apply list_elem_of_fmap in Hin as (gpu & -> & _). done. }
    split; cbn; try done. split; try done; cbn; [by intros i; rewrite map_size_empty, lookup_empty; split; [intros [] | lia] | | | | constructor |].
    + intros g i. split; [done | by intros (r & l & ? & _)].
    + intros c i. split; [done | by intros (r & ? & _)].
    + intros gs [= <-]. split; [by eapply new_inventory_ok |]. intros g i. split; [by intros ?%Hno | done].
    + intros s. split; [by intros ?%elem_of_nil | by intros (r & ? & _)].
  - destruct policy; [done |]. injection Hp as <- <-.
    split; cbn; try done. split; try done; cbn; [by intros i; rewrite map_size_empty, lookup_empty; split; [intros [] | lia] | | | constructor |].
    + intros g i. split; [done | by intros (r & l & ? & _)].
    + intros c i. split; [done | by intros (r & ? & _)].
    + intros s. split; [by intros ?%elem_of_nil | by intros (r & ? & _)].
Qed.

(** ** Steps *)

Section Reach.
Context {X : Type} `{ClusterLaws X}.
Implicit Types (w : Training X) (x : X) (taken : list JobSnapshot) (en : WorkloadEngine).

(** The rest of the program moves on: events of the engine stay scheduled. *)
Record moved x x' : Prop := {
  mo_ok : cs_ok x';
  mo_now : cs_now x <= cs_now x';
  mo_known c : cs_known x c -> cs_known x' c;
  mo_events e ev we : cs_live x !! e = Some ev -> ev_payload ev = Workload_ we -> cs_live x' !! e = Some ev;
}.

(** One call that returned; the second component collects the reports handed
    out. *)
Inductive engine_step : Training X * list JobSnapshot -> Training X * list JobSnapshot -> Prop :=
  | engine_step_schedule spec w taken w' id :
      spec_words spec -> schedule_job spec w = (w', Ret id) -> engine_step (w, taken) (w', taken)
  | engine_step_control job kind time worker w taken w' e :
      u64 time -> schedule_control job kind time worker w = (w', Ret e) -> engine_step (w, taken) (w', taken)
  | engine_step_gpu_control gpu healthy time w taken w' e :
      u64 time -> schedule_gpu_state gpu healthy time w = (w', Ret e) -> engine_step (w, taken) (w', taken)
  | engine_step_event ev we en x0 x taken w' :
      dispatched ev x0 x -> ev_payload ev = Workload_ we ->
      handle_workload we (mkTraining en x) = (w', Ret tt) ->
      engine_step (mkTraining en x0, taken) (w', taken)
  | engine_step_result completion w taken w' :
      handle_result completion w = (w', Ret tt) -> engine_step (w, taken) (w', taken)
  | engine_step_admission w taken w' :
      dispatch_waiting w = (w', Ret tt) -> engine_step (w, taken) (w', taken)
  | engine_step_take w taken w' l :
      take_completed_jobs w = (w', Ret l) -> engine_step (w, taken) (w', taken ++ l)
  | engine_step_cluster en x x' taken :
      moved x x' -> engine_step (mkTraining en x, taken) (mkTraining en x', taken).

Lemma moved_ok taken en x x' : moved x x' -> engine_ok taken (mkTraining en x) -> engine_ok taken (mkTraining en x').
Proof.
  intros Hmv [E1 E2 E3 E4 E5]. cbn in *. split; cbn; try done.
  - apply Hmv.
  - eapply tables_known; [apply Hmv | done].
  - intros id r Hr. destruct (terminal (jb_state r)) eqn:Ht.
    + eapply job_ok_ended, Ht. eapply job_ok_later; [by apply E5 | apply Hmv | by intros ? ?].
    + eapply job_ok_later; [by apply E5 | apply Hmv |]. intros e ev He Hev.
      destruct (job_pending _ _ _ _ _ (E5 id r Hr) Ht He) as [(_ & _ & ev' & Hev' & _ & Hp) | (_ & w & i & _ & _ & ev' & Hev' & _ & Hp)];
        rewrite Hev in Hev'; injection Hev' as <-; by eapply Hmv.
Qed.

Lemma schedule_event_ok taken en x spec :
  engine_ok taken (mkTraining en x) -> u64 (spec_timestamp spec) ->
  yields (with_cluster (cs_schedule spec)) (fun w' _ => engine_ok taken w') (mkTraining en x).
Proof.
  intros Hen Hu. eapply yields_with_cluster; [apply cs_schedule_law; [apply Hen | done] |].
  intros x1 e (Hl & Hn & ev & Hlive & _). cbn in Hn, Hlive. eapply (engine_onward taken); [| exact Hen]. split; [done |].
  rewrite Hlive. by apply insert_subseteq.
Qed.

(** The invariant survives a step, and reports are only added. *)
Lemma engine_step_ok p p' :
  engine_step p p' -> engine_ok (snd p) (fst p) ->
  engine_ok (snd p') (fst p') /\
  exists l, snd p' ++ en_completed_ (tn_engine (fst p')) = (snd p ++ en_completed_ (tn_engine (fst p))) ++ l.
Proof.
  assert (forall A (m : M (Training X) A) w w' taken a, tame anyone m -> m w = (w', Ret a) ->
    exists l, taken ++ en_completed_ (tn_engine w') = (taken ++ en_completed_ (tn_engine w)) ++ l) as Hlog.
  { intros A m w w' taken a Hm Hrun. destruct (Hm w) as [_ [l Hl]]. rewrite Hrun in Hl. cbn in Hl. exists l. by rewrite Hl, app_assoc. }
  intros [spec w taken w' id Hwd Hr | job kind time worker w taken w' e Hu Hr | gpu healthy time w taken w' e Hu Hr
    | ev we en x0 x taken w' Hd Hp Hr | completion w taken w' Hr | w taken w' Hr | w taken w' l Hr | en x x' taken Hmv] Hok; cbn [fst snd] in *.
  - split; [exact (wp_run _ _ _ _ _ _ (schedule_job_spec taken spec w Hok Hwd) Hr) |].
    exact (Hlog _ _ _ _ taken _ (tame_schedule_job spec) Hr).
  - split; [| exact (Hlog _ _ _ _ taken _ (tame_schedule_control job kind time worker) Hr)].
    refine (wp_run _ (fun w' _ => engine_ok taken w') (fun _ _ => True) _ _ _ _ Hr). apply yields_bind. unfold job_at. apply yields_bind, wp_gets. apply yields_of_option.
    intros r _. apply yields_bind, yields_throw_if. intros _. destruct w. by apply schedule_event_ok.
  - split; [| exact (Hlog _ _ _ _ taken _ (tame_schedule_gpu_state gpu healthy time) Hr)].
    refine (wp_run _ (fun w' _ => engine_ok taken w') (fun _ _ => True) _ _ _ _ Hr). apply yields_bind, wp_gets. apply yields_bind, wp_gets.
    apply yields_bind, yields_throw_if. intros _. destruct w. by apply schedule_event_ok.
  - split; [exact (wp_run _ _ _ _ _ _ (handle_workload_spec taken en ev we x0 x Hok Hd Hp) Hr) |].
    exact (Hlog _ _ _ _ taken _ (tame_handle_workload we) Hr).
  - destruct w as [en x]. split; [exact (wp_run _ _ _ _ _ _ (handle_result_spec taken completion en x Hok) Hr) |].
    exact (Hlog _ _ _ _ taken _ (tame_handle_result completion) Hr).
  - split; [exact (wp_run _ _ _ _ _ _ (dispatch_waiting_spec taken w Hok) Hr) |].
    exact (Hlog _ _ _ _ taken _ tame_dispatch_waiting Hr).
  - unfold take_completed_jobs, modify_engine, bind, gets, modify, ret in Hr. injection Hr as <- <-. cbn. rewrite app_nil_r.
    split; [| exists []; by rewrite app_nil_r]. destruct Hok as [E1 [C1 C2 C3 C4] E3 E4 E5]. split; try done.
    unfold engine_tables in *. cbn. by rewrite app_nil_r.
  - split; [by eapply moved_ok | exists []; by rewrite app_nil_r].
Qed.

Lemma engine_steps_ok p p' :
  rtc engine_step p p' -> engine_ok (snd p) (fst p) ->
  engine_ok (snd p') (fst p') /\
  exists l, snd p' ++ en_completed_ (tn_engine (fst p')) = (snd p ++ en_completed_ (tn_engine (fst p))) ++ l.
Proof.
  induction 1 as [p | p1 p2 p3 Hst _ IH]; intros Hok; [split; [done | exists []; by rewrite app_nil_r] |].
  destruct (engine_step_ok _ _ Hst Hok) as [Hok2 [l1 E1]]. destruct (IH Hok2) as [Hok3 [l2 E2]].
  split; [done |]. exists (l1 ++ l2). by rewrite E2, E1, app_assoc.
Qed.

(** A state the program can be in. *)
Record reachable_engine w taken : Prop := {
  re_run : exists ops limits scheduling policy telemetry en x,
    new_workload_engine (build ops) limits scheduling policy telemetry = Ret en /\ cs_ok x /\
    0 <= wl_workers_per_job limits /\ u32 (wl_steps_per_job limits) /\ u32 (wl_buckets_per_step limits) /\
    u64 (wl_compute_events_per_job limits) /\ rtc engine_step (mkTraining en x, []) (w, taken);
}.

Lemma reachable_engine_ok w taken : reachable_engine w taken -> engine_ok taken w.
Proof.
  intros [(ops & limits & scheduling & policy & telemetry & en & x & Hn & Hok & L1 & L2 & L3 & L4 & Hsteps)].
  pose proof (new_engine_ok _ ops _ _ _ _ _ x eq_refl Hn Hok L1 L2 L3 L4) as Hinit.
  by destruct (engine_steps_ok _ _ Hsteps Hinit).
Qed.

Lemma reachable_engine_step w taken w' taken' :
  reachable_engine w taken -> engine_step (w, taken) (w', taken') -> reachable_engine w' taken'.
Proof.
  intros [(ops & limits & scheduling & policy & telemetry & en & x & Hn & Hok & L1 & L2 & L3 & L4 & Hsteps)] Hst.
  constructor. exists ops, limits, scheduling, policy, telemetry, en, x. split_and!; try done. by eapply rtc_r.
Qed.

Lemma reachable_engine_steps w taken w' taken' :
  reachable_engine w taken -> rtc engine_step (w, taken) (w', taken') -> reachable_engine w' taken'.
Proof.
  intros [(ops & limits & scheduling & policy & telemetry & en & x & Hn & Hok & L1 & L2 & L3 & L4 & Hsteps)] Hst.
  constructor. exists ops, limits, scheduling, policy, telemetry, en, x. split_and!; try done. by etrans.
Qed.
End Reach.
