(* ===== verification/WorkloadCluster.v ===== *)
(** * The ring executor as the workload's cluster

    The executor over router, transport and simulation context discharges the
    laws the workload engine relies on. *)

From S2P Require Import Prelude SimTime Entities TelemetryRecords EventQueue SimContext.
From S2P Require Import Timing LinkQueue LinkService Topology Transport TransportReach RoutingPaths RoutingPolicy.
From S2P Require Import Router RouterTheorems CollectivePlan CollectiveRuntime CollectiveLaws CollectiveSteps.
From S2P Require Import CollectiveFabric Workload WorkloadLaws.
From S2P Require Import Simulation SimulationLaws SimulationRun WorkloadHandlers.

(** ** Fabrics watched from a point on

    The operations keep a relation to the fabric they started in. *)

Section Watched.
Context {F : Type} `{FabricLaws F} (R : relation F) `{!PreOrder R} (f0 : F).
Hypothesis schedule_R : forall spec f, fab_ok f -> u64 (spec_timestamp spec) ->
  wp (fab_schedule spec) (fun f' _ => R f f') (fun _ _ => True) f.
Hypothesis route_R : forall request f, fab_ok f -> u64 (rq_bytes request) ->
  u64 (rq_maximum_chunk_bytes request) -> wp (fab_route request) (fun f' _ => R f f') (fun _ _ => True) f.
Hypothesis record_R : forall sink now correlation o f, fab_ok f ->
  wp (fab_sink_record sink now correlation o) (fun f' _ => R f f') (fun _ _ => True) f.

Definition watched_later : relation F := fun f f' => fab_later f f' /\ (fab_ok f -> R f f').

#[local] Instance watched_later_preorder : PreOrder watched_later.
Proof.
  split; [by intros f; split | intros f1 f2 f3 [A1 A2] [B1 B2]; split; [by etrans |]].
  intros Hok. etrans; [by apply A2 | by apply B2, (fab_later_ok f1)].
Qed.

Lemma watched_wp {A} (m : M F A) (Q : F -> A -> Prop) f :
  wp m (fun f' a => fab_later f f' /\ Q f' a) (fun _ _ => True) f ->
  wp m (fun f' _ => R f f') (fun _ _ => True) f ->
  wp m (fun f' a => watched_later f f' /\ Q f' a) (fun _ _ => True) f.
Proof. unfold wp. destruct (m f) as [f' [a | e]]; [| done]. by intros [? ?] ?. Qed.

Program Definition watched_laws : FabricLaws F := {|
  fab_ok := fun f => fab_ok f /\ R f0 f;
  fab_later := watched_later;
  fab_transfer_known := fab_transfer_known;
  fab_event_known := fab_event_known;
|}.
Next Obligation. intros f f' [Hl Hr] [Hok H0']. split; [by eapply fab_later_ok | etrans; [done | by apply Hr]]. Qed.
Next Obligation. intros f f' t [Hl _]. by apply fab_later_transfer. Qed.
Next Obligation. intros f f' e [Hl _]. by apply fab_later_event. Qed.
Next Obligation. intros spec f [Hok _] Hu. apply watched_wp; [by apply fab_schedule_law | by apply schedule_R]. Qed.
Next Obligation. intros request f [Hok _] Hb Hm. apply watched_wp; [by apply fab_route_law | by apply route_R]. Qed.
Next Obligation.
  intros sink now correlation o f [Hok _]. eapply wp_conseq; [eapply (watched_wp _ (fun _ _ => True)) | |].
  - eapply wp_conseq; [by apply fab_record_law | by intros | done].
  - by apply record_R.
  - by intros f' [] [? _].
  - done.
Qed.

(** A specification of the executor over watched fabrics is one over all. *)
Lemma watched_executor_ok taken (w : Ring F) :
  rg_fabric w = f0 -> executor_ok taken w -> @executor_ok F _ watched_laws taken w.
Proof.
  intros Hf [Hok Ht Hs]. assert (R f0 (rg_fabric w)) as Hr by (by rewrite Hf).
  split; [exact (conj Hok Hr) | | done].
  destruct Ht as [T1 T2 T3 T4 T5]. constructor; [exact T1 | exact T2 | exact T3 | exact T4 | exact T5].
Qed.

Lemma unwatched_executor_ok taken (w : Ring F) :
  @executor_ok F _ watched_laws taken w -> executor_ok taken w /\ R f0 (rg_fabric w).
Proof.
  intros [[Hok Hr] Ht Hs]. split; [| done]. split; [done | | done].
  destruct Ht as [T1 T2 T3 T4 T5]. constructor; [exact T1 | exact T2 | exact T3 | exact T4 | exact T5].
Qed.
End Watched.

(** ** Records are not forgotten *)

Section Growing.
Context {F : Type} `{Fabric F}.
Implicit Types (w : Ring F) (id : CollectiveId).

Definition registered w id : Prop := is_Some (rx_records_ (rg_executor w) !! id).

Definition grown w w' : Prop := forall id, registered w id -> registered w' id.

Definition growing {A} (m : M (Ring F) A) : Prop := forall w, grown w (fst (m w)).

Lemma growing_still {A} (m : M (Ring F) A) : (forall w, fst (m w) = w) -> growing m.
Proof. intros Hm w. rewrite Hm. by intros id. Qed.

Lemma growing_bind {A B} (m : M (Ring F) A) (k : A -> M (Ring F) B) :
  growing m -> (forall a, growing (k a)) -> growing (bind m k).
Proof.
  intros Hm Hk w id Hid. specialize (Hm w id Hid). unfold bind. destruct (m w) as [w' [a | e]]; cbn in *; [| done].
  by apply Hk.
Qed.

Lemma growing_when b (m : M (Ring F) unit) : growing m -> growing (when b m).
Proof. intros Hm. destruct b; [done | by apply growing_still]. Qed.

Lemma growing_for_each {A} (l : list A) (f : A -> M (Ring F) unit) :
  (forall a, growing (f a)) -> growing (for_each l f).
Proof. intros Hf. induction l as [| a l IH]; [by apply growing_still |]. cbn. by apply growing_bind. Qed.

Lemma growing_fabric {A} (m : M F A) : growing (with_fabric m).
Proof. intros w. unfold with_fabric, zoom. destruct (m (rg_fabric w)). by intros id. Qed.

Lemma growing_executor g : (forall x id, is_Some (rx_records_ x !! id) -> is_Some (rx_records_ (g x) !! id)) ->
  growing (modify_executor g).
Proof. intros Hg w id. apply Hg. Qed.

Lemma growing_record id g : growing (modify_record id g).
Proof. apply growing_executor. intros x id' Hid. cbn. by apply lookup_alter_is_Some. Qed.

Lemma growing_wp {A} (m : M (Ring F) A) (Q : Ring F -> A -> Prop) w :
  growing m -> (forall w' a, grown w w' -> Q w' a) -> wp m Q (fun _ _ => True) w.
Proof. intros Hm HQ. unfold wp. specialize (Hm w). destruct (m w) as [w' [a | e]]; [by apply HQ | done]. Qed.

Lemma growing_record_at id : growing (record_at id).
Proof. apply growing_still. intros w. unfold record_at, bind, gets, of_option. by destruct (_ !! _). Qed.
End Growing.

(** Goes through a body of known calls. *)
Ltac growing_step :=
  match goal with
  | |- growing (bind _ _) => apply growing_bind; [| intros ?]
  | |- growing (when _ _) => apply growing_when
  | |- growing (for_each _ _) => apply growing_for_each; intros ?
  | |- growing (with_fabric _) => apply growing_fabric
  | |- growing (modify_record _ _) => apply growing_record
  | |- growing (modify_result _ _) => apply growing_record
  | |- growing (record_at _) => apply growing_record_at
  | |- growing (throw_if ?b _) => apply growing_still; by destruct b
  | |- growing (of_option _ ?o) => apply growing_still; by destruct o
  | |- growing (modify_executor _) => apply growing_executor; by intros ? ?
  | |- growing (if ?b then _ else _) => destruct b
  | |- growing (match ?o with _ => _ end) => destruct o
  | |- growing _ => by eauto with growing
  | |- growing _ => by apply growing_still
  end.

Ltac growing_auto := cbv zeta; repeat growing_step.

Create HintDb growing.

Section Operations.
Context {F : Type} `{Fabric F}.
Implicit Types (id : CollectiveId).

Lemma growing_observe id transfer (o : M (Ring F) TelemetryObservation) : growing o -> growing (observe id transfer o).
Proof.
  intros Ho. unfold observe. growing_auto. unfold collective_correlation. growing_auto.
Qed.
#[local] Hint Resolve growing_observe : growing.

Lemma growing_emit id transition transfer bytes : growing (emit id transition transfer bytes).
Proof. apply growing_observe. growing_auto. Qed.
#[local] Hint Resolve growing_emit : growing.

Lemma growing_emit_counter id metric amount transfer : growing (emit_counter id metric amount transfer).
Proof. apply growing_observe. growing_auto. Qed.
#[local] Hint Resolve growing_emit_counter : growing.

Lemma growing_trace id : growing (trace id).
Proof. unfold trace. growing_auto. Qed.
#[local] Hint Resolve growing_trace : growing.

Lemma growing_finish id : growing (finish_collective id).
Proof. unfold finish_collective. growing_auto. apply growing_observe. growing_auto. Qed.
#[local] Hint Resolve growing_finish : growing.

Lemma growing_issue id transfer : growing (issue_planned id transfer).
Proof. unfold issue_planned, issue_transfer, issue_local, issue_fabric, participant_nic. growing_auto. Qed.
#[local] Hint Resolve growing_issue : growing.

Lemma growing_start_round id : growing (start_round id).
Proof. unfold start_round. growing_auto. Qed.

(** A submission names the collective it registers. *)
Lemma ring_submit_registers request w :
  wp (ring_submit request)
    (fun w' id => grown w w' /\ id = Z.of_nat (size (rx_records_ (rg_executor w))) /\ registered w' id)
    (fun _ _ => True) w.
Proof.
  unfold ring_submit. cbv zeta. wp_step. apply wp_throw_if; [done | intros _]. wp_step. apply wp_of_outcome; [| done].
  intros volume _. wp_step. apply wp_gets. wp_step. apply wp_throw_if; [done | intros _]. wp_step. apply wp_gets.
  wp_step. apply wp_of_outcome; [| done]. intros [] _. wp_step. apply wp_gets. wp_step. apply wp_modify.
  set (id := Z.of_nat _). match goal with |- wp _ _ _ ?w1 => set (w0 := w1) end.
  assert (grown w w0 /\ registered w0 id) as [H1 H2].
  { unfold grown, registered, w0. cbn. destruct (_ !! id) eqn:E; split; [done | by eexists | |].
    - intros id' Hid. destruct (decide (id' = id)) as [-> | Hne]; [rewrite lookup_insert_eq; by eexists |].
      by rewrite lookup_insert_ne.
    - rewrite lookup_insert_eq. by eexists. }
  clearbody w0. assert (forall w1, grown w0 w1 -> grown w w1 /\ id = id /\ registered w1 id) as Hend by (intros w1 G; unfold grown; auto).
  wp_step. apply growing_wp; [apply growing_emit |]. intros w1 _ G1.
  wp_step. apply growing_wp; [apply growing_emit_counter |]. intros w2 _ G2.
  wp_step. apply growing_wp; [destruct (_ =? 1); [apply growing_finish | apply growing_start_round] |].
  intros w3 _ G3. apply wp_ret, Hend. unfold grown in *. auto.
Qed.

Lemma growing_advance id : growing (advance id : M (Ring F) unit).
Proof. pose proof growing_start_round. unfold advance. growing_auto. Qed.
#[local] Hint Resolve growing_advance : growing.

Lemma growing_local event : growing (handle_local event : M (Ring F) unit).
Proof. unfold handle_local. growing_auto. Qed.

Lemma growing_transfer completion : growing (handle_transfer completion : M (Ring F) unit).
Proof. unfold handle_transfer. growing_auto. Qed.

Lemma growing_take : growing (take_completed : M (Ring F) (list CollectiveResult)).
Proof. unfold take_completed. growing_auto. Qed.

Lemma growing_cancel id : growing (cancel_collective id : M (Ring F) unit).
Proof. unfold cancel_collective. growing_auto. Qed.
End Operations.

(** ** The laws *)

Section Laws.
Context {C : Type} `{SimContextLaws C}.
Abbreviation World := (Ring (Routed C)).
Implicit Types (w : World).

Abbreviation ctx w := (tp_context (ro_transport (rg_fabric w))).

Definition cluster_ok w : Prop :=
  (exists taken, executor_ok taken w) /\ owns_completions (ro_transport (rg_fabric w)).

Definition cluster_later w w' : Prop :=
  (cluster_ok w -> cluster_ok w' /\ ctx_evolves (ctx w) (ctx w')) /\ grown w w'.

#[global] Instance cluster_later_preorder : PreOrder cluster_later.
Proof.
  split; [intros w; split; [intros ?; by split | by intros id] | intros w1 w2 w3 [A1 A2] [B1 B2]; split; [| unfold grown in *; auto]].
  intros [H2 E12]%A1. destruct (B1 H2) as [H3 E23]. split; [done | by etrans].
Qed.

Lemma cluster_ctx_ok w : cluster_ok w -> ctx_ok (ctx w).
Proof. intros [[taken [[_ Hok] _ _]] _]. done. Qed.

(** A step of the context, and of nothing the services see. *)
Lemma owns_later (t t' : Transport C) :
  ctx_ok (tp_context t) -> ctx_evolves (tp_context t) (tp_context t') ->
  services_ (tp_runtime t') = services_ (tp_runtime t) -> owns_completions t -> owns_completions t'.
Proof. intros Hok He Hs Ho l s Hl. rewrite Hs in Hl. eapply own_completion_later; [done | done | by eapply Ho]. Qed.

(** A step of the context alone. *)
Lemma cluster_context_step w c : cluster_ok w -> ctx_evolves (ctx w) c ->
  let f := rg_fabric w in let t := ro_transport f in
  cluster_later w {| w with rg_fabric := {| f with ro_transport := {| t with tp_context := c |} |} |}.
Proof.
  intros Hok He f t. split; [| by intros id]. intros _. split; [| done]. pose proof (cluster_ctx_ok _ Hok) as Hc.
  destruct Hok as [[taken Hw] Ho]. split; [| by eapply (owns_later t)]. exists taken.
  apply executor_later; [done |]. apply routed_context_later; [apply Hw | done].
Qed.

(** The executor cancels no event. *)
Definition routed_proceeds (f f' : Routed C) : Prop :=
  proceeds (tp_context (ro_transport f)) (tp_context (ro_transport f')) /\
  services_ (tp_runtime (ro_transport f')) = services_ (tp_runtime (ro_transport f)).

#[local] Instance routed_proceeds_preorder : PreOrder routed_proceeds.
Proof.
  split; [by intros f; split | intros f1 f2 f3 [A1 A2] [B1 B2]; split; [by etrans | congruence]].
Qed.

Lemma routed_proceeds_owns f f' :
  routed_fine f -> routed_proceeds f f' -> owns_completions (ro_transport f) -> owns_completions (ro_transport f').
Proof. intros [_ Hc] [[He _] Hs]. by apply owns_later. Qed.

Lemma executor_proceeds taken {A} (m : M World A) w :
  (forall laws : FabricLaws (Routed C), @executor_ok _ _ laws taken w ->
     wp m (fun w' _ => @executor_ok _ _ laws taken w') (fun _ _ => True) w) ->
  executor_ok taken w ->
  wp m (fun w' _ => executor_ok taken w' /\ routed_proceeds (rg_fabric w) (rg_fabric w')) (fun _ _ => True) w.
Proof.
  intros Hm Hw. unshelve eset (laws := watched_laws routed_proceeds (rg_fabric w) _ _ _).
  - intros spec f [_ Hc] Hu. cbn. unfold with_transport. apply wp_zoom, wp_zoom.
    eapply wp_conseq; [by apply schedule_proceeds | by intros; split | done].
  - intros request f [[l Hf] Hc] Hb Hk. pose proof (router_submit_context l request f Hf Hc Hb Hk) as H1.
    pose proof (services_router_submit _ request f eq_refl) as H2. unfold wp in *. cbn in *.
    by destruct (router_submit request f) as [f' [r | e]].
  - intros sink now correlation o f [_ Hc]. cbn. unfold with_transport. apply wp_zoom, wp_zoom.
    eapply wp_conseq; [by apply record_proceeds | by intros; split | done].
  - eapply wp_conseq; [apply (Hm laws); by apply watched_executor_ok | | done].
    intros w' a Hw'. by apply unwatched_executor_ok in Hw'.
Qed.

Lemma cluster_submit_law request w : cluster_ok w -> u64 (cq_bytes request) -> u64 (cq_chunk_bytes request) ->
  wp (ring_submit request)
    (fun w' c => cluster_later w w' /\ ctx_live (ctx w) ⊆ ctx_live (ctx w') /\ ~ registered w c /\ registered w' c)
    (fun _ _ => True) w.
Proof.
  intros [[taken Hw] Ho] Hb Hc. pose proof (ring_submit_registers request w) as H1.
  pose proof (executor_proceeds taken (ring_submit request) w
    (fun laws Hl => @ring_submit_spec _ _ laws taken request w Hl Hb Hc) Hw) as H2.
  unfold wp in *. destruct (ring_submit request w) as [w' [c | e]]; [| done].
  destruct H1 as (Hg & -> & Hr), H2 as (Hw' & Hp). pose proof Hp as [[He Hsub] _]. split; [| split; [done | split; [| done]]].
  - split; [intros _; split; [split; [by exists taken |] | done] | done]. by eapply routed_proceeds_owns; [apply Hw | |].
  - intros Hin%(tb_dense _ _ _ _ _ (eo_tables _ _ Hw)). lia.
Qed.

Lemma cluster_cancel_law c w : cluster_ok w ->
  wp (cancel_collective c)
    (fun w' _ => cluster_later w w' /\ ctx_live (ctx w) ⊆ ctx_live (ctx w')) (fun _ _ => True) w.
Proof.
  intros [[taken Hw] Ho]. pose proof (growing_cancel c w) as H1.
  pose proof (executor_proceeds taken (cancel_collective c) w
    (fun laws Hl => @cancel_collective_spec _ _ laws taken c w Hl) Hw) as H2.
  unfold wp in *. destruct (cancel_collective c w) as [w' [[] | e]]; [| done].
  destruct H2 as (Hw' & Hp). pose proof Hp as [[He Hsub] _]. split; [| done].
  split; [intros _; split; [split; [by exists taken |] | done] | done]. by eapply routed_proceeds_owns; [apply Hw | |].
Qed.

#[global] Program Instance ring_cluster_laws : ClusterLaws World := {
  cs_ok := cluster_ok;
  cs_live := fun w => ctx_live (ctx w);
  cs_known := registered;
  cs_later := cluster_later;
}.
Next Obligation. intros w w' [Hl _] Hok. by apply Hl. Qed.
Next Obligation. intros w w' [Hl _] Hok. apply ctx_evolves_now; [by apply Hl | by apply cluster_ctx_ok]. Qed.
Next Obligation. intros w w' c [_ Hg]. apply Hg. Qed.
Next Obligation. intros w Hok. by apply ctx_now_u64, cluster_ctx_ok. Qed.
Next Obligation. intros w id e Hok He. by eapply ctx_live_future; [apply cluster_ctx_ok | exact He]. Qed.
Next Obligation.
  intros spec w Hok Hu. cbn. unfold with_fabric, with_transport. apply wp_zoom, wp_zoom, wp_zoom.
  eapply wp_conseq; [apply ctx_schedule_law; [by apply cluster_ctx_ok | done] | | done].
  intros c' id (He & Hn & e & Hl & Ht & Hp & _). split; [by apply cluster_context_step |]. split; [done |]. by exists e.
Qed.
Next Obligation.
  intros id w Hok. cbn. unfold with_fabric, with_transport. apply wp_zoom, wp_zoom, wp_zoom.
  eapply wp_conseq; [apply ctx_cancel_law; by apply cluster_ctx_ok | | done].
  intros c' r (He & Ht & Hf). split; [by apply cluster_context_step |]. intros id' Hne. cbn.
  destruct r; [rewrite Ht by done; by apply lookup_delete_ne | by rewrite Hf].
Qed.
Next Obligation. intros request w. apply cluster_submit_law. Qed.
Next Obligation. intros c w. apply cluster_cancel_law. Qed.
Next Obligation.
  intros sink now correlation o w Hok. cbn. unfold with_fabric, with_transport. apply wp_zoom, wp_zoom, wp_zoom.
  eapply wp_conseq; [apply ctx_record_law; by apply cluster_ctx_ok | | done].
  intros c' [] (He & Hl). split; [by apply cluster_context_step |]. cbn. by rewrite Hl.
Qed.
End Laws.

(** ** The kernel dispatches an event *)

Section Dispatch.
Context {T : Type} `{TelemetrySessionLaws T}.
Abbreviation World := (Ring (Routed (Kernel T))).
Implicit Types (w : World) (k : Kernel T) (ev : Event).

Definition ring_kernel w : Kernel T := tp_context (ro_transport (rg_fabric w)).

Definition set_ring_kernel k w : World :=
  let f := rg_fabric w in let t := ro_transport f in
  {| w with rg_fabric := {| f with ro_transport := {| t with tp_context := k |} |} |}.

(** The event is made the current one. *)
Definition with_current ev k : Kernel T :=
  set_sim (let s := k_sim k in {| s with current_event_ := Some ev; now_ := ev_timestamp ev;
    dispatched_events_ := u64_wrap (dispatched_events_ s + 1) |}) k.

Lemma kernel_swap w k : cluster_ok w -> kernel_ok k ->
  frontier (event_ids_ (k_sim (ring_kernel w))) <= frontier (event_ids_ (k_sim k)) ->
  (forall id e, live (k_sim k) !! id = Some e -> live (k_sim (ring_kernel w)) !! id = Some e) ->
  cluster_ok (set_ring_kernel k w).
Proof.
  intros [[taken Hw] Ho] Hk Hle Hlive. split.
  - exists taken. apply executor_later; [done |]. pose proof Hw as [[[l Hr] Hc] _ _].
    split; [intros _; split; [exists l; by apply (decided_ok (rg_fabric w)) | exact Hk] | split; [reflexivity |]].
    intros _ e He. cbn in *. unfold ring_kernel in Hle. lia.
  - intros l s Hs id Hid. destruct (Ho l s Hs id Hid) as [Hi Hn]. split; [cbn in *; unfold ring_kernel in Hle; lia |].
    intros ev Hev. by apply Hn, Hlive.
Qed.

Lemma kernel_dispatches ev w k1 k2 :
  cluster_ok w -> selected (ring_kernel w) (Some ev) k1 -> quiet (with_current ev k1) k2 ->
  dispatched ev w (set_ring_kernel k2 w).
Proof.
  intros Hw Hsel Hq. pose proof (cluster_ctx_ok _ Hw) as Hk. cbn in Hk.
  destruct (begin_dispatch _ ev k1 Hk Hsel) as (H1 & H2 & H3 & _). fold (with_current ev k1) in *.
  destruct Hsel as (_ & _ & Hl & Hl' & _). pose proof (quiet_live _ _ Hq) as Hlive.
  split.
  - apply kernel_swap; [done | by eapply quiet_kernel_ok | by rewrite (quiet_ids _ _ Hq) |].
    intros id e. rewrite Hlive. change (live (k_sim k1) !! id = Some e -> live (k_sim (ring_kernel w)) !! id = Some e).
    rewrite Hl'. by intros [_ ?]%lookup_delete_Some.
  - exact Hl.
  - destruct Hq as (tr & b & t & -> & _). exact H2.
  - destruct Hq as (tr & b & t & -> & _). reflexivity.
  - by intros c.
  - intros e ev' Hne He. change (live (k_sim k2) !! e = Some ev'). rewrite Hlive.
    change (live (k_sim k1) !! e = Some ev'). rewrite Hl'. by rewrite lookup_delete_ne.
Qed.
End Dispatch.
