(* ===== verification/WorkloadTheorems.v ===== *)
(** * Theorems on the workload engine

    What holds in every state the engine reaches, over any cluster that keeps
    the laws: GPUs, reports, snapshots, progress and the order of admission. *)

From S2P Require Import Prelude SimTime Entities TelemetryRecords EventQueue SimContext.
From S2P Require Import Topology TopologyLaws CollectivePlan CollectiveRuntime Scheduling SchedulingLaws.
From S2P Require Import Simulation SimulationLaws SimulationRun Transport TransportReach Router RouterTheorems CollectiveLaws.
From S2P Require Import TransportTheorems CollectiveSteps CollectiveFabric CollectiveTheorems.
From S2P Require Import Workload WorkloadRuntime WorkloadLaws WorkloadCluster WorkloadInv WorkloadSteps WorkloadHandlers.
From S2P Require Import WorkloadAdmission WorkloadReach.

(** ** States *)

Section States.
Context {X : Type} `{ClusterLaws X}.
Implicit Types (w : Training X) (id : JobId) (r : JobRecord) (taken : list JobSnapshot).

Lemma exists_busy (J : gmap JobId JobRecord) id gpu :
  (exists r l, J !! id = Some r /\ seat r = Some l /\ gpu ∈ l) <->
  exists r, J !! id = Some r /\ busy r = true /\ gpu ∈ js_workers (jb_spec r).
Proof.
  unfold seat. split.
  - intros (r & l & Hr & Hl & Hin). exists r. destruct (busy r); [| done]. by injection Hl as <-.
  - intros (r & Hr & Hb & Hin). exists r, (js_workers (jb_spec r)). by rewrite Hb.
Qed.

Lemma exists_report (J : gmap JobId JobRecord) s t :
  (forall id r, J !! id = Some r -> accounts t r) ->
  (exists r, J !! sn_id s = Some r /\ report r = Some (Ret s)) <->
  exists r, J !! sn_id s = Some r /\ terminal (jb_state r) = true /\ forall now, inspect r now = Ret s.
Proof.
  intros Ha. unfold report. split; intros (r & Hr & Hs); exists r; (split; [done |]).
  - destruct (terminal (jb_state r)) eqn:Ht; [| done]. injection Hs as Hs. split; [done |]. intros now.
    destruct (proj2 (ac_finished _ _ (Ha _ _ Hr)) Ht) as [f Hf]. by rewrite (inspect_ended r now f).
  - destruct Hs as [-> Hn]. f_equal. apply Hn.
Qed.

(** What a job that has not ended waits for. *)
Lemma waits_for w taken id r :
  engine_ok taken w -> en_jobs_ (tn_engine w) !! id = Some r -> terminal (jb_state r) = false ->
  let x := tn_cluster w in
  (exists e, jb_arrival_event r = Some e /\
     scheduled (cs_live x) e (js_arrival (jb_spec r)) (arrival_payload id)) \/
  (r ∈ waiting_jobs (en_jobs_ (tn_engine w))) \/
  (exists worker e, cell r worker (index_of r (jb_completed_buckets r)) = Some (Some e) /\
     scheduled (cs_live x) e (due r worker (index_of r (jb_completed_buckets r)))
       (compute_payload id r worker (index_of r (jb_completed_buckets r))) /\
     cs_now x <= due r worker (index_of r (jb_completed_buckets r))) \/
  (exists c, jb_active_collective r = Some c /\ en_collectives_ (tn_engine w) !! c = Some id /\ cs_known x c).
Proof.
  intros Hw Hr Ht x. pose proof (eo_jobs _ _ Hw id r Hr) as Hj.
  destruct (queued (jb_state r)) eqn:Hq.
  - pose proof (jo_arrival _ _ _ _ Hj) as Harr. destruct (jb_state r) eqn:Hst; try done; [by left |].
    right; left. apply waiting_jobs_elem. eauto.
  - right; right. assert (busy r = true) as Hb by (by rewrite (job_busy _ _ _ _ Hj), Ht, Hq).
    destruct (jo_step _ _ _ _ Hj Hb) as [Hs Hm]. pose proof (jo_spec _ _ _ _ Hj) as Hsp.
    destruct (jb_active_collective r) as [c |] eqn:Hc.
    + right. exists c. pose proof (eo_tables _ _ Hw) as Htb.
      assert (en_collectives_ (tn_engine w) !! c = Some id) as Hk by (apply (tb_collect _ _ _ _ _ _ Htb); eauto).
      split; [done | split; [done |]]. by apply (tb_known _ _ _ _ _ _ Htb c id).
    + left. destruct (passed_not_all r (index_of r (jb_completed_buckets r)) Hsp (st_events_len _ _ _ _ Hs))
        as (worker & e & Hcr & Hcell); [by apply index_range; [| apply Hs] | by apply Hm |].
      pose proof (st_pending _ _ _ _ Hs worker _ e Hcr Hcell) as Hsch. exists worker, e. split; [done | split; [done |]].
      destruct Hsch as (ev & Hev & <- & _). by eapply cs_live_future; [apply Hw | exact Hev].
Qed.
Lemma ended_reported w taken id r :
  engine_ok taken w -> en_jobs_ (tn_engine w) !! id = Some r -> terminal (jb_state r) = true ->
  exists s, s ∈ taken ++ en_completed_ (tn_engine w) /\ sn_id s = id.
Proof.
  intros Hw Hr Ht. pose proof (eo_tables _ _ Hw) as Htb. unfold engine_tables in Htb.
  pose proof (tb_reported _ _ _ _ _ _ Htb id r) as Hrep. unfold report in Hrep. rewrite Ht in Hrep.
  destruct (final_snapshot r) as [s | e] eqn:Hs; [| by destruct (Hrep e Hr)]. exists s.
  pose proof (inspect_id r 0 s Hs) as Hid. rewrite (tb_ids _ _ _ _ _ _ Htb id r Hr) in Hid. split; [| done].
  apply (tb_log _ _ _ _ _ _ Htb). exists r. rewrite Hid. split; [done |]. unfold report. by rewrite Ht, Hs.
Qed.

Lemma collecting_busy w taken id r c :
  engine_ok taken w -> en_jobs_ (tn_engine w) !! id = Some r -> terminal (jb_state r) = false ->
  jb_active_collective r = Some c -> busy r = true.
Proof.
  intros Hw Hr Ht Hc. pose proof (eo_jobs _ _ Hw id r Hr) as Hj. rewrite (job_busy _ _ _ _ Hj), Ht.
  destruct (queued (jb_state r)) eqn:Hq; [| done]. destruct (jo_queued _ _ _ _ Hj Hq). congruence.
Qed.

(** C13: GPUs are used exclusively.  In every reachable state the assignment
    table holds exactly the GPUs of the jobs that run, each with its job; two
    jobs that run share no GPU; a job that runs names as many distinct GPUs as it
    has workers; and with a scheduler, the owners in the inventory are the
    entries of the assignment table. *)
Theorem gpus_exclusive w taken :
  reachable_engine w taken ->
  let en := tn_engine w in
  (forall gpu id, en_assignments_ en !! gpu = Some id <->
     exists r, en_jobs_ en !! id = Some r /\ busy r = true /\ gpu ∈ js_workers (jb_spec r)) /\
  (forall id1 id2 r1 r2 gpu, en_jobs_ en !! id1 = Some r1 -> en_jobs_ en !! id2 = Some r2 ->
     busy r1 = true -> busy r2 = true ->
     gpu ∈ js_workers (jb_spec r1) -> gpu ∈ js_workers (jb_spec r2) -> id1 = id2) /\
  (forall id r, en_jobs_ en !! id = Some r -> busy r = true ->
     zlength (js_workers (jb_spec r)) = zlength (js_compute (jb_spec r)) /\ NoDup (js_workers (jb_spec r))) /\
  (forall inventory gpu id, en_inventory_ en = Some inventory ->
     owned_by inventory gpu id <-> en_assignments_ en !! gpu = Some id).
Proof.
  intros Hw%reachable_engine_ok en. pose proof (eo_tables _ _ Hw) as Ht. unfold engine_tables in Ht.
  assert (forall gpu id, en_assignments_ en !! gpu = Some id <->
    exists r, en_jobs_ en !! id = Some r /\ busy r = true /\ gpu ∈ js_workers (jb_spec r)) as Ha.
  { intros gpu id. etrans; [apply (tb_assign _ _ _ _ _ _ Ht) | apply exists_busy]. }
  split; [exact Ha | split; [| split]].
  - intros id1 id2 r1 r2 gpu H1 H2 B1 B2 G1 G2.
    assert (en_assignments_ en !! gpu = Some id1) by (apply Ha; eauto).
    assert (en_assignments_ en !! gpu = Some id2) by (apply Ha; eauto). congruence.
  - intros id r Hr Hb. pose proof (eo_jobs _ _ Hw id r Hr) as Hj. destruct (jo_step _ _ _ _ Hj Hb) as [Hs _].
    split; [exact (st_workers _ _ _ _ Hs) |]. pose proof (jo_spec _ _ _ _ Hj) as Hsp.
    destruct (so_workers _ Hsp) as [Hn | [Hnd _]]; [| done]. rewrite Hn. apply NoDup_nil_2.
  - intros inventory gpu id Hi. by apply (tb_inventory _ _ _ _ _ _ Ht).
Qed.

(** C28: jobs are reported exactly once.  In every reachable state, the reports
    handed out so far followed by those waiting name each job at most once, and
    are exactly the snapshots of the jobs that have ended; later steps only add
    reports. *)
Theorem jobs_reported_once w taken :
  reachable_engine w taken ->
  let log := taken ++ en_completed_ (tn_engine w) in
  NoDup (sn_id <$> log) /\
  (forall s, s ∈ log <-> exists r, en_jobs_ (tn_engine w) !! sn_id s = Some r /\
     terminal (jb_state r) = true /\ forall now, inspect r now = Ret s) /\
  (forall w' taken', rtc engine_step (w, taken) (w', taken') ->
     exists later, taken' ++ en_completed_ (tn_engine w') = log ++ later).
Proof.
  intros Hw log. apply reachable_engine_ok in Hw as Hok. pose proof (eo_tables _ _ Hok) as Ht. unfold engine_tables in Ht.
  split; [exact (tb_log_ids _ _ _ _ _ _ Ht) | split].
  - intros s. etrans; [apply (tb_log _ _ _ _ _ _ Ht) |].
    apply (exists_report _ _ (cs_now (tn_cluster w))). intros id r Hr.
    apply (jo_accounts _ _ _ _ (eo_jobs _ _ Hok id r Hr)).
  - intros w' taken' Hsteps. by destruct (engine_steps_ok _ _ Hsteps Hok).
Qed.

(** C29: snapshots account for all GPU time.  In every reachable state and for
    every later time, the snapshot of a known job is refused only when the
    allocated GPU time does not fit in 64 bits; otherwise compute and idle time
    add up to the time allocated, and the compute time is that of the completed
    steps and, for each worker, the part of its compute that had passed of the step
    under way, by now or when the job failed or was cancelled; a job that
    succeeded has done all of its steps and all of its compute. *)
Theorem snapshots_exact w taken id r now :
  reachable_engine w taken -> en_jobs_ (tn_engine w) !! id = Some r ->
  cs_now (tn_cluster w) <= now <= u64_max ->
  match job_snapshot id now (tn_engine w) with
  | Ret (Some s) =>
      sn_id s = id /\ sn_state s = jb_state r /\
      sn_compute_gpu_ns s + sn_idle_gpu_ns s = allocated r now /\
      sn_compute_gpu_ns s = worked r now /\ sn_completed_steps s = jb_step r /\
      0 <= sn_compute_gpu_ns s <= js_steps (jb_spec r) * compute_sum r /\ 0 <= sn_idle_gpu_ns s /\
      sn_completed_steps s <= js_steps (jb_spec r) /\
      (jb_state r = JobState_Succeeded ->
         sn_completed_steps s = js_steps (jb_spec r) /\
         sn_compute_gpu_ns s = js_steps (jb_spec r) * compute_sum r)
  | Ret None => False
  | Throw e => e = overflow_error "workload quantity overflow" /\ u64_max < allocated r now
  end.
Proof.
  intros Hw%reachable_engine_ok Hr Hnow. pose proof (eo_jobs _ _ Hw id r Hr) as Hj.
  pose proof (jo_accounts _ _ _ _ Hj) as Ha. pose proof (cs_now_u64 _ (eo_cluster _ _ Hw)) as Hu.
  assert (u64 now) as Hn by word_lia. unfold job_snapshot. rewrite Hr, (inspect_spec _ now r Ha ltac:(lia) Hn).
  pose proof (computed_bounds _ now r Ha ltac:(lia)) as [C1 C2]. pose proof (computed_worked _ now r Ha) as Hcw.
  destruct (Z.ltb_spec u64_max (allocated r now)) as [Hlt | Hle]; [done |].
  unfold expected_snapshot. cbn. rewrite (jo_id _ _ _ _ Hj). destruct (ac_steps _ _ Ha) as [S1 S2].
  split_and!; try done; try lia. intros Hs. destruct (ac_succeeded _ _ Ha Hs) as [E1 E2]. split; [done |].
  unfold computed, busy. rewrite Hs, andb_false_r. lia.
Qed.

(** C14: no job is stuck.  In every reachable state, a job that has not ended
    waits for something that will come: before its arrival, for the arrival
    event, which is in the queue for its arrival time; once it runs, for an
    event of the bucket that is next, which is in the queue for the end of its
    share of the compute phase, not in the past, or for the collective of that
    bucket, which the executor knows and which the engine will route back to
    this job; else it is among the jobs the scheduler considers. *)
Theorem jobs_never_stuck w taken id r :
  reachable_engine w taken -> en_jobs_ (tn_engine w) !! id = Some r -> terminal (jb_state r) = false ->
  let x := tn_cluster w in
  (exists e, jb_arrival_event r = Some e /\
     scheduled (cs_live x) e (js_arrival (jb_spec r)) (arrival_payload id)) \/
  (r ∈ waiting_jobs (en_jobs_ (tn_engine w))) \/
  (exists worker e, cell r worker (index_of r (jb_completed_buckets r)) = Some (Some e) /\
     scheduled (cs_live x) e (due r worker (index_of r (jb_completed_buckets r)))
       (compute_payload id r worker (index_of r (jb_completed_buckets r))) /\
     cs_now x <= due r worker (index_of r (jb_completed_buckets r))) \/
  (exists c, jb_active_collective r = Some c /\ en_collectives_ (tn_engine w) !! c = Some id /\ cs_known x c).
Proof. intros Hw%reachable_engine_ok. by apply (waits_for w taken). Qed.
End States.

(** ** Admission order *)

Section Order.
Implicit Types (a b c r : JobRecord) (J : gmap JobId JobRecord).

Lemma considered_before_key a b : considered_before a b = true <->
  js_priority (jb_spec b) < js_priority (jb_spec a) \/
  js_priority (jb_spec a) = js_priority (jb_spec b) /\
    (js_arrival (jb_spec a) < js_arrival (jb_spec b) \/
     js_arrival (jb_spec a) = js_arrival (jb_spec b) /\ jb_id a < jb_id b).
Proof.
  unfold considered_before. destruct (Z.eqb_spec (js_priority (jb_spec a)) (js_priority (jb_spec b))); cbn [negb].
  - destruct (Z.eqb_spec (js_arrival (jb_spec a)) (js_arrival (jb_spec b))); cbn [negb]; lia.
  - lia.
Qed.

Lemma considered_not_after_key a b : considered_not_after a b <->
  js_priority (jb_spec b) < js_priority (jb_spec a) \/
  js_priority (jb_spec a) = js_priority (jb_spec b) /\
    (js_arrival (jb_spec a) < js_arrival (jb_spec b) \/
     js_arrival (jb_spec a) = js_arrival (jb_spec b) /\ jb_id a <= jb_id b).
Proof. unfold considered_not_after. rewrite <- not_true_iff_false, considered_before_key. lia. Qed.

#[local] Instance considered_not_after_trans : Transitive considered_not_after.
Proof. intros a b c. rewrite !considered_not_after_key. lia. Qed.

#[local] Instance considered_not_after_total : Total considered_not_after.
Proof. intros a b. rewrite !considered_not_after_key. lia. Qed.

(** Higher priority first, then the earlier arrival, then the smaller identifier. *)
Definition ahead a b : Prop :=
  js_priority (jb_spec a) > js_priority (jb_spec b) \/
  js_priority (jb_spec a) = js_priority (jb_spec b) /\
    (js_arrival (jb_spec a) < js_arrival (jb_spec b) \/
     js_arrival (jb_spec a) = js_arrival (jb_spec b) /\ jb_id a < jb_id b).

Lemma sorted_ahead l : StronglySorted considered_not_after l -> NoDup (jb_id <$> l) -> StronglySorted ahead l.
Proof.
  induction 1 as [| a l Hs IH Hall]; [constructor |]. rewrite fmap_cons. intros [Hn Hnd]%NoDup_cons. constructor; [by apply IH |].
  rewrite Forall_forall in *. intros b Hb. specialize (Hall b Hb). apply considered_not_after_key in Hall.
  assert (jb_id a <> jb_id b) by (intros Heq; apply Hn; rewrite Heq; by apply list_elem_of_fmap_2). unfold ahead. lia.
Qed.

(** C34: waiting jobs are considered in a fixed order.  In every reachable state
    the list that admission walks through holds each waiting job once, jobs of
    higher priority before those of lower priority, then by arrival, then by
    identifier; it is the only such list, so the order in which the jobs are
    stored does not matter. *)
Theorem admission_order {X} `{ClusterLaws X} (w : Training X) taken :
  reachable_engine w taken ->
  let J := en_jobs_ (tn_engine w) in
  (forall r, r ∈ waiting_jobs J <-> jb_state r = JobState_Waiting /\ exists id, J !! id = Some r) /\
  NoDup (jb_id <$> waiting_jobs J) /\
  StronglySorted ahead (waiting_jobs J) /\
  (forall l, NoDup l -> StronglySorted ahead l ->
     (forall r, r ∈ l <-> jb_state r = JobState_Waiting /\ exists id, J !! id = Some r) -> l = waiting_jobs J).
Proof.
  intros Hw%reachable_engine_ok J. pose proof (tb_ids _ _ _ _ _ _ (eo_tables _ _ Hw)) as Hids. fold J in Hids.
  assert (NoDup (jb_id <$> waiting_jobs J)) as Hnd by (by apply waiting_jobs_ids).
  assert (StronglySorted ahead (waiting_jobs J)) as Hsort.
  { apply sorted_ahead; [| done]. apply Sorted_StronglySorted; [apply _ |]. apply Sorted_merge_sort, _. }
  split; [apply waiting_jobs_elem | split; [done | split; [exact Hsort |]]].
  intros l Hl Hs Hin. apply (StronglySorted_unique_strong ahead); [| exact Hs | exact Hsort |].
  - intros a b _ _. unfold ahead. lia.
  - apply NoDup_Permutation; [done | by apply NoDup_fmap_1 in Hnd |]. intros r. by rewrite Hin, waiting_jobs_elem.
Qed.
End Order.

(** ** Specifications and shares *)

(** C35: validation accepts exactly the specifications that can be run.  For a
    specification of machine words and limits within the bounds the constructor
    checks, [validate] returns the number of buckets, the gradient bytes over the
    bucket bytes rounded up, if and only if workers, compute times, steps, bytes
    and events are within the limits, the pinned GPUs are known and distinct, and
    no total overflows; in every other case it throws. *)
Theorem validation_exact g spec limits scheduling :
  spec_words spec -> 0 <= wl_workers_per_job limits <= 8192 -> u32 (wl_buckets_per_step limits) ->
  u64 (wl_compute_events_per_job limits) ->
  match validate g limits scheduling spec with
  | Ret b => valid_spec g spec limits scheduling /\
      (b - 1) * js_bucket_bytes spec < js_gradient_bytes spec <= b * js_bucket_bytes spec
  | Throw _ => ~ valid_spec g spec limits scheduling
  end.
Proof.
  intros Hwd H1 H2 H3. pose proof (validate_spec g spec Hwd limits scheduling H1 H2 H3) as Hv.
  destruct (validate g limits scheduling spec) as [b | e]; [| done]. destruct Hv as [Hv ->]. split; [done |].
  destruct (vs_bytes _ _ _ _ Hv) as (G1 & G2 & _). destruct (sw_bytes _ Hwd) as (W1 & W2 & _).
  pose proof (bucket_count_range spec ltac:(word_lia) ltac:(word_lia)). lia.
Qed.

(** The shares of a compute phase end on time.  For any duration of 64 bits
    and any number of shares of 32 bits, the end of share [index] is the exact
    quotient, rounded up, computed without overflow; the ends are in order, and
    the last share ends with the phase. *)
Theorem shares_exact duration n index :
  u64 duration -> 0 < n <= u32_max -> 0 <= index < n ->
  exists at_, compute_offset duration n index = Ret at_ /\
    n * (at_ - 1) < duration * (index + 1) <= n * at_ /\ 0 <= at_ <= duration /\
    (index = n - 1 -> at_ = duration) /\
    (forall index' at', 0 <= index' <= index -> compute_offset duration n index' = Ret at' -> at' <= at_).
Proof.
  intros Hd Hn Hi. exists (share_end duration n index). rewrite compute_offset_spec by done.
  split; [done | split; [| split; [apply share_end_bounds; word_lia | split]]].
  - unfold share_end. pose proof (Z.div_mod (duration * (index + 1) + (n - 1)) n ltac:(lia)) as Hdm.
    pose proof (Z.mod_pos_bound (duration * (index + 1) + (n - 1)) n ltac:(lia)). lia.
  - intros ->. apply share_end_last. lia.
  - intros i at' Hi'. rewrite compute_offset_spec by (done || lia). intros [= <-]. apply share_end_mono; word_lia.
Qed.

Lemma bucket_bytes_sum G B (k : nat) : 0 < B -> 0 <= G -> (Z.of_nat k - 1) * B < G ->
  sumZ ((fun b => Z.min B (G - b * B)) <$> seqZ 0 (Z.of_nat k)) = Z.min G (Z.of_nat k * B).
Proof.
  intros HB HG. induction k as [| k IH]; intros Hk; [change (0 = Z.min G (0 * B)); lia |].
  rewrite seqZ_S, fmap_app, sumZ_app, IH by nia. cbn [fmap list_fmap]. rewrite sumZ_cons.
  change (sumZ []) with 0. nia.
Qed.

(** The buckets of a step are the gradient.  For a job whose specification
    was accepted, every bucket of a step has a size of at least one byte and at
    most the bucket size, computed without overflow, and the sizes add up to the
    gradient. *)
Theorem buckets_cover_gradient r :
  0 < js_gradient_bytes (jb_spec r) <= u64_max -> 0 < js_bucket_bytes (jb_spec r) <= u64_max ->
  exists sizes, zlength sizes = bucket_count (jb_spec r) /\ sumZ sizes = js_gradient_bytes (jb_spec r) /\
    forall b, 0 <= b < bucket_count (jb_spec r) -> exists n, sizes !! Z.to_nat b = Some n /\
      bucket_size {| r with jb_completed_buckets := b |} = Ret n /\ 1 <= n <= js_bucket_bytes (jb_spec r).
Proof.
  intros Hg Hb. destruct (bucket_count_range (jb_spec r) Hg Hb) as (B1 & B2 & B3).
  set (G := js_gradient_bytes (jb_spec r)) in *. set (B := js_bucket_bytes (jb_spec r)) in *.
  set (k := bucket_count (jb_spec r)) in *. exists ((fun b => Z.min B (G - b * B)) <$> seqZ 0 k). split; [| split].
  - unfold zlength. rewrite length_fmap, length_seqZ. lia.
  - replace k with (Z.of_nat (Z.to_nat k)) by lia. rewrite bucket_bytes_sum by lia. nia.
  - intros b Hbk. exists (Z.min B (G - b * B)). rewrite list_lookup_fmap, lookup_seqZ_lt by lia. cbn.
    split; [do 2 f_equal; lia |]. assert (b * B < G) by nia.
    unfold bucket_size. cbn [jb_completed_buckets jb_spec]. fold B G. rewrite checked_product_ret by lia.
    rewrite u64_wrap_id by word_lia. split; [done | lia].
Qed.

(** ** A concrete run *)

Abbreviation Program := (Training (Ring (Routed (Kernel unit)))).

(** Two jobs of the first GPU arrive at time 5; the other worker of the first
    job sits at another NIC. *)
Definition pair_job : JobSpec :=
  mkJobSpec "pair" [0; 2] 0 [100; 120] 5 2 90 40 50 0 true AllReduce RingAlgorithm.

Definition rival_job : JobSpec :=
  mkJobSpec "rival" [0] 0 [10] 5 1 8 8 8 0 false AllReduce RingAlgorithm.

Definition demo_engine : WorkloadEngine :=
  mkWorkloadEngine default_workload_limits None None None false false 0 [] 0 0 ∅ ∅ ∅ [] [].

Definition train_start : Program := mkTraining demo_engine ring_start.

Definition train_pair : Program := fst (schedule_job pair_job train_start).

Definition train_rival : Program := fst (schedule_job rival_job train_pair).

(** The kernel takes the next event. *)
Definition demo_event (at_ : Z) (payload : EventPayload) (id : Z) : Event :=
  mkEvent at_ Normal id None payload.

Definition next_event (w : Program) : option Event :=
  match next_dispatchable_event (ring_kernel (tn_cluster w)) with
  | (_, Ret r) => r
  | _ => None
  end.

Definition after_dispatch (ev : Event) (w : Program) : Program :=
  let x := tn_cluster w in
  mkTraining (tn_engine w) (set_ring_kernel (with_current ev (fst (next_dispatchable_event (ring_kernel x)))) x).

Definition arrival_of (id : JobId) : WorkloadEvent := mkWorkloadEvent id Arrival 0 0 0.

Lemma next_event_dispatched (w : Program) ev :
  cs_ok (tn_cluster w) -> next_event w = Some ev ->
  WorkloadHandlers.dispatched ev (tn_cluster w) (tn_cluster (after_dispatch ev w)).
Proof.
  intros Hok Hn. pose proof (cluster_ctx_ok _ Hok) as Hk.
  destruct (next_dispatchable_spec (ring_kernel (tn_cluster w))) as (r & k1 & Hr & Hsel); [by destruct Hk |].
  unfold next_event, after_dispatch in *. rewrite Hr in *. subst r.
  by apply (kernel_dispatches ev _ k1).
Qed.

Definition train_admitted : Program :=
  fst (handle_workload (arrival_of 0) (after_dispatch (demo_event 5 (Workload_ (arrival_of 0)) 0) train_rival)).

Definition train_refused : Program :=
  fst (handle_workload (arrival_of 1) (after_dispatch (demo_event 5 (Workload_ (arrival_of 1)) 1) train_admitted)).

Lemma demo_cluster_ok : cs_ok ring_start.
Proof.
  split.
  - exists []. apply (new_executor_ok default_collective_configuration false); [reflexivity | exact ring_routed_fine].
  - apply (new_owns (build ring_topology) (demo_link <$> clos_links) clos_limits false). vm_compute. reflexivity.
Qed.

Lemma train_start_reachable : reachable_engine train_start [].
Proof.
  constructor. exists ring_topology, default_workload_limits, None, None, false, demo_engine, ring_start.
  split; [reflexivity | split; [exact demo_cluster_ok |]]. unfold u32, u64, u32_max, u64_max. cbn.
  split_and!; try lia. apply rtc_refl.
Qed.

Ltac words := split; repeat apply Forall_cons_2; try apply Forall_nil_2; unfold u32, u64;
  repeat split; vm_compute; discriminate.

Lemma pair_words : spec_words pair_job.
Proof. words. Qed.

Lemma rival_words : spec_words rival_job.
Proof. words. Qed.

Lemma train_rival_reachable : reachable_engine train_rival [].
Proof.
  eapply (reachable_engine_step train_pair []); [eapply (reachable_engine_step train_start []) |].
  - exact train_start_reachable.
  - apply (engine_step_schedule pair_job _ _ _ 0 pair_words).
    refine (run_of_snd (schedule_job pair_job) train_start _ _). vm_compute. reflexivity.
  - apply (engine_step_schedule rival_job _ _ _ 1 rival_words).
    refine (run_of_snd (schedule_job rival_job) train_pair _ _). vm_compute. reflexivity.
Qed.

(** An arrival that is next and whose handler returns. *)
Lemma arrival_reachable (w : Program) ev we :
  reachable_engine w [] -> next_event w = Some ev -> ev_payload ev = Workload_ we ->
  snd (handle_workload we (after_dispatch ev w)) = Ret tt ->
  reachable_engine (fst (handle_workload we (after_dispatch ev w))) [].
Proof.
  intros Hw Hn Hp Hr. eapply reachable_engine_step; [exact Hw |]. destruct w as [en x0].
  apply (engine_step_event ev we en x0 (tn_cluster (after_dispatch ev (mkTraining en x0)))).
  - apply (next_event_dispatched (mkTraining en x0)); [| done].
    exact (eo_cluster _ _ (reachable_engine_ok _ _ Hw)).
  - done.
  - by apply (run_of_snd (handle_workload we)).
Qed.

Lemma train_refused_reachable : reachable_engine train_refused [].
Proof.
  apply arrival_reachable; [apply arrival_reachable; [exact train_rival_reachable | | |] | | |]; vm_compute; reflexivity.
Qed.

(** The first job is cancelled at time 30, in its first step. *)
Definition train_controlled : Program := fst (schedule_control 0 Cancel 30 0 train_refused).

Definition cancel_event : WorkloadEvent := mkWorkloadEvent 0 Cancel 0 0 0.

Definition cancel_dispatched : Event :=
  default (demo_event 30 (Workload_ cancel_event) 0) (next_event train_controlled).

Definition train_cancelled : Program :=
  fst (handle_workload cancel_event (after_dispatch cancel_dispatched train_controlled)).

Lemma train_cancelled_reachable : reachable_engine train_cancelled [].
Proof.
  apply arrival_reachable; [| vm_compute; reflexivity ..].
  eapply (reachable_engine_step train_refused []); [exact train_refused_reachable |].
  assert (exists e, snd (schedule_control 0 Cancel 30 0 train_refused) = Ret e) as [e He] by (eexists; vm_compute; reflexivity).
  apply (engine_step_control 0 Cancel 30 0 _ _ _ e); [split; vm_compute; discriminate |].
  exact (run_of_snd (schedule_control 0 Cancel 30 0) train_refused e He).
Qed.

(** With a scheduler: the jobs wait, the later one with the higher priority. *)
Definition eager_job : JobSpec :=
  mkJobSpec "eager" [] 2 [10; 10] 5 1 8 8 8 7 false AllReduce RingAlgorithm.

Definition patient_job : JobSpec :=
  mkJobSpec "patient" [] 1 [10] 5 1 8 8 8 0 false AllReduce RingAlgorithm.

Definition demo_scheduling : SchedulingConfiguration := mkSchedulingConfiguration "first-fit" 1 100 100.

Definition queue_engine : WorkloadEngine :=
  match new_workload_engine (build ring_topology) default_workload_limits (Some demo_scheduling) None false with
  | Ret en => en
  | Throw _ => demo_engine
  end.

Definition queue_start : Program := mkTraining queue_engine ring_start.

Definition queue_scheduled : Program :=
  fst (schedule_job eager_job (fst (schedule_job patient_job queue_start))).

Definition queue_one : Program :=
  fst (handle_workload (arrival_of 0) (after_dispatch (demo_event 5 (Workload_ (arrival_of 0)) 0) queue_scheduled)).

Definition queue_waiting : Program :=
  fst (handle_workload (arrival_of 1) (after_dispatch (demo_event 5 (Workload_ (arrival_of 1)) 1) queue_one)).

Lemma queue_engine_made :
  new_workload_engine (build ring_topology) default_workload_limits (Some demo_scheduling) None false = Ret queue_engine.
Proof.
  assert (match new_workload_engine (build ring_topology) default_workload_limits (Some demo_scheduling) None false with
    | Ret _ => true | Throw _ => false end = true) as Hm by (vm_compute; reflexivity).
  unfold queue_engine. by destruct (new_workload_engine _ _ _ _ _).
Qed.

Lemma queue_waiting_reachable : reachable_engine queue_waiting [].
Proof.
  apply arrival_reachable; [apply arrival_reachable; [| vm_compute; reflexivity ..] | vm_compute; reflexivity ..].
  eapply (reachable_engine_step (fst (schedule_job patient_job queue_start)) []);
    [eapply (reachable_engine_step queue_start []) |].
  - constructor. exists ring_topology, default_workload_limits, (Some demo_scheduling), None, false, queue_engine, ring_start.
    split; [exact queue_engine_made | split; [exact demo_cluster_ok |]]. unfold u32, u64, u32_max, u64_max. cbn.
    split_and!; try lia. apply rtc_refl.
  - apply (engine_step_schedule patient_job _ _ _ 0); [words |].
    refine (run_of_snd (schedule_job patient_job) queue_start _ _). vm_compute. reflexivity.
  - apply (engine_step_schedule eager_job _ _ _ 1); [words |].
    refine (run_of_snd (schedule_job eager_job) _ _ _). vm_compute. reflexivity.
Qed.

(** ** Witnesses *)

Definition pair_record : JobRecord :=
  default (new_job_record 0 pair_job) (en_jobs_ (tn_engine train_refused) !! 0).

Lemma gpus_exclusive_witness :
  en_assignments_ (tn_engine train_refused) !! 2 = Some 0 /\ busy pair_record = true /\
  NoDup (js_workers (jb_spec pair_record)).
Proof.
  split; [vm_compute; reflexivity | split; [vm_compute; reflexivity |]].
  destruct (gpus_exclusive train_refused [] train_refused_reachable) as (_ & _ & Hall & _).
  apply (Hall 0 pair_record); vm_compute; reflexivity.
Defined.

Lemma jobs_reported_once_witness :
  NoDup (sn_id <$> [] ++ en_completed_ (tn_engine train_refused)) /\
  (sn_id <$> en_completed_ (tn_engine train_refused)) = [1].
Proof.
  split; [| vm_compute; reflexivity]. apply (jobs_reported_once train_refused [] train_refused_reachable).
Defined.

Definition cancelled_record : JobRecord :=
  default (new_job_record 0 pair_job) (en_jobs_ (tn_engine train_cancelled) !! 0).

(** Both workers computed for the 25 ns before the job was cancelled. *)
Lemma snapshots_exact_witness :
  exists s, job_snapshot 0 100 (tn_engine train_cancelled) = Ret (Some s) /\
    sn_state s = JobState_Cancelled /\ sn_compute_gpu_ns s = worked cancelled_record 100 /\ sn_compute_gpu_ns s = 50.
Proof.
  assert (en_jobs_ (tn_engine train_cancelled) !! 0 = Some cancelled_record) as Hr by (vm_compute; reflexivity).
  assert (cs_now (tn_cluster train_cancelled) <= 100 <= u64_max) as Hn by (split; vm_compute; discriminate).
  pose proof (snapshots_exact train_cancelled [] 0 cancelled_record 100 train_cancelled_reachable Hr Hn) as Hs.
  assert (worked cancelled_record 100 = 50) as Hc by (vm_compute; reflexivity).
  assert (jb_state cancelled_record = JobState_Cancelled) as Hst by (vm_compute; reflexivity).
  assert (allocated cancelled_record 100 = 50) as Ha by (vm_compute; reflexivity).
  destruct (job_snapshot 0 100 (tn_engine train_cancelled)) as [[s |] | e].
  - exists s. destruct Hs as (_ & Hs & _ & Heq & _). split; [reflexivity | split; [congruence | split; [exact Heq | congruence]]].
  - destruct Hs.
  - exfalso. destruct Hs as [_ Hlt]. rewrite Ha in Hlt. revert Hlt. vm_compute. discriminate.
Defined.

(** The first share of the faster worker ends at 5 + 34. *)
Lemma jobs_never_stuck_witness :
  exists worker e, cell pair_record worker 0 = Some (Some e) /\
    cs_now (tn_cluster train_refused) <= due pair_record worker 0 /\ due pair_record 0 0 = 39.
Proof.
  assert (en_jobs_ (tn_engine train_refused) !! 0 = Some pair_record) as Hr by (vm_compute; reflexivity).
  assert (terminal (jb_state pair_record) = false) as Ht by (vm_compute; reflexivity).
  assert (index_of pair_record (jb_completed_buckets pair_record) = 0) as Hi by (vm_compute; reflexivity).
  destruct (jobs_never_stuck train_refused [] 0 pair_record train_refused_reachable Hr Ht)
    as [(e & He & _) | [Hw | [(worker & e & Hc & _ & Hd) | (c & Hc & _)]]].
  - exfalso. vm_compute in He. discriminate He.
  - exfalso. apply waiting_jobs_elem in Hw as [Hw _]. vm_compute in Hw. discriminate Hw.
  - rewrite Hi in Hc, Hd. exists worker, e. split; [exact Hc | split; [exact Hd |]]. vm_compute. reflexivity.
  - exfalso. vm_compute in Hc. discriminate Hc.
Defined.

Lemma admission_order_witness :
  StronglySorted ahead (waiting_jobs (en_jobs_ (tn_engine queue_waiting))) /\
  ((fun r => (js_priority (jb_spec r), jb_id r)) <$> waiting_jobs (en_jobs_ (tn_engine queue_waiting))) = [(7, 1); (0, 0)].
Proof.
  split; [| vm_compute; reflexivity]. apply (admission_order queue_waiting [] queue_waiting_reachable).
Defined.

Lemma validation_exact_witness :
  validate (build ring_topology) default_workload_limits None pair_job = Ret 3 /\
  valid_spec (build ring_topology) pair_job default_workload_limits None.
Proof.
  assert (validate (build ring_topology) default_workload_limits None pair_job = Ret 3) as Hv by (vm_compute; reflexivity).
  split; [exact Hv |].
  pose proof (validation_exact (build ring_topology) pair_job default_workload_limits None pair_words
    ltac:(split; vm_compute; discriminate) ltac:(split; vm_compute; discriminate)
    ltac:(split; vm_compute; discriminate)) as H. rewrite Hv in H. apply H.
Defined.

