(* ===== verification/Dispatcher.v ===== *)
(** * The training dispatcher

    [workload/dispatcher.hpp]: the events of the kernel go to workload engine,
    collective executor or transport; [pump] then hands the outcomes of transport
    to the executor and those of the executor to the engine. *)

From S2P Require Import Prelude SimTime Entities TelemetryRecords EventQueue SimContext LinkQueue LinkService.
From S2P Require Import Topology Transport CollectivePlan RoutingPolicy Router CollectiveRuntime Scheduling.
From S2P Require Import Workload WorkloadRuntime WorkloadLaws WorkloadInv WorkloadSteps WorkloadReach.

Section Dispatcher.
Context {C : Type} `{SimContext C}.

(** All the components of a training program; the kernel is the context. *)
Abbreviation Program := (Training (Ring (Routed C))).

Definition on_transport {A} (m : M (Transport C) A) : M Program A :=
  with_cluster (with_fabric (with_transport m)).

(** The first loop of [pump]. *)
Definition pump_transfers : M Program unit :=
  let! completions := on_transport take_completed_transfers in
  for_each completions (fun completion => with_cluster (handle_transfer completion)).

(** One turn of the second loop; whether the loop goes on. *)
Definition pump_turn : M Program bool :=
  do! dispatch_waiting in
  let! completed := with_cluster take_completed in
  if bool_decide (completed = []) then ret false else
  do! for_each completed handle_result in
  ret true.

Fixpoint pump_loop (fuel : nat) (w : Program) : option (Program * outcome unit) :=
  match fuel with
  | O => None
  | S n =>
      match pump_turn w with
      | (w', Ret true) => pump_loop n w'
      | (w', Ret false) => Some (w', Ret tt)
      | (w', Throw e) => Some (w', Throw e)
      end
  end.

(** The collectives under way and the buckets of all jobs bound the turns. *)
Definition pump_fuel (en : WorkloadEngine) : nat :=
  S (size (en_collectives_ en) + sum_list_with (fun p => length (jb_ready (snd p))) (map_to_list (en_jobs_ en))).

(** The source has no bound: [None] would be a loop without end. *)
Definition pump_results : M Program unit := fun w =>
  match pump_loop (pump_fuel (tn_engine w)) w with
  | Some r => r
  | None => (w, Throw (logic_error "pump does not end"))
  end.

Definition pump : M Program unit :=
  do! pump_transfers in
  pump_results.

Definition training_dispatcher (event : EventPayload) : M Program unit :=
  match event with
  | NoOpEvent _ => throw (logic_error "unexpected no-op in training simulation")
  | Workload_ e => do! handle_workload e in pump
  | LocalCompletion_ e => do! with_cluster (handle_local e) in pump
  | ChunkArrival_ e => do! on_transport (handle_arrival e) in pump
  | TransmissionComplete_ e => do! on_transport (handle_completion e) in pump
  | LinkStateChange_ e => do! on_transport (handle_link_state_change e) in pump
  | PortStateChange_ e => do! on_transport (handle_port_state_change e) in pump
  | SwitchStateChange_ e => do! on_transport (handle_switch_state_change e) in pump
  end.
End Dispatcher.

(** ** The loop of the dispatcher ends

    Every result that the loop hands to the engine is the end of a collective,
    and a collective is started for a bucket that all workers have computed:
    collectives under way and computed buckets only decrease. *)

(** ** The work left *)

Section Weight.
Implicit Types (r : JobRecord) (J : gmap JobId JobRecord) (id : JobId).

Definition next_bucket r : nat :=
  Z.to_nat (jb_completed_buckets r + Z.b2z (has_value (jb_active_collective r))).

(** All workers have computed the bucket. *)
Definition all_computed r (n : Z) : Prop := n = zlength (js_workers (jb_spec r)) /\ n <> 0.

(** The computed buckets for which no collective was started. *)
Definition ready_buckets r : nat :=
  if terminal (jb_state r) then O else length (filter (all_computed r) (drop (next_bucket r) (jb_ready r))).

Definition jobs_weight J : nat := sum_list_with (fun p => ready_buckets (snd p)) (map_to_list J).

Definition weight (en : WorkloadEngine) : nat := (size (en_collectives_ en) + jobs_weight (en_jobs_ en))%nat.

Lemma jobs_weight_split J id r : J !! id = Some r -> (jobs_weight J = ready_buckets r + jobs_weight (delete id J))%nat.
Proof.
  intros Hr. unfold jobs_weight. by rewrite <- (map_to_list_delete _ _ _ Hr).
Qed.

Lemma jobs_weight_put J id r r' : J !! id = Some r ->
  (jobs_weight (<[id := r']> J) + ready_buckets r = jobs_weight J + ready_buckets r')%nat.
Proof.
  intros Hr. rewrite (jobs_weight_split (<[id := r']> J) id r') by apply lookup_insert_eq.
  rewrite delete_insert_eq, (jobs_weight_split J id r Hr). lia.
Qed.

Lemma alter_known J id r f : J !! id = Some r -> alter f id J = <[id := f r]> J.
Proof. intros Hr. rewrite <- (insert_id J id r Hr) at 1. by rewrite alter_insert_eq. Qed.

Lemma jobs_weight_alter J id f : (forall r, ready_buckets (f r) <= ready_buckets r)%nat ->
  (jobs_weight (alter f id J) <= jobs_weight J)%nat.
Proof.
  intros Hf. destruct (J !! id) as [r |] eqn:Hr; [| rewrite (alter_id f J id); [done |]; intros ? E; congruence].
  pose proof (jobs_weight_put J id r (f r) Hr) as Hp. rewrite (alter_known J id r f Hr). specialize (Hf r). lia.
Qed.

Lemma weight_fuel en : (weight en < S (size (en_collectives_ en) +
  sum_list_with (fun p => length (jb_ready (snd p))) (map_to_list (en_jobs_ en))))%nat.
Proof.
  unfold weight, jobs_weight. induction (map_to_list (en_jobs_ en)) as [| [id r] l IH]; cbn; [lia |].
  enough (ready_buckets r <= length (jb_ready r))%nat by lia. unfold ready_buckets. destruct (terminal _); [lia |].
  rewrite length_filter, length_drop. lia.
Qed.
End Weight.

(** ** Operations that leave the work as it is *)

Section Keeps.
Context {X : Type} `{Cluster X} (id : JobId).
Implicit Types (w : Training X).

Abbreviation jobs w := (en_jobs_ (tn_engine w)).

Definition kept_work w w' : Prop :=
  weight (tn_engine w') = weight (tn_engine w) /\ (ready_buckets <$> jobs w' !! id) = (ready_buckets <$> jobs w !! id).

Definition keeps_work {A} (m : M (Training X) A) : Prop := forall w, kept_work w (fst (m w)).

Lemma keeps_still {A} (m : M (Training X) A) : (forall w, fst (m w) = w) -> keeps_work m.
Proof. intros Hm w. by rewrite Hm. Qed.

Lemma keeps_bind {A B} (m : M (Training X) A) (k : A -> M (Training X) B) :
  keeps_work m -> (forall a, keeps_work (k a)) -> keeps_work (bind m k).
Proof.
  intros Hm Hk w. specialize (Hm w). unfold bind. destruct (m w) as [w' [a | e]]; [| exact Hm]. cbn in Hm.
  destruct Hm as [E1 E2], (Hk a w') as [E3 E4]. split; congruence.
Qed.

Lemma keeps_when b (m : M (Training X) unit) : keeps_work m -> keeps_work (when b m).
Proof. intros Hm. destruct b; [done | by apply keeps_still]. Qed.

Lemma keeps_for_each {A} (l : list A) (f : A -> M (Training X) unit) :
  (forall a, keeps_work (f a)) -> keeps_work (for_each l f).
Proof. intros Hf. induction l as [| a l IH]; [by apply keeps_still |]. cbn. by apply keeps_bind. Qed.

Lemma keeps_cluster {A} (m : M X A) : keeps_work (with_cluster m).
Proof. intros w. unfold with_cluster, zoom. by destruct (m (tn_cluster w)). Qed.

Lemma keeps_engine f : (forall en, en_jobs_ (f en) = en_jobs_ en /\ en_collectives_ (f en) = en_collectives_ en) ->
  keeps_work (modify_engine f).
Proof. intros Hf w. destruct (Hf (tn_engine w)) as [E1 E2]. unfold kept_work, weight. cbn. by rewrite E1, E2. Qed.

Lemma keeps_job f : (forall r, ready_buckets (f r) = ready_buckets r) -> keeps_work (modify_job id f).
Proof.
  intros Hf w. unfold kept_work, weight. cbn. destruct (jobs w !! id) as [r |] eqn:Hr.
  - rewrite (alter_known _ id r f Hr), lookup_insert_eq. cbn. rewrite Hf. split; [| done].
    pose proof (jobs_weight_put (jobs w) id r (f r) Hr) as Hp. rewrite Hf in Hp. lia.
  - rewrite (alter_id f (jobs w) id); [by rewrite Hr |]. intros ? E. congruence.
Qed.

Lemma wp_keeps {A} (m : M (Training X) A) (Q : Training X -> A -> Prop) w :
  keeps_work m -> (forall w' a, kept_work w w' -> Q w' a) -> wp m Q (fun _ _ => True) w.
Proof. intros Hm HQ. unfold wp. specialize (Hm w). destruct (m w) as [w' [a | e]]; [by apply HQ | done]. Qed.
End Keeps.

Create HintDb work.

Ltac keeps_step :=
  match goal with
  | |- keeps_work _ (bind _ _) => apply keeps_bind; [| intros ?]
  | |- keeps_work _ (when _ _) => apply keeps_when
  | |- keeps_work _ (for_each _ _) => apply keeps_for_each; intros ?
  | |- keeps_work _ (with_cluster _) => apply keeps_cluster
  | |- keeps_work _ (modify_engine _) => apply keeps_engine; intros ?; by split
  | |- keeps_work _ (modify_job _ _) => apply keeps_job; by intros ?
  | |- keeps_work _ (throw_if ?b _) => apply keeps_still; by destruct b
  | |- keeps_work _ (of_option _ ?o) => apply keeps_still; by destruct o
  | |- keeps_work _ (job_at _) => unfold job_at
  | |- keeps_work _ (match ?o with _ => _ end) => destruct o
  | |- keeps_work _ _ => by eauto with work
  | |- keeps_work _ _ => by apply keeps_still
  end.

Ltac keeps_auto := cbv zeta; repeat keeps_step.

Section Telemetry.
Context {X : Type} `{Cluster X} (id : JobId).

Lemma keeps_record_all correlation os : keeps_work (X := X) id (record_all correlation os).
Proof. unfold record_all, read_cluster. keeps_auto. Qed.
#[local] Hint Resolve keeps_record_all : work.

Lemma keeps_correlation job c p : keeps_work (X := X) id (job_correlation job c p).
Proof. unfold job_correlation. keeps_auto. Qed.
#[local] Hint Resolve keeps_correlation : work.

Lemma keeps_emit_job id' transition worker : keeps_work (X := X) id (emit_job id' transition worker).
Proof. unfold emit_job, when_enabled, read_cluster. keeps_auto. Qed.

Lemma keeps_terminal_metrics s : keeps_work (X := X) id (emit_terminal_metrics s).
Proof. unfold emit_terminal_metrics, when_enabled, read_cluster. keeps_auto. Qed.

Lemma keeps_emit_placement decision n : keeps_work (X := X) id (emit_placement decision n).
Proof. unfold emit_placement, when_enabled, read_cluster. keeps_auto. Qed.

Lemma keeps_trace_job id' action : keeps_work (X := X) id (trace_job id' action).
Proof. unfold trace_job, read_cluster. keeps_auto. Qed.

Lemma keeps_cancel_pending e : keeps_work (X := X) id (cancel_pending e).
Proof. unfold cancel_pending. keeps_auto. Qed.

Lemma keeps_release id' : keeps_work (X := X) id (release_resources id').
Proof. unfold release_resources. keeps_auto. Qed.
End Telemetry.

#[export] Hint Resolve keeps_emit_job keeps_terminal_metrics keeps_emit_placement keeps_trace_job keeps_cancel_pending
  keeps_release : work.

(** ** Operations that change the work *)

Section Changes.
Context {X : Type} `{Cluster X}.
Implicit Types (w : Training X) (id : JobId) (r : JobRecord).

Abbreviation jobs w := (en_jobs_ (tn_engine w)).

(** Not more work than [n], however much the job [id] had. *)
Definition sheds id (n : nat) (m : M (Training X) unit) : Prop := forall w,
  wp m (fun w' _ => (weight (tn_engine w') + default O (ready_buckets <$> jobs w !! id) <= weight (tn_engine w) + n)%nat)
    (fun _ _ => True) w.

(** The record of [id] gets a state with no computed buckets. *)
Lemma sheds_job id f : (forall r, ready_buckets (f r) = O) -> sheds id O (modify_job id f).
Proof.
  intros Hf w. apply wp_modify. unfold weight. cbn. destruct (jobs w !! id) as [r |] eqn:Hr; cbn.
  - pose proof (jobs_weight_put (jobs w) id r (f r) Hr) as Hp. rewrite (alter_known _ id r f Hr), Hf in *. lia.
  - rewrite (alter_id f (jobs w) id); [lia |]. intros ? E. congruence.
Qed.

Lemma sheds_before {A} id n (m : M (Training X) A) (k : A -> M (Training X) unit) :
  keeps_work id m -> (forall a, sheds id n (k a)) -> sheds id n (bind m k).
Proof.
  intros Hm Hk w. apply wp_bind, (wp_keeps id); [done |]. intros w1 a [E1 E2]. eapply wp_conseq; [apply Hk | | done].
  intros w2 [] Hle. by rewrite <- E1, <- E2.
Qed.

Lemma sheds_after id n m (k : unit -> M (Training X) unit) :
  sheds id n m -> (forall a, keeps_work id (k a)) -> sheds id n (bind m k).
Proof.
  intros Hm Hk w. apply wp_bind. eapply wp_conseq; [apply Hm | | done]. intros w1 [] Hle.
  apply (wp_keeps id); [done |]. intros w2 [] [E1 _]. by rewrite E1.
Qed.

(** What shedding leaves does not depend on the record before. *)
Lemma sheds_modify id f (k : unit -> M (Training X) unit) :
  (forall a, sheds id O (k a)) -> sheds id O (bind (modify_job id f) k).
Proof.
  intros Hk w. wp_step. apply wp_modify. eapply wp_conseq; [apply Hk | | done]. cbn. intros w' [].
  unfold weight at 2 4. cbn. destruct (jobs w !! id) as [r |] eqn:Hr; cbn.
  - rewrite (alter_known _ id r f Hr), lookup_insert_eq. cbn. pose proof (jobs_weight_put (jobs w) id r (f r) Hr). lia.
  - rewrite (alter_id f (jobs w) id) by (intros ? E; congruence). rewrite Hr. cbn. lia.
Qed.

Definition lighter {A} (m : M (Training X) A) : Prop := forall w,
  wp m (fun w' _ => (weight (tn_engine w') <= weight (tn_engine w))%nat) (fun _ _ => True) w.

Lemma sheds_lighter id m : sheds id O m -> lighter m.
Proof. intros Hm w. eapply wp_conseq; [apply Hm | | done]. cbn. intros w' [] Hle. lia. Qed.

Lemma keeps_lighter {A} id (m : M (Training X) A) : keeps_work id m -> lighter m.
Proof. intros Hm w. apply (wp_keeps id); [done |]. intros w' a [E _]. lia. Qed.

Lemma lighter_bind {A B} (m : M (Training X) A) (k : A -> M (Training X) B) :
  lighter m -> (forall a, lighter (k a)) -> lighter (bind m k).
Proof.
  intros Hm Hk w. apply wp_bind. eapply wp_conseq; [apply Hm | | done]. intros w1 a H1. cbn in H1.
  eapply wp_conseq; [apply Hk | | done]. cbn. intros w2 b H2. lia.
Qed.

Lemma lighter_for_each {A} (l : list A) (f : A -> M (Training X) unit) :
  (forall a, lighter (f a)) -> lighter (for_each l f).
Proof.
  intros Hf. induction l as [| a l IH]; [apply (keeps_lighter 0); by apply keeps_still |]. cbn. by apply lighter_bind.
Qed.

Lemma finish_job_sheds id state reason : terminal state = true -> sheds id O (finish_job id state reason).
Proof.
  intros Ht w. unfold finish_job. wp_step. unfold job_at. wp_step. apply wp_gets. apply wp_of_option; [intros r Hr | done].
  destruct (terminal (jb_state r)) eqn:Hs.
  { apply wp_ret. rewrite Hr. cbn. unfold ready_buckets. rewrite Hs. lia. }
  match goal with |- wp ?m _ _ _ => enough (sheds id O m) as Hx by apply Hx end.
  apply sheds_before; [by apply keeps_still |]. intros now.
  apply sheds_before; [keeps_auto |]. intros _. apply sheds_before; [keeps_auto |]. intros _.
  apply sheds_before; [keeps_auto |]. intros _. apply sheds_before; [keeps_auto |]. intros _.
  apply sheds_before; [keeps_auto |]. intros _. apply sheds_before; [by apply keeps_still |]. intros now'.
  apply sheds_after; [apply sheds_job; intros r'; unfold ready_buckets; cbn; by rewrite Ht |]. intros _.
  unfold read_cluster. keeps_auto.
Qed.

Lemma start_step_sheds id : sheds id O (start_step id).
Proof.
  unfold start_step. apply sheds_before; [by apply keeps_still |]. intros now.
  apply sheds_after; [apply sheds_job; intros r |].
  - unfold ready_buckets, next_bucket, all_computed. cbn.
    rewrite drop_replicate. set (n := zlength (js_workers (jb_spec r))).
    rewrite filter_none; [done |]. intros x Hx%elem_of_replicate [-> Hne]. by destruct Hx as [-> _].
  - intros _. apply keeps_bind; [unfold job_at; keeps_auto |]. intros r. apply keeps_bind; [| intros _; keeps_auto].
    apply keeps_for_each. intros worker. apply keeps_for_each. intros index. unfold schedule_compute, read_cluster. keeps_auto.
Qed.

End Changes.

(** Goes over the calls that keep the work. *)
Ltac skip_kept id :=
  repeat lazymatch goal with
  | |- lighter (bind _ _) => apply lighter_bind; [apply (keeps_lighter id); by keeps_auto | intros ?]
  end.

Section Admission.
Context {X : Type} `{Cluster X}.
Implicit Types (w : Training X) (id : JobId) (r : JobRecord).

Abbreviation jobs w := (en_jobs_ (tn_engine w)).

Lemma apply_placement_lighter id placement : lighter (X := X) (apply_placement id placement).
Proof.
  unfold apply_placement. skip_kept id. destruct (pl_outcome placement).
  - apply (sheds_lighter id), sheds_modify. intros _. apply sheds_before; [unfold assign_workers; keeps_auto |]. intros _.
    apply sheds_before; [by apply keeps_still |]. intros now. apply sheds_before; [keeps_auto |]. intros _.
    apply sheds_before; [keeps_auto |]. intros _. apply sheds_before; [keeps_auto |]. intros _. apply start_step_sheds.
  - apply (keeps_lighter id). keeps_auto.
  - by apply (sheds_lighter id), finish_job_sheds.
Qed.

Lemma admit_job_lighter id : lighter (X := X) (admit_job id).
Proof.
  unfold admit_job, allocate_placement, read_cluster. cbv zeta. skip_kept id. apply apply_placement_lighter.
Qed.

Lemma dispatch_waiting_lighter : lighter (X := X) dispatch_waiting.
Proof.
  unfold dispatch_waiting. skip_kept 0. destruct (_ || _); [apply (keeps_lighter 0); keeps_auto |]. skip_kept 0.
  apply lighter_bind; [apply lighter_for_each; intros r; apply admit_job_lighter |]. intros _.
  apply (keeps_lighter 0). keeps_auto.
Qed.

(** ** Results *)

(** A job that can start a collective. *)
Definition startable r : Prop :=
  terminal (jb_state r) = false /\ 0 <= jb_completed_buckets r /\ js_workers (jb_spec r) <> [].

Lemma ready_buckets_start r c state :
  startable r -> jb_active_collective r = None -> terminal state = false ->
  jb_ready r !! Z.to_nat (jb_completed_buckets r) = Some (zlength (js_workers (jb_spec r))) ->
  S (ready_buckets {| r with jb_active_collective := Some c; jb_state := state |}) = ready_buckets r.
Proof.
  intros (Ht & Hc & Hw) Hn Hs Hready. unfold ready_buckets, next_bucket.
  cbn [jb_state jb_active_collective jb_completed_buckets jb_ready]. rewrite Ht, Hs, Hn.
  change (has_value (Some c)) with true. change (has_value (@None CollectiveId)) with false. cbn [Z.b2z].
  rewrite Z.add_0_r, Z2Nat.inj_add, Nat.add_1_r by lia.
  rewrite (drop_S _ _ _ Hready), filter_cons_True; [done |]. split; [done |]. unfold zlength. destruct (js_workers _); [done | cbn; lia].
Qed.

Lemma start_collective_lighter id r w :
  jobs w !! id = Some r -> startable r ->
  wp (start_collective id) (fun w' _ => (weight (tn_engine w') <= weight (tn_engine w))%nat) (fun _ _ => True) w.
Proof.
  intros Hr Hok. unfold start_collective. wp_step. unfold job_at. wp_step. apply wp_gets. rewrite Hr. apply wp_ret.
  destruct (jb_active_collective r) as [c0 |] eqn:Hn; [by apply wp_ret |]. change (has_value (@None CollectiveId)) with false. cbv iota.
  wp_step. apply wp_of_option; [intros ready Hready | done]. destruct (Z.eqb_spec ready (zlength (js_workers (jb_spec r)))) as [-> |]; cbn [negb]; [| by apply wp_ret].
  wp_step. apply wp_of_outcome; [intros bytes _ | done]. wp_step. apply wp_zoom. unfold wp at 1.
  destruct (cs_submit _ _) as [x [c | e]]; [| done]. wp_step. apply wp_modify. wp_step. apply wp_modify. wp_step. apply wp_modify. cbn.
  apply (wp_keeps id); [keeps_auto |]. intros w' [] [-> _]. unfold weight. cbn [en_jobs_ en_collectives_ tn_engine].
  rewrite (alter_known _ id r _ Hr), alter_insert_eq.
  match goal with |- context [<[id := ?r']> _] => set (r2 := r') end.
  pose proof (jobs_weight_put (jobs w) id r r2 Hr) as Hp.
  assert (S (ready_buckets r2) = ready_buckets r) as Hs.
  { apply (ready_buckets_start r c); [done | done | | done]. by destruct (compute_phase_done _). }
  assert (size (match en_collectives_ (tn_engine w) !! c with
    | Some _ => en_collectives_ (tn_engine w)
    | None => <[c := jb_id r]> (en_collectives_ (tn_engine w)) end) <= S (size (en_collectives_ (tn_engine w))))%nat as Hk.
  { destruct (_ !! c) eqn:E; [lia |]. rewrite map_size_insert_None by done. lia. }
  lia.
Qed.
End Admission.

Section Results.
Context {X : Type} `{ClusterLaws X} (taken : list JobSnapshot).
Implicit Types (w : Training X) (id : JobId) (r : JobRecord).

Abbreviation jobs w := (en_jobs_ (tn_engine w)).

(** A call that changes no job. *)
Lemma wp_jobless {A} id (m : M (Training X) A) (Q : Training X -> A -> Prop) w :
  tame (fun _ => False) m -> keeps_work id m ->
  (forall w' a, jobs w' = jobs w -> weight (tn_engine w') = weight (tn_engine w) -> Q w' a) ->
  wp m Q (fun _ _ => True) w.
Proof.
  intros Ht Hk HQ. unfold wp. specialize (Ht w). specialize (Hk w). destruct (m w) as [w' [a | e]]; [| done].
  destruct Ht as [Hj _], Hk as [Hw _]. apply HQ; [| done]. apply map_eq. intros id'. apply (Hj id'). by intros [].
Qed.

Lemma complete_step_lighter id : lighter (complete_step (X := X) id).
Proof.
  unfold complete_step. skip_kept id. destruct (_ =? _).
  - by apply (sheds_lighter id), finish_job_sheds.
  - apply (sheds_lighter id), start_step_sheds.
Qed.

Definition bucket_done r : JobRecord :=
  {| r with jb_active_collective := None; jb_completed_buckets := u32_wrap (jb_completed_buckets r + 1) |}.

Lemma ready_buckets_done r c : jb_active_collective r = Some c -> 0 <= jb_completed_buckets r < u32_max ->
  ready_buckets (bucket_done r) = ready_buckets r.
Proof.
  intros Hc Hb. unfold ready_buckets, next_bucket, bucket_done. cbn [jb_state jb_active_collective jb_completed_buckets jb_ready].
  rewrite Hc. change (has_value (Some c)) with true. change (has_value (@None CollectiveId)) with false. cbn [Z.b2z].
  unfold u32_wrap. rewrite Z.mod_small by word_lia. by rewrite Z.add_0_r.
Qed.

(** The part of a successful result after the bucket was counted. *)
Lemma bucket_counted_lighter id r w : jobs w !! id = Some r -> startable r ->
  wp (if jb_completed_buckets r =? jb_buckets r then complete_step id else
      do! modify_job id (fun r => {| r with jb_state :=
            if compute_phase_done r then JobState_Communicating else JobState_Computing |}) in
      start_collective id)
    (fun w' _ => (weight (tn_engine w') <= weight (tn_engine w))%nat) (fun _ _ => True) w.
Proof.
  intros Hr (Ht & Hc & Hwk). destruct (_ =? _); [apply complete_step_lighter |]. wp_step. apply wp_modify.
  set (f := fun r0 : JobRecord => _). set (w1 := mkTraining _ _).
  assert (jobs w1 !! id = Some (f r)) as Hr1 by (cbn; by rewrite lookup_alter_eq, Hr).
  eapply wp_conseq; [apply (start_collective_lighter id (f r)); [exact Hr1 |] | | done].
  { split; [cbn; by destruct (compute_phase_done r) | done]. }
  cbn. intros w' [] Hle. etrans; [exact Hle |]. unfold weight. cbn. rewrite (alter_known _ id r f Hr).
  pose proof (jobs_weight_put (jobs w) id r (f r) Hr) as Hp.
  assert (ready_buckets (f r) = ready_buckets r) as Heq; [| lia].
  unfold ready_buckets. cbn. rewrite Ht. by destruct (compute_phase_done r).
Qed.

(** Every result handled is work done. *)
Lemma handle_result_lighter completion w : engine_ok taken w ->
  wp (handle_result completion) (fun w' _ => (weight (tn_engine w') < weight (tn_engine w))%nat) (fun _ _ => True) w.
Proof.
  intros Hw. unfold handle_result. wp_step. apply wp_gets. wp_step. apply wp_of_option; [intros id Hid | done].
  pose proof (eo_tables _ _ Hw) as Ht. destruct (proj1 (tb_collect _ _ _ _ _ _ Ht _ _) Hid) as (r & Hr & Hact).
  wp_step. unfold job_at. wp_step. apply wp_gets. rewrite Hr. apply wp_ret. wp_step. apply wp_modify. cbv zeta.
  match goal with |- wp _ _ _ ?s => set (w1 := s) end.
  assert (S (weight (tn_engine w1)) = weight (tn_engine w)) as Hw1.
  { unfold weight, w1. cbn. rewrite map_size_delete, Hid. cbn.
    pose proof (map_size_ne_0_lookup_2 (en_collectives_ (tn_engine w)) (cl_id completion) ltac:(eauto)). lia. }
  assert (jobs w1 !! id = Some r) as Hr1 by exact Hr. clearbody w1.
  match goal with |- wp ?m _ _ _ =>
    enough (wp m (fun w' _ => (weight (tn_engine w') <= weight (tn_engine w1))%nat) (fun _ _ => True) w1) as Hx end.
  { eapply wp_conseq; [exact Hx | | done]. cbn. intros w' []. lia. }
  destruct (terminal (jb_state r)) eqn:Hterm.
  { apply wp_modify. unfold weight. cbn. rewrite (alter_known _ id r _ Hr1).
    match goal with |- context [<[id := ?r']> _] => pose proof (jobs_weight_put (jobs w1) id r r' Hr1) as Hp;
      assert (ready_buckets r' = O) as E0 by (unfold ready_buckets; cbn; by rewrite Hterm) end. lia. }
  destruct (negb _).
  { match goal with |- wp ?m _ _ _ => enough (sheds id O m) as Hx by apply (sheds_lighter _ _ Hx) end.
    apply sheds_before; [keeps_auto |]. intros _. apply sheds_modify. intros _. by apply finish_job_sheds. }
  pose proof (eo_jobs _ _ Hw id r Hr) as Hj.
  assert (busy r = true) as Hb.
  { rewrite (job_busy _ _ _ _ Hj), Hterm. destruct (queued (jb_state r)) eqn:Hq; [| done].
    destruct (jo_queued _ _ _ _ Hj Hq). congruence. }
  destruct (jo_step _ _ _ _ Hj Hb) as [Hs _]. pose proof (st_buckets _ _ _ _ Hs) as Hcb.
  pose proof (jo_spec _ _ _ _ Hj) as Hsp. pose proof (so_buckets _ Hsp) as Hbk.
  wp_step. apply (wp_jobless id); [apply tame_trace | keeps_auto |]. intros w2 [] E2 W2.
  wp_step. apply (wp_jobless id); [apply tame_emit_job | keeps_auto |]. intros w3 [] E3 W3.
  wp_step. apply wp_modify. wp_step. apply wp_modify. wp_step. unfold job_at. wp_step. apply wp_gets. cbn [tn_engine en_jobs_].
  assert (jobs w3 !! id = Some r) as Hr3 by congruence.
  rewrite (alter_known _ id r _ Hr3), alter_insert_eq, lookup_insert_eq. apply wp_ret.
  match goal with |- wp _ _ _ ?s => set (w4 := s) end.
  assert (jobs w4 = <[id := bucket_done r]> (jobs w3)) as E4 by reflexivity.
  assert (weight (tn_engine w4) = weight (tn_engine w3)) as W4.
  { unfold weight. rewrite E4. change (en_collectives_ (tn_engine w4)) with (en_collectives_ (tn_engine w3)).
    pose proof (jobs_weight_put (jobs w3) id r (bucket_done r) Hr3) as Hp.
    rewrite (ready_buckets_done r _ Hact) in Hp by word_lia. lia. }
  clearbody w4. eapply wp_conseq; [apply (bucket_counted_lighter id (bucket_done r) w4) | | done].
  - by rewrite E4, lookup_insert_eq.
  - split; [exact Hterm | split; [cbn; unfold u32_wrap; apply Z.mod_pos_bound; lia |]]. cbn. intros Hnil.
    pose proof (st_workers _ _ _ _ Hs) as Hwk. rewrite Hnil in Hwk. pose proof (so_width _ Hsp). change (0 = width r) in Hwk. lia.
  - cbn. intros w5 [] Hle. congruence || lia.
Qed.
End Results.
