(* ===== verification/DispatcherLaws.v ===== *)
(** * The training program as a whole

    The dispatcher composes workload engine, collective executor, router,
    transport and kernel: each of its turns is a sequence of steps of the engine
    over the cluster, and its loop ends. *)

From S2P Require Import Prelude SimTime Entities TelemetryRecords EventQueue SimContext.
From S2P Require Import Simulation SimulationLaws SimulationRun.
From S2P Require Import Topology TopologyLaws LinkQueue LinkService LinkServiceLaws Transport TransportLaws TransportInv.
From S2P Require Import TransportSteps TransportReach RoutingPaths RoutingPathsLaws RoutingPolicy.
From S2P Require Import Router RouterTheorems CollectivePlan CollectiveRuntime CollectiveLaws CollectiveSteps.
From S2P Require Import CollectiveFabric CollectiveTheorems Workload WorkloadRuntime WorkloadLaws.
From S2P Require Import WorkloadCluster WorkloadInv WorkloadSteps WorkloadHandlers WorkloadReach Dispatcher.

(** ** The handlers of transport *)

Section Handlers.
Context {C : Type} `{SimContextLaws C}.
Implicit Types (t : Transport C) (f : Routed C) (w : Ring (Routed C)).

Abbreviation chunks_of t := (chunks_ (tp_runtime t)).

(** What a handler does to transport and context. *)
Record transport_turn (taken : list TransferCompletion) t t' : Prop := {
  tt_runtime : runtime_ok (tp_runtime t') no_extra taken;
  tt_chunks : chunks_advance (chunks_of t) (chunks_of t');
  tt_topology : state_changed (tp_topology t) (tp_topology t');
  tt_composed : composed t';
  tt_spares : spares (tp_context t) (tp_context t');
}.

Definition sound_handler (m : M (Transport C) unit) : Prop := forall taken t,
  runtime_ok (tp_runtime t) no_extra taken -> composed t ->
  returns m (fun t' _ => transport_turn taken t t') t.

Lemma good_handler m : steady m ->
  (forall taken t, runtime_ok (tp_runtime t) no_extra taken -> returns m (fun t' _ => step_good taken t t') t) ->
  sound_handler m.
Proof.
  intros Hs Hm taken t Hrt Hc. specialize (Hs t Hc). specialize (Hm taken t Hrt). unfold returns, wp in *.
  destruct (m t) as [t' [[] | e]]; [| done]. destruct Hs as [H1 H2], Hm as (G1 & G2 & G3).
  split; try done. rewrite G3. apply rtc_refl.
Qed.

Lemma change_handler m op g : steady m -> is_state_change op = true ->
  (forall x, fst (g x) = graph_step x op) ->
  (forall taken t, runtime_ok (tp_runtime t) no_extra taken -> returns m (fun t' _ => step_change g taken t t') t) ->
  sound_handler m.
Proof.
  intros Hs Hop Hg Hm taken t Hrt Hc. specialize (Hs t Hc). specialize (Hm taken t Hrt). unfold returns, wp in *.
  destruct (m t) as [t' [[] | e]]; [| done]. destruct Hs as [H1 H2], Hm as (G1 & G2 & G3).
  split; try done. rewrite G3. apply rtc_once. exists op. split; [done | apply Hg].
Qed.

Lemma handle_arrival_sound event : sound_handler (handle_arrival event).
Proof. apply good_handler; [apply steady_handle_arrival | intros; by apply handle_arrival_spec]. Qed.

Lemma handle_completion_sound event : sound_handler (Transport.handle_completion event).
Proof. apply good_handler; [apply steady_handle_completion | intros; by apply transport_completion_spec]. Qed.

Lemma handle_link_state_sound event : sound_handler (handle_link_state_change event).
Proof.
  eapply (change_handler _ (OpSetLinkState (lsc_link event) (lsc_state event)));
    [apply steady_link_state_change | done | | intros; by apply handle_link_state_change_spec]. done.
Qed.

Lemma handle_port_state_sound event : sound_handler (handle_port_state_change event).
Proof.
  eapply (change_handler _ (OpSetPortState (psc_port event) (psc_state event)));
    [apply steady_port_state_change | done | | intros; by apply handle_port_state_change_spec]. done.
Qed.

Lemma handle_switch_state_sound event : sound_handler (handle_switch_state_change event).
Proof.
  eapply (change_handler _ (OpSetSwitchState (ssc_network_switch event) (ssc_state event)));
    [apply steady_switch_state_change | done | | intros; by apply handle_switch_state_change_spec]. done.
Qed.
End Handlers.

(** ** The cluster moves on *)

Section Cluster.
Context {C : Type} `{SimContextLaws C}.
Abbreviation World := (Ring (Routed C)).
Implicit Types (w : World).

Abbreviation ctx w := (tp_context (ro_transport (rg_fabric w))).

Definition moves {A} (m : M World A) (Q : World -> A -> Prop) : Prop := forall w, cluster_ok w ->
  wp m (fun w' a => moved w w' /\ Q w' a) (fun _ _ => True) w.

Lemma moved_intro w w' : cluster_ok w -> cluster_ok w' -> spares (ctx w) (ctx w') -> grown w w' -> moved w w'.
Proof.
  intros Hw Hw' [He Hs] Hg. split; [done | | exact Hg |].
  - change (ctx_now (ctx w) <= ctx_now (ctx w')). rewrite (ctx_evolves_now _ _ He); [done |]. by apply cluster_ctx_ok.
  - intros e ev we Hev Hp. apply (Hs e ev Hev). by rewrite Hp.
Qed.

Lemma transport_moves m : sound_handler m -> moves (with_fabric (with_transport m)) (fun _ _ => True).
Proof.
  intros Hm w Hw. pose proof Hw as [[taken Hex] Ho]. pose proof (eo_fabric _ _ Hex) as [[l Hr] Hc].
  unfold with_fabric, with_transport. apply wp_zoom, wp_zoom. eapply wp_conseq; [apply (Hm l); [apply Hr | by split] | | done].
  intros t' [] [H1 H2 H3 [H4 H5] H6]. split; [| done]. cbn in *.
  apply moved_intro; [done | | done | by intros id]. split; [| done]. exists taken. apply executor_later; [done |].
  split; [| split].
  - intros _. split; [| done]. exists l. destruct Hr as [R1 R2 R3]. split; [done | | done]. by eapply state_changed_ok.
  - exact H2.
  - intros _ e He. cbn. eapply ctx_evolves_issued; [apply H6 | done | done].
Qed.

(** An operation of the executor. *)
Lemma executor_moves {A} (m : M World A) :
  growing m ->
  (forall (laws : FabricLaws (Routed C)) taken w, @executor_ok _ _ laws taken w ->
     wp m (fun w' _ => @executor_ok _ _ laws taken w') (fun _ _ => True) w) ->
  moves m (fun _ _ => True).
Proof.
  intros Hg Hm w Hw. pose proof Hw as [[taken Hex] Ho]. specialize (Hg w).
  pose proof (executor_proceeds taken m w (fun laws => Hm laws taken w) Hex) as H2. unfold wp in *.
  destruct (m w) as [w' [a | e]]; [| done]. destruct H2 as [Hex' Hp]. split; [| done].
  pose proof Hp as [[He Hsub] _]. apply moved_intro; [done | | | done].
  - split; [by exists taken |]. by eapply routed_proceeds_owns; [apply Hex | |].
  - split; [done |]. intros id ev Hev _. by eapply lookup_weaken.
Qed.

Lemma handle_local_moves event : moves (handle_local event) (fun _ _ => True).
Proof. apply executor_moves; [apply growing_local |]. intros laws taken w. by apply handle_local_spec. Qed.

Lemma handle_transfer_moves cm : honest cm -> moves (handle_transfer cm) (fun _ _ => True).
Proof. intros Hh. apply executor_moves; [apply growing_transfer |]. intros laws taken w Hw. by apply handle_transfer_spec. Qed.

Lemma take_completed_moves : moves take_completed (fun _ _ => True).
Proof.
  intros w Hw. pose proof Hw as [[taken Hex] Ho]. pose proof (growing_take w) as Hg.
  pose proof (take_completed_spec taken w) as Hs. unfold wp.
  destruct (take_completed w) as [w' [l | e]] eqn:Hr; [| done]. specialize (Hs w' l Hex eq_refl). split; [| done].
  assert (rg_fabric w' = rg_fabric w) as Hf.
  { unfold take_completed, modify_executor, bind, gets, modify, ret in Hr. by injection Hr as <- _. }
  apply moved_intro; [done | | | done]; [split; [by exists (taken ++ l) | by rewrite Hf] | by rewrite Hf].
Qed.

(** Completed transfers are honest. *)
Lemma take_transfers_moves :
  moves (with_fabric (with_transport take_completed_transfers)) (fun _ l => Forall honest l).
Proof.
  intros w Hw. pose proof Hw as [[taken Hex] Ho]. pose proof (eo_fabric _ _ Hex) as [[l Hr] Hc].
  unfold with_fabric, with_transport. apply wp_zoom, wp_zoom. unfold take_completed_transfers. wp_step. apply wp_gets.
  wp_step. apply wp_modify. apply wp_ret. set (rt := tp_runtime (ro_transport (rg_fabric w))) in *. split.
  - apply moved_intro; [done | | split; [reflexivity | done] | by intros id]. split; [| exact Ho]. exists taken. apply executor_later; [done |].
    split; [| split; [reflexivity | done]]. intros _. split; [| done]. exists (l ++ completions_ rt).
    destruct Hr as [R1 R2 R3]. split; [| done | done]. cbn. fold rt in R1 |- *. destruct R1. split; try done. cbn. by rewrite app_nil_r.
  - apply Forall_forall. intros cm Hcm. eapply completion_honest; [exact (rok_runtime _ _ Hr) |]. fold rt.
    apply elem_of_app. by right.
Qed.
End Cluster.

(** ** The dispatcher *)

Section Program.
Context {C : Type} `{SimContextLaws C}.
Abbreviation Program := (Training (Ring (Routed C))).
Implicit Types (w : Program) (taken : list JobSnapshot).

(** The states the steps of the engine lead to. *)
Definition advances {A} (m : M Program A) (Q : A -> Prop) : Prop := forall w taken, engine_ok taken w ->
  wp m (fun w' a => rtc engine_step (w, taken) (w', taken) /\ Q a) (fun _ _ => True) w.

Lemma engine_steps_keep w w' taken : rtc engine_step (w, taken) (w', taken) -> engine_ok taken w -> engine_ok taken w'.
Proof. intros Hs Hw. by destruct (engine_steps_ok _ _ Hs Hw). Qed.

Lemma advances_bind {A B} (m : M Program A) (k : A -> M Program B) P Q :
  advances m P -> (forall a, P a -> advances (k a) Q) -> advances (bind m k) Q.
Proof.
  intros Hm Hk w taken Hw. apply wp_bind. eapply wp_conseq; [by apply (Hm w taken) | | done]. intros w1 a [S1 Ha].
  eapply wp_conseq; [apply (Hk a Ha w1 taken); by eapply engine_steps_keep | | done]. intros w2 b [S2 Hb].
  split; [by etrans | done].
Qed.

Lemma advances_ret {A} (a : A) (Q : A -> Prop) : Q a -> advances (ret a) Q.
Proof. intros Ha w taken Hw. apply wp_ret. split; [apply rtc_refl | done]. Qed.

Lemma advances_for_each {A} (l : list A) (f : A -> M Program unit) :
  (forall a, a ∈ l -> advances (f a) (fun _ => True)) -> advances (for_each l f) (fun _ => True).
Proof.
  induction l as [| a l IH]; intros Hf; [by apply advances_ret |]. cbn.
  apply (advances_bind _ _ (fun _ => True)); [apply Hf; left |]. intros _ _. apply IH. intros b Hb. apply Hf. by right.
Qed.

(** The other components. *)
Lemma advances_cluster {A} (m : M (Ring (Routed C)) A) (Q : A -> Prop) :
  moves m (fun _ a => Q a) -> advances (with_cluster m) Q.
Proof.
  intros Hm [en x] taken Hw. apply wp_zoom. eapply wp_conseq; [apply (Hm x); exact (eo_cluster _ _ Hw) | | done].
  intros x' a [Hmv Ha]. split; [| done]. by apply rtc_once, engine_step_cluster.
Qed.

(** A call of the engine. *)
Lemma advances_call (m : M Program unit) :
  (forall w taken w', m w = (w', Ret tt) -> engine_step (w, taken) (w', taken)) -> advances m (fun _ => True).
Proof.
  intros Hm w taken _. unfold wp. destruct (m w) as [w' [[] | e]] eqn:Hr; [| done]. split; [| done]. apply rtc_once. by apply Hm.
Qed.

Lemma handle_result_advances completion : advances (handle_result completion) (fun _ => True).
Proof. apply advances_call. intros w taken w'. apply engine_step_result. Qed.

Lemma dispatch_waiting_advances : advances dispatch_waiting (fun _ => True).
Proof. apply advances_call. intros w taken w'. apply engine_step_admission. Qed.

Lemma pump_transfers_advances : advances pump_transfers (fun _ => True).
Proof.
  apply (advances_bind _ _ (Forall honest)); [apply advances_cluster, take_transfers_moves |].
  intros l Hl. apply advances_for_each. intros cm Hcm. rewrite Forall_forall in Hl.
  by apply advances_cluster, handle_transfer_moves, Hl.
Qed.

(** ** The loop ends *)

Lemma results_lighter l w taken : engine_ok taken w ->
  wp (for_each l handle_result)
    (fun w' _ => rtc engine_step (w, taken) (w', taken) /\
       (weight (tn_engine w') + length l <= weight (tn_engine w))%nat) (fun _ _ => True) w.
Proof.
  revert w. induction l as [| a l IH]; intros w Hw; cbn [for_each].
  { apply wp_ret. split; [apply rtc_refl | cbn; lia]. }
  wp_step. pose proof (handle_result_advances a w taken Hw) as H1. pose proof (handle_result_lighter taken a w Hw) as H2.
  unfold wp at 1. unfold wp in H1, H2. destruct (handle_result a w) as [w1 [[] | e]]; [| done]. destruct H1 as [S1 _].
  eapply wp_conseq; [apply IH; by eapply engine_steps_keep | | done]. cbn. intros w2 [] [S2 Hle]. split; [by etrans | lia].
Qed.

Lemma pump_turn_advances w taken : engine_ok taken w ->
  wp pump_turn
    (fun w' b => rtc engine_step (w, taken) (w', taken) /\
       (b = true -> (weight (tn_engine w') < weight (tn_engine w))%nat)) (fun _ _ => True) w.
Proof.
  intros Hw. unfold pump_turn. wp_step. pose proof (dispatch_waiting_advances w taken Hw) as H1.
  pose proof (dispatch_waiting_lighter w) as H2. unfold wp at 1. unfold wp in H1, H2.
  destruct (dispatch_waiting w) as [w1 [[] | e]]; [| done]. destruct H1 as [S1 _].
  pose proof (engine_steps_keep _ _ _ S1 Hw) as Hw1. wp_step.
  pose proof (advances_cluster take_completed _ take_completed_moves w1 taken Hw1) as H3.
  assert (forall x : Program, tn_engine (fst (with_cluster take_completed x)) = tn_engine x) as Hen
    by (intros x; unfold with_cluster, zoom; by destruct (take_completed _)).
  specialize (Hen w1). unfold wp at 1. unfold wp in H3.
  destruct (with_cluster take_completed w1) as [w2 [l | e]]; [| done]. cbn in Hen. destruct H3 as [S2 _].
  assert (rtc engine_step (w, taken) (w2, taken)) as S12 by (by etrans).
  case_bool_decide as Hl; [by apply wp_ret |]. wp_step.
  eapply wp_conseq; [apply (results_lighter l w2 taken); by eapply engine_steps_keep | | done].
  intros w3 [] [S3 Hle]. apply wp_ret. split; [by etrans |]. intros _. destruct l; [done |]. cbn in Hle. rewrite Hen in Hle. lia.
Qed.

Lemma pump_loop_ends fuel w taken : engine_ok taken w -> (weight (tn_engine w) < fuel)%nat ->
  exists w' r, pump_loop fuel w = Some (w', r) /\ (r = Ret tt -> rtc engine_step (w, taken) (w', taken)).
Proof.
  revert w. induction fuel as [| n IH]; intros w Hw Hf; [lia |]. cbn [pump_loop].
  pose proof (pump_turn_advances w taken Hw) as H1. unfold wp in H1.
  destruct (pump_turn w) as [w1 [[|] | e]]; [| | by exists w1, (Throw e)].
  - destruct H1 as [S1 Hlt]. specialize (Hlt eq_refl).
    destruct (IH w1) as (w2 & r & Hr & S2); [by eapply engine_steps_keep | lia |].
    exists w2, r. split; [done |]. intros Hret. etrans; [exact S1 | by apply S2].
  - exists w1, (Ret tt). split; [done |]. intros _. apply H1.
Qed.

Lemma pump_results_advances : advances pump_results (fun _ => True).
Proof.
  intros w taken Hw. unfold wp, pump_results.
  destruct (pump_loop_ends (pump_fuel (tn_engine w)) w taken Hw (weight_fuel (tn_engine w))) as (w' & r & -> & Hs).
  destruct r as [[] | e]; [| done]. split; [by apply Hs | done].
Qed.

Lemma pump_advances : advances pump (fun _ => True).
Proof.
  apply (advances_bind _ _ (fun _ => True)); [apply pump_transfers_advances | by intros _ _; apply pump_results_advances].
Qed.
End Program.

(** ** Turns of the simulation *)

Lemma wp_trivial {S A} (m : M S A) s : wp m (fun _ _ => True) (fun _ _ => True) s.
Proof. unfold wp. by destruct (m s) as [s' [a | e]]. Qed.

Section Turns.
Context {T : Type} `{TelemetrySessionLaws T}.
Abbreviation World := (Ring (Routed (Kernel T))).
Abbreviation Program := (Training World).
Implicit Types (w : Program) (taken : list JobSnapshot) (k : Kernel T).

Definition program_kernel w : Kernel T := ring_kernel (tn_cluster w).

Definition set_program_kernel k w : Program := {| w with tn_cluster := set_ring_kernel k (tn_cluster w) |}.

(** An event of another component. *)
Lemma dispatched_moved ev (x0 x : World) :
  cluster_ok x0 -> WorkloadHandlers.dispatched ev x0 x -> is_workload (ev_payload ev) = false -> moved x0 x.
Proof.
  intros Hok Hd Hp. split; [apply Hd | by apply (dispatched_time ev) | apply Hd |].
  intros e ev' we Hev Hw. apply (di_kept _ _ _ Hd); [| done]. intros ->.
  pose proof (di_live _ _ _ Hd) as Hl. rewrite Hev in Hl. injection Hl as ->. by rewrite Hw in Hp.
Qed.

Lemma advances_from {A} (m : M Program A) w taken w1 :
  advances m (fun _ => True) -> engine_ok taken w -> rtc engine_step (w, taken) (w1, taken) ->
  wp m (fun w' _ => rtc engine_step (w, taken) (w', taken)) (fun _ _ => True) w1.
Proof.
  intros Hm Hw Hs. eapply wp_conseq; [apply (Hm w1 taken); by eapply engine_steps_keep | | done].
  intros w' a [Hs' _]. by etrans.
Qed.

Lemma dispatcher_advances ev w w1 taken :
  engine_ok taken w -> WorkloadHandlers.dispatched ev (tn_cluster w) (tn_cluster w1) -> tn_engine w1 = tn_engine w ->
  wp (training_dispatcher (ev_payload ev)) (fun w' _ => rtc engine_step (w, taken) (w', taken)) (fun _ _ => True) w1.
Proof.
  destruct w as [en x0], w1 as [en1 x]. cbn [tn_engine tn_cluster]. intros Hw Hd ->.
  assert (is_workload (ev_payload ev) = false -> forall (m : M World unit), moves m (fun _ _ => True) ->
    wp (bind (with_cluster m) (fun _ => pump)) (fun w' _ => rtc engine_step (mkTraining en x0, taken) (w', taken))
      (fun _ _ => True) (mkTraining en x)) as Hother.
  { intros Hp m Hm. assert (rtc engine_step (mkTraining en x0, taken) (mkTraining en x, taken)) as H1.
    { apply rtc_once, engine_step_cluster. by apply (dispatched_moved ev); [exact (eo_cluster _ _ Hw) | |]. }
    apply advances_from; [| done | done].
    apply (advances_bind _ _ (fun _ => True)); [by apply advances_cluster | by intros _ _; apply pump_advances]. }
  destruct (ev_payload ev) eqn:Hp; cbn [training_dispatcher is_workload] in *.
  - by apply wp_throw.
  - by apply Hother, transport_moves, handle_arrival_sound.
  - by apply Hother, transport_moves, handle_completion_sound.
  - by apply Hother, transport_moves, handle_link_state_sound.
  - by apply Hother, transport_moves, handle_port_state_sound.
  - by apply Hother, transport_moves, handle_switch_state_sound.
  - wp_step. unfold wp at 1. destruct (handle_workload e (mkTraining en x)) as [w2 [[] |]] eqn:Hr; [| done].
    apply advances_from; [apply pump_advances | done |]. apply rtc_once. by eapply engine_step_event.
  - by apply Hother, handle_local_moves.
Qed.

(** The kernel alone changes, not its queue. *)
Lemma kernel_moved (x : World) k :
  cluster_ok x -> kernel_ok k -> now_ (k_sim k) = now_ (k_sim (ring_kernel x)) ->
  frontier (event_ids_ (k_sim (ring_kernel x))) <= frontier (event_ids_ (k_sim k)) ->
  live (k_sim k) = live (k_sim (ring_kernel x)) -> moved x (set_ring_kernel k x).
Proof.
  intros Hx Hk Hn Hf Hl. split.
  - apply kernel_swap; [done | done | done |]. intros id e. by rewrite Hl.
  - change (now_ (k_sim (ring_kernel x)) <= now_ (k_sim k)). lia.
  - by intros c.
  - intros e ev we Hev _. change (live (k_sim k) !! e = Some ev). by rewrite Hl.
Qed.

(** A recording call in the middle of a dispatch. *)
Lemma quiet_on_kernel (m : M (Kernel T) unit) w k0 k Q :
  quiet_op m -> quiet k0 k ->
  (forall k', quiet k0 k' -> Q (set_program_kernel k' w) tt) ->
  wp (on_kernel program_kernel set_program_kernel m) Q (fun _ _ => True) (set_program_kernel k w).
Proof.
  intros Hm Hk HQ. apply wp_zoom. eapply wp_conseq; [apply Hm | | done]. intros k' [] Hq. apply HQ. by etrans.
Qed.

Lemma dispatch_event_advances ev w k1 taken :
  engine_ok taken w -> selected (program_kernel w) (Some ev) k1 ->
  wp (dispatch_event program_kernel set_program_kernel training_dispatcher ev)
    (fun w' _ => rtc engine_step (w, taken) (w', taken)) (fun _ _ => True) (set_program_kernel k1 w).
Proof.
  intros Hw Hsel. unfold dispatch_event. wp_step. apply wp_zoom, wp_modify.
  change (wp ?m ?Q ?E _) with (wp m Q E (set_program_kernel (with_current ev k1) w)).
  wp_step. apply (quiet_on_kernel _ _ (with_current ev k1)); [apply quiet_op_emit | reflexivity |]. intros k2 Q2.
  wp_step. apply (quiet_on_kernel _ _ (with_current ev k1)); [apply quiet_op_emit_metric | done |]. intros k3 Q3.
  wp_step. apply wp_gets. wp_step.
  apply (wp_conseq _ (fun w' _ => exists k4, w' = set_program_kernel k4 w /\ quiet (with_current ev k1) k4) _ (fun _ _ => True)); [| | done].
  { apply wp_when; intros _; [| by exists k3].
    apply (quiet_on_kernel _ _ (with_current ev k1)); [apply quiet_op_record_event | done |]. intros k4 Q4. by exists k4. }
  intros w4 [] (k4 & -> & Q4). wp_step.
  eapply wp_conseq; [apply (dispatcher_advances ev w (set_program_kernel k4 w) taken Hw); [| done] | | done].
  { apply (kernel_dispatches ev _ k1); [exact (eo_cluster _ _ Hw) | done | done]. }
  intros w5 [] S5. apply wp_zoom, wp_modify. cbn [set_sim]. pose proof (engine_steps_keep _ _ _ S5 Hw) as Hw5.
  destruct w5 as [en x]. etrans; [exact S5 |]. apply rtc_once, engine_step_cluster.
  pose proof (cluster_ctx_ok _ (eo_cluster _ _ Hw5)) as Hk. cbn in Hk.
  destruct (kernel_ok_ext (ring_kernel x) (let k := ring_kernel x in set_sim (let s := k_sim k in {| s with current_event_ := None |}) k) Hk) as [G1 G2]; try done; [by right |].
  apply kernel_moved; [exact (eo_cluster _ _ Hw5) | exact G1 | done | done | exact G2].
Qed.

(** A recording call outside a dispatch. *)
Lemma kernel_step (x : World) k en taken :
  engine_ok taken (mkTraining en x) -> kernel_ok k -> live (k_sim k) = live (k_sim (ring_kernel x)) ->
  now_ (k_sim k) = now_ (k_sim (ring_kernel x)) -> event_ids_ (k_sim k) = event_ids_ (k_sim (ring_kernel x)) ->
  rtc engine_step (mkTraining en x, taken) (mkTraining en (set_ring_kernel k x), taken).
Proof.
  intros Hw Hk Hl Hn Hi. apply rtc_once, engine_step_cluster, kernel_moved; try done; [exact (eo_cluster _ _ Hw) |].
  by rewrite Hi.
Qed.

Lemma finish_advances st w taken : engine_ok taken w ->
  wp (on_kernel program_kernel set_program_kernel (finish st None))
    (fun w' res => rtc engine_step (w, taken) (w', taken) /\
       live (k_sim (program_kernel w')) = live (k_sim (program_kernel w)) /\ res_status res = st)
    (fun _ _ => True) w.
Proof.
  intros Hw. pose proof (cluster_ctx_ok _ (eo_cluster _ _ Hw)) as Hk. cbn in Hk. apply wp_zoom.
  eapply wp_conseq; [by apply finish_spec | | done]. intros k res (F1 & F2 & _ & _ & F5 & F6 & _ & ->).
  split; [| split; [exact F2 | done]]. destruct w as [en x]. by apply kernel_step.
Qed.

(** A turn of the loop: the engine moves on; a completed run has no event left. *)
Lemma run_step_advances w taken : engine_ok taken w ->
  wp (run_step program_kernel set_program_kernel training_dispatcher)
    (fun w' r => rtc engine_step (w, taken) (w', taken) /\
       forall res, r = Some res -> res_status res = SimulationStatus_Completed ->
         live (k_sim (program_kernel w')) = ∅) (fun _ _ => True) w.
Proof.
  intros Hw. unfold run_step. wp_step. apply wp_gets.
  destruct (stop_reason_ _).
  { wp_step. eapply wp_conseq; [by apply (finish_advances _ w taken) | | done]. intros w' res (S1 & _ & Hst).
    apply wp_ret. split; [exact S1 |]. intros res' [= <-]. by rewrite Hst. }
  pose proof (cluster_ctx_ok _ (eo_cluster _ _ Hw)) as Hk. cbn in Hk.
  destruct (next_dispatchable_spec (program_kernel w)) as (r & k1 & Hr & Hsel); [by destruct Hk |].
  wp_step. unfold wp at 1, on_kernel, zoom. rewrite Hr. destruct r as [ev |].
  - wp_step. eapply wp_conseq; [by apply dispatch_event_advances | | done]. intros w' [] Hs. by apply wp_ret.
  - wp_step. assert (rtc engine_step (w, taken) (set_program_kernel k1 w, taken)) as S1.
    { destruct w as [en x]. destruct Hsel as ((Hq & Hmd & Hc1) & (E1 & E2 & E3 & E4 & E5 & E6 & E7 & E8) & Hl & Hl').
      apply kernel_step; try done; [| change (live (k_sim k1) = live (k_sim (program_kernel (mkTraining en x)))); by rewrite Hl, Hl'].
      split; try done. destruct (ok_counts _ Hk) as (d & c & G). exists d, c. unfold accounted in *.
      change (ring_kernel x) with (program_kernel (mkTraining en x)) in G. by rewrite E7, E8, E2, Hl', <- Hl. }
    eapply wp_conseq; [apply (finish_advances _ (set_program_kernel k1 w) taken); by eapply engine_steps_keep | | done].
    intros w' res (S2 & Hl2 & _). apply wp_ret. split; [by etrans |]. intros _ _ _. rewrite Hl2. apply Hsel.
Qed.

(** ** Runs *)

Definition program_run := run program_kernel set_program_kernel training_dispatcher.

Lemma run_loop_advances fuel w taken w' res : engine_ok taken w ->
  run_loop program_kernel set_program_kernel training_dispatcher fuel w = Some (w', Ret res) ->
  rtc engine_step (w, taken) (w', taken) /\
  (res_status res = SimulationStatus_Completed -> live (k_sim (program_kernel w')) = ∅).
Proof.
  revert w. induction fuel as [| n IH]; intros w Hw; [done |]. cbn [run_loop].
  pose proof (run_step_advances w taken Hw) as H1. unfold wp in H1.
  destruct (run_step _ _ _ w) as [w1 [[r |] | e]]; [| | done]; destruct H1 as [S1 Hend].
  - intros [= <- <-]. split; [done |]. by apply Hend.
  - intros Hr. destruct (IH w1) as [S2 Hl]; [by eapply engine_steps_keep | done |]. split; [by etrans | done].
Qed.

Lemma finish_status st err k : wp (finish st err) (fun _ res => res_status res = st) (fun _ _ => True) k.
Proof.
  unfold finish. wp_step. eapply wp_conseq; [apply wp_trivial | | done]. intros k1 [] _.
  wp_step. eapply wp_conseq; [apply wp_trivial | | done]. intros k2 [] _.
  wp_step. eapply wp_conseq; [apply wp_trivial | | done]. intros k3 [] _. by apply wp_gets.
Qed.

Lemma fail_status err w w' res :
  on_kernel program_kernel set_program_kernel (fail err) w = (w', Ret res) -> res_status res = SimulationStatus_Failed.
Proof.
  unfold on_kernel, zoom, fail, try_catch, bind. destruct (finish _ (Some err) _) as [k1 [r |]] eqn:H1.
  - pose proof (finish_status SimulationStatus_Failed (Some err) (program_kernel w)) as Hf. unfold wp in Hf.
    rewrite H1 in Hf. by intros [= _ <-].
  - cbn. match goal with |- context [finish ?st ?er ?k] => pose proof (finish_status st er k) as Hf; unfold wp in Hf;
      destruct (finish st er k) as [k2 [r2 |]] end; by intros [= _ <-].
Qed.

(** A run that did not fail is a sequence of steps of the engine. *)
Lemma run_advances fuel w taken w' res : engine_ok taken w ->
  program_run fuel w = Some (w', Ret res) -> res_status res <> SimulationStatus_Failed ->
  rtc engine_step (w, taken) (w', taken) /\
  (res_status res = SimulationStatus_Completed -> live (k_sim (program_kernel w')) = ∅).
Proof.
  intros Hw. pose proof (cluster_ctx_ok _ (eo_cluster _ _ Hw)) as Hk. cbn in Hk. unfold program_run, run.
  destruct (on_kernel _ _ begin_run w) as [w0 [[] | e]] eqn:Hb; [| done].
  assert (rtc engine_step (w, taken) (w0, taken)) as S0.
  { revert Hb. unfold on_kernel, zoom, begin_run, bind, gets, throw_if.
    destruct (negb _); [done |]. cbn [ret]. unfold modify_sim, modify. intros [= <-]. destruct w as [en x].
    match goal with |- context [set_program_kernel ?k _] =>
      destruct (kernel_ok_ext (ring_kernel x) k Hk) as [G1 G2]; try done; [by left |] end. by apply kernel_step. }
  pose proof (engine_steps_keep _ _ _ S0 Hw) as Hw0. pose proof (cluster_ctx_ok _ (eo_cluster _ _ Hw0)) as Hk0. cbn in Hk0.
  destruct (on_kernel _ _ (emit_simulation_observation _ _ _) w0) as [w1 [[] | e]] eqn:He.
  2: { intros [= Hf]%(f_equal (fun o => o ≫= Some)) Hst. by apply fail_status in Hf. }
  assert (rtc engine_step (w0, taken) (w1, taken)) as S1.
  { revert He. unfold on_kernel, zoom. pose proof (quiet_op_emit SimulationTransition_RunStarted None None (program_kernel w0)) as Hq.
    unfold wp in Hq. destruct (emit_simulation_observation _ _ _ _) as [k1 [[] | e]]; [| done]. intros [= <-].
    destruct w0 as [en x]. apply kernel_step; [done | by eapply quiet_kernel_ok | by apply quiet_live | |];
      by destruct Hq as (tr & b & t & -> & _). }
  destruct (run_loop _ _ _ fuel w1) as [[w2 [r | e]] |] eqn:Hl; [| | done].
  - intros [= <- <-] _. destruct (run_loop_advances fuel w1 taken w2 r) as [S2 Hem]; [by eapply engine_steps_keep | done |].
    split; [| done]. etrans; [exact S0 |]. by etrans.
  - intros [= Hf]%(f_equal (fun o => o ≫= Some)) Hst. by apply fail_status in Hf.
Qed.
End Turns.
