(* ===== verification/DispatcherTheorems.v ===== *)
(** * Theorems on the training program

    The dispatcher over the whole program: its loop ends, its runs are runs of
    the workload engine, and what is left when no event is. *)

From S2P Require Import Prelude SimTime Entities TelemetryRecords EventQueue SimContext.
From S2P Require Import Simulation SimulationLaws SimulationRun Topology Transport Router CollectivePlan CollectiveRuntime.
From S2P Require Import CollectiveTheorems Workload WorkloadRuntime WorkloadLaws WorkloadCluster WorkloadInv WorkloadSteps.
From S2P Require Import WorkloadHandlers WorkloadAdmission WorkloadReach WorkloadTheorems Dispatcher DispatcherLaws.

Section Theorems.
Context {T : Type} `{TelemetrySessionLaws T}.
Implicit Types (w : Training (Ring (Routed (Kernel T)))) (taken : list JobSnapshot).

Lemma pump_loop_more fuel fuel' w r : (fuel <= fuel')%nat ->
  pump_loop fuel w = Some r -> pump_loop fuel' w = Some r.
Proof.
  revert fuel' w. induction fuel as [| n IH]; intros [| n'] w Hle; try done; [lia |]. cbn [pump_loop].
  destruct (pump_turn w) as [w1 [[|] | e]]; [| done | done]. apply IH. lia.
Qed.

(** C24: the pump ends.  In every reachable state the loop that hands results of
    collectives to the engine, which has no bound in the source, stops after at
    most as many turns as there are collectives under way and buckets ready to
    be sent: with that fuel, and with any more, it gives one and the same
    result, and what it does is a sequence of steps of the engine. *)
Theorem pump_terminates w taken :
  reachable_engine w taken ->
  exists w' r, pump_loop (S (weight (tn_engine w))) w = Some (w', r) /\
    (weight (tn_engine w) < pump_fuel (tn_engine w))%nat /\
    (forall fuel, (weight (tn_engine w) < fuel)%nat -> pump_loop fuel w = Some (w', r)) /\
    (r = Ret tt -> reachable_engine w' taken).
Proof.
  intros Hw. pose proof (reachable_engine_ok _ _ Hw) as Hok.
  destruct (pump_loop_ends (S (weight (tn_engine w))) w taken Hok (Nat.lt_succ_diag_r _)) as (w' & r & Hr & Hs).
  exists w', r. split; [done | split; [apply weight_fuel | split]].
  - intros fuel Hf. by eapply pump_loop_more.
  - intros ->. by eapply reachable_engine_steps, Hs.
Qed.

(** C6: a run of the program is a run of the engine.  Whatever events a run of
    the simulation with the training dispatcher takes, in the order the kernel
    chooses, and whatever transport, router, executor and engine do in their
    handlers: if the run does not fail, then the state at its end is one the
    steps of the engine lead to, so that everything that holds in reachable
    states holds there; no report was lost; and if the run completed, every job
    has ended with its report among the results, or is waiting for resources, or
    waits for a collective that the executor knows. *)
Theorem run_refines_engine fuel w taken w' res :
  reachable_engine w taken -> program_run fuel w = Some (w', Ret res) ->
  res_status res <> SimulationStatus_Failed ->
  reachable_engine w' taken /\
  (exists later, en_completed_ (tn_engine w') = en_completed_ (tn_engine w) ++ later) /\
  (res_status res = SimulationStatus_Completed ->
     forall id r, en_jobs_ (tn_engine w') !! id = Some r ->
       (terminal (jb_state r) = true /\ exists s, s ∈ taken ++ en_completed_ (tn_engine w') /\ sn_id s = id) \/
       jb_state r = JobState_Waiting \/
       (busy r = true /\ exists c, jb_active_collective r = Some c /\
          en_collectives_ (tn_engine w') !! c = Some id /\ cs_known (tn_cluster w') c)).
Proof.
  intros Hw Hr Hst. pose proof (reachable_engine_ok _ _ Hw) as Hok.
  destruct (run_advances fuel w taken w' res Hok Hr Hst) as [Hs Hl].
  destruct (engine_steps_ok _ _ Hs Hok) as [Hok' [later Hlog]].
  split; [by eapply reachable_engine_steps | split].
  - exists later. rewrite <- app_assoc in Hlog. by apply app_inv_head in Hlog.
  - intros Hc id r Hjob. specialize (Hl Hc). destruct (terminal (jb_state r)) eqn:Ht; [left | right].
    + split; [done |]. by eapply ended_reported.
    + destruct (waits_for _ _ _ _ Hok' Hjob Ht) as [(e & _ & ev & Hev & _) | [Hwt | [(worker & e & _ & (ev & Hev & _) & _) | Hcl]]].
      * exfalso. change (live (k_sim (program_kernel w')) !! e = Some ev) in Hev. by rewrite Hl in Hev.
      * left. by apply waiting_jobs_elem in Hwt as [? _].
      * exfalso. change (live (k_sim (program_kernel w')) !! e = Some ev) in Hev. by rewrite Hl in Hev.
      * right. split; [| exact Hcl]. destruct Hcl as (c & Hc' & _). by eapply collecting_busy.
Qed.
End Theorems.

(** ** Witnesses *)

Section Outcome.
Context {W : Type}.

Definition run_state (start : W) (o : option (W * outcome SimulationResult)) : W :=
  match o with Some (w, _) => w | None => start end.

Definition run_result (o : option (W * outcome SimulationResult)) : SimulationResult :=
  match o with
  | Some (_, Ret res) => res
  | _ => mkSimulationResult SimulationStatus_Failed None 0 0 0 0 0 None None
  end.

Definition run_returned (o : option (W * outcome SimulationResult)) : bool :=
  match o with Some (_, Ret _) => true | _ => false end.

Lemma run_outcome start o : run_returned o = true -> o = Some (run_state start o, Ret (run_result o)).
Proof. by destruct o as [[w [res | e]] |]. Qed.
End Outcome.

(** The run of two jobs: 134 events, then every job has ended. *)
Definition rival_run := program_run 200 train_rival.
Definition rival_end : WorkloadTheorems.Program := run_state train_rival rival_run.
Definition rival_result : SimulationResult := run_result rival_run.

Lemma rival_run_ends : rival_run = Some (rival_end, Ret rival_result).
Proof.
  assert (run_returned rival_run = true) as Hr by (vm_compute; reflexivity).
  unfold rival_end, rival_result. revert Hr. generalize rival_run. intros o. apply run_outcome.
Qed.

Lemma rival_job_succeeded : exists r, en_jobs_ (tn_engine rival_end) !! 0 = Some r /\ jb_state r = JobState_Succeeded.
Proof.
  assert (option_map jb_state (en_jobs_ (tn_engine rival_end) !! 0) = Some JobState_Succeeded) as Hs
    by (vm_compute; reflexivity).
  destruct (en_jobs_ (tn_engine rival_end) !! 0) as [r |]; [| done]. exists r. split; [done |]. by injection Hs.
Qed.

Lemma run_refines_engine_witness :
  reachable_engine rival_end [] /\
  (sn_id <$> en_completed_ (tn_engine rival_end)) = [1; 0] /\ res_final_time rival_result = 565 /\
  exists r, en_jobs_ (tn_engine rival_end) !! 0 = Some r /\ jb_state r = JobState_Succeeded /\
    ((terminal (jb_state r) = true /\ exists s, s ∈ [] ++ en_completed_ (tn_engine rival_end) /\ sn_id s = 0) \/
     jb_state r = JobState_Waiting \/
     (busy r = true /\ exists c, jb_active_collective r = Some c /\
        en_collectives_ (tn_engine rival_end) !! c = Some 0 /\ cs_known (tn_cluster rival_end) c)).
Proof.
  assert (res_status rival_result = SimulationStatus_Completed) as Hst by (vm_compute; reflexivity).
  destruct (run_refines_engine 200 train_rival [] rival_end rival_result train_rival_reachable rival_run_ends)
    as (Hre & _ & Hjobs); [rewrite Hst; discriminate |].
  split; [exact Hre | split; [vm_compute; reflexivity | split; [vm_compute; reflexivity |]]].
  destruct rival_job_succeeded as (r & Hr & Hs).
  exists r. split; [exact Hr | split; [exact Hs |]]. by apply (Hjobs Hst 0 r).
Defined.

Lemma pump_terminates_witness :
  exists w' r, pump_loop (S (weight (tn_engine train_refused))) train_refused = Some (w', r) /\
    pump_loop 100 train_refused = Some (w', r).
Proof.
  destruct (pump_terminates train_refused [] train_refused_reachable) as (w' & r & H1 & _ & H2 & _).
  exists w', r. split; [exact H1 |]. apply H2. apply Nat.ltb_lt. vm_compute. reflexivity.
Defined.
