(* ===== verification/TopologyFamilies.v ===== *)
(** * Topology families

    Models [topology/families.{hpp,cpp}] and [topology/summary.{hpp,cpp}]: the
    generators of small topologies and of leaf-spine fabrics, built through the
    construction calls of the graph, and the counts reported for a graph.
    [std::vector] never runs out of memory. *)

From S2P Require Import Prelude SimTime Entities TelemetryRecords Topology.

Record SingleRackConfig : Type := mkSingleRackConfig {
  sr_gpu_count : Z;
  sr_gpus_per_nic : Z;
}.

Record LeafSpineConfig : Type := mkLeafSpineConfig {
  ls_leaf_count : Z;
  ls_nics_per_leaf : Z;
  ls_gpus_per_nic : Z;
  ls_spine_count : Z;
}.

Record LeafRackDimensions : Type := mkLeafRackDimensions {
  lr_nic_count : Z;
  lr_gpus_per_nic : Z;
}.

(** ** Guards *)

Section Guards.
Context {S : Type}.

Definition checked_add (left right : Z) (topology_name : string) : M S Z :=
  if u64_max - left <? right then throw (overflow_error (topology_name +:+ " entity count overflow"))
  else ret (u64_wrap (left + right)).

Definition checked_multiply (left right : Z) (topology_name : string) : M S Z :=
  if negb (left =? 0) && (u64_max / left <? right)
  then throw (overflow_error (topology_name +:+ " entity count overflow"))
  else ret (u64_wrap (left * right)).

Definition require_positive (value : Z) (topology_name field_name : string) : M S unit :=
  throw_if (value =? 0) (invalid_argument (topology_name +:+ " " +:+ field_name +:+ " must be positive")).

Definition validate_single_rack_config (config : SingleRackConfig) : M S unit :=
  do! require_positive (sr_gpu_count config) "single-rack" "GPU count" in
  do! require_positive (sr_gpus_per_nic config) "single-rack" "GPUs per NIC" in
  do! throw_if (negb (sr_gpu_count config mod sr_gpus_per_nic config =? 0))
        (invalid_argument "single-rack GPU count must be divisible by GPUs per NIC") in
  let nic_count := sr_gpu_count config / sr_gpus_per_nic config in
  let! link_count := checked_add (sr_gpu_count config) nic_count "single-rack" in
  do! checked_multiply link_count 2 "single-rack" in
  ret tt.

Definition validate_leaf_spine_config (config : LeafSpineConfig) : M S unit :=
  do! require_positive (ls_leaf_count config) "leaf-spine" "leaf count" in
  do! require_positive (ls_nics_per_leaf config) "leaf-spine" "NICs per leaf" in
  do! require_positive (ls_gpus_per_nic config) "leaf-spine" "GPUs per NIC" in
  do! require_positive (ls_spine_count config) "leaf-spine" "spine count" in
  let! nic_count := checked_multiply (ls_leaf_count config) (ls_nics_per_leaf config) "leaf-spine" in
  let! gpu_count := checked_multiply nic_count (ls_gpus_per_nic config) "leaf-spine" in
  let! leaf_spine_links := checked_multiply (ls_leaf_count config) (ls_spine_count config) "leaf-spine" in
  let! attachment_links := checked_add gpu_count nic_count "leaf-spine" in
  let! link_count := checked_add attachment_links leaf_spine_links "leaf-spine" in
  do! checked_add (ls_leaf_count config) (ls_spine_count config) "leaf-spine" in
  do! checked_multiply link_count 2 "leaf-spine" in
  ret tt.
End Guards.

(** ** Generators *)

(** A loop that pushes a result per element. *)
Fixpoint collect {S A B} (l : list A) (f : A -> M S B) : M S (list B) :=
  match l with
  | [] => ret []
  | x :: rest =>
      let! y := f x in
      let! ys := collect rest f in
      ret (y :: ys)
  end.

(** [for (index = 0; index < count; ++index)]. *)
Definition indices (count : Z) : list Z := seqZ 0 count.

Definition add_leaf_rack (dimensions : LeafRackDimensions) : GraphM SwitchId :=
  let! rack := add_rack in
  let! leaf := add_leaf_switch rack in
  do! for_each (indices (lr_nic_count dimensions)) (fun _ =>
        let! nic := add_nic rack in
        do! for_each (indices (lr_gpus_per_nic dimensions)) (fun _ =>
              do! add_gpu nic in ret tt) in
        do! connect_fabric (nic_node nic) FabricUplink (switch_node leaf) FabricDownlink in
        ret tt) in
  ret leaf.

(** A fresh graph is filled and returned; a throw destroys it. *)
Definition make_graph (m : GraphM unit) : outcome TopologyGraph :=
  match m empty_graph with
  | (g, Ret _) => Ret g
  | (_, Throw e) => Throw e
  end.

Definition generate_two_gpu_direct : outcome TopologyGraph :=
  make_graph
    (let! nics := collect (indices 2) (fun _ =>
       let! rack := add_rack in
       let! nic := add_nic rack in
       do! add_gpu nic in
       ret nic) in
     do! connect_fabric (nic_node (nth 0 nics 0)) FabricUplink (nic_node (nth 1 nics 0)) FabricUplink in
     ret tt).

Definition generate_single_rack (config : SingleRackConfig) : outcome TopologyGraph :=
  make_graph
    (do! validate_single_rack_config config in
     do! add_leaf_rack (mkLeafRackDimensions (sr_gpu_count config / sr_gpus_per_nic config)
           (sr_gpus_per_nic config)) in
     ret tt).

Definition generate_leaf_spine (config : LeafSpineConfig) : outcome TopologyGraph :=
  make_graph
    (do! validate_leaf_spine_config config in
     let! leaves := collect (indices (ls_leaf_count config)) (fun _ =>
       add_leaf_rack (mkLeafRackDimensions (ls_nics_per_leaf config) (ls_gpus_per_nic config))) in
     let! spines := collect (indices (ls_spine_count config)) (fun _ => add_spine_switch) in
     for_each leaves (fun leaf =>
       for_each spines (fun spine =>
         do! connect_fabric (switch_node leaf) FabricUplink (switch_node spine) FabricDownlink in
         ret tt))).

(** ** Summary *)

Record TopologySummary : Type := mkTopologySummary {
  su_racks : Z;
  su_gpus : Z;
  su_nics : Z;
  su_switches : Z;
  su_leaf_switches : Z;
  su_spine_switches : Z;
  su_ports : Z;
  su_links : Z;
  su_local_links : Z;
  su_fabric_links : Z;
  su_down_switches : Z;
  su_down_ports : Z;
  su_down_links : Z;
}.

(** [std::ranges::count] through a projection. *)
Definition ranges_count {A B} `{EqDecision B} (proj : A -> B) (value : B) (l : list A) : Z :=
  zlength (filter (fun x => proj x = value) l).

Definition count_down {A} (state_of : A -> OperationalState) (entities : list A) : Z :=
  ranges_count state_of Down entities.

Definition summarize_topology (g : TopologyGraph) : TopologySummary :=
  let leaf_switches := ranges_count switch_role Leaf (switches_ g) in
  let local_links := ranges_count link_kind LocalAttachment (links_ g) in
  {| su_racks := zlength (racks_ g);
     su_gpus := zlength (gpus_ g);
     su_nics := zlength (nics_ g);
     su_switches := zlength (switches_ g);
     su_leaf_switches := leaf_switches;
     su_spine_switches := u64_wrap (zlength (switches_ g) - leaf_switches);
     su_ports := zlength (ports_ g);
     su_links := zlength (links_ g);
     su_local_links := local_links;
     su_fabric_links := u64_wrap (zlength (links_ g) - local_links);
     su_down_switches := count_down switch_state (switches_ g);
     su_down_ports := count_down port_state (ports_ g);
     su_down_links := count_down link_state (links_ g) |}.
