(* ===== verification/TopologyClos.v ===== *)
(** * Clos topologies

    Models [topology/clos.{hpp,cpp}]: the dimensions of a Clos fabric given by
    its number of GPUs, and its generation as a leaf-spine fabric. *)

From S2P Require Import Prelude SimTime Entities TelemetryRecords Topology.
From S2P Require Import TopologyFamilies.

Record ClosConfig : Type := mkClosConfig {
  cc_gpu_count : Z;
  cc_gpus_per_nic : Z;
  cc_nics_per_leaf : Z;
  cc_spine_count : Z;
}.

Record ClosDimensions : Type := mkClosDimensions {
  cd_gpu_count : Z;
  cd_nic_count : Z;
  cd_leaf_count : Z;
  cd_spine_count : Z;
  cd_rack_count : Z;
  cd_switch_count : Z;
  cd_port_count : Z;
  cd_link_count : Z;
}.

Definition initial_clos_config : ClosConfig := mkClosConfig 512 8 8 8.

Definition stretch_clos_config : ClosConfig := mkClosConfig 2048 8 8 8.

(** [clos_dimensions] has no state of its own. *)
Definition checked_add (left right : Z) : M unit Z :=
  if u64_max - left <? right then throw (overflow_error "Clos topology entity count overflow")
  else ret (u64_wrap (left + right)).

Definition checked_multiply (left right : Z) : M unit Z :=
  if negb (left =? 0) && (u64_max / left <? right)
  then throw (overflow_error "Clos topology entity count overflow")
  else ret (u64_wrap (left * right)).

Definition require_positive (value : Z) (field_name : string) : M unit unit :=
  throw_if (value =? 0) (invalid_argument ("Clos " +:+ field_name +:+ " must be positive")).

Definition clos_dimensions (config : ClosConfig) : outcome ClosDimensions :=
  snd ((do! require_positive (cc_gpu_count config) "GPU count" in
        do! require_positive (cc_gpus_per_nic config) "GPUs per NIC" in
        do! require_positive (cc_nics_per_leaf config) "NICs per leaf" in
        do! require_positive (cc_spine_count config) "spine count" in
        do! throw_if (negb (cc_gpu_count config mod cc_gpus_per_nic config =? 0))
              (invalid_argument "Clos GPU count must be divisible by GPUs per NIC") in
        let nic_count := cc_gpu_count config / cc_gpus_per_nic config in
        do! throw_if (negb (nic_count mod cc_nics_per_leaf config =? 0))
              (invalid_argument "Clos NIC count must be divisible by NICs per leaf") in
        let leaf_count := nic_count / cc_nics_per_leaf config in
        let! leaf_spine_links := checked_multiply leaf_count (cc_spine_count config) in
        let! switch_count := checked_add leaf_count (cc_spine_count config) in
        let! attachment_links := checked_add (cc_gpu_count config) nic_count in
        let! link_count := checked_add attachment_links leaf_spine_links in
        let! port_count := checked_multiply link_count 2 in
        ret {| cd_gpu_count := cc_gpu_count config; cd_nic_count := nic_count; cd_leaf_count := leaf_count;
               cd_spine_count := cc_spine_count config; cd_rack_count := leaf_count;
               cd_switch_count := switch_count; cd_port_count := port_count;
               cd_link_count := link_count |}) tt).

Definition generate_clos (config : ClosConfig) : outcome TopologyGraph :=
  match clos_dimensions config with
  | Throw e => Throw e
  | Ret dimensions =>
      TopologyFamilies.generate_leaf_spine
        (TopologyFamilies.mkLeafSpineConfig (cd_leaf_count dimensions) (cc_nics_per_leaf config)
           (cc_gpus_per_nic config) (cd_spine_count dimensions))
  end.
