(* ===== verification/Run.v ===== *)
(** * A training run

    Models [workload/run.{hpp,cpp}], the data of [workload/scenario.hpp] and
    [workload/digest.cpp]: the program put together from all components, its
    report, the text of the report and the digest of its outcome. *)

From S2P Require Import Prelude SimTime Entities TelemetryRecords TelemetryMetrics TelemetrySummary TelemetryRecorder.
From S2P Require Import Trace Simulation SimulationRun LinkQueue LinkService Topology Transport CollectivePlan.
From S2P Require Import RoutingPaths RoutingPolicy Router CollectiveRuntime Scheduling Workload WorkloadRuntime WorkloadCluster.
From S2P Require Import Dispatcher DispatcherLaws TopologyFamilies TopologyClos.
From stdpp Require Import pretty list.
#[local] Open Scope Z_scope.
#[local] Open Scope nexus_scope.

(** ** Scenarios *)

Record JobControl : Type := mkJobControl {
  jc_job : Z;
  jc_kind : WorkloadEventKind;
  jc_timestamp : SimTimeNs;
  jc_worker : Z;
}.

Record GpuControl : Type := mkGpuControl {
  gc_gpu : GpuId;
  gc_healthy : bool;
  gc_timestamp : SimTimeNs;
}.

Record TrainingScenario : Type := mkTrainingScenario {
  scn_gpus : Z;
  scn_seed : Z;
  scn_routing_policy : string;
  scn_bandwidth : BitsPerSecond;
  scn_propagation : SimDurationNs;
  scn_buffer : ByteCount;
  scn_local : CollectiveConfiguration;
  scn_jobs : list JobSpec;
  scn_controls : list JobControl;
  scn_scheduling : option SchedulingConfiguration;
  scn_gpu_controls : list GpuControl;
  scn_telemetry : TelemetryConfiguration;
}.

(** ** The report *)

Record TrainingReport : Type := mkTrainingReport {
  rp_simulation : SimulationResult;
  rp_jobs : list JobSnapshot;
  rp_timeline : list JobTimeline;
  rp_collectives : list CollectiveResult;
  rp_collective_timeline : list CollectiveTimeline;
  rp_decisions : list RouteDecision;
  rp_maximum_waiting_bytes : Z;
  rp_placements : list PlacementDecision;
  rp_telemetry : TelemetrySnapshot;
}.

(** All the components, over a kernel with a telemetry session. *)
Abbreviation Program := (Training (Ring (Routed (Kernel Session)))).

Definition program_session (w : Program) : Session := k_session (program_kernel w).

Definition on_session {A} (m : M Session A) : M Program A :=
  zoom program_session (fun t w => set_program_kernel (set_session t (program_kernel w)) w) m.

Definition on_router {A} (m : M (Routed (Kernel Session)) A) : M Program A := with_cluster (with_fabric m).

(** The loop over the identifiers from [id] on; [count] are left. *)
Fixpoint append_waiting_from (count : nat) (id : JobId) (now : SimTimeNs) (en : WorkloadEngine) : outcome (list JobSnapshot) :=
  match count with
  | O => Ret []
  | S n =>
      try! found := job_snapshot id now en in
      match found with
      | None => Throw (logic_error "missing training job")
      | Some snapshot =>
          if terminal (sn_state snapshot) then append_waiting_from n (id + 1) now en else
          try! _ := require (bool_decide (sn_state snapshot = JobState_Waiting)) (logic_error "unfinished active training job") in
          try! rest := append_waiting_from n (id + 1) now en in
          Ret (snapshot :: rest)
      end
  end.

Definition append_waiting_jobs (count : Z) (now : SimTimeNs) (en : WorkloadEngine) : outcome (list JobSnapshot) :=
  append_waiting_from (Z.to_nat count) 0 now en.

(** The loop over all collectives; the identifiers have no gap, so that their number is enough. *)
Fixpoint completed_collectives (fuel : nat) (id : CollectiveId) (x : RingExecutor) : outcome (list CollectiveResult) :=
  match ring_snapshot id x with
  | None => Ret []
  | Some snapshot =>
      match cp_completion snapshot with
      | None => Throw (logic_error "collective remained pending at queue exhaustion")
      | Some result =>
          match fuel with
          | O => Throw (logic_error "the loop does not end")
          | S n => try! rest := completed_collectives n (id + 1) x in Ret (result :: rest)
          end
      end
  end.

(** The greatest number of bytes that waited at a link. *)
Fixpoint maximum_waiting (links : list DirectedLinkConfiguration) (rt : TransportRuntime) (maximum : Z) : outcome Z :=
  match links with
  | [] => Ret maximum
  | link :: rest =>
      match find_service (cfg_link link) rt with
      | None => Throw (logic_error "null dereference")
      | Some service => maximum_waiting rest rt (Z.max maximum (snap_maximum_waiting_bytes (snapshot (queue_ service))))
      end
  end.

(** ** The run *)

Definition fabric_links (scenario : TrainingScenario) (g : TopologyGraph) : list DirectedLinkConfiguration :=
  mjoin ((fun link =>
    if bool_decide (link_kind link = Entities.Fabric) then
      let '(forward, backward) := directed_links link in
      (fun arc => mkDirectedLinkConfiguration (arc_id arc) (scn_bandwidth scenario) (scn_propagation scenario) (scn_buffer scenario) None)
        <$> [forward; backward]
    else []) <$> links_ g).

Definition scenario_routing (scenario : TrainingScenario) : RoutingConfiguration :=
  {| default_routing_configuration with rcfg_policy := scn_routing_policy scenario; rcfg_seed := scn_seed scenario |}.

Definition trace_mode (scenario : TrainingScenario) : TraceMode :=
  if bool_decide (tc_mode (scn_telemetry scenario) = TelemetryMode_Full) then TraceMode_Enabled else TraceMode_Disabled.

(** The constructors, in order. *)
Definition construct (scenario : TrainingScenario) : outcome (list DirectedLinkConfiguration * Program) :=
  try! _ := require (negb ((zlength (scn_controls scenario) >? 10000) || (zlength (scn_gpu_controls scenario) >? 10000)))
              (length_error "scenario control limit exceeded") in
  try! session := new_session (scn_telemetry scenario) in
  try! g := generate_clos (mkClosConfig (scn_gpus scenario) 8 8 8) in
  let links := fabric_links scenario g in
  try! transport := new_transport_runtime g links default_transport_limits true in
  try! registry := new_policy_registry in
  try! router := new_router g registry (scenario_routing scenario) true in
  try! collectives := new_ring_executor (scn_local scenario) true in
  try! jobs := new_workload_engine g default_workload_limits (scn_scheduling scenario) None true in
  let simulation := new_simulation (scn_seed scenario) (trace_mode scenario) true in
  Ret (links, mkTraining jobs (mkRing collectives (mkRouted router (mkTransport transport g (mkKernel simulation session))))).

Definition schedule_scenario (scenario : TrainingScenario) : M Program unit :=
  do! for_each (scn_jobs scenario) (fun spec => let! _ := schedule_job spec in ret tt) in
  do! for_each (scn_controls scenario) (fun control =>
        let! _ := schedule_control (jc_job control) (jc_kind control) (jc_timestamp control) (jc_worker control) in ret tt) in
  for_each (scn_gpu_controls scenario) (fun control =>
    let! _ := schedule_gpu_state (gc_gpu control) (gc_healthy control) (gc_timestamp control) in ret tt).

Definition make_report (scenario : TrainingScenario) (links : list DirectedLinkConfiguration) (result : SimulationResult)
    : M Program TrainingReport :=
  do! on_session (finalize (res_final_time result)) in
  let! completed := take_completed_jobs in
  let! decisions := on_router take_decisions in
  let! telemetry := gets (fun w => session_snapshot (program_session w)) in
  do! throw_if (negb (bool_decide (res_status result = SimulationStatus_Completed)))
        (runtime_error (default "training run did not finish all jobs"%string (res_error result))) in
  let! w := gets (fun w => w) in
  let x := rg_executor (tn_cluster w) in
  let! waiting := of_outcome (append_waiting_jobs (zlength (scn_jobs scenario)) (res_final_time result) (tn_engine w)) in
  let! collectives := of_outcome (completed_collectives (size (rx_records_ x)) 0 x) in
  let! maximum := of_outcome (maximum_waiting links (tp_runtime (ro_transport (rg_fabric (tn_cluster w)))) 0) in
  ret (mkTrainingReport result (completed ++ waiting) (en_timeline_ (tn_engine w)) collectives (rx_timeline_ x) decisions maximum
         (en_placements_ (tn_engine w)) telemetry).

(** [None] when the fuel does not reach the end of the simulation. *)
Definition run_training (fuel : nat) (scenario : TrainingScenario) : option (outcome TrainingReport) :=
  match construct scenario with
  | Throw e => Some (Throw e)
  | Ret (links, w) =>
      match schedule_scenario scenario w with
      | (_, Throw e) => Some (Throw e)
      | (w, Ret _) =>
          match program_run fuel w with
          | None => None
          | Some (_, Throw e) => Some (Throw e)
          | Some (w, Ret result) => Some (snd (make_report scenario links result w))
          end
      end
  end.

(** ** The text of a report *)

Definition state_name (state : JobState) : string :=
  match state with
  | JobState_Waiting => "waiting" | JobState_Scheduled => "scheduled" | JobState_Computing => "computing"
  | JobState_Communicating => "communicating" | JobState_Overlapping => "overlapping" | JobState_Succeeded => "succeeded"
  | JobState_Failed => "failed" | JobState_Cancelled => "cancelled"
  end.

Definition PlacementOutcome_value (o : PlacementOutcome) : Z := match o with Placed => 1 | Waiting => 2 | Rejected => 3 end.

Definition line_end : string := String (Ascii.ascii_of_nat 10) "".

Definition texts (l : list string) : string := foldr String.append ""%string l.

Definition job_line (job : JobSnapshot) : string :=
  texts ["job="; pretty (sn_id job); " state="; state_name (sn_state job); " steps="; pretty (sn_completed_steps job);
         " elapsed_ns="; pretty (sn_elapsed_ns job); " compute_gpu_ns="; pretty (sn_compute_gpu_ns job);
         " idle_gpu_ns="; pretty (sn_idle_gpu_ns job); " waiting_ns="; pretty (sn_waiting_ns job);
         " reason="; sn_reason job; line_end].

Definition placement_line (entry : PlacementDecision) : string :=
  texts (["placement job="%string; pretty (dcn_job entry); " time_ns="; pretty (dcn_timestamp entry); " policy="; dcn_policy entry;
          " version="; pretty (dcn_version entry); " outcome="; pretty (PlacementOutcome_value (dcn_outcome entry));
          " requested_workers="; pretty (dcn_requested_workers entry); " priority="; pretty (dcn_priority entry);
          " racks="; pretty (loc_racks (dcn_locality entry)); " nics="; pretty (loc_nics (dcn_locality entry));
          " cross_rack_ring_edges="; pretty (loc_cross_rack_ring_edges (dcn_locality entry));
          " fragmentation_before="; pretty (dcn_fragmentation_before entry);
          " fragmentation_after="; pretty (dcn_fragmentation_after entry); " workers="] ++
         mjoin ((fun gpu => [pretty gpu; ","]) <$> dcn_workers entry) ++ [" reason="; dcn_reason entry; line_end]).

Definition job_event_line (entry : JobTimeline) : string :=
  texts (["job_event job="; pretty (jt_job entry); " time_ns="; pretty (jt_timestamp entry); " step="; pretty (jt_step entry);
          " bucket="; pretty (jt_bucket entry); " state="; state_name (jt_state entry); " action="; jt_action entry] ++
         match jt_collective entry with Some c => [" collective="; pretty c] | None => [] end ++ [line_end]).

Definition collective_event_line (entry : CollectiveTimeline) : string :=
  texts ["collective_event id="; pretty (ct_id entry); " time_ns="; pretty (ct_timestamp entry);
         " phase="; phase_name (ct_phase entry); " round="; pretty (ct_round entry); line_end].

Definition write_report (report : TrainingReport) (include_timeline : bool) : string :=
  texts (["synthetic=true"; line_end; "model=training-ring-v1"; line_end; "jobs="; pretty (zlength (rp_jobs report)); line_end;
          "events="; pretty (res_dispatched_events (rp_simulation report)); line_end;
          "final_time_ns="; pretty (res_final_time (rp_simulation report)); line_end;
          "collectives="; pretty (zlength (rp_collectives report)); line_end;
          "route_decisions="; pretty (zlength (rp_decisions report)); line_end;
          "maximum_waiting_bytes="; pretty (rp_maximum_waiting_bytes report); line_end] ++
         (job_line <$> rp_jobs report) ++
         (if include_timeline
          then (placement_line <$> rp_placements report) ++ (job_event_line <$> rp_timeline report) ++
               (collective_event_line <$> rp_collective_timeline report)
          else [])).

(** ** The digest of the outcome *)

(** [DigestBuilder]: its operations take the hash so far. *)
Definition digest_add (hash value : Z) : Z := hash_u64 hash value.

Definition digest_bool (hash : Z) (value : bool) : Z := digest_add hash (Z.b2z value).

Definition digest_text (hash : Z) (value : string) : Z :=
  fold_left (fun hash c => hash_byte hash (char_value c)) (String.list_ascii_of_string value)
    (digest_add hash (zlength (String.list_ascii_of_string value))).

Definition digest_optional {V} (hash : Z) (value : option V) (append : Z -> V -> Z) : Z :=
  let hash := digest_bool hash (has_value value) in
  match value with Some v => append hash v | None => hash end.

Definition add_range {V} (hash : Z) (values : list V) (append : Z -> V -> Z) : Z :=
  fold_left append values (digest_add hash (zlength values)).

Definition Phase_value (p : Phase) : Z :=
  match p with ReduceScatter => 1 | AllGather => 2 | Phase_Succeeded => 3 | Phase_Failed => 4 | Phase_Cancelled => 5 end.

Definition add_simulation (hash : Z) (result : SimulationResult) : Z :=
  let hash := digest_add hash (SimulationStatus_value (res_status result)) in
  let hash := digest_optional hash (res_stop_reason result) (fun hash r => digest_add hash (StopReason_value r)) in
  let hash := digest_add hash (res_final_time result) in
  let hash := digest_add hash (res_dispatched_events result) in
  let hash := digest_add hash (res_cancelled_events result) in
  let hash := digest_add hash (res_pending_events result) in
  let hash := digest_add hash (res_rng_draw_count result) in
  digest_optional hash (res_error result) digest_text.

Definition add_job (hash : Z) (job : JobSnapshot) : Z :=
  let hash := digest_add hash (sn_id job) in
  let hash := digest_add hash (JobState_value (sn_state job)) in
  let hash := digest_add hash (sn_completed_steps job) in
  let hash := digest_add hash (sn_arrival job) in
  let hash := digest_optional hash (sn_finished job) digest_add in
  let hash := digest_add hash (sn_compute_gpu_ns job) in
  let hash := digest_add hash (sn_idle_gpu_ns job) in
  let hash := digest_add hash (sn_elapsed_ns job) in
  let hash := digest_text hash (sn_reason job) in
  let hash := digest_optional hash (sn_allocated_at job) digest_add in
  digest_add hash (sn_waiting_ns job).

Definition add_job_timeline (hash : Z) (entry : JobTimeline) : Z :=
  let hash := digest_add hash (jt_job entry) in
  let hash := digest_add hash (jt_timestamp entry) in
  let hash := digest_add hash (JobState_value (jt_state entry)) in
  let hash := digest_add hash (jt_step entry) in
  let hash := digest_add hash (jt_bucket entry) in
  let hash := digest_text hash (jt_action entry) in
  digest_optional hash (jt_collective entry) digest_add.

Definition add_collective (hash : Z) (result : CollectiveResult) : Z :=
  let hash := digest_add hash (cl_id result) in
  let hash := digest_add hash (Phase_value (cl_outcome result)) in
  let hash := digest_add hash (cl_started result) in
  let hash := digest_add hash (cl_finished result) in
  let hash := digest_add hash (cl_planned_bytes result) in
  let hash := digest_add hash (cl_issued_fabric_bytes result) in
  let hash := digest_add hash (cl_issued_local_bytes result) in
  let hash := digest_add hash (cl_delivered_bytes result) in
  digest_text hash (cl_reason result).

Definition add_collective_timeline (hash : Z) (entry : CollectiveTimeline) : Z :=
  let hash := digest_add hash (ct_id entry) in
  let hash := digest_add hash (ct_timestamp entry) in
  let hash := digest_add hash (Phase_value (ct_phase entry)) in
  digest_add hash (ct_round entry).

Definition add_node (hash : Z) (node : NodeId) : Z :=
  let hash := digest_add hash (NodeKind_value (node_kind node)) in
  digest_add hash (node_value node).

Definition add_hop (hash : Z) (link : DirectedLinkId) : Z :=
  let hash := digest_add hash (dl_link link) in
  digest_add hash (LinkDirection_value (dl_direction link)).

Definition add_route (hash : Z) (decision : RouteDecision) : Z :=
  let hash := digest_add hash (rq_flow (rd_request decision)) in
  let hash := add_node hash (ep_source (rq_endpoints (rd_request decision))) in
  let hash := add_node hash (ep_destination (rq_endpoints (rd_request decision))) in
  let hash := digest_add hash (rq_bytes (rd_request decision)) in
  let hash := digest_add hash (rq_maximum_chunk_bytes (rd_request decision)) in
  let hash := digest_text hash (rd_policy decision) in
  let hash := digest_add hash (rd_version decision) in
  let hash := digest_add hash (rd_timestamp decision) in
  let hash := digest_add hash (rd_operational_revision decision) in
  let hash := digest_add hash (rd_candidates decision) in
  let hash := digest_add hash (zlength (rd_path decision)) in
  let hash := fold_left add_hop (rd_path decision) hash in
  let hash := digest_add hash (rd_score decision) in
  let hash := digest_text hash (rd_reason decision) in
  digest_optional hash (rd_transfer decision) digest_add.

Definition add_placement (hash : Z) (decision : PlacementDecision) : Z :=
  let hash := digest_add hash (dcn_job decision) in
  let hash := digest_add hash (dcn_timestamp decision) in
  let hash := digest_text hash (dcn_policy decision) in
  let hash := digest_add hash (dcn_version decision) in
  let hash := digest_add hash (dcn_priority decision) in
  let hash := digest_add hash (dcn_requested_workers decision) in
  let hash := digest_add hash (PlacementOutcome_value (dcn_outcome decision)) in
  let hash := digest_add hash (zlength (dcn_workers decision)) in
  let hash := fold_left digest_add (dcn_workers decision) hash in
  let hash := digest_text hash (dcn_reason decision) in
  let hash := digest_add hash (loc_racks (dcn_locality decision)) in
  let hash := digest_add hash (loc_nics (dcn_locality decision)) in
  let hash := digest_add hash (loc_cross_rack_ring_edges (dcn_locality decision)) in
  let hash := digest_add hash (dcn_fragmentation_before decision) in
  digest_add hash (dcn_fragmentation_after decision).

Definition domain_outcome_digest (report : TrainingReport) : Z :=
  let hash := add_simulation fnv_offset_basis (rp_simulation report) in
  let hash := add_range hash (rp_jobs report) add_job in
  let hash := add_range hash (rp_timeline report) add_job_timeline in
  let hash := add_range hash (rp_collectives report) add_collective in
  let hash := add_range hash (rp_collective_timeline report) add_collective_timeline in
  let hash := add_range hash (rp_decisions report) add_route in
  let hash := add_range hash (rp_placements report) add_placement in
  digest_add hash (rp_maximum_waiting_bytes report).
