(* ===== verification/TopologyValidation.v ===== *)
(** * Topology validation

    Models [topology/validation.{hpp,cpp}].  The validator walks over the graph
    and pushes an error per defect; the report is the state of its methods.
    [outgoing] throws for an unknown node. *)

From S2P Require Import Prelude SimTime Entities TelemetryRecords Topology TopologyFamilies TopologyClos.

Inductive ValidationErrorCode : Type :=
  | EmptyTopology
  | NonDenseId
  | UnknownReference
  | RelationshipMismatch
  | PortOwnershipMismatch
  | PortLinkCountMismatch
  | LinkEndpointMismatch
  | LinkKindMismatch
  | AdjacencyMismatch
  | DisconnectedNode
  | TopologyShapeMismatch.

Record ValidationError : Type := mkValidationError {
  ve_code : ValidationErrorCode;
  ve_node : option NodeId;
  ve_link : option LinkId;
  ve_message : string;
}.

Record ValidationReport : Type := mkValidationReport { vr_errors : list ValidationError }.

Definition valid (report : ValidationReport) : bool :=
  match vr_errors report with [] => true | _ => false end.

(** ** Counting *)

Definition count_value {A} `{EqDecision A} (range : list A) (value : A) : Z :=
  zlength (filter (fun x => x = value) range).

Fixpoint dense_from {A} (id_of : A -> Z) (index : Z) (entities : list A) : bool :=
  match entities with
  | [] => true
  | e :: rest => if negb (id_of e =? index) then false else dense_from id_of (index + 1) rest
  end.

Definition has_dense_ids {A} (id_of : A -> Z) (entities : list A) : bool := dense_from id_of 0 entities.

(** A [std::vector<std::uint8_t>] that saturates at two. *)
Definition count_port_endpoint (counts : list Z) (endpoint : PortId) : list Z :=
  if u64_max <? endpoint then counts else
  match counts !! Z.to_nat endpoint with
  | Some n => if n <? 2 then <[Z.to_nat endpoint := n + 1]> counts else counts
  | None => counts
  end.

Definition port_link_counts (g : TopologyGraph) : list Z :=
  fold_left (fun counts link =>
      count_port_endpoint (count_port_endpoint counts (link_endpoint_a link)) (link_endpoint_b link))
    (links_ g) (replicate (length (ports_ g)) 0).

Definition node_exists (g : TopologyGraph) (node : NodeId) : bool :=
  match node_kind node with
  | NodeKind_Gpu => has_value (find_gpu (node_value node) g)
  | NodeKind_Nic => has_value (find_nic (node_value node) g)
  | NodeKind_Switch => has_value (find_switch (node_value node) g)
  end.

(** ** Visited nodes *)

Record StructuralVisited : Type := mkStructuralVisited {
  sv_gpus_ : list bool;
  sv_nics_ : list bool;
  sv_switches_ : list bool;
}.

Definition new_structural_visited (g : TopologyGraph) : StructuralVisited :=
  mkStructuralVisited (replicate (length (gpus_ g)) false) (replicate (length (nics_ g)) false)
    (replicate (length (switches_ g)) false).

Definition visited_values (visited : StructuralVisited) (kind : NodeKind) : list bool :=
  match kind with
  | NodeKind_Gpu => sv_gpus_ visited
  | NodeKind_Nic => sv_nics_ visited
  | NodeKind_Switch => sv_switches_ visited
  end.

Definition set_visited_values (kind : NodeKind) (l : list bool) (visited : StructuralVisited) : StructuralVisited :=
  match kind with
  | NodeKind_Gpu => {| visited with sv_gpus_ := l |}
  | NodeKind_Nic => {| visited with sv_nics_ := l |}
  | NodeKind_Switch => {| visited with sv_switches_ := l |}
  end.

Definition mark (node : NodeId) (visited : StructuralVisited) : StructuralVisited * bool :=
  let l := visited_values visited (node_kind node) in
  match l !! Z.to_nat (node_value node) with
  | Some false => (set_visited_values (node_kind node) (<[Z.to_nat (node_value node) := true]> l) visited, true)
  | _ => (visited, false)
  end.

Definition visited_contains (node : NodeId) (visited : StructuralVisited) : bool :=
  default false (visited_values visited (node_kind node) !! Z.to_nat (node_value node)).

(** ** The validator *)

Section Validator.
Context (graph_ : TopologyGraph).

Abbreviation Check := (M ValidationReport unit).

Definition add (code : ValidationErrorCode) (message : string) (node : option NodeId) (link : option LinkId) : Check :=
  modify (fun report => mkValidationReport (vr_errors report ++ [mkValidationError code node link message])).

Definition validate_dense {A} (id_of : A -> Z) (entities : list A) (entity_kind : string) : Check :=
  when (negb (has_dense_ids id_of entities))
    (add NonDenseId (entity_kind +:+ " identifiers must be dense and index-aligned") None None).

Definition validate_identity : Check :=
  do! when (bool_decide (gpus_ graph_ = []))
        (add EmptyTopology "topology must contain at least one GPU" None None) in
  do! validate_dense gpu_id (gpus_ graph_) "GPU" in
  do! validate_dense nic_id (nics_ graph_) "NIC" in
  do! validate_dense switch_id (switches_ graph_) "switch" in
  do! validate_dense rack_id (racks_ graph_) "rack" in
  do! validate_dense port_id (ports_ graph_) "port" in
  validate_dense link_id (links_ graph_) "link".

Definition validate_rack_gpus (rack : Rack) : Check :=
  for_each (rack_gpus rack) (fun gpu_id_ =>
    match find_gpu gpu_id_ graph_ with
    | None => add UnknownReference "rack references an unknown GPU" None None
    | Some gpu =>
        when (negb (gpu_rack gpu =? rack_id rack) || negb (count_value (rack_gpus rack) gpu_id_ =? 1))
          (add RelationshipMismatch "rack and GPU membership must be reciprocal" (Some (gpu_node gpu_id_)) None)
    end).

Definition validate_rack_nics (rack : Rack) : Check :=
  for_each (rack_nics rack) (fun nic_id_ =>
    match find_nic nic_id_ graph_ with
    | None => add UnknownReference "rack references an unknown NIC" None None
    | Some nic =>
        when (negb (nic_rack nic =? rack_id rack) || negb (count_value (rack_nics rack) nic_id_ =? 1))
          (add RelationshipMismatch "rack and NIC membership must be reciprocal" (Some (nic_node nic_id_)) None)
    end).

Definition validate_rack_switches (rack : Rack) : Check :=
  for_each (rack_leaf_switches rack) (fun switch_id_ =>
    match find_switch switch_id_ graph_ with
    | None => add UnknownReference "rack references an unknown switch" None None
    | Some switch_entity =>
        when (bool_decide (switch_role switch_entity <> Leaf) ||
              bool_decide (switch_rack switch_entity <> Some (rack_id rack)) ||
              negb (count_value (rack_leaf_switches rack) switch_id_ =? 1))
          (add RelationshipMismatch "rack and leaf-switch membership must be reciprocal"
             (Some (switch_node switch_id_)) None)
    end).

Definition validate_racks : Check :=
  for_each (racks_ graph_) (fun rack =>
    do! validate_rack_gpus rack in
    do! validate_rack_nics rack in
    validate_rack_switches rack).

Definition validate_gpu (gpu : GpuWorker) : Check :=
  match find_nic (gpu_attached_nic gpu) graph_, find_rack (gpu_rack gpu) graph_, find_port (gpu_port gpu) graph_ with
  | Some nic, Some rack, Some port =>
      do! when (negb (nic_rack nic =? gpu_rack gpu) ||
                negb (count_value (nic_attached_gpus nic) (gpu_id gpu) =? 1) ||
                negb (count_value (rack_gpus rack) (gpu_id gpu) =? 1))
            (add RelationshipMismatch "GPU, NIC, and rack membership must be reciprocal"
               (Some (gpu_node (gpu_id gpu))) None) in
      when (bool_decide (port_owner port <> gpu_node (gpu_id gpu)) || bool_decide (port_role port <> Local))
        (add PortOwnershipMismatch "GPU local port has an invalid owner or role" (Some (gpu_node (gpu_id gpu))) None)
  | _, _, _ =>
      add UnknownReference "GPU references an unknown rack, NIC, or port" (Some (gpu_node (gpu_id gpu))) None
  end.

Definition validate_gpus : Check := for_each (gpus_ graph_) validate_gpu.

Definition validate_owned_ports (owner : NodeId) (port_ids : list PortId) : Check :=
  for_each port_ids (fun port_id_ =>
    match find_port port_id_ graph_ with
    | None => add UnknownReference "node references an unknown port" (Some owner) None
    | Some port =>
        when (bool_decide (port_owner port <> owner) || negb (count_value port_ids port_id_ =? 1))
          (add PortOwnershipMismatch "port ownership must be reciprocal and unique" (Some owner) None)
    end).

Definition validate_attached_gpus (nic : Nic) : Check :=
  for_each (nic_attached_gpus nic) (fun gpu_id_ =>
    match find_gpu gpu_id_ graph_ with
    | None => add UnknownReference "NIC references an unknown GPU" (Some (nic_node (nic_id nic))) None
    | Some gpu =>
        when (negb (gpu_attached_nic gpu =? nic_id nic) || negb (count_value (nic_attached_gpus nic) gpu_id_ =? 1))
          (add RelationshipMismatch "NIC and GPU attachment must be reciprocal" (Some (nic_node (nic_id nic))) None)
    end).

Definition validate_nic (nic : Nic) : Check :=
  do! match find_rack (nic_rack nic) graph_ with
      | None => add UnknownReference "NIC references an unknown rack" (Some (nic_node (nic_id nic))) None
      | Some rack =>
          when (negb (count_value (rack_nics rack) (nic_id nic) =? 1))
            (add RelationshipMismatch "NIC and rack membership must be reciprocal" (Some (nic_node (nic_id nic))) None)
      end in
  do! validate_attached_gpus nic in
  validate_owned_ports (nic_node (nic_id nic)) (nic_ports nic).

Definition validate_nics : Check := for_each (nics_ graph_) validate_nic.

Definition validate_switch (switch_entity : Switch) : Check :=
  let node := switch_node (switch_id switch_entity) in
  do! match switch_role switch_entity with
      | Leaf =>
          match (match switch_rack switch_entity with Some r => find_rack r graph_ | None => None end) with
          | None => add UnknownReference "leaf switch must reference a known rack" (Some node) None
          | Some rack =>
              when (negb (count_value (rack_leaf_switches rack) (switch_id switch_entity) =? 1))
                (add RelationshipMismatch "leaf switch and rack membership must be reciprocal" (Some node) None)
          end
      | Spine =>
          when (has_value (switch_rack switch_entity))
            (add RelationshipMismatch "spine switch must not belong to a rack" (Some node) None)
      end in
  validate_owned_ports node (switch_ports switch_entity).

Definition validate_switches : Check := for_each (switches_ graph_) validate_switch.

Definition owner_references (port : Port) : bool :=
  match node_kind (port_owner port) with
  | NodeKind_Gpu =>
      match find_gpu (node_value (port_owner port)) graph_ with
      | Some gpu => gpu_port gpu =? port_id port
      | None => false
      end
  | NodeKind_Nic =>
      match find_nic (node_value (port_owner port)) graph_ with
      | Some nic => count_value (nic_ports nic) (port_id port) =? 1
      | None => false
      end
  | NodeKind_Switch =>
      match find_switch (node_value (port_owner port)) graph_ with
      | Some switch_entity => count_value (switch_ports switch_entity) (port_id port) =? 1
      | None => false
      end
  end.

(** [port_link_counts_] is computed by the constructor. *)
Definition validate_port (port_link_counts_ : list Z) (port : Port) : Check :=
  do! when (negb (owner_references port))
        (add PortOwnershipMismatch "port owner does not reference the port exactly once" (Some (port_owner port)) None) in
  let index := if port_id port <=? u64_max then port_id port else zlength port_link_counts_ in
  when (negb (bool_decide (port_link_counts_ !! Z.to_nat index = Some 1)))
    (add PortLinkCountMismatch "every port must terminate exactly one physical link" (Some (port_owner port)) None).

Definition validate_ports : Check := for_each (ports_ graph_) (validate_port (port_link_counts graph_)).

Definition validate_link_kind (link : PhysicalLink) (endpoint_a endpoint_b : Port) : Check :=
  let kind_a := node_kind (port_owner endpoint_a) in
  let kind_b := node_kind (port_owner endpoint_b) in
  let is_gpu_nic :=
    bool_decide (kind_a = NodeKind_Gpu) && bool_decide (kind_b = NodeKind_Nic) ||
    bool_decide (kind_a = NodeKind_Nic) && bool_decide (kind_b = NodeKind_Gpu) in
  let valid_local :=
    bool_decide (link_kind link = LocalAttachment) && is_gpu_nic &&
    bool_decide (port_role endpoint_a = Local) && bool_decide (port_role endpoint_b = Local) in
  let valid_fabric :=
    bool_decide (link_kind link = Fabric) && bool_decide (kind_a <> NodeKind_Gpu) &&
    bool_decide (kind_b <> NodeKind_Gpu) && bool_decide (port_role endpoint_a <> Local) &&
    bool_decide (port_role endpoint_b <> Local) in
  when (negb valid_local && negb valid_fabric)
    (add LinkKindMismatch "link kind, endpoint node kinds, and port roles are inconsistent" None (Some (link_id link))).

Definition outgoing (node : NodeId) : M ValidationReport (list DirectedLink) := of_outcome (adjacency node graph_).

Definition validate_adjacency (link : PhysicalLink) (endpoint_a endpoint_b : Port) : Check :=
  let '(forward, backward) := directed_links link in
  let report := add AdjacencyMismatch "physical link must have one directed arc from each endpoint" None
    (Some (link_id link)) in
  let! arcs_a := outgoing (port_owner endpoint_a) in
  if negb (count_value arcs_a forward =? 1) then report else
  let! arcs_b := outgoing (port_owner endpoint_b) in
  when (negb (count_value arcs_b backward =? 1)) report.

Definition validate_link (link : PhysicalLink) : Check :=
  match find_port (link_endpoint_a link) graph_, find_port (link_endpoint_b link) graph_ with
  | Some endpoint_a, Some endpoint_b =>
      if negb (node_exists graph_ (port_owner endpoint_a)) || negb (node_exists graph_ (port_owner endpoint_b))
      then add UnknownReference "physical link endpoint has an unknown owner" None (Some (link_id link))
      else
        do! when ((port_id endpoint_a =? port_id endpoint_b) ||
                  bool_decide (port_owner endpoint_a = port_owner endpoint_b))
              (add LinkEndpointMismatch "physical link endpoints must be distinct nodes" None (Some (link_id link))) in
        do! validate_link_kind link endpoint_a endpoint_b in
        validate_adjacency link endpoint_a endpoint_b
  | _, _ => add UnknownReference "physical link references an unknown endpoint" None (Some (link_id link))
  end.

Definition validate_links : Check := for_each (links_ graph_) validate_link.

(** ** Connectivity *)

(** The inner loop: newly marked nodes are pushed. *)
Fixpoint visit_neighbours (arcs : list DirectedLink) (visited : StructuralVisited) (pending : list NodeId)
    : StructuralVisited * list NodeId :=
  match arcs with
  | [] => (visited, pending)
  | link :: rest =>
      match find_port (arc_destination link) graph_ with
      | None => visit_neighbours rest visited pending
      | Some destination =>
          let '(visited', new) := mark (port_owner destination) visited in
          visit_neighbours rest visited' (if new then pending ++ [port_owner destination] else pending)
      end
  end.

(** The outer loop; [None] is a loop that is not at its end. *)
Fixpoint visit_pending (fuel : nat) (visited : StructuralVisited) (pending : list NodeId)
    : option (outcome StructuralVisited) :=
  match pending with
  | [] => Some (Ret visited)
  | current :: rest =>
      match fuel with
      | O => None
      | S n =>
          match adjacency current graph_ with
          | Throw e => Some (Throw e)
          | Ret arcs =>
              let '(visited', pending') := visit_neighbours arcs visited rest in
              visit_pending n visited' pending'
          end
      end
  end.

(** Every node is pushed at most once. *)
Definition visit_fuel : nat := length (gpus_ graph_) + length (nics_ graph_) + length (switches_ graph_).

Definition report_if_disconnected (visited : StructuralVisited) (node : NodeId) : Check :=
  when (negb (visited_contains node visited))
    (add DisconnectedNode "topology node is disconnected from the GPU component" (Some node) None).

Definition report_disconnected (visited : StructuralVisited) : Check :=
  do! for_each (gpus_ graph_) (fun gpu => report_if_disconnected visited (gpu_node (gpu_id gpu))) in
  do! for_each (nics_ graph_) (fun nic => report_if_disconnected visited (nic_node (nic_id nic))) in
  for_each (switches_ graph_) (fun switch_entity =>
    report_if_disconnected visited (switch_node (switch_id switch_entity))).

Definition validate_connectivity : Check :=
  match gpus_ graph_ with
  | [] => ret tt
  | first :: _ =>
      let start := gpu_node (gpu_id first) in
      let visited := fst (mark start (new_structural_visited graph_)) in
      match visit_pending visit_fuel visited [start] with
      | None => throw (logic_error "the search does not end")
      | Some (Throw e) => throw e
      | Some (Ret visited) => report_disconnected visited
      end
  end.

Definition validate_all : Check :=
  do! validate_identity in
  do! validate_racks in
  do! validate_gpus in
  do! validate_nics in
  do! validate_switches in
  do! validate_ports in
  do! validate_links in
  validate_connectivity.
End Validator.

Definition validate_topology (g : TopologyGraph) : outcome ValidationReport :=
  match validate_all g (mkValidationReport []) with
  | (report, Ret _) => Ret report
  | (_, Throw e) => Throw e
  end.

(** ** Clos shape *)

Record Connection : Type := mkConnection { cn_source : NodeId; cn_destination : NodeId }.

(** An arc to an unknown port is not a connection here. *)
Definition directly_connected (g : TopologyGraph) (connection : Connection) : outcome bool :=
  match adjacency (cn_source connection) g with
  | Throw e => Throw e
  | Ret arcs =>
      Ret (existsb (fun link =>
        match find_port (arc_destination link) g with
        | Some destination_port => bool_decide (port_owner destination_port = cn_destination connection)
        | None => false
        end) arcs)
  end.

(** [std::ranges::all_of] with a predicate that can throw. *)
Fixpoint all_of {A} (f : A -> outcome bool) (l : list A) : outcome bool :=
  match l with
  | [] => Ret true
  | x :: rest =>
      match f x with
      | Ret true => all_of f rest
      | r => r
      end
  end.

Definition rack_matches_clos (g : TopologyGraph) (config : ClosConfig) (spines : list SwitchId) (rack : Rack)
    : outcome bool :=
  let expected_gpu_count := u64_wrap (cc_nics_per_leaf config * cc_gpus_per_nic config) in
  match rack_leaf_switches rack with
  | [leaf_id] =>
      if negb (zlength (rack_nics rack) =? cc_nics_per_leaf config) ||
         negb (zlength (rack_gpus rack) =? expected_gpu_count) then Ret false else
      match find_switch leaf_id g with
      | None => Ret false
      | Some leaf =>
          if negb (zlength (switch_ports leaf) =? u64_wrap (cc_nics_per_leaf config + cc_spine_count config))
          then Ret false else
          match all_of (fun nic_id_ =>
            match find_nic nic_id_ g with
            | None => Ret false
            | Some nic =>
                if negb (zlength (nic_attached_gpus nic) =? cc_gpus_per_nic config) then Ret false
                else directly_connected g (mkConnection (nic_node nic_id_) (switch_node leaf_id))
            end) (rack_nics rack) with
          | Ret true =>
              all_of (fun spine_id =>
                directly_connected g (mkConnection (switch_node leaf_id) (switch_node spine_id))) spines
          | r => r
          end
      end
  | _ => Ret false
  end.

Definition matches_clos_shape (g : TopologyGraph) (config : ClosConfig) (expected : ClosDimensions) : outcome bool :=
  if negb (zlength (gpus_ g) =? cd_gpu_count expected) || negb (zlength (nics_ g) =? cd_nic_count expected) ||
     negb (zlength (racks_ g) =? cd_rack_count expected) ||
     negb (zlength (switches_ g) =? cd_switch_count expected) ||
     negb (zlength (ports_ g) =? cd_port_count expected) || negb (zlength (links_ g) =? cd_link_count expected)
  then Ret false else
  let leaves := switch_id <$> filter (fun s => switch_role s = Leaf) (switches_ g) in
  let spines := switch_id <$> filter (fun s => switch_role s <> Leaf) (switches_ g) in
  if negb (zlength leaves =? cd_leaf_count expected) || negb (zlength spines =? cd_spine_count expected)
  then Ret false else
  if negb (forallb (fun spine_id =>
       match find_switch spine_id g with
       | Some spine => zlength (switch_ports spine) =? cd_leaf_count expected
       | None => false
       end) spines)
  then Ret false else
  all_of (rack_matches_clos g config spines) (racks_ g).

Definition validate_clos_topology (g : TopologyGraph) (config : ClosConfig) : outcome ValidationReport :=
  match clos_dimensions config with
  | Throw e => Throw e
  | Ret expected =>
      match validate_topology g with
      | Throw e => Throw e
      | Ret report =>
          if negb (valid report) then Ret report else
          match matches_clos_shape g config expected with
          | Throw e => Throw e
          | Ret true => Ret report
          | Ret false =>
              Ret (mkValidationReport (vr_errors report ++
                [mkValidationError TopologyShapeMismatch None None "topology does not match the requested Clos profile"]))
          end
      end
  end.
