(* ===== verification/TopologyMembers.v ===== *)
(** * Who belongs to whom

    The lists of members that racks, NICs and switches keep are exactly the
    entities that name them, in the order of their identifiers; ports and links
    come in pairs.  Every operation on the graph keeps it so. *)

From S2P Require Import Prelude SimTime Entities TelemetryRecords Topology TopologyLaws.

(** ** Member lists *)

Section Members.
Implicit Types (ls : list (list Z)) (ks : list (Z * option Z)).

(** List [i] of [ls] holds the identifiers of the entities with key [i]. *)
Definition members ls ks : Prop :=
  forall i l, ls !! i = Some l -> l = fst <$> filter (fun x => snd x = Some (Z.of_nat i)) ks.

Lemma members_nil ks : members [] ks.
Proof. intros i l Hl. by rewrite lookup_nil in Hl. Qed.

Lemma members_add ls ks id k :
  members ls ks -> 0 <= k -> members (alter (fun l => l ++ [id]) (Z.to_nat k) ls) (ks ++ [(id, Some k)]).
Proof.
  intros Hm Hk i l Hl. rewrite filter_app, fmap_app, filter_cons, filter_nil. cbn [snd].
  rewrite list_lookup_alter in Hl. destruct (decide (Z.to_nat k = i)) as [<- | Hne].
  - apply fmap_Some in Hl as (l0 & Hl0 & ->). rewrite decide_True by (f_equal; lia). cbn. f_equal. by apply Hm.
  - rewrite decide_False by (intros [= ->]; lia). cbn. rewrite app_nil_r. by apply Hm.
Qed.

Lemma members_skip ls ks id o :
  members ls ks -> (forall k, o = Some k -> zlength ls <= k) -> members ls (ks ++ [(id, o)]).
Proof.
  intros Hm Ho i l Hl. rewrite filter_app, fmap_app, filter_cons, filter_nil. cbn [snd].
  rewrite decide_False; [cbn; rewrite app_nil_r; by apply Hm |]. intros Hk. specialize (Ho _ Hk).
  apply lookup_lt_Some in Hl. unfold zlength in Ho. lia.
Qed.

Lemma members_more ls ks :
  members ls ks -> (forall id k, (id, Some k) ∈ ks -> k < zlength ls) -> members (ls ++ [[]]) ks.
Proof.
  intros Hm Hks i l Hl. apply lookup_app_Some in Hl as [Hl | [Hge Hl]]; [by apply Hm |].
  apply list_lookup_singleton_Some in Hl as [Hi <-]. rewrite filter_none; [done |].
  intros [id o] Hin. cbn. intros ->. specialize (Hks _ _ Hin). unfold zlength in Hks. lia.
Qed.

(** With distinct identifiers a list holds each of its members once. *)
Lemma members_elem ls ks i l id :
  members ls ks -> ls !! i = Some l -> id ∈ l <-> (id, Some (Z.of_nat i)) ∈ ks.
Proof.
  intros Hm Hl. rewrite (Hm i l Hl), list_elem_of_fmap. split.
  - intros ([id' o] & -> & [Hs Hin]%list_elem_of_filter). cbn in Hs. by subst o.
  - intros Hin. exists (id, Some (Z.of_nat i)). split; [done |]. by apply list_elem_of_filter.
Qed.

Lemma members_NoDup ls ks i l : NoDup (fst <$> ks) -> members ls ks -> ls !! i = Some l -> NoDup l.
Proof.
  intros Hnd Hm Hl. rewrite (Hm i l Hl). eapply sublist_NoDup; [exact Hnd |]. apply fmap_sublist, sublist_filter.
Qed.
End Members.

(** ** Keys *)

Definition rack_of_gpu (w : GpuWorker) : Z * option Z := (gpu_id w, Some (gpu_rack w)).
Definition nic_of_gpu (w : GpuWorker) : Z * option Z := (gpu_id w, Some (gpu_attached_nic w)).
Definition rack_of_nic (n : Nic) : Z * option Z := (nic_id n, Some (nic_rack n)).
Definition rack_of_switch (s : Switch) : Z * option Z := (switch_id s, switch_rack s).

(** The node of a kind that owns a port. *)
Definition owner_key (kind : NodeKind) (p : Port) : Z * option Z :=
  (port_id p, if bool_decide (node_kind (port_owner p) = kind) then Some (node_value (port_owner p)) else None).

(** The port lists of the nodes of a kind. *)
Definition gpu_ports (w : GpuWorker) : list PortId := [gpu_port w].

(** The roles of the ports: those of GPUs are local. *)
Definition port_ok (p : Port) : Prop := node_kind (port_owner p) = NodeKind_Gpu -> port_role p = Local.

Definition switch_ok (g : TopologyGraph) (s : Switch) : Prop :=
  match switch_role s, switch_rack s with
  | Leaf, Some r => 0 <= r < zlength (racks_ g)
  | Spine, None => True
  | _, _ => False
  end.

(** The two ends of a link are ports of the right nodes and roles. *)
Definition ends_ok (kind : LinkKind) (pa pb : Port) : Prop :=
  match kind with
  | LocalAttachment =>
      node_kind (port_owner pa) = NodeKind_Gpu /\ node_kind (port_owner pb) = NodeKind_Nic /\
      port_role pa = Local /\ port_role pb = Local
  | Fabric =>
      node_kind (port_owner pa) <> NodeKind_Gpu /\ node_kind (port_owner pb) <> NodeKind_Gpu /\
      port_role pa <> Local /\ port_role pb <> Local
  end.

(** Link [i] joins ports [2 i] and [2 i + 1]. *)
Definition pair_ok (g : TopologyGraph) (i : nat) (l : PhysicalLink) : Prop :=
  link_endpoint_a l = Z.of_nat (2 * i) /\ link_endpoint_b l = Z.of_nat (2 * i + 1) /\
  exists pa pb, ports_ g !! (2 * i)%nat = Some pa /\ ports_ g !! (2 * i + 1)%nat = Some pb /\
    ends_ok (link_kind l) pa pb.

Record members_ok (g : TopologyGraph) : Prop := {
  mo_rack_gpus : members (rack_gpus <$> racks_ g) (rack_of_gpu <$> gpus_ g);
  mo_rack_nics : members (rack_nics <$> racks_ g) (rack_of_nic <$> nics_ g);
  mo_rack_switches : members (rack_leaf_switches <$> racks_ g) (rack_of_switch <$> switches_ g);
  mo_nic_gpus : members (nic_attached_gpus <$> nics_ g) (nic_of_gpu <$> gpus_ g);
  mo_gpu_ports : members (gpu_ports <$> gpus_ g) (owner_key NodeKind_Gpu <$> ports_ g);
  mo_nic_ports : members (nic_ports <$> nics_ g) (owner_key NodeKind_Nic <$> ports_ g);
  mo_switch_ports : members (switch_ports <$> switches_ g) (owner_key NodeKind_Switch <$> ports_ g);
  mo_switches s : s ∈ switches_ g -> switch_ok g s;
  mo_pairs i l : links_ g !! i = Some l -> pair_ok g i l;
  mo_ports_len : length (ports_ g) = (2 * length (links_ g))%nat;
}.

Lemma empty_members_ok : members_ok empty_graph.
Proof.
  split; try apply members_nil; [| | done].
  - intros s Hs. by apply elem_of_nil in Hs.
  - intros i l Hl. by destruct i.
Qed.

(** What the member lists see of the vectors. *)
Record same_members (g g' : TopologyGraph) : Prop := {
  sm_gpus : gpus_ g' = gpus_ g;
  sm_nics : nics_ g' = nics_ g;
  sm_racks : racks_ g' = racks_ g;
  sm_switches : (fun s => (switch_id s, switch_rack s, switch_role s, switch_ports s)) <$> switches_ g' =
                (fun s => (switch_id s, switch_rack s, switch_role s, switch_ports s)) <$> switches_ g;
  sm_ports : (fun p => (port_id p, port_owner p, port_role p)) <$> ports_ g' =
             (fun p => (port_id p, port_owner p, port_role p)) <$> ports_ g;
  sm_links : (fun l => (link_endpoint_a l, link_endpoint_b l, link_kind l)) <$> links_ g' =
             (fun l => (link_endpoint_a l, link_endpoint_b l, link_kind l)) <$> links_ g;
}.

Lemma fmap_through {A B C} (f : A -> B) (h : B -> C) (l l' : list A) : f <$> l' = f <$> l -> (h ∘ f) <$> l' = (h ∘ f) <$> l.
Proof. intros Hf. by rewrite !list_fmap_compose, Hf. Qed.

Lemma fmap_lookup_same {A B} (f : A -> B) (l l' : list A) i x :
  f <$> l' = f <$> l -> l' !! i = Some x -> exists y, l !! i = Some y /\ f y = f x.
Proof.
  intros Hf Hx. assert ((f <$> l') !! i = Some (f x)) as Hi by (by rewrite list_lookup_fmap, Hx).
  rewrite Hf, list_lookup_fmap in Hi. apply fmap_Some in Hi as (y & Hy & He). eauto.
Qed.

Lemma same_members_ok g g' : same_members g g' -> members_ok g -> members_ok g'.
Proof.
  intros [E1 E2 E3 E4 E5 E6] [H1 H2 H3 H4 H5 H6 H7 H8 H9 H10].
  pose proof (fmap_through _ (fun x => (x.1.1.1, x.1.1.2)) _ _ E4) as S1.
  pose proof (fmap_through _ snd _ _ E4) as S2.
  assert (forall k, owner_key k <$> ports_ g' = owner_key k <$> ports_ g) as P1.
  { intros k. exact (fmap_through _ (fun x => (x.1.1, if bool_decide (node_kind x.1.2 = k)
      then Some (node_value x.1.2) else None)) _ _ E5). }
  change (rack_of_switch <$> switches_ g' = rack_of_switch <$> switches_ g) in S1.
  change (switch_ports <$> switches_ g' = switch_ports <$> switches_ g) in S2.
  split; rewrite ?E1, ?E2, ?E3, ?S1, ?S2, ?P1; try done.
  - intros s [i Hi]%list_elem_of_lookup. destruct (fmap_lookup_same _ _ _ _ _ E4 Hi) as (s0 & Hs0 & [= _ R1 R2 _]).
    specialize (H8 s0 (list_elem_of_lookup_2 _ _ _ Hs0)). unfold switch_ok in *. by rewrite <- R1, <- R2, E3.
  - intros i l Hl. destruct (fmap_lookup_same _ _ _ _ _ E6 Hl) as (l0 & Hl0 & [= L1 L2 L3]).
    destruct (H9 i l0 Hl0) as (A1 & A2 & pa & pb & A3 & A4 & A5). unfold pair_ok. rewrite <- L1, <- L2, <- L3.
    split; [done | split; [done |]]. symmetry in E5.
    destruct (fmap_lookup_same _ _ _ _ _ E5 A3) as (pa' & B1 & [= _ B2 B3]).
    destruct (fmap_lookup_same _ _ _ _ _ E5 A4) as (pb' & C1 & [= _ C2 C3]).
    exists pa', pb'. split; [done | split; [done |]]. unfold ends_ok in *. by rewrite B2, B3, C2, C3.
  - apply (f_equal length) in E5. apply (f_equal length) in E6. rewrite !length_fmap in E5. rewrite !length_fmap in E6.
    by rewrite E5, E6.
Qed.

(** ** Fields after a call *)

Lemma push_adjacency_core n arc g : wp (push_adjacency n arc) (fun g' _ => core g' = core g) (fun _ _ => True) g.
Proof.
  unfold push_adjacency. wp_step. apply wp_gets. wp_step. apply wp_throw_if; [done |]. intros _. apply wp_modify.
  by destruct (node_kind n).
Qed.

Lemma append_link_core l a b g :
  wp (append_link l a b) (fun g' _ => core g' = core {| g with links_ := links_ g ++ [l] |}) (fun _ _ => True) g.
Proof.
  unfold append_link. cbn [directed_links]. wp_step. apply wp_modify. wp_step.
  eapply wp_conseq; [apply push_adjacency_core | | done]. intros g1 [] H1. cbv beta in H1.
  eapply wp_conseq; [apply push_adjacency_core | | done]. intros g2 [] H2. cbv beta in H2. congruence.
Qed.

Lemma wp_draw {A} (m : GraphM A) (Q : TopologyGraph -> A -> Prop) g :
  (forall g' a, m g = (g', Ret a) -> Q g' a) -> wp m Q (fun _ _ => True) g.
Proof. intros HQ. unfold wp. destruct (m g) as [g' [a | e]] eqn:Hm; [by apply HQ | done]. Qed.

(** A draw of an identifier. *)
Definition drawn (i i' : IdGenerator) : Prop :=
  generator_ok i -> generator_ok i' /\ frontier i' = frontier i + 1.

Lemma wp_next get set (Q : TopologyGraph -> Z -> Prop) g :
  (forall i id, drawn (get g) i -> Q (set i g) id) -> wp (zoom get set SequentialIdGenerator.next) Q (fun _ _ => True) g.
Proof.
  intros HQ. unfold wp, zoom. destruct (SequentialIdGenerator.next (get g)) as [i [id | e]] eqn:Hn; [| done].
  apply HQ. intros Hok. destruct (exhausted_ (get g)) eqn:He.
  - destruct (next_exhausted (next := SequentialIdGenerator.next) (get g) He) as [w Hw]. congruence.
  - destruct (next_issues (next := SequentialIdGenerator.next) (get g) Hok He) as (i' & Hi & Hoki & Hf).
    rewrite Hn in Hi. injection Hi as -> ->. by rewrite <- (frontier_next_value _ He) in Hf.
Qed.

Lemma drawn_twice i i' i'' : drawn i i' -> drawn i' i'' -> generator_ok i -> frontier i'' = frontier i + 2.
Proof. intros H1 H2 Hi. destruct (H1 Hi) as [Hi' F1]. destruct (H2 Hi') as [_ F2]. lia. Qed.

(** The fields of a graph that differ in some. *)
Lemma core_vectors g g' : core g' = core g -> same_vectors g g'.
Proof. intros Hc. destruct (core_fields _ _ Hc) as (_ & _ & _ & _ & _ & _ & H). unfold same_vectors. tauto. Qed.

Lemma add_gpu_fields nic g :
  wp (add_gpu nic) (fun g' id => exists k p q l, find_nic nic g = Some k /\
    gpus_ g' = gpus_ g ++ [mkGpuWorker id (nic_rack k) nic p] /\
    nics_ g' = alter (fun n => {| n with nic_attached_gpus := nic_attached_gpus n ++ [id];
                                         nic_ports := nic_ports n ++ [q] |}) (Z.to_nat nic) (nics_ g) /\
    racks_ g' = alter (fun r => {| r with rack_gpus := rack_gpus r ++ [id] |}) (Z.to_nat (nic_rack k)) (racks_ g) /\
    switches_ g' = switches_ g /\
    ports_ g' = ports_ g ++ [mkPort p (gpu_node id) Local Up; mkPort q (nic_node nic) Local Up] /\
    links_ g' = links_ g ++ [mkPhysicalLink l p q LocalAttachment Up] /\
    (ids_ok g -> frontier (gpu_ids_ g') = frontier (gpu_ids_ g) + 1 /\ frontier (port_ids_ g') = frontier (port_ids_ g) + 2)) (fun _ _ => True) g.
Proof.
  unfold add_gpu. wp_step. apply wp_gets. destruct (find_nic nic g) as [k |] eqn:Hk; [| done].
  wp_step. apply wp_next. intros i1 id D1. graph_cbn. wp_step. apply wp_next. intros i2 p D2. graph_cbn. wp_step. apply wp_next. intros i3 q D3. graph_cbn.
  wp_step. apply wp_next. intros i4 l D4. graph_cbn. cbv zeta.
  wp_step. apply wp_modify. graph_cbn. wp_step.
  eapply wp_conseq; [apply append_link_core | | done]. intros g' [] Hc. cbv beta in Hc.
  pose proof (core_vectors _ _ Hc) as (E1 & E2 & E3 & E4 & E5 & E6). apply core_fields in Hc as (F1 & _ & _ & _ & F5 & _).
  apply wp_ret. exists k, p, q, l. split_and!; try done. intros [_ _ _ _ [G1 _] [G2 _]]. rewrite F1, F5.
  split; [by apply D1 | by eapply drawn_twice].
Qed.

(** A port more at a NIC or switch. *)
Definition own_nics (n : NodeId) (p : PortId) (nics : list Nic) : list Nic :=
  if bool_decide (node_kind n = NodeKind_Nic)
  then alter (fun x => {| x with nic_ports := nic_ports x ++ [p] |}) (Z.to_nat (node_value n)) nics else nics.

Definition own_switches (n : NodeId) (p : PortId) (switches : list Switch) : list Switch :=
  if bool_decide (node_kind n = NodeKind_Switch)
  then alter (fun x => {| x with switch_ports := switch_ports x ++ [p] |}) (Z.to_nat (node_value n)) switches
  else switches.

Lemma append_owner_port_fields n p g :
  wp (append_owner_port n p) (fun g' _ => g' =
      {| g with nics_ := own_nics n p (nics_ g); switches_ := own_switches n p (switches_ g) |})
    (fun _ _ => True) g.
Proof.
  unfold append_owner_port, own_nics, own_switches. destruct (node_kind n); [done | |]; wp_step; apply wp_gets; wp_step;
    (apply wp_throw_if; [done |]); intros _; by apply wp_modify.
Qed.

Lemma connect_fabric_fields a ra b rb g :
  wp (connect_fabric a ra b rb) (fun g' _ => exists p q l,
    (contains a g = true /\ contains b g = true /\ node_kind a <> NodeKind_Gpu /\ node_kind b <> NodeKind_Gpu /\
     ra <> Local /\ rb <> Local) /\
    gpus_ g' = gpus_ g /\ nics_ g' = own_nics b q (own_nics a p (nics_ g)) /\
    switches_ g' = own_switches b q (own_switches a p (switches_ g)) /\ racks_ g' = racks_ g /\
    ports_ g' = ports_ g ++ [mkPort p a ra Up; mkPort q b rb Up] /\
    links_ g' = links_ g ++ [mkPhysicalLink l p q Fabric Up] /\
    (ids_ok g -> gpu_ids_ g' = gpu_ids_ g /\ frontier (port_ids_ g') = frontier (port_ids_ g) + 2)) (fun _ _ => True) g.
Proof.
  unfold connect_fabric. wp_step. apply wp_gets.
  wp_step. apply wp_throw_if; [done |]. intros [Hca%negb_false_iff Hcb%negb_false_iff]%orb_false_iff.
  wp_step. apply wp_throw_if; [done |]. intros _.
  wp_step. apply wp_throw_if; [done |]. intros [Hka%bool_decide_eq_false Hkb%bool_decide_eq_false]%orb_false_iff.
  wp_step. apply wp_throw_if; [done |]. intros [Hra%bool_decide_eq_false Hrb%bool_decide_eq_false]%orb_false_iff.
  wp_step. apply wp_of_outcome; [intros conn _ | done]. wp_step. apply wp_throw_if; [done |]. intros _.
  wp_step. apply wp_next. intros i1 p D1. graph_cbn. wp_step. apply wp_next. intros i2 q D2. graph_cbn. wp_step.
  apply wp_next. intros i3 l D3. graph_cbn.
  wp_step. eapply wp_conseq; [apply append_owner_port_fields | | done]. intros g1 [] ->. graph_cbn.
  wp_step. eapply wp_conseq; [apply append_owner_port_fields | | done]. intros g2 [] ->. graph_cbn.
  wp_step. apply wp_modify. graph_cbn. wp_step. eapply wp_conseq; [apply append_link_core | | done].
  intros g' [] Hc. cbv beta in Hc.
  pose proof (core_vectors _ _ Hc) as (E1 & E2 & E3 & E4 & E5 & E6). apply core_fields in Hc as (F1 & _ & _ & _ & F5 & _).
  apply wp_ret. exists p, q, l. split_and!; try done. intros [_ _ _ _ [G1 _] [G2 _]]. rewrite F1, F5.
  split; [done | by eapply drawn_twice].
Qed.

(** ** The keys are known *)

Section Keys.
Context (g : TopologyGraph) (Hg : graph_ok g).

Lemma nic_rack_range n : n ∈ nics_ g -> 0 <= nic_rack n < zlength (racks_ g).
Proof. apply Hg. Qed.

Lemma gpu_keys_range w : w ∈ gpus_ g ->
  0 <= gpu_rack w < zlength (racks_ g) /\ 0 <= gpu_attached_nic w < zlength (nics_ g).
Proof.
  intros Hw. destruct (gs_gpus _ (go_structure _ Hg) w Hw) as (H0 & k & Hk & Hr). split.
  - rewrite <- Hr. apply nic_rack_range. by eapply list_elem_of_lookup_2.
  - apply lookup_lt_Some in Hk. unfold zlength. lia.
Qed.

Lemma rack_of_gpu_range id k : (id, Some k) ∈ rack_of_gpu <$> gpus_ g -> k < zlength (racks_ g).
Proof. intros (w & [= -> ->] & Hw)%list_elem_of_fmap. by apply gpu_keys_range. Qed.

Lemma nic_of_gpu_range id k : (id, Some k) ∈ nic_of_gpu <$> gpus_ g -> k < zlength (nics_ g).
Proof. intros (w & [= -> ->] & Hw)%list_elem_of_fmap. by apply gpu_keys_range. Qed.

Lemma rack_of_nic_range id k : (id, Some k) ∈ rack_of_nic <$> nics_ g -> k < zlength (racks_ g).
Proof. intros (n & [= -> ->] & Hn)%list_elem_of_fmap. by apply nic_rack_range. Qed.

Lemma owner_key_range kind id k : (id, Some k) ∈ owner_key kind <$> ports_ g -> 0 <= k < node_count g kind.
Proof.
  intros (p & Hp & Hin)%list_elem_of_fmap. unfold owner_key in Hp. case_bool_decide as Hk; [| done].
  injection Hp as -> ->. pose proof (gs_owner _ (go_structure _ Hg) p Hin) as Hn. unfold node_in in Hn. by rewrite Hk in Hn.
Qed.

Lemma rack_of_switch_range (Hm : members_ok g) id k :
  (id, Some k) ∈ rack_of_switch <$> switches_ g -> 0 <= k < zlength (racks_ g).
Proof.
  intros (s & [= -> Hk] & Hs)%list_elem_of_fmap. pose proof (mo_switches _ Hm s Hs) as H. unfold switch_ok in H.
  rewrite <- Hk in H. by destruct (switch_role s).
Qed.
End Keys.

Lemma fmap_alter {A B} (h : A -> B) f f' i (l : list A) :
  (forall x, h (f x) = f' (h x)) -> h <$> alter f i l = alter f' i (h <$> l).
Proof.
  intros Hf. revert i. induction l as [| x l IH]; intros [| i]; [done | done | |].
  - change (h (f x) :: (h <$> l) = f' (h x) :: (h <$> l)). by rewrite Hf.
  - change (h x :: (h <$> alter f i l) = h x :: alter f' i (h <$> l)). by rewrite IH.
Qed.

Lemma fmap_alter_same {A B} (h : A -> B) f i (l : list A) : (forall x, h (f x) = h x) -> h <$> alter f i l = h <$> l.
Proof. intros Hf. rewrite (fmap_alter h f id) by done. by apply list_alter_id. Qed.

Lemma fmap_alter_snoc {A} (h : A -> list Z) f i (l : list A) id : (forall x, h (f x) = h x ++ [id]) ->
  h <$> alter f i l = alter (fun y => y ++ [id]) i (h <$> l).
Proof. apply (fmap_alter h f (fun y => y ++ [id])). Qed.

Lemma dense_last {A} (id_of : A -> Z) l x : dense id_of (l ++ [x]) -> id_of x = zlength l.
Proof. intros [_ Hd]. apply Hd. by apply list_lookup_middle. Qed.

Lemma dense_last2 {A} (id_of : A -> Z) l x y :
  dense id_of (l ++ [x; y]) -> id_of x = zlength l /\ id_of y = zlength l + 1.
Proof.
  intros Hd. split; [apply Hd; by apply list_lookup_middle |].
  change [x; y] with ([x] ++ [y]) in Hd. rewrite app_assoc in Hd. apply dense_last in Hd. by rewrite zlength_snoc in Hd.
Qed.

(** A pair stays when ports are added. *)
Lemma pair_grows g g' i l more : ports_ g' = ports_ g ++ more -> pair_ok g i l -> pair_ok g' i l.
Proof.
  intros Hp (A1 & A2 & pa & pb & A3 & A4 & A5). split; [done | split; [done |]]. exists pa, pb. rewrite Hp.
  split; [by apply lookup_app_l_Some | split; [by apply lookup_app_l_Some | done]].
Qed.

(** A link and its two ports. *)
Lemma pairs_snoc g g' l pa pb :
  (forall i l, links_ g !! i = Some l -> pair_ok g i l) -> length (ports_ g) = (2 * length (links_ g))%nat ->
  ports_ g' = ports_ g ++ [pa; pb] -> links_ g' = links_ g ++ [l] ->
  link_endpoint_a l = zlength (ports_ g) -> link_endpoint_b l = zlength (ports_ g) + 1 -> ends_ok (link_kind l) pa pb ->
  (forall i l, links_ g' !! i = Some l -> pair_ok g' i l) /\ length (ports_ g') = (2 * length (links_ g'))%nat.
Proof.
  intros Hpairs Hlen Hp Hl Ha Hb He. rewrite Hp, Hl, !length_app. split; [| cbn; lia].
  intros i l' Hi. apply lookup_app_Some in Hi as [Hi | [Hge Hi]]; [eapply pair_grows, Hpairs; eauto |].
  apply list_lookup_singleton_Some in Hi as [Hi <-]. unfold zlength in *. unfold pair_ok. rewrite Ha, Hb, Hp.
  split; [lia | split; [lia |]]. exists pa, pb. rewrite !lookup_app_r by lia.
  replace (2 * i - length (ports_ g))%nat with 0%nat by lia.
  replace (2 * i + 1 - length (ports_ g))%nat with 1%nat by lia. done.
Qed.

(** A port more in the list of its owner. *)

Lemma own_nics_members n p role nics ks : 0 <= node_value n -> members (nic_ports <$> nics) ks ->
  members (nic_ports <$> own_nics n p nics) (ks ++ [owner_key NodeKind_Nic (mkPort p n role Up)]).
Proof.
  intros Hn Hm. unfold own_nics, owner_key. cbn. case_bool_decide; [| by apply members_skip].
  rewrite (fmap_alter_snoc _ _ _ _ p) by done. by apply members_add.
Qed.

Lemma own_switches_members n p role switches ks : 0 <= node_value n -> members (switch_ports <$> switches) ks ->
  members (switch_ports <$> own_switches n p switches) (ks ++ [owner_key NodeKind_Switch (mkPort p n role Up)]).
Proof.
  intros Hn Hm. unfold own_switches, owner_key. cbn. case_bool_decide; [| by apply members_skip].
  rewrite (fmap_alter_snoc _ _ _ _ p) by done. by apply members_add.
Qed.

Lemma own_nics_same {B} (h : Nic -> B) n p nics :
  (forall x l, h {| x with nic_ports := l |} = h x) -> h <$> own_nics n p nics = h <$> nics.
Proof. intros Hh. unfold own_nics. case_bool_decide; [| done]. by apply fmap_alter_same. Qed.

Lemma own_switches_same {B} (h : Switch -> B) n p switches :
  (forall x l, h {| x with switch_ports := l |} = h x) -> h <$> own_switches n p switches = h <$> switches.
Proof. intros Hh. unfold own_switches. case_bool_decide; [| done]. by apply fmap_alter_same. Qed.

(** ** Preservation *)

Section Preservation.
Context (g g' : TopologyGraph) (Hg : graph_ok g) (Hg' : graph_ok g') (Hm : members_ok g).

Lemma add_rack_members id :
  gpus_ g' = gpus_ g -> nics_ g' = nics_ g -> switches_ g' = switches_ g -> ports_ g' = ports_ g ->
  links_ g' = links_ g -> racks_ g' = racks_ g ++ [mkRack id [] [] []] -> members_ok g'.
Proof.
  intros E1 E2 E3 E4 E5 E6. destruct Hm as [H1 H2 H3 H4 H5 H6 H7 H8 H9 H10].
  split; rewrite ?E1, ?E2, ?E3, ?E4, ?E5, ?E6, ?fmap_app; try done; cbn.
  - apply members_more; [done |]. rewrite zlength_fmap. by apply rack_of_gpu_range.
  - apply members_more; [done |]. rewrite zlength_fmap. by apply rack_of_nic_range.
  - apply members_more; [done |]. rewrite zlength_fmap. intros i k Hk. by eapply rack_of_switch_range.
  - intros s Hs. specialize (H8 s Hs). unfold switch_ok in *. rewrite E6, zlength_snoc.
    destruct (switch_role s), (switch_rack s); try done. lia.
  - intros i l Hl. apply (pair_grows g g' i l []); [by rewrite E4, app_nil_r | by apply H9].
Qed.

Lemma add_nic_members rack id :
  gpus_ g' = gpus_ g -> switches_ g' = switches_ g -> ports_ g' = ports_ g -> links_ g' = links_ g ->
  nics_ g' = nics_ g ++ [mkNic id rack [] []] ->
  racks_ g' = alter (fun r => {| r with rack_nics := rack_nics r ++ [id] |}) (Z.to_nat rack) (racks_ g) ->
  0 <= rack -> members_ok g'.
Proof.
  intros E1 E3 E4 E5 E2 E6 Hr. destruct Hm as [H1 H2 H3 H4 H5 H6 H7 H8 H9 H10].
  split; rewrite ?E1, ?E2, ?E3, ?E4, ?E5, ?E6, ?fmap_app; try done; cbn.
  - by rewrite fmap_alter_same.
  - rewrite (fmap_alter_snoc _ _ _ _ id) by done. by apply members_add.
  - by rewrite fmap_alter_same.
  - apply members_more; [done |]. rewrite zlength_fmap. by apply nic_of_gpu_range.
  - apply members_more; [done |]. rewrite zlength_fmap. intros i k Hk. by apply (owner_key_range g Hg NodeKind_Nic i).
  - intros s Hs. specialize (H8 s Hs). unfold switch_ok in *. by rewrite E6, zlength_alter.
  - intros i l Hl. apply (pair_grows g g' i l []); [by rewrite E4, app_nil_r | by apply H9].
Qed.

Lemma add_switch_members s racks :
  gpus_ g' = gpus_ g -> nics_ g' = nics_ g -> ports_ g' = ports_ g -> links_ g' = links_ g ->
  switches_ g' = switches_ g ++ [s] -> racks_ g' = racks -> switch_ports s = [] -> switch_ok g' s ->
  zlength racks = zlength (racks_ g) -> rack_gpus <$> racks = rack_gpus <$> racks_ g ->
  rack_nics <$> racks = rack_nics <$> racks_ g ->
  members (rack_leaf_switches <$> racks) ((rack_of_switch <$> switches_ g) ++ [rack_of_switch s]) -> members_ok g'.
Proof.
  intros E1 E2 E4 E5 E3 E6 Hp Hs Hl Hr1 Hr2 Hr3. destruct Hm as [H1 H2 H3 H4 H5 H6 H7 H8 H9 H10].
  split; rewrite ?E1, ?E2, ?E3, ?E4, ?E5, ?E6, ?fmap_app; try done; cbn [fmap list_fmap].
  - by rewrite Hr1.
  - by rewrite Hr2.
  - rewrite Hp. apply members_more; [done |]. rewrite zlength_fmap. intros i k Hk.
    by apply (owner_key_range g Hg NodeKind_Switch i).
  - intros s' [Hs' | ->%list_elem_of_singleton]%elem_of_app; [| done].
    specialize (H8 s' Hs'). unfold switch_ok in *. by rewrite E6, Hl.
  - intros i l Hli. apply (pair_grows g g' i l []); [by rewrite E4, app_nil_r | by apply H9].
Qed.

Lemma add_gpu_members nic id k p q l :
  find_nic nic g = Some k ->
  gpus_ g' = gpus_ g ++ [mkGpuWorker id (nic_rack k) nic p] ->
  nics_ g' = alter (fun n => {| n with nic_attached_gpus := nic_attached_gpus n ++ [id];
                                       nic_ports := nic_ports n ++ [q] |}) (Z.to_nat nic) (nics_ g) ->
  racks_ g' = alter (fun r => {| r with rack_gpus := rack_gpus r ++ [id] |}) (Z.to_nat (nic_rack k)) (racks_ g) ->
  switches_ g' = switches_ g ->
  ports_ g' = ports_ g ++ [mkPort p (gpu_node id) Local Up; mkPort q (nic_node nic) Local Up] ->
  links_ g' = links_ g ++ [mkPhysicalLink l p q LocalAttachment Up] -> members_ok g'.
Proof.
  intros Hk E1 E2 E6 E3 E4 E5. destruct Hm as [H1 H2 H3 H4 H5 H6 H7 H8 H9 H10].
  apply find_dense_Some in Hk as [Hn0 Hk]; [| apply Hg].
  pose proof (nic_rack_range g Hg k (list_elem_of_lookup_2 _ _ _ Hk)) as Hr.
  pose proof (gv_gpus _ (go_vectors _ Hg')) as Hid. rewrite E1 in Hid. apply dense_last in Hid. cbn in Hid.
  pose proof (gv_ports _ (go_vectors _ Hg')) as Hpq. rewrite E4 in Hpq. apply dense_last2 in Hpq as [Hp Hq]. cbn in Hp, Hq.
  destruct (pairs_snoc g g' _ _ _ H9 H10 E4 E5 Hp) as [H9' H10']; [cbn; lia | done |].
  assert (0 <= id) as Hid0 by (rewrite Hid; apply zlength_nonneg).
  split; rewrite ?E1, ?E2, ?E3, ?E6, ?fmap_app; try done.
  - rewrite (fmap_alter_snoc _ _ _ _ id) by done. apply members_add; [done | lia].
  - rewrite fmap_alter_same by done. by rewrite fmap_alter_same.
  - by rewrite fmap_alter_same.
  - rewrite (fmap_alter_snoc _ _ _ _ id) by done. by apply members_add.
  - rewrite E4, fmap_app. change (owner_key NodeKind_Gpu <$> [mkPort p _ _ _; _]) with ([(p, Some id)] ++ [(q, None)]).
    rewrite app_assoc. apply members_skip; [| done].
    replace ((gpu_ports <$> gpus_ g) ++ (gpu_ports <$> [mkGpuWorker id (nic_rack k) nic p])) with
      (alter (fun y => y ++ [p]) (Z.to_nat id) ((gpu_ports <$> gpus_ g) ++ [[]])).
    { apply members_add; [| done]. apply members_more; [done |]. rewrite zlength_fmap.
      intros i x Hx. by apply (owner_key_range g Hg NodeKind_Gpu i). }
    rewrite Hid. unfold zlength. rewrite Nat2Z.id. rewrite <- (length_fmap gpu_ports (gpus_ g)) at 1.
    rewrite alter_app_r_alt by done. by rewrite Nat.sub_diag.
  - rewrite E4, fmap_app. change (owner_key NodeKind_Nic <$> [mkPort p _ _ _; _]) with ([(p, None)] ++ [(q, Some nic)]).
    rewrite app_assoc, (fmap_alter_snoc _ _ _ _ q) by done. apply members_add; [| done]. by apply members_skip.
  - rewrite E4, fmap_app. change (owner_key NodeKind_Switch <$> [mkPort p _ _ _; _]) with ([(p, None : option Z)] ++ [(q, None)]).
    rewrite app_assoc. by do 2 (apply members_skip; [| done]).
  - intros s Hs. specialize (H8 s Hs). unfold switch_ok in *. by rewrite E6, zlength_alter.
Qed.

Lemma connect_members a ra b rb p q l :
  contains a g = true -> contains b g = true -> node_kind a <> NodeKind_Gpu -> node_kind b <> NodeKind_Gpu ->
  ra <> Local -> rb <> Local ->
  gpus_ g' = gpus_ g -> nics_ g' = own_nics b q (own_nics a p (nics_ g)) ->
  switches_ g' = own_switches b q (own_switches a p (switches_ g)) -> racks_ g' = racks_ g ->
  ports_ g' = ports_ g ++ [mkPort p a ra Up; mkPort q b rb Up] ->
  links_ g' = links_ g ++ [mkPhysicalLink l p q Fabric Up] -> members_ok g'.
Proof.
  intros Ha Hb Ka Kb Ra Rb E1 E2 E3 E6 E4 E5. destruct Hm as [H1 H2 H3 H4 H5 H6 H7 H8 H9 H10].
  apply contains_node_in in Ha as [Ha _]; [| apply Hg]. apply contains_node_in in Hb as [Hb _]; [| apply Hg].
  pose proof (gv_ports _ (go_vectors _ Hg')) as Hpq. rewrite E4 in Hpq. apply dense_last2 in Hpq as [Hp Hq]. cbn in Hp, Hq.
  destruct (pairs_snoc g g' _ _ _ H9 H10 E4 E5 Hp) as [H9' H10']; [cbn; lia | done |].
  assert (forall k, owner_key k <$> ports_ g' = ((owner_key k <$> ports_ g) ++ [owner_key k (mkPort p a ra Up)]) ++
    [owner_key k (mkPort q b rb Up)]) as Hk by (intros k; by rewrite E4, fmap_app, <- app_assoc).
  split; rewrite ?Hk, ?E1, ?E2, ?E3, ?E6; try done.
  - by rewrite !own_nics_same.
  - by rewrite !own_switches_same.
  - by rewrite !own_nics_same.
  - unfold owner_key. cbn. rewrite !bool_decide_eq_false_2 by done. by do 2 (apply members_skip; [| done]).
  - by do 2 (apply own_nics_members; [done |]).
  - by do 2 (apply own_switches_members; [done |]).
  - intros s [i Hi]%list_elem_of_lookup.
    assert ((fun s => (switch_role s, switch_rack s)) <$> own_switches b q (own_switches a p (switches_ g)) =
      (fun s => (switch_role s, switch_rack s)) <$> switches_ g) as Hsame by (rewrite !own_switches_same; done).
    destruct (fmap_lookup_same _ _ _ i s Hsame Hi) as (s0 & Hs0 & [= R1 R2]).
    specialize (H8 s0 (list_elem_of_lookup_2 _ _ _ Hs0)). unfold switch_ok in *. by rewrite <- R1, <- R2, E6.
Qed.
End Preservation.

(** ** Sequences of operations *)

Definition sound_graph (g : TopologyGraph) : Prop := graph_ok g /\ members_ok g.

Lemma same_vectors_members g g' : same_vectors g g' -> members_ok g -> members_ok g'.
Proof.
  intros (E1 & E2 & E3 & E4 & E5 & E6). apply same_members_ok. split; try done; by rewrite ?E3, ?E5, ?E6.
Qed.

(** The members of a graph after a call, returned or refused. *)
Lemma members_after {A} (m : GraphM A) g Q E F :
  wp m Q E g -> wp m F (fun _ _ => True) g ->
  (forall g' a, Q g' a -> F g' a -> members_ok g') -> (forall g' e, E g' e -> members_ok g') -> members_ok (fst (m g)).
Proof. unfold wp. destruct (m g) as [g' [a | e]]; eauto. Qed.

(** No port and no GPU is drawn. *)
Definition same_supply (g g' : TopologyGraph) : Prop := gpu_ids_ g' = gpu_ids_ g /\ port_ids_ g' = port_ids_ g.

Lemma add_rack_fields g :
  wp add_rack (fun g' id => gpus_ g' = gpus_ g /\ nics_ g' = nics_ g /\ switches_ g' = switches_ g /\
    ports_ g' = ports_ g /\ links_ g' = links_ g /\ racks_ g' = racks_ g ++ [mkRack id [] [] []] /\ same_supply g g') (fun _ _ => True) g.
Proof. unfold add_rack. wp_step. apply wp_next. intros i id Hd. wp_step. apply wp_modify. by apply wp_ret. Qed.

Lemma add_nic_fields rack g :
  wp (add_nic rack) (fun g' id => is_Some (find_rack rack g) /\ gpus_ g' = gpus_ g /\ switches_ g' = switches_ g /\
    ports_ g' = ports_ g /\ links_ g' = links_ g /\ nics_ g' = nics_ g ++ [mkNic id rack [] []] /\
    racks_ g' = alter (fun r => {| r with rack_nics := rack_nics r ++ [id] |}) (Z.to_nat rack) (racks_ g) /\
    same_supply g g') (fun _ _ => True) g.
Proof.
  unfold add_nic. wp_step. apply wp_gets. wp_step. apply wp_throw_if; [done |].
  intros Hr%negb_false_iff%bool_decide_eq_true. wp_step. apply wp_next. intros i id Hd. wp_step. apply wp_modify. by apply wp_ret.
Qed.

Lemma add_leaf_switch_fields rack g :
  wp (add_leaf_switch rack) (fun g' id => is_Some (find_rack rack g) /\ gpus_ g' = gpus_ g /\ nics_ g' = nics_ g /\
    ports_ g' = ports_ g /\ links_ g' = links_ g /\ switches_ g' = switches_ g ++ [mkSwitch id (Some rack) Leaf [] Up] /\
    racks_ g' = alter (fun r => {| r with rack_leaf_switches := rack_leaf_switches r ++ [id] |}) (Z.to_nat rack) (racks_ g) /\
    same_supply g g') (fun _ _ => True) g.
Proof.
  unfold add_leaf_switch. wp_step. apply wp_gets. wp_step. apply wp_throw_if; [done |].
  intros Hr%negb_false_iff%bool_decide_eq_true. wp_step. apply wp_next. intros i id Hd. wp_step. apply wp_modify. by apply wp_ret.
Qed.

Lemma add_spine_switch_fields g :
  wp add_spine_switch (fun g' id => gpus_ g' = gpus_ g /\ nics_ g' = nics_ g /\ ports_ g' = ports_ g /\
    links_ g' = links_ g /\ switches_ g' = switches_ g ++ [mkSwitch id None Spine [] Up] /\ racks_ g' = racks_ g /\
    same_supply g g') (fun _ _ => True) g.
Proof. unfold add_spine_switch. wp_step. apply wp_next. intros i id Hd. wp_step. apply wp_modify. by apply wp_ret. Qed.

Lemma find_rack_range rack g : graph_ok g -> is_Some (find_rack rack g) -> 0 <= rack < zlength (racks_ g).
Proof. intros Hg. apply find_dense_is_Some, Hg. Qed.

Lemma graph_step_members g op : sound_graph g -> members_ok (graph_step g op).
Proof.
  intros [Hg Hm]. destruct op; cbn [graph_step].
  - eapply members_after; [by apply add_rack_spec | apply add_rack_fields | | by intros ? ? [-> _]].
    intros g' id (Hg' & _) (E1 & E2 & E3 & E4 & E5 & E6 & _). by eapply (add_rack_members g g').
  - eapply members_after; [by apply add_nic_spec | apply add_nic_fields | | by intros ? ? [-> _]].
    intros g' id (Hg' & _) (Hr & E1 & E2 & E3 & E4 & E5 & E6 & _). eapply (add_nic_members g g'); try done. by apply (find_rack_range _ g).
  - eapply members_after; [by apply add_gpu_spec | apply add_gpu_fields | | intros ? ? (_ & ? & _); by eapply same_vectors_members].
    intros g' id (Hg' & _) (k & p & q & l & Hk & E1 & E2 & E3 & E4 & E5 & E6 & _). by eapply (add_gpu_members g g').
  - eapply members_after; [by apply add_leaf_switch_spec | apply add_leaf_switch_fields | | by intros ? ? [-> _]].
    intros g' id (Hg' & _) (Hr%(find_rack_range _ g Hg) & E1 & E2 & E3 & E4 & E5 & E6 & _).
    eapply (add_switch_members g g' Hg Hm _ _ E1 E2 E3 E4 E5 E6); [done | | apply zlength_alter | by apply fmap_alter_same | by apply fmap_alter_same |].
    + unfold switch_ok. cbn. by rewrite E6, zlength_alter.
    + rewrite (fmap_alter_snoc _ _ _ _ id) by done. apply members_add; [apply Hm | lia].
  - eapply members_after; [by apply add_spine_switch_spec | apply add_spine_switch_fields | | by intros ? ? [-> _]].
    intros g' id (Hg' & _) (E1 & E2 & E3 & E4 & E5 & E6 & _).
    eapply (add_switch_members g g' Hg Hm); try done. apply members_skip; [apply Hm | done].
  - eapply members_after; [by apply connect_fabric_spec | apply connect_fabric_fields | | intros ? ? (_ & ? & _); by eapply same_vectors_members].
    intros g' id (Hg' & _) (p & q & l & (C1 & C2 & C3 & C4 & C5 & C6) & E1 & E2 & E3 & E4 & E5 & E6 & _).
    by apply (connect_members g g' Hg Hg' Hm a ra b rb p q l).
  - eapply same_members_ok, Hm. unfold set_link_state. repeat case_match; try by split.
    split; try done. cbn. by rewrite fmap_alter_same.
  - eapply same_members_ok, Hm. unfold set_port_state. repeat case_match; try by split.
    split; try done. cbn. by rewrite fmap_alter_same.
  - eapply same_members_ok, Hm. unfold set_switch_state. repeat case_match; try by split.
    split; try done. cbn. by rewrite fmap_alter_same.
Qed.

Lemma build_sound ops : sound_graph (build ops).
Proof.
  unfold build. generalize (conj empty_graph_ok empty_members_ok : sound_graph empty_graph). generalize empty_graph.
  induction ops as [| op ops IH]; intros g Hg; [done |]. apply IH. split; [apply graph_step_ok, Hg | by apply graph_step_members].
Qed.
