(* ===== verification/ValidationLaws.v ===== *)
(** * What validation finds

    In a graph that was built through the calls of [TopologyGraph] nothing but
    missing GPUs and missing connections can be wrong; the search for the latter
    ends and finds the nodes that links lead to. *)

From S2P Require Import Prelude SimTime Entities TelemetryRecords Topology TopologyLaws RoutingPathsLaws.
From S2P Require Import TopologyFamilies TopologyClos TopologyValidation TopologyMembers.

(** ** Counting *)

Lemma count_value_one {A} `{EqDecision A} (l : list A) x : NoDup l -> x ∈ l -> count_value l x = 1.
Proof.
  intros Hnd Hx. unfold count_value. induction Hnd as [| y l Hy Hnd IH]; [by apply elem_of_nil in Hx |].
  rewrite filter_cons. apply elem_of_cons in Hx as [<- | Hx].
  - rewrite decide_True by done. rewrite filter_none; [done |]. intros z Hz ->. done.
  - rewrite decide_False by (by intros ->). by apply IH.
Qed.

Lemma has_dense_ids_true {A} (id_of : A -> Z) l : dense id_of l -> has_dense_ids id_of l = true.
Proof.
  intros [_ Hd]. unfold has_dense_ids.
  assert (forall k : nat, (forall i e, l !! i = Some e -> id_of e = Z.of_nat (k + i)) -> dense_from id_of (Z.of_nat k) l = true) as Hgen.
  { clear Hd. induction l as [| x l IH]; intros k Hd; [done |]. cbn.
    pose proof (Hd 0%nat x eq_refl) as Hx. replace (id_of x =? Z.of_nat k) with true by lia. cbn.
    replace (Z.of_nat k + 1) with (Z.of_nat (S k)) by lia. apply IH. intros i e He. rewrite (Hd (S i) e He). lia. }
  by apply (Hgen 0%nat).
Qed.

Lemma dense_NoDup {A} (id_of : A -> Z) l : dense id_of l -> NoDup (id_of <$> l).
Proof.
  intros [_ Hd]. apply NoDup_alt. intros i j x Hi Hj. rewrite list_lookup_fmap in Hi, Hj.
  apply fmap_Some in Hi as (a & Ha & ->). apply fmap_Some in Hj as (b & Hb & Heq).
  apply Hd in Ha, Hb. lia.
Qed.

(** ** Quiet checks *)

Definition clean (m : M ValidationReport unit) : Prop := forall r, m r = (r, Ret tt).

Lemma clean_ret : clean (ret tt).
Proof. done. Qed.

Lemma clean_bind m k : clean m -> clean (k tt) -> clean (bind m k).
Proof. intros Hm Hk r. unfold bind. rewrite Hm. apply Hk. Qed.

Lemma clean_for_each {A} (l : list A) f : (forall x, x ∈ l -> clean (f x)) -> clean (for_each l f).
Proof.
  induction l as [| x l IH]; intros Hf; [done |]. cbn. apply clean_bind; [apply Hf; left |].
  apply IH. intros y Hy. apply Hf. by right.
Qed.

Lemma clean_when b m : b = false -> clean (when b m).
Proof. by intros ->. Qed.

(** ** The checks before the search *)

Section Checks.
Context (g : TopologyGraph) (Hs : sound_graph g).
#[local] Abbreviation Hg := (proj1 Hs).
#[local] Abbreviation Hm := (proj2 Hs).
#[local] Abbreviation Hv := (go_vectors _ (proj1 Hs)).

(** A member of a list of [ls]: known, with the list as its key, and there once. *)
Lemma member_of {E A} (lst : E -> list Z) (es : list E) (key : A -> Z * option Z) (l : list A) (id_of : A -> Z) i e id :
  dense id_of l -> (forall x, fst (key x) = id_of x) -> members (lst <$> es) (key <$> l) ->
  es !! i = Some e -> id ∈ lst e ->
  (exists x, find_dense id_of l id = Some x /\ snd (key x) = Some (Z.of_nat i)) /\ count_value (lst e) id = 1.
Proof.
  intros Hd Hkey Hmem He Hid. assert ((lst <$> es) !! i = Some (lst e)) as Hl by (by rewrite list_lookup_fmap, He).
  split.
  - apply (members_elem _ _ _ _ _ Hmem Hl) in Hid. apply list_elem_of_fmap in Hid as (x & Hx & Hin).
    exists x. rewrite <- Hx. split; [| done]. apply list_elem_of_lookup in Hin as [j Hj].
    apply find_dense_Some; [done |]. pose proof (proj2 Hd j x Hj) as Hidx. rewrite <- Hkey, <- Hx in Hidx. cbn in Hidx.
    subst id. rewrite Nat2Z.id. split; [lia | done].
  - apply count_value_one; [| done]. eapply members_NoDup; [| exact Hmem | exact Hl].
    rewrite <- list_fmap_compose. rewrite (list_fmap_ext _ id_of l); [by apply dense_NoDup | by intros j x _; apply Hkey].
Qed.

(** The other way: an entity is a member of the list its key names. *)
Lemma member_in {E A} (lst : E -> list Z) (es : list E) (id_es : E -> Z) (key : A -> Z * option Z) (l : list A)
    (id_of : A -> Z) x k :
  dense id_of l -> dense id_es es -> (forall x, fst (key x) = id_of x) -> members (lst <$> es) (key <$> l) ->
  x ∈ l -> snd (key x) = Some k -> 0 <= k < zlength es ->
  exists e, find_dense id_es es k = Some e /\ es !! Z.to_nat k = Some e /\ id_of x ∈ lst e /\ count_value (lst e) (id_of x) = 1.
Proof.
  intros Hd Hde Hkey Hmem Hx Hk Hr. destruct (lookup_lt_is_Some_2 es (Z.to_nat k)) as [e He]; [unfold zlength in Hr; lia |].
  assert ((lst <$> es) !! Z.to_nat k = Some (lst e)) as Hl by (by rewrite list_lookup_fmap, He).
  assert (id_of x ∈ lst e) as Hin.
  { apply (members_elem _ _ _ _ _ Hmem Hl). rewrite Z2Nat.id by lia. apply list_elem_of_fmap. exists x. split; [| done].
    rewrite (surjective_pairing (key x)), Hkey, Hk. done. }
  exists e. split; [apply find_dense_Some; [done | split; [lia | done]] | split; [done | split; [done |]]].
  by destruct (member_of lst es key l id_of (Z.to_nat k) e (id_of x)).
Qed.

Lemma identity_clean : gpus_ g <> [] -> clean (validate_identity g).
Proof.
  intros Hne. unfold validate_identity, validate_dense.
  repeat (apply clean_bind || (apply clean_when; rewrite ?has_dense_ids_true by apply Hv; by rewrite ?bool_decide_eq_false_2)).
Qed.

(** A rack at its place. *)
Lemma rack_at rack : rack ∈ racks_ g -> exists i, racks_ g !! i = Some rack /\ rack_id rack = Z.of_nat i.
Proof. intros [i Hi]%list_elem_of_lookup. exists i. split; [done |]. by apply (gv_racks _ Hv). Qed.

Lemma racks_clean : clean (validate_racks g).
Proof.
  apply clean_for_each. intros rack (i & Hi & Hid)%rack_at.
  apply clean_bind; [| apply clean_bind]; apply clean_for_each; intros id Hin.
  - destruct (member_of rack_gpus (racks_ g) rack_of_gpu (gpus_ g) gpu_id i rack id) as [(w & Hw & [= Hk]) Hc];
      try done; [apply Hv | apply Hm |].
    unfold find_gpu. rewrite Hw. apply clean_when. rewrite Hk, Hid, Hc, Z.eqb_refl. done.
  - destruct (member_of rack_nics (racks_ g) rack_of_nic (nics_ g) nic_id i rack id) as [(w & Hw & [= Hk]) Hc];
      try done; [apply Hv | apply Hm |].
    unfold find_nic. rewrite Hw. apply clean_when. rewrite Hk, Hid, Hc, Z.eqb_refl. done.
  - destruct (member_of rack_leaf_switches (racks_ g) rack_of_switch (switches_ g) switch_id i rack id) as [(w & Hw & Hk) Hc];
      try done; [apply Hv | apply Hm |]. cbn in Hk.
    unfold find_switch. rewrite Hw. apply clean_when. apply find_dense_Some in Hw as [_ Hw]; [| apply Hv].
    pose proof (mo_switches _ Hm w (list_elem_of_lookup_2 _ _ _ Hw)) as Hsw. unfold switch_ok in Hsw. rewrite Hk in Hsw.
    destruct (switch_role w) eqn:Hrole; [| done]. rewrite Hk, Hid, Hc. by rewrite !bool_decide_eq_false_2 by (intros Hn; by apply Hn).
Qed.

(** The port lists of a node. *)
Lemma owned_clean kind {E} (lst : E -> list PortId) (es : list E) i e :
  members (lst <$> es) (owner_key kind <$> ports_ g) -> es !! i = Some e ->
  clean (validate_owned_ports g (mkNodeId kind (Z.of_nat i)) (lst e)).
Proof.
  intros Hmem He. apply clean_for_each. intros id Hin.
  destruct (member_of lst es (owner_key kind) (ports_ g) port_id i e id) as [(p & Hp & Hk) Hc]; try done; [apply Hv |].
  unfold find_port. rewrite Hp. apply clean_when. cbn in Hk. case_bool_decide as Hkind; [| done]. injection Hk as Hk.
  rewrite Hc. cbn. rewrite orb_false_r. apply bool_decide_eq_false. intros Hne. apply Hne.
  destruct (port_owner p). cbn in *. congruence.
Qed.

(** The link of a port. *)
Lemma port_link j p : ports_ g !! j = Some p ->
  exists i l, links_ g !! i = Some l /\ pair_ok g i l /\ (j = 2 * i \/ j = 2 * i + 1)%nat.
Proof.
  intros Hp. apply lookup_lt_Some in Hp. rewrite (mo_ports_len _ Hm) in Hp.
  destruct (lookup_lt_is_Some_2 (links_ g) (j / 2)%nat) as [l Hl]; [apply Nat.Div0.div_lt_upper_bound; lia |].
  exists (j / 2)%nat, l. split; [done | split; [by apply Hm |]].
  pose proof (Nat.div_mod_eq j 2). pose proof (Nat.mod_upper_bound j 2 ltac:(lia)). lia.
Qed.

Lemma port_roles j p : ports_ g !! j = Some p -> node_kind (port_owner p) = NodeKind_Gpu -> port_role p = Local.
Proof.
  intros Hp Hk. destruct (port_link j p Hp) as (i & l & _ & (_ & _ & pa & pb & Ha & Hb & He) & Hj).
  assert (p = pa \/ p = pb) as [-> | ->] by (destruct Hj as [-> | ->]; [left | right]; congruence);
    unfold ends_ok in He; destruct (link_kind l); tauto.
Qed.

Lemma gpus_clean : clean (validate_gpus g).
Proof.
  apply clean_for_each. intros w Hw. unfold validate_gpu. destruct (gpu_keys_range g Hg w Hw) as [Hr Hn].
  destruct (gs_gpus _ (go_structure _ Hg) w Hw) as (_ & k & Hk & Hkr).
  destruct (member_in rack_gpus (racks_ g) rack_id rack_of_gpu (gpus_ g) gpu_id w (gpu_rack w))
    as (rack & Hfr & _ & _ & Hcr); try done; [apply Hv | apply Hv | apply Hm |].
  destruct (member_in nic_attached_gpus (nics_ g) nic_id nic_of_gpu (gpus_ g) gpu_id w (gpu_attached_nic w))
    as (nic & Hfn & Hnic & _ & Hcn); try done; [apply Hv | apply Hv | apply Hm |].
  rewrite Hk in Hnic. injection Hnic as <-. apply list_elem_of_lookup in Hw as [i Hi].
  pose proof (proj2 (gv_gpus _ Hv) i w Hi) as Hid.
  destruct (member_of gpu_ports (gpus_ g) (owner_key NodeKind_Gpu) (ports_ g) port_id i w (gpu_port w))
    as [(p & Hp & Hpk) _]; try done; [apply Hv | apply Hm | by apply list_elem_of_singleton |].
  unfold find_nic, find_rack, find_port. rewrite Hfn, Hfr, Hp. cbn in Hpk. case_bool_decide as Hkind; [| done]. injection Hpk as Hpv.
  apply clean_bind; apply clean_when; [by rewrite Hkr, Hcr, Hcn, Z.eqb_refl |].
  apply find_dense_Some in Hp as [_ Hp]; [| apply Hv].
  rewrite (port_roles (Z.to_nat (gpu_port w)) p Hp Hkind), Hid. rewrite !bool_decide_eq_false_2; [done | by intros Hne; apply Hne |].
  intros Hne. apply Hne. destruct (port_owner p). cbn in *. by subst.
Qed.

Lemma nics_clean : clean (validate_nics g).
Proof.
  apply clean_for_each. intros n Hn. unfold validate_nic. pose proof (nic_rack_range g Hg n Hn) as Hr.
  destruct (member_in rack_nics (racks_ g) rack_id rack_of_nic (nics_ g) nic_id n (nic_rack n))
    as (rack & Hfr & _ & _ & Hcr); try done; [apply Hv | apply Hv | apply Hm |].
  unfold find_rack. rewrite Hfr. apply list_elem_of_lookup in Hn as [i Hi].
  pose proof (proj2 (gv_nics _ Hv) i n Hi) as Hid.
  apply clean_bind; [apply clean_when; by rewrite Hcr | apply clean_bind].
  - apply clean_for_each. intros id Hin.
    destruct (member_of nic_attached_gpus (nics_ g) nic_of_gpu (gpus_ g) gpu_id i n id) as [(w & Hw & [= Hk]) Hc];
      try done; [apply Hv | apply Hm |].
    unfold find_gpu. rewrite Hw. apply clean_when. by rewrite Hk, Hid, Hc, Z.eqb_refl.
  - rewrite Hid. apply (owned_clean NodeKind_Nic nic_ports (nics_ g)); [apply Hm | done].
Qed.

Lemma switches_clean : clean (validate_switches g).
Proof.
  apply clean_for_each. intros s Hin. unfold validate_switch. pose proof (mo_switches _ Hm s Hin) as Hsw. unfold switch_ok in Hsw.
  pose proof Hin as [i Hi]%list_elem_of_lookup. pose proof (proj2 (gv_switches _ Hv) i s Hi) as Hid.
  apply clean_bind; [| rewrite Hid; apply (owned_clean NodeKind_Switch switch_ports (switches_ g)); [apply Hm | done]].
  destruct (switch_role s), (switch_rack s) as [r |] eqn:Hr; try done.
  destruct (member_in rack_leaf_switches (racks_ g) rack_id rack_of_switch (switches_ g) switch_id s r)
    as (rack & Hfr & _ & _ & Hcr); try done; [apply Hv | apply Hv | apply Hm |].
  unfold find_rack. rewrite Hfr. apply clean_when. by rewrite Hcr.
Qed.

(** Every port ends one link. *)
Lemma count_next n rest : Z.of_nat n <= u64_max ->
  count_port_endpoint (replicate n 1 ++ 0 :: rest) (Z.of_nat n) = replicate (S n) 1 ++ rest.
Proof.
  intros Hn. unfold count_port_endpoint. replace (u64_max <? Z.of_nat n) with false by lia.
  rewrite Nat2Z.id. rewrite list_lookup_middle by (by rewrite length_replicate). cbn [Z.ltb Z.compare].
  rewrite insert_app_r_alt by (by rewrite length_replicate). rewrite length_replicate, Nat.sub_diag.
  by rewrite replicate_S_end, <- app_assoc.
Qed.

Lemma counts_from (ls : list PhysicalLink) k :
  (forall i l, ls !! i = Some l -> link_endpoint_a l = Z.of_nat (2 * (k + i)) /\ link_endpoint_b l = Z.of_nat (2 * (k + i) + 1)) ->
  Z.of_nat (2 * (k + length ls)) <= u64_max + 1 ->
  fold_left (fun counts link =>
      count_port_endpoint (count_port_endpoint counts (link_endpoint_a link)) (link_endpoint_b link))
    ls (replicate (2 * k) 1 ++ replicate (2 * length ls) 0) = replicate (2 * (k + length ls)) 1.
Proof.
  revert k. induction ls as [| l ls IH]; intros k Hends Hle.
  { cbn [fold_left length]. rewrite app_nil_r. f_equal. lia. }
  cbn [fold_left length]. destruct (Hends 0%nat l eq_refl) as [-> ->]. rewrite Nat.add_0_r. cbn [length] in Hle.
  replace (2 * S (length ls))%nat with (S (S (2 * length ls))) by lia. cbn [replicate].
  rewrite count_next by lia. replace (2 * k + 1)%nat with (S (2 * k)) by lia. rewrite count_next by lia.
  replace (S (S (2 * k))) with (2 * S k)%nat by lia. rewrite IH; [f_equal; lia | | lia].
  intros i l' Hl'. destruct (Hends (S i) l' Hl') as [-> ->]. split; f_equal; lia.
Qed.

Lemma port_link_counts_one : port_link_counts g = replicate (length (ports_ g)) 1.
Proof.
  unfold port_link_counts. rewrite (mo_ports_len _ Hm). apply (counts_from (links_ g) 0).
  - intros i l Hl. destruct (mo_pairs _ Hm i l Hl) as (A1 & A2 & _). done.
  - pose proof (proj1 (gv_ports _ Hv)) as Hlen. unfold zlength in Hlen. rewrite (mo_ports_len _ Hm) in Hlen. cbn in *. lia.
Qed.

Lemma owner_references_true p : p ∈ ports_ g -> owner_references g p = true.
Proof.
  intros Hp. pose proof (gs_owner _ (go_structure _ Hg) p Hp) as [H0 Hlt].
  assert (forall {E} (lst : E -> list PortId) (es : list E) id_es, dense id_es es -> zlength es = node_count g (node_kind (port_owner p)) ->
    members (lst <$> es) (owner_key (node_kind (port_owner p)) <$> ports_ g) ->
    exists e, find_dense id_es es (node_value (port_owner p)) = Some e /\ port_id p ∈ lst e /\ count_value (lst e) (port_id p) = 1) as Hall.
  { intros E lst es id_es Hd Hlen Hmem.
    destruct (member_in lst es id_es (owner_key (node_kind (port_owner p))) (ports_ g) port_id p (node_value (port_owner p)))
      as (e & H1 & _ & H3 & H4); try done; [apply Hv | | by rewrite Hlen | by exists e].
    cbn. by rewrite bool_decide_eq_true_2. }
  unfold owner_references. destruct (node_kind (port_owner p)).
  - destruct (Hall _ gpu_ports (gpus_ g) gpu_id) as (e & He & Hin & _); [apply Hv | done | apply Hm |].
    unfold find_gpu. rewrite He. apply list_elem_of_singleton in Hin. rewrite Hin. apply Z.eqb_refl.
  - destruct (Hall _ nic_ports (nics_ g) nic_id) as (e & He & _ & Hc); [apply Hv | done | apply Hm |].
    unfold find_nic. by rewrite He, Hc.
  - destruct (Hall _ switch_ports (switches_ g) switch_id) as (e & He & _ & Hc); [apply Hv | done | apply Hm |].
    unfold find_switch. by rewrite He, Hc.
Qed.

Lemma ports_clean : clean (validate_ports g).
Proof.
  apply clean_for_each. intros p Hp. unfold validate_port. rewrite owner_references_true by done.
  apply clean_bind; [done |]. apply clean_when. rewrite port_link_counts_one.
  apply list_elem_of_lookup in Hp as [i Hi]. pose proof (proj2 (gv_ports _ Hv) i p Hi) as Hid.
  apply lookup_lt_Some in Hi. pose proof (proj1 (gv_ports _ Hv)) as Hlen. unfold zlength in Hlen.
  replace (port_id p <=? u64_max) with true by lia. rewrite Hid, Nat2Z.id, lookup_replicate_2 by done.
  by rewrite bool_decide_eq_true_2.
Qed.

(** The arcs of a link are among the arcs of their sources, once. *)
Lemma arc_counted arc l n : l ∈ links_ g -> arc = fst (directed_links l) \/ arc = snd (directed_links l) ->
  owner_of g (arc_source arc) = Some n -> count_value (arcs_from g n) arc = 1.
Proof.
  intros Hl Harc Hn. apply count_value_one.
  - by eapply NoDup_fmap_1, arcs_from_ids, Hg.
  - apply list_elem_of_filter. split; [done |]. apply elem_of_arcs. eauto.
Qed.

Lemma links_clean : clean (validate_links g).
Proof.
  apply clean_for_each. intros l Hin. pose proof Hin as [i Hi]%list_elem_of_lookup.
  destruct (mo_pairs _ Hm i l Hi) as (Ea & Eb & pa & pb & Ha & Hb & He).
  pose proof (gs_links _ (go_structure _ Hg) l Hin) as (_ & _ & Hne & _).
  assert (forall j p, ports_ g !! j = Some p -> find_port (Z.of_nat j) g = Some p /\ contains (port_owner p) g = true /\
    owner_of g (Z.of_nat j) = Some (port_owner p)) as Hport.
  { intros j p Hj. split; [apply find_dense_Some; [apply Hv | split; [lia | by rewrite Nat2Z.id]] | split].
    - apply contains_node_in; [apply Hv |]. apply (gs_owner _ (go_structure _ Hg)). by eapply list_elem_of_lookup_2.
    - unfold owner_of. by rewrite Nat2Z.id, Hj. }
  destruct (Hport _ _ Ha) as (Fa & Ca & Oa), (Hport _ _ Hb) as (Fb & Cb & Ob).
  assert (port_owner pa <> port_owner pb) as Hown by (rewrite Ea, Eb, Oa, Ob in Hne; congruence).
  unfold validate_link. rewrite Ea, Eb, Fa, Fb.
  change (node_exists g (port_owner pa)) with (contains (port_owner pa) g).
  change (node_exists g (port_owner pb)) with (contains (port_owner pb) g). rewrite Ca, Cb. cbn [negb orb].
  apply clean_bind; [| apply clean_bind].
  - apply clean_when. rewrite (bool_decide_eq_false_2 _ Hown), orb_false_r.
    rewrite (proj2 (gv_ports _ Hv) _ _ Ha), (proj2 (gv_ports _ Hv) _ _ Hb). apply Z.eqb_neq. lia.
  - apply clean_when. unfold ends_ok in He. destruct (link_kind l); destruct He as (A1 & A2 & A3 & A4).
    + by rewrite A1, A2, A3, A4.
    + by rewrite !(bool_decide_eq_true_2 (_ <> _)) by done.
  - intros r. unfold validate_adjacency, outgoing, bind, of_outcome. cbn [directed_links].
    rewrite !(adjacency_arcs _ _ Hg), Ca, Cb.
    rewrite (arc_counted _ l) by (eauto || (cbn; rewrite Ea; done)). cbn [negb Z.eqb Pos.eqb].
    by rewrite (arc_counted _ l) by (eauto || (cbn; rewrite Eb; done)).
Qed.
End Checks.

(** ** The search of the validator

    The breadth-first search marks exactly the nodes that links lead to from the
    first GPU, and ends within as many turns as there are nodes. *)

(** ** Marks *)

Section Marks.
Implicit Types (v : StructuralVisited) (n m : NodeId) (k : NodeKind).

Lemma values_set k k' l v :
  visited_values (set_visited_values k l v) k' = if decide (k' = k) then l else visited_values v k'.
Proof. by destruct k, k'. Qed.

(** Nodes without a mark. *)
Definition open_in (l : list bool) : nat := length (filter (fun b => b = false) l).

Definition unmarked v : nat := open_in (sv_gpus_ v) + open_in (sv_nics_ v) + open_in (sv_switches_ v).

Lemma open_in_insert l i : l !! i = Some false -> S (open_in (<[i := true]> l)) = open_in l.
Proof.
  revert i. induction l as [| b l IH]; intros [| i] Hi; [done | done | |].
  - injection Hi as ->. done.
  - change (<[S i := true]> (b :: l)) with (b :: <[i := true]> l). unfold open_in in *. rewrite !filter_cons.
    specialize (IH i Hi). case_decide; cbn; lia.
Qed.

Lemma unmarked_set k l v :
  (unmarked (set_visited_values k l v) + open_in (visited_values v k) = unmarked v + open_in l)%nat.
Proof. unfold unmarked. destruct k; cbn [set_visited_values visited_values sv_gpus_ sv_nics_ sv_switches_]; lia. Qed.

(** As many marks as nodes. *)
Definition shaped (g : TopologyGraph) v : Prop := forall k, zlength (visited_values v k) = node_count g k.

Lemma mark_spec g v n : shaped g v -> node_in g n ->
  let '(v', new) := mark n v in
  shaped g v' /\ new = negb (visited_contains n v) /\ (unmarked v' + (if new then 1 else 0) = unmarked v)%nat /\
  forall m, 0 <= node_value m -> visited_contains m v' = bool_decide (m = n) || visited_contains m v.
Proof.
  intros Hs [H0 Hn]. unfold mark, visited_contains. rewrite <- (Hs (node_kind n)) in Hn.
  destruct (lookup_lt_is_Some_2 (visited_values v (node_kind n)) (Z.to_nat (node_value n))) as [b Hb];
    [unfold zlength in Hn; lia |].
  rewrite Hb. destruct b; cbn [default negb].
  - split; [done | split; [done | split; [cbn; lia |]]]. intros m Hm. case_bool_decide as He; [| done]. subst m.
    by rewrite Hb.
  - split; [| split; [done | split]].
    + intros k. rewrite values_set. case_decide as Hk; [| apply Hs]. subst k.
      unfold zlength. rewrite length_insert. apply Hs.
    + pose proof (unmarked_set (node_kind n) (<[Z.to_nat (node_value n) := true]> (visited_values v (node_kind n))) v).
      pose proof (open_in_insert _ _ Hb). cbn. lia.
    + intros m Hm. rewrite values_set. destruct (decide (node_kind m = node_kind n)) as [Hk | Hk].
      * destruct (decide (node_value m = node_value n)) as [Hval | Hval].
        -- assert (m = n) as -> by (destruct m, n; cbn in *; congruence).
           rewrite list_lookup_insert_eq by (by eapply lookup_lt_Some). by rewrite bool_decide_eq_true_2.
        -- rewrite list_lookup_insert_ne by lia. rewrite bool_decide_eq_false_2 by congruence. by rewrite Hk.
      * rewrite bool_decide_eq_false_2 by congruence. done.
Qed.
End Marks.

(** ** The search *)

Section Search.
Context (g : TopologyGraph) (Hs : sound_graph g).
Implicit Types (v : StructuralVisited) (n m : NodeId) (Q : list NodeId).

(** A link leads from [n] to [m]. *)
Definition linked n m : Prop :=
  exists arc, arc ∈ arcs_from g n /\ owner_of g (arc_destination arc) = Some m.

Lemma arc_target n arc : arc ∈ arcs_from g n ->
  exists p, find_port (arc_destination arc) g = Some p /\ owner_of g (arc_destination arc) = Some (port_owner p) /\
    node_in g (port_owner p).
Proof.
  intros [_ (l & Hl & Harc)%elem_of_arcs]%list_elem_of_filter.
  destruct (gs_links _ (go_structure _ (proj1 Hs)) l Hl) as (Ra & Rb & _).
  assert (0 <= arc_destination arc < zlength (ports_ g)) as Hr by (by destruct Harc as [-> | ->]).
  destruct (lookup_lt_is_Some_2 (ports_ g) (Z.to_nat (arc_destination arc))) as [p Hp]; [unfold zlength in Hr; lia |].
  exists p. split; [apply find_dense_Some; [apply Hs | split; [lia | done]] | split].
  - unfold owner_of. by rewrite Hp.
  - apply (gs_owner _ (go_structure _ (proj1 Hs))). by eapply list_elem_of_lookup_2.
Qed.

Lemma linked_known n m : linked n m -> node_in g m.
Proof. intros (arc & Harc & Ho). destruct (arc_target n arc Harc) as (p & _ & Hp & Hin). congruence. Qed.

(** The inner loop. *)
Lemma visit_neighbours_spec cur arcs v Q : (forall arc, arc ∈ arcs -> arc ∈ arcs_from g cur) -> shaped g v ->
  let '(v', Q') := visit_neighbours g arcs v Q in
  shaped g v' /\ (unmarked v' + length Q' = unmarked v + length Q)%nat /\
  (forall m, node_in g m -> visited_contains m v' = true <->
     visited_contains m v = true \/ exists arc, arc ∈ arcs /\ owner_of g (arc_destination arc) = Some m) /\
  exists more, Q' = Q ++ more /\ forall m, m ∈ more <->
    visited_contains m v = false /\ visited_contains m v' = true /\ node_in g m.
Proof.
  revert v Q. induction arcs as [| arc arcs IH]; intros v Q Hsub Hv; cbn [visit_neighbours].
  { split; [done | split; [done | split]].
    - intros m Hm. split; [by left | by intros [? | (arc & Ha & _)]; [| by apply elem_of_nil in Ha]].
    - exists []. rewrite app_nil_r. split; [done |]. intros m. rewrite elem_of_nil. split; [done | intros (A & B & _); congruence]. }
  destruct (arc_target cur arc) as (p & Hp & Ho & Hin); [apply Hsub; left |]. rewrite Hp.
  pose proof (mark_spec g v (port_owner p) Hv Hin) as Hmk. destruct (mark (port_owner p) v) as [v1 new].
  destruct Hmk as (Hv1 & Hnew & Hun & Hc1).
  specialize (IH v1 (if new then Q ++ [port_owner p] else Q) ltac:(intros a Ha; apply Hsub; by right) Hv1).
  destruct (visit_neighbours g arcs v1 _) as [v2 Q2]. destruct IH as (Hv2 & Hun2 & Hc2 & more & -> & Hmore).
  split; [done | split; [| split]].
  - destruct new; rewrite ?length_app in *; cbn in *; lia.
  - intros m Hm. rewrite Hc2, Hc1 by (done || apply Hm). rewrite orb_true_iff, bool_decide_eq_true. split.
    + intros [[-> | Hv0] | (a & Ha & Hoa)]; [right; exists arc; split; [left | done] | by left |].
      right. exists a. split; [by right | done].
    + intros [Hv0 | (a & [-> | Ha]%elem_of_cons & Hoa)]; [by left; right | left; left; congruence |].
      right. eauto.
  - exists ((if new then [port_owner p] else []) ++ more). split; [destruct new; by rewrite <- ?app_assoc |].
    intros m. rewrite elem_of_app, Hmore. split.
    + intros [Hm | (A & B & C)].
      * destruct new; [| by apply elem_of_nil in Hm]. apply list_elem_of_singleton in Hm as ->.
        symmetry in Hnew. apply negb_true_iff in Hnew. split; [done | split; [| done]].
        apply Hc2; [done |]. left. rewrite Hc1 by apply Hin. by rewrite bool_decide_eq_true_2.
      * split; [| done]. rewrite Hc1 in A by apply C. by apply orb_false_iff in A as [_ ?].
    + intros (A & B & C). destruct (decide (m = port_owner p)) as [-> | Hne].
      * left. rewrite Hnew, A. by apply list_elem_of_singleton.
      * right. split; [| done]. rewrite Hc1 by apply C. by rewrite bool_decide_eq_false_2, A.
Qed.

(** The marked nodes lead nowhere else, but for those that wait. *)
Record searching (start : NodeId) v Q : Prop := {
  sc_shaped : shaped g v;
  sc_start : visited_contains start v = true;
  sc_sound m : node_in g m -> visited_contains m v = true -> rtc linked start m;
  sc_queue m : m ∈ Q -> node_in g m /\ visited_contains m v = true;
  sc_closed n m : node_in g n -> visited_contains n v = true -> linked n m -> n ∈ Q \/ visited_contains m v = true;
}.

Lemma visit_pending_spec start fuel v Q : node_in g start ->
  searching start v Q -> (unmarked v + length Q <= fuel)%nat ->
  exists v', visit_pending g fuel v Q = Some (Ret v') /\ searching start v' [].
Proof.
  intros Hst. revert v Q. induction fuel as [| f IH]; intros v [| cur Q] Hsc Hf.
  - by exists v.
  - cbn in Hf. lia.
  - by exists v.
  - cbn [visit_pending]. destruct (sc_queue _ _ _ Hsc cur) as [Hcur Hcv]; [left |].
    rewrite adjacency_arcs by apply Hs. rewrite (proj2 (contains_node_in g cur (go_vectors _ (proj1 Hs))) Hcur).
    pose proof (visit_neighbours_spec cur (arcs_from g cur) v Q ltac:(done) (sc_shaped _ _ _ Hsc)) as Hn.
    destruct (visit_neighbours g (arcs_from g cur) v Q) as [v' Q']. destruct Hn as (Hv' & Hun & Hc & more & -> & Hmore).
    assert (forall m, node_in g m -> visited_contains m v = true -> visited_contains m v' = true) as Hgrow
      by (intros m Hm Hmv; apply Hc; [done | by left]).
    apply IH; [| cbn in Hf; lia]. destruct Hsc as [S1 S2 S3 S4 S5]. split; [done | by apply Hgrow | | |].
    + intros m Hm [Hmv | (arc & Harc & Ho)]%Hc; [by apply S3 | | done]. eapply rtc_r; [by apply (S3 cur) |]. by exists arc.
    + intros m [Hm | (_ & A & B)%Hmore]%elem_of_app; [| done]. destruct (S4 m) as [A B]; [by right |]. split; [done | by apply Hgrow].
    + intros n m Hn Hnv Hl. pose proof (linked_known n m Hl) as Hm. destruct (visited_contains n v) eqn:Hnv0.
      * destruct (S5 n m Hn Hnv0 Hl) as [[-> | Hq]%elem_of_cons | Hmv].
        -- right. apply Hc; [done | right]. exact Hl.
        -- left. apply elem_of_app. by left.
        -- right. by apply Hgrow.
      * left. apply elem_of_app. right. by apply Hmore.
Qed.

Lemma searching_done start v m : searching start v [] -> node_in g start -> node_in g m ->
  visited_contains m v = true <-> rtc linked start m.
Proof.
  intros [S1 S2 S3 S4 S5] Hst Hm. split; [by apply S3 |]. intros Hr.
  assert (forall x, rtc linked x m -> node_in g x -> visited_contains x v = true -> visited_contains m v = true) as Hgen.
  { intros x Hx. induction Hx as [x | x y z Hl Hr' IH]; intros Hin Hv; [done |].
    pose proof (linked_known x y Hl) as Hy. apply IH; try done.
    destruct (S5 x y Hin Hv Hl) as [Hq | ?]; [by apply elem_of_nil in Hq | done]. }
  by apply (Hgen start).
Qed.

Lemma new_shaped : shaped g (new_structural_visited g).
Proof. intros []; cbn; unfold zlength; by rewrite length_replicate. Qed.

Lemma new_unmarked : unmarked (new_structural_visited g) = visit_fuel g.
Proof.
  assert (forall n : nat, open_in (replicate n false) = n) as Hr.
  { induction n as [| n IH]; [done |]. unfold open_in in *. cbn [replicate]. rewrite filter_cons_True by done. cbn. by rewrite IH. }
  unfold unmarked, visit_fuel. cbn [new_structural_visited sv_gpus_ sv_nics_ sv_switches_]. by rewrite !Hr.
Qed.

Lemma new_empty m : visited_contains m (new_structural_visited g) = false.
Proof.
  unfold visited_contains. destruct (visited_values _ _ !! _) as [b |] eqn:Hb; [| done]. cbn.
  destruct (node_kind m); cbn in Hb; by apply lookup_replicate in Hb as [-> _].
Qed.

Lemma search_starts start : node_in g start ->
  let v := fst (mark start (new_structural_visited g)) in searching start v [start] /\ (unmarked v + 1 = visit_fuel g)%nat.
Proof.
  intros Hst. pose proof (mark_spec g _ start new_shaped Hst) as Hmk. rewrite new_empty in Hmk.
  destruct (mark start _) as [v new]. destruct Hmk as (H1 & -> & H2 & H3). cbn [fst negb] in *. rewrite new_unmarked in H2.
  assert (forall m, node_in g m -> visited_contains m v = true <-> m = start) as Hm.
  { intros m Hm. rewrite H3, new_empty, orb_false_r by apply Hm. apply bool_decide_eq_true. }
  split; [| lia]. split; [done | by apply Hm | | |].
  - intros m Hin ->%Hm; [apply rtc_refl | done].
  - intros m ->%list_elem_of_singleton. split; [done | by apply Hm].
  - intros n m Hn ->%Hm Hl; [left; by apply list_elem_of_singleton | done].
Qed.
End Search.

(** ** The report *)

Section Report.
Context (g : TopologyGraph) (Hs : sound_graph g).

Definition no_gpu_error : ValidationError :=
  mkValidationError EmptyTopology None None "topology must contain at least one GPU".

Definition disconnected_error (n : NodeId) : ValidationError :=
  mkValidationError DisconnectedNode (Some n) None "topology node is disconnected from the GPU component".

(** GPUs first, then NICs, then switches. *)
Definition nodes : list NodeId :=
  ((fun w => gpu_node (gpu_id w)) <$> gpus_ g) ++ ((fun n => nic_node (nic_id n)) <$> nics_ g) ++
  ((fun s => switch_node (switch_id s)) <$> switches_ g).

Lemma nodes_elem n : n ∈ nodes <-> node_in g n.
Proof.
  destruct (go_vectors _ (proj1 Hs)) as [V1 V2 V3 V4 V5 V6].
  assert (forall {A} (id_of : A -> Z) (mk : Z -> NodeId) k (l : list A), dense id_of l -> node_count g k = zlength l ->
    (forall i, mk i = mkNodeId k i) ->
    (n ∈ (fun x => mk (id_of x)) <$> l) <-> node_kind n = k /\ node_in g n) as Hpart.
  { intros A id_of mk k l Hd Hc Hmk. unfold node_in. rewrite list_elem_of_fmap. split.
    - intros (x & -> & [i Hi]%list_elem_of_lookup). rewrite Hmk. cbn. rewrite Hc, (proj2 Hd i x Hi).
      apply lookup_lt_Some in Hi. unfold zlength. split; [done | lia].
    - intros [Hk [H0 Hlt]]. rewrite Hk, Hc in Hlt.
      destruct (lookup_lt_is_Some_2 l (Z.to_nat (node_value n))) as [x Hx]; [unfold zlength in Hlt; lia |].
      exists x. rewrite Hmk, (proj2 Hd _ x Hx), Z2Nat.id by done. split; [| by eapply list_elem_of_lookup_2].
      destruct n. cbn in *. congruence. }
  unfold nodes. rewrite !elem_of_app.
  rewrite (Hpart _ gpu_id gpu_node NodeKind_Gpu), (Hpart _ nic_id nic_node NodeKind_Nic),
    (Hpart _ switch_id switch_node NodeKind_Switch) by done.
  destruct (node_kind n); tauto.
Qed.

Lemma report_disconnected_run v r :
  report_disconnected g v r =
  (mkValidationReport (vr_errors r ++ (disconnected_error <$> filter (fun n => visited_contains n v = false) nodes)), Ret tt).
Proof.
  assert (forall l r, for_each l (report_if_disconnected v) r =
    (mkValidationReport (vr_errors r ++ (disconnected_error <$> filter (fun n => visited_contains n v = false) l)), Ret tt)) as Hl.
  { induction l as [| n l IH]; intros r0; cbn [for_each].
    - rewrite app_nil_r. by destruct r0.
    - unfold bind, report_if_disconnected at 1. rewrite filter_cons. destruct (visited_contains n v); cbn [negb when].
      + rewrite decide_False by done. apply IH.
      + rewrite decide_True by done. unfold add, modify. rewrite IH. cbn. by rewrite <- app_assoc. }
  assert (forall {A} (mk : A -> NodeId) (l : list A) r, for_each l (fun x => report_if_disconnected v (mk x)) r =
    for_each (mk <$> l) (report_if_disconnected v) r) as Hmap.
  { intros A mk l. induction l as [| x l IH]; intros r0; [done |]. cbn. unfold bind.
    destruct (report_if_disconnected v (mk x) r0) as [r1 [[] | e]]; [apply IH | done]. }
  unfold report_disconnected, nodes, bind. rewrite Hmap, Hl, Hmap, Hl, Hmap, Hl. cbn.
  by rewrite !filter_app, !fmap_app, !app_assoc.
Qed.

Lemma nodes_NoDup : NoDup nodes.
Proof.
  destruct (go_vectors _ (proj1 Hs)) as [V1 V2 V3 V4 V5 V6].
  assert (forall {A} (id_of : A -> Z) (mk : Z -> NodeId) (l : list A), dense id_of l -> Inj (=) (=) mk ->
    NoDup ((fun x => mk (id_of x)) <$> l)) as Hpart.
  { intros A id_of mk l Hd Hinj. change (NoDup ((mk ∘ id_of) <$> l)). rewrite list_fmap_compose.
    apply NoDup_fmap_2; [done |]. by apply dense_NoDup. }
  unfold nodes. apply NoDup_app. split; [apply Hpart; [done | by intros ? ? [=]] | split].
  - intros n (w & -> & _)%list_elem_of_fmap [(x & ? & _)%list_elem_of_fmap | (x & ? & _)%list_elem_of_fmap]%elem_of_app; done.
  - apply NoDup_app. split; [apply Hpart; [done | by intros ? ? [=]] | split; [| apply Hpart; [done | by intros ? ? [=]]]].
    intros n (w & -> & _)%list_elem_of_fmap (x & ? & _)%list_elem_of_fmap. done.
Qed.

(** What the validator reports. *)
Lemma validate_topology_run :
  match gpus_ g with
  | [] => validate_topology g = Ret (mkValidationReport [no_gpu_error])
  | first :: _ => exists v, searching g (gpu_node (gpu_id first)) v [] /\
      validate_topology g =
        Ret (mkValidationReport (disconnected_error <$> filter (fun n => visited_contains n v = false) nodes))
  end.
Proof.
  pose proof (racks_clean g Hs) as C1. pose proof (gpus_clean g Hs) as C2. pose proof (nics_clean g Hs) as C3.
  pose proof (switches_clean g Hs) as C4. pose proof (ports_clean g Hs) as C5. pose proof (links_clean g Hs) as C6.
  unfold validate_topology, validate_all, bind. destruct (gpus_ g) as [| first rest] eqn:Hgpus.
  - assert (validate_identity g (mkValidationReport []) = (mkValidationReport [no_gpu_error], Ret tt)) as ->.
    { unfold validate_identity, bind. rewrite bool_decide_eq_true_2 by done. cbn [when]. unfold add at 1, modify.
      unfold validate_dense. rewrite !has_dense_ids_true by apply (go_vectors _ (proj1 Hs)). done. }
    rewrite C1, C2, C3, C4, C5, C6. unfold validate_connectivity. by rewrite Hgpus.
  - rewrite (identity_clean g Hs) by congruence. rewrite C1, C2, C3, C4, C5, C6. unfold validate_connectivity. rewrite Hgpus.
    assert (node_in g (gpu_node (gpu_id first))) as Hst.
    { apply nodes_elem. unfold nodes. rewrite Hgpus. left. }
    destruct (search_starts g _ Hst) as [Hsc Hun]. cbv zeta in Hsc, Hun.
    destruct (visit_pending_spec g Hs _ (visit_fuel g) _ _ Hst Hsc) as (v & Hv & Hend); [cbn; lia |].
    exists v. split; [done |]. cbv zeta. rewrite Hv, report_disconnected_run. done.
Qed.
End Report.
