(* ===== verification/FamiliesLaws.v ===== *)
(** * Skeletons of topologies

    What a topology consists of, without identifiers, ports and adjacency: the
    abstract state that the construction calls refine while there is room. *)

From S2P Require Import Prelude SimTime Entities TelemetryRecords Topology TopologyLaws TopologyFamilies.
From S2P Require Import TopologyClos TopologyValidation TopologyMembers ValidationLaws.

Record Skeleton : Type := mkSkeleton {
  sk_racks : Z;
  sk_nics : list RackId;
  sk_gpus : list NicId;
  sk_switches : list (option RackId);
  sk_edges : list (NodeId * NodeId);
}.

(** The owners of the ports: two per link. *)
Definition ends (edges : list (NodeId * NodeId)) : list NodeId := concat ((fun e => [fst e; snd e]) <$> edges).

Lemma ends_snoc edges a b : ends (edges ++ [(a, b)]) = ends edges ++ [a; b].
Proof. unfold ends. by rewrite fmap_app, concat_app. Qed.

Lemma ends_length edges : zlength (ends edges) = 2 * zlength edges.
Proof.
  induction edges as [| e edges IH]; [done |]. change (ends (e :: edges)) with (fst e :: snd e :: ends edges).
  rewrite !zlength_cons, IH. lia.
Qed.

Lemma ends_lookup edges i : ends edges !! (2 * i)%nat = fst <$> edges !! i /\ ends edges !! (2 * i + 1)%nat = snd <$> edges !! i.
Proof.
  revert i. induction edges as [| e edges IH]; intros i; [by rewrite !lookup_nil |].
  change (ends (e :: edges)) with (fst e :: snd e :: ends edges). destruct i as [| i]; [done |].
  replace (2 * S i)%nat with (S (S (2 * i))) by lia. apply IH.
Qed.

Record built (sk : Skeleton) (g : TopologyGraph) : Prop := {
  bt_sound : sound_graph g;
  bt_calls : exists ops, g = build ops;
  bt_supply : frontier (port_ids_ g) = zlength (ports_ g) /\ frontier (gpu_ids_ g) = zlength (gpus_ g);
  bt_racks : zlength (racks_ g) = sk_racks sk;
  bt_nics : nic_rack <$> nics_ g = sk_nics sk;
  bt_gpus : gpu_attached_nic <$> gpus_ g = sk_gpus sk;
  bt_switches : switch_rack <$> switches_ g = sk_switches sk;
  bt_edges : port_owner <$> ports_ g = ends (sk_edges sk);
  bt_up : Forall (fun s => switch_state s = Up) (switches_ g) /\ Forall (fun p => port_state p = Up) (ports_ g) /\
    Forall (fun l => link_state l = Up) (links_ g);
}.

(** Lengths. *)
Section Lengths.
Context sk g (Hb : built sk g).

Lemma built_nics : zlength (nics_ g) = zlength (sk_nics sk).
Proof. rewrite <- (bt_nics _ _ Hb). by rewrite zlength_fmap. Qed.

Lemma built_gpus : zlength (gpus_ g) = zlength (sk_gpus sk).
Proof. rewrite <- (bt_gpus _ _ Hb). by rewrite zlength_fmap. Qed.

Lemma built_switches : zlength (switches_ g) = zlength (sk_switches sk).
Proof. rewrite <- (bt_switches _ _ Hb). by rewrite zlength_fmap. Qed.

Lemma built_ports : zlength (ports_ g) = 2 * zlength (sk_edges sk).
Proof. rewrite <- ends_length, <- (bt_edges _ _ Hb). by rewrite zlength_fmap. Qed.

Lemma built_links : zlength (links_ g) = zlength (sk_edges sk).
Proof. pose proof built_ports. pose proof (mo_ports_len _ (proj2 (bt_sound _ _ Hb))). unfold zlength in *. lia. Qed.
End Lengths.

(** ** Edges and connections *)

(** Any sound graph whose ports are owned as a list of edges says. *)
Section Framed.
Context edges g (Hs : sound_graph g) (He : port_owner <$> ports_ g = ends edges).

Definition joins (a b : NodeId) : Prop := (a, b) ∈ edges \/ (b, a) ∈ edges.

Lemma framed_links : length (links_ g) = length edges.
Proof.
  pose proof (ends_length edges) as Hl. rewrite <- He, zlength_fmap in Hl. pose proof (mo_ports_len _ (proj2 Hs)).
  unfold zlength in Hl. lia.
Qed.

(** Edge [i] is link [i]. *)
Lemma framed_edge i a b : edges !! i = Some (a, b) ->
  exists l, links_ g !! i = Some l /\ owner_of g (link_endpoint_a l) = Some a /\ owner_of g (link_endpoint_b l) = Some b.
Proof.
  intros Hi. destruct (lookup_lt_is_Some_2 (links_ g) i) as [l Hl]; [rewrite framed_links; by eapply lookup_lt_Some |].
  exists l. split; [done |]. destruct (mo_pairs _ (proj2 Hs) i l Hl) as (-> & -> & _). unfold owner_of.
  rewrite !Nat2Z.id, <- !list_lookup_fmap, He. destruct (ends_lookup edges i) as [-> ->]. by rewrite Hi.
Qed.

Lemma framed_link i l : links_ g !! i = Some l ->
  exists a b, edges !! i = Some (a, b) /\ owner_of g (link_endpoint_a l) = Some a /\ owner_of g (link_endpoint_b l) = Some b.
Proof.
  intros Hl. destruct (lookup_lt_is_Some_2 edges i) as [[a b] Hi]; [rewrite <- framed_links; by eapply lookup_lt_Some |].
  exists a, b. split; [done |]. destruct (framed_edge i a b Hi) as (l' & Hl' & H). congruence.
Qed.

Lemma linked_joins a b : linked g a b <-> joins a b.
Proof.
  unfold linked, joins. split.
  - intros (arc & [Hsrc (l & [i Hi]%list_elem_of_lookup & Harc)%elem_of_arcs]%list_elem_of_filter & Hdst).
    destruct (framed_link i l Hi) as (x & y & Hxy & Hx & Hy). apply list_elem_of_lookup_2 in Hxy.
    destruct Harc as [-> | ->]; cbn in Hsrc, Hdst; [left | right]; congruence.
  - intros [[i Hi]%list_elem_of_lookup | [i Hi]%list_elem_of_lookup];
      destruct (framed_edge i _ _ Hi) as (l & Hl & Ha & Hb'); apply list_elem_of_lookup_2 in Hl.
    + exists (fst (directed_links l)). split; [| done]. apply list_elem_of_filter. split; [done |]. apply elem_of_arcs. eauto.
    + exists (snd (directed_links l)). split; [| done]. apply list_elem_of_filter. split; [done |]. apply elem_of_arcs. eauto.
Qed.
End Framed.

Section Edges.
Context sk g (Hb : built sk g).
#[local] Abbreviation Hs := (bt_sound _ _ Hb).

Lemma link_edge i l : links_ g !! i = Some l ->
  exists a b, sk_edges sk !! i = Some (a, b) /\ owner_of g (link_endpoint_a l) = Some a /\ owner_of g (link_endpoint_b l) = Some b.
Proof. apply framed_link; apply Hb. Qed.

Definition joined (a b : NodeId) : Prop := joins (sk_edges sk) a b.

Lemma linked_joined a b : linked g a b <-> joined a b.
Proof. apply linked_joins; apply Hb. Qed.

Lemma any_neighbour_linked b arcs : (forall arc, arc ∈ arcs -> exists p, find_port (arc_destination arc) g = Some p /\
    owner_of g (arc_destination arc) = Some (port_owner p)) ->
  any_neighbour b arcs g = Ret (bool_decide (Exists (fun arc => owner_of g (arc_destination arc) = Some b) arcs)).
Proof.
  induction arcs as [| arc arcs IH]; intros Hall; cbn [any_neighbour].
  { rewrite bool_decide_eq_false_2; [done | intros Hx; inversion Hx]. }
  destruct (Hall arc) as (p & Hp & Ho); [left |]. rewrite Hp. destruct (decide (port_owner p = b)) as [Hpb | Hpb].
  - rewrite (bool_decide_eq_true_2 _ Hpb), bool_decide_eq_true_2; [done |]. left. congruence.
  - rewrite (bool_decide_eq_false_2 _ Hpb), IH by (intros a Ha; apply Hall; by right). f_equal. apply bool_decide_ext. rewrite Exists_cons. split; [by right |].
    intros [H | H]; [congruence | done].
Qed.

Lemma unjoined_connected a b : contains a g = true -> ~ joined a b -> Topology.directly_connected a b g = Ret false.
Proof.
  intros Ha Hn. unfold Topology.directly_connected. rewrite adjacency_arcs, Ha by apply Hs.
  rewrite any_neighbour_linked.
  - f_equal. apply bool_decide_eq_false. intros (arc & Harc & Ho)%Exists_exists. apply Hn, linked_joined. by exists arc.
  - intros arc Harc. destruct (arc_target g Hs a arc Harc) as (p & H1 & H2 & _). eauto.
Qed.

Lemma joined_connected a b : contains a g = true -> joined a b ->
  TopologyValidation.directly_connected g (mkConnection a b) = Ret true.
Proof.
  intros Ha Hj. unfold TopologyValidation.directly_connected. cbn. rewrite adjacency_arcs, Ha by apply Hs. f_equal.
  apply existsb_exists. apply linked_joined in Hj as (arc & Harc & Ho). exists arc. split; [by apply list_elem_of_In |].
  destruct (arc_target g Hs a arc Harc) as (p & -> & H2 & _). apply bool_decide_eq_true. congruence.
Qed.

Lemma node_in_built n : node_in g n <-> 0 <= node_value n <
  match node_kind n with
  | NodeKind_Gpu => zlength (sk_gpus sk)
  | NodeKind_Nic => zlength (sk_nics sk)
  | NodeKind_Switch => zlength (sk_switches sk)
  end.
Proof.
  unfold node_in, node_count.
  destruct (node_kind n); by rewrite ?(built_gpus _ _ Hb), ?(built_nics _ _ Hb), ?(built_switches _ _ Hb).
Qed.

Lemma contains_built n : contains n g = true <-> node_in g n.
Proof. apply contains_node_in, Hs. Qed.
End Edges.

(** ** Construction calls refine the skeleton

    While identifiers last, every construction call returns and does to the
    skeleton what its name says. *)

(** A call that returns a given value and refines a change of the skeleton. *)
Definition builds {A} (m : GraphM A) (sk sk' : Skeleton) (a : A) : Prop :=
  forall g, built sk g -> exists g', m g = (g', Ret a) /\ built sk' g'.

Lemma builds_ret {A} (a : A) sk : builds (ret a) sk sk a.
Proof. intros g Hg. by exists g. Qed.

Lemma builds_bind {A B} (m : GraphM A) (k : A -> GraphM B) sk sk1 sk2 a b :
  builds m sk sk1 a -> builds (k a) sk1 sk2 b -> builds (bind m k) sk sk2 b.
Proof.
  intros Hm Hk g Hg. destruct (Hm g Hg) as (g1 & H1 & Hg1). destruct (Hk g1 Hg1) as (g2 & H2 & Hg2).
  exists g2. split; [| done]. unfold bind. by rewrite H1.
Qed.

(** One call more. *)
Lemma build_snoc ops op : build (ops ++ [op]) = graph_step (build ops) op.
Proof. unfold build. by rewrite fold_left_app. Qed.

Lemma calls_step g g' op : (exists ops, g = build ops) -> graph_step g op = g' -> exists ops, g' = build ops.
Proof. intros (ops & ->) <-. exists (ops ++ [op]). by rewrite build_snoc. Qed.

Section Calls.
Implicit Types (sk : Skeleton) (g : TopologyGraph).

Lemma add_rack_builds sk : sk_racks sk <= u64_max ->
  builds add_rack sk {| sk with sk_racks := sk_racks sk + 1 |} (sk_racks sk).
Proof.
  intros Hr g Hg. pose proof (bt_sound _ _ Hg) as [Hok Hm]. pose proof (add_rack_spec g Hok) as H1.
  pose proof (add_rack_fields g) as H2. unfold wp in H1, H2. destruct (add_rack g) as [g' [id | e]] eqn:Hrun.
  2: { destruct H1 as [_ H1]. rewrite (bt_racks _ _ Hg) in H1. lia. }
  destruct H1 as (Hok' & _), H2 as (E1 & E2 & E3 & E4 & E5 & E6 & E7 & E8).
  pose proof (gv_racks _ (go_vectors _ Hok')) as Hid. rewrite E6 in Hid. apply dense_last in Hid. cbn in Hid.
  rewrite (bt_racks _ _ Hg) in Hid. subst id. exists g'. split; [done |]. destruct Hg as [_ B S R N G W O U].
  split; cbn [sk_racks sk_nics sk_gpus sk_switches sk_edges]; rewrite ?E1, ?E2, ?E3, ?E4, ?E5, ?E7, ?E8; try done.
  - split; [done |]. by eapply (add_rack_members g g').
  - eapply (calls_step g g' OpAddRack); [done |]. cbn [graph_step]. by rewrite Hrun.
  - rewrite E6, zlength_snoc. lia.
Qed.

Lemma add_nic_builds sk rack : 0 <= rack < sk_racks sk -> zlength (sk_nics sk) <= u64_max ->
  builds (add_nic rack) sk {| sk with sk_nics := sk_nics sk ++ [rack] |} (zlength (sk_nics sk)).
Proof.
  intros Hr Hn g Hg. pose proof (bt_sound _ _ Hg) as [Hok Hm]. pose proof (add_nic_spec rack g Hok) as H1.
  pose proof (add_nic_fields rack g) as H2. unfold wp in H1, H2. destruct (add_nic rack g) as [g' [id | e]] eqn:Hrun.
  2: { destruct H1 as [_ [H1 | H1]]; [| rewrite (built_nics _ _ Hg) in H1; lia].
    assert (is_Some (find_rack rack g)) as [? ?]; [| congruence]. apply find_dense_is_Some; [apply Hok |].
    by rewrite (bt_racks _ _ Hg). }
  destruct H1 as (Hok' & _), H2 as (_ & E1 & E3 & E4 & E5 & E2 & E6 & E7 & E8).
  pose proof (gv_nics _ (go_vectors _ Hok')) as Hid. rewrite E2 in Hid. apply dense_last in Hid. cbn in Hid.
  rewrite (built_nics _ _ Hg) in Hid. subst id. exists g'. split; [done |]. destruct Hg as [_ B S R N G W O U].
  split; cbn [sk_racks sk_nics sk_gpus sk_switches sk_edges]; rewrite ?E1, ?E3, ?E4, ?E5, ?E7, ?E8; try done.
  - split; [done |]. eapply (add_nic_members g g' Hok Hm rack); done || lia.
  - eapply (calls_step g g' (OpAddNic rack)); [done |]. cbn [graph_step]. by rewrite Hrun.
  - by rewrite E6, zlength_alter.
  - rewrite E2, fmap_app. by f_equal.
Qed.

Lemma add_leaf_switch_builds sk rack : 0 <= rack < sk_racks sk -> zlength (sk_switches sk) <= u64_max ->
  builds (add_leaf_switch rack) sk {| sk with sk_switches := sk_switches sk ++ [Some rack] |} (zlength (sk_switches sk)).
Proof.
  intros Hr Hn g Hg. pose proof (bt_sound _ _ Hg) as [Hok Hm]. pose proof (add_leaf_switch_spec rack g Hok) as H1.
  pose proof (add_leaf_switch_fields rack g) as H2. unfold wp in H1, H2.
  pose proof (graph_step_members g (OpAddLeafSwitch rack) (conj Hok Hm)) as Hm'. cbn [graph_step] in Hm'.
  destruct (add_leaf_switch rack g) as [g' [id | e]] eqn:Hrun.
  2: { destruct H1 as [_ [H1 | H1]]; [| rewrite (built_switches _ _ Hg) in H1; lia].
    assert (is_Some (find_rack rack g)) as [? ?]; [| congruence]. apply find_dense_is_Some; [apply Hok |].
    by rewrite (bt_racks _ _ Hg). }
  destruct H1 as (Hok' & _), H2 as (_ & E1 & E2 & E4 & E5 & E3 & E6 & E7 & E8).
  pose proof (gv_switches _ (go_vectors _ Hok')) as Hid. rewrite E3 in Hid. apply dense_last in Hid. cbn in Hid.
  rewrite (built_switches _ _ Hg) in Hid. subst id. exists g'. split; [done |]. destruct Hg as [_ B S R N G W O U].
  split; cbn [sk_racks sk_nics sk_gpus sk_switches sk_edges]; rewrite ?E1, ?E2, ?E4, ?E5, ?E7, ?E8; try done.
  - eapply (calls_step g g' (OpAddLeafSwitch rack)); [done |]. cbn [graph_step]. by rewrite Hrun.
  - by rewrite E6, zlength_alter.
  - rewrite E3, fmap_app. by f_equal.
  - rewrite E3, Forall_app, Forall_singleton. destruct U as (? & ? & ?). done.
Qed.

Lemma add_spine_switch_builds sk : zlength (sk_switches sk) <= u64_max ->
  builds add_spine_switch sk {| sk with sk_switches := sk_switches sk ++ [None] |} (zlength (sk_switches sk)).
Proof.
  intros Hn g Hg. pose proof (bt_sound _ _ Hg) as [Hok Hm]. pose proof (add_spine_switch_spec g Hok) as H1.
  pose proof (add_spine_switch_fields g) as H2. unfold wp in H1, H2.
  pose proof (graph_step_members g OpAddSpineSwitch (conj Hok Hm)) as Hm'. cbn [graph_step] in Hm'.
  destruct (add_spine_switch g) as [g' [id | e]] eqn:Hrun.
  2: { destruct H1 as [_ H1]. rewrite (built_switches _ _ Hg) in H1. lia. }
  destruct H1 as (Hok' & _), H2 as (E1 & E2 & E4 & E5 & E3 & E6 & E7 & E8).
  pose proof (gv_switches _ (go_vectors _ Hok')) as Hid. rewrite E3 in Hid. apply dense_last in Hid. cbn in Hid.
  rewrite (built_switches _ _ Hg) in Hid. subst id. exists g'. split; [done |]. destruct Hg as [_ B S R N G W O U].
  split; cbn [sk_racks sk_nics sk_gpus sk_switches sk_edges]; rewrite ?E1, ?E2, ?E4, ?E5, ?E6, ?E7, ?E8; try done.
  - eapply (calls_step g g' OpAddSpineSwitch); [done |]. cbn [graph_step]. by rewrite Hrun.
  - rewrite E3, fmap_app. by f_equal.
  - rewrite E3, Forall_app, Forall_singleton. destruct U as (? & ? & ?). done.
Qed.

(** Room for a link. *)
Lemma built_room sk g : built sk g -> zlength (sk_gpus sk) <= u64_max -> 2 * zlength (sk_edges sk) + 1 <= u64_max -> ~ no_room g.
Proof.
  intros Hg Hgpu Hed. unfold no_room. destruct (bt_supply _ _ Hg) as [-> ->]. rewrite (built_gpus _ _ Hg), (built_ports _ _ Hg).
  destruct (gi_links _ (go_ids _ (proj1 (bt_sound _ _ Hg)))) as [_ ->]. rewrite (built_links _ _ Hg).
  pose proof (zlength_nonneg (sk_edges sk)). lia.
Qed.

Lemma add_gpu_builds sk nic : 0 <= nic < zlength (sk_nics sk) -> zlength (sk_gpus sk) <= u64_max ->
  2 * zlength (sk_edges sk) + 1 <= u64_max ->
  builds (add_gpu nic) sk
    {| sk with sk_gpus := sk_gpus sk ++ [nic];
               sk_edges := sk_edges sk ++ [(gpu_node (zlength (sk_gpus sk)), nic_node nic)] |} (zlength (sk_gpus sk)).
Proof.
  intros Hn Hgpu Hed g Hg. pose proof (bt_sound _ _ Hg) as [Hok Hm]. pose proof (add_gpu_spec nic g Hok) as H1.
  pose proof (add_gpu_fields nic g) as H2. unfold wp in H1, H2.
  destruct (add_gpu nic g) as [g' [id | e]] eqn:Hrun.
  2: { destruct H1 as (_ & _ & [H1 | H1]); [| by destruct (built_room _ _ Hg Hgpu Hed)].
    assert (is_Some (find_nic nic g)) as [? ?]; [| congruence]. apply find_dense_is_Some; [apply Hok |].
    by rewrite (built_nics _ _ Hg). }
  destruct H1 as (Hok' & _), H2 as (k & p & q & l & Hk & E1 & E2 & E6 & E3 & E4 & E5 & Hsup).
  assert (members_ok g') as Hm' by (by eapply (add_gpu_members g g')).
  pose proof (gv_gpus _ (go_vectors _ Hok')) as Hid. rewrite E1 in Hid. apply dense_last in Hid. cbn in Hid.
  rewrite (built_gpus _ _ Hg) in Hid. subst id. exists g'. split; [done |]. destruct (Hsup (go_ids _ Hok)) as [F1 F2].
  destruct Hg as [_ B [S1 S2] R N G W O (U1 & U2 & U3)].
  split; cbn [sk_racks sk_nics sk_gpus sk_switches sk_edges]; rewrite ?E3; try done.
  - eapply (calls_step g g' (OpAddGpu nic)); [done |]. cbn [graph_step]. by rewrite Hrun.
  - rewrite F1, F2, S1, S2, E1, E4, zlength_snoc. unfold zlength. rewrite length_app. cbn. lia.
  - by rewrite E6, zlength_alter.
  - by rewrite E2, fmap_alter_same.
  - rewrite E1, fmap_app. by f_equal.
  - rewrite E4, fmap_app, ends_snoc. by f_equal.
  - rewrite E4, E5, !Forall_app. split; [done | split; [| by split; [| apply Forall_singleton]]].
    split; [done |]. by repeat constructor.
Qed.

Lemma connect_builds sk a ra b rb g0 : built sk g0 ->
  node_in g0 a -> node_in g0 b -> a <> b -> node_kind a <> NodeKind_Gpu -> node_kind b <> NodeKind_Gpu ->
  ra <> Local -> rb <> Local -> ~ joined sk a b ->
  zlength (sk_gpus sk) <= u64_max -> 2 * zlength (sk_edges sk) + 1 <= u64_max ->
  exists g', connect_fabric a ra b rb g0 = (g', Ret (zlength (sk_edges sk))) /\
    built {| sk with sk_edges := sk_edges sk ++ [(a, b)] |} g'.
Proof.
  intros Hg Ha Hb Hab Ka Kb Ra Rb Hj Hgpu Hed. rename g0 into g.
  pose proof (bt_sound _ _ Hg) as [Hok Hm]. pose proof (connect_fabric_spec a ra b rb g Hok) as H1.
  pose proof (connect_fabric_fields a ra b rb g) as H2. unfold wp in H1, H2.
  apply (contains_built _ _ Hg) in Ha, Hb.
  destruct (connect_fabric a ra b rb g) as [g' [id | e]] eqn:Hrun.
  2: { destruct H1 as (_ & _ & [H1 | H1]); [| by destruct (built_room _ _ Hg Hgpu Hed)].
    destruct H1. unfold connectable. split_and!; try done. by apply (unjoined_connected _ _ Hg). }
  destruct H1 as (Hok' & (l' & Hid & _) & Hnew), H2 as (p & q & l & C & E1 & E2 & E3 & E6 & E4 & E5 & Hsup).
  assert (id = zlength (sk_edges sk)) as ->.
  { rewrite <- (built_links _ _ Hg). assert (is_Some (find_link id g')) as Hin by (by eexists).
    apply find_dense_is_Some in Hin; [| apply Hok']. rewrite E5, zlength_snoc in Hin. apply Z.le_antisymm; [lia |].
    apply Z.nlt_ge. intros Hlt. assert (is_Some (find_link id g)) as [x Hx]; [| congruence]. apply find_dense_is_Some; [apply Hok | lia]. }
  assert (members_ok g') as Hm' by (apply (connect_members g g' Hok Hok' Hm a ra b rb p q l); tauto).
  exists g'.
  split; [done |]. destruct (Hsup (go_ids _ Hok)) as [F1 F2].
  destruct Hg as [_ B [S1 S2] R N G W O (U1 & U2 & U3)].
  split; cbn [sk_racks sk_nics sk_gpus sk_switches sk_edges]; rewrite ?E6, ?E1; try done.
  - eapply (calls_step g g' (OpConnectFabric a ra b rb)); [done |]. cbn [graph_step]. by rewrite Hrun.
  - rewrite F1, F2, S1, S2, E4. unfold zlength. rewrite length_app. cbn. lia.
  - by rewrite E2, !own_nics_same.
  - by rewrite E3, !own_switches_same.
  - rewrite E4, fmap_app, ends_snoc. by f_equal.
  - rewrite E4, E5, !Forall_app. split; [| split; [| by split; [| apply Forall_singleton]]].
    + apply (Forall_fmap switch_state (fun st => st = Up)). rewrite E3, !own_switches_same by done. by apply Forall_fmap.
    + split; [done |]. by repeat constructor.
Qed.
End Calls.
