(* ===== verification/FamiliesLoops.v ===== *)
(** * What the generators build

    The skeletons of a leaf-spine fabric at every point of the loops that build
    it, up to the finished one. *)

From S2P Require Import Prelude SimTime Entities TelemetryRecords Topology TopologyLaws TopologyFamilies.
From S2P Require Import TopologyClos TopologyValidation TopologyMembers ValidationLaws FamiliesLaws.

(** ** Blocks *)

Lemma indices_snoc k : 0 <= k -> indices (k + 1) = indices k ++ [k].
Proof.
  intros Hk. unfold indices. replace k with (Z.of_nat (Z.to_nat k)) at 1 by lia.
  replace (Z.of_nat (Z.to_nat k) + 1) with (Z.of_nat (S (Z.to_nat k))) by lia. rewrite seqZ_S.
  by replace (Z.of_nat (Z.to_nat k)) with k by lia.
Qed.

Lemma indices_elem k i : i ∈ indices k <-> 0 <= i < k.
Proof. unfold indices. rewrite elem_of_seqZ. lia. Qed.

Lemma indices_length k : 0 <= k -> zlength (indices k) = k.
Proof. intros Hk. unfold zlength, indices. rewrite length_seqZ. lia. Qed.

(** [f 0], [f 1], ... up to [k] blocks. *)
Definition blocks {A} (f : Z -> list A) (k : Z) : list A := concat (f <$> indices k).

Section Blocks.
Context {A : Type}.
Implicit Types (f : Z -> list A).

Lemma blocks_zero f : blocks f 0 = [].
Proof. done. Qed.

Lemma blocks_snoc f k : 0 <= k -> blocks f (k + 1) = blocks f k ++ f k.
Proof. intros Hk. unfold blocks. rewrite indices_snoc, fmap_app, concat_app by done. cbn. by rewrite app_nil_r. Qed.

Lemma blocks_elem f k x : x ∈ blocks f k <-> exists i, 0 <= i < k /\ x ∈ f i.
Proof.
  unfold blocks. rewrite list_elem_of_In, in_concat. setoid_rewrite <- list_elem_of_In. split.
  - intros (l & (i & -> & Hi%indices_elem)%list_elem_of_fmap & Hx). eauto.
  - intros (i & Hi & Hx). exists (f i). split; [| done]. apply list_elem_of_fmap. exists i. by rewrite indices_elem.
Qed.

Lemma blocks_length f k c : 0 <= k -> (forall i, 0 <= i < k -> zlength (f i) = c) -> zlength (blocks f k) = k * c.
Proof.
  intros Hk Hf. revert Hf. replace k with (Z.of_nat (Z.to_nat k)) by lia. induction (Z.to_nat k) as [| n IH]; intros Hf; [done |].
  replace (Z.of_nat (S n)) with (Z.of_nat n + 1) in * by lia. rewrite blocks_snoc, zlength_app, IH, Hf by (lia || (intros; apply Hf; lia)).
  lia.
Qed.
End Blocks.

(** ** Loops *)

Section Loops.
Context {B : Type} (st : Z -> Skeleton).

Lemma builds_for_from {A} (h : Z -> A) (f : A -> GraphM unit) (m : nat) : forall k,
  (forall i, k <= i < k + Z.of_nat m -> builds (f (h i)) (st i) (st (i + 1)) tt) ->
  builds (for_each (h <$> seqZ k (Z.of_nat m)) f) (st k) (st (k + Z.of_nat m)) tt.
Proof.
  induction m as [| m IH]; intros k Hf; [rewrite Z.add_0_r; apply builds_ret |].
  rewrite seqZ_cons by lia. rewrite fmap_cons. cbn [for_each]. eapply builds_bind; [apply Hf; lia |].
  replace (Z.pred (Z.of_nat (S m))) with (Z.of_nat m) by lia. replace (k + Z.of_nat (S m)) with (k + 1 + Z.of_nat m) by lia.
  rewrite <- Z.add_1_r. apply IH. intros i Hi. apply Hf. lia.
Qed.

Lemma builds_collect_from (f : Z -> GraphM B) (v : Z -> B) (m : nat) : forall k,
  (forall i, k <= i < k + Z.of_nat m -> builds (f i) (st i) (st (i + 1)) (v i)) ->
  builds (collect (seqZ k (Z.of_nat m)) f) (st k) (st (k + Z.of_nat m)) (v <$> seqZ k (Z.of_nat m)).
Proof.
  induction m as [| m IH]; intros k Hf; [rewrite Z.add_0_r; apply builds_ret |].
  rewrite seqZ_cons by lia. rewrite fmap_cons. cbn [collect]. eapply builds_bind; [apply Hf; lia |].
  replace (Z.pred (Z.of_nat (S m))) with (Z.of_nat m) by lia. replace (k + Z.of_nat (S m)) with (k + 1 + Z.of_nat m) by lia.
  rewrite <- Z.add_1_r. eapply builds_bind; [apply IH; intros i Hi; apply Hf; lia | apply builds_ret].
Qed.

Lemma builds_for_each {A} (h : Z -> A) (f : A -> GraphM unit) n : 0 <= n ->
  (forall k, 0 <= k < n -> builds (f (h k)) (st k) (st (k + 1)) tt) ->
  builds (for_each (h <$> indices n) f) (st 0) (st n) tt.
Proof.
  intros Hn Hf. pose proof (builds_for_from h f (Z.to_nat n) 0) as H. rewrite Z2Nat.id, Z.add_0_l in H by done.
  apply H. intros i Hi. apply Hf. lia.
Qed.

Lemma builds_collect (f : Z -> GraphM B) (v : Z -> B) n : 0 <= n ->
  (forall k, 0 <= k < n -> builds (f k) (st k) (st (k + 1)) (v k)) ->
  builds (collect (indices n) f) (st 0) (st n) (v <$> indices n).
Proof.
  intros Hn Hf. pose proof (builds_collect_from f v (Z.to_nat n) 0) as H. rewrite Z2Nat.id, Z.add_0_l in H by done.
  apply H. intros i Hi. apply Hf. lia.
Qed.

Lemma builds_repeat (m : GraphM unit) n : 0 <= n ->
  (forall k, 0 <= k < n -> builds m (st k) (st (k + 1)) tt) -> builds (for_each (indices n) (fun _ => m)) (st 0) (st n) tt.
Proof. intros Hn Hf. pose proof (builds_for_each id (fun _ => m) n Hn Hf) as H. by rewrite list_fmap_id in H. Qed.
End Loops.

Lemma builds_to {A} (m : GraphM A) sk sk1 sk2 a : builds m sk sk1 a -> sk1 = sk2 -> builds m sk sk2 a.
Proof. by intros ? <-. Qed.

Lemma builds_drop {A} (m : GraphM A) sk sk' a : builds m sk sk' a -> builds (do! m in ret tt) sk sk' tt.
Proof. intros Hm. eapply builds_bind; [exact Hm | apply builds_ret]. Qed.

(** ** A leaf-spine fabric *)

Section LeafSpine.
Context (leaves nics gpus spines : Z).
Context (Hleaves : 0 < leaves) (Hnics : 0 < nics) (Hgpus : 0 < gpus) (Hspines : 0 <= spines).
Context (Hroom : 2 * (leaves * nics * gpus + leaves * nics + leaves * spines) <= u64_max).

Definition gpu_edge (nic k : Z) : NodeId * NodeId := (gpu_node (nic * gpus + k), nic_node nic).

Definition nic_edges (leaf nic : Z) : list (NodeId * NodeId) :=
  (gpu_edge nic <$> indices gpus) ++ [(nic_node nic, switch_node leaf)].

Definition rack_edges (leaf : Z) : list (NodeId * NodeId) :=
  blocks (fun j => nic_edges leaf (leaf * nics + j)) nics.

Definition rack_nics_of (leaf count : Z) : list RackId := (fun _ => leaf) <$> indices count.

Definition nic_gpus_of (nic count : Z) : list NicId := (fun _ => nic) <$> indices count.

Definition spine_edge (leaf k : Z) : NodeId * NodeId := (switch_node leaf, switch_node (leaves + k)).

Definition spine_edges (leaf : Z) : list (NodeId * NodeId) := spine_edge leaf <$> indices spines.

(** [l] racks are complete. *)
Definition racks_state (l : Z) : Skeleton :=
  mkSkeleton l (blocks (fun l => rack_nics_of l nics) l) (blocks (fun n => nic_gpus_of n gpus) (l * nics))
    (Some <$> indices l) (blocks rack_edges l).

(** [j] NICs of rack [l] are complete, and [k] GPUs of the next. *)
Definition nics_state (l j : Z) : Skeleton :=
  mkSkeleton (l + 1) (blocks (fun l => rack_nics_of l nics) l ++ rack_nics_of l j)
    (blocks (fun n => nic_gpus_of n gpus) (l * nics + j)) (Some <$> indices (l + 1))
    (blocks rack_edges l ++ blocks (fun j => nic_edges l (l * nics + j)) j).

Definition gpus_state (l j k : Z) : Skeleton :=
  mkSkeleton (l + 1) (blocks (fun l => rack_nics_of l nics) l ++ rack_nics_of l (j + 1))
    (blocks (fun n => nic_gpus_of n gpus) (l * nics + j) ++ nic_gpus_of (l * nics + j) k) (Some <$> indices (l + 1))
    ((blocks rack_edges l ++ blocks (fun j => nic_edges l (l * nics + j)) j) ++ (gpu_edge (l * nics + j) <$> indices k)).

(** [s] spines are there; then, all edges of [l] leaves and [s] of the next. *)
Definition spines_state (s : Z) : Skeleton :=
  let sk := racks_state leaves in {| sk with sk_switches := sk_switches sk ++ ((fun _ => None) <$> indices s) |}.

Definition fabric_state (l s : Z) : Skeleton :=
  let sk := spines_state spines in
  {| sk with sk_edges := sk_edges sk ++ (blocks spine_edges l ++ (spine_edge l <$> indices s)) |}.

(** The finished fabric. *)
Definition fabric : Skeleton :=
  mkSkeleton leaves (blocks (fun l => rack_nics_of l nics) leaves) (blocks (fun n => nic_gpus_of n gpus) (leaves * nics))
    ((Some <$> indices leaves) ++ ((fun _ => None) <$> indices spines)) (blocks rack_edges leaves ++ blocks spine_edges leaves).

(** Sizes. *)

Lemma nic_edges_length leaf nic : zlength (nic_edges leaf nic) = gpus + 1.
Proof. unfold nic_edges. rewrite zlength_app, zlength_fmap, indices_length by lia. done. Qed.

Lemma rack_edges_length leaf : zlength (rack_edges leaf) = nics * (gpus + 1).
Proof. unfold rack_edges. apply blocks_length; [lia |]. intros i _. apply nic_edges_length. Qed.

Lemma nics_length l : 0 <= l -> zlength (blocks (fun l => rack_nics_of l nics) l) = l * nics.
Proof. intros Hl. apply blocks_length; [done |]. intros i _. unfold rack_nics_of. rewrite zlength_fmap. apply indices_length. lia. Qed.

Lemma gpus_length n : 0 <= n -> zlength (blocks (fun n => nic_gpus_of n gpus) n) = n * gpus.
Proof. intros Hl. apply blocks_length; [done |]. intros i _. unfold nic_gpus_of. rewrite zlength_fmap. apply indices_length. lia. Qed.

Lemma some_length l : 0 <= l -> zlength (Some <$> indices l : list (option RackId)) = l.
Proof. intros Hl. rewrite zlength_fmap. by apply indices_length. Qed.

Lemma attached_edges_length l j : 0 <= l -> 0 <= j ->
  zlength (blocks rack_edges l ++ blocks (fun j => nic_edges l (l * nics + j)) j) = (l * nics + j) * (gpus + 1).
Proof.
  intros Hl Hj. rewrite zlength_app, (blocks_length rack_edges l (nics * (gpus + 1))) by (done || (intros; apply rack_edges_length)).
  rewrite (blocks_length _ j (gpus + 1)) by (done || (intros; apply nic_edges_length)). lia.
Qed.

(** The edges so far start at GPUs and at earlier NICs. *)
Lemma attached_edges_start l j e : 0 <= l -> 0 <= j ->
  e ∈ blocks rack_edges l ++ blocks (fun j => nic_edges l (l * nics + j)) j ->
  node_kind (fst e) = NodeKind_Gpu \/ exists n, 0 <= n < l * nics + j /\ fst e = nic_node n.
Proof.
  intros Hl Hj He. assert (exists l' j', 0 <= l' * nics + j' < l * nics + j /\ e ∈ nic_edges l' (l' * nics + j')) as (l' & j' & Hr & Hin).
  { apply elem_of_app in He as [(l' & Hl' & (j' & Hj' & He)%blocks_elem)%blocks_elem | (j' & Hj' & He)%blocks_elem].
    - exists l', j'. split; [nia | done].
    - exists l, j'. split; [nia | done]. }
  apply elem_of_app in Hin as [(k & -> & _)%list_elem_of_fmap | ->%list_elem_of_singleton]; [by left | right]. eauto.
Qed.

Lemma position_range l j : 0 <= l < leaves -> 0 <= j < nics -> 0 <= l * nics + j < leaves * nics.
Proof. nia. Qed.

Lemma gpu_room n k : 0 <= n < leaves * nics -> 0 <= k < gpus -> 0 <= n * gpus + k < leaves * nics * gpus.
Proof. nia. Qed.

Lemma edge_room n k : 0 <= n < leaves * nics -> 0 <= k <= gpus -> 2 * (n * (gpus + 1) + k) + 1 <= u64_max.
Proof. intros Hn Hk. assert ((n + 1) * (gpus + 1) <= leaves * nics * (gpus + 1)) by nia. nia. Qed.

Lemma gpus_state_sizes l j k : 0 <= l < leaves -> 0 <= j < nics -> 0 <= k <= gpus ->
  let sk := gpus_state l j k in
  zlength (sk_nics sk) = l * nics + j + 1 /\ zlength (sk_gpus sk) = (l * nics + j) * gpus + k /\
  zlength (sk_edges sk) = (l * nics + j) * (gpus + 1) + k /\ zlength (sk_switches sk) = l + 1.
Proof.
  intros Hl Hj Hk. pose proof (position_range l j Hl Hj). cbn [gpus_state sk_nics sk_gpus sk_edges sk_switches].
  rewrite (zlength_app _ (gpu_edge _ <$> _)), attached_edges_length, some_length, !zlength_app, nics_length, gpus_length by lia.
  unfold rack_nics_of, nic_gpus_of. rewrite !zlength_fmap, !indices_length by lia. lia.
Qed.

Lemma gpu_step l j k : 0 <= l < leaves -> 0 <= j < nics -> 0 <= k < gpus ->
  builds (do! add_gpu (l * nics + j) in ret tt) (gpus_state l j k) (gpus_state l j (k + 1)) tt.
Proof.
  intros Hl Hj Hk. pose proof (position_range l j Hl Hj) as Hp.
  destruct (gpus_state_sizes l j k Hl Hj ltac:(lia)) as (S1 & S2 & S3 & S4). cbv zeta in *.
  pose proof (gpu_room _ k Hp Hk). pose proof (edge_room _ k Hp ltac:(lia)).
  eapply builds_drop, builds_to; [apply add_gpu_builds; [lia | nia | lia] |]. rewrite S2.
  unfold gpus_state, nic_gpus_of, gpu_edge. cbn [sk_racks sk_nics sk_gpus sk_switches sk_edges].
  rewrite (indices_snoc k), !fmap_app by lia. by rewrite !app_assoc.
Qed.

Lemma nic_done l j : 0 <= l * nics + j -> 0 <= j -> nics_state l (j + 1) =
  let sk := gpus_state l j gpus in {| sk with sk_edges := sk_edges sk ++ [(nic_node (l * nics + j), switch_node l)] |}.
Proof.
  intros Hp Hj. unfold gpus_state, nics_state. cbn [sk_racks sk_nics sk_gpus sk_switches sk_edges]. rewrite Z.add_assoc.
  rewrite (blocks_snoc _ (l * nics + j)), (blocks_snoc _ j) by lia. unfold nic_edges at 2. by rewrite !app_assoc.
Qed.

(** A NIC with its GPUs and its uplink. *)
Lemma nic_step l j : 0 <= l < leaves -> 0 <= j < nics ->
  builds
    (let! nic := add_nic l in
     do! for_each (indices gpus) (fun _ => do! add_gpu nic in ret tt) in
     do! connect_fabric (nic_node nic) FabricUplink (switch_node l) FabricDownlink in
     ret tt) (nics_state l j) (nics_state l (j + 1)) tt.
Proof.
  intros Hl Hj. pose proof (position_range l j Hl Hj) as Hp.
  assert (zlength (sk_nics (nics_state l j)) = l * nics + j) as Hn.
  { cbn [nics_state sk_nics]. rewrite zlength_app, nics_length by lia. unfold rack_nics_of.
    rewrite zlength_fmap, indices_length by lia. lia. }
  eapply builds_bind; [eapply (builds_to _ _ _ (gpus_state l j 0)); [apply (add_nic_builds _ l); [cbn; lia | rewrite Hn; nia] |] |].
  { unfold gpus_state, nics_state, rack_nics_of, nic_gpus_of. cbn [sk_racks sk_nics sk_gpus sk_switches sk_edges].
    rewrite (indices_snoc j), fmap_app by lia. by rewrite !app_assoc, !app_nil_r. }
  rewrite Hn. eapply builds_bind; [apply (builds_repeat (gpus_state l j)); [lia |]; intros k Hk; by apply gpu_step |].
  destruct (gpus_state_sizes l j gpus Hl Hj ltac:(lia)) as (S1 & S2 & S3 & S4). cbv zeta in *.
  pose proof (edge_room _ gpus Hp ltac:(lia)). eapply builds_to; [| symmetry; apply nic_done; lia].
  intros g Hg. destruct (connect_builds _ (nic_node (l * nics + j)) FabricUplink (switch_node l) FabricDownlink g Hg)
    as (g' & Hr & Hg'); try done.
  - apply (node_in_built _ _ Hg). cbn [node_kind node_value nic_node switch_node]. lia.
  - apply (node_in_built _ _ Hg). cbn [node_kind node_value nic_node switch_node]. lia.
  - cbn [gpus_state sk_edges]. intros [He | He]; cbn [sk_edges gpus_state] in He; apply elem_of_app in He as [He | (k & [=] & _)%list_elem_of_fmap];
      apply attached_edges_start in He as [He | (n & Hr & He)]; try lia; try done. injection He. lia.
  - nia.
  - lia.
  - exists g'. unfold bind. by rewrite Hr.
Qed.

Lemma rack_start l : 0 <= l -> nics_state l 0 =
  let sk := racks_state l in
  {| sk with sk_racks := sk_racks sk + 1; sk_switches := sk_switches sk ++ [Some (sk_racks sk)] |}.
Proof.
  intros Hl. unfold nics_state, racks_state, rack_nics_of. cbn [sk_racks sk_nics sk_gpus sk_switches sk_edges].
  rewrite (indices_snoc l), fmap_app by lia. by rewrite !app_nil_r, Z.add_0_r.
Qed.

Lemma rack_done l : 0 <= l -> racks_state (l + 1) = nics_state l nics.
Proof.
  intros Hl. unfold nics_state, racks_state. rewrite (blocks_snoc _ l), (blocks_snoc rack_edges l) by lia.
  by replace ((l + 1) * nics) with (l * nics + nics) by lia.
Qed.

(** A rack with its leaf switch and its NICs. *)
Lemma rack_step l : 0 <= l < leaves ->
  builds (add_leaf_rack (mkLeafRackDimensions nics gpus)) (racks_state l) (racks_state (l + 1)) l.
Proof.
  intros Hl. assert (leaves <= u64_max) by nia. unfold add_leaf_rack. cbn [lr_nic_count lr_gpus_per_nic].
  eapply builds_bind; [apply add_rack_builds; cbn; lia |]. cbn [racks_state sk_racks].
  eapply builds_bind; [eapply (builds_to _ _ _ (nics_state l 0)); [apply add_leaf_switch_builds |] |].
  - cbn. lia.
  - cbn [racks_state sk_switches]. rewrite some_length by lia. lia.
  - rewrite rack_start by lia. done.
  - cbn [racks_state sk_switches]. rewrite some_length by lia.
    eapply builds_bind; [| apply builds_ret]. rewrite rack_done by lia.
    apply (builds_repeat (nics_state l)); [lia |]. intros j Hj. by apply nic_step.
Qed.

Lemma spines_length s : 0 <= s -> zlength (sk_switches (spines_state s)) = leaves + s.
Proof.
  intros Hs. cbn [spines_state racks_state sk_switches]. rewrite zlength_app, some_length, zlength_fmap, indices_length by lia. lia.
Qed.

Lemma spine_step s : 0 <= s < spines -> builds add_spine_switch (spines_state s) (spines_state (s + 1)) (leaves + s).
Proof.
  intros Hs. assert (leaves + spines <= u64_max) by nia. rewrite <- (spines_length s) by lia.
  eapply builds_to; [apply add_spine_switch_builds; rewrite spines_length by lia; lia |].
  unfold spines_state. cbn [racks_state sk_racks sk_nics sk_gpus sk_switches sk_edges].
  rewrite (indices_snoc s), fmap_app by lia. by rewrite app_assoc.
Qed.

Lemma spine_edges_length l s : 0 <= l -> 0 <= s ->
  zlength (blocks spine_edges l ++ (spine_edge l <$> indices s)) = l * spines + s.
Proof.
  intros Hl Hs. rewrite zlength_app, zlength_fmap, indices_length by lia.
  rewrite (blocks_length _ l spines); [lia | done |]. intros i _. unfold spine_edges. rewrite zlength_fmap. by apply indices_length.
Qed.

Lemma fabric_sizes l s : 0 <= l -> 0 <= s ->
  let sk := fabric_state l s in
  zlength (sk_gpus sk) = leaves * nics * gpus /\ zlength (sk_switches sk) = leaves + spines /\
  zlength (sk_edges sk) = leaves * nics * (gpus + 1) + (l * spines + s).
Proof.
  intros Hl Hs. cbn [fabric_state spines_state racks_state sk_gpus sk_switches sk_edges].
  rewrite gpus_length by nia. rewrite (zlength_app (blocks rack_edges _)), spine_edges_length by lia.
  rewrite (blocks_length rack_edges leaves (nics * (gpus + 1))) by (lia || (intros; apply rack_edges_length)).
  rewrite zlength_app, some_length, zlength_fmap, indices_length by lia. lia.
Qed.

(** Edges of the fabric between switches. *)
Lemma fabric_edges_switch l s a b : 0 <= l -> 0 <= s ->
  (switch_node a, switch_node b) ∈ sk_edges (fabric_state l s) ->
  exists k, b = leaves + k /\ 0 <= k /\ (0 <= a < l \/ a = l /\ k < s).
Proof.
  intros Hl Hs He. cbn [fabric_state spines_state racks_state sk_edges] in He.
  apply elem_of_app in He as [He | [(l' & Hl' & (k & [= -> ->] & Hk%indices_elem)%list_elem_of_fmap)%blocks_elem |
    (k & [= -> ->] & Hk%indices_elem)%list_elem_of_fmap]%elem_of_app].
  - exfalso. assert ((switch_node a, switch_node b) ∈ blocks rack_edges leaves ++ blocks (fun j => nic_edges leaves (leaves * nics + j)) 0) as He'
      by (apply elem_of_app; by left). apply attached_edges_start in He' as [? | (n & _ & ?)]; done || lia.
  - exists k. split; [done | split; [lia |]]. left. lia.
  - exists k. split; [done | split; [lia |]]. right. lia.
Qed.

Lemma connect_step l s : 0 <= l < leaves -> 0 <= s < spines ->
  builds (do! connect_fabric (switch_node l) FabricUplink (switch_node (leaves + s)) FabricDownlink in ret tt)
    (fabric_state l s) (fabric_state l (s + 1)) tt.
Proof.
  intros Hl Hs g Hg. destruct (fabric_sizes l s ltac:(lia) ltac:(lia)) as (S1 & S2 & S3). cbv zeta in *.
  destruct (connect_builds _ (switch_node l) FabricUplink (switch_node (leaves + s)) FabricDownlink g Hg)
    as (g' & Hr & Hg'); try done.
  - apply (node_in_built _ _ Hg). cbn [node_kind node_value switch_node]. lia.
  - apply (node_in_built _ _ Hg). cbn [node_kind node_value switch_node]. lia.
  - intros [= ?]. lia.
  - intros [He | He]; apply fabric_edges_switch in He as (k & H1 & H2 & H3); lia.
  - nia.
  - rewrite S3. assert (l * spines + s + 1 <= leaves * spines) by nia. nia.
  - exists g'. unfold bind. rewrite Hr. split; [done |]. revert Hg'. unfold fabric_state.
    cbn [spines_state racks_state sk_racks sk_nics sk_gpus sk_switches sk_edges].
    rewrite (indices_snoc s), fmap_app by lia. by rewrite !app_assoc.
Qed.

Lemma fabric_next l : 0 <= l -> fabric_state (l + 1) 0 = fabric_state l spines.
Proof.
  intros Hl. unfold fabric_state. rewrite (blocks_snoc _ l) by lia. by rewrite app_nil_r.
Qed.

(** The loops of [generate_leaf_spine] after its guards. *)
Lemma leaf_spine_builds :
  builds
    (let! leaf_ids := collect (indices leaves) (fun _ => add_leaf_rack (mkLeafRackDimensions nics gpus)) in
     let! spine_ids := collect (indices spines) (fun _ => add_spine_switch) in
     for_each leaf_ids (fun leaf =>
       for_each spine_ids (fun spine =>
         do! connect_fabric (switch_node leaf) FabricUplink (switch_node spine) FabricDownlink in ret tt)))
    (racks_state 0) fabric tt.
Proof.
  eapply builds_bind; [apply (builds_collect racks_state _ id); [lia |]; intros l Hl; by apply rack_step |].
  eapply (builds_bind _ _ _ (spines_state spines)).
  { replace (racks_state leaves) with (spines_state 0) by (unfold spines_state; cbn; by rewrite app_nil_r).
    apply (builds_collect spines_state _ (fun s => leaves + s)); [lia |]. intros s Hs. by apply spine_step. }
  replace (spines_state spines) with (fabric_state 0 0).
  2: { unfold fabric_state. cbn [blocks]. rewrite !app_nil_r. done. }
  replace fabric with (fabric_state leaves 0).
  2: { unfold fabric_state, fabric. cbn [spines_state racks_state sk_racks sk_nics sk_gpus sk_switches sk_edges]. by rewrite app_nil_r. }
  apply (builds_for_each (fun l => fabric_state l 0) id); [lia |]. intros l Hl. rewrite fabric_next by lia.
  apply (builds_for_each (fabric_state l) (fun s => leaves + s)); [lia |]. intros s Hs. by apply connect_step.
Qed.
End LeafSpine.

(** The empty graph. *)
Lemma empty_built nics gpus : built (racks_state nics gpus 0) empty_graph.
Proof.
  split; [split; [apply empty_graph_ok | apply empty_members_ok] | by exists [] | done .. |].
  by split; [| split]; constructor.
Qed.

(** ** The shape of a generated fabric

    Counts of members, ports and links of a leaf-spine fabric, read off its
    skeleton; every node is reached. *)

(** ** Amounts *)

Definition amount {A} (P : A -> Prop) `{!forall x, Decision (P x)} (l : list A) : Z := zlength (filter P l).

Section Amount.
Context {A : Type} (P : A -> Prop) `{!forall x, Decision (P x)}.
Implicit Types (l : list A).

Lemma amount_app l1 l2 : amount P (l1 ++ l2) = amount P l1 + amount P l2.
Proof. unfold amount. by rewrite filter_app, zlength_app. Qed.

Lemma amount_nil : amount P [] = 0.
Proof. done. Qed.

Lemma amount_cons x l : amount P (x :: l) = (if decide (P x) then 1 else 0) + amount P l.
Proof. unfold amount. rewrite filter_cons. case_decide; rewrite ?zlength_cons; lia. Qed.

Lemma amount_all l : (forall x, x ∈ l -> P x) -> amount P l = zlength l.
Proof. intros Hall. unfold amount. by rewrite filter_all. Qed.

Lemma amount_none l : (forall x, x ∈ l -> ~ P x) -> amount P l = 0.
Proof. intros Hall. unfold amount. by rewrite filter_none. Qed.

Lemma amount_fmap {B} (f : B -> A) (l : list B) : amount P (f <$> l) = amount (fun x => P (f x)) l.
Proof.
  induction l as [| x l IH]; [done |]. rewrite fmap_cons. unfold amount in *. rewrite !filter_cons.
  destruct (decide (P (f x))); rewrite ?zlength_cons; lia.
Qed.

Lemma amount_blocks f k : amount P (blocks f k) = sumZ ((fun i => amount P (f i)) <$> indices k).
Proof.
  unfold blocks. induction (indices k) as [| i l IH]; [done |]. rewrite !fmap_cons. cbn [concat]. by rewrite amount_app, IH.
Qed.
End Amount.

Lemma amount_ext {A} (P Q : A -> Prop) `{!forall x, Decision (P x)} `{!forall x, Decision (Q x)} (l : list A) :
  (forall x, x ∈ l -> P x <-> Q x) -> amount P l = amount Q l.
Proof. intros Hpq. unfold amount. by rewrite (filter_ext_in P Q). Qed.

(** Sums of constants and of a single value. *)
Lemma sum_constant (f : Z -> Z) k c : 0 <= k -> (forall i, 0 <= i < k -> f i = c) -> sumZ (f <$> indices k) = k * c.
Proof.
  intros Hk. replace k with (Z.of_nat (Z.to_nat k)) by lia. induction (Z.to_nat k) as [| n IH]; intros Hf; [done |].
  replace (Z.of_nat (S n)) with (Z.of_nat n + 1) in * by lia.
  rewrite indices_snoc, fmap_app, sumZ_app, IH by (lia || (intros; apply Hf; lia)). cbn. rewrite Hf by lia. lia.
Qed.

Lemma sum_single (f : Z -> Z) k r : 0 <= r < k -> (forall i, 0 <= i < k -> i <> r -> f i = 0) -> sumZ (f <$> indices k) = f r.
Proof.
  destruct (decide (0 <= k)) as [Hk | Hk]; [| lia].
  rewrite <- (Z2Nat.id k) by done. induction (Z.to_nat k) as [| n IH]; intros Hr Hf; [lia |].
  replace (Z.of_nat (S n)) with (Z.of_nat n + 1) in * by lia. rewrite indices_snoc, fmap_app, sumZ_app by lia. cbn.
  destruct (decide (r = Z.of_nat n)) as [-> | Hne].
  - rewrite (sum_constant _ _ 0) by (lia || (intros; apply Hf; lia)). lia.
  - rewrite IH by (lia || (intros; apply Hf; lia)). rewrite (Hf (Z.of_nat n)) by lia. lia.
Qed.

Lemma blocks_blocks {A} (f : Z -> list A) n m : 0 <= n -> 0 <= m ->
  blocks f (m * n) = blocks (fun l => blocks (fun j => f (l * n + j)) n) m.
Proof.
  intros Hn Hm. replace m with (Z.of_nat (Z.to_nat m)) by lia. induction (Z.to_nat m) as [| k IH]; [done |].
  replace (Z.of_nat (S k)) with (Z.of_nat k + 1) by lia. rewrite blocks_snoc, <- IH by lia. clear IH.
  replace ((Z.of_nat k + 1) * n) with (Z.of_nat k * n + n) by lia. set (s := Z.of_nat k * n). assert (0 <= s) as Hs by (unfold s; nia).
  clearbody s. replace n with (Z.of_nat (Z.to_nat n)) by lia. induction (Z.to_nat n) as [| j IH]; [by rewrite Z.add_0_r, app_nil_r |].
  replace (Z.of_nat (S j)) with (Z.of_nat j + 1) by lia. rewrite Z.add_assoc, !blocks_snoc, IH by lia. by rewrite app_assoc.
Qed.

(** ** Ends of edges *)

Lemma ends_app e1 e2 : ends (e1 ++ e2) = ends e1 ++ ends e2.
Proof. unfold ends. by rewrite fmap_app, concat_app. Qed.

Lemma ends_fmap (f : Z -> NodeId * NodeId) k : ends (f <$> indices k) = blocks (fun i => [fst (f i); snd (f i)]) k.
Proof. unfold ends, blocks. by rewrite <- list_fmap_compose. Qed.

Lemma ends_blocks f k : ends (blocks f k) = blocks (fun i => ends (f i)) k.
Proof. unfold blocks. induction (indices k) as [| i l IH]; [done |]. rewrite !fmap_cons. cbn [concat]. by rewrite ends_app, IH. Qed.

(** ** Counts of a built graph *)

Lemma members_tally {E A} (lst : E -> list Z) (es : list E) (key : A -> Z * option Z) (l : list A) i e :
  members (lst <$> es) (key <$> l) -> es !! i = Some e ->
  zlength (lst e) = amount (fun x => snd (key x) = Some (Z.of_nat i)) l.
Proof.
  intros Hm He. rewrite (Hm i (lst e)) by (by rewrite list_lookup_fmap, He). rewrite zlength_fmap.
  change (amount (fun x => snd x = Some (Z.of_nat i)) (key <$> l) = amount (fun x => snd (key x) = Some (Z.of_nat i)) l).
  by rewrite amount_fmap.
Qed.

Section Counts.
Context sk g (Hb : built sk g).
#[local] Abbreviation Hm := (proj2 (bt_sound _ _ Hb)).

Lemma ports_count {E} (lst : E -> list PortId) (es : list E) k i e :
  members (lst <$> es) (owner_key k <$> ports_ g) -> es !! i = Some e ->
  zlength (lst e) = amount (fun n => n = mkNodeId k (Z.of_nat i)) (ends (sk_edges sk)).
Proof.
  intros Hmem He. rewrite (members_tally _ _ _ _ _ _ Hmem He), <- (bt_edges _ _ Hb), amount_fmap. apply amount_ext.
  intros p _. cbn. case_bool_decide as Hk; destruct (port_owner p) as [pk pv]; cbn in *; split; congruence.
Qed.

Lemma rack_nics_count i r : racks_ g !! i = Some r -> zlength (rack_nics r) = amount (fun x => x = Z.of_nat i) (sk_nics sk).
Proof.
  intros Hr. rewrite (members_tally _ _ _ _ _ _ (mo_rack_nics _ Hm) Hr), <- (bt_nics _ _ Hb), amount_fmap.
  apply amount_ext. intros n _. cbn. split; congruence.
Qed.

Lemma nic_gpus_count i n : nics_ g !! i = Some n -> zlength (nic_attached_gpus n) = amount (fun x => x = Z.of_nat i) (sk_gpus sk).
Proof.
  intros Hn. rewrite (members_tally _ _ _ _ _ _ (mo_nic_gpus _ Hm) Hn), <- (bt_gpus _ _ Hb), amount_fmap.
  apply amount_ext. intros w _. cbn. split; congruence.
Qed.

Lemma rack_switches_count i r : racks_ g !! i = Some r ->
  zlength (rack_leaf_switches r) = amount (fun x => x = Some (Z.of_nat i)) (sk_switches sk).
Proof.
  intros Hr. rewrite (members_tally _ _ _ _ _ _ (mo_rack_switches _ Hm) Hr), <- (bt_switches _ _ Hb), amount_fmap. by apply amount_ext.
Qed.

(** The GPUs of a rack are those of its NICs. *)
Lemma rack_gpus_count i r (rack_of : Z -> Z) :
  (forall n k, nics_ g !! n = Some k -> nic_rack k = rack_of (Z.of_nat n)) -> racks_ g !! i = Some r ->
  zlength (rack_gpus r) = amount (fun n => rack_of n = Z.of_nat i) (sk_gpus sk).
Proof.
  intros Hof Hr. rewrite (members_tally _ _ _ _ _ _ (mo_rack_gpus _ Hm) Hr), <- (bt_gpus _ _ Hb), amount_fmap.
  apply amount_ext. intros w Hw. cbn. destruct (gs_gpus _ (go_structure _ (proj1 (bt_sound _ _ Hb))) w Hw) as (H0 & k & Hk & Heq).
  rewrite <- Heq, (Hof _ _ Hk), Z2Nat.id by done. split; congruence.
Qed.
End Counts.

(** ** The fabric *)

Section Fabric.
Context (leaves nics gpus spines : Z).
Context (Hleaves : 0 < leaves) (Hnics : 0 < nics) (Hgpus : 0 < gpus) (Hspines : 0 < spines).
#[local] Abbreviation sk := (fabric leaves nics gpus spines).

Lemma switch_decide a b : (if decide (switch_node a = switch_node b) then 1 else 0) = if decide (b = a) then 1 else 0.
Proof. repeat case_decide; simplify_eq/=; done. Qed.

Lemma nic_ends_tally x l n : amount (fun m => m = switch_node x) (ends (nic_edges gpus l n)) = if decide (x = l) then 1 else 0.
Proof.
  unfold nic_edges. rewrite ends_app, amount_app, ends_fmap, amount_blocks. rewrite (sum_constant _ gpus 0); [| lia |].
  - cbn [ends fmap list_fmap concat app fst snd]. rewrite !amount_cons, decide_False by done.
    rewrite switch_decide, amount_nil. case_decide; lia.
  - intros i _. rewrite !amount_cons, !decide_False by done. done.
Qed.

Lemma rack_ends_tally x l : amount (fun m => m = switch_node x) (ends (rack_edges nics gpus l)) = if decide (x = l) then nics else 0.
Proof.
  unfold rack_edges. rewrite ends_blocks, amount_blocks, (sum_constant _ nics (if decide (x = l) then 1 else 0)); [| lia |].
  - case_decide; lia.
  - intros i _. apply nic_ends_tally.
Qed.

Lemma spine_ends_tally x l : amount (fun m => m = switch_node x) (ends (spine_edges leaves spines l)) =
  (if decide (x = l) then spines else 0) + (if decide (leaves <= x < leaves + spines) then 1 else 0).
Proof.
  unfold spine_edges. rewrite ends_fmap, amount_blocks.
  assert (forall i, amount (fun m => m = switch_node x) [fst (spine_edge leaves l i); snd (spine_edge leaves l i)] =
    (if decide (x = l) then 1 else 0) + (if decide (i = x - leaves) then 1 else 0)) as Hone.
  { intros i. rewrite !amount_cons. cbn [spine_edge fst snd]. rewrite amount_nil.
    rewrite !switch_decide. repeat case_decide; lia. }
  rewrite (list_fmap_ext _ (fun i => (if decide (x = l) then 1 else 0) + (if decide (i = x - leaves) then 1 else 0))) by (intros; apply Hone).
  assert (forall ks c (h : Z -> Z), sumZ ((fun i => c + h i) <$> ks) = zlength ks * c + sumZ (h <$> ks)) as Hsplit.
  { intros ks c h. induction ks as [| k ks IH]; [done |]. rewrite !fmap_cons, !sumZ_cons, IH, zlength_cons. lia. }
  rewrite Hsplit, indices_length by lia. f_equal; [case_decide; lia |].
  destruct (decide (leaves <= x < leaves + spines)) as [Hx | Hx].
  - rewrite (sum_single _ spines (x - leaves)) by (lia || (intros i _ Hi; by rewrite decide_False)). by rewrite decide_True.
  - rewrite (sum_constant _ spines 0); [lia | lia |]. intros i Hi. rewrite decide_False by lia. done.
Qed.

Lemma leaf_ports_tally x : 0 <= x < leaves -> amount (fun m => m = switch_node x) (ends (sk_edges sk)) = nics + spines.
Proof.
  intros Hx. cbn [fabric sk_edges]. rewrite ends_app, amount_app, !ends_blocks, !amount_blocks.
  rewrite (sum_single _ leaves x), (sum_single _ leaves x); try done.
  - rewrite rack_ends_tally, spine_ends_tally. rewrite !decide_True, decide_False by lia. lia.
  - intros l _ Hl. rewrite spine_ends_tally, !decide_False by lia. done.
  - intros l _ Hl. by rewrite rack_ends_tally, decide_False.
Qed.

Lemma spine_ports_tally x : leaves <= x < leaves + spines -> amount (fun m => m = switch_node x) (ends (sk_edges sk)) = leaves.
Proof.
  intros Hx. cbn [fabric sk_edges]. rewrite ends_app, amount_app, !ends_blocks, !amount_blocks.
  rewrite (sum_constant _ leaves 0), (sum_constant _ leaves 1); try lia.
  - intros l Hl. rewrite spine_ends_tally, decide_False, decide_True by lia. done.
  - intros l Hl. by rewrite rack_ends_tally, decide_False by lia.
Qed.

Lemma const_tally (x y count : Z) : 0 <= count -> amount (fun m => m = x) ((fun _ => y) <$> indices count) = if decide (y = x) then count else 0.
Proof.
  intros Hc. rewrite amount_fmap. case_decide as Hd; [rewrite amount_all by done; by apply indices_length | by apply amount_none].
Qed.

Lemma rack_nics_tally r : 0 <= r < leaves -> amount (fun x => x = r) (sk_nics sk) = nics.
Proof.
  intros Hr. cbn [fabric sk_nics]. rewrite amount_blocks, (sum_single _ leaves r) by
    (done || (intros i _ Hi; unfold rack_nics_of; rewrite const_tally, decide_False by (done || lia); done)).
  unfold rack_nics_of. by rewrite const_tally, decide_True by (done || lia).
Qed.

Lemma nic_gpus_tally n : 0 <= n < leaves * nics -> amount (fun x => x = n) (sk_gpus sk) = gpus.
Proof.
  intros Hn. cbn [fabric sk_gpus]. rewrite amount_blocks, (sum_single _ _ n) by
    (done || (intros i _ Hi; unfold nic_gpus_of; rewrite const_tally, decide_False by (done || lia); done)).
  unfold nic_gpus_of. by rewrite const_tally, decide_True by (done || lia).
Qed.

Lemma quotient l j : 0 <= j < nics -> (l * nics + j) / nics = l.
Proof. intros Hj. rewrite Z.add_comm, Z_div_plus, Z.div_small by lia. done. Qed.

Lemma rack_gpus_tally r : 0 <= r < leaves -> amount (fun n => n / nics = r) (sk_gpus sk) = nics * gpus.
Proof.
  intros Hr. cbn [fabric sk_gpus]. rewrite (blocks_blocks _ nics leaves), amount_blocks by lia.
  assert (forall l, amount (fun n => n / nics = r) (blocks (fun j => nic_gpus_of (l * nics + j) gpus) nics) =
    if decide (l = r) then nics * gpus else 0) as Hl.
  { intros l. rewrite amount_blocks, (sum_constant _ nics (if decide (l = r) then gpus else 0)); [case_decide; lia | lia |].
    intros j Hj. unfold nic_gpus_of. rewrite amount_fmap, quotient by done.
    case_decide as Hd; [rewrite amount_all by done; apply indices_length; lia | by apply amount_none]. }
  rewrite (sum_single _ leaves r) by (done || (intros l _ Hlr; by rewrite Hl, decide_False)). by rewrite Hl, decide_True.
Qed.

Lemma rack_switch_tally r : 0 <= r < leaves -> amount (fun x => x = Some r) (sk_switches sk) = 1.
Proof.
  intros Hr. cbn [fabric sk_switches]. rewrite amount_app, !amount_fmap.
  rewrite (amount_none _ (indices spines)) by done.
  assert (forall ks, NoDup ks -> r ∈ ks -> amount (fun x => Some x = Some r) ks = 1) as H1.
  { intros ks Hnd Hin. rewrite (amount_ext _ (fun x => x = r)) by (intros; split; congruence).
    exact (count_value_one ks r Hnd Hin). }
  rewrite H1; [done | apply NoDup_seqZ | by apply indices_elem].
Qed.
End Fabric.
