(* ===== verification/FamiliesClos.v ===== *)
(** * A built fabric is a Clos fabric

    Everything the validator asks of a Clos topology holds of a graph that
    implements the fabric's skeleton: it is connected, has the expected counts,
    and each rack has its leaf, joined to its NICs and to every spine. *)

From S2P Require Import Prelude SimTime Entities TelemetryRecords Topology TopologyLaws TopologyMembers.
From S2P Require Import TopologyFamilies TopologyClos TopologyValidation ValidationLaws FamiliesLaws.
From S2P Require Import FamiliesLoops.

(** ** The lists of the skeleton by index *)

Lemma blocks_singletons {A} (f : Z -> A) k : blocks (fun i => [f i]) k = f <$> indices k.
Proof. unfold blocks. induction (indices k) as [| i l IH]; [done |]. rewrite !fmap_cons. cbn. by f_equal. Qed.

Lemma blocks_ext {A} (f h : Z -> list A) k : (forall i, 0 <= i < k -> f i = h i) -> blocks f k = blocks h k.
Proof.
  intros Hfh. unfold blocks. f_equal. apply list_fmap_ext. intros n i Hi. apply Hfh, indices_elem. by eapply list_elem_of_lookup_2.
Qed.

(** Runs of [n] equal values are a division by [n]. *)
Lemma runs n m : 0 < n -> 0 <= m -> blocks (fun l => (fun _ => l) <$> indices n) m = (fun i => i / n) <$> indices (m * n).
Proof.
  intros Hn Hm. rewrite <- blocks_singletons, blocks_blocks by lia. apply blocks_ext. intros l Hl.
  rewrite <- blocks_singletons. apply blocks_ext. intros j Hj. by rewrite quotient.
Qed.

Lemma indices_lookup k i x : indices k !! i = Some x <-> x = Z.of_nat i /\ Z.of_nat i < k.
Proof. unfold indices. rewrite lookup_seqZ. lia. Qed.

Lemma all_of_true {A} (f : A -> outcome bool) l : (forall x, x ∈ l -> f x = Ret true) -> all_of f l = Ret true.
Proof.
  induction l as [| x l IH]; intros Hf; [done |]. cbn [all_of]. rewrite (Hf x) by left. apply IH. intros y Hy. apply Hf. by right.
Qed.

Section Fabric.
Context (leaves nics gpus spines : Z).
Context (Hleaves : 0 < leaves) (Hnics : 0 < nics) (Hgpus : 0 < gpus) (Hspines : 0 < spines).
#[local] Abbreviation sk := (fabric leaves nics gpus spines).

Lemma fabric_nics : sk_nics sk = (fun n => n / nics) <$> indices (leaves * nics).
Proof. apply runs; lia. Qed.

Lemma fabric_gpus : sk_gpus sk = (fun w => w / gpus) <$> indices (leaves * nics * gpus).
Proof. apply runs; lia. Qed.

Lemma fabric_switch i o : sk_switches sk !! i = Some o <->
  (o = Some (Z.of_nat i) /\ Z.of_nat i < leaves) \/ (o = None /\ leaves <= Z.of_nat i < leaves + spines).
Proof.
  cbn [fabric sk_switches]. rewrite lookup_app_Some, !list_lookup_fmap, length_fmap.
  assert (length (indices leaves) = Z.to_nat leaves) as -> by (unfold indices; rewrite length_seqZ; lia). split.
  - intros [(x & [-> Hx]%indices_lookup & ->)%fmap_Some | [Hge (x & [-> Hx]%indices_lookup & ->)%fmap_Some]]; [left | right]; split; done || lia.
  - intros [[-> Hi] | [-> Hi]]; [left | right].
    + apply fmap_Some. exists (Z.of_nat i). by rewrite indices_lookup.
    + split; [lia |]. apply fmap_Some. exists (Z.of_nat i - leaves). rewrite indices_lookup. split; [lia | done].
Qed.

Lemma fabric_counts :
  zlength (sk_gpus sk) = leaves * nics * gpus /\ zlength (sk_nics sk) = leaves * nics /\
  zlength (sk_switches sk) = leaves + spines /\ zlength (sk_edges sk) = leaves * nics * (gpus + 1) + leaves * spines.
Proof.
  destruct (fabric_sizes leaves nics gpus spines ltac:(done) ltac:(done) ltac:(done) ltac:(lia) leaves 0) as (H1 & H2 & H3); [lia | lia |].
  rewrite fabric_nics, zlength_fmap, indices_length by nia. split; [exact H1 | split; [done | split; [exact H2 |]]].
  revert H3. cbn [fabric fabric_state spines_state racks_state sk_edges]. rewrite app_nil_r. lia.
Qed.

(** ** Edges *)

Lemma gpu_joined w : 0 <= w < leaves * nics * gpus -> joined sk (gpu_node w) (nic_node (w / gpus)).
Proof.
  intros Hw. left. cbn [fabric sk_edges]. apply elem_of_app. left.
  assert (0 <= w / gpus < leaves * nics) as Hn by (split; [apply Z.div_pos | apply Z.div_lt_upper_bound]; lia).
  assert (0 <= w / gpus / nics < leaves) as Hl by (split; [apply Z.div_pos | apply Z.div_lt_upper_bound]; lia).
  apply blocks_elem. exists (w / gpus / nics). split; [done |]. unfold rack_edges. apply blocks_elem.
  exists ((w / gpus) mod nics). split; [apply Z.mod_pos_bound; lia |].
  replace (w / gpus / nics * nics + (w / gpus) mod nics) with (w / gpus) by (rewrite (Z.div_mod (w / gpus) nics) at 1; lia).
  unfold nic_edges. apply elem_of_app. left. apply list_elem_of_fmap. exists (w mod gpus). split.
  - unfold gpu_edge. f_equal. f_equal. rewrite (Z.div_mod w gpus) at 1; lia.
  - apply indices_elem, Z.mod_pos_bound. lia.
Qed.

Lemma nic_joined n : 0 <= n < leaves * nics -> joined sk (nic_node n) (switch_node (n / nics)).
Proof.
  intros Hn. left. cbn [fabric sk_edges]. apply elem_of_app. left. apply blocks_elem. exists (n / nics).
  split; [split; [apply Z.div_pos | apply Z.div_lt_upper_bound]; lia |]. unfold rack_edges. apply blocks_elem.
  exists (n mod nics). split; [apply Z.mod_pos_bound; lia |]. unfold nic_edges. apply elem_of_app. right.
  replace (n / nics * nics + n mod nics) with n by (rewrite (Z.div_mod n nics) at 1; lia). by apply list_elem_of_singleton.
Qed.

Lemma leaf_joined l s : 0 <= l < leaves -> leaves <= s < leaves + spines -> joined sk (switch_node l) (switch_node s).
Proof.
  intros Hl Hs. left. cbn [fabric sk_edges]. apply elem_of_app. right. apply blocks_elem. exists l. split; [done |].
  apply list_elem_of_fmap. exists (s - leaves). rewrite indices_elem. split; [| lia]. unfold spine_edge. f_equal. f_equal. lia.
Qed.

(** ** Everything is connected *)

Context g (Hb : built sk g).

Lemma linked_sym a b : linked g a b -> linked g b a.
Proof. rewrite !(linked_joined _ _ Hb). unfold joined, joins. tauto. Qed.

Lemma connected_sym a b : rtc (linked g) a b -> rtc (linked g) b a.
Proof.
  intros Hab. induction Hab as [x | x y z Hxy _ IH]; [done |]. eapply rtc_r; [exact IH | by apply linked_sym].
Qed.

Lemma to_spine n : node_in g n -> rtc (linked g) n (switch_node leaves).
Proof.
  rewrite (node_in_built _ _ Hb). destruct fabric_counts as (C1 & C2 & C3 & _).
  assert (forall l, 0 <= l < leaves -> rtc (linked g) (switch_node l) (switch_node leaves)) as Hleaf.
  { intros l Hl. apply rtc_once, (linked_joined _ _ Hb), leaf_joined; lia. }
  assert (forall m, 0 <= m < leaves * nics -> rtc (linked g) (nic_node m) (switch_node leaves)) as Hnic.
  { intros m Hm. eapply rtc_l; [by apply (linked_joined _ _ Hb), nic_joined |]. apply Hleaf.
    split; [apply Z.div_pos | apply Z.div_lt_upper_bound]; lia. }
  destruct n as [[] v]; cbn [node_kind node_value]; rewrite ?C1, ?C2, ?C3; intros Hv.
  - eapply rtc_l; [by apply (linked_joined _ _ Hb), (gpu_joined v) |]. apply Hnic.
    split; [apply Z.div_pos | apply Z.div_lt_upper_bound]; lia.
  - by apply Hnic.
  - destruct (decide (v < leaves)) as [Hlt | Hge]; [apply Hleaf; lia |].
    eapply rtc_l; [apply linked_sym, (linked_joined _ _ Hb), (leaf_joined 0 v); lia |]. apply Hleaf. lia.
Qed.

Lemma fabric_valid : validate_topology g = Ret (mkValidationReport []).
Proof.
  pose proof (bt_sound _ _ Hb) as Hs. pose proof (validate_topology_run g Hs) as Hr.
  destruct (gpus_ g) as [| first rest] eqn:Hg.
  { pose proof (built_gpus _ _ Hb) as Hc. destruct fabric_counts as (C1 & _). rewrite C1, Hg in Hc.
    assert (0 < leaves * nics * gpus) by (repeat apply Z.mul_pos_pos; done). change (0 = leaves * nics * gpus) in Hc. lia. }
  destruct Hr as (v & Hsc & ->). rewrite filter_none; [done |]. intros n Hn%(nodes_elem g Hs).
  assert (node_in g (gpu_node (gpu_id first))) as Hst by (apply (nodes_elem g Hs); unfold nodes; rewrite Hg; left).
  assert (visited_contains n v = true) as ->; [| done]. apply (searching_done g Hs _ v n Hsc Hst Hn).
  transitivity (switch_node leaves); [by apply to_spine | by apply connected_sym, to_spine].
Qed.

(** ** Switches *)

Lemma switch_kinds i s : switches_ g !! i = Some s -> switch_id s = Z.of_nat i /\
  ((switch_role s = Leaf /\ switch_rack s = Some (Z.of_nat i) /\ Z.of_nat i < leaves) \/
   (switch_role s = Spine /\ switch_rack s = None /\ leaves <= Z.of_nat i < leaves + spines)).
Proof.
  intros Hi. split; [by eapply (proj2 (gv_switches _ (go_vectors _ (proj1 (bt_sound _ _ Hb))))) |].
  pose proof (mo_switches _ (proj2 (bt_sound _ _ Hb)) s (list_elem_of_lookup_2 _ _ _ Hi)) as Hok.
  assert (sk_switches sk !! i = Some (switch_rack s)) as Hk by (by rewrite <- (bt_switches _ _ Hb), list_lookup_fmap, Hi).
  apply fabric_switch in Hk. unfold switch_ok in Hok.
  destruct Hk as [[Hr Hk] | [Hr Hk]]; rewrite Hr in *; destruct (switch_role s); try done; [left | right]; done.
Qed.

Lemma switch_at i : 0 <= i < leaves + spines -> exists s, switches_ g !! Z.to_nat i = Some s.
Proof.
  intros Hi. apply lookup_lt_is_Some_2. pose proof (built_switches _ _ Hb) as Hc. destruct fabric_counts as (_ & _ & C3 & _).
  rewrite C3 in Hc. unfold zlength in Hc. lia.
Qed.

Lemma leaves_tally : amount (fun s => switch_role s = Leaf) (switches_ g) = leaves.
Proof.
  rewrite (amount_ext _ (fun s => is_Some (switch_rack s))).
  - rewrite <- (amount_fmap (fun o => is_Some o) switch_rack), (bt_switches _ _ Hb). cbn [fabric sk_switches].
    rewrite amount_app, !amount_fmap, amount_all, amount_none, indices_length; [lia | lia | by intros x _ [y ?] | done].
  - intros s [i Hi]%list_elem_of_lookup. destruct (switch_kinds i s Hi) as (_ & [(-> & -> & _) | (-> & -> & _)]); [done |].
    split; [done | by intros [? ?]].
Qed.

Lemma spines_tally : amount (fun s => switch_role s <> Leaf) (switches_ g) = spines.
Proof.
  pose proof leaves_tally as Hl. pose proof (built_switches _ _ Hb) as Hc. destruct fabric_counts as (_ & _ & C3 & _).
  rewrite C3 in Hc. revert Hl Hc. unfold amount. generalize (switches_ g). intros l.
  assert (zlength (filter (fun s => switch_role s = Leaf) l) + zlength (filter (fun s => switch_role s <> Leaf) l) = zlength l) as Hs.
  { induction l as [| s l IH]; [done |]. rewrite !filter_cons. destruct (decide (switch_role s = Leaf)) as [He | He].
    - rewrite (decide_False (P := switch_role s <> Leaf)) by tauto. rewrite !zlength_cons. lia.
    - rewrite (decide_True (P := switch_role s <> Leaf)) by tauto. rewrite !zlength_cons. lia. }
  lia.
Qed.

Lemma switch_ports_count i s : switches_ g !! i = Some s ->
  zlength (switch_ports s) = if decide (Z.of_nat i < leaves) then nics + spines else leaves.
Proof.
  intros Hi. rewrite (ports_count _ _ Hb _ _ _ _ _ (mo_switch_ports _ (proj2 (bt_sound _ _ Hb))) Hi).
  destruct (switch_kinds i s Hi) as (_ & [(_ & _ & Hlt) | (_ & _ & Hge)]).
  - rewrite decide_True by done. apply leaf_ports_tally; done || lia.
  - rewrite decide_False by lia. by apply spine_ports_tally.
Qed.

(** ** Racks and NICs *)

Lemma nic_rack_at i k : nics_ g !! i = Some k -> nic_rack k = Z.of_nat i / nics /\ Z.of_nat i < leaves * nics.
Proof.
  intros Hi. assert (sk_nics sk !! i = Some (nic_rack k)) as Hk by (by rewrite <- (bt_nics _ _ Hb), list_lookup_fmap, Hi).
  rewrite fabric_nics, list_lookup_fmap in Hk. apply fmap_Some in Hk as (x & [-> Hx]%indices_lookup & ->). done.
Qed.

Lemma rack_leaf i r : racks_ g !! i = Some r -> Z.of_nat i < leaves -> rack_leaf_switches r = [Z.of_nat i].
Proof.
  intros Hr Hi. pose proof (proj2 (bt_sound _ _ Hb)) as Hm. pose proof (rack_switches_count _ _ Hb i r Hr) as Hc.
  rewrite rack_switch_tally in Hc by lia.
  assert (forall x, x ∈ rack_leaf_switches r -> x = Z.of_nat i) as Hall.
  { intros x Hx. eapply (members_elem _ _ i) in Hx; [| apply (mo_rack_switches _ Hm) | by rewrite list_lookup_fmap, Hr].
    apply list_elem_of_fmap in Hx as (s & Hx & [j Hj]%list_elem_of_lookup). injection Hx as -> Hrack.
    destruct (switch_kinds j s Hj) as (-> & [(_ & Hj' & _) | (_ & Hj' & _)]); congruence. }
  destruct (rack_leaf_switches r) as [| x [| y l]]; unfold zlength in Hc; cbn [length] in Hc; try lia.
  f_equal. apply Hall. left.
Qed.

Lemma rack_nic_at i r n : racks_ g !! i = Some r -> n ∈ rack_nics r ->
  exists k, find_nic n g = Some k /\ n / nics = Z.of_nat i /\ 0 <= n < leaves * nics /\ zlength (nic_attached_gpus k) = gpus.
Proof.
  intros Hr Hn. pose proof (bt_sound _ _ Hb) as [Hok Hm].
  eapply (members_elem _ _ i) in Hn; [| apply (mo_rack_nics _ Hm) | by rewrite list_lookup_fmap, Hr].
  apply list_elem_of_fmap in Hn as (k & [= -> Hrack] & [j Hj]%list_elem_of_lookup).
  pose proof (gv_nics _ (go_vectors _ Hok)) as Hd. pose proof (proj2 Hd _ _ Hj) as ->. exists k.
  destruct (nic_rack_at j k Hj) as [Hk Hlt]. split; [| split; [congruence | split; [lia |]]].
  - apply find_dense_Some; [done |]. split; [lia |]. by rewrite Nat2Z.id.
  - rewrite (nic_gpus_count _ _ Hb j k Hj). apply nic_gpus_tally; done || lia.
Qed.

(** ** The shape *)

Definition fabric_dimensions : ClosDimensions :=
  mkClosDimensions (leaves * nics * gpus) (leaves * nics) leaves spines leaves (leaves + spines)
    (2 * (leaves * nics * gpus + leaves * nics + leaves * spines))
    (leaves * nics * gpus + leaves * nics + leaves * spines).

Definition fabric_config : ClosConfig := mkClosConfig (leaves * nics * gpus) gpus nics spines.

Context (Hroom : 2 * (leaves * nics * gpus + leaves * nics + leaves * spines) <= u64_max).

Lemma find_switch_at i s : switches_ g !! i = Some s -> find_switch (Z.of_nat i) g = Some s.
Proof.
  intros Hi. apply find_dense_Some; [apply (go_vectors _ (proj1 (bt_sound _ _ Hb))) |]. rewrite Nat2Z.id. split; [lia | done].
Qed.

Lemma nodes_known n : node_in g n -> contains n g = true.
Proof. apply (contains_built _ _ Hb). Qed.

Lemma rack_matches i r ids : racks_ g !! i = Some r -> (forall x, x ∈ ids -> leaves <= x < leaves + spines) ->
  rack_matches_clos g fabric_config ids r = Ret true.
Proof.
  intros Hr Hids. destruct fabric_counts as (C1 & C2 & C3 & _).
  assert (Z.of_nat i < leaves) as Hi.
  { pose proof (bt_racks _ _ Hb) as Hc. cbn [fabric sk_racks] in Hc. apply lookup_lt_Some in Hr. unfold zlength in Hc. lia. }
  assert (forall m, 0 <= m < leaves + spines -> contains (switch_node m) g = true) as Hsw.
  { intros m Hm. apply nodes_known, (node_in_built _ _ Hb). cbn [node_kind node_value switch_node]. lia. }
  unfold rack_matches_clos. rewrite (rack_leaf i r Hr Hi). cbn [fabric_config cc_nics_per_leaf cc_gpus_per_nic cc_spine_count].
  rewrite (rack_nics_count _ _ Hb i r Hr), rack_nics_tally, Z.eqb_refl by lia.
  rewrite (rack_gpus_count _ _ Hb i r (fun n => n / nics)), rack_gpus_tally by (done || lia || (intros n k Hk; by apply nic_rack_at)).
  assert (u64_wrap (nics * gpus) = nics * gpus) as -> by (apply u64_wrap_id; split; nia). rewrite Z.eqb_refl. cbn [negb orb].
  destruct (switch_at (Z.of_nat i)) as [s Hs]; [lia |]. rewrite Nat2Z.id in Hs. rewrite (find_switch_at i s Hs).
  rewrite (switch_ports_count i s Hs), decide_True by done.
  assert (u64_wrap (nics + spines) = nics + spines) as -> by (apply u64_wrap_id; split; nia). rewrite Z.eqb_refl. cbn [negb].
  rewrite all_of_true.
  - apply all_of_true. intros x Hx. apply (joined_connected _ _ Hb); [apply Hsw; lia |]. apply leaf_joined; [lia | by apply Hids].
  - intros n Hn. destruct (rack_nic_at i r n Hr Hn) as (k & -> & Hq & Hlt & ->). rewrite Z.eqb_refl. cbn [negb].
    apply (joined_connected _ _ Hb).
    + apply nodes_known, (node_in_built _ _ Hb). cbn [node_kind node_value nic_node]. lia.
    + rewrite <- Hq. by apply nic_joined.
Qed.

Lemma built_counts :
  zlength (gpus_ g) = leaves * nics * gpus /\ zlength (nics_ g) = leaves * nics /\ zlength (racks_ g) = leaves /\
  zlength (switches_ g) = leaves + spines /\
  zlength (links_ g) = leaves * nics * gpus + leaves * nics + leaves * spines /\
  zlength (ports_ g) = 2 * (leaves * nics * gpus + leaves * nics + leaves * spines).
Proof.
  destruct fabric_counts as (C1 & C2 & C3 & C4).
  rewrite (built_gpus _ _ Hb), (built_nics _ _ Hb), (built_switches _ _ Hb), (built_links _ _ Hb), (built_ports _ _ Hb), (bt_racks _ _ Hb).
  rewrite C1, C2, C3, C4. split_and!; done || lia.
Qed.

Lemma fabric_matches : matches_clos_shape g fabric_config fabric_dimensions = Ret true.
Proof.
  unfold matches_clos_shape. destruct built_counts as (-> & -> & -> & -> & -> & ->).
  cbn [fabric_dimensions cd_gpu_count cd_nic_count cd_rack_count cd_switch_count cd_port_count cd_link_count cd_leaf_count cd_spine_count].
  rewrite !zlength_fmap. fold (amount (fun s => switch_role s = Leaf) (switches_ g)). fold (amount (fun s => switch_role s <> Leaf) (switches_ g)).
  rewrite leaves_tally, spines_tally, !Z.eqb_refl. cbn [negb orb].
  assert (forall x, x ∈ switch_id <$> filter (fun s => switch_role s <> Leaf) (switches_ g) ->
    leaves <= x < leaves + spines /\ exists s, switches_ g !! Z.to_nat x = Some s) as Hids.
  { intros x (s & -> & [Hs [i Hi]%list_elem_of_lookup]%list_elem_of_filter)%list_elem_of_fmap.
    destruct (switch_kinds i s Hi) as (-> & [(? & _) | (_ & _ & Hx)]); [done |]. split; [done |]. exists s. by rewrite Nat2Z.id. }
  rewrite (proj2 (forallb_forall _ _)).
  - cbn [negb]. apply all_of_true. intros r [i Hi]%list_elem_of_lookup. apply (rack_matches i); [done |]. intros x Hx. by apply Hids.
  - intros x Hx%list_elem_of_In. destruct (Hids x Hx) as (Hx' & s & Hs).
    assert (x = Z.of_nat (Z.to_nat x)) as -> by lia. rewrite (find_switch_at _ s Hs), (switch_ports_count _ s Hs), decide_False by lia.
    apply Z.eqb_refl.
Qed.
End Fabric.
