(* ===== verification/FamiliesTheorems.v ===== *)
(** * Theorems on generated topologies

    The guards of the generators in terms of integers without a width, and what
    the generators return. *)

From S2P Require Import Prelude SimTime Entities TelemetryRecords Topology TopologyLaws TopologyFamilies.
From S2P Require Import TopologyClos TopologyValidation TopologyMembers ValidationLaws FamiliesLaws.
From S2P Require Import FamiliesLoops FamiliesClos.

(** ** Guards *)

Section Guards.
Context {S A : Type}.
Implicit Types (s : S) (k : Z -> M S A).

Lemma add_guard left right : (u64_max - left <? right) = negb (left + right <=? u64_max).
Proof. destruct (Z.ltb_spec (u64_max - left) right), (Z.leb_spec (left + right) u64_max); done || lia. Qed.

Lemma multiply_guard left right : 0 <= left -> 0 <= right ->
  negb (left =? 0) && (u64_max / left <? right) = negb (left * right <=? u64_max).
Proof.
  intros Hl Hr. destruct (Z.eqb_spec left 0) as [-> | Hne]; [done |]. cbn [negb andb].
  destruct (Z.ltb_spec (u64_max / left) right) as [Hlt | Hge], (Z.leb_spec (left * right) u64_max) as [Hle | Hgt]; try done.
  - pose proof (Z.div_le_lower_bound u64_max left right ltac:(lia) Hle). lia.
  - pose proof (Z.mul_div_le u64_max left ltac:(lia)). nia.
Qed.

Lemma run_checked_add left right name k s : 0 <= left -> 0 <= right ->
  bind (TopologyFamilies.checked_add left right name) k s =
  if left + right <=? u64_max then k (left + right) s else (s, Throw (overflow_error (name +:+ " entity count overflow"))).
Proof.
  intros Hl Hr. unfold TopologyFamilies.checked_add. rewrite add_guard.
  destruct (Z.leb_spec (left + right) u64_max); [| done]. cbn [negb]. by rewrite u64_wrap_id by (split; lia).
Qed.

Lemma run_checked_multiply left right name k s : 0 <= left -> 0 <= right ->
  bind (TopologyFamilies.checked_multiply left right name) k s =
  if left * right <=? u64_max then k (left * right) s else (s, Throw (overflow_error (name +:+ " entity count overflow"))).
Proof.
  intros Hl Hr. unfold TopologyFamilies.checked_multiply. rewrite multiply_guard by done.
  destruct (Z.leb_spec (left * right) u64_max); [| done]. cbn [negb]. by rewrite u64_wrap_id by (split; nia).
Qed.
End Guards.

Lemma run_clos_add {A} left right (k : Z -> M unit A) s : 0 <= left -> 0 <= right ->
  bind (TopologyClos.checked_add left right) k s =
  if left + right <=? u64_max then k (left + right) s else (s, Throw (overflow_error "Clos topology entity count overflow")).
Proof. exact (run_checked_add left right "Clos topology" k s). Qed.

Lemma run_clos_multiply {A} left right (k : Z -> M unit A) s : 0 <= left -> 0 <= right ->
  bind (TopologyClos.checked_multiply left right) k s =
  if left * right <=? u64_max then k (left * right) s else (s, Throw (overflow_error "Clos topology entity count overflow")).
Proof. exact (run_checked_multiply left right "Clos topology" k s). Qed.

(** ** Leaf-spine fabrics *)

(** Room for the ports and links of a fabric. *)
Definition fabric_fits (leaves nics gpus spines : Z) : Prop :=
  2 * (leaves * nics * gpus + leaves * nics + leaves * spines) <= u64_max.

Lemma validate_leaf_spine_returns {S} leaves nics gpus spines (s : S) :
  0 < leaves -> 0 < nics -> 0 < gpus -> 0 < spines -> fabric_fits leaves nics gpus spines ->
  validate_leaf_spine_config (mkLeafSpineConfig leaves nics gpus spines) s = (s, Ret tt).
Proof.
  unfold fabric_fits. intros Hl Hn Hg Hs Hf. unfold validate_leaf_spine_config, TopologyFamilies.require_positive.
  cbn [ls_leaf_count ls_nics_per_leaf ls_gpus_per_nic ls_spine_count].
  assert (leaves * nics <= leaves * nics * gpus) by nia. assert (leaves + spines <= leaves * spines + leaves * nics) by nia.
  rewrite !run_throw_if. do 4 rewrite (proj2 (Z.eqb_neq _ 0)) by lia.
  repeat first [rewrite run_checked_multiply by nia | rewrite run_checked_add by nia]; repeat rewrite (proj2 (Z.leb_le _ u64_max)) by lia.
  done.
Qed.

Lemma generate_leaf_spine_returns leaves nics gpus spines :
  0 < leaves -> 0 < nics -> 0 < gpus -> 0 < spines -> fabric_fits leaves nics gpus spines ->
  exists g, generate_leaf_spine (mkLeafSpineConfig leaves nics gpus spines) = Ret g /\ built (fabric leaves nics gpus spines) g.
Proof.
  intros Hl Hn Hg Hs Hf.
  destruct (leaf_spine_builds leaves nics gpus spines Hl Hn Hg ltac:(lia) Hf empty_graph (empty_built nics gpus)) as (g & Hrun & Hb).
  exists g. split; [| done]. unfold generate_leaf_spine, make_graph. unfold bind at 1.
  rewrite validate_leaf_spine_returns by done. cbn [ls_leaf_count ls_nics_per_leaf ls_gpus_per_nic ls_spine_count]. by rewrite Hrun.
Qed.

(** ** The summary of a fabric *)

Lemma local_links_count sk g : built sk g ->
  ranges_count link_kind LocalAttachment (links_ g) = amount (fun e => node_kind (fst e) = NodeKind_Gpu) (sk_edges sk).
Proof.
  intros Hb.
  assert ((fun l => bool_decide (link_kind l = LocalAttachment)) <$> links_ g =
    (fun e => bool_decide (node_kind (fst e) = NodeKind_Gpu)) <$> sk_edges sk) as He.
  { apply list_eq. intros i. rewrite !list_lookup_fmap. destruct (links_ g !! i) as [l |] eqn:Hl.
    - destruct (link_edge _ _ Hb i l Hl) as (a & b & -> & Ha & _). cbn. f_equal. apply bool_decide_ext.
      destruct (mo_pairs _ (proj2 (bt_sound _ _ Hb)) i l Hl) as (H1 & _ & pa & pb & Hpa & _ & Hends).
      unfold owner_of in Ha. rewrite H1, Nat2Z.id, Hpa in Ha. injection Ha as <-. unfold ends_ok in Hends.
      destruct (link_kind l); split; try done; tauto.
    - apply lookup_ge_None in Hl. pose proof (built_links _ _ Hb) as Hc. unfold zlength in Hc.
      by rewrite (lookup_ge_None_2 (sk_edges sk) i) by lia. }
  change (amount (fun l => link_kind l = LocalAttachment) (links_ g) = amount (fun e => node_kind (fst e) = NodeKind_Gpu) (sk_edges sk)).
  transitivity (amount (fun b => b = true) ((fun l => bool_decide (link_kind l = LocalAttachment)) <$> links_ g)).
  - rewrite amount_fmap. apply amount_ext. intros l _. by rewrite bool_decide_eq_true.
  - rewrite He, amount_fmap. apply amount_ext. intros e _. by rewrite bool_decide_eq_true.
Qed.

Lemma nothing_down {A} (state_of : A -> OperationalState) l : Forall (fun x => state_of x = Up) l -> count_down state_of l = 0.
Proof.
  intros Hl. unfold count_down, ranges_count. rewrite filter_none; [done |]. intros x Hx. rewrite Forall_forall in Hl.
  by rewrite (Hl x Hx).
Qed.

Section Summary.
Context (leaves nics gpus spines : Z).
Context (Hleaves : 0 < leaves) (Hnics : 0 < nics) (Hgpus : 0 < gpus) (Hspines : 0 < spines).
Context (Hfits : fabric_fits leaves nics gpus spines).
Context g (Hb : built (fabric leaves nics gpus spines) g).

Lemma local_edges : amount (fun e : NodeId * NodeId => node_kind (fst e) = NodeKind_Gpu)
  (sk_edges (fabric leaves nics gpus spines)) = leaves * nics * gpus.
Proof.
  cbn [fabric sk_edges]. rewrite amount_app, !amount_blocks, (sum_constant _ leaves (nics * gpus)), (sum_constant _ leaves 0); try lia.
  - intros l _. unfold spine_edges. rewrite amount_fmap. by apply amount_none.
  - intros l _. unfold rack_edges. rewrite amount_blocks. apply sum_constant; [lia |]. intros j _. unfold nic_edges.
    rewrite amount_app, amount_fmap, amount_all, indices_length, amount_cons, decide_False, amount_nil by (done || lia). lia.
Qed.

Definition fabric_summary : TopologySummary :=
  mkTopologySummary leaves (leaves * nics * gpus) (leaves * nics) (leaves + spines) leaves spines
    (2 * (leaves * nics * gpus + leaves * nics + leaves * spines)) (leaves * nics * gpus + leaves * nics + leaves * spines)
    (leaves * nics * gpus) (leaves * nics + leaves * spines) 0 0 0.

Lemma fabric_summarized : summarize_topology g = fabric_summary.
Proof.
  unfold fabric_fits in Hfits. destruct (bt_up _ _ Hb) as (U1 & U2 & U3). unfold summarize_topology.
  rewrite (local_links_count _ _ Hb), local_edges, !nothing_down by done.
  assert (ranges_count switch_role Leaf (switches_ g) = leaves) as -> by (by eapply leaves_tally).
  destruct (built_counts leaves nics gpus spines Hleaves Hnics Hgpus Hspines g Hb) as (-> & -> & -> & -> & -> & ->).
  unfold fabric_summary. f_equal; (rewrite u64_wrap_id; [lia | split; nia]).
Qed.
End Summary.

(** ** Clos topologies *)

(** The fields are of type [std::uint64_t]. *)
Definition clos_words (config : ClosConfig) : Prop :=
  u64 (cc_gpu_count config) /\ u64 (cc_gpus_per_nic config) /\ u64 (cc_nics_per_leaf config) /\ u64 (cc_spine_count config).

(** Whole NICs, whole leaves, and few enough ports. *)
Definition clos_admissible (config : ClosConfig) : Prop :=
  exists leaves nics gpus spines, 0 < leaves /\ 0 < nics /\ 0 < gpus /\ 0 < spines /\ fabric_fits leaves nics gpus spines /\
    config = fabric_config leaves nics gpus spines.

Ltac clos_cbn :=
  cbn [fabric_config fabric_dimensions cc_gpu_count cc_gpus_per_nic cc_nics_per_leaf cc_spine_count cd_leaf_count cd_spine_count snd].

Lemma clos_dimensions_returns leaves nics gpus spines :
  0 < leaves -> 0 < nics -> 0 < gpus -> 0 < spines -> fabric_fits leaves nics gpus spines ->
  clos_dimensions (fabric_config leaves nics gpus spines) = Ret (fabric_dimensions leaves nics gpus spines).
Proof.
  unfold fabric_fits. intros Hl Hn Hg Hs Hf. unfold clos_dimensions, TopologyClos.require_positive. clos_cbn.
  assert (leaves * nics <= leaves * nics * gpus) by nia. assert (leaves + spines <= leaves * spines + leaves * nics) by nia.
  assert (0 < leaves * nics * gpus) by nia. rewrite !run_throw_if. do 4 rewrite (proj2 (Z.eqb_neq _ 0)) by lia.
  rewrite Z.mod_mul, Z.div_mul, Z.mod_mul, Z.div_mul by lia. cbn [Z.eqb negb].
  repeat first [rewrite run_clos_multiply by nia | rewrite run_clos_add by nia]; repeat rewrite (proj2 (Z.leb_le _ u64_max)) by lia.
  cbn. unfold fabric_dimensions. do 2 f_equal. lia.
Qed.

Lemma clos_dimensions_admits config d : clos_words config -> clos_dimensions config = Ret d -> clos_admissible config.
Proof.
  destruct config as [total gpus nics spines]. unfold clos_words, u64. clos_cbn. intros (W1 & W2 & W3 & W4).
  unfold clos_dimensions, TopologyClos.require_positive. clos_cbn. rewrite !run_throw_if.
  destruct (Z.eqb_spec total 0) as [? | N1]; [done |]. destruct (Z.eqb_spec gpus 0) as [? | N2]; [done |].
  destruct (Z.eqb_spec nics 0) as [? | N3]; [done |]. destruct (Z.eqb_spec spines 0) as [? | N4]; [done |].
  destruct (Z.eqb_spec (total mod gpus) 0) as [D1 | ?]; [cbn [negb] | done].
  destruct (Z.eqb_spec (total / gpus mod nics) 0) as [D2 | ?]; [cbn [negb] | done].
  apply Z.div_exact in D1, D2; try lia. set (leaves := total / gpus / nics) in *.
  assert (0 <= leaves) as Hl by (apply Z.div_pos; [apply Z.div_pos |]; lia). clearbody leaves.
  assert (total / gpus = leaves * nics) as Hnic by lia. rewrite Hnic in *.
  assert (total = leaves * nics * gpus) as -> by lia. assert (0 < leaves) by nia.
  rewrite run_clos_multiply by nia. destruct (Z.leb_spec (leaves * spines) u64_max); [| done].
  rewrite run_clos_add by nia. destruct (Z.leb_spec (leaves + spines) u64_max); [| done].
  rewrite run_clos_add by nia. destruct (Z.leb_spec (leaves * nics * gpus + leaves * nics) u64_max); [| done].
  rewrite run_clos_add by nia. destruct (Z.leb_spec (leaves * nics * gpus + leaves * nics + leaves * spines) u64_max); [| done].
  rewrite run_clos_multiply by nia.
  destruct (Z.leb_spec ((leaves * nics * gpus + leaves * nics + leaves * spines) * 2) u64_max); [intros _ | done].
  exists leaves, nics, gpus, spines. unfold fabric_fits. split_and!; done || lia.
Qed.

(** C15: a Clos topology is generated as asked.  A configuration of 64-bit fields is
    refused, with the error of [clos_dimensions] and without building anything,
    exactly when it is not [leaves * nics * gpus] GPUs in whole NICs and leaves with a
    positive number of each, or when the ports would not fit 64 bits.  Otherwise
    generation returns, through the calls of the graph, a topology whose summary
    is that of the fabric (racks, GPUs, NICs, leaves, spines, ports, local and
    fabric links, nothing down), whose dimensions are the predicted ones, and in
    which Clos validation finds no error: every node is connected and every rack
    has one leaf joined to each of its NICs and to every spine. *)
Theorem generate_clos_exact config : clos_words config ->
  match clos_dimensions config with
  | Throw e => ~ clos_admissible config /\ generate_clos config = Throw e
  | Ret d =>
      exists leaves nics gpus spines ops,
        0 < leaves /\ 0 < nics /\ 0 < gpus /\ 0 < spines /\ fabric_fits leaves nics gpus spines /\
        config = fabric_config leaves nics gpus spines /\ d = fabric_dimensions leaves nics gpus spines /\
        generate_clos config = Ret (build ops) /\
        summarize_topology (build ops) = fabric_summary leaves nics gpus spines /\
        validate_clos_topology (build ops) config = Ret (mkValidationReport [])
  end.
Proof.
  intros Hw. destruct (clos_dimensions config) as [d | e] eqn:Hd.
  - destruct (clos_dimensions_admits config d Hw Hd) as (leaves & nics & gpus & spines & Hl & Hn & Hg & Hs & Hf & ->).
    destruct (generate_leaf_spine_returns leaves nics gpus spines Hl Hn Hg Hs Hf) as (g & Hrun & Hb).
    destruct (bt_calls _ _ Hb) as [ops ->]. pose proof Hd as Hd'. rewrite clos_dimensions_returns in Hd' by done. injection Hd' as <-.
    exists leaves, nics, gpus, spines, ops. split_and!; try done.
    + unfold generate_clos. rewrite Hd. exact Hrun.
    + by apply fabric_summarized.
    + unfold validate_clos_topology. rewrite Hd, (fabric_valid leaves nics gpus spines) by done. cbn.
      by rewrite (fabric_matches leaves nics gpus spines).
  - split; [| unfold generate_clos; by rewrite Hd].
    intros (leaves & nics & gpus & spines & Hl & Hn & Hg & Hs & Hf & ->). rewrite clos_dimensions_returns in Hd by done. done.
Qed.

(** Sixteen GPUs in four leaves, and seven, which two-GPU NICs cannot hold. *)
Lemma generate_clos_exact_witness :
  (exists ops, generate_clos (mkClosConfig 16 2 2 2) = Ret (build ops) /\
    summarize_topology (build ops) = fabric_summary 4 2 2 2) /\
  ~ clos_admissible (mkClosConfig 7 2 2 2).
Proof.
  split.
  - pose proof (generate_clos_exact (mkClosConfig 16 2 2 2) ltac:(vm_compute; done)) as H.
    assert (clos_dimensions (mkClosConfig 16 2 2 2) = Ret (fabric_dimensions 4 2 2 2)) as Hd by (vm_compute; done).
    rewrite Hd in H. destruct H as (l & n & w & s & ops & _ & _ & _ & _ & _ & Hc & Hdim & H1 & H2 & _).
    injection Hc as _ <- <- <-. injection Hdim as _ _ <- _ _ _. exists ops. split; [exact H1 | exact H2].
  - pose proof (generate_clos_exact (mkClosConfig 7 2 2 2) ltac:(vm_compute; done)) as H.
    assert (exists e, clos_dimensions (mkClosConfig 7 2 2 2) = Throw e) as [e He] by (eexists; vm_compute; reflexivity).
    rewrite He in H. exact (proj1 H).
Defined.

(** ** Theorems on topology validation *)

(** Links lead from the first GPU to the node. *)
Definition attached (g : TopologyGraph) (n : NodeId) : Prop :=
  exists first, head (gpus_ g) = Some first /\ rtc (linked g) (gpu_node (gpu_id first)) n.

#[local] Instance disconnected_error_inj : Inj (=) (=) disconnected_error.
Proof. by intros n m [=]. Qed.

(** C18: validation finds exactly what is wrong.  Of a topology made by any
    sequence of construction and state-change calls, successful or refused, the
    validator returns a report, it never throws and its search ends; the report
    names every fault once, and the faults are these: no GPU at all, or each node
    that no sequence of links joins to the first GPU.  Dense identifiers, member
    lists, port ownership, ports per link, link kinds and adjacency are never
    reported, since no call can break them. *)
Theorem validation_reports_exactly ops :
  let g := build ops in
  exists report, validate_topology g = Ret report /\ NoDup (vr_errors report) /\
    (forall e, e ∈ vr_errors report <->
       (gpus_ g = [] /\ e = no_gpu_error) \/
       (gpus_ g <> [] /\ exists n, node_in g n /\ ~ attached g n /\ e = disconnected_error n)) /\
    (valid report = true <-> gpus_ g <> [] /\ forall n, node_in g n -> attached g n).
Proof.
  intros g. pose proof (build_sound ops : sound_graph g) as Hs. pose proof (validate_topology_run g Hs) as Hr.
  unfold attached. destruct (gpus_ g) as [| first rest] eqn:Hg.
  - exists (mkValidationReport [no_gpu_error]). split; [done |]. cbn.
    split; [apply NoDup_singleton | split; [| by split; [| intros [? _]]]].
    intros e. rewrite list_elem_of_singleton. split; [by left | by intros [[_ ->] | [? _]]].
  - destruct Hr as (v & Hsc & ->). eexists. split; [done |]. cbn [head].
    assert (node_in g (gpu_node (gpu_id first))) as Hst by (apply (nodes_elem g Hs); unfold nodes; rewrite Hg; left).
    assert (forall n, node_in g n -> visited_contains n v = true <->
      exists f, Some first = Some f /\ rtc (linked g) (gpu_node (gpu_id f)) n) as Hv.
    { intros n Hn. rewrite (searching_done g Hs _ v n Hsc Hst Hn). split; [eauto | by intros (f & [= <-] & ?)]. }
    assert (forall n, n ∈ filter (fun n => visited_contains n v = false) (nodes g) <-> node_in g n /\
      ~ exists f, Some first = Some f /\ rtc (linked g) (gpu_node (gpu_id f)) n) as Hf.
    { intros n. rewrite list_elem_of_filter, (nodes_elem g Hs). split; intros [A B].
      - split; [done |]. rewrite <- Hv by done. congruence.
      - split; [| done]. apply not_true_iff_false. by rewrite Hv. }
    split; [| split].
    + apply NoDup_fmap_2; [apply _ |]. apply NoDup_filter, nodes_NoDup, Hs.
    + intros e. cbn [vr_errors]. rewrite list_elem_of_fmap. setoid_rewrite Hf. split.
      * intros (n & -> & Hn & Ha). right. split; [done | eauto].
      * intros [[? _] | (_ & n & Hn & Ha & ->)]; [done | eauto].
    + unfold valid. cbn [vr_errors]. split.
      * destruct (filter _ (nodes g)) eqn:Hl; [intros _ | done]. split; [done |]. intros n Hn. apply Hv; [done |].
        apply not_false_iff_true. intros Hnv. assert (n ∈ ([] : list NodeId)) as Hin; [| by apply elem_of_nil in Hin].
        rewrite <- Hl, list_elem_of_filter, (nodes_elem g Hs). done.
      * intros [_ Hall]. destruct (filter _ (nodes g)) as [| n l] eqn:Hl; [done |].
        assert (n ∈ n :: l) as Hin by left. apply Hf in Hin as [Hn Ha]. by destruct Ha; apply Hall.
Qed.
