(* ===== verification/Yaml.v ===== *)
(** * The YAML library

    [yaml-cpp] is a library the program only calls.  This file states what the
    program uses of it: the manipulators written to a [YAML::Emitter], the
    operations on a [YAML::Node], and as laws that loading what was emitted gives
    nodes that read as the document that was described.  Documents are built from
    names, numbers, sequences and mappings, as the program writes them. *)

From S2P Require Import Prelude SimTime.

(** ** What is written *)

Inductive YamlToken : Type :=
  | YBeginMap | YEndMap | YBeginSeq | YEndSeq | YKey | YValue | YFlow | YBlock | YNull
  | YText (s : string)
  | YNumber (n : Z).

(** ** What it describes *)

Inductive Document : Type :=
  | DNull
  | DText (s : string)
  | DNumber (n : Z)
  | DSeq (items : list Document)
  | DMap (entries : list (string * Document)).

(** A mapping waits for a key or for the value of a key. *)
Inductive Frame : Type :=
  | FSeq (items : list Document)
  | FMap (entries : list (string * Document)) (key : option string).

(** Open collections, innermost first, and the finished document. *)
Record Writer : Type := mkWriter {
  wr_open : list Frame;
  wr_done : option Document;
}.

Definition put (d : Document) (w : Writer) : option Writer :=
  match wr_open w, wr_done w with
  | [], None => Some (mkWriter [] (Some d))
  | FSeq items :: rest, None => Some (mkWriter (FSeq (items ++ [d]) :: rest) None)
  | FMap entries (Some k) :: rest, None => Some (mkWriter (FMap (entries ++ [(k, d)]) None :: rest) None)
  | _, _ => None
  end.

Definition open_frame (f : Frame) (w : Writer) : Writer := mkWriter (f :: wr_open w) (wr_done w).

Definition write (w : Writer) (t : YamlToken) : option Writer :=
  match t with
  | YFlow | YBlock => Some w
  | YBeginSeq => Some (open_frame (FSeq []) w)
  | YBeginMap => Some (open_frame (FMap [] None) w)
  | YEndSeq => match wr_open w with FSeq items :: rest => put (DSeq items) (mkWriter rest (wr_done w)) | _ => None end
  | YEndMap => match wr_open w with FMap entries None :: rest => put (DMap entries) (mkWriter rest (wr_done w)) | _ => None end
  | YKey => match wr_open w with FMap _ None :: _ => Some w | _ => None end
  | YValue => match wr_open w with FMap _ (Some _) :: _ => Some w | _ => None end
  | YNull => put DNull w
  | YNumber n => put (DNumber n) w
  | YText s =>
      match wr_open w with
      | FMap entries None :: rest => Some (mkWriter (FMap entries (Some s) :: rest) (wr_done w))
      | _ => put (DText s) w
      end
  end.

Fixpoint write_all (ts : list YamlToken) (w : Writer) : option Writer :=
  match ts with
  | [] => Some w
  | t :: ts => match write w t with Some w' => write_all ts w' | None => None end
  end.

(** The document of a complete sequence of manipulators. *)
Definition document_of (ts : list YamlToken) : option Document :=
  match write_all ts (mkWriter [] None) with
  | Some w => if bool_decide (wr_open w = []) then wr_done w else None
  | None => None
  end.

(** Keys occur once; names are lower case words that do not read as a null;
    numbers have 64 bits. *)
Definition name_character (a : Ascii.ascii) : bool :=
  let n := Z.of_nat (Ascii.nat_of_ascii a) in (97 <=? n) && (n <=? 122) || (n =? 95).

Definition plain_name (s : string) : bool :=
  negb (bool_decide (s = ""%string)) && negb (bool_decide (s = "null"%string)) &&
  forallb name_character (String.list_ascii_of_string s).

Fixpoint plain (d : Document) : bool :=
  match d with
  | DNull => true
  | DText s => plain_name s
  | DNumber n => (0 <=? n) && (n <=? u64_max)
  | DSeq items => forallb plain items
  | DMap entries => bool_decide (NoDup (fst <$> entries)) && forallb (fun e => plain_name (fst e) && plain (snd e)) entries
  end.

(** ** The library *)

Class Yaml : Type := {
  yaml_node : Type;
  (** [Emitter::good] and [Emitter::c_str]. *)
  emitter_text : list YamlToken -> option string;
  yaml_load : string -> outcome yaml_node;
  is_map : yaml_node -> bool;
  is_sequence : yaml_node -> bool;
  is_null : yaml_node -> bool;
  is_scalar : yaml_node -> bool;
  (** [Scalar]. *)
  scalar_text : yaml_node -> string;
  (** The first of each pair an iterator over a mapping visits. *)
  node_keys : yaml_node -> list yaml_node;
  (** [operator[]] with a key, when [IsDefined]. *)
  node_field : yaml_node -> string -> option yaml_node;
  (** The elements of a sequence. *)
  node_items : yaml_node -> list yaml_node;
  as_uint64 : yaml_node -> outcome Z;
  as_uint32 : yaml_node -> outcome Z;
  as_string : yaml_node -> outcome string;
}.

Section Reads.
Context `{Yaml}.

Fixpoint reads (d : Document) (n : yaml_node) : Prop :=
  match d with
  | DNull => is_null n = true
  | DText s => as_string n = Ret s
  | DNumber v => is_null n = false /\ as_uint64 n = Ret v /\ (v <= u32_max -> as_uint32 n = Ret v)
  | DSeq ds =>
      is_sequence n = true /\
      (fix each ds ns :=
         match ds, ns with
         | [], [] => True
         | d :: ds, n :: ns => reads d n /\ each ds ns
         | _, _ => False
         end) ds (node_items n)
  | DMap entries =>
      is_map n = true /\
      (fix each entries :=
         match entries with
         | [] => True
         | (k, d) :: entries => (exists m, node_field n k = Some m /\ reads d m) /\ each entries
         end) entries
  end.

Lemma reads_seq ds n : reads (DSeq ds) n <-> is_sequence n = true /\ Forall2 reads ds (node_items n).
Proof.
  cbn [reads]. f_equiv. generalize (node_items n). induction ds as [| d ds IH]; intros [| m ms]; split; try done;
    try (intros Hx; inversion Hx; fail).
  - intros [H1 H2%IH]. by constructor.
  - intros Hx. inversion Hx; subst. split; [done |]. by apply IH.
Qed.

Lemma reads_field entries n k d : reads (DMap entries) n -> (k, d) ∈ entries ->
  is_map n = true /\ exists m, node_field n k = Some m /\ reads d m.
Proof.
  cbn [reads]. intros [Hm He] Hin. split; [done |]. revert He. induction entries as [| [k' d'] entries IH]; [by apply elem_of_nil in Hin |].
  intros [H1 H2]. apply elem_of_cons in Hin as [[= -> ->] | Hin]; [done | by apply IH].
Qed.
End Reads.

Definition newline : string := String (Ascii.ascii_of_nat 10) EmptyString.

(** Loading an emitted document, with the newline the program appends. *)
Class YamlLaws `{Yaml} : Prop := {
  emitted_reads ts d : document_of ts = Some d -> plain d = true ->
    exists text n, emitter_text ts = Some text /\ yaml_load (text +:+ newline) = Ret n /\ reads d n;
}.

(** ** Describing a document *)

Section Writing.
Implicit Types (w : Writer) (ts : list YamlToken).

Lemma write_all_app ts1 ts2 w : write_all (ts1 ++ ts2) w = match write_all ts1 w with Some w' => write_all ts2 w' | None => None end.
Proof. revert w. induction ts1 as [| t ts1 IH]; intros w; [done |]. cbn. destruct (write w t); [apply IH | done]. Qed.

(** The manipulators [ts] put one document. *)
Definition puts ts (d : Document) : Prop :=
  forall frames w', put d (mkWriter frames None) = Some w' -> write_all ts (mkWriter frames None) = Some w'.

(** The manipulators add entries to the innermost mapping. *)
Definition puts_entries ts (entries : list (string * Document)) : Prop :=
  forall es rest, write_all ts (mkWriter (FMap es None :: rest) None) = Some (mkWriter (FMap (es ++ entries) None :: rest) None).

Definition puts_items ts (items : list Document) : Prop :=
  forall ds rest, write_all ts (mkWriter (FSeq ds :: rest) None) = Some (mkWriter (FSeq (ds ++ items) :: rest) None).

Lemma puts_null : puts [YNull] DNull.
Proof. intros frames w' Hw. cbn [write_all write]. by rewrite Hw. Qed.

Lemma puts_number n : puts [YNumber n] (DNumber n).
Proof. intros frames w' Hw. cbn [write_all write]. by rewrite Hw. Qed.

Lemma puts_text s : puts [YText s] (DText s).
Proof.
  intros frames w' Hw. cbn [write_all write wr_open]. destruct frames as [| [items | entries [k |]] rest]; by rewrite ?Hw.
Qed.

Lemma puts_layout ts d : puts ts d -> puts (YBlock :: ts) d /\ puts (YFlow :: ts) d.
Proof. intros Hp. by split; intros frames w' Hw; cbn [write_all write]; apply Hp. Qed.

Lemma puts_map ts entries : puts_entries ts entries -> puts (YBeginMap :: ts ++ [YEndMap]) (DMap entries).
Proof.
  intros Hp frames w' Hw. cbn [write_all write]. unfold open_frame. cbn [wr_open wr_done]. rewrite write_all_app, Hp. cbn [write_all write wr_open wr_done app].
  by rewrite Hw.
Qed.

Lemma puts_seq ts items : puts_items ts items -> puts (YBeginSeq :: ts ++ [YEndSeq]) (DSeq items).
Proof.
  intros Hp frames w' Hw. cbn [write_all write]. unfold open_frame. cbn [wr_open wr_done]. rewrite write_all_app, Hp. cbn [write_all write wr_open wr_done app].
  by rewrite Hw.
Qed.

Lemma puts_item ts d : puts ts d -> puts_items ts [d].
Proof. intros Hp ds rest. by apply Hp. Qed.

Lemma puts_items_concat {A} (f : A -> list YamlToken) (h : A -> Document) l :
  (forall x, puts (f x) (h x)) -> puts_items (concat (f <$> l)) (h <$> l).
Proof.
  intros Hf. induction l as [| x l IH]; intros ds rest; [cbn; by rewrite app_nil_r |]. rewrite !fmap_cons. cbn [concat].
  rewrite write_all_app, (puts_item _ _ (Hf x)), IH. by rewrite <- app_assoc.
Qed.

Lemma puts_entry k ts d : puts ts d -> puts_entries ([YKey; YText k; YValue] ++ ts) [(k, d)].
Proof. intros Hp es rest. rewrite write_all_app. cbn [write_all write wr_open wr_done]. by apply Hp. Qed.

Lemma puts_entries_nil : puts_entries [] [].
Proof. intros es rest. cbn. by rewrite app_nil_r. Qed.

Lemma puts_entries_app ts1 ts2 es1 es2 : puts_entries ts1 es1 -> puts_entries ts2 es2 -> puts_entries (ts1 ++ ts2) (es1 ++ es2).
Proof. intros H1 H2 es rest. by rewrite write_all_app, H1, H2, app_assoc. Qed.

Lemma puts_document ts d : puts ts d -> document_of ts = Some d.
Proof. intros Hp. unfold document_of. by rewrite (Hp [] (mkWriter [] (Some d))). Qed.
End Writing.

(** ** A library that obeys the laws

    The laws of the YAML library can hold: a library whose texts are binary
    numerals of the manipulators, and whose nodes are documents, obeys them. *)

From stdpp Require Import countable list pretty.
#[local] Open Scope Z_scope.

(** ** Texts *)

#[local] Instance YamlToken_eq_dec : EqDecision YamlToken.
Proof. solve_decision. Defined.

Definition token_code (t : YamlToken) : Z + string + Z :=
  match t with
  | YBeginMap => inl (inl 0) | YEndMap => inl (inl 1) | YBeginSeq => inl (inl 2) | YEndSeq => inl (inl 3)
  | YKey => inl (inl 4) | YValue => inl (inl 5) | YFlow => inl (inl 6) | YBlock => inl (inl 7) | YNull => inl (inl 8)
  | YText s => inl (inr s)
  | YNumber n => inr n
  end.

Definition code_token (c : Z + string + Z) : YamlToken :=
  match c with
  | inl (inl 0) => YBeginMap | inl (inl 1) => YEndMap | inl (inl 2) => YBeginSeq | inl (inl 3) => YEndSeq
  | inl (inl 4) => YKey | inl (inl 5) => YValue | inl (inl 6) => YFlow | inl (inl 7) => YBlock | inl (inl _) => YNull
  | inl (inr s) => YText s
  | inr n => YNumber n
  end.

#[local] Instance YamlToken_countable : Countable YamlToken.
Proof. refine (inj_countable' token_code code_token _). by intros []. Defined.

Fixpoint numeral (p : positive) : string :=
  match p with
  | xH => EmptyString
  | xO p => String (Ascii.ascii_of_nat 48) (numeral p)
  | xI p => String (Ascii.ascii_of_nat 49) (numeral p)
  end.

Fixpoint numeral_value (s : string) : positive :=
  match s with
  | EmptyString => xH
  | String a s =>
      if bool_decide (a = Ascii.ascii_of_nat 48) then xO (numeral_value s)
      else if bool_decide (a = Ascii.ascii_of_nat 49) then xI (numeral_value s)
      else xH
  end.

Lemma numeral_read p : numeral_value (numeral p +:+ newline) = p.
Proof.
  induction p as [p IH | p IH |]; [| | done].
  - change (xI (numeral_value (numeral p +:+ newline)) = xI p). by rewrite IH.
  - change (xO (numeral_value (numeral p +:+ newline)) = xO p). by rewrite IH.
Qed.

(** ** The library *)

Fixpoint assoc (entries : list (string * Document)) (k : string) : option Document :=
  match entries with
  | [] => None
  | (k', d) :: rest => if bool_decide (k' = k) then Some d else assoc rest k
  end.

#[export] Instance numeral_yaml : Yaml := {
  yaml_node := Document;
  emitter_text ts := Some (numeral (encode ts));
  yaml_load text :=
    match decode (A := list YamlToken) (numeral_value text) with
    | Some ts => match document_of ts with Some d => Ret d | None => Throw (runtime_error "bad document") end
    | None => Throw (runtime_error "bad text")
    end;
  is_map d := match d with DMap _ => true | _ => false end;
  is_sequence d := match d with DSeq _ => true | _ => false end;
  is_null d := match d with DNull => true | _ => false end;
  is_scalar d := match d with DText _ | DNumber _ => true | _ => false end;
  scalar_text d := match d with DText s => s | DNumber n => pretty n | _ => EmptyString end;
  node_keys d := match d with DMap entries => DText <$> entries.*1 | _ => [] end;
  node_field d k := match d with DMap entries => assoc entries k | _ => None end;
  node_items d := match d with DSeq items => items | _ => [] end;
  as_uint64 d := match d with DNumber n => Ret n | _ => Throw (runtime_error "bad conversion") end;
  as_uint32 d := match d with
                 | DNumber n => if n <=? u32_max then Ret n else Throw (runtime_error "bad conversion")
                 | _ => Throw (runtime_error "bad conversion")
                 end;
  as_string d := match d with DText s => Ret s | _ => Throw (runtime_error "bad conversion") end;
}.

(** Induction on documents. *)
Lemma document_induction (P : Document -> Prop) :
  P DNull -> (forall s, P (DText s)) -> (forall n, P (DNumber n)) ->
  (forall ds, Forall P ds -> P (DSeq ds)) -> (forall es, Forall (fun e => P (snd e)) es -> P (DMap es)) -> forall d, P d.
Proof.
  intros H1 H2 H3 H4 H5. fix IH 1. intros [| s | n | ds | es].
  - exact H1.
  - exact (H2 s).
  - exact (H3 n).
  - apply H4. induction ds as [| d ds IHds]; constructor; [apply IH | exact IHds].
  - apply H5. induction es as [| [k d] es IHes]; constructor; [apply IH | exact IHes].
Qed.

Lemma assoc_in entries k d : NoDup (fst <$> entries) -> (k, d) ∈ entries -> assoc entries k = Some d.
Proof.
  induction entries as [| [k' d'] entries IH]; [by intros _ ?%elem_of_nil |]. rewrite fmap_cons. intros Hnd' Hin. cbn [assoc].
  inversion Hnd' as [| ? ? Hk Hnd]; subst.
  apply elem_of_cons in Hin as [[= -> ->] | Hin]; [by rewrite bool_decide_eq_true_2 |].
  rewrite bool_decide_eq_false_2; [by apply IH |]. intros ->. apply Hk, list_elem_of_fmap. by exists (k, d).
Qed.

Lemma plain_reads d : plain d = true -> reads d (d : yaml_node).
Proof.
  induction d as [| s | n | ds IH | es IH] using document_induction; intros Hp.
  - done.
  - done.
  - split; [done | split; [done |]]. intros Hn. cbn. by rewrite (proj2 (Z.leb_le _ _) Hn).
  - apply reads_seq. split; [done |]. cbn in Hp |- *. induction ds as [| d ds IHds]; constructor.
    + apply andb_true_iff in Hp as [Hd _]. inversion IH; subst. by auto.
    + apply andb_true_iff in Hp as [_ Hd]. inversion IH; subst. by apply IHds.
  - cbn [plain] in Hp. apply andb_true_iff in Hp as [Hnd%bool_decide_eq_true Hall]. cbn [reads]. split; [done |].
    assert (forall e, e ∈ es -> (exists m : yaml_node, node_field (DMap es : yaml_node) (fst e) = Some m /\ reads (snd e) m)) as Hf.
    { intros [k d] He. exists d. split; [by apply assoc_in |]. rewrite Forall_forall in IH. apply (IH (k, d) He).
      pose proof (proj1 (forallb_forall _ _) Hall (k, d) (proj1 (list_elem_of_In _ _) He)) as [_ Hpd]%andb_true_iff. done. }
    clear IH Hall. assert (forall es', (forall e, e ∈ es' -> e ∈ es) ->
      (fix each entries := match entries with
        | [] => True
        | (k, d) :: entries => (exists m : yaml_node, node_field (DMap es : yaml_node) k = Some m /\ reads d m) /\ each entries end) es') as Hgen.
    { induction es' as [| [k d] es' IHes]; intros Hsub; [done |]. split; [apply (Hf (k, d)), Hsub; left | apply IHes; intros e He; apply Hsub; by right]. }
    by apply Hgen.
Qed.

#[export] Instance numeral_yaml_laws : @YamlLaws numeral_yaml.
Proof.
  split. intros ts d Hd Hp. exists (numeral (encode ts)), d. split; [done | split].
  - cbn. by rewrite numeral_read, decode_encode, Hd.
  - by apply plain_reads.
Qed.
