(* ===== verification/TopologyExport.v ===== *)
(** * Exporting a topology

    Models [topology/export.{hpp,cpp}]: the canonical YAML document of a valid
    topology, as manipulators for the emitter, and its drawing in the DOT
    language. *)

From S2P Require Import Prelude SimTime Entities TelemetryRecords Topology.
From S2P Require Import TopologyFamilies TopologyClos TopologyValidation Yaml.
From stdpp Require Import pretty.
#[local] Open Scope Z_scope.

Definition topology_yaml_schema_version : Z := 1.

Definition node_kind_name (kind : NodeKind) : string :=
  match kind with NodeKind_Gpu => "gpu" | NodeKind_Nic => "nic" | NodeKind_Switch => "switch" end.

Definition switch_role_name (role : SwitchRole) : string :=
  match role with Leaf => "leaf" | Spine => "spine" end.

Definition port_role_name (role : PortRole) : string :=
  match role with Local => "local" | FabricDownlink => "fabric_downlink" | FabricUplink => "fabric_uplink" end.

Definition link_kind_name (kind : LinkKind) : string :=
  match kind with LocalAttachment => "local_attachment" | Fabric => "fabric" end.

Definition operational_state_name (state : OperationalState) : string :=
  match state with Up => "up" | Down => "down" end.

(** An invalid report has a first error. *)
Definition require_valid_topology (g : TopologyGraph) : outcome unit :=
  match validate_topology g with
  | Throw e => Throw e
  | Ret report =>
      match vr_errors report with
      | [] => Ret tt
      | first :: _ => Throw (invalid_argument ("cannot export invalid topology: " +:+ ve_message first))
      end
  end.

(** ** YAML *)

Definition entry (key : string) (value : list YamlToken) : list YamlToken := [YKey; YText key; YValue] ++ value.

Definition emit_id_sequence (ids : list Z) : list YamlToken :=
  YFlow :: YBeginSeq :: (concat ((fun id => [YNumber id]) <$> ids) ++ [YEndSeq]).

(** A key with a block sequence of mappings. *)
Definition emit_entities {A} (key : string) (emit : A -> list YamlToken) (entities : list A) : list YamlToken :=
  entry key (YBlock :: YBeginSeq ::
    (concat ((fun e => YBeginMap :: (emit e ++ [YEndMap])) <$> entities) ++ [YEndSeq])).

Definition emit_racks (g : TopologyGraph) : list YamlToken :=
  emit_entities "racks" (fun rack =>
    entry "id" [YNumber (rack_id rack)] ++
    entry "gpus" (emit_id_sequence (rack_gpus rack)) ++
    entry "nics" (emit_id_sequence (rack_nics rack)) ++
    entry "leaf_switches" (emit_id_sequence (rack_leaf_switches rack))) (racks_ g).

Definition emit_gpus (g : TopologyGraph) : list YamlToken :=
  emit_entities "gpus" (fun gpu =>
    entry "id" [YNumber (gpu_id gpu)] ++
    entry "rack" [YNumber (gpu_rack gpu)] ++
    entry "attached_nic" [YNumber (gpu_attached_nic gpu)] ++
    entry "port" [YNumber (gpu_port gpu)]) (gpus_ g).

Definition emit_nics (g : TopologyGraph) : list YamlToken :=
  emit_entities "nics" (fun nic =>
    entry "id" [YNumber (nic_id nic)] ++
    entry "rack" [YNumber (nic_rack nic)] ++
    entry "attached_gpus" (emit_id_sequence (nic_attached_gpus nic)) ++
    entry "ports" (emit_id_sequence (nic_ports nic))) (nics_ g).

Definition emit_switches (g : TopologyGraph) : list YamlToken :=
  emit_entities "switches" (fun switch_entity =>
    entry "id" [YNumber (switch_id switch_entity)] ++
    entry "rack" [match switch_rack switch_entity with Some rack => YNumber rack | None => YNull end] ++
    entry "role" [YText (switch_role_name (switch_role switch_entity))] ++
    entry "state" [YText (operational_state_name (switch_state switch_entity))] ++
    entry "ports" (emit_id_sequence (switch_ports switch_entity))) (switches_ g).

Definition emit_ports (g : TopologyGraph) : list YamlToken :=
  emit_entities "ports" (fun port =>
    entry "id" [YNumber (port_id port)] ++
    entry "owner" (YBeginMap ::
      ((entry "kind" [YText (node_kind_name (node_kind (port_owner port)))] ++
        entry "id" [YNumber (node_value (port_owner port))]) ++ [YEndMap])) ++
    entry "role" [YText (port_role_name (port_role port))] ++
    entry "state" [YText (operational_state_name (port_state port))]) (ports_ g).

Definition emit_links (g : TopologyGraph) : list YamlToken :=
  emit_entities "links" (fun link =>
    entry "id" [YNumber (link_id link)] ++
    entry "endpoint_a" [YNumber (link_endpoint_a link)] ++
    entry "endpoint_b" [YNumber (link_endpoint_b link)] ++
    entry "kind" [YText (link_kind_name (link_kind link))] ++
    entry "state" [YText (operational_state_name (link_state link))]) (links_ g).

(** Everything written to the emitter. *)
Definition topology_tokens (g : TopologyGraph) : list YamlToken :=
  YBeginMap ::
  ((entry "schema_version" [YNumber topology_yaml_schema_version] ++
    emit_racks g ++ emit_gpus g ++ emit_nics g ++ emit_switches g ++ emit_ports g ++ emit_links g) ++ [YEndMap]).

Definition serialize_topology_yaml `{Yaml} (g : TopologyGraph) : outcome string :=
  match require_valid_topology g with
  | Throw e => Throw e
  | Ret _ =>
      match emitter_text (topology_tokens g) with
      | None => Throw (runtime_error "failed to serialize topology YAML")
      | Some text => Ret (text +:+ newline)
      end
  end.

(** ** DOT *)

Definition quote : string := String (Ascii.ascii_of_nat 34) EmptyString.

Definition quoted (s : string) : string := quote +:+ s +:+ quote.

Definition dot_node_name (node : NodeId) : string := node_kind_name (node_kind node) +:+ "_" +:+ pretty (node_value node).

Definition emit_gpu_dot (gpu : GpuWorker) : string :=
  "        " +:+ dot_node_name (gpu_node (gpu_id gpu)) +:+ " [label=" +:+ quoted ("GPU " +:+ pretty (gpu_id gpu)) +:+
  ", shape=box];" +:+ newline.

Definition emit_nic_dot (nic : Nic) : string :=
  "        " +:+ dot_node_name (nic_node (nic_id nic)) +:+ " [label=" +:+ quoted ("NIC " +:+ pretty (nic_id nic)) +:+
  ", shape=ellipse];" +:+ newline.

Definition emit_switch_dot (switch_entity : Switch) (indentation : string) : string :=
  indentation +:+ dot_node_name (switch_node (switch_id switch_entity)) +:+ " [label=" +:+
  quoted ((if bool_decide (switch_role switch_entity = Leaf) then "Leaf " else "Spine ") +:+ pretty (switch_id switch_entity)) +:+
  ", shape=" +:+ (if bool_decide (switch_role switch_entity = Leaf) then "diamond" else "hexagon") +:+
  (if bool_decide (switch_state switch_entity = Down) then ", color=" +:+ quoted "#d62728" +:+ ", penwidth=2" else "") +:+
  "];" +:+ newline.

(** The pointer returned by [find] is dereferenced without a test. *)
Definition dereference {A} (p : option A) (emit : A -> string) : outcome string :=
  match p with
  | Some x => Ret (emit x)
  | None => Throw (logic_error "null dereference")
  end.

(** Text appended to the stream until an exception. *)
Fixpoint stream_all {A} (emit : A -> outcome string) (l : list A) : outcome string :=
  match l with
  | [] => Ret EmptyString
  | x :: rest =>
      match emit x, stream_all emit rest with
      | Ret s, Ret t => Ret (s +:+ t)
      | Throw e, _ => Throw e
      | _, Throw e => Throw e
      end
  end.

Definition join (a b : outcome string) : outcome string :=
  match a, b with
  | Ret s, Ret t => Ret (s +:+ t)
  | Throw e, _ => Throw e
  | _, Throw e => Throw e
  end.

Definition emit_rack_dot (g : TopologyGraph) (rack : Rack) : outcome string :=
  join (Ret ("    subgraph cluster_rack_" +:+ pretty (rack_id rack) +:+ " {" +:+ newline +:+
             "        label=" +:+ quoted ("Rack " +:+ pretty (rack_id rack)) +:+ ";" +:+ newline +:+
             "        color=" +:+ quoted "#b0b0b0" +:+ ";" +:+ newline)%string)
  (join (stream_all (fun id => dereference (find_gpu id g) emit_gpu_dot) (rack_gpus rack))
  (join (stream_all (fun id => dereference (find_nic id g) emit_nic_dot) (rack_nics rack))
  (join (stream_all (fun id => dereference (find_switch id g) (fun s => emit_switch_dot s "        ")) (rack_leaf_switches rack))
        (Ret ("    }" +:+ newline))))).

Definition emit_link_dot (g : TopologyGraph) (link : PhysicalLink) : outcome string :=
  match find_port (link_endpoint_a link) g, find_port (link_endpoint_b link) g with
  | Some endpoint_a, Some endpoint_b =>
      let '(forward, backward) := directed_links link in
      let operational := is_operational forward g && is_operational backward g in
      Ret ("    " +:+ dot_node_name (port_owner endpoint_a) +:+ " -- " +:+ dot_node_name (port_owner endpoint_b) +:+
           " [label=" +:+ quoted ("Link " +:+ pretty (link_id link) +:+ ": " +:+ link_kind_name (link_kind link)) +:+
           (if operational then "" else ", style=dashed, color=" +:+ quoted "#d62728") +:+ "];" +:+ newline)
  | _, _ => Throw (logic_error "validated topology link has an unknown endpoint")
  end.

Definition export_topology_dot (g : TopologyGraph) : outcome string :=
  match require_valid_topology g with
  | Throw e => Throw e
  | Ret _ =>
      join (Ret ("graph NexusLabTopology {" +:+ newline +:+
                 "    graph [rankdir=TB];" +:+ newline +:+
                 "    node [fontname=" +:+ quoted "Helvetica" +:+ "];" +:+ newline +:+
                 "    edge [fontname=" +:+ quoted "Helvetica" +:+ "];" +:+ newline))
      (join (stream_all (emit_rack_dot g) (racks_ g))
      (join (Ret (String.concat "" ((fun s => emit_switch_dot s "    ") <$> filter (fun s => switch_role s = Spine) (switches_ g))))
      (join (stream_all (emit_link_dot g) (links_ g))
            (Ret ("}" +:+ newline)))))
  end.
