(* ===== verification/TopologyImport.v ===== *)
(** * Importing a topology

    Models [topology/import.cpp]: the reading of a canonical YAML document and
    the reconstruction of the graph through its construction calls.  [S] is the
    state of the caller, which reading leaves alone. *)

From S2P Require Import Prelude SimTime Entities TelemetryRecords Topology.
From S2P Require Import TopologyFamilies TopologyClos TopologyValidation Yaml TopologyExport.
From stdpp Require Import pretty.
#[local] Open Scope Z_scope.

Record ParsedTopology : Type := mkParsedTopology {
  pt_racks : list Rack;
  pt_gpus : list GpuWorker;
  pt_nics : list Nic;
  pt_switches : list Switch;
  pt_ports : list Port;
  pt_links : list PhysicalLink;
}.

(** The defaulted [operator==]. *)
#[global] Instance Rack_eq_dec : EqDecision Rack.
Proof. solve_decision. Defined.

#[global] Instance GpuWorker_eq_dec : EqDecision GpuWorker.
Proof. solve_decision. Defined.

#[global] Instance Nic_eq_dec : EqDecision Nic.
Proof. solve_decision. Defined.

#[global] Instance Switch_eq_dec : EqDecision Switch.
Proof. solve_decision. Defined.

#[global] Instance Port_eq_dec : EqDecision Port.
Proof. solve_decision. Defined.

#[global] Instance PhysicalLink_eq_dec : EqDecision PhysicalLink.
Proof. solve_decision. Defined.

Definition fail {S A} (message : string) : M S A := throw (TopologyYamlError ("invalid topology YAML: " +:+ message)).

(** ** Reading *)

Section Reading.
Context `{Yaml} {S : Type}.

Definition require_field (map : yaml_node) (field : string) : M S yaml_node :=
  if negb (is_map map) then fail ("expected a mapping while reading field '" +:+ field +:+ "'") else
  match node_field map field with
  | None => fail ("missing required field '" +:+ field +:+ "'")
  | Some value => ret value
  end.

Definition require_sequence (root : yaml_node) (field : string) : M S yaml_node :=
  let! sequence := require_field root field in
  if negb (is_sequence sequence) then fail ("field '" +:+ field +:+ "' must be a sequence") else ret sequence.

Definition parse_id (node : yaml_node) : M S Z := of_outcome (as_uint64 node).

Definition parse_dense_id (map : yaml_node) (expected : Z) (entity_kind : string) : M S Z :=
  let! node := require_field map "id" in
  let! id := parse_id node in
  if negb (id =? expected) then fail (entity_kind +:+ " IDs must be dense, ordered, and zero-based") else ret id.

Definition parse_id_sequence (map : yaml_node) (field : string) : M S (list Z) :=
  let! sequence := require_field map field in
  if negb (is_sequence sequence) then fail ("field '" +:+ field +:+ "' must be a sequence") else
  collect (node_items sequence) parse_id.

(** A name looked up in a table. *)
Definition parse_switch_role (node : yaml_node) : M S SwitchRole :=
  let! value := of_outcome (as_string node) in
  if bool_decide (value = "leaf"%string) then ret Leaf else
  if bool_decide (value = "spine"%string) then ret Spine else
  fail ("unknown switch role '" +:+ value +:+ "'").

Definition parse_port_role (node : yaml_node) : M S PortRole :=
  let! value := of_outcome (as_string node) in
  if bool_decide (value = "local"%string) then ret Local else
  if bool_decide (value = "fabric_downlink"%string) then ret FabricDownlink else
  if bool_decide (value = "fabric_uplink"%string) then ret FabricUplink else
  fail ("unknown port role '" +:+ value +:+ "'").

Definition parse_link_kind (node : yaml_node) : M S LinkKind :=
  let! value := of_outcome (as_string node) in
  if bool_decide (value = "local_attachment"%string) then ret LocalAttachment else
  if bool_decide (value = "fabric"%string) then ret Fabric else
  fail ("unknown link kind '" +:+ value +:+ "'").

Definition parse_operational_state (node : yaml_node) : M S OperationalState :=
  let! value := of_outcome (as_string node) in
  if bool_decide (value = "up"%string) then ret Up else
  if bool_decide (value = "down"%string) then ret Down else
  fail ("unknown operational state '" +:+ value +:+ "'").

Definition parse_node_id (node : yaml_node) : M S NodeId :=
  let! kind_node := require_field node "kind" in
  let! kind := of_outcome (as_string kind_node) in
  let! id_node := require_field node "id" in
  let! id := parse_id id_node in
  if bool_decide (kind = "gpu"%string) then ret (gpu_node id) else
  if bool_decide (kind = "nic"%string) then ret (nic_node id) else
  if bool_decide (kind = "switch"%string) then ret (switch_node id) else
  fail ("unknown node kind '" +:+ kind +:+ "'").

(** [for (index = 0; index < sequence.size(); ++index)] over the items. *)
Fixpoint parse_items {A} (parse : Z -> yaml_node -> M S A) (index : Z) (items : list yaml_node) : M S (list A) :=
  match items with
  | [] => ret []
  | item :: rest =>
      let! x := parse index item in
      let! xs := parse_items parse (index + 1) rest in
      ret (x :: xs)
  end.

Definition field_id (item : yaml_node) (field : string) : M S Z :=
  let! node := require_field item field in parse_id node.

Definition parse_rack (index : Z) (item : yaml_node) : M S Rack :=
  let! id := parse_dense_id item index "rack" in
  let! gpus := parse_id_sequence item "gpus" in
  let! nics := parse_id_sequence item "nics" in
  let! leaf_switches := parse_id_sequence item "leaf_switches" in
  ret (mkRack id gpus nics leaf_switches).

Definition parse_racks (root : yaml_node) : M S (list Rack) :=
  let! sequence := require_sequence root "racks" in parse_items parse_rack 0 (node_items sequence).

Definition parse_gpu (index : Z) (item : yaml_node) : M S GpuWorker :=
  let! id := parse_dense_id item index "GPU" in
  let! rack := field_id item "rack" in
  let! attached_nic := field_id item "attached_nic" in
  let! port := field_id item "port" in
  ret (mkGpuWorker id rack attached_nic port).

Definition parse_gpus (root : yaml_node) : M S (list GpuWorker) :=
  let! sequence := require_sequence root "gpus" in parse_items parse_gpu 0 (node_items sequence).

Definition parse_nic (index : Z) (item : yaml_node) : M S Nic :=
  let! id := parse_dense_id item index "NIC" in
  let! rack := field_id item "rack" in
  let! attached_gpus := parse_id_sequence item "attached_gpus" in
  let! ports := parse_id_sequence item "ports" in
  ret (mkNic id rack attached_gpus ports).

Definition parse_nics (root : yaml_node) : M S (list Nic) :=
  let! sequence := require_sequence root "nics" in parse_items parse_nic 0 (node_items sequence).

Definition parse_optional_rack (item : yaml_node) : M S (option RackId) :=
  let! rack := require_field item "rack" in
  if is_null rack then ret None else let! id := parse_id rack in ret (Some id).

Definition parse_switch (index : Z) (item : yaml_node) : M S Switch :=
  let! id := parse_dense_id item index "switch" in
  let! rack := parse_optional_rack item in
  let! role_node := require_field item "role" in
  let! role := parse_switch_role role_node in
  let! ports := parse_id_sequence item "ports" in
  let! state_node := require_field item "state" in
  let! state := parse_operational_state state_node in
  ret (mkSwitch id rack role ports state).

Definition parse_switches (root : yaml_node) : M S (list Switch) :=
  let! sequence := require_sequence root "switches" in parse_items parse_switch 0 (node_items sequence).

Definition parse_port (index : Z) (item : yaml_node) : M S Port :=
  let! id := parse_dense_id item index "port" in
  let! owner_node := require_field item "owner" in
  let! owner := parse_node_id owner_node in
  let! role_node := require_field item "role" in
  let! role := parse_port_role role_node in
  let! state_node := require_field item "state" in
  let! state := parse_operational_state state_node in
  ret (mkPort id owner role state).

Definition parse_ports (root : yaml_node) : M S (list Port) :=
  let! sequence := require_sequence root "ports" in parse_items parse_port 0 (node_items sequence).

Definition parse_link (index : Z) (item : yaml_node) : M S PhysicalLink :=
  let! id := parse_dense_id item index "link" in
  let! endpoint_a := field_id item "endpoint_a" in
  let! endpoint_b := field_id item "endpoint_b" in
  let! kind_node := require_field item "kind" in
  let! kind := parse_link_kind kind_node in
  let! state_node := require_field item "state" in
  let! state := parse_operational_state state_node in
  ret (mkPhysicalLink id endpoint_a endpoint_b kind state).

Definition parse_links (root : yaml_node) : M S (list PhysicalLink) :=
  let! sequence := require_sequence root "links" in parse_items parse_link 0 (node_items sequence).

Definition parse_document (yaml : string) : M S ParsedTopology :=
  let! root := of_outcome (yaml_load yaml) in
  if negb (is_map root) then fail "document root must be a mapping" else
  let! version_node := require_field root "schema_version" in
  let! version := of_outcome (as_uint32 version_node) in
  if negb (version =? topology_yaml_schema_version) then fail ("unsupported schema_version " +:+ pretty version) else
  let! racks := parse_racks root in
  let! gpus := parse_gpus root in
  let! nics := parse_nics root in
  let! switches := parse_switches root in
  let! ports := parse_ports root in
  let! links := parse_links root in
  ret (mkParsedTopology racks gpus nics switches ports links).
End Reading.

(** ** Reconstruction *)

Definition require_generated_id (actual expected : Z) (entity_kind : string) : GraphM unit :=
  if negb (actual =? expected) then fail ("non-canonical " +:+ entity_kind +:+ " construction order") else ret tt.

Definition parsed_port (parsed : ParsedTopology) (id : PortId) : GraphM Port :=
  match pt_ports parsed !! Z.to_nat id with
  | None => fail "link references an unknown port"
  | Some port => ret port
  end.

Definition parsed_gpu (parsed : ParsedTopology) (node : NodeId) : GraphM GpuWorker :=
  if bool_decide (node_kind node <> NodeKind_Gpu) then fail "local attachment must reference a known GPU" else
  match pt_gpus parsed !! Z.to_nat (node_value node) with
  | None => fail "local attachment must reference a known GPU"
  | Some gpu => ret gpu
  end.

Definition create_racks_nics_and_switches (parsed : ParsedTopology) : GraphM unit :=
  do! for_each (pt_racks parsed) (fun rack =>
        let! id := add_rack in require_generated_id id (rack_id rack) "rack") in
  do! for_each (pt_nics parsed) (fun nic =>
        let! id := add_nic (nic_rack nic) in require_generated_id id (nic_id nic) "NIC") in
  for_each (pt_switches parsed) (fun switch_entity =>
    let! id := (if bool_decide (switch_role switch_entity = Leaf)
                then add_leaf_switch (default u64_max (switch_rack switch_entity))
                else add_spine_switch) in
    require_generated_id id (switch_id switch_entity) "switch").

Definition replay_local_attachment (parsed : ParsedTopology) (link : PhysicalLink) : GraphM unit :=
  let! gpu_port_ := parsed_port parsed (link_endpoint_a link) in
  let! nic_port_ := parsed_port parsed (link_endpoint_b link) in
  if bool_decide (node_kind (port_owner gpu_port_) <> NodeKind_Gpu) || bool_decide (node_kind (port_owner nic_port_) <> NodeKind_Nic) ||
     bool_decide (port_role gpu_port_ <> Local) || bool_decide (port_role nic_port_ <> Local)
  then fail "local attachment endpoints are not in canonical GPU-to-NIC order" else
  let! gpu := parsed_gpu parsed (port_owner gpu_port_) in
  if negb (gpu_attached_nic gpu =? node_value (port_owner nic_port_))
  then fail "GPU attachment disagrees with local-link NIC endpoint" else
  let! id := add_gpu (gpu_attached_nic gpu) in
  do! require_generated_id id (gpu_id gpu) "GPU" in
  let! generated := gets (find_link (link_id link)) in
  if negb (has_value generated) then fail "local attachment did not produce the expected LinkId" else ret tt.

Definition replay_fabric_link (parsed : ParsedTopology) (link : PhysicalLink) : GraphM unit :=
  let! endpoint_a := parsed_port parsed (link_endpoint_a link) in
  let! endpoint_b := parsed_port parsed (link_endpoint_b link) in
  let! id := connect_fabric (port_owner endpoint_a) (port_role endpoint_a) (port_owner endpoint_b) (port_role endpoint_b) in
  require_generated_id id (link_id link) "fabric link".

Definition replay_links (parsed : ParsedTopology) : GraphM unit :=
  for_each (pt_links parsed) (fun link =>
    if bool_decide (link_kind link = LocalAttachment) then replay_local_attachment parsed link
    else replay_fabric_link parsed link).

(** A setter returns whether it did its work. *)
Definition restore (set : TopologyGraph -> TopologyGraph * bool) (message : string) : GraphM unit :=
  fun g => let '(g', known) := set g in if negb known then fail message g' else (g', Ret tt).

Definition restore_operational_state (parsed : ParsedTopology) : GraphM unit :=
  do! for_each (pt_switches parsed) (fun switch_entity =>
        restore (set_switch_state (switch_id switch_entity) (switch_state switch_entity))
          "cannot restore state for an unknown switch") in
  do! for_each (pt_ports parsed) (fun port =>
        restore (set_port_state (port_id port) (port_state port)) "cannot restore state for an unknown port") in
  for_each (pt_links parsed) (fun link =>
    restore (set_link_state (link_id link) (link_state link)) "cannot restore state for an unknown link").

Definition require_equal_entities {A} `{EqDecision A} (generated parsed : list A) (entity_kind : string) : GraphM unit :=
  if negb (bool_decide (generated = parsed))
  then fail ("reconstructed " +:+ entity_kind +:+ " entities do not match the canonical document") else ret tt.

Definition require_exact_reconstruction (parsed : ParsedTopology) : GraphM unit :=
  let! g := gets (fun g => g) in
  do! require_equal_entities (racks_ g) (pt_racks parsed) "rack" in
  do! require_equal_entities (gpus_ g) (pt_gpus parsed) "GPU" in
  do! require_equal_entities (nics_ g) (pt_nics parsed) "NIC" in
  do! require_equal_entities (switches_ g) (pt_switches parsed) "switch" in
  do! require_equal_entities (ports_ g) (pt_ports parsed) "port" in
  do! require_equal_entities (links_ g) (pt_links parsed) "link" in
  let! report := of_outcome (validate_topology g) in
  match vr_errors report with
  | [] => ret tt
  | first :: _ => fail ("reconstructed topology is invalid: " +:+ ve_message first)
  end.

Definition reconstruct (parsed : ParsedTopology) : GraphM unit :=
  do! create_racks_nics_and_switches parsed in
  do! replay_links parsed in
  do! restore_operational_state parsed in
  require_exact_reconstruction parsed.

(** Every exception leaves as a [TopologyYamlError]. *)
Definition yaml_error (e : exn) : exn :=
  match e with
  | TopologyYamlError _ => e
  | _ => TopologyYamlError ("invalid topology YAML: " +:+ what e)
  end.

(** Reading has no state of its own. *)
Definition deserialize_topology_yaml `{Yaml} (yaml : string) : outcome TopologyGraph :=
  match parse_document yaml tt with
  | (_, Throw e) => Throw (yaml_error e)
  | (_, Ret parsed) =>
      match make_graph (reconstruct parsed) with
      | Ret g => Ret g
      | Throw e => Throw (yaml_error e)
      end
  end.
