(* ===== verification/ImportReading.v ===== *)
(** * Reading what was written

    The document that the exporter describes, and that the importer reads the
    entities of the graph back from any nodes that read as this document. *)

From S2P Require Import Prelude SimTime Entities TelemetryRecords Topology TopologyLaws TopologyMembers.
From S2P Require Import TopologyFamilies TopologyClos TopologyValidation Yaml TopologyExport TopologyImport.

(** ** The document *)

Definition ids_doc (ids : list Z) : Document := DSeq (DNumber <$> ids).

Definition rack_doc (rack : Rack) : list (string * Document) :=
  [("id", DNumber (rack_id rack)); ("gpus", ids_doc (rack_gpus rack)); ("nics", ids_doc (rack_nics rack));
   ("leaf_switches", ids_doc (rack_leaf_switches rack))].

Definition gpu_doc (gpu : GpuWorker) : list (string * Document) :=
  [("id", DNumber (gpu_id gpu)); ("rack", DNumber (gpu_rack gpu)); ("attached_nic", DNumber (gpu_attached_nic gpu));
   ("port", DNumber (gpu_port gpu))].

Definition nic_doc (nic : Nic) : list (string * Document) :=
  [("id", DNumber (nic_id nic)); ("rack", DNumber (nic_rack nic)); ("attached_gpus", ids_doc (nic_attached_gpus nic));
   ("ports", ids_doc (nic_ports nic))].

Definition switch_doc (s : Switch) : list (string * Document) :=
  [("id", DNumber (switch_id s)); ("rack", match switch_rack s with Some rack => DNumber rack | None => DNull end);
   ("role", DText (switch_role_name (switch_role s))); ("state", DText (operational_state_name (switch_state s)));
   ("ports", ids_doc (switch_ports s))].

Definition node_doc (n : NodeId) : list (string * Document) :=
  [("kind", DText (node_kind_name (node_kind n))); ("id", DNumber (node_value n))].

Definition port_doc (p : Port) : list (string * Document) :=
  [("id", DNumber (port_id p)); ("owner", DMap (node_doc (port_owner p))); ("role", DText (port_role_name (port_role p)));
   ("state", DText (operational_state_name (port_state p)))].

Definition link_doc (l : PhysicalLink) : list (string * Document) :=
  [("id", DNumber (link_id l)); ("endpoint_a", DNumber (link_endpoint_a l)); ("endpoint_b", DNumber (link_endpoint_b l));
   ("kind", DText (link_kind_name (link_kind l))); ("state", DText (operational_state_name (link_state l)))].

Definition entities_doc {A} (doc : A -> list (string * Document)) (l : list A) : Document := DSeq ((fun x => DMap (doc x)) <$> l).

Definition topology_doc (g : TopologyGraph) : Document :=
  DMap [("schema_version", DNumber topology_yaml_schema_version); ("racks", entities_doc rack_doc (racks_ g));
        ("gpus", entities_doc gpu_doc (gpus_ g)); ("nics", entities_doc nic_doc (nics_ g));
        ("switches", entities_doc switch_doc (switches_ g)); ("ports", entities_doc port_doc (ports_ g));
        ("links", entities_doc link_doc (links_ g))].

(** ** It is what the exporter describes *)

Lemma puts_ids ids : puts (emit_id_sequence ids) (ids_doc ids).
Proof. apply puts_layout, puts_seq, puts_items_concat. intros id. apply puts_number. Qed.

Lemma puts_entities {A} key (emit : A -> list YamlToken) doc l :
  (forall x, puts_entries (emit x) (doc x)) -> puts_entries (emit_entities key emit l) [(key, entities_doc doc l)].
Proof.
  intros Hx. apply puts_entry, puts_layout, puts_seq.
  apply (puts_items_concat (fun e => YBeginMap :: (emit e ++ [YEndMap])) (fun x => DMap (doc x))). intros x. by apply puts_map.
Qed.

Create HintDb emitted.
#[export] Hint Resolve puts_ids puts_number puts_text puts_null puts_entry : emitted.

(** The entries of a mapping, one by one. *)
Ltac puts_each :=
  repeat match goal with
  | |- puts_entries (entry _ _) [_] => apply puts_entry
  | |- puts_entries (_ ++ _) (?e :: ?es) => apply (puts_entries_app _ _ [e] es)
  end; auto with emitted.

Lemma topology_described g : document_of (topology_tokens g) = Some (topology_doc g).
Proof.
  apply puts_document, puts_map. puts_each; (apply puts_entities; intros x;
    unfold rack_doc, gpu_doc, nic_doc, switch_doc, port_doc, link_doc; puts_each).
  - destruct (switch_rack x); auto with emitted.
  - apply puts_map. unfold node_doc. puts_each.
Qed.

(** ** It is plain *)

Definition u64b (x : Z) : bool := (0 <=? x) && (x <=? u64_max).

Lemma u64b_true x : u64b x = true <-> u64 x.
Proof. unfold u64b, u64. rewrite andb_true_iff, !Z.leb_le. done. Qed.

Lemma plain_ids ids : Forall u64 ids -> plain (ids_doc ids) = true.
Proof.
  intros Hi. cbn. apply forallb_forall. intros d (x & -> & Hx)%list_elem_of_In%list_elem_of_fmap. rewrite Forall_forall in Hi.
  apply u64b_true. by apply Hi.
Qed.

Lemma plain_entities {A} (doc : A -> list (string * Document)) l :
  (forall x, x ∈ l -> plain (DMap (doc x)) = true) -> plain (entities_doc doc l) = true.
Proof. intros Hl. cbn [plain entities_doc]. apply forallb_forall. intros d (x & -> & Hx)%list_elem_of_In%list_elem_of_fmap. by apply Hl. Qed.

Section Plain.
Context g (Hg : sound_graph g).
#[local] Abbreviation Hv := (go_vectors _ (proj1 Hg)).
#[local] Abbreviation Hst := (go_structure _ (proj1 Hg)).
#[local] Abbreviation Hm := (proj2 Hg).

Lemma range_u64 {A} (id_of : A -> Z) l k : dense id_of l -> 0 <= k < zlength l -> u64 k.
Proof. intros [Hl _] Hk. split; lia. Qed.

Lemma dense_u64 {A} (id_of : A -> Z) l x : dense id_of l -> x ∈ l -> u64 (id_of x).
Proof.
  intros Hd [i Hi]%list_elem_of_lookup. rewrite (proj2 Hd i x Hi). apply (range_u64 id_of l); [done |].
  apply lookup_lt_Some in Hi. unfold zlength. lia.
Qed.

Lemma members_u64 {E A} (lst : E -> list Z) (es : list E) (id_of : A -> Z) (key : A -> Z * option Z) l e :
  members (lst <$> es) (key <$> l) -> (forall x, fst (key x) = id_of x) -> dense id_of l -> e ∈ es -> Forall u64 (lst e).
Proof.
  intros Hmem Hkey Hd [i Hi]%list_elem_of_lookup. apply Forall_forall. intros id Hid.
  apply (members_elem _ _ i _ id Hmem) in Hid; [| by rewrite list_lookup_fmap, Hi].
  apply list_elem_of_fmap in Hid as (x & Hx & Hin). pose proof (dense_u64 id_of l x Hd Hin) as Hu.
  rewrite <- Hkey, <- Hx in Hu. done.
Qed.

Lemma plain_map entries : NoDup (fst <$> entries) -> Forall (fun e => plain_name (fst e) = true /\ plain (snd e) = true) entries ->
  plain (DMap entries) = true.
Proof.
  intros Hnd Hf. cbn [plain]. rewrite bool_decide_eq_true_2 by done. cbn [andb]. apply forallb_forall. intros e He%list_elem_of_In.
  rewrite Forall_forall in Hf. destruct (Hf e He) as [-> ->]. done.
Qed.

Lemma node_u64 n : node_in g n -> u64 (node_value n).
Proof.
  destruct Hv as [V1 V2 V3 V4 V5 V6]. unfold node_in, node_count. destruct (node_kind n); by eapply range_u64.
Qed.

(** A mapping with known keys. *)
Ltac plain_entries :=
  apply plain_map; [by apply (bool_decide_unpack (NoDup _)); vm_compute |];
  repeat (apply Forall_cons; split; [split; [by vm_compute | cbn [snd]] |]); try apply Forall_nil_2;
  try first [apply plain_ids | apply u64b_true].

Lemma topology_plain : plain (topology_doc g) = true.
Proof.
  destruct Hv as [V1 V2 V3 V4 V5 V6].
  unfold topology_doc. plain_entries; [split; vm_compute; congruence | apply plain_entities; intros x Hx ..].
  - unfold rack_doc. plain_entries; [by apply (dense_u64 rack_id (racks_ g)) | | |].
    + by apply (members_u64 rack_gpus _ gpu_id _ _ _ (mo_rack_gpus _ Hm)).
    + by apply (members_u64 rack_nics _ nic_id _ _ _ (mo_rack_nics _ Hm)).
    + by apply (members_u64 rack_leaf_switches _ switch_id _ _ _ (mo_rack_switches _ Hm)).
  - destruct (gpu_keys_range g (proj1 Hg) x Hx) as [R1 R2].
    unfold gpu_doc. plain_entries; [by apply (dense_u64 gpu_id (gpus_ g)) | by apply (range_u64 rack_id (racks_ g)) |
      by apply (range_u64 nic_id (nics_ g)) |].
    pose proof (members_u64 gpu_ports _ port_id _ _ x (mo_gpu_ports _ Hm) ltac:(done) V6 Hx) as Hp. exact (proj1 (Forall_singleton u64 (gpu_port x)) Hp).
  - unfold nic_doc. plain_entries; [by apply (dense_u64 nic_id (nics_ g)) | | |].
    + apply (range_u64 rack_id (racks_ g)); [done |]. by apply (gs_nics _ Hst).
    + by apply (members_u64 nic_attached_gpus _ gpu_id _ _ _ (mo_nic_gpus _ Hm)).
    + by apply (members_u64 nic_ports _ port_id _ _ _ (mo_nic_ports _ Hm)).
  - pose proof (mo_switches _ Hm x Hx) as Hok. unfold switch_ok in Hok.
    unfold switch_doc. plain_entries; [by apply (dense_u64 switch_id (switches_ g)) | | by destruct (switch_role x) |
      by destruct (switch_state x) | by apply (members_u64 switch_ports _ port_id _ _ _ (mo_switch_ports _ Hm))].
    destruct (switch_rack x) as [r |]; [| done]. apply u64b_true, (range_u64 rack_id (racks_ g)); [done |]. by destruct (switch_role x).
  - unfold port_doc. plain_entries; [by apply (dense_u64 port_id (ports_ g)) | | by destruct (port_role x) | by destruct (port_state x)].
    unfold node_doc. plain_entries; [by destruct (node_kind (port_owner x)) |]. by apply node_u64, (gs_owner _ Hst).
  - destruct (gs_links _ Hst x Hx) as (R1 & R2 & _).
    unfold link_doc. plain_entries; [by apply (dense_u64 link_id (links_ g)) | by apply (range_u64 port_id (ports_ g)) |
      by apply (range_u64 port_id (ports_ g)) | by destruct (link_kind x) | by destruct (link_state x)].
Qed.
End Plain.

(** ** It is read back *)

Section Read.
Context `{Yaml} {S : Type}.
Implicit Types (s : S) (n : yaml_node).

Lemma bind_bind {A B C} (m : M S A) (k : A -> M S B) (f : B -> M S C) s :
  bind (bind m k) f s = bind m (fun a => bind (k a) f) s.
Proof. unfold bind. by destruct (m s) as [s' [a | e]]. Qed.

(** A field of a mapping in front of the rest of a function. *)
Lemma run_field entries n k d s : reads (DMap entries) n -> (k, d) ∈ entries ->
  exists m, (forall B (f : yaml_node -> M S B), bind (require_field n k) f s = f m s) /\ reads d m.
Proof.
  intros Hr Hin. destruct (reads_field entries n k d Hr Hin) as (Hmap & m & Hf & Hd). exists m. split; [| done].
  intros B f. unfold bind, require_field. by rewrite Hmap, Hf.
Qed.

Lemma run_id {B} v n (f : Z -> M S B) s : reads (DNumber v) n -> bind (parse_id n) f s = f v s.
Proof. intros (_ & Hv & _). unfold parse_id, bind, of_outcome. by rewrite Hv. Qed.

Lemma run_string {B} v n (f : string -> M S B) s : reads (DText v) n -> bind (of_outcome (as_string n)) f s = f v s.
Proof. intros Hv. cbn in Hv. unfold bind, of_outcome. by rewrite Hv. Qed.

Lemma run_dense {B} entries n v kind (f : Z -> M S B) s : reads (DMap entries) n -> ("id"%string, DNumber v) ∈ entries ->
  bind (parse_dense_id n v kind) f s = f v s.
Proof.
  intros Hr Hin. unfold parse_dense_id. rewrite bind_bind.
  destruct (run_field entries n "id" _ s Hr Hin) as (m & -> & Hm). rewrite bind_bind, (run_id v) by done. by rewrite Z.eqb_refl.
Qed.

Lemma run_field_id {B} entries n k v (f : Z -> M S B) s : reads (DMap entries) n -> (k, DNumber v) ∈ entries ->
  bind (field_id n k) f s = f v s.
Proof.
  intros Hr Hin. unfold field_id. rewrite bind_bind.
  destruct (run_field entries n k _ s Hr Hin) as (m & -> & Hm). by apply run_id.
Qed.

Lemma run_ids {B} entries n k ids (f : list Z -> M S B) s : reads (DMap entries) n -> (k, ids_doc ids) ∈ entries ->
  bind (parse_id_sequence n k) f s = f ids s.
Proof.
  intros Hr Hin. unfold parse_id_sequence. rewrite bind_bind.
  destruct (run_field entries n k _ s Hr Hin) as (m & -> & Hm). apply reads_seq in Hm as [-> Hm]. cbn [negb].
  assert (collect (node_items m) parse_id s = (s, Ret ids)) as Hc.
  { clear Hin. revert Hm. generalize (node_items m). induction ids as [| id ids IH]; intros ns Hns; rewrite ?fmap_cons in Hns; inversion Hns as [| d x ds xs Hd Hds]; subst; [done |].
    cbn [collect]. rewrite (run_id id) by done. unfold bind. by rewrite (IH xs). }
  unfold bind. by rewrite Hc.
Qed.

(** A field with a name in it. *)
Lemma run_named {A B} (parse : yaml_node -> M S A) entries n k name v (f : A -> M S B) s :
  reads (DMap entries) n -> (k, DText name) ∈ entries -> (forall m, as_string m = Ret name -> parse m s = (s, Ret v)) ->
  (let! node := require_field n k in let! x := parse node in f x) s = f v s.
Proof.
  intros Hr Hin Hp. destruct (run_field entries n k _ s Hr Hin) as (m & -> & Hm). unfold bind. by rewrite (Hp m Hm).
Qed.

Lemma parse_switch_role_name r m s : as_string m = Ret (switch_role_name r) -> parse_switch_role m s = (s, Ret r).
Proof. intros Hm. unfold parse_switch_role. rewrite (run_string (switch_role_name r)) by done. by destruct r. Qed.

Lemma parse_port_role_name r m s : as_string m = Ret (port_role_name r) -> parse_port_role m s = (s, Ret r).
Proof. intros Hm. unfold parse_port_role. rewrite (run_string (port_role_name r)) by done. by destruct r. Qed.

Lemma parse_link_kind_name k m s : as_string m = Ret (link_kind_name k) -> parse_link_kind m s = (s, Ret k).
Proof. intros Hm. unfold parse_link_kind. rewrite (run_string (link_kind_name k)) by done. by destruct k. Qed.

Lemma parse_state_name st m s : as_string m = Ret (operational_state_name st) -> parse_operational_state m s = (s, Ret st).
Proof. intros Hm. unfold parse_operational_state. rewrite (run_string (operational_state_name st)) by done. by destruct st. Qed.

Lemma parse_node_reads v n s : reads (DMap (node_doc v)) n -> parse_node_id n s = (s, Ret v).
Proof.
  intros Hn. unfold parse_node_id. destruct (run_field (node_doc v) n "kind" _ s Hn ltac:(left)) as (m & -> & Hm).
  rewrite (run_string (node_kind_name (node_kind v))) by done.
  destruct (run_field (node_doc v) n "id" _ s Hn ltac:(right; left)) as (m' & -> & Hm'). rewrite (run_id (node_value v)) by done.
  by destruct v as [[] x].
Qed.

(** All items of a sequence. *)
Lemma parse_items_reads {A} (parse : Z -> yaml_node -> M S A) (doc : A -> list (string * Document)) s l : forall k ns,
  (forall i x n, l !! i = Some x -> reads (DMap (doc x)) n -> parse (k + Z.of_nat i) n s = (s, Ret x)) ->
  Forall2 reads ((fun x => DMap (doc x)) <$> l) ns -> parse_items parse k ns s = (s, Ret l).
Proof.
  induction l as [| x l IH]; intros k ns Hp Hns; rewrite ?fmap_cons in Hns; inversion Hns as [| d m ds ms Hd Hds]; subst; [done |].
  cbn [parse_items]. unfold bind at 1. pose proof (Hp 0%nat x m eq_refl Hd) as Hx. rewrite Z.add_0_r in Hx. rewrite Hx.
  unfold bind. rewrite (IH (k + 1) ms); [done | | done]. intros i y n Hy Hn.
  replace (k + 1 + Z.of_nat i) with (k + Z.of_nat (Datatypes.S i)) by lia. by apply Hp.
Qed.

Lemma run_entities {A B} (parse : Z -> yaml_node -> M S A) (doc : A -> list (string * Document)) (id_of : A -> Z) entries n k l (f : list A -> M S B) s :
  reads (DMap entries) n -> (k, entities_doc doc l) ∈ entries -> dense id_of l ->
  (forall x m, reads (DMap (doc x)) m -> parse (id_of x) m s = (s, Ret x)) ->
  bind (let! sequence := require_sequence n k in parse_items parse 0 (node_items sequence)) f s = f l s.
Proof.
  intros Hr Hin Hd Hp. rewrite bind_bind. unfold require_sequence. rewrite bind_bind.
  destruct (run_field entries n k _ s Hr Hin) as (m & -> & Hm). apply reads_seq in Hm as [-> Hm]. cbn [negb].
  unfold bind, ret. rewrite (parse_items_reads parse doc s l 0); [done | | done]. intros i x m' Hx Hm'.
  rewrite Z.add_0_l, <- (proj2 Hd i x Hx). by apply Hp.
Qed.

(** The entities of each kind. *)

(** Membership in a list that is written out. *)
Ltac listed := repeat first [by left | right].

Lemma parse_rack_reads r m s : reads (DMap (rack_doc r)) m -> parse_rack (rack_id r) m s = (s, Ret r).
Proof.
  intros Hm. unfold parse_rack. rewrite (run_dense (rack_doc r)) by (done || listed).
  rewrite (run_ids (rack_doc r) m "gpus" (rack_gpus r)), (run_ids (rack_doc r) m "nics" (rack_nics r)),
    (run_ids (rack_doc r) m "leaf_switches" (rack_leaf_switches r)) by (done || listed). by destruct r.
Qed.

Lemma parse_gpu_reads w m s : reads (DMap (gpu_doc w)) m -> parse_gpu (gpu_id w) m s = (s, Ret w).
Proof.
  intros Hm. unfold parse_gpu. rewrite (run_dense (gpu_doc w)) by (done || listed).
  rewrite (run_field_id (gpu_doc w) m "rack" (gpu_rack w)), (run_field_id (gpu_doc w) m "attached_nic" (gpu_attached_nic w)),
    (run_field_id (gpu_doc w) m "port" (gpu_port w)) by (done || listed). by destruct w.
Qed.

Lemma parse_nic_reads k m s : reads (DMap (nic_doc k)) m -> parse_nic (nic_id k) m s = (s, Ret k).
Proof.
  intros Hm. unfold parse_nic. rewrite (run_dense (nic_doc k)) by (done || listed).
  rewrite (run_field_id (nic_doc k) m "rack" (nic_rack k)), (run_ids (nic_doc k) m "attached_gpus" (nic_attached_gpus k)),
    (run_ids (nic_doc k) m "ports" (nic_ports k)) by (done || listed). by destruct k.
Qed.

Lemma run_optional_rack {B} w m (f : option RackId -> M S B) s : reads (DMap (switch_doc w)) m ->
  bind (parse_optional_rack m) f s = f (switch_rack w) s.
Proof.
  intros Hm. unfold parse_optional_rack. rewrite bind_bind.
  destruct (run_field (switch_doc w) m "rack" _ s Hm ltac:(listed)) as (x & -> & Hx). destruct (switch_rack w) as [r |].
  - rewrite (proj1 Hx), bind_bind. by rewrite (run_id r).
  - cbn in Hx. by rewrite Hx.
Qed.

Lemma parse_switch_reads w m s : reads (DMap (switch_doc w)) m -> parse_switch (switch_id w) m s = (s, Ret w).
Proof.
  intros Hm. unfold parse_switch. rewrite (run_dense (switch_doc w)) by (done || listed). rewrite (run_optional_rack w) by done.
  rewrite (run_named parse_switch_role (switch_doc w) m "role" _ (switch_role w)) by (done || listed || (intros; by apply parse_switch_role_name)).
  rewrite (run_ids (switch_doc w) m "ports" (switch_ports w)) by (done || listed).
  rewrite (run_named parse_operational_state (switch_doc w) m "state" _ (switch_state w)) by (done || listed || (intros; by apply parse_state_name)).
  by destruct w.
Qed.

Lemma parse_port_reads p m s : reads (DMap (port_doc p)) m -> parse_port (port_id p) m s = (s, Ret p).
Proof.
  intros Hm. unfold parse_port. rewrite (run_dense (port_doc p)) by (done || listed).
  destruct (run_field (port_doc p) m "owner" _ s Hm ltac:(listed)) as (x & -> & Hx).
  unfold bind at 1. rewrite (parse_node_reads (port_owner p)) by done.
  rewrite (run_named parse_port_role (port_doc p) m "role" _ (port_role p)) by (done || listed || (intros; by apply parse_port_role_name)).
  rewrite (run_named parse_operational_state (port_doc p) m "state" _ (port_state p)) by (done || listed || (intros; by apply parse_state_name)).
  by destruct p.
Qed.

Lemma parse_link_reads l m s : reads (DMap (link_doc l)) m -> parse_link (link_id l) m s = (s, Ret l).
Proof.
  intros Hm. unfold parse_link. rewrite (run_dense (link_doc l)) by (done || listed).
  rewrite (run_field_id (link_doc l) m "endpoint_a" (link_endpoint_a l)), (run_field_id (link_doc l) m "endpoint_b" (link_endpoint_b l)) by (done || listed).
  rewrite (run_named parse_link_kind (link_doc l) m "kind" _ (link_kind l)) by (done || listed || (intros; by apply parse_link_kind_name)).
  rewrite (run_named parse_operational_state (link_doc l) m "state" _ (link_state l)) by (done || listed || (intros; by apply parse_state_name)).
  by destruct l.
Qed.

(** What is read of a graph's document. *)
Definition parsed_of (g : TopologyGraph) : ParsedTopology :=
  mkParsedTopology (racks_ g) (gpus_ g) (nics_ g) (switches_ g) (ports_ g) (links_ g).

Lemma parse_document_reads g text n s : sound_graph g -> yaml_load text = Ret n -> reads (topology_doc g) n ->
  parse_document text s = (s, Ret (parsed_of g)).
Proof.
  intros [Hok _] Hl Hn. destruct (go_vectors _ Hok) as [V1 V2 V3 V4 V5 V6]. unfold parse_document.
  rewrite run_of_outcome, Hl. unfold topology_doc in Hn.
  assert (is_map n = true) as -> by apply Hn. cbn [negb].
  destruct (run_field _ n "schema_version" (DNumber topology_yaml_schema_version) s Hn) as (x & -> & Hx); [by left |].
  rewrite run_of_outcome, (proj2 (proj2 Hx)) by (vm_compute; congruence). rewrite Z.eqb_refl. cbn [negb].
  unfold parse_racks. rewrite (run_entities parse_rack rack_doc rack_id _ n "racks" (racks_ g) _ s Hn)
    by (done || listed || (intros; by apply parse_rack_reads)).
  unfold parse_gpus. rewrite (run_entities parse_gpu gpu_doc gpu_id _ n "gpus" (gpus_ g) _ s Hn)
    by (done || listed || (intros; by apply parse_gpu_reads)).
  unfold parse_nics. rewrite (run_entities parse_nic nic_doc nic_id _ n "nics" (nics_ g) _ s Hn)
    by (done || listed || (intros; by apply parse_nic_reads)).
  unfold parse_switches. rewrite (run_entities parse_switch switch_doc switch_id _ n "switches" (switches_ g) _ s Hn)
    by (done || listed || (intros; by apply parse_switch_reads)).
  unfold parse_ports. rewrite (run_entities parse_port port_doc port_id _ n "ports" (ports_ g) _ s Hn)
    by (done || listed || (intros; by apply parse_port_reads)).
  unfold parse_links. rewrite (run_entities parse_link link_doc link_id _ n "links" (links_ g) _ s Hn)
    by (done || listed || (intros; by apply parse_link_reads)).
  done.
Qed.
End Read.
