(* ===== verification/ImportCanonical.v ===== *)
(** * Canonical order

    In every graph that the calls can build, the local links come in the order
    of their GPUs and no two fabric links join the same nodes: replaying the
    links in order makes the same graph. *)

From S2P Require Import Prelude SimTime Entities TelemetryRecords Topology TopologyLaws TopologyFamilies.
From S2P Require Import TopologyClos TopologyValidation TopologyMembers ValidationLaws.
From S2P Require Import FamiliesLaws FamiliesLoops.

Abbreviation Edge := (NodeId * NodeId)%type (only parsing).

Definition local_edge (e : Edge) : Prop := node_kind (fst e) = NodeKind_Gpu.

#[local] Instance local_edge_dec e : Decision (local_edge e).
Proof. unfold local_edge. apply _. Defined.

(** No fabric edge joins nodes that an earlier edge joins. *)
Definition simple (edges : list Edge) : Prop :=
  forall i a b, edges !! i = Some (a, b) -> ~ local_edge (a, b) -> ~ joins (take i edges) a b.

(** The local edges join the GPUs in order to their NICs. *)
Definition attachment (i : nat) (nic : NicId) : Edge := (gpu_node (Z.of_nat i), nic_node nic).

Definition numbered (edges : list Edge) (nics : list NicId) : Prop := filter local_edge edges = imap attachment nics.

Lemma simple_snoc edges a b : simple edges -> local_edge (a, b) \/ ~ joins edges a b -> simple (edges ++ [(a, b)]).
Proof.
  intros Hs Hab i x y Hi Hl. apply lookup_app_Some in Hi as [Hi | [Hge Hi]].
  - rewrite take_app_le by (apply lookup_lt_Some in Hi; lia). by apply (Hs i).
  - apply list_lookup_singleton_Some in Hi as [Hi [= <- <-]]. rewrite take_app_ge, Hi, app_nil_r by lia. by destruct Hab.
Qed.

Lemma numbered_local edges nics nic : numbered edges nics -> numbered (edges ++ [attachment (length nics) nic]) (nics ++ [nic]).
Proof.
  unfold numbered. intros Hn. rewrite filter_app, Hn, imap_app, filter_cons_True by done. cbn. unfold compose. by rewrite Nat.add_0_r.
Qed.

Lemma numbered_fabric edges nics a b : node_kind a <> NodeKind_Gpu -> numbered edges nics -> numbered (edges ++ [(a, b)]) nics.
Proof. unfold numbered. intros Hk Hn. rewrite filter_app, filter_cons_False by done. by rewrite filter_nil, app_nil_r. Qed.

(** The graph has edges in canonical order. *)
Definition canonical (g : TopologyGraph) : Prop :=
  exists edges, port_owner <$> ports_ g = ends edges /\ simple edges /\ numbered edges (gpu_attached_nic <$> gpus_ g).

Lemma canonical_same g g' : port_owner <$> ports_ g' = port_owner <$> ports_ g -> gpus_ g' = gpus_ g ->
  canonical g -> canonical g'.
Proof. unfold canonical. by intros -> ->. Qed.

Lemma connect_fabric_unconnected a ra b rb g :
  wp (connect_fabric a ra b rb) (fun _ _ => Topology.directly_connected a b g = Ret false) (fun _ _ => True) g.
Proof.
  unfold connect_fabric. wp_step. apply wp_gets. do 4 (wp_step; apply wp_throw_if; [done |]; intros _).
  wp_step. apply wp_of_outcome; [| done]. intros [] Hc; wp_step; apply wp_throw_if; try done. intros _.
  apply wp_draw. done.
Qed.

Lemma unconnected_unlinked g a b : sound_graph g -> contains a g = true -> Topology.directly_connected a b g = Ret false -> ~ linked g a b.
Proof.
  intros Hs Ha. unfold Topology.directly_connected. rewrite adjacency_arcs, Ha by apply Hs. rewrite any_neighbour_linked.
  - intros [= Hx%bool_decide_eq_false] (arc & Harc & Ho). apply Hx, Exists_exists. eauto.
  - intros arc Harc. destruct (arc_target g Hs a arc Harc) as (p & H1 & H2 & _). eauto.
Qed.

Lemma add_gpu_canonical nic g : sound_graph g -> canonical g -> canonical (fst (add_gpu nic g)).
Proof.
  intros Hs Hc. pose proof (add_gpu_spec nic g (proj1 Hs)) as H1. pose proof (add_gpu_fields nic g) as H2. unfold wp in H1, H2.
  destruct (add_gpu nic g) as [g' [id | e]]; cbn [fst].
  - destruct H1 as (Hok' & _), H2 as (k & p & q & l & Hk & E1 & _ & _ & _ & E4 & _), Hc as (edges & C1 & C2 & C3).
    pose proof (gv_gpus _ (go_vectors _ Hok')) as Hid. rewrite E1 in Hid. apply dense_last in Hid. cbn in Hid. subst id.
    exists (edges ++ [(gpu_node (zlength (gpus_ g)), nic_node nic)]). rewrite E4, E1, !fmap_app, ends_snoc, C1.
    split; [done | split; [apply simple_snoc; [done | by left] |]]. pose proof (numbered_local _ _ nic C3) as Hn.
    unfold attachment in Hn. by rewrite length_fmap in Hn.
  - destruct H1 as (_ & (E1 & _ & _ & _ & E5 & _) & _). eapply canonical_same, Hc; congruence.
Qed.

Lemma connect_canonical a ra b rb g : sound_graph g -> canonical g -> canonical (fst (connect_fabric a ra b rb g)).
Proof.
  intros Hs Hc. pose proof (connect_fabric_spec a ra b rb g (proj1 Hs)) as H1. pose proof (connect_fabric_fields a ra b rb g) as H2.
  pose proof (connect_fabric_unconnected a ra b rb g) as H3. unfold wp in H1, H2, H3.
  destruct (connect_fabric a ra b rb g) as [g' [id | e]]; cbn [fst].
  - destruct H2 as (p & q & l & (K1 & K2 & K3 & _) & E1 & _ & _ & _ & E4 & _), Hc as (edges & C1 & C2 & C3).
    exists (edges ++ [(a, b)]). rewrite E4, fmap_app, ends_snoc, C1, E1. split; [done | split].
    + apply simple_snoc; [done |]. right. rewrite <- (linked_joins edges g Hs C1). by apply unconnected_unlinked.
    + by apply numbered_fabric.
  - destruct H1 as (_ & (E1 & _ & _ & _ & E5 & _) & _). eapply canonical_same, Hc; congruence.
Qed.

Lemma graph_step_canonical g op : sound_graph g -> canonical g -> canonical (graph_step g op).
Proof.
  intros Hs Hc. pose proof (proj1 Hs) as Hg. destruct op; cbn [graph_step].
  - pose proof (add_rack_spec g Hg) as H1. pose proof (add_rack_fields g) as H2. unfold wp in *.
    destruct (add_rack g) as [g' [a | e]]; cbn [fst]; [destruct H2 as (E1 & E2 & E3 & E4 & _) | destruct H1 as [-> _]]; [| done].
    eapply canonical_same, Hc; congruence.
  - pose proof (add_nic_spec rack g Hg) as H1. pose proof (add_nic_fields rack g) as H2. unfold wp in *.
    destruct (add_nic rack g) as [g' [a | e]]; cbn [fst]; [destruct H2 as (_ & E1 & E2 & E3 & E4 & _) | destruct H1 as [-> _]]; [| done].
    eapply canonical_same, Hc; congruence.
  - by apply add_gpu_canonical.
  - pose proof (add_leaf_switch_spec rack g Hg) as H1. pose proof (add_leaf_switch_fields rack g) as H2. unfold wp in *.
    destruct (add_leaf_switch rack g) as [g' [a | e]]; cbn [fst]; [destruct H2 as (_ & E1 & E2 & E3 & E4 & _) | destruct H1 as [-> _]]; [| done].
    eapply canonical_same, Hc; congruence.
  - pose proof (add_spine_switch_spec g Hg) as H1. pose proof (add_spine_switch_fields g) as H2. unfold wp in *.
    destruct (add_spine_switch g) as [g' [a | e]]; cbn [fst]; [destruct H2 as (E1 & E2 & E3 & E4 & _) | destruct H1 as [-> _]]; [| done].
    eapply canonical_same, Hc; congruence.
  - by apply connect_canonical.
  - eapply canonical_same, Hc; unfold set_link_state; by repeat case_match.
  - eapply canonical_same, Hc; unfold set_port_state; repeat case_match; try done. cbn. by rewrite fmap_alter_same.
  - eapply canonical_same, Hc; unfold set_switch_state; by repeat case_match.
Qed.

Lemma build_canonical ops : canonical (build ops).
Proof.
  unfold build. assert (canonical empty_graph) as Hc by (exists []; by split_and!).
  assert (sound_graph empty_graph) as Hs by (split; [apply empty_graph_ok | apply empty_members_ok]).
  revert Hc Hs. generalize empty_graph. induction ops as [| op ops IH]; intros g Hc Hs; [done |]. apply IH.
  - by apply graph_step_canonical.
  - split; [apply graph_step_ok, Hs | by apply graph_step_members].
Qed.

(** ** What determines a topology

    Two sound graphs with the same racks, owners, roles and states have the same
    entities, adjacency and validation report: member lists, identifiers and link
    ends carry no information of their own. *)

Lemma list_eq_at {A} (l l' : list A) : length l = length l' ->
  (forall i x y, l !! i = Some x -> l' !! i = Some y -> x = y) -> l = l'.
Proof.
  intros Hlen Heq. apply list_eq. intros i. destruct (l !! i) as [x |] eqn:Hx.
  - destruct (lookup_lt_is_Some_2 l' i) as [y Hy]; [rewrite <- Hlen; by eapply lookup_lt_Some |]. rewrite Hy. f_equal. by eapply Heq.
  - apply lookup_ge_None in Hx. symmetry. apply lookup_ge_None. lia.
Qed.

Lemma fmap_at {A B} (f : A -> B) (l l' : list A) i x y : f <$> l = f <$> l' -> l !! i = Some x -> l' !! i = Some y -> f x = f y.
Proof.
  intros Hf Hx Hy. assert ((f <$> l) !! i = Some (f x)) as H1 by (by rewrite list_lookup_fmap, Hx).
  rewrite Hf, list_lookup_fmap, Hy in H1. by injection H1.
Qed.

Lemma fmap_same_length {A B} (f : A -> B) (l l' : list A) : f <$> l = f <$> l' -> length l = length l'.
Proof. intros Hf. apply (f_equal length) in Hf. by rewrite !length_fmap in Hf. Qed.

Lemma members_at {E} (lst : E -> list Z) (es es' : list E) keys i x y :
  members (lst <$> es) keys -> members (lst <$> es') keys -> es !! i = Some x -> es' !! i = Some y -> lst x = lst y.
Proof.
  intros H1 H2 Hx Hy. rewrite (H1 i (lst x)), (H2 i (lst y)); [done | by rewrite list_lookup_fmap, Hy | by rewrite list_lookup_fmap, Hx].
Qed.

(** The information in a topology. *)
Record same_choices (g g' : TopologyGraph) : Prop := {
  sc_racks : zlength (racks_ g) = zlength (racks_ g');
  sc_nics : nic_rack <$> nics_ g = nic_rack <$> nics_ g';
  sc_gpus : gpu_attached_nic <$> gpus_ g = gpu_attached_nic <$> gpus_ g';
  sc_switches : switch_rack <$> switches_ g = switch_rack <$> switches_ g';
  sc_owners : port_owner <$> ports_ g = port_owner <$> ports_ g';
  sc_roles : port_role <$> ports_ g = port_role <$> ports_ g';
  sc_switch_states : switch_state <$> switches_ g = switch_state <$> switches_ g';
  sc_port_states : port_state <$> ports_ g = port_state <$> ports_ g';
  sc_link_states : link_state <$> links_ g = link_state <$> links_ g';
}.

Section Same.
Context g g' (Hs : sound_graph g) (Hs' : sound_graph g') (Hc : same_choices g g').
#[local] Abbreviation V := (go_vectors _ (proj1 Hs)).
#[local] Abbreviation V' := (go_vectors _ (proj1 Hs')).
#[local] Abbreviation Mo := (proj2 Hs).
#[local] Abbreviation Mo' := (proj2 Hs').

Lemma same_id {A} (id_of : A -> Z) l l' i x y : dense id_of l -> dense id_of l' -> l !! i = Some x -> l' !! i = Some y -> id_of x = id_of y.
Proof. intros [_ H1] [_ H2] Hx Hy. rewrite (H1 _ _ Hx). by rewrite (H2 _ _ Hy). Qed.

Lemma same_ports : ports_ g = ports_ g'.
Proof.
  apply list_eq_at; [by eapply fmap_same_length, Hc |]. intros i x y Hx Hy.
  pose proof (fmap_at _ _ _ _ _ _ (sc_owners _ _ Hc) Hx Hy). pose proof (fmap_at _ _ _ _ _ _ (sc_roles _ _ Hc) Hx Hy).
  pose proof (fmap_at _ _ _ _ _ _ (sc_port_states _ _ Hc) Hx Hy). pose proof (same_id _ _ _ _ _ _ (gv_ports _ V) (gv_ports _ V') Hx Hy).
  destruct x, y; cbn in *; congruence.
Qed.

Lemma same_links : links_ g = links_ g'.
Proof.
  apply list_eq_at; [by eapply fmap_same_length, Hc |]. intros i x y Hx Hy.
  destruct (mo_pairs _ Mo i x Hx) as (A1 & A2 & pa & pb & A3 & A4 & A5).
  destruct (mo_pairs _ Mo' i y Hy) as (B1 & B2 & qa & qb & B3 & B4 & B5). rewrite same_ports in A3, A4.
  assert (qa = pa) as -> by congruence. assert (qb = pb) as -> by congruence.
  pose proof (fmap_at _ _ _ _ _ _ (sc_link_states _ _ Hc) Hx Hy). pose proof (same_id _ _ _ _ _ _ (gv_links _ V) (gv_links _ V') Hx Hy).
  assert (link_kind x = link_kind y) by (unfold ends_ok in *; destruct (link_kind x), (link_kind y); tauto).
  destruct x, y; cbn in *; congruence.
Qed.

Lemma same_gpus : gpus_ g = gpus_ g'.
Proof.
  apply list_eq_at; [by eapply fmap_same_length, Hc |]. intros i x y Hx Hy.
  pose proof (fmap_at _ _ _ _ _ _ (sc_gpus _ _ Hc) Hx Hy) as Hn. pose proof (same_id _ _ _ _ _ _ (gv_gpus _ V) (gv_gpus _ V') Hx Hy).
  destruct (gs_gpus _ (go_structure _ (proj1 Hs)) x (list_elem_of_lookup_2 _ _ _ Hx)) as (_ & k & Hk & Hr).
  destruct (gs_gpus _ (go_structure _ (proj1 Hs')) y (list_elem_of_lookup_2 _ _ _ Hy)) as (_ & k' & Hk' & Hr').
  rewrite Hn in Hk. pose proof (fmap_at _ _ _ _ _ _ (sc_nics _ _ Hc) Hk Hk').
  pose proof (mo_gpu_ports _ Mo') as Hp. rewrite <- same_ports in Hp.
  pose proof (members_at gpu_ports _ _ _ i x y (mo_gpu_ports _ Mo) Hp Hx Hy) as [= Hport].
  destruct x, y; cbn in *; congruence.
Qed.

Lemma same_nics : nics_ g = nics_ g'.
Proof.
  apply list_eq_at; [by eapply fmap_same_length, Hc |]. intros i x y Hx Hy.
  pose proof (fmap_at _ _ _ _ _ _ (sc_nics _ _ Hc) Hx Hy). pose proof (same_id _ _ _ _ _ _ (gv_nics _ V) (gv_nics _ V') Hx Hy).
  pose proof (mo_nic_gpus _ Mo') as K1. rewrite <- same_gpus in K1. pose proof (members_at _ _ _ _ i x y (mo_nic_gpus _ Mo) K1 Hx Hy).
  pose proof (mo_nic_ports _ Mo') as K2. rewrite <- same_ports in K2. pose proof (members_at _ _ _ _ i x y (mo_nic_ports _ Mo) K2 Hx Hy).
  destruct x, y; cbn in *; congruence.
Qed.

Lemma same_switches : switches_ g = switches_ g'.
Proof.
  apply list_eq_at; [by eapply fmap_same_length, Hc |]. intros i x y Hx Hy.
  pose proof (fmap_at _ _ _ _ _ _ (sc_switches _ _ Hc) Hx Hy) as Hr. pose proof (fmap_at _ _ _ _ _ _ (sc_switch_states _ _ Hc) Hx Hy).
  pose proof (same_id _ _ _ _ _ _ (gv_switches _ V) (gv_switches _ V') Hx Hy).
  pose proof (mo_switch_ports _ Mo') as K2. rewrite <- same_ports in K2. pose proof (members_at _ _ _ _ i x y (mo_switch_ports _ Mo) K2 Hx Hy).
  pose proof (mo_switches _ Mo x (list_elem_of_lookup_2 _ _ _ Hx)) as S1. pose proof (mo_switches _ Mo' y (list_elem_of_lookup_2 _ _ _ Hy)) as S2.
  unfold switch_ok in S1, S2. rewrite Hr in S1.
  assert (switch_role x = switch_role y) by (destruct (switch_rack y), (switch_role x), (switch_role y); done).
  destruct x, y; cbn in *; congruence.
Qed.

Lemma same_racks : racks_ g = racks_ g'.
Proof.
  apply list_eq_at; [pose proof (sc_racks _ _ Hc); unfold zlength in *; lia |]. intros i x y Hx Hy.
  pose proof (same_id _ _ _ _ _ _ (gv_racks _ V) (gv_racks _ V') Hx Hy).
  pose proof (mo_rack_gpus _ Mo') as K1. rewrite <- same_gpus in K1. pose proof (members_at _ _ _ _ i x y (mo_rack_gpus _ Mo) K1 Hx Hy).
  pose proof (mo_rack_nics _ Mo') as K2. rewrite <- same_nics in K2. pose proof (members_at _ _ _ _ i x y (mo_rack_nics _ Mo) K2 Hx Hy).
  pose proof (mo_rack_switches _ Mo') as K3. rewrite <- same_switches in K3. pose proof (members_at _ _ _ _ i x y (mo_rack_switches _ Mo) K3 Hx Hy).
  destruct x, y; cbn in *; congruence.
Qed.

Lemma same_arcs n : arcs_from g n = arcs_from g' n.
Proof. unfold arcs_from, owner_of. by rewrite same_links, same_ports. Qed.

Lemma same_adjacency n : adjacency n g = adjacency n g'.
Proof.
  rewrite !adjacency_arcs by (apply Hs || apply Hs'). rewrite same_arcs. unfold contains, find_gpu, find_nic, find_switch.
  by rewrite same_gpus, same_nics, same_switches.
Qed.

Lemma same_linked n m : linked g n m <-> linked g' n m.
Proof. unfold linked, owner_of. by rewrite same_arcs, same_ports. Qed.

Lemma same_valid : validate_topology g = Ret (mkValidationReport []) -> validate_topology g' = Ret (mkValidationReport []).
Proof.
  intros Hval. pose proof (validate_topology_run g Hs) as Hr. pose proof (validate_topology_run g' Hs') as Hr'.
  rewrite <- same_gpus in Hr'. destruct (gpus_ g) as [| first rest] eqn:Hg; [congruence |].
  destruct Hr as (v & Hv & Hrep), Hr' as (v' & Hv' & ->). do 2 f_equal. rewrite filter_none; [done |].
  assert (nodes g' = nodes g) as -> by (unfold nodes; by rewrite same_gpus, same_nics, same_switches).
  assert (node_in g (gpu_node (gpu_id first))) as Hst by (apply (nodes_elem g Hs); unfold nodes; rewrite Hg; left).
  intros n Hn. assert (visited_contains n v' = true) as ->; [| done].
  assert (forall m, node_in g m -> node_in g' m) as Hin.
  { intros m. unfold node_in, node_count. by rewrite same_gpus, same_nics, same_switches. }
  pose proof (proj1 (nodes_elem g Hs n) Hn) as Hn'. apply (searching_done g' Hs' _ v' n Hv'); [by apply Hin .. |].
  assert (visited_contains n v = true) as Hvn.
  { apply not_false_iff_true. intros Hf. rewrite Hrep in Hval. injection Hval as Hnil. apply fmap_nil_inv in Hnil.
    assert (n ∈ ([] : list NodeId)) as Hx; [| by apply elem_of_nil in Hx]. rewrite <- Hnil. by apply list_elem_of_filter. }
  apply (searching_done g Hs _ v n Hv Hst Hn') in Hvn. eapply (rtc_congruence id); [| exact Hvn]. intros a b. apply same_linked.
Qed.
End Same.
