(* ===== verification/ImportReplay.v ===== *)
(** * Replaying a canonical document

    The construction calls of the importer, for the document of a graph that the
    calls can build: each returns, with the identifier that the document has, and
    in the end the graph has everything but its operational states. *)

From S2P Require Import Prelude SimTime Entities TelemetryRecords Topology TopologyLaws TopologyFamilies.
From S2P Require Import TopologyClos TopologyValidation TopologyMembers ValidationLaws.
From S2P Require Import FamiliesLaws FamiliesLoops Yaml TopologyExport TopologyImport ImportReading.
From S2P Require Import ImportCanonical.

(** A loop whose turns return. *)
Lemma for_each_returns {S A} (P : nat -> S -> Prop) (f : A -> M S unit) l : forall s,
  (forall i x s, l !! i = Some x -> P i s -> exists s', f x s = (s', Ret tt) /\ P (Datatypes.S i) s') -> P 0%nat s ->
  exists s', for_each l f s = (s', Ret tt) /\ P (length l) s'.
Proof.
  revert P. induction l as [| x l IH]; intros P s Hf Hs; [by exists s |].
  destruct (Hf 0%nat x s eq_refl Hs) as (s1 & H1 & Hs1).
  destruct (IH (fun i => P (Datatypes.S i)) s1) as (s2 & H2 & Hs2); [| done |].
  - intros i y s' Hy. by apply (Hf (Datatypes.S i)).
  - exists s2. cbn [for_each]. unfold bind. by rewrite H1, H2.
Qed.

(** A construction call followed by the test of the identifier. *)
Lemma generated_builds (m : GraphM Z) sk sk' id expected kind : builds m sk sk' id -> id = expected ->
  builds (let! x := m in require_generated_id x expected kind) sk sk' tt.
Proof.
  intros Hm ->. eapply builds_bind; [exact Hm |]. unfold require_generated_id. rewrite Z.eqb_refl. apply builds_ret.
Qed.

Section Replay.
Context g (Hs : sound_graph g) (edges : list (NodeId * NodeId)).
Context (He : port_owner <$> ports_ g = ends edges) (Hsimple : simple edges) (Hnum : numbered edges (gpu_attached_nic <$> gpus_ g)).
Context (Hroom : zlength (ports_ g) <= u64_max).
#[local] Abbreviation V := (go_vectors _ (proj1 Hs)).
#[local] Abbreviation St := (go_structure _ (proj1 Hs)).
#[local] Abbreviation Mo := (proj2 Hs).

(** ** Racks, NICs and switches *)

Definition rack_state (i : nat) : Skeleton := mkSkeleton (Z.of_nat i) [] [] [] [].

Definition nic_state (i : nat) : Skeleton := mkSkeleton (zlength (racks_ g)) (take i (nic_rack <$> nics_ g)) [] [] [].

Definition switch_state_ (i : nat) : Skeleton :=
  mkSkeleton (zlength (racks_ g)) (nic_rack <$> nics_ g) [] (take i (switch_rack <$> switches_ g)) [].

Lemma dense_at {A} (id_of : A -> Z) l i x : dense id_of l -> l !! i = Some x -> id_of x = Z.of_nat i /\ Z.of_nat i <= u64_max.
Proof. intros [Hl Hd] Hi. split; [by apply Hd |]. apply lookup_lt_Some in Hi. unfold zlength in Hl. lia. Qed.

Lemma take_fmap_length {A B} (f : A -> B) (l : list A) i x : l !! i = Some x -> zlength (take i (f <$> l)) = Z.of_nat i.
Proof. intros Hi. apply lookup_lt_Some in Hi. unfold zlength. rewrite length_take, length_fmap. lia. Qed.

Lemma take_fmap_snoc {A B} (f : A -> B) (l : list A) i x : l !! i = Some x -> take (S i) (f <$> l) = take i (f <$> l) ++ [f x].
Proof. intros Hi. apply take_S_r. by rewrite list_lookup_fmap, Hi. Qed.

Lemma rack_turn i r : racks_ g !! i = Some r ->
  builds (let! id := add_rack in require_generated_id id (rack_id r) "rack") (rack_state i) (rack_state (S i)) tt.
Proof.
  intros Hi. destruct (dense_at _ _ _ _ (gv_racks _ V) Hi) as [Hid Hle]. eapply builds_to; [eapply generated_builds; [by apply add_rack_builds |] |].
  - done.
  - unfold rack_state. cbn [sk_racks]. f_equal. lia.
Qed.

Lemma nic_turn i n : nics_ g !! i = Some n ->
  builds (let! id := add_nic (nic_rack n) in require_generated_id id (nic_id n) "NIC") (nic_state i) (nic_state (S i)) tt.
Proof.
  intros Hi. destruct (dense_at _ _ _ _ (gv_nics _ V) Hi) as [Hid Hle]. pose proof (take_fmap_length nic_rack _ _ _ Hi) as Hlen.
  eapply builds_to; [eapply generated_builds; [apply add_nic_builds |] |]; unfold nic_state; cbn [sk_racks sk_nics].
  - apply (gs_nics _ St). by eapply list_elem_of_lookup_2.
  - by rewrite Hlen.
  - by rewrite Hlen.
  - by rewrite (take_fmap_snoc _ _ _ _ Hi).
Qed.

Lemma switch_turn i s : switches_ g !! i = Some s ->
  builds (let! id := (if bool_decide (switch_role s = Leaf) then add_leaf_switch (default u64_max (switch_rack s)) else add_spine_switch) in
          require_generated_id id (switch_id s) "switch") (switch_state_ i) (switch_state_ (S i)) tt.
Proof.
  intros Hi. destruct (dense_at _ _ _ _ (gv_switches _ V) Hi) as [Hid Hle]. pose proof (take_fmap_length switch_rack _ _ _ Hi) as Hlen.
  pose proof (mo_switches _ Mo s (list_elem_of_lookup_2 _ _ _ Hi)) as Hok. unfold switch_ok in Hok.
  unfold switch_state_. rewrite (take_fmap_snoc _ _ _ _ Hi).
  destruct (switch_role s), (switch_rack s) as [r |]; try done; cbn [default].
  - eapply builds_to; [eapply generated_builds; [apply add_leaf_switch_builds |] |]; cbn [sk_racks sk_switches]; done || congruence.
  - eapply builds_to; [eapply generated_builds; [apply add_spine_switch_builds |] |]; cbn [sk_racks sk_switches]; done || congruence.
Qed.

Lemma create_returns : exists g1, create_racks_nics_and_switches (parsed_of g) empty_graph = (g1, Ret tt) /\
  built (switch_state_ (length (switches_ g))) g1.
Proof.
  unfold create_racks_nics_and_switches. cbn [parsed_of pt_racks pt_nics pt_switches].
  destruct (for_each_returns (fun i => built (rack_state i)) (fun rack => let! id := add_rack in require_generated_id id (rack_id rack) "rack")
    (racks_ g) empty_graph) as (s1 & H1 & B1); [intros i x s Hi; by apply rack_turn | exact (empty_built 0 0) |].
  destruct (for_each_returns (fun i => built (nic_state i)) (fun nic => let! id := add_nic (nic_rack nic) in require_generated_id id (nic_id nic) "NIC")
    (nics_ g) s1) as (s2 & H2 & B2); [intros i x s Hi; by apply nic_turn | exact B1 |].
  assert (nic_state (length (nics_ g)) = switch_state_ 0) as Hst.
  { unfold nic_state, switch_state_. by rewrite take_ge by (by rewrite length_fmap). }
  destruct (for_each_returns (fun i => built (switch_state_ i)) (fun s => let! id := (if bool_decide (switch_role s = Leaf)
      then add_leaf_switch (default u64_max (switch_rack s)) else add_spine_switch) in require_generated_id id (switch_id s) "switch")
    (switches_ g) s2) as (s3 & H3 & B3); [intros i x s Hi; by apply switch_turn | by rewrite <- Hst |].
  exists s3. split; [| done]. unfold bind at 1. rewrite H1. unfold bind at 1. by rewrite H2.
Qed.

(** ** Links *)

Definition gpu_count (i : nat) : nat := length (filter local_edge (take i edges)).

Definition link_state_ (i : nat) : Skeleton :=
  mkSkeleton (zlength (racks_ g)) (nic_rack <$> nics_ g) (take (gpu_count i) (gpu_attached_nic <$> gpus_ g))
    (switch_rack <$> switches_ g) (take i edges).

(** After [i] links; the skeleton knows nothing of roles. *)
Definition replayed (i : nat) (s : TopologyGraph) : Prop :=
  built (link_state_ i) s /\ port_role <$> ports_ s = take (2 * i) (port_role <$> ports_ g).

(** Link [i] of the graph. *)
Lemma link_at i l : links_ g !! i = Some l ->
  exists pa pb, parsed_port (parsed_of g) (link_endpoint_a l) = ret pa /\ parsed_port (parsed_of g) (link_endpoint_b l) = ret pb /\
    edges !! i = Some (port_owner pa, port_owner pb) /\ ends_ok (link_kind l) pa pb /\ port_owner pa <> port_owner pb /\
    node_in g (port_owner pa) /\ node_in g (port_owner pb) /\ link_id l = Z.of_nat i /\ 2 * Z.of_nat i + 1 <= u64_max /\
    take (2 * S i) (port_role <$> ports_ g) = take (2 * i) (port_role <$> ports_ g) ++ [port_role pa; port_role pb].
Proof.
  intros Hl. destruct (mo_pairs _ Mo i l Hl) as (Ea & Eb & pa & pb & Hpa & Hpb & Hends).
  destruct (framed_link edges g Hs He i l Hl) as (a & b & Hi & Ha & Hb). unfold owner_of in Ha, Hb.
  rewrite Ea, Nat2Z.id, Hpa in Ha. rewrite Eb, Nat2Z.id, Hpb in Hb. injection Ha as <-. injection Hb as <-.
  exists pa, pb. unfold parsed_port. cbn [parsed_of pt_ports]. rewrite Ea, Eb, !Nat2Z.id, Hpa, Hpb. split_and!; try done.
  - destruct (gs_links _ St l (list_elem_of_lookup_2 _ _ _ Hl)) as (_ & _ & Hne & _). unfold owner_of in Hne.
    rewrite Ea, Eb, !Nat2Z.id, Hpa, Hpb in Hne. intros Heq. apply Hne. cbn. by rewrite Heq.
  - apply (gs_owner _ St). by eapply list_elem_of_lookup_2.
  - apply (gs_owner _ St). by eapply list_elem_of_lookup_2.
  - by apply (dense_at _ _ _ _ (gv_links _ V) Hl).
  - apply lookup_lt_Some in Hpb. unfold zlength in Hroom. lia.
  - replace (2 * S i)%nat with (S (2 * i + 1)) by lia. rewrite (take_fmap_snoc _ _ _ _ Hpb).
    replace (2 * i + 1)%nat with (S (2 * i)) by lia. rewrite (take_fmap_snoc _ _ _ _ Hpa). by rewrite <- app_assoc.
Qed.

(** A local link is the attachment of the next GPU. *)
Lemma local_at i e : edges !! i = Some e -> local_edge e ->
  exists w, gpus_ g !! gpu_count i = Some w /\ e = attachment (gpu_count i) (gpu_attached_nic w) /\ gpu_count (S i) = S (gpu_count i).
Proof.
  intros Hi Hl. assert (filter local_edge edges !! gpu_count i = Some e) as Hf.
  { rewrite <- (take_drop i edges), filter_app, lookup_app_r by done. fold (gpu_count i). rewrite Nat.sub_diag.
    by rewrite (drop_S _ _ _ Hi), filter_cons_True. }
  rewrite Hnum, list_lookup_imap in Hf. apply fmap_Some in Hf as (n & Hn & ->). rewrite list_lookup_fmap in Hn.
  apply fmap_Some in Hn as (w & Hw & ->). exists w. split; [done | split; [done |]]. unfold gpu_count at 1.
  rewrite (take_S_r _ _ _ Hi), filter_app, length_app, filter_cons_True by done. cbn. unfold gpu_count. lia.
Qed.

Lemma fabric_at i e : edges !! i = Some e -> ~ local_edge e -> gpu_count (S i) = gpu_count i.
Proof.
  intros Hi Hl. unfold gpu_count. rewrite (take_S_r _ _ _ Hi), filter_app, filter_cons_False by done. by rewrite app_nil_r.
Qed.

Lemma edges_taken i : (i < length edges)%nat -> zlength (take i edges) = Z.of_nat i.
Proof. intros Hi. unfold zlength. rewrite length_take. lia. Qed.

Lemma local_turn i l s : links_ g !! i = Some l -> link_kind l = LocalAttachment -> replayed i s ->
  exists s', replay_local_attachment (parsed_of g) l s = (s', Ret tt) /\ replayed (S i) s'.
Proof.
  intros Hl Hk [Hb Hr]. destruct (link_at i l Hl) as (pa & pb & Pa & Pb & Hi & Hends & _ & Hia & _ & Hid & Hle & Ht).
  unfold ends_ok in Hends. rewrite Hk in Hends. destruct Hends as (K1 & K2 & K3 & K4).
  destruct (local_at i _ Hi K1) as (w & Hw & Hatt & Hcount). unfold attachment in Hatt. injection Hatt as Ha Hbo.
  pose proof (edges_taken i ltac:(by eapply lookup_lt_Some)) as Hlen. pose proof (take_fmap_length gpu_attached_nic _ _ _ Hw) as Hg.
  pose proof (dense_at _ _ _ _ (gv_gpus _ V) Hw) as [Hwid Hwle].
  assert (0 <= gpu_attached_nic w < zlength (nics_ g)) as Hnic by (by apply (gpu_keys_range g (proj1 Hs)), (list_elem_of_lookup_2 _ (gpu_count i))).
  destruct (add_gpu_builds (link_state_ i) (gpu_attached_nic w)) with (g := s) as (s' & Hrun & Hb'); unfold link_state_; cbn [sk_nics sk_gpus sk_edges];
    [by rewrite zlength_fmap | by rewrite Hg | by rewrite Hlen | done |].
  cbn [link_state_ sk_racks sk_nics sk_gpus sk_switches sk_edges] in Hrun, Hb'. rewrite Hg in Hrun, Hb'.
  assert (built (link_state_ (S i)) s') as Hb2.
  { unfold link_state_. rewrite Hcount, (take_fmap_snoc _ _ _ _ Hw), (take_S_r _ _ _ Hi), Ha, Hbo. exact Hb'. }
  exists s'. split.
  - unfold replay_local_attachment. rewrite Pa, Pb. unfold bind at 1 2, ret at 1 2. cbv beta iota. rewrite K1, K2, K3, K4.
    cbn [bool_decide]. rewrite !bool_decide_eq_false_2 by tauto. cbn [orb].
    unfold parsed_gpu. rewrite bool_decide_eq_false_2 by tauto. rewrite Ha at 1. cbn [gpu_node node_value parsed_of pt_gpus].
    rewrite Nat2Z.id, Hw. unfold bind at 1, ret at 1. rewrite Hbo. cbn [nic_node node_value]. rewrite Z.eqb_refl. cbn [negb].
    unfold bind at 1. rewrite Hrun. unfold require_generated_id. rewrite Hwid, Z.eqb_refl. cbn [negb].
    unfold bind, ret, gets. assert (has_value (find_link (link_id l) s') = true) as ->; [| done].
    apply bool_decide_eq_true, find_dense_is_Some; [apply (bt_sound _ _ Hb2) |]. rewrite (built_links _ _ Hb2), Hid. cbn [link_state_ sk_edges].
    rewrite (take_S_r _ _ _ Hi), zlength_snoc, Hlen. lia.
  - split; [done |]. pose proof (add_gpu_fields (gpu_attached_nic w) s) as Hf. unfold wp in Hf. rewrite Hrun in Hf.
    destruct Hf as (k & p & q & x & _ & _ & _ & _ & _ & -> & _). by rewrite fmap_app, Hr, Ht, K3, K4.
Qed.

Lemma fabric_turn i l s : links_ g !! i = Some l -> link_kind l = Fabric -> replayed i s ->
  exists s', replay_fabric_link (parsed_of g) l s = (s', Ret tt) /\ replayed (S i) s'.
Proof.
  intros Hl Hk [Hb Hr]. destruct (link_at i l Hl) as (pa & pb & Pa & Pb & Hi & Hends & Hne & Ia & Ib & Hid & Hle & Ht).
  unfold ends_ok in Hends. rewrite Hk in Hends. destruct Hends as (K1 & K2 & K3 & K4).
  assert (~ local_edge (port_owner pa, port_owner pb)) as Hl' by done.
  pose proof (edges_taken i ltac:(by eapply lookup_lt_Some)) as Hlen.
  assert (forall n, node_in g n -> node_kind n <> NodeKind_Gpu -> node_in s n) as Hin.
  { intros n Hn Hkn. apply (node_in_built _ _ Hb). cbn [link_state_ sk_nics sk_switches sk_gpus]. unfold node_in, node_count in Hn.
    destruct (node_kind n); by rewrite ?zlength_fmap. }
  destruct (connect_builds (link_state_ i) (port_owner pa) (port_role pa) (port_owner pb) (port_role pb) s Hb) as (s' & Hrun & Hb'); try done.
  - by apply Hin.
  - by apply Hin.
  - by apply (Hsimple i).
  - cbn [link_state_ sk_gpus]. pose proof (length_filter local_edge (take i edges)) as Hf. fold (gpu_count i) in Hf.
    unfold zlength in *. rewrite length_take. lia.
  - cbn [link_state_ sk_edges]. by rewrite Hlen.
  - exists s'. split.
    + unfold replay_fabric_link. rewrite Pa, Pb. unfold bind at 1 2, ret at 1 2. cbv beta iota. unfold bind. rewrite Hrun.
      unfold require_generated_id. cbn [link_state_ sk_edges]. by rewrite Hlen, Hid, Z.eqb_refl.
    + split.
      * revert Hb'. unfold link_state_. rewrite (fabric_at i _ Hi Hl'), (take_S_r _ _ _ Hi). done.
      * pose proof (connect_fabric_fields (port_owner pa) (port_role pa) (port_owner pb) (port_role pb) s) as Hf. unfold wp in Hf.
        rewrite Hrun in Hf. destruct Hf as (p & q & x & _ & _ & _ & _ & _ & -> & _). by rewrite fmap_app, Hr, Ht.
Qed.

Lemma replay_returns s : built (switch_state_ (length (switches_ g))) s ->
  exists s', replay_links (parsed_of g) s = (s', Ret tt) /\ replayed (length (links_ g)) s'.
Proof.
  intros Hb. apply (for_each_returns replayed).
  - intros i l x Hl Hx. cbv beta. destruct (link_kind l) eqn:Hk.
    + by apply (local_turn i).
    + by apply (fabric_turn i).
  - revert Hb. unfold replayed, link_state_, switch_state_. rewrite (take_ge (switch_rack <$> switches_ g)) by (by rewrite length_fmap).
    intros Hb. split; [done |]. apply length_zero_iff_nil. rewrite length_fmap. pose proof (built_ports _ _ Hb) as Hp.
    unfold zlength in Hp. cbn in Hp. lia.
Qed.
End Replay.

(** ** Restoring operational states

    The setters in the order of the document leave every entity in the state the
    document says and change nothing else; the revision counts the changes. *)

(** The states of [n] entities are set, the others are as they were. *)
Lemma insert_taken {A} (new old : list A) i x : length old = length new -> new !! i = Some x ->
  <[i := x]> (take i new ++ drop i old) = take (S i) new ++ drop (S i) old.
Proof.
  intros Hlen Hi. pose proof (lookup_lt_Some _ _ _ Hi) as Hlt. destruct (lookup_lt_is_Some_2 old i) as [y Hy]; [lia |].
  rewrite (drop_S _ _ _ Hy), (take_S_r _ _ _ Hi), <- app_assoc. rewrite insert_app_r_alt by (rewrite length_take; lia).
  rewrite length_take, Nat.min_l, Nat.sub_diag by lia. done.
Qed.

Lemma fmap_alter_insert {A B} (h : A -> B) (f : A -> A) b i (l : list A) : (forall x, h (f x) = b) ->
  (i < length l)%nat -> h <$> alter f i l = <[i := b]> (h <$> l).
Proof.
  intros Hf. revert i. induction l as [| x l IH]; intros [| i] Hi; cbn in Hi; try lia.
  - change (h (f x) :: (h <$> l) = b :: (h <$> l)). by rewrite Hf.
  - change (h x :: (h <$> alter f i l) = h x :: <[i := b]> (h <$> l)). rewrite IH; [done | lia].
Qed.

(** What a setter leaves alone, and how the revision moves. *)
Record kept (g g' : TopologyGraph) : Prop := {
  kp_members : same_members g g';
  kp_calls : (exists ops, g = build ops) -> exists ops, g' = build ops;
  kp_revision : 0 <= operational_revision_ g' <= operational_revision_ g + 1;
}.

Section Setters.
Context (g : TopologyGraph) (i : nat) (st : OperationalState).
Context (Hrev : 0 <= operational_revision_ g < u64_max).

Lemma kept_refl : kept g g.
Proof. split; [by split | done | lia]. Qed.

Lemma revision_next : u64_wrap (operational_revision_ g + 1) = operational_revision_ g + 1.
Proof. apply u64_wrap_id. split; lia. Qed.

(** The three setters differ in the vector they update. *)
Ltac setter_returns set op :=
  intros Hf Hlt Hx; unfold set; rewrite Hf; case_bool_decide;
  [ exists g; split; [done | split; [apply kept_refl | split_and!; try done]]; symmetry; apply list_insert_id;
    rewrite list_lookup_fmap, Hx; cbn; congruence
  | rewrite (proj2 (Z.eqb_neq _ _)) by lia; eexists; split; [done |]; rewrite Nat2Z.id; split; [split |];
    [ split; try done; cbn; by rewrite fmap_alter_same
    | intros Hops; eapply (calls_step g _ op); [done |]; cbn [graph_step]; unfold set;
      rewrite Hf, bool_decide_eq_false_2, (proj2 (Z.eqb_neq _ _)), Nat2Z.id by (done || lia); done
    | cbn; rewrite revision_next; lia
    | split_and!; try done; cbn; by apply fmap_alter_insert ] ].

Lemma set_switch_returns s : find_switch (Z.of_nat i) g = Some s -> (i < length (switches_ g))%nat -> switches_ g !! i = Some s ->
  exists g', set_switch_state (Z.of_nat i) st g = (g', true) /\ kept g g' /\
    switch_state <$> switches_ g' = <[i := st]> (switch_state <$> switches_ g) /\ ports_ g' = ports_ g /\ links_ g' = links_ g.
Proof. setter_returns set_switch_state (OpSetSwitchState (Z.of_nat i) st). Qed.

Lemma set_port_returns p : find_port (Z.of_nat i) g = Some p -> (i < length (ports_ g))%nat -> ports_ g !! i = Some p ->
  exists g', set_port_state (Z.of_nat i) st g = (g', true) /\ kept g g' /\
    port_state <$> ports_ g' = <[i := st]> (port_state <$> ports_ g) /\ switches_ g' = switches_ g /\ links_ g' = links_ g.
Proof. setter_returns set_port_state (OpSetPortState (Z.of_nat i) st). Qed.

Lemma set_link_returns l : find_link (Z.of_nat i) g = Some l -> (i < length (links_ g))%nat -> links_ g !! i = Some l ->
  exists g', set_link_state (Z.of_nat i) st g = (g', true) /\ kept g g' /\
    link_state <$> links_ g' = <[i := st]> (link_state <$> links_ g) /\ switches_ g' = switches_ g /\ ports_ g' = ports_ g.
Proof. setter_returns set_link_state (OpSetLinkState (Z.of_nat i) st). Qed.
End Setters.

(** ** Construction does not move the revision *)

Section Revision.
Context {A B : Type}.
Implicit Types (m : GraphM A) (k : A -> GraphM B).

Definition unrevised {A} (m : GraphM A) : Prop := forall g, operational_revision_ (fst (m g)) = operational_revision_ g.

Lemma unrevised_ret (a : A) : unrevised (ret a).
Proof. done. Qed.

Lemma unrevised_throw e : unrevised (throw (A := A) e).
Proof. done. Qed.

Lemma unrevised_gets (f : TopologyGraph -> A) : unrevised (gets f).
Proof. done. Qed.

Lemma unrevised_of_outcome (o : outcome A) : unrevised (of_outcome o).
Proof. done. Qed.

Lemma unrevised_bind m k : unrevised m -> (forall a, unrevised (k a)) -> unrevised (bind m k).
Proof. intros Hm Hk g. unfold bind. specialize (Hm g). destruct (m g) as [g1 [a | e]]; [| done]. cbn in Hm. by rewrite (Hk a g1). Qed.

Lemma unrevised_for_each (l : list B) (f : B -> GraphM unit) : (forall x, unrevised (f x)) -> unrevised (for_each l f).
Proof.
  intros Hf. induction l as [| x l IH]; [done |]. cbn [for_each]. intros g. unfold bind. specialize (Hf x g).
  destruct (f x g) as [g1 [a | e]]; [| done]. cbn in Hf. by rewrite (IH g1).
Qed.
End Revision.

Lemma unrevised_modify f : (forall g, operational_revision_ (f g) = operational_revision_ g) -> unrevised (modify f).
Proof. intros Hf g. apply Hf. Qed.

Lemma unrevised_throw_if b e : unrevised (throw_if b e).
Proof. by destruct b. Qed.

Lemma unrevised_zoom {P A} (get : TopologyGraph -> P) set (m : M P A) :
  (forall p g, operational_revision_ (set p g) = operational_revision_ g) -> unrevised (zoom get set m).
Proof. intros Hset g. unfold zoom. destruct (m (get g)) as [p r]. apply Hset. Qed.

Create HintDb unrevised.
#[export] Hint Resolve unrevised_ret unrevised_throw unrevised_gets unrevised_of_outcome unrevised_throw_if : unrevised.

Ltac unrevised_step :=
  match goal with
  | |- unrevised (bind _ _) => apply unrevised_bind; [| intros ?]
  | |- unrevised (for_each _ _) => apply unrevised_for_each; intros ?
  | |- unrevised (modify _) => apply unrevised_modify; intros ?; by repeat case_match
  | |- unrevised (zoom _ _ _) => by apply unrevised_zoom
  | |- unrevised (match ?x with _ => _ end) => destruct x
  | |- unrevised (let '(_, _) := ?x in _) => destruct x
  | _ => solve [auto with unrevised]
  end.

Lemma push_adjacency_unrevised n arc : unrevised (push_adjacency n arc).
Proof. unfold push_adjacency. repeat unrevised_step. Qed.

Lemma append_owner_port_unrevised n p : unrevised (append_owner_port n p).
Proof. unfold append_owner_port. repeat unrevised_step. Qed.
#[export] Hint Resolve push_adjacency_unrevised append_owner_port_unrevised : unrevised.

Lemma append_link_unrevised l a b : unrevised (append_link l a b).
Proof. unfold append_link. repeat unrevised_step. Qed.
#[export] Hint Resolve append_link_unrevised : unrevised.

Lemma add_rack_unrevised : unrevised add_rack.
Proof. unfold add_rack, next_rack_id. repeat unrevised_step. Qed.

Lemma add_nic_unrevised rack : unrevised (add_nic rack).
Proof. unfold add_nic, next_nic_id. repeat unrevised_step. Qed.

Lemma add_gpu_unrevised nic : unrevised (add_gpu nic).
Proof. unfold add_gpu, next_gpu_id, next_port_id, next_link_id. repeat unrevised_step. Qed.

Lemma add_leaf_switch_unrevised rack : unrevised (add_leaf_switch rack).
Proof. unfold add_leaf_switch, next_switch_id. repeat unrevised_step. Qed.

Lemma add_spine_switch_unrevised : unrevised add_spine_switch.
Proof. unfold add_spine_switch, next_switch_id. repeat unrevised_step. Qed.

Lemma connect_fabric_unrevised a ra b rb : unrevised (connect_fabric a ra b rb).
Proof. unfold connect_fabric, next_port_id, next_link_id. repeat unrevised_step. Qed.

Lemma require_generated_id_unrevised x y kind : unrevised (require_generated_id x y kind).
Proof. unfold require_generated_id, fail. repeat unrevised_step. Qed.
#[export] Hint Resolve add_rack_unrevised add_nic_unrevised add_gpu_unrevised add_leaf_switch_unrevised add_spine_switch_unrevised
  connect_fabric_unrevised require_generated_id_unrevised : unrevised.

Lemma create_unrevised parsed : unrevised (create_racks_nics_and_switches parsed).
Proof. unfold create_racks_nics_and_switches. repeat unrevised_step. Qed.

Lemma replay_unrevised parsed : unrevised (replay_links parsed).
Proof.
  unfold replay_links, replay_local_attachment, replay_fabric_link, parsed_port, parsed_gpu, fail. repeat unrevised_step.
Qed.

(** ** The three loops *)

Section Restore.
Context (target base : TopologyGraph) (Hops : exists ops, base = build ops).
Context (Hzero : operational_revision_ base = 0).
Context (Hsw : length (switches_ base) = length (switches_ target)) (Hpo : length (ports_ base) = length (ports_ target))
  (Hli : length (links_ base) = length (links_ target)).
Context (Hd : vectors_ok target).
Context (Hsize : zlength (switches_ target) + zlength (ports_ target) + zlength (links_ target) <= u64_max).

(** As many states are set. *)
Record restored (switches ports links : nat) (s : TopologyGraph) : Prop := {
  rs_members : same_members base s;
  rs_calls : exists ops, s = build ops;
  rs_revision : 0 <= operational_revision_ s <= Z.of_nat (switches + ports + links);
  rs_switches : switch_state <$> switches_ s = take switches (switch_state <$> switches_ target) ++ drop switches (switch_state <$> switches_ base);
  rs_ports : port_state <$> ports_ s = take ports (port_state <$> ports_ target) ++ drop ports (port_state <$> ports_ base);
  rs_links : link_state <$> links_ s = take links (link_state <$> links_ target) ++ drop links (link_state <$> links_ base);
}.

Lemma restored_start : restored 0 0 0 base.
Proof. split; try done. rewrite Hzero. lia. Qed.

Lemma same_members_trans g1 g2 g3 : same_members g1 g2 -> same_members g2 g3 -> same_members g1 g3.
Proof. intros [A1 A2 A3 A4 A5 A6] [B1 B2 B3 B4 B5 B6]. split; congruence. Qed.

Lemma find_dense_at {A} (id_of : A -> Z) l i : dense id_of l -> (i < length l)%nat ->
  exists x, find_dense id_of l (Z.of_nat i) = Some x /\ l !! i = Some x.
Proof.
  intros Hdense Hi. destruct (lookup_lt_is_Some_2 l i Hi) as [x Hx]. exists x. split; [| done].
  apply find_dense_Some; [done |]. rewrite Nat2Z.id. split; [lia | done].
Qed.

Lemma restored_lengths a b c s : restored a b c s ->
  length (switches_ s) = length (switches_ target) /\ length (ports_ s) = length (ports_ target) /\ length (links_ s) = length (links_ target).
Proof.
  intros [[_ _ _ M1 M2 M3] _ _ _ _ _]. apply (f_equal length) in M1, M2, M3. rewrite !length_fmap in M1. rewrite !length_fmap in M2. rewrite !length_fmap in M3. by rewrite M1, M2, M3.
Qed.

(** One more state: [returns] is the lemma of the setter. *)
Ltac restore_step id_of dense_of returns :=
  match goal with
  | Hx : _ !! ?i = Some ?x |- _ => intros Hr; pose proof (restored_lengths _ _ _ _ Hr) as (L1 & L2 & L3);
      destruct Hr as [Ms (ops & ->) Rs Ss Ps Ls]; pose proof (lookup_lt_Some _ _ _ Hx); rewrite (proj2 (dense_of _ Hd) i x Hx);
      destruct (find_dense_at id_of _ i (dense_of _ (go_vectors _ (build_ok ops)))) as (y & Hf & Hy); [lia |];
      edestruct (returns (build ops) i) as (s' & Hrun & [K1 K2 K3] & E1 & E2 & E3);
      [unfold zlength in Hsize; lia | exact Hf | lia | exact Hy |];
      exists s'; split; [unfold restore; by rewrite Hrun |]; split;
      [by eapply same_members_trans | apply K2; by exists ops | lia | ..];
      rewrite ?E2, ?E3, ?E1, ?Ss, ?Ps, ?Ls; try done;
      apply insert_taken; [by rewrite !length_fmap | by rewrite list_lookup_fmap, Hx]
  end.

Lemma switch_step i x s : switches_ target !! i = Some x -> restored i 0 0 s ->
  exists s', restore (set_switch_state (switch_id x) (switch_state x)) "cannot restore state for an unknown switch" s = (s', Ret tt) /\
    restored (S i) 0 0 s'.
Proof. intros Hx. restore_step switch_id gv_switches set_switch_returns. Qed.

Lemma port_step i x s : ports_ target !! i = Some x -> restored (length (switches_ target)) i 0 s ->
  exists s', restore (set_port_state (port_id x) (port_state x)) "cannot restore state for an unknown port" s = (s', Ret tt) /\
    restored (length (switches_ target)) (S i) 0 s'.
Proof. intros Hx. restore_step port_id gv_ports set_port_returns. Qed.

Lemma link_step i x s : links_ target !! i = Some x -> restored (length (switches_ target)) (length (ports_ target)) i s ->
  exists s', restore (set_link_state (link_id x) (link_state x)) "cannot restore state for an unknown link" s = (s', Ret tt) /\
    restored (length (switches_ target)) (length (ports_ target)) (S i) s'.
Proof. intros Hx. restore_step link_id gv_links set_link_returns. Qed.

Lemma restore_returns : exists s, restore_operational_state (parsed_of target) base = (s, Ret tt) /\
  same_members base s /\ (exists ops, s = build ops) /\
  switch_state <$> switches_ s = switch_state <$> switches_ target /\ port_state <$> ports_ s = port_state <$> ports_ target /\
  link_state <$> links_ s = link_state <$> links_ target.
Proof.
  unfold restore_operational_state. cbn [parsed_of pt_switches pt_ports pt_links].
  destruct (for_each_returns (fun i => restored i 0 0) (fun x => restore (set_switch_state (switch_id x) (switch_state x))
    "cannot restore state for an unknown switch") (switches_ target) base) as (s1 & R1 & H1); [intros; by apply switch_step | apply restored_start |].
  destruct (for_each_returns (fun i => restored (length (switches_ target)) i 0) (fun x => restore (set_port_state (port_id x) (port_state x))
    "cannot restore state for an unknown port") (ports_ target) s1) as (s2 & R2 & H2); [intros; by apply port_step | done |].
  destruct (for_each_returns (restored (length (switches_ target)) (length (ports_ target))) (fun x => restore (set_link_state (link_id x) (link_state x))
    "cannot restore state for an unknown link") (links_ target) s2) as (s3 & R3 & [M C R S P L]); [intros; by apply link_step | done |].
  exists s3. split; [unfold bind at 1; rewrite R1; unfold bind at 1; by rewrite R2 |]. split; [done | split; [done |]].
  rewrite S, P, L, !take_ge, !drop_ge, !app_nil_r by (rewrite !length_fmap; lia). done.
Qed.
End Restore.
