(* ===== verification/ImportTheorems.v ===== *)
(** * Theorems on topology import and export *)

From S2P Require Import Prelude SimTime Entities TelemetryRecords Topology TopologyLaws TopologyMembers.
From S2P Require Import TopologyFamilies TopologyClos TopologyValidation ValidationLaws FamiliesLaws.
From S2P Require Import Yaml TopologyExport TopologyImport ImportReading ImportCanonical ImportReplay.

(** ** Reconstruction *)

(** The entities of two graphs are the same. *)
Definition same_entities (g g' : TopologyGraph) : Prop :=
  parsed_of g = parsed_of g' /\ forall n, adjacency n g = adjacency n g'.

Lemma require_equal_returns {A} `{EqDecision A} (l : list A) kind s : require_equal_entities l l kind s = (s, Ret tt).
Proof. unfold require_equal_entities. by rewrite bool_decide_eq_true_2. Qed.

Lemma exact_returns g : validate_topology g = Ret (mkValidationReport []) ->
  require_exact_reconstruction (parsed_of g) g = (g, Ret tt).
Proof.
  intros Hv. unfold require_exact_reconstruction. rewrite run_gets. cbn [parsed_of pt_racks pt_gpus pt_nics pt_switches pt_ports pt_links].
  do 6 (unfold bind at 1; rewrite require_equal_returns). rewrite run_of_outcome, Hv. done.
Qed.

Section Reconstruct.
Context g (Hs : sound_graph g) (Hc : canonical g).
Context (Hsize : zlength (switches_ g) + zlength (ports_ g) + zlength (links_ g) <= u64_max).

Lemma ports_room : zlength (ports_ g) <= u64_max.
Proof. pose proof (zlength_nonneg (switches_ g)). pose proof (zlength_nonneg (links_ g)). lia. Qed.

Lemma replayed_choices edges s : port_owner <$> ports_ g = ends edges -> numbered edges (gpu_attached_nic <$> gpus_ g) ->
  replayed g edges (length (links_ g)) s -> forall s', same_members s s' ->
  switch_state <$> switches_ s' = switch_state <$> switches_ g -> port_state <$> ports_ s' = port_state <$> ports_ g ->
  link_state <$> links_ s' = link_state <$> links_ g -> same_choices g s'.
Proof.
  intros He Hnum [Hb Hr] s' [E1 E2 E3 E4 E5 E6] S1 S2 S3. rewrite (framed_links edges g Hs He) in Hb.
  assert (gpu_count edges (length edges) = length (gpus_ g)) as Hgc.
  { unfold gpu_count. rewrite take_ge, Hnum by done. by rewrite length_imap, length_fmap. }
  destruct Hb as [_ _ _ B1 B2 B3 B4 B5 _]. unfold link_state_ in *. cbn [sk_racks sk_nics sk_gpus sk_switches sk_edges] in *.
  rewrite Hgc, take_ge in B3 by (by rewrite length_fmap). rewrite take_ge in B5 by done.
  rewrite take_ge in Hr by (rewrite length_fmap, (mo_ports_len _ (proj2 Hs)); lia).
  split; try done.
  - by rewrite E3, B1.
  - by rewrite E2, B2.
  - by rewrite E1, B3.
  - pose proof (fmap_through _ (fun x => x.1.1.2) _ _ E4) as H4.
    change (switch_rack <$> switches_ s' = switch_rack <$> switches_ s) in H4. by rewrite H4, B4.
  - pose proof (fmap_through _ (fun x => x.1.2) _ _ E5) as H5. change (port_owner <$> ports_ s' = port_owner <$> ports_ s) in H5.
    by rewrite H5, B5.
  - pose proof (fmap_through _ snd _ _ E5) as H5. change (port_role <$> ports_ s' = port_role <$> ports_ s) in H5. by rewrite H5, Hr.
Qed.

Lemma reconstruct_returns : validate_topology g = Ret (mkValidationReport []) ->
  exists ops, reconstruct (parsed_of g) empty_graph = (build ops, Ret tt) /\ same_entities g (build ops).
Proof.
  intros Hval. destruct Hc as (edges & He & Hsimple & Hnum).
  destruct (create_returns g Hs) as (s1 & R1 & B1).
  destruct (replay_returns g Hs edges He Hsimple Hnum ports_room s1 B1) as (s2 & R2 & B2).
  assert (operational_revision_ s2 = 0) as Hrev.
  { pose proof (create_unrevised (parsed_of g) empty_graph) as K1. rewrite R1 in K1. pose proof (replay_unrevised (parsed_of g) s1) as K2.
    rewrite R2 in K2. cbn in K1, K2. congruence. }
  pose proof (replayed_choices edges s2 He Hnum B2) as Hch.
  pose proof (built_links _ _ (proj1 B2)) as L1. pose proof (built_ports _ _ (proj1 B2)) as L2. pose proof (built_switches _ _ (proj1 B2)) as L3.
  pose proof (framed_links edges g Hs He) as L4. pose proof (mo_ports_len _ (proj2 Hs)) as L5.
  cbn [link_state_ sk_switches sk_edges] in L1, L2, L3. rewrite take_ge in L1, L2 by lia. rewrite zlength_fmap in L3. unfold zlength in L1, L2, L3.
  destruct (restore_returns g s2) as (s3 & R3 & M3 & (ops & ->) & S1 & S2 & S3); try done; [apply (bt_calls _ _ (proj1 B2)) | lia .. | apply Hs |].
  exists ops. pose proof (Hch (build ops) M3 S1 S2 S3) as Hsame. pose proof (build_sound ops) as Hs'.
  assert (parsed_of g = parsed_of (build ops)) as Hp.
  { unfold parsed_of. by rewrite (same_racks g _ Hs Hs' Hsame), (same_gpus g _ Hs Hs' Hsame), (same_nics g _ Hs Hs' Hsame),
      (same_switches g _ Hs Hs' Hsame), (same_ports g _ Hs Hs' Hsame), (same_links g _ Hs Hs' Hsame). }
  split; [| split; [done |]; intros n; by apply same_adjacency].
  unfold reconstruct. unfold bind at 1. rewrite R1. unfold bind at 1. rewrite R2. unfold bind at 1. rewrite R3, Hp. apply exact_returns.
  by apply (same_valid g).
Qed.
End Reconstruct.

(** ** Every call of the importer is a call of the graph *)

Definition made_by_calls (g : TopologyGraph) : Prop := exists ops, g = build ops.

(** Every return leaves such a graph. *)
Definition calls {A} (m : GraphM A) : Prop := forall g g' a, made_by_calls g -> m g = (g', Ret a) -> made_by_calls g'.

Section Calls.
Context {A B : Type}.

Lemma calls_ret (a : A) : calls (ret a).
Proof. intros g g' x Hg [= <- _]. done. Qed.

Lemma calls_throw e : calls (throw (A := A) e).
Proof. intros g g' x Hg [=]. Qed.

Lemma calls_gets (f : TopologyGraph -> A) : calls (gets f).
Proof. intros g g' x Hg [= <- _]. done. Qed.

Lemma calls_of_outcome (o : outcome A) : calls (of_outcome o).
Proof. intros g g' x Hg [= <- _]. done. Qed.

Lemma calls_bind (m : GraphM A) (k : A -> GraphM B) : calls m -> (forall a, calls (k a)) -> calls (bind m k).
Proof. intros Hm Hk g g' x Hg. unfold bind. destruct (m g) as [g1 [a | e]] eqn:Hr; [| done]. apply Hk. by eapply Hm. Qed.

Lemma calls_for_each (l : list B) (f : B -> GraphM unit) : (forall x, calls (f x)) -> calls (for_each l f).
Proof.
  intros Hf. induction l as [| x l IH]; [intros g g' a Hg [= <- _]; done |]. cbn [for_each]. intros g g' a Hg. unfold bind.
  destruct (f x g) as [g1 [u | e]] eqn:Hr; [| done]. apply IH. by eapply (Hf x).
Qed.

(** A call of the graph. *)
Lemma calls_op (m : GraphM A) op : (forall g, fst (m g) = graph_step g op) -> calls m.
Proof. intros Hop g g' a Hg Hr. eapply (calls_step g g' op); [done |]. by rewrite <- Hop, Hr. Qed.
End Calls.

Lemma calls_restore set message op : (forall g, fst (set g) = graph_step g op) -> calls (restore set message).
Proof.
  intros Hop g g' a Hg. unfold restore. specialize (Hop g). destruct (set g) as [g1 []]; [| done]. intros [= <- _].
  eapply (calls_step g g1 op); [done | by rewrite <- Hop].
Qed.

Create HintDb calls.
#[export] Hint Resolve calls_ret calls_throw calls_gets calls_of_outcome : calls.

Lemma add_rack_calls : calls add_rack.
Proof. by apply (calls_op _ OpAddRack). Qed.

Lemma add_nic_calls rack : calls (add_nic rack).
Proof. by apply (calls_op _ (OpAddNic rack)). Qed.

Lemma add_gpu_calls nic : calls (add_gpu nic).
Proof. by apply (calls_op _ (OpAddGpu nic)). Qed.

Lemma add_leaf_switch_calls rack : calls (add_leaf_switch rack).
Proof. by apply (calls_op _ (OpAddLeafSwitch rack)). Qed.

Lemma add_spine_switch_calls : calls add_spine_switch.
Proof. by apply (calls_op _ OpAddSpineSwitch). Qed.

Lemma connect_fabric_calls a ra b rb : calls (connect_fabric a ra b rb).
Proof. by apply (calls_op _ (OpConnectFabric a ra b rb)). Qed.

Lemma restore_switch_calls id st message : calls (restore (set_switch_state id st) message).
Proof. by apply (calls_restore _ _ (OpSetSwitchState id st)). Qed.

Lemma restore_port_calls id st message : calls (restore (set_port_state id st) message).
Proof. by apply (calls_restore _ _ (OpSetPortState id st)). Qed.

Lemma restore_link_calls id st message : calls (restore (set_link_state id st) message).
Proof. by apply (calls_restore _ _ (OpSetLinkState id st)). Qed.
#[export] Hint Resolve add_rack_calls add_nic_calls add_gpu_calls add_leaf_switch_calls add_spine_switch_calls
  connect_fabric_calls restore_switch_calls restore_port_calls restore_link_calls : calls.

Ltac calls_step_tac :=
  match goal with
  | |- calls (bind _ _) => apply calls_bind; [| intros ?]
  | |- calls (for_each _ _) => apply calls_for_each; intros ?
  | |- calls (match ?x with _ => _ end) => destruct x
  | _ => solve [auto with calls]
  end.

Lemma reconstruct_calls parsed : calls (reconstruct parsed).
Proof.
  unfold reconstruct, create_racks_nics_and_switches, replay_links, replay_local_attachment, replay_fabric_link, parsed_port, parsed_gpu,
    restore_operational_state, require_exact_reconstruction, require_equal_entities, require_generated_id, fail.
  repeat calls_step_tac.
Qed.

Lemma exact_reconstruction parsed g g' : require_exact_reconstruction parsed g = (g', Ret tt) ->
  g' = g /\ parsed = parsed_of g /\ validate_topology g = Ret (mkValidationReport []).
Proof.
  unfold require_exact_reconstruction, require_equal_entities. rewrite run_gets.
  repeat (case_bool_decide; cbn [negb]; [unfold bind at 1, ret at 1 | done]). rewrite run_of_outcome.
  destruct (validate_topology g) as [[errors] | e]; [| done]. cbn [vr_errors]. destruct errors; [| done]. intros [= <-].
  destruct parsed; cbn in *. unfold parsed_of. by subst.
Qed.

(** ** Drawing *)

Definition returns {A} (o : outcome A) : Prop := exists a, o = Ret a.

Lemma stream_returns {A} (emit : A -> outcome string) l : (forall x, x ∈ l -> returns (emit x)) -> returns (stream_all emit l).
Proof.
  induction l as [| x l IH]; intros Hl; [by eexists |]. cbn [stream_all]. destruct (Hl x ltac:(left)) as [a ->].
  destruct IH as [b ->]; [intros y Hy; apply Hl; by right |]. by eexists.
Qed.

Lemma join_returns a b : returns a -> returns b -> returns (join a b).
Proof. intros [x ->] [y ->]. by eexists. Qed.

Lemma ret_returns {A} (a : A) : returns (Ret a).
Proof. by eexists. Qed.

Section Drawing.
Context g (Hs : sound_graph g).

(** The members of a rack are known. *)
Lemma member_known {A} (id_of : A -> Z) (l : list A) (lst : Rack -> list Z) (key : A -> Z * option Z) rack id :
  members (lst <$> racks_ g) (key <$> l) -> (forall x, fst (key x) = id_of x) -> dense id_of l -> rack ∈ racks_ g -> id ∈ lst rack ->
  is_Some (find_dense id_of l id).
Proof.
  intros Hm Hkey Hd [i Hi]%list_elem_of_lookup Hid. apply (members_elem _ _ i _ id Hm) in Hid; [| by rewrite list_lookup_fmap, Hi].
  apply list_elem_of_fmap in Hid as (x & Hx & [j Hj]%list_elem_of_lookup). apply find_dense_is_Some; [done |].
  assert (id = Z.of_nat j) as -> by (rewrite <- (proj2 Hd j x Hj), <- Hkey; by rewrite <- Hx).
  apply lookup_lt_Some in Hj. unfold zlength. lia.
Qed.

Lemma rack_drawn rack : rack ∈ racks_ g -> returns (emit_rack_dot g rack).
Proof.
  intros Hr. destruct (go_vectors _ (proj1 Hs)) as [V1 V2 V3 V4 V5 V6]. unfold emit_rack_dot.
  apply join_returns; [apply ret_returns |]. apply join_returns; [| apply join_returns; [| apply join_returns; [| apply ret_returns]]]; apply stream_returns;
    intros id Hid.
  - destruct (member_known gpu_id (gpus_ g) rack_gpus _ rack id (mo_rack_gpus _ (proj2 Hs)) ltac:(done) V5 Hr Hid) as [x Hx].
    unfold find_gpu. rewrite Hx. apply ret_returns.
  - destruct (member_known nic_id (nics_ g) rack_nics _ rack id (mo_rack_nics _ (proj2 Hs)) ltac:(done) V2 Hr Hid) as [x Hx].
    unfold find_nic. rewrite Hx. apply ret_returns.
  - destruct (member_known switch_id (switches_ g) rack_leaf_switches _ rack id (mo_rack_switches _ (proj2 Hs)) ltac:(done) V3 Hr Hid) as [x Hx].
    unfold find_switch. rewrite Hx. apply ret_returns.
Qed.

Lemma link_drawn link : link ∈ links_ g -> returns (emit_link_dot g link).
Proof.
  intros Hl. destruct (gs_links _ (go_structure _ (proj1 Hs)) link Hl) as (Ha & Hb & _). unfold emit_link_dot.
  pose proof (gv_ports _ (go_vectors _ (proj1 Hs))) as Hd.
  destruct (proj2 (find_dense_is_Some port_id _ (link_endpoint_a link) Hd) Ha) as [pa Hpa].
  destruct (proj2 (find_dense_is_Some port_id _ (link_endpoint_b link) Hd) Hb) as [pb Hpb].
  unfold find_port. rewrite Hpa, Hpb. cbn [directed_links]. apply ret_returns.
Qed.

Lemma topology_drawn : validate_topology g = Ret (mkValidationReport []) -> returns (export_topology_dot g).
Proof.
  intros Hv. unfold export_topology_dot, require_valid_topology. rewrite Hv. cbn [vr_errors].
  apply join_returns; [apply ret_returns |]. apply join_returns; [apply stream_returns, rack_drawn |].
  apply join_returns; [apply ret_returns |]. apply join_returns; [apply stream_returns, link_drawn | apply ret_returns].
Qed.
End Drawing.

(** ** Theorems *)

(** C16: a topology survives its file.  A topology made by any sequence of calls in
    which validation finds nothing is exported, as YAML and as a drawing, and
    importing the YAML text returns a topology, itself made by construction and
    state-change calls, with exactly the same racks, GPUs, NICs, switches, ports and links, their states included, and the
    same adjacency of every node; there are fewer than [2^64] entities with a
    state, since the importer counts the states it restores.  The YAML library is
    any one that reads back what it wrote. *)
Theorem topology_yaml_roundtrip `{YamlLaws} ops :
  let g := build ops in
  validate_topology g = Ret (mkValidationReport []) ->
  zlength (switches_ g) + zlength (ports_ g) + zlength (links_ g) <= u64_max ->
  exists text ops', serialize_topology_yaml g = Ret text /\ deserialize_topology_yaml text = Ret (build ops') /\
    same_entities g (build ops') /\ exists dot, export_topology_dot g = Ret dot.
Proof.
  intros g Hval Hsize. pose proof (build_sound ops : sound_graph g) as Hs.
  destruct (emitted_reads (topology_tokens g) (topology_doc g) (topology_described g) (topology_plain g Hs)) as (text & n & Ht & Hl & Hn).
  destruct (reconstruct_returns g Hs (build_canonical ops) Hsize Hval) as (ops' & Hr & Hsame).
  exists (text +:+ newline), ops'. split_and!; [| | done | by apply topology_drawn].
  - unfold serialize_topology_yaml, require_valid_topology. by rewrite Hval, Ht.
  - unfold deserialize_topology_yaml. rewrite (parse_document_reads g (text +:+ newline) n tt Hs Hl Hn). unfold make_graph. by rewrite Hr.
Qed.

(** Two racks with a GPU each, joined by a fabric link that is down. *)
Definition two_racks : list GraphOp :=
  [OpAddRack; OpAddNic 0; OpAddGpu 0; OpAddRack; OpAddNic 1; OpAddGpu 1;
   OpConnectFabric (nic_node 0) FabricUplink (nic_node 1) FabricUplink; OpSetLinkState 2 Down].

Lemma topology_yaml_roundtrip_witness :
  exists text ops', serialize_topology_yaml (build two_racks) = Ret text /\ deserialize_topology_yaml text = Ret (build ops') /\
    same_entities (build two_racks) (build ops').
Proof.
  destruct (topology_yaml_roundtrip two_racks ltac:(vm_compute; reflexivity) ltac:(vm_compute; congruence)) as (text & ops' & H1 & H2 & H3 & _).
  exists text, ops'. exact (conj H1 (conj H2 H3)).
Defined.

(** C17: nothing else is imported.  Whatever the text and whatever the YAML library
    makes of it, importing either returns a topology made by the construction and
    state-change calls, in which validation finds nothing and whose entities are
    those that were read from the text, or throws a [TopologyYamlError] and nothing
    else. *)
Theorem import_sound `{Yaml} text :
  match deserialize_topology_yaml text with
  | Ret g => (exists ops, g = build ops) /\ validate_topology g = Ret (mkValidationReport []) /\
      parse_document text tt = (tt, Ret (parsed_of g))
  | Throw e => exists w, e = TopologyYamlError w
  end.
Proof.
  assert (forall e, exists w, yaml_error e = TopologyYamlError w) as Herr by (intros []; by eexists).
  unfold deserialize_topology_yaml, make_graph. destruct (parse_document text tt) as [[] [parsed | e]] eqn:Hp; [| apply Herr].
  destruct (reconstruct parsed empty_graph) as [g [[] | e]] eqn:Hr; [| apply Herr].
  split; [by eapply (reconstruct_calls parsed); [by exists [] |] |].
  unfold reconstruct, bind in Hr. destruct (create_racks_nics_and_switches parsed empty_graph) as [g1 [[] | e]]; [| done].
  destruct (replay_links parsed g1) as [g2 [[] | e]]; [| done]. destruct (restore_operational_state parsed g2) as [g3 [[] | e]]; [| done].
  by apply exact_reconstruction in Hr as (-> & -> & ?).
Qed.
