(* ===== verification/RunTheorems.v ===== *)
(** * Theorems on training runs

    The report of a run accounts for every job and every collective, and its
    digest is computed over an unambiguous encoding of the outcome. *)

From S2P Require Import Prelude SimTime Entities TelemetryRecords TelemetryMetrics TelemetrySummary TelemetryRecorder TelemetryTheorems.
From S2P Require Import Trace Simulation SimulationLaws SimulationRun SimContext LinkQueue LinkService Topology TopologyLaws Transport.
From S2P Require Import CollectivePlan RoutingPaths RoutingPolicy Router CollectiveRuntime Scheduling Workload WorkloadRuntime WorkloadCluster.
From S2P Require Import TransportReach RouterTheorems CollectiveLaws CollectiveSteps CollectiveFabric CollectiveTheorems.
From S2P Require Import WorkloadLaws WorkloadInv WorkloadSteps WorkloadHandlers WorkloadAdmission WorkloadReach WorkloadTheorems Dispatcher DispatcherLaws.
From S2P Require Import TopologyFamilies TopologyClos TopologyImport ImportReplay FamiliesLaws FamiliesLoops FamiliesClos FamiliesTheorems Run.

(** ** Encodings that can be told apart *)

(** The bytes of a value end where they must, whatever follows. *)
Class Separable {V} (ok : V -> Prop) (bytes : V -> list Z) : Prop := {
  separated a b x y : ok a -> ok b -> bytes a ++ x = bytes b ++ y -> a = b /\ x = y;
}.
Arguments separated {V ok} bytes {_} a b x y.

#[global] Instance word_separable : Separable u64 encode_u64.
Proof.
  split. intros a b x y Ha Hb Heq. pose proof (decode_encode (A := Z) a x Ha) as Hda. pose proof (decode_encode (A := Z) b y Hb) as Hdb.
  change (encode a) with (encode_u64 a) in Hda. change (encode b) with (encode_u64 b) in Hdb. rewrite Heq, Hdb in Hda. by injection Hda.
Qed.

Definition enum_bytes {V} (value : V -> Z) (v : V) : list Z := encode_u64 (value v).

(** The enumerators have different values. *)
Class Words {V} (value : V -> Z) : Prop := {
  word_value v : u64 (value v);
  word_inj a b : value a = value b -> a = b;
}.

#[global] Instance enum_separable {V} (value : V -> Z) `{!Words value} : Separable (fun _ => True) (enum_bytes value).
Proof. split. intros a b x y _ _ Heq. apply (separated encode_u64) in Heq as [He ->]; [| apply word_value ..]. split; [by apply (word_inj (value := value)) | done]. Qed.

Definition text_bytes (s : string) : list Z :=
  encode_u64 (zlength (String.list_ascii_of_string s)) ++ (char_value <$> String.list_ascii_of_string s).

Definition text_ok (s : string) : Prop := u64 (zlength (String.list_ascii_of_string s)).

Lemma char_value_inj a b : char_value a = char_value b -> a = b.
Proof.
  unfold char_value. intros H. apply Nat2Z.inj in H. rewrite <- (Ascii.ascii_nat_embedding a), <- (Ascii.ascii_nat_embedding b). by rewrite H.
Qed.

#[global] Instance text_separable : Separable text_ok text_bytes.
Proof.
  split. intros a b x y Ha Hb. unfold text_bytes. rewrite <- !app_assoc. intros [Hl Heq]%(separated encode_u64); [| done ..].
  apply app_inj_1 in Heq as [Hc ->]; [| unfold zlength in Hl; rewrite !length_fmap; lia]. split; [| done].
  apply list_fmap_eq_inj in Hc; [| intros ? ?; apply char_value_inj].
  rewrite <- (String.string_of_list_ascii_of_string a), <- (String.string_of_list_ascii_of_string b). by rewrite Hc.
Qed.

Definition option_bytes {V} (bytes : V -> list Z) (o : option V) : list Z :=
  encode_u64 (Z.b2z (has_value o)) ++ match o with Some v => bytes v | None => [] end.

Definition option_ok {V} (ok : V -> Prop) (o : option V) : Prop := match o with Some v => ok v | None => True end.

#[global] Instance option_separable {V} (ok : V -> Prop) bytes : Separable ok bytes -> Separable (option_ok ok) (option_bytes bytes).
Proof.
  intros Hs. split. intros a b x y Ha Hb. unfold option_bytes. rewrite <- !app_assoc.
  intros [Ht Heq]%(separated encode_u64); [| destruct a; vm_compute; split; congruence | destruct b; vm_compute; split; congruence].
  destruct a as [a |], b as [b |]; try done. apply (separated bytes) in Heq as [-> ->]; done.
Qed.

Fixpoint list_bytes {V} (bytes : V -> list Z) (l : list V) : list Z :=
  match l with [] => [] | v :: l => bytes v ++ list_bytes bytes l end.

Definition range_bytes {V} (bytes : V -> list Z) (l : list V) : list Z := encode_u64 (zlength l) ++ list_bytes bytes l.

Definition range_ok {V} (ok : V -> Prop) (l : list V) : Prop := u64 (zlength l) /\ Forall ok l.

#[global] Instance range_separable {V} (ok : V -> Prop) bytes : Separable ok bytes -> Separable (range_ok ok) (range_bytes bytes).
Proof.
  intros Hs. split. intros a b x y [Ua Ha] [Ub Hb]. unfold range_bytes. rewrite <- !app_assoc. intros [Hl Heq]%(separated encode_u64); [| done ..].
  unfold zlength in Hl. apply Nat2Z.inj in Hl. clear Ua Ub. revert b Hb Hl Heq. induction Ha as [| v a Hv Ha IH]; intros [| v' b] Hb Hl Heq; try done.
  apply Forall_cons in Hb as [Hv' Hb]. cbn [list_bytes] in Heq. rewrite <- !app_assoc in Heq. apply (separated bytes) in Heq as [-> Heq]; [| done ..].
  destruct (IH b Hb) as [-> ->]; [by injection Hl | done | done].
Qed.

(** ** The hash of an encoding *)

Lemma add_fnv h v : digest_add h v = fnv h (encode_u64 v).
Proof. apply hash_u64_fnv. Qed.

#[local] Opaque digest_add encode_u64.

Lemma text_fnv h s : digest_text h s = fnv h (text_bytes s).
Proof.
  unfold digest_text, text_bytes. rewrite fnv_app, <- add_fnv. generalize (digest_add h (zlength (String.list_ascii_of_string s))) as h'.
  induction (String.list_ascii_of_string s) as [| c l IH]; intros h'; [done |]. cbn [fold_left]. rewrite fmap_cons. by rewrite IH.
Qed.

Lemma option_fnv {V} (append : Z -> V -> Z) bytes h o : (forall h v, append h v = fnv h (bytes v)) ->
  digest_optional h o append = fnv h (option_bytes bytes o).
Proof. intros Hb. unfold digest_optional, option_bytes, digest_bool. rewrite fnv_app, <- add_fnv. destruct o as [v |]; [by rewrite Hb | reflexivity]. Qed.

Lemma list_fnv {V} (append : Z -> V -> Z) bytes l h : (forall h v, append h v = fnv h (bytes v)) -> fold_left append l h = fnv h (list_bytes bytes l).
Proof. intros Hb. revert h. induction l as [| v l IH]; intros h; [done |]. cbn [fold_left list_bytes]. by rewrite fnv_app, <- Hb, IH. Qed.

Lemma range_fnv {V} (append : Z -> V -> Z) bytes l h : (forall h v, append h v = fnv h (bytes v)) -> add_range h l append = fnv h (range_bytes bytes l).
Proof. intros Hb. unfold add_range, range_bytes. by rewrite fnv_app, <- add_fnv, (list_fnv append bytes). Qed.

(** ** The parts of an outcome *)

#[global] Instance simulationstatus_words : Words SimulationStatus_value.
Proof. split; [intros []; vm_compute; split; congruence | by intros [] []]. Qed.

#[global] Instance stopreason_words : Words StopReason_value.
Proof. split; [intros []; vm_compute; split; congruence | by intros [] []]. Qed.

#[global] Instance jobstate_words : Words JobState_value.
Proof. split; [intros []; vm_compute; split; congruence | by intros [] []]. Qed.

#[global] Instance phase_words : Words Phase_value.
Proof. split; [intros []; vm_compute; split; congruence | by intros [] []]. Qed.

#[global] Instance nodekind_words : Words NodeKind_value.
Proof. split; [intros []; vm_compute; split; congruence | by intros [] []]. Qed.

#[global] Instance linkdirection_words : Words LinkDirection_value.
Proof. split; [intros []; vm_compute; split; congruence | by intros [] []]. Qed.

#[global] Instance placementoutcome_words : Words PlacementOutcome_value.
Proof. split; [intros []; vm_compute; split; congruence | by intros [] []]. Qed.

(** Two encodings are equal field by field. *)
Ltac peel H :=
  rewrite <- ?app_assoc in H;
  repeat match type of H with
  | ?f ?a ++ _ = ?f ?b ++ _ => let E := fresh "E" in apply (separated f) in H as [E H]; [| first [done | assumption] ..]
  end.

Ltac fields_of H := rewrite ?Forall_cons in H; destruct_and? H.

(** From equal fields to equal records. *)
Ltac records a b := destruct a, b; cbn in *; subst.

(** Optional values, lists and texts are hashed as they are encoded. *)
Lemma option_word_fnv h o : digest_optional h o digest_add = fnv h (option_bytes encode_u64 o).
Proof. apply option_fnv, add_fnv. Qed.

Lemma option_text_fnv h o : digest_optional h o digest_text = fnv h (option_bytes text_bytes o).
Proof. apply option_fnv, text_fnv. Qed.

Lemma enum_fnv {V} (value : V -> Z) h v : digest_add h (value v) = fnv h (enum_bytes value v).
Proof. apply add_fnv. Qed.

Ltac hashed := rewrite !fnv_app; rewrite ?option_word_fnv, ?option_text_fnv, ?text_fnv; unfold enum_bytes; rewrite ?add_fnv; done.

Definition simulation_bytes (r : SimulationResult) : list Z :=
  enum_bytes SimulationStatus_value (res_status r) ++ option_bytes (enum_bytes StopReason_value) (res_stop_reason r) ++
  encode_u64 (res_final_time r) ++ encode_u64 (res_dispatched_events r) ++ encode_u64 (res_cancelled_events r) ++
  encode_u64 (res_pending_events r) ++ encode_u64 (res_rng_draw_count r) ++ option_bytes text_bytes (res_error r).

Definition simulation_ok (r : SimulationResult) : Prop :=
  Forall u64 [res_final_time r; res_dispatched_events r; res_cancelled_events r; res_pending_events r; res_rng_draw_count r] /\
  option_ok text_ok (res_error r).

(** All but the hash of the trace. *)
Definition untraced (r : SimulationResult) : SimulationResult := {| r with res_trace_hash := None |}.

Lemma simulation_fnv h r : add_simulation h r = fnv h (simulation_bytes r).
Proof.
  unfold add_simulation, simulation_bytes.
  rewrite (option_fnv (fun h v => digest_add h (StopReason_value v)) (enum_bytes StopReason_value)) by (intros; apply add_fnv). hashed.
Qed.

Lemma simulation_separated a b x y : simulation_ok a -> simulation_ok b -> simulation_bytes a ++ x = simulation_bytes b ++ y ->
  untraced a = untraced b /\ x = y.
Proof.
  intros [Ha Ta] [Hb Tb] H. unfold simulation_bytes in H. fields_of Ha. fields_of Hb.
  assert (forall o : option StopReason, option_ok (fun _ => True) o) as Ho by (by intros []).
  peel H; [apply Ho .. |]. split; [| done]. unfold untraced. by records a b.
Qed.

Definition job_bytes (j : JobSnapshot) : list Z :=
  encode_u64 (sn_id j) ++ enum_bytes JobState_value (sn_state j) ++ encode_u64 (sn_completed_steps j) ++
  encode_u64 (sn_arrival j) ++ option_bytes encode_u64 (sn_finished j) ++ encode_u64 (sn_compute_gpu_ns j) ++
  encode_u64 (sn_idle_gpu_ns j) ++ encode_u64 (sn_elapsed_ns j) ++ text_bytes (sn_reason j) ++
  option_bytes encode_u64 (sn_allocated_at j) ++ encode_u64 (sn_waiting_ns j).

Definition job_ok (j : JobSnapshot) : Prop :=
  Forall u64 [sn_id j; sn_completed_steps j; sn_arrival j; sn_compute_gpu_ns j; sn_idle_gpu_ns j; sn_elapsed_ns j; sn_waiting_ns j] /\
  option_ok u64 (sn_finished j) /\ text_ok (sn_reason j) /\ option_ok u64 (sn_allocated_at j).

Lemma job_fnv h j : add_job h j = fnv h (job_bytes j).
Proof. unfold add_job, job_bytes. hashed. Qed.

#[global] Instance job_separable : Separable job_ok job_bytes.
Proof. split. intros a b x y (Ha & ? & ? & ?) (Hb & ? & ? & ?) Heq. unfold job_bytes in Heq. fields_of Ha. fields_of Hb. peel Heq. split; [by records a b | done]. Qed.

Definition entry_bytes (e : JobTimeline) : list Z :=
  encode_u64 (jt_job e) ++ encode_u64 (jt_timestamp e) ++ enum_bytes JobState_value (jt_state e) ++ encode_u64 (jt_step e) ++
  encode_u64 (jt_bucket e) ++ text_bytes (jt_action e) ++ option_bytes encode_u64 (jt_collective e).

Definition entry_ok (e : JobTimeline) : Prop :=
  Forall u64 [jt_job e; jt_timestamp e; jt_step e; jt_bucket e] /\ text_ok (jt_action e) /\ option_ok u64 (jt_collective e).

Lemma entry_fnv h e : add_job_timeline h e = fnv h (entry_bytes e).
Proof. unfold add_job_timeline, entry_bytes. hashed. Qed.

#[global] Instance entry_separable : Separable entry_ok entry_bytes.
Proof. split. intros a b x y (Ha & ? & ?) (Hb & ? & ?) Heq. unfold entry_bytes in Heq. fields_of Ha. fields_of Hb. peel Heq. split; [by records a b | done]. Qed.

Definition collective_bytes (r : CollectiveResult) : list Z :=
  encode_u64 (cl_id r) ++ enum_bytes Phase_value (cl_outcome r) ++ encode_u64 (cl_started r) ++ encode_u64 (cl_finished r) ++
  encode_u64 (cl_planned_bytes r) ++ encode_u64 (cl_issued_fabric_bytes r) ++ encode_u64 (cl_issued_local_bytes r) ++
  encode_u64 (cl_delivered_bytes r) ++ text_bytes (cl_reason r).

Definition collective_ok (r : CollectiveResult) : Prop :=
  Forall u64 [cl_id r; cl_started r; cl_finished r; cl_planned_bytes r; cl_issued_fabric_bytes r; cl_issued_local_bytes r; cl_delivered_bytes r] /\
  text_ok (cl_reason r).

Lemma collective_fnv h r : add_collective h r = fnv h (collective_bytes r).
Proof. unfold add_collective, collective_bytes. hashed. Qed.

#[global] Instance collective_separable : Separable collective_ok collective_bytes.
Proof. split. intros a b x y [Ha ?] [Hb ?] Heq. unfold collective_bytes in Heq. fields_of Ha. fields_of Hb. peel Heq. split; [by records a b | done]. Qed.

Definition progress_bytes (e : CollectiveTimeline) : list Z :=
  encode_u64 (ct_id e) ++ encode_u64 (ct_timestamp e) ++ enum_bytes Phase_value (ct_phase e) ++ encode_u64 (ct_round e).

Definition progress_ok (e : CollectiveTimeline) : Prop :=
  Forall u64 [ct_id e; ct_timestamp e; ct_round e].

Lemma progress_fnv h e : add_collective_timeline h e = fnv h (progress_bytes e).
Proof. unfold add_collective_timeline, progress_bytes. hashed. Qed.

#[global] Instance progress_separable : Separable progress_ok progress_bytes.
Proof. split. intros a b x y Ha Hb Heq. unfold progress_ok in Ha, Hb. unfold progress_bytes in Heq. fields_of Ha. fields_of Hb. peel Heq. split; [by records a b | done]. Qed.

Definition node_bytes (n : NodeId) : list Z :=
  enum_bytes NodeKind_value (node_kind n) ++ encode_u64 (node_value n).

Definition node_ok (n : NodeId) : Prop :=
  Forall u64 [node_value n].

Lemma node_fnv h n : add_node h n = fnv h (node_bytes n).
Proof. unfold add_node, node_bytes. hashed. Qed.

#[global] Instance node_separable : Separable node_ok node_bytes.
Proof. split. intros a b x y Ha Hb Heq. unfold node_ok in Ha, Hb. unfold node_bytes in Heq. fields_of Ha. fields_of Hb. peel Heq. split; [by records a b | done]. Qed.

Definition hop_bytes (l : DirectedLinkId) : list Z :=
  encode_u64 (dl_link l) ++ enum_bytes LinkDirection_value (dl_direction l).

Definition hop_ok (l : DirectedLinkId) : Prop :=
  Forall u64 [dl_link l].

Lemma hop_fnv h l : add_hop h l = fnv h (hop_bytes l).
Proof. unfold add_hop, hop_bytes. hashed. Qed.

#[global] Instance hop_separable : Separable hop_ok hop_bytes.
Proof. split. intros a b x y Ha Hb Heq. unfold hop_ok in Ha, Hb. unfold hop_bytes in Heq. fields_of Ha. fields_of Hb. peel Heq. split; [by records a b | done]. Qed.

Definition route_bytes (d : RouteDecision) : list Z :=
  encode_u64 (rq_flow (rd_request d)) ++ node_bytes (ep_source (rq_endpoints (rd_request d))) ++
  node_bytes (ep_destination (rq_endpoints (rd_request d))) ++ encode_u64 (rq_bytes (rd_request d)) ++
  encode_u64 (rq_maximum_chunk_bytes (rd_request d)) ++ text_bytes (rd_policy d) ++ encode_u64 (rd_version d) ++
  encode_u64 (rd_timestamp d) ++ encode_u64 (rd_operational_revision d) ++ encode_u64 (rd_candidates d) ++
  range_bytes hop_bytes (rd_path d) ++ encode_u64 (rd_score d) ++ text_bytes (rd_reason d) ++
  option_bytes encode_u64 (rd_transfer d).

Definition route_ok (d : RouteDecision) : Prop :=
  Forall u64 [rq_flow (rd_request d); rq_bytes (rd_request d); rq_maximum_chunk_bytes (rd_request d); rd_version d; rd_timestamp d; rd_operational_revision d; rd_candidates d; rd_score d] /\
  node_ok (ep_source (rq_endpoints (rd_request d))) /\ node_ok (ep_destination (rq_endpoints (rd_request d))) /\
  text_ok (rd_policy d) /\ range_ok hop_ok (rd_path d) /\ text_ok (rd_reason d) /\ option_ok u64 (rd_transfer d).

Lemma route_fnv h d : add_route h d = fnv h (route_bytes d).
Proof. unfold add_route, route_bytes, range_bytes. rewrite (list_fnv add_hop hop_bytes) by apply hop_fnv. rewrite !node_fnv. hashed. Qed.

#[global] Instance route_separable : Separable route_ok route_bytes.
Proof. split. intros a b x y (Ha & ? & ? & ? & ? & ? & ?) (Hb & ? & ? & ? & ? & ? & ?) Heq. unfold route_bytes in Heq. fields_of Ha. fields_of Hb. peel Heq. split; [destruct a as [[? [? ?] ? ?] ? ? ? ? ? ? ? ? ?], b as [[? [? ?] ? ?] ? ? ? ? ? ? ? ? ?]; cbn in *; by subst | done]. Qed.

Definition placement_bytes (d : PlacementDecision) : list Z :=
  encode_u64 (dcn_job d) ++ encode_u64 (dcn_timestamp d) ++ text_bytes (dcn_policy d) ++ encode_u64 (dcn_version d) ++
  encode_u64 (dcn_priority d) ++ encode_u64 (dcn_requested_workers d) ++ enum_bytes PlacementOutcome_value (dcn_outcome d) ++
  range_bytes encode_u64 (dcn_workers d) ++ text_bytes (dcn_reason d) ++ encode_u64 (loc_racks (dcn_locality d)) ++
  encode_u64 (loc_nics (dcn_locality d)) ++ encode_u64 (loc_cross_rack_ring_edges (dcn_locality d)) ++
  encode_u64 (dcn_fragmentation_before d) ++ encode_u64 (dcn_fragmentation_after d).

Definition placement_ok (d : PlacementDecision) : Prop :=
  Forall u64 [dcn_job d; dcn_timestamp d; dcn_version d; dcn_priority d; dcn_requested_workers d; loc_racks (dcn_locality d); loc_nics (dcn_locality d); loc_cross_rack_ring_edges (dcn_locality d); dcn_fragmentation_before d; dcn_fragmentation_after d] /\
  text_ok (dcn_policy d) /\ range_ok u64 (dcn_workers d) /\ text_ok (dcn_reason d).

Lemma placement_fnv h d : add_placement h d = fnv h (placement_bytes d).
Proof. unfold add_placement, placement_bytes, range_bytes. rewrite (list_fnv digest_add encode_u64) by apply add_fnv. hashed. Qed.

#[global] Instance placement_separable : Separable placement_ok placement_bytes.
Proof. split. intros a b x y (Ha & ? & ? & ?) (Hb & ? & ? & ?) Heq. unfold placement_bytes in Heq. fields_of Ha. fields_of Hb. peel Heq. split; [destruct a as [? ? ? ? ? ? ? ? ? [? ? ?] ? ?], b as [? ? ? ? ? ? ? ? ? [? ? ?] ? ?]; cbn in *; by subst | done]. Qed.

(** ** Outcomes *)

Definition outcome_bytes (r : TrainingReport) : list Z :=
  simulation_bytes (rp_simulation r) ++ range_bytes job_bytes (rp_jobs r) ++ range_bytes entry_bytes (rp_timeline r) ++
  range_bytes collective_bytes (rp_collectives r) ++ range_bytes progress_bytes (rp_collective_timeline r) ++
  range_bytes route_bytes (rp_decisions r) ++ range_bytes placement_bytes (rp_placements r) ++ encode_u64 (rp_maximum_waiting_bytes r).

(** The numbers of a report are machine words. *)
Definition report_ok (r : TrainingReport) : Prop :=
  simulation_ok (rp_simulation r) /\ range_ok job_ok (rp_jobs r) /\ range_ok entry_ok (rp_timeline r) /\
  range_ok collective_ok (rp_collectives r) /\ range_ok progress_ok (rp_collective_timeline r) /\
  range_ok route_ok (rp_decisions r) /\ range_ok placement_ok (rp_placements r) /\ u64 (rp_maximum_waiting_bytes r).

(** A report without telemetry and the hash of the trace. *)
Definition same_outcome (a b : TrainingReport) : Prop :=
  untraced (rp_simulation a) = untraced (rp_simulation b) /\ rp_jobs a = rp_jobs b /\ rp_timeline a = rp_timeline b /\
  rp_collectives a = rp_collectives b /\ rp_collective_timeline a = rp_collective_timeline b /\ rp_decisions a = rp_decisions b /\
  rp_placements a = rp_placements b /\ rp_maximum_waiting_bytes a = rp_maximum_waiting_bytes b.

Lemma digest_fnv r : domain_outcome_digest r = fnv fnv_offset_basis (outcome_bytes r).
Proof.
  unfold domain_outcome_digest, outcome_bytes. rewrite !fnv_app, add_fnv, simulation_fnv.
  rewrite (range_fnv add_job job_bytes) by apply job_fnv. rewrite (range_fnv add_job_timeline entry_bytes) by apply entry_fnv.
  rewrite (range_fnv add_collective collective_bytes) by apply collective_fnv. rewrite (range_fnv add_collective_timeline progress_bytes) by apply progress_fnv.
  rewrite (range_fnv add_route route_bytes) by apply route_fnv. rewrite (range_fnv add_placement placement_bytes) by apply placement_fnv. done.
Qed.

Lemma untraced_bytes a b : untraced a = untraced b -> simulation_bytes a = simulation_bytes b.
Proof. destruct a, b. unfold untraced. cbn. by intros [= -> -> -> -> -> -> -> ->]. Qed.

(** C23: the digest of a report is one of its outcome.  It is the FNV-1a hash of a
    sequence of bytes that tells outcomes apart: two reports whose numbers are
    machine words have the same bytes precisely when they have the same result of
    the simulation, jobs, timelines, collectives, routes, placements and waiting
    bytes; the telemetry and the hash of the trace, which depend on the mode, do
    not enter it. *)
Theorem digest_unambiguous a b : report_ok a -> report_ok b ->
  domain_outcome_digest a = fnv fnv_offset_basis (outcome_bytes a) /\
  (outcome_bytes a = outcome_bytes b <-> same_outcome a b) /\
  (same_outcome a b -> domain_outcome_digest a = domain_outcome_digest b).
Proof.
  intros (A1 & A2 & A3 & A4 & A5 & A6 & A7 & A8) (B1 & B2 & B3 & B4 & B5 & B6 & B7 & B8). split; [apply digest_fnv |].
  assert (same_outcome a b -> outcome_bytes a = outcome_bytes b) as Hsame.
  { intros (E1 & E2 & E3 & E4 & E5 & E6 & E7 & E8). unfold outcome_bytes. by rewrite (untraced_bytes _ _ E1), E2, E3, E4, E5, E6, E7, E8. }
  split; [split; [| exact Hsame] | intros Hs; rewrite !digest_fnv; by rewrite Hsame]. intros H. rewrite <- (app_nil_r (outcome_bytes a)), <- (app_nil_r (outcome_bytes b)) in H.
  unfold outcome_bytes in H. rewrite <- !app_assoc in H. apply simulation_separated in H as [E1 H]; [| done ..]. peel H. done.
Qed.

(** ** The topology of a run *)

Lemma unrevised_collect {A B} (l : list A) (f : A -> GraphM B) : (forall x, unrevised (f x)) -> unrevised (collect l f).
Proof.
  intros Hf. induction l as [| x l IH]; [done |]. cbn [collect]. apply unrevised_bind; [apply Hf |]. intros b.
  apply unrevised_bind; [exact IH |]. intros bs. apply unrevised_ret.
Qed.

Lemma clos_graph config g : clos_words config -> generate_clos config = Ret g ->
  (exists ops, g = build ops) /\ operational_revision_ g = 0 /\ Z.of_nat (routing_nodes g) <= u64_max.
Proof.
  intros Hw. unfold generate_clos. destruct (clos_dimensions config) as [d | e] eqn:Hd; [| done].
  destruct (clos_dimensions_admits config d Hw Hd) as (leaves & nics & gpus & spines & Hl & Hn & Hg & Hs & Hf & ->).
  destruct (generate_leaf_spine_returns leaves nics gpus spines Hl Hn Hg Hs Hf) as (g' & Hrun & Hb). intros Hgen.
  assert (g' = g) as -> by (rewrite clos_dimensions_returns in Hd by done; injection Hd as <-; cbn in Hgen; congruence).
  split; [apply Hb | split].
  - unfold generate_leaf_spine, make_graph in Hrun. unfold bind at 1 in Hrun. rewrite validate_leaf_spine_returns in Hrun by done.
    match type of Hrun with (match ?m empty_graph with _ => _ end) = _ => assert (unrevised m) as Hu end.
    { apply unrevised_bind; [apply unrevised_collect; intros _; unfold add_leaf_rack; repeat unrevised_step |]. intros ls.
      apply unrevised_bind; [apply unrevised_collect; intros _; repeat unrevised_step |]. intros ss. repeat unrevised_step. }
    specialize (Hu empty_graph). match type of Hrun with (match ?x with _ => _ end) = _ => destruct x as [g1 [u | e]] end; [| done].
    injection Hrun as <-. exact Hu.
  - pose proof (built_nics _ _ Hb) as H1. pose proof (built_switches _ _ Hb) as H2. unfold routing_nodes.
    destruct (fabric_counts leaves nics gpus spines Hl Hn Hg Hs) as (_ & C1 & C2 & _). rewrite C1 in H1. rewrite C2 in H2. unfold zlength in *.
    unfold fabric_fits in Hf. nia.
Qed.

(** ** The program of a run *)

Definition baseline_registry (registry : outcome PolicyRegistry) : Prop :=
  match registry with
  | Ret r => forall name factory, r !! name = Some factory -> exists kind, factory = Some (BaselinePolicy name kind)
  | Throw _ => True
  end.

Lemma register_baseline_keeps kind name registry : baseline_registry registry -> baseline_registry (register_baseline kind name registry).
Proof.
  destruct registry as [r | e]; [| done]. intros Hr. unfold register_baseline, add_policy. destruct (_ || _); [done |].
  intros n factory. cbn. destruct (decide (n = name)) as [-> | Hne]; [rewrite lookup_insert_eq; intros [= <-]; by exists kind |].
  rewrite lookup_insert_ne by done. apply Hr.
Qed.

Lemma registry_baseline : baseline_registry new_policy_registry.
Proof. unfold new_policy_registry. do 4 apply register_baseline_keeps. intros name factory. by rewrite lookup_empty. Qed.

Lemma create_baseline registry name p : new_policy_registry = Ret registry -> create_policy name registry = Ret p -> policy_ok p.
Proof.
  intros Hr. pose proof registry_baseline as Hb. rewrite Hr in Hb. unfold create_policy. destruct (registry !! name) as [factory |] eqn:Hl; [| done].
  destruct (Hb _ _ Hl) as [kind ->]. destruct (_ || _); [done |]. intros [= <-]. apply baseline_policy_ok.
Qed.

Lemma new_router_policy g registry configuration sink r : new_router g registry configuration sink = Ret r ->
  create_policy (rcfg_policy configuration) registry = Ret (rt_policy_ r).
Proof.
  unfold new_router. destruct (create_policy _ _) as [p |]; [| done]. destruct (new_path_service _ _); [| done]. destruct (_ =? _); [done |].
  by intros [= <-].
Qed.

Record scenario_words (s : TrainingScenario) : Prop := {
  sw_gpus : u64 (scn_gpus s);
  sw_link : u64 (scn_bandwidth s) /\ u64 (scn_propagation s) /\ u64 (scn_buffer s);
  sw_jobs : Forall spec_words (scn_jobs s);
  sw_controls : Forall (fun c => u64 (jc_timestamp c)) (scn_controls s);
  sw_gpu_controls : Forall (fun c => u64 (gc_timestamp c)) (scn_gpu_controls s);
}.

Lemma add_services_nonzero configurations g rt rt' : add_services configurations g rt = Ret rt' ->
  Forall (fun c => cfg_bandwidth c <> 0) configurations.
Proof.
  revert rt. induction configurations as [| c configurations IH]; intros rt; [constructor |]. cbn [add_services].
  destruct (require_fabric_arc _ _); [| done]. destruct (services_ rt !! _); [done |].
  unfold new_link_service, new_link_queue, LinkQueue.validate_configuration. destruct (Z.eqb_spec (cfg_bandwidth c) 0); [done |].
  intros Hr. constructor; [done |]. destruct (match cfg_marking_threshold c with None => _ | Some _ => _ end); [by eapply IH | done].
Qed.

(** The links the transport accepted. *)
Lemma fabric_links_ok s g limits telemetry rt : scenario_words s ->
  new_transport_runtime g (fabric_links s g) limits telemetry = Ret rt -> Forall LinkQueue.configuration_ok (fabric_links s g).
Proof.
  intros Hs Hrt. assert (Forall (fun c => cfg_bandwidth c <> 0) (fabric_links s g)) as Hn.
  { revert Hrt. unfold new_transport_runtime. destruct (_ || _); [done | apply add_services_nonzero]. }
  pose proof (sw_link _ Hs) as (H2 & H3 & H4). rewrite Forall_forall in Hn. apply Forall_forall. intros c Hc. specialize (Hn c Hc). unfold fabric_links in Hc.
  apply list_elem_of_join in Hc as (l & Hc & (link & -> & _)%list_elem_of_fmap). case_bool_decide; [| by apply elem_of_nil in Hc].
  assert (forall a, scn_bandwidth s <> 0 ->
    LinkQueue.configuration_ok (mkDirectedLinkConfiguration a (scn_bandwidth s) (scn_propagation s) (scn_buffer s) None)) as Hok.
  { intros a Ha. unfold LinkQueue.configuration_ok. cbn. split_and!; [destruct H2; lia | done .. |]. by intros t [=]. }
  cbn in Hc. apply elem_of_cons in Hc as [-> | [-> | Hc%elem_of_nil]%elem_of_cons]; [by apply Hok .. | done].
Qed.

Lemma construct_reachable s links w : scenario_words s -> construct s = Ret (links, w) -> reachable_engine w [].
Proof.
  intros Hs. unfold construct, require. destruct (negb _); cbn [obind]; [| done].
  destruct (new_session _) as [session |]; cbn [obind]; [| done].
  destruct (generate_clos _) as [g |] eqn:Hg; cbn [obind]; [| done].
  destruct (new_transport_runtime _ _ _ _) as [rt |] eqn:Hrt; cbn [obind]; [| done].
  destruct new_policy_registry as [registry |] eqn:Hreg; cbn [obind]; [| done].
  destruct (new_router _ _ _ _) as [router |] eqn:Hro; cbn [obind]; [| done].
  destruct (new_ring_executor _ _) as [x |] eqn:Hx; cbn [obind]; [| done].
  destruct (new_workload_engine _ _ _ _ _) as [en |] eqn:Hen; cbn [obind]; [| done]. intros [= <- <-].
  assert (clos_words (mkClosConfig (scn_gpus s) 8 8 8)) as Hw by (split; [apply (sw_gpus _ Hs) | repeat split; vm_compute; congruence]).
  destruct (clos_graph _ g Hw Hg) as ((ops & Hops) & Hrev & Hnodes).
  constructor. exists ops, default_workload_limits, (scn_scheduling s), None, true, en. eexists.
  split; [by rewrite <- Hops | split; [| repeat (split; [unfold u32, u64, u32_max, u64_max; cbn; lia |]); apply rtc_refl]].
  split; [exists [] | by apply (new_owns g (fabric_links s g) default_transport_limits true)].
  apply (new_executor_ok (scn_local s) true); [done |]. split; [exists [] | apply new_kernel_ok].
  enough (routed_ok (mkRouted router (mkTransport rt g (mkKernel (new_simulation (scn_seed s) (trace_mode s) true) session)), [])) as [Hok _] by exact Hok.
  apply (new_router_ok g rt registry (scenario_routing s) true).
  - rewrite Hops. apply build_ok.
  - rewrite Hrev. split; vm_compute; congruence.
  - done.
  - unfold path_limits_words, u64, u64_max. cbn. lia.
  - unfold u64, u64_max. cbn. lia.
  - apply (new_transport_runtime_ok g (fabric_links s g) default_transport_limits true); [by eapply fabric_links_ok | | | | done]; unfold u64, u64_max; cbn; lia.
  - done.
  - apply new_router_policy in Hro. by eapply create_baseline.
Qed.

(** Scheduling is a sequence of steps of the engine. *)
Lemma for_each_reachable {A} (l : list A) (f : A -> M Run.Program unit) w w' :
  (forall a w w', a ∈ l -> reachable_engine w [] -> f a w = (w', Ret tt) -> reachable_engine w' []) ->
  reachable_engine w [] -> for_each l f w = (w', Ret tt) -> reachable_engine w' [].
Proof.
  revert w. induction l as [| a l IH]; intros w Hf Hw; [by intros [= <-] |]. cbn [for_each]. unfold bind.
  destruct (f a w) as [w1 [[] | e]] eqn:Hr; [| done]. apply IH; [intros; eapply Hf; try done; by right |].
  eapply Hf; [by left | exact Hw | exact Hr].
Qed.

Lemma schedule_reachable s w w' : scenario_words s -> reachable_engine w [] -> schedule_scenario s w = (w', Ret tt) -> reachable_engine w' [].
Proof.
  intros Hs Hw. unfold schedule_scenario, bind at 1.
  destruct (for_each (scn_jobs s) _ w) as [w1 [[] | e]] eqn:H1; [| done]. apply for_each_reachable in H1; [| | done].
  2: { intros spec w0 w2 Hin Hw0. unfold bind. destruct (schedule_job spec w0) as [w3 [id | e]] eqn:Hr; [| done]. intros [= <-].
       eapply reachable_engine_step; [exact Hw0 |]. eapply engine_step_schedule; [| exact Hr]. pose proof (sw_jobs _ Hs) as Hj. rewrite Forall_forall in Hj. by apply Hj. }
  unfold bind at 1. destruct (for_each (scn_controls s) _ w1) as [w2 [[] | e]] eqn:H2; [| done]. apply for_each_reachable in H2; [| | done].
  2: { intros c w0 w3 Hin Hw0. unfold bind. destruct (schedule_control _ _ _ _ w0) as [w4 [id | e]] eqn:Hr; [| done]. intros [= <-].
       eapply reachable_engine_step; [exact Hw0 |]. eapply engine_step_control; [| exact Hr]. pose proof (sw_controls _ Hs) as Hj. rewrite Forall_forall in Hj. by apply Hj. }
  intros H3. apply for_each_reachable in H3; [done | | done].
  intros c w0 w3 Hin Hw0. unfold bind. destruct (schedule_gpu_state _ _ _ w0) as [w4 [id | e]] eqn:Hr; [| done]. intros [= <-].
  eapply reachable_engine_step; [exact Hw0 |]. eapply engine_step_gpu_control; [| exact Hr]. pose proof (sw_gpu_controls _ Hs) as Hj. rewrite Forall_forall in Hj. by apply Hj.
Qed.

(** ** The report *)

Lemma inspect_state r now s : inspect r now = Ret s -> sn_id s = jb_id r /\ sn_state s = jb_state r.
Proof.
  unfold inspect. destruct (_ <? _); [by intros [= <-] |]. destruct (if _ && _ then _ else _); [| done].
  destruct (match jb_allocated_at r with Some _ => _ | None => _ end); [| done]. destruct (_ >? _); [done |]. by intros [= <-].
Qed.

(** The waiting jobs from an identifier on. *)
Lemma append_waiting_spec n id now en l : (forall j r, en_jobs_ en !! j = Some r -> jb_id r = j) -> append_waiting_from n id now en = Ret l ->
  NoDup (sn_id <$> l) /\
  (forall s, s ∈ l -> id <= sn_id s < id + Z.of_nat n /\ sn_state s = JobState_Waiting /\
     exists r, en_jobs_ en !! sn_id s = Some r /\ terminal (jb_state r) = false) /\
  (forall j, id <= j < id + Z.of_nat n -> exists r, en_jobs_ en !! j = Some r /\ (terminal (jb_state r) = true \/ j ∈ (sn_id <$> l))).
Proof.
  intros Hids. revert id l. induction n as [| n IH]; intros id l; cbn [append_waiting_from].
  - intros [= <-]. split; [constructor | split; [intros s Hs; by inversion Hs | lia]].
  - unfold job_snapshot. destruct (en_jobs_ en !! id) as [r |] eqn:Hr; cbn [obind]; [| done].
    destruct (inspect r now) as [s | e] eqn:Hin; cbn [obind]; [| done]. destruct (inspect_state r now s Hin) as [Hid Hst]. rewrite (Hids id r Hr) in Hid.
    destruct (terminal (sn_state s)) eqn:Hter.
    + intros Hl. destruct (IH (id + 1) l Hl) as (H1 & H2 & H3). split; [done | split].
      * intros s' Hs'. destruct (H2 s' Hs') as (Hb & ?). split; [lia | done].
      * intros j Hj. destruct (decide (j = id)) as [-> | Hne]; [exists r; split; [done | left; congruence] | apply H3; lia].
    + unfold require. case_bool_decide as Hw; cbn [obind]; [| done]. destruct (append_waiting_from n (id + 1) now en) as [l' |] eqn:Hl; cbn [obind]; [| done].
      intros [= <-]. destruct (IH (id + 1) l' Hl) as (H1 & H2 & H3). rewrite fmap_cons. split; [| split].
      * apply NoDup_cons. split; [| done]. intros (s' & Heq & Hs')%list_elem_of_fmap. destruct (H2 s' Hs') as (Hb & _). lia.
      * intros s' [-> | Hs']%elem_of_cons; [rewrite Hid; split; [lia | split; [done |]]; exists r; split; [done | congruence] |].
        destruct (H2 s' Hs') as (Hb & ?). split; [lia | done].
      * intros j Hj. destruct (decide (j = id)) as [-> | Hne]; [exists r; split; [done | right; rewrite Hid; by left] |].
        destruct (H3 j) as (r' & ? & [? | ?]); [lia | exists r'; eauto | exists r'; split; [done | right; by right]].
Qed.

(** Every collective, in order, with its final result. *)
Lemma completed_collectives_spec (x : RingExecutor) fuel id l : dense (rx_records_ x) ->
  (forall c r, rx_records_ x !! c = Some r -> cl_id (co_result r) = c /\ CollectiveLaws.settled r) ->
  0 <= id <= Z.of_nat (size (rx_records_ x)) -> completed_collectives fuel id x = Ret l ->
  cl_id <$> l = seqZ id (Z.of_nat (size (rx_records_ x)) - id) /\
  (forall res, res ∈ l -> cl_outcome res = Phase_Succeeded -> cl_delivered_bytes res = cl_planned_bytes res).
Proof.
  intros Hd Hres. revert id l. induction fuel as [| n IH]; intros id l Hid; cbn [completed_collectives]; unfold ring_snapshot;
    (destruct (rx_records_ x !! id) as [r |] eqn:Hr;
     [assert (0 <= id < Z.of_nat (size (rx_records_ x))) as Hlt by (apply Hd; eauto); destruct (co_finished r) eqn:Hf; cbn [cp_completion]; [| done]
     | intros [= <-]; assert (~ is_Some (rx_records_ x !! id)) as Hn by (rewrite Hr; by intros [? ?]); rewrite (Hd id) in Hn;
       rewrite seqZ_nil by lia; split; [done | intros res Hin; by inversion Hin]]); [done |].
  destruct (completed_collectives n (id + 1) x) as [l' |] eqn:Hl; cbn [obind]; [| done]. intros [= <-]. destruct (IH (id + 1) l') as [H1 H2]; [lia | done |].
  destruct (Hres id r Hr) as [Hci Hset]. unfold CollectiveLaws.settled in Hset. rewrite Hf in Hset. destruct Hset as (_ & _ & Ho & Hdel). split.
  - rewrite fmap_cons, H1, Hci. rewrite (seqZ_cons id) by lia. f_equal. f_equal; lia.
  - intros res [-> | Hin]%elem_of_cons; [| by apply H2]. intros Hs. unfold delivered, planned in Hdel. apply Hdel. congruence.
Qed.

Lemma run_loop_more fuel fuel' (w : Run.Program) r : (fuel <= fuel')%nat ->
  run_loop program_kernel set_program_kernel training_dispatcher fuel w = Some r ->
  run_loop program_kernel set_program_kernel training_dispatcher fuel' w = Some r.
Proof.
  revert fuel' w. induction fuel as [| n IH]; intros [| n'] w Hle; try done; [lia |]. cbn [run_loop].
  destruct (run_step _ _ _ w) as [w1 [[res |] | e]]; [done | | done]. apply IH. lia.
Qed.

Lemma program_run_more fuel fuel' (w : Run.Program) r : (fuel <= fuel')%nat -> program_run fuel w = Some r -> program_run fuel' w = Some r.
Proof.
  intros Hle. unfold program_run, run. destruct (on_kernel _ _ begin_run w) as [w0 [u | e]]; [| done].
  destruct (on_kernel _ _ (emit_simulation_observation _ _ _) w0) as [w1 [u1 | e]]; [| done].
  destruct (run_loop _ _ _ fuel w1) as [r1 |] eqn:Hr; [| done]. by rewrite (run_loop_more fuel fuel' w1 r1 Hle Hr).
Qed.

Lemma finalize_closes t s s' : finalize t s = (s', Ret tt) -> ss_is_finalized s' = true.
Proof.
  unfold finalize. rewrite run_gets, !run_throw_if. destruct (ss_is_finalized s); [done |]. destruct (_ && _); [done |].
  unfold bind at 1. destruct (emit_samples_until t true s) as [s1 [[] | e]]; [| done]. rewrite run_gets. unfold bind, modify.
  destruct (when _ _ s1) as [s2 [[] | e]]; [| done]. by intros [= <-].
Qed.

Lemma run_take_completed (w : Run.Program) :
  take_completed_jobs w = (mkTraining {| (tn_engine w) with en_completed_ := [] |} (tn_cluster w), Ret (en_completed_ (tn_engine w))).
Proof. by destruct w. Qed.

Lemma run_take_decisions (w : Run.Program) :
  let ro := rg_fabric (tn_cluster w) in
  on_router take_decisions w =
    (mkTraining (tn_engine w) (mkRing (rg_executor (tn_cluster w)) (mkRouted {| (ro_router ro) with rt_decisions_ := [] |} (ro_transport ro))),
     Ret (rt_decisions_ (ro_router ro))).
Proof. by destruct w as [en [x [r t]]]. Qed.

(** What a report that is made says, for a program in a reachable state. *)
Lemma make_report_spec s links result w w' report : make_report s links result w = (w', Ret report) ->
  exists waiting, res_status result = SimulationStatus_Completed /\ rp_simulation report = result /\
    rp_jobs report = en_completed_ (tn_engine w) ++ waiting /\
    append_waiting_jobs (zlength (scn_jobs s)) (res_final_time result) {| (tn_engine w) with en_completed_ := [] |} = Ret waiting /\
    completed_collectives (size (rx_records_ (rg_executor (tn_cluster w)))) 0 (rg_executor (tn_cluster w)) = Ret (rp_collectives report) /\
    ts_finalized (rp_telemetry report) = true.
Proof.
  unfold make_report. unfold bind at 1, on_session, zoom.
  destruct (finalize (res_final_time result) (program_session w)) as [t [[] | e]] eqn:Hfin; [| done]. apply finalize_closes in Hfin.
  destruct w as [en [x [ro [rt g k]]]].
  rewrite (run_bind_Ret _ _ _ _ _ (run_take_completed _)).
  rewrite (run_bind_Ret _ _ _ _ _ (run_take_decisions _)).
  rewrite run_gets, run_throw_if. case_bool_decide as Hst; cbn [negb]; [| done]. rewrite run_gets, run_of_outcome.
  destruct (append_waiting_jobs _ _ _) as [waiting |] eqn:Hwait; [| done]. rewrite run_of_outcome.
  destruct (completed_collectives _ _ _) as [collectives |] eqn:Hcol; [| done]. rewrite run_of_outcome.
  destruct (maximum_waiting _ _ _) as [maximum |]; [| done]. intros [= _ <-]. exists waiting. cbn. split_and!; try done.
Qed.

(** The jobs of a report: those that ended and those that wait. *)
Lemma report_jobs n now (w : Run.Program) waiting : engine_ok [] w ->
  append_waiting_jobs n now {| (tn_engine w) with en_completed_ := [] |} = Ret waiting ->
  let jobs := en_completed_ (tn_engine w) ++ waiting in
  NoDup (sn_id <$> jobs) /\ (forall id, 0 <= id < n -> id ∈ (sn_id <$> jobs)) /\ (forall s, s ∈ jobs -> terminal (sn_state s) = true \/ sn_state s = JobState_Waiting).
Proof.
  intros Hw Hwait jobs. pose proof (eo_tables _ _ Hw) as Ht. unfold engine_tables in Ht. cbn [app] in Ht.
  pose proof (tb_log_ids _ _ _ _ _ _ Ht) as Hnd. pose proof (tb_log _ _ _ _ _ _ Ht) as Hlog.
  apply append_waiting_spec in Hwait as (H1 & H2 & H3); [| exact (tb_ids _ _ _ _ _ _ Ht)]. unfold jobs. rewrite fmap_app. split; [| split].
  - apply NoDup_app. split; [done | split; [| done]]. intros id (s & -> & Hs)%list_elem_of_fmap (s' & Heq & Hs')%list_elem_of_fmap.
    apply Hlog in Hs as (r & Hr & Hrep). destruct (H2 s' Hs') as (_ & _ & r' & Hr' & Hter). rewrite <- Heq in Hr'. cbn in Hr'.
    unfold report in Hrep. assert (r' = r) as -> by congruence. by rewrite Hter in Hrep.
  - intros id Hid. destruct (H3 id) as (r & Hr & Hcase); [lia |]. apply elem_of_app. destruct Hcase as [Hter | Hin]; [left | by right].
    destruct (ended_reported w [] id r Hw Hr Hter) as (s & Hs & <-). by apply list_elem_of_fmap_2.
  - intros s [Hs | Hs]%elem_of_app; [left | right; by apply H2]. apply Hlog in Hs as (r & Hr & Hrep). unfold report in Hrep.
    destruct (terminal (jb_state r)) eqn:Hter; [| done]. injection Hrep as Hrep. apply inspect_state in Hrep as [_ ->]. done.
Qed.

(** The collectives of a report: all of them, in order. *)
Lemma report_collectives (w : Run.Program) l : engine_ok [] w ->
  completed_collectives (size (rx_records_ (rg_executor (tn_cluster w)))) 0 (rg_executor (tn_cluster w)) = Ret l ->
  cl_id <$> l = seqZ 0 (zlength l) /\ (forall res, res ∈ l -> cl_outcome res = Phase_Succeeded -> cl_delivered_bytes res = cl_planned_bytes res).
Proof.
  intros Hw Hl. destruct (eo_cluster _ _ Hw) as [[taken Hx] _]. pose proof (CollectiveSteps.eo_tables _ _ Hx) as Ht. cbv zeta in Ht.
  apply completed_collectives_spec in Hl as [H1 H2]; [| exact (CollectiveLaws.tb_dense _ _ _ _ _ Ht) | | lia].
  - split; [| done]. rewrite H1. f_equal. apply (f_equal length) in H1. rewrite length_fmap, length_seqZ in H1. unfold zlength. lia.
  - intros c r Hr. split; [exact (bk_id _ _ _ _ (CollectiveLaws.tb_books _ _ _ _ _ Ht c r Hr)) | exact (CollectiveSteps.eo_settled _ _ Hx c r Hr)].
Qed.


(** ** Witnesses *)

(** Two jobs of a cluster of 64 GPUs that name the same GPU, so that the second
    is refused; the workers of the first are in different
    leaves, so that its collectives cross the fabric. *)
Definition apart_job : JobSpec := {| pair_job with js_workers := [0; 9] |}.

Definition demo_scenario : TrainingScenario :=
  mkTrainingScenario 64 42 "ecmp" 100000000000 500 262144 default_collective_configuration [apart_job; rival_job] [] None []
    (mkTelemetryConfiguration TelemetryMode_Full 1000 default_limits).

Definition empty_snapshot : TelemetrySnapshot :=
  mkTelemetrySnapshot (mkTelemetryConfiguration TelemetryMode_Off 0 default_limits) [] [] [] [] 0 false.

Definition failed_report : TrainingReport :=
  mkTrainingReport (mkSimulationResult SimulationStatus_Failed None 0 0 0 0 0 None None) [] [] [] [] [] 0 [] empty_snapshot.

Definition report_of (o : option (outcome TrainingReport)) : TrainingReport :=
  match o with Some (Ret report) => report | _ => failed_report end.

Definition reported_run (o : option (outcome TrainingReport)) : bool := match o with Some (Ret _) => true | _ => false end.

Definition demo_report : TrainingReport := report_of (run_training 400 demo_scenario).

Lemma demo_report_made : run_training 400 demo_scenario = Some (Ret demo_report).
Proof.
  assert (reported_run (run_training 400 demo_scenario) = true) as Hr by (vm_compute; reflexivity).
  unfold demo_report. revert Hr. generalize (run_training 400 demo_scenario). by intros [[r | e] |].
Qed.

Lemma demo_scenario_words : scenario_words demo_scenario.
Proof.
  split; [by vm_compute | repeat split; vm_compute; congruence | | by constructor | by constructor].
  apply Forall_cons. split; [words |]. apply Forall_cons. split; [words | constructor].
Qed.


(** Reports of two jobs with the same texts one after the other, divided
    differently. *)
Definition two_jobs (first second : string) : TrainingReport :=
  mkTrainingReport (mkSimulationResult SimulationStatus_Completed None 9 4 0 0 0 None None)
    [mkJobSnapshot 0 JobState_Failed 0 5 (Some 9) 0 0 4 first None 0; mkJobSnapshot 1 JobState_Failed 0 5 (Some 9) 0 0 4 second None 0]
    [mkJobTimeline 0 9 JobState_Failed 0 0 "failed" None] [] []
    [mkRouteDecision (mkRouteRequest 3 (mkEndpoints (nic_node 0) (nic_node 1)) 8 8) "ecmp" 1 6 0 1
       [mkDirectedLinkId 4 AToB] 0 "hash" (Some 2)] 0 [] empty_snapshot.

Lemma digest_unambiguous_witness :
  outcome_bytes (two_jobs "ab" "c") <> outcome_bytes (two_jobs "a" "bc") /\
  domain_outcome_digest (two_jobs "ab" "c") = fnv fnv_offset_basis (outcome_bytes (two_jobs "ab" "c")) /\
  domain_outcome_digest (two_jobs "ab" "c") <> domain_outcome_digest (two_jobs "a" "bc").
Proof.
  destruct (digest_unambiguous (two_jobs "ab" "c") (two_jobs "a" "bc")) as (Hd & [Hb _] & _).
  1,2: split_and!; repeat (split || apply Forall_cons_2 || apply Forall_nil_2); vm_compute; congruence.
  split; [intros H; apply Hb in H as (_ & [=] & _) | split; [exact Hd | vm_compute; congruence]].
Defined.
