(* ===== verification/Scenario.v ===== *)
(** * Training scenarios

    Models [workload/scenario.cpp]: the synthetic profiles and the reading of a
    scenario from a YAML document, with the checks it makes.  An undefined node is
    [None]; the library throws when its kind or value is asked for. *)

From S2P Require Import Prelude SimTime Entities TelemetryRecords TelemetryMetrics TelemetryRecorder Trace.
From S2P Require Import CollectivePlan CollectiveRuntime Scheduling Workload WorkloadAdmission Yaml Run RunTheorems.
From stdpp Require Import pretty list sets gmap.
#[local] Open Scope Z_scope.
#[local] Open Scope nexus_scope.

(** ** Profiles *)

Record Profile : Type := mkProfile {
  pf_name : string;
  pf_assumption : string;
  pf_steps : Z;
  pf_compute : SimDurationNs;
  pf_gradient : ByteCount;
  pf_bucket : ByteCount;
}.

Definition profiles : list Profile :=
  [mkProfile "small-data-parallel" "synthetic short compute and small gradient" 3 10000 65536 65536;
   mkProfile "large-llm" "synthetic large gradient; no parameter or optimizer memory model" 10 100000000 67108864 8388608;
   mkProfile "communication-heavy" "synthetic short compute with large collective" 3 1000 1048576 262144;
   mkProfile "compute-heavy" "synthetic long compute with small collective" 3 1000000 65536 65536;
   mkProfile "bursty-moe" "arrival/compute bursts only; no expert dispatch or AllToAll model" 3 5000 262144 65536;
   mkProfile "checkpoint-heavy" "large synchronization volume proxy; no storage/checkpoint engine" 3 100000 4194304 1048576;
   mkProfile "inference-burst" "small compute/synchronization proxy; no autoregressive token model" 3 1000 4096 4096].

(** [std::find_if] over the profiles. *)
Definition find_profile (name : string) : option Profile :=
  List.find (fun candidate => bool_decide (pf_name candidate = name)) profiles.

(** ** [std::from_chars] for an unsigned decimal number *)

Definition is_digit (c : Ascii.ascii) : bool := (48 <=? char_value c) && (char_value c <=? 57).

(** The longest prefix of digits, its value and what follows. *)
Fixpoint read_digits (text : list Ascii.ascii) (value : Z) : Z * list Ascii.ascii :=
  match text with
  | c :: rest => if is_digit c then read_digits rest (10 * value + (char_value c - 48)) else (value, text)
  | [] => (value, [])
  end.

(** No value without a digit, nor one that does not fit. *)
Definition from_chars (text : list Ascii.ascii) : option Z * list Ascii.ascii :=
  let '(value, rest) := read_digits text 0 in
  (if bool_decide (rest = text) || (value >? u64_max) then None else Some value, rest).

(** ** Reading nodes *)

Section Reading.
Context `{Yaml}.

Definition defined (node : option yaml_node) : outcome yaml_node :=
  match node with Some n => Ret n | None => Throw (runtime_error "invalid node") end.

Fixpoint check_keys (entries : list yaml_node) (allowed : list string) (seen : gset string) : outcome unit :=
  match entries with
  | [] => Ret tt
  | entry :: rest =>
      try! key := as_string entry in
      try! _ := require (negb (negb (bool_decide (key ∈ allowed)) || bool_decide (key ∈ seen)))
                  (invalid_argument ("unknown or duplicate scenario key: " +:+ key)) in
      check_keys rest allowed ({[key]} ∪ seen)
  end.

Definition keys (node : yaml_node) (allowed : list string) : outcome unit :=
  try! _ := require (is_map node) (invalid_argument "scenario requires mapping") in
  check_keys (node_keys node) allowed ∅.

Definition number (node : option yaml_node) : outcome Z :=
  try! n := defined node in
  try! _ := require (is_scalar n) (invalid_argument "scenario quantity must be scalar integer") in
  let text := String.list_ascii_of_string (scalar_text n) in
  try! _ := require (negb (zlength text >? 20)) (invalid_argument "scenario integer exceeds 20 digits") in
  match from_chars text with
  | (Some value, []) => Ret value
  | _ => Throw (invalid_argument "invalid scenario integer")
  end.

Definition value (node : yaml_node) (key : string) (fallback : Z) : outcome Z :=
  match node_field node key with Some n => number (Some n) | None => Ret fallback end.

Definition narrow (number_value : Z) : outcome Z :=
  if number_value >? u32_max then Throw (invalid_argument "scenario integer exceeds uint32 range") else Ret (u32_wrap number_value).

(** [std::size_t] has 64 bits. *)
Definition narrow_size (number_value : Z) : outcome Z :=
  if number_value >? u64_max then Throw (invalid_argument "scenario integer exceeds size range") else Ret (u64_wrap number_value).

Definition text_of (node : option yaml_node) : outcome string := try! n := defined node in as_string n.

(** ** Telemetry *)

Definition default_telemetry : TelemetryConfiguration := mkTelemetryConfiguration TelemetryMode_Summary 1000000 default_limits.

Definition has_field (node : yaml_node) (key : string) : bool := has_value (node_field node key).

Definition limit (limits : yaml_node) (key : string) (fallback : Z) : outcome Z :=
  try! v := value limits key fallback in narrow_size v.

Definition read_limits (mode : TelemetryMode) (limits : yaml_node) : outcome TelemetryLimits :=
  try! _ := keys limits ["metric_series"; "decision_records"; "domain_records"; "samples";
                         "histogram_boundaries"; "correlation_edges"; "serialized_bytes"]%string in
  try! _ := require (negb (bool_decide (mode = TelemetryMode_Summary) &&
                           (has_field limits "decision_records" || has_field limits "domain_records" ||
                            has_field limits "samples" || has_field limits "correlation_edges")))
              (invalid_argument "summary telemetry accepts only summary limits") in
  try! _ := require (negb (bool_decide (mode = TelemetryMode_Sampled) && has_field limits "domain_records"))
              (invalid_argument "sampled telemetry does not retain domain records") in
  try! metric_series := limit limits "metric_series" (tl_metric_series default_limits) in
  try! decision_records := limit limits "decision_records" (tl_decision_records default_limits) in
  try! domain_records := limit limits "domain_records" (tl_domain_records default_limits) in
  try! samples := limit limits "samples" (tl_samples default_limits) in
  try! histogram_boundaries := limit limits "histogram_boundaries" (tl_histogram_boundaries default_limits) in
  try! correlation_edges := limit limits "correlation_edges" (tl_correlation_edges default_limits) in
  try! serialized_bytes := value limits "serialized_bytes" (tl_serialized_bytes default_limits) in
  Ret (mkTelemetryLimits metric_series decision_records domain_records samples histogram_boundaries correlation_edges serialized_bytes).

(** [!node["mode"] || !node["mode"].IsScalar()] *)
Definition scalar_field (node : yaml_node) (key : string) (e : exn) : outcome yaml_node :=
  match node_field node key with
  | Some n => try! _ := require (is_scalar n) e in Ret n
  | None => Throw e
  end.

Definition read_telemetry (node : option yaml_node) : outcome TelemetryConfiguration :=
  match node with
  | None => Ret default_telemetry
  | Some node =>
      try! _ := keys node ["mode"; "sample_interval_ns"; "limits"]%string in
      try! mode_node := scalar_field node "mode" (invalid_argument "telemetry mode must be a scalar") in
      try! mode := parse_mode (scalar_text mode_node) in
      let limits := node_field node "limits" in
      try! _ := require (negb (bool_decide (mode = TelemetryMode_Off) && (has_field node "sample_interval_ns" || has_value limits)))
                  (invalid_argument "off telemetry accepts only its mode") in
      try! _ := require (negb (bool_decide (mode = TelemetryMode_Summary) && has_field node "sample_interval_ns"))
                  (invalid_argument "summary telemetry does not sample") in
      try! interval := value node "sample_interval_ns" (tc_sample_interval_ns default_telemetry) in
      try! limits := match limits with Some l => read_limits mode l | None => Ret default_limits end in
      let result := mkTelemetryConfiguration mode interval limits in
      try! _ := TelemetryMetrics.validate_configuration result in
      Ret result
  end.

(** ** Jobs *)

(** [compute.IsSequence() ? compute[index] : compute] *)
Definition duration_node (compute : yaml_node) (index : nat) : option yaml_node :=
  if is_sequence compute then node_items compute !! index else Some compute.

(** The loop over the workers from [index] on; [count] are left. *)
Fixpoint read_compute_from (count index : nat) (pinned : option yaml_node) (compute : option yaml_node) (default_compute : SimDurationNs)
    : outcome (list GpuId * list SimDurationNs) :=
  match count with
  | O => Ret ([], [])
  | S n =>
      try! worker := match pinned with
                     | Some workers => try! w := number (node_items workers !! index) in Ret [w]
                     | None => Ret []
                     end in
      try! duration := match compute with None => Ret default_compute | Some c => number (duration_node c index) end in
      try! rest := read_compute_from n (S index) pinned compute default_compute in
      Ret (worker ++ fst rest, duration :: snd rest)
  end.

Definition read_compute (node : yaml_node) (requested : Z) (default_compute : SimDurationNs) : outcome (list GpuId * list SimDurationNs) :=
  let compute := node_field node "compute_ns" in
  try! pinned := if requested =? 0 then try! w := defined (node_field node "workers") in Ret (Some w) else Ret None in
  let count := match pinned with Some workers => zlength (node_items workers) | None => requested end in
  try! _ := require (negb (match compute with Some c => is_sequence c && negb (zlength (node_items c) =? count) | None => false end))
              (invalid_argument "compute durations must match workers") in
  read_compute_from (Z.to_nat count) 0 pinned compute default_compute.

(** The third part asks the node for its kind. *)
Definition invalid_worker_list (node : yaml_node) (requested : Z) : outcome bool :=
  let workers := node_field node "workers" in
  if (has_field node "requested_workers" && (has_value workers || (requested =? 0))) || (requested >? 8192) then Ret true else
  if requested =? 0 then
    try! w := defined workers in
    Ret (negb (is_sequence w) || (zlength (node_items w) =? 0) || (zlength (node_items w) >? 8192))
  else Ret false.

(** A field that is there and reads as another text. *)
Definition other_text (node : yaml_node) (key expected : string) : outcome bool :=
  match node_field node key with
  | Some n => try! t := as_string n in Ret (negb (bool_decide (t = expected)))
  | None => Ret false
  end.

Definition optional_text (node : yaml_node) (key fallback : string) : outcome string :=
  match node_field node key with Some n => as_string n | None => Ret fallback end.

Definition read_overlap (node : yaml_node) : outcome bool :=
  match node_field node "overlap" with
  | None => Ret false
  | Some n =>
      try! flag := as_string n in
      try! _ := require (bool_decide (flag = "true"%string) || bool_decide (flag = "false"%string))
                  (invalid_argument "overlap must be true or false") in
      Ret (bool_decide (flag = "true"%string))
  end.

Definition job (node : yaml_node) : outcome JobSpec :=
  try! _ := keys node ["name"; "profile"; "workers"; "requested_workers"; "arrival_ns"; "steps"; "compute_ns"; "gradient_bytes";
                       "bucket_bytes"; "chunk_bytes"; "priority"; "overlap"; "collective"; "algorithm"]%string in
  try! name := optional_text node "profile" "small-data-parallel" in
  match find_profile name with
  | None => Throw (invalid_argument "unknown synthetic workload profile")
  | Some found =>
      try! bad_collective := other_text node "collective" "allreduce" in
      try! unsupported := (if bad_collective then Ret true else other_text node "algorithm" "ring") in
      try! _ := require (negb unsupported) (invalid_argument "unsupported collective or algorithm") in
      try! requested := value node "requested_workers" 0 in
      try! bad := invalid_worker_list node requested in
      try! _ := require (negb bad) (invalid_argument "invalid worker list") in
      try! requested_workers := narrow requested in
      try! job_name := optional_text node "name" name in
      try! _ := require (negb (zlength (String.list_ascii_of_string job_name) >? 256)) (length_error "job name exceeds 256 bytes") in
      try! arrival := value node "arrival_ns" 0 in
      try! step_count := value node "steps" (pf_steps found) in
      try! steps := narrow step_count in
      try! gradient_bytes := value node "gradient_bytes" (pf_gradient found) in
      try! bucket_bytes := value node "bucket_bytes" (pf_bucket found) in
      try! chunk_bytes := value node "chunk_bytes" 4096 in
      try! priority_value := value node "priority" 0 in
      try! priority := narrow priority_value in
      try! overlap := read_overlap node in
      try! assigned := read_compute node requested_workers (pf_compute found) in
      Ret (mkJobSpec job_name (fst assigned) requested_workers (snd assigned) arrival steps gradient_bytes bucket_bytes chunk_bytes
             priority overlap AllReduce RingAlgorithm)
  end.

(** ** Controls *)

Definition bounded_sequence (node : yaml_node) : bool := is_sequence node && negb (zlength (node_items node) >? 10000).

(** The loop over a sequence of nodes. *)
Fixpoint read_each {A} (read : yaml_node -> outcome A) (items : list yaml_node) : outcome (list A) :=
  match items with
  | [] => Ret []
  | item :: rest => try! x := read item in try! xs := read_each read rest in Ret (x :: xs)
  end.

Definition read_control (job_count : Z) (control : yaml_node) : outcome JobControl :=
  try! _ := keys control ["job"; "kind"; "at_ns"; "worker"]%string in
  try! kind := text_of (node_field control "kind") in
  try! _ := require (bool_decide (kind = "cancel"%string) || bool_decide (kind = "worker_failure"%string))
              (invalid_argument "unknown job control kind") in
  try! index := number (node_field control "job") in
  try! _ := require (negb (index >=? job_count)) (invalid_argument "unknown controlled job") in
  try! at_ns := number (node_field control "at_ns") in
  try! worker_value := value control "worker" 0 in
  try! worker := narrow worker_value in
  Ret (mkJobControl index (if bool_decide (kind = "cancel"%string) then Entities.Cancel else WorkerFailure) at_ns worker).

Definition read_controls (controls : option yaml_node) (job_count : Z) : outcome (list JobControl) :=
  match controls with
  | None => Ret []
  | Some controls =>
      try! _ := require (bounded_sequence controls) (invalid_argument "invalid job controls") in
      read_each (read_control job_count) (node_items controls)
  end.

Definition read_gpu_control (gpus : Z) (control : yaml_node) : outcome GpuControl :=
  try! _ := keys control ["gpu"; "state"; "at_ns"]%string in
  try! gpu := number (node_field control "gpu") in
  try! state := text_of (node_field control "state") in
  try! _ := require (negb ((gpu >=? gpus) || (negb (bool_decide (state = "up"%string)) && negb (bool_decide (state = "down"%string)))))
              (invalid_argument "invalid GPU control") in
  try! at_ns := number (node_field control "at_ns") in
  Ret (mkGpuControl gpu (bool_decide (state = "up"%string)) at_ns).

Definition read_gpu_controls (controls : option yaml_node) (gpus : Z) (scheduling : bool) : outcome (list GpuControl) :=
  match controls with
  | None => Ret []
  | Some controls =>
      try! _ := require (scheduling && bounded_sequence controls) (invalid_argument "GPU controls require scheduler and bounded list") in
      read_each (read_gpu_control gpus) (node_items controls)
  end.

(** ** Scenarios *)

(** The loop over the jobs, with the worker entries so far. *)
Fixpoint read_jobs (items : list yaml_node) (scheduling : bool) (worker_entries : Z) : outcome (list JobSpec) :=
  match items with
  | [] => Ret []
  | entry :: rest =>
      try! specification := job entry in
      let size := zlength (js_compute specification) in
      try! _ := require (negb (size >? u64_wrap (1000000 - worker_entries))) (length_error "scenario worker-entry limit exceeded") in
      try! _ := require (negb (negb (js_requested_workers specification =? 0) && negb scheduling))
                  (invalid_argument "requested_workers requires scheduling_policy") in
      try! specifications := read_jobs rest scheduling (worker_entries + size) in
      Ret (specification :: specifications)
  end.

Definition read_scheduling (root : yaml_node) (seed : Z) : outcome (option SchedulingConfiguration) :=
  match node_field root "scheduling_policy" with
  | None => Ret None
  | Some n =>
      try! policy := as_string n in
      try! _ := make_policy policy seed in
      Ret (Some (mkSchedulingConfiguration policy seed 1000000 1000000))
  end.

Definition parse_scenario (yaml : string) : outcome TrainingScenario :=
  try! _ := require (negb (zlength (String.list_ascii_of_string yaml) >? 1048576)) (length_error "scenario exceeds one MiB") in
  try! root := yaml_load yaml in
  try! _ := keys root ["version"; "gpus"; "seed"; "routing_policy"; "bandwidth_bps"; "propagation_ns"; "buffer_bytes";
                       "scheduling_policy"; "gpu_controls"; "local_bandwidth_bps"; "local_latency_ns"; "telemetry"; "jobs"; "controls"]%string in
  try! version := number (node_field root "version") in
  try! _ := require (version =? 1) (invalid_argument "unsupported training scenario version") in
  try! gpus := value root "gpus" 64 in
  try! _ := require (negb ((gpus <? 64) || (gpus >? 8192) || negb (gpus mod 64 =? 0))) (invalid_argument "unsupported Clos GPU count") in
  try! seed := value root "seed" 42 in
  try! scheduling := read_scheduling root seed in
  try! routing_policy := optional_text root "routing_policy" "ecmp" in
  try! bandwidth := value root "bandwidth_bps" 100000000000 in
  try! propagation := value root "propagation_ns" 500 in
  try! buffer := value root "buffer_bytes" 262144 in
  try! local_bandwidth := value root "local_bandwidth_bps" 800000000000 in
  try! local_latency := value root "local_latency_ns" 0 in
  try! jobs := defined (node_field root "jobs") in
  try! _ := require (bounded_sequence jobs && negb (zlength (node_items jobs) =? 0)) (invalid_argument "invalid scenario jobs") in
  try! specifications := read_jobs (node_items jobs) (has_value scheduling) 0 in
  try! controls := read_controls (node_field root "controls") (zlength specifications) in
  try! gpu_controls := read_gpu_controls (node_field root "gpu_controls") gpus (has_value scheduling) in
  try! telemetry := read_telemetry (node_field root "telemetry") in
  Ret (mkTrainingScenario gpus seed routing_policy bandwidth propagation buffer
         {| default_collective_configuration with cc_local_bandwidth := local_bandwidth; cc_local_latency := local_latency |}
         specifications controls scheduling gpu_controls telemetry).
End Reading.

(** ** Numbers *)

(** The value of a numeral. *)
Definition decimal (digits : list Ascii.ascii) : Z := foldl (fun v c => 10 * v + (char_value c - 48)) 0 digits.

Lemma read_digits_all l v : forallb is_digit l = true -> read_digits l v = (foldl (fun v c => 10 * v + (char_value c - 48)) v l, []).
Proof. revert v. induction l as [| c l IH]; intros v; [done |]. cbn. intros [-> Hl]%andb_true_iff. by apply IH. Qed.

Lemma read_digits_end l v w : read_digits l v = (w, []) -> forallb is_digit l = true.
Proof. revert v. induction l as [| c l IH]; intros v; [done |]. cbn. destruct (is_digit c); [apply IH | done]. Qed.

Lemma from_chars_all l v : from_chars l = (Some v, []) <-> l <> [] /\ forallb is_digit l = true /\ v = decimal l /\ v <= u64_max.
Proof.
  unfold from_chars. split.
  - destruct (read_digits l 0) as [w rest] eqn:Hr. intros [= Hv ->]. pose proof (read_digits_end _ _ _ Hr) as Hd.
    rewrite (read_digits_all _ _ Hd) in Hr. injection Hr as Hw. case_bool_decide as Hl; cbn [orb] in Hv; [done |].
    destruct (Z.gtb_spec w u64_max); [done |]. injection Hv as <-. by split_and!.
  - intros (Hn & Hd & -> & Hle). rewrite (read_digits_all _ _ Hd). fold (decimal l). rewrite bool_decide_eq_false_2 by (intros E; by destruct Hn).
    cbn [orb]. destruct (Z.gtb_spec (decimal l) u64_max); [lia | done].
Qed.

Lemma digit_value c : is_digit c = true -> 0 <= char_value c - 48 <= 9.
Proof. unfold is_digit. lia. Qed.

Lemma decimal_nonneg l : forallb is_digit l = true -> 0 <= decimal l.
Proof.
  unfold decimal. assert (forall v, 0 <= v -> forallb is_digit l = true -> 0 <= foldl (fun v c => 10 * v + (char_value c - 48)) v l) as Hg.
  { induction l as [| c l IH]; intros v Hv; [done |]. cbn. intros [Hc%digit_value Hl]%andb_true_iff. apply IH; [lia | done]. }
  by apply Hg.
Qed.

(** The digits that are printed. *)
Lemma pretty_digit x : (x < 10)%N -> is_digit (pretty_N_char x) = true /\ char_value (pretty_N_char x) - 48 = Z.of_N x.
Proof.
  intros Hx. assert (exists n, (n < 10)%nat /\ x = N.of_nat n) as (n & Hn & ->) by (exists (N.to_nat x); lia).
  do 10 (destruct n as [| n]; [by vm_compute |]). lia.
Qed.

Lemma pretty_go_digits x s : exists l, String.list_ascii_of_string (pretty_N_go x s) = l ++ String.list_ascii_of_string s /\
  forallb is_digit l = true /\ decimal l = Z.of_N x /\ ((0 < x)%N -> l <> [] /\ 10 ^ (zlength l - 1) <= Z.of_N x) /\ (x = 0%N -> l = []).
Proof.
  revert s. induction (N.lt_wf_0 x) as [x _ IH]. intros s. destruct (decide (x = 0%N)) as [-> | Hne].
  { exists []. rewrite pretty_N_go_0. split_and!; try done; lia. }
  rewrite pretty_N_go_step by lia. destruct (IH (x `div` 10)%N) with (s := String (pretty_N_char (x `mod` 10)) s) as (l & E1 & E2 & E3 & E4 & E5).
  { apply N.div_lt; lia. }
  destruct (pretty_digit (x `mod` 10)) as [D1 D2]; [by apply N.mod_lt |]. exists (l ++ [pretty_N_char (x `mod` 10)]).
  rewrite E1, <- app_assoc. cbn [String.list_ascii_of_string app]. split; [done |]. rewrite forallb_app, E2. cbn [forallb]. rewrite D1. split; [done |].
  assert (Z.of_N x = 10 * Z.of_N (x `div` 10) + Z.of_N (x `mod` 10)) as Hx by (rewrite N2Z.inj_div, N2Z.inj_mod by done; apply Z.div_mod; done).
  split; [| split; [intros _; split; [by destruct l |] | done]].
  - unfold decimal in *. rewrite foldl_app, E3. cbn [foldl]. lia.
  - rewrite zlength_app. change (zlength [pretty_N_char (x `mod` 10)]) with 1. replace (zlength l + 1 - 1) with (zlength l) by lia.
    destruct (decide (x `div` 10 = 0)%N) as [Hz | Hz]; [rewrite (E5 Hz); change (10 ^ zlength []) with 1; lia |].
    destruct E4 as [Hl Hp]; [by apply N.neq_0_lt_0 |]. replace (zlength l) with (Z.succ (zlength l - 1)) by lia.
    pose proof (N2Z.is_nonneg (x `mod` 10)) as Hm. revert Hx Hm Hp. generalize (Z.of_N (x `div` 10)), (Z.of_N (x `mod` 10)). intros q m -> Hm Hp.
    rewrite Z.pow_succ_r; [lia |]. destruct l; [done |]. rewrite zlength_cons. pose proof (zlength_nonneg l). lia.
Qed.

Lemma pretty_decimal v : u64 v -> let l := String.list_ascii_of_string (pretty v) in
  l <> [] /\ forallb is_digit l = true /\ decimal l = v /\ zlength l <= 20.
Proof.
  intros [H0 H1] l. destruct v as [| p | p]; [by vm_compute | | lia].
  destruct (pretty_go_digits (N.pos p) "") as (d & E1 & E2 & E3 & E4 & _). rewrite app_nil_r in E1.
  assert (l = d) as -> by (rewrite <- E1; done). destruct E4 as [Hn Hp]; [lia |]. split_and!; try done.
  assert (zlength d - 1 < 20); [| lia]. apply (Z.pow_lt_mono_r_iff 10); [lia .. |]. eapply Z.le_lt_trans; [exact Hp |].
  eapply Z.le_lt_trans; [exact H1 |]. by vm_compute.
Qed.

(** ** What is read *)

(** The statements of a reader that returned. *)
Ltac tried H :=
  repeat match type of H with
  | obind ?m _ = Ret _ => let E := fresh "E" in destruct m eqn:E; cbn [obind] in H; [| discriminate H]
  end.

Lemma require_true b e u : require b e = Ret u -> b = true.
Proof. by destruct b. Qed.

Section Theorems.
Context `{Yaml}.
Implicit Types (node : yaml_node).

(** Numbers are read exactly: a node gives a number precisely when it is a scalar
    of one to twenty decimal digits, without sign or blanks, whose value fits in 64
    bits, and every such value is read back from its decimal digits. *)
Theorem number_exact node v :
  (number (Some node) = Ret v <->
     let l := String.list_ascii_of_string (scalar_text node) in
     is_scalar node = true /\ l <> [] /\ forallb is_digit l = true /\ zlength l <= 20 /\ v = decimal l /\ v <= u64_max) /\
  (is_scalar node = true -> u64 v -> scalar_text node = pretty v -> number (Some node) = Ret v).
Proof.
  assert (number (Some node) = Ret v <->
     let l := String.list_ascii_of_string (scalar_text node) in
     is_scalar node = true /\ l <> [] /\ forallb is_digit l = true /\ zlength l <= 20 /\ v = decimal l /\ v <= u64_max) as Hex.
  { unfold number, defined, require. cbn [obind]. cbv zeta. set (l := String.list_ascii_of_string (scalar_text node)).
    destruct (is_scalar node); cbn [obind]; [| by split; [| intros [? _]]]. destruct (Z.gtb_spec (zlength l) 20); cbn [negb obind]; [by split; [| lia] |].
    assert (match from_chars l with (Some w, []) => Ret w | _ => Throw (invalid_argument "invalid scenario integer") end = Ret v <->
      from_chars l = (Some v, [])) as ->.
    { destruct (from_chars l) as [[w |] [| c rest]]; split; try done; [by intros [= ->] | by intros [= ->]]. }
    rewrite from_chars_all. split; [intros (? & ? & ? & ?); by split_and! | by intros (_ & ? & ? & _ & ? & ?)]. }
  split; [exact Hex |]. intros Hs Hu Ht. apply Hex. cbv zeta. rewrite Ht. destruct (pretty_decimal v Hu) as (P1 & P2 & P3 & P4). destruct Hu. by split_and!.
Qed.

Lemma number_u64 (o : option yaml_node) v : number o = Ret v -> u64 v.
Proof.
  destruct o as [node |]; [| done]. intros (_ & _ & Hd & _ & -> & Hle)%number_exact. split; [by apply decimal_nonneg | done].
Qed.

Lemma value_u64 node key fallback v : value node key fallback = Ret v -> u64 fallback -> u64 v.
Proof. unfold value. destruct (node_field node key); [intros Hn _; by eapply number_u64 | by intros [= <-]]. Qed.

Lemma narrow_u32 v w : narrow v = Ret w -> u64 v -> u32 w /\ w = v.
Proof.
  unfold narrow. destruct (Z.gtb_spec v u32_max); [done |]. intros [= <-] [Hv _]. unfold u32_wrap. rewrite Z.mod_small by (unfold u32_max in *; lia). split; [split; lia | done].
Qed.

Lemma read_compute_spec count index pinned compute default_compute l : read_compute_from count index pinned compute default_compute = Ret l ->
  u64 default_compute -> length (snd l) = count /\ length (fst l) = match pinned with Some _ => count | None => O end /\ Forall u64 (fst l) /\ Forall u64 (snd l).
Proof.
  intros Hl Hd. revert index l Hl. induction count as [| n IH]; intros index l; cbn [read_compute_from].
  - intros [= <-]. by destruct pinned.
  - intros Hl. tried Hl. injection Hl as <-. destruct (IH _ _ E1) as (I1 & I2 & I3 & I4). cbn [fst snd length].
    assert (u64 a0) as Hdur by (destruct compute; [by eapply number_u64 | by injection E0 as <-]).
    split; [by rewrite I1 |]. rewrite length_app, Forall_app, I2. destruct pinned as [w |].
    + tried E. injection E as <-. split_and!; [done | constructor; [by eapply number_u64 | constructor] | done | by constructor].
    + injection E as <-. split_and!; [done | constructor | done | by constructor].
Qed.

(** The workers of a job are listed or requested, with a compute time for each. *)
Record job_shape (spec : JobSpec) : Prop := {
  sh_words : spec_words spec;
  sh_gpus : Forall u64 (js_workers spec);
  sh_size : 1 <= zlength (js_compute spec) <= 8192;
  sh_pinned : js_requested_workers spec = 0 -> zlength (js_workers spec) = zlength (js_compute spec);
  sh_requested : js_requested_workers spec <> 0 -> js_workers spec = [] /\ zlength (js_compute spec) = js_requested_workers spec;
}.

Lemma find_profile_words name found : find_profile name = Some found ->
  u64 (pf_steps found) /\ u64 (pf_compute found) /\ u64 (pf_gradient found) /\ u64 (pf_bucket found).
Proof.
  unfold find_profile. intros [Hin _]%List.find_some.
  repeat (destruct Hin as [<- | Hin]; [repeat split; vm_compute; congruence |]). done.
Qed.

Lemma invalid_worker_list_false node requested : invalid_worker_list node requested = Ret false -> requested <= 8192 /\
  (requested = 0 -> exists w, node_field node "workers" = Some w /\ 1 <= zlength (node_items w) <= 8192).
Proof.
  unfold invalid_worker_list. destruct (_ || (requested >? 8192)) eqn:Hg; [done |]. apply orb_false_iff in Hg as [_ Hg]. intros Hr. split; [lia |].
  intros ->. cbn in Hr. destruct (node_field node "workers") as [w |]; cbn [defined obind] in Hr; [| done]. exists w. split; [done |].
  injection Hr as Hr. apply orb_false_iff in Hr as [[_ H1]%orb_false_iff H2]. pose proof (zlength_nonneg (node_items w)). lia.
Qed.

Lemma read_compute_shape node requested default_compute l : read_compute node requested default_compute = Ret l -> u64 default_compute ->
  0 <= requested <= 8192 -> (requested = 0 -> exists w, node_field node "workers" = Some w /\ 1 <= zlength (node_items w) <= 8192) ->
  Forall u64 (fst l) /\ Forall u64 (snd l) /\ 1 <= zlength (snd l) <= 8192 /\ zlength (fst l) <= 8192 /\ (requested = 0 -> zlength (fst l) = zlength (snd l)) /\
  (requested <> 0 -> fst l = [] /\ zlength (snd l) = requested).
Proof.
  unfold read_compute. intros Hl Hd Hreq Hw. destruct (Z.eqb_spec requested 0) as [-> | Hne].
  - destruct (Hw eq_refl) as (w & Hf & Hn). rewrite Hf in Hl. cbn [defined obind] in Hl. tried Hl.
    destruct (read_compute_spec _ _ _ _ _ _ Hl Hd) as (L1 & L2 & L3 & L4). unfold zlength in *. rewrite L1, L2. split_and!; try done; lia.
  - cbn [obind] in Hl. tried Hl. destruct (read_compute_spec _ _ _ _ _ _ Hl Hd) as (L1 & L2 & L3 & L4).
    unfold zlength in *. rewrite L1, L2. split_and!; try done; try lia. intros _. split; [by apply length_zero_iff_nil | lia].
Qed.

Lemma job_reads node spec : job node = Ret spec -> job_shape spec.
Proof.
  unfold job. intros Hj. tried Hj. destruct (find_profile _) as [found |] eqn:Hfound; [| done].
  destruct (find_profile_words _ _ Hfound) as (F1 & F2 & F3 & F4). tried Hj. injection Hj as <-.
  assert (u64 0) as U0 by (by vm_compute). assert (u64 4096) as U4 by (by vm_compute).
  repeat match goal with
  | E : value _ _ _ = Ret _ |- _ => apply value_u64 in E; [| done]
  | E : require _ _ = Ret _ |- _ => apply require_true in E
  end.
  repeat match goal with E : narrow _ = Ret _ |- _ => apply narrow_u32 in E as [? ->]; [| done] end.
  match goal with E : invalid_worker_list _ _ = Ret ?b |- _ => destruct b; [done |]; apply invalid_worker_list_false in E as [R1 R2] end.
  match goal with E : read_compute _ _ _ = Ret _ |- _ => apply read_compute_shape in E as (C1 & C2 & C3 & C4 & C5 & C6); [| done | | done] end.
  2:{ match goal with U : u64 ?r |- 0 <= ?r <= 8192 => destruct U; lia end. }
  split; cbn; try done. split; cbn; try done. split; [| split; [apply zlength_nonneg | unfold u64_max; lia]].
  split; [apply zlength_nonneg | unfold u64_max; lia].
Qed.

Definition entries (jobs : list JobSpec) : Z := sumZ ((fun spec => zlength (js_compute spec)) <$> jobs).

Lemma read_jobs_spec items scheduling used l : read_jobs items scheduling used = Ret l -> 0 <= used <= 1000000 ->
  length l = length items /\ Forall job_shape l /\ used + entries l <= 1000000 /\
  Forall (fun spec => js_requested_workers spec <> 0 -> scheduling = true) l.
Proof.
  revert used l. induction items as [| item items IH]; intros used l; cbn [read_jobs]; [intros [= <-] Hu; split_and!; try done; cbn; lia |].
  intros Hl Hu. tried Hl. injection Hl as <-. apply job_reads in E as Hshape. apply require_true in E0, E1.
  rewrite u64_wrap_id in E0 by (split; unfold u64_max; lia). pose proof (sh_size _ Hshape) as Hsz.
  destruct (IH _ _ E2) as (I1 & I2 & I3 & I4); [lia |]. unfold entries in *. rewrite fmap_cons, sumZ_cons. cbn [length].
  split_and!; [by rewrite I1 | by constructor | lia | constructor; [| done]]. intros Hne. destruct scheduling; [done |]. lia.
Qed.

Lemma read_each_spec {A} (read : yaml_node -> outcome A) (P : A -> Prop) items l :
  (forall item x, read item = Ret x -> P x) -> read_each read items = Ret l -> length l = length items /\ Forall P l.
Proof.
  intros Hp. revert l. induction items as [| item items IH]; intros l; cbn [read_each]; [by intros [= <-] |].
  intros Hl. tried Hl. injection Hl as <-. destruct (IH _ eq_refl) as [I1 I2]. cbn [length]. split; [by rewrite I1 | constructor; [by eapply Hp | done]].
Qed.

(** A control names a job of the scenario. *)
Definition control_ok (jobs : Z) (c : JobControl) : Prop :=
  0 <= jc_job c < jobs /\ (jc_kind c = Entities.Cancel \/ jc_kind c = WorkerFailure) /\ u64 (jc_timestamp c) /\ u32 (jc_worker c).

Definition gpu_control_ok (gpus : Z) (c : GpuControl) : Prop := 0 <= gc_gpu c < gpus /\ u64 (gc_timestamp c).

Lemma read_controls_spec (o : option yaml_node) jobs l : read_controls o jobs = Ret l -> zlength l <= 10000 /\ Forall (control_ok jobs) l.
Proof.
  unfold read_controls. destruct o as [node |]; [| intros [= <-]; split; [by vm_compute | constructor]]. intros Hl. tried Hl.
  apply require_true in E. unfold bounded_sequence in E. apply (read_each_spec _ (control_ok jobs)) in Hl as [L1 L2].
  - split; [unfold zlength in *; lia | done].
  - intros item x Hx. unfold read_control in Hx. tried Hx. injection Hx as <-.
    repeat match goal with
    | E : require _ _ = Ret _ |- _ => apply require_true in E
    | E : number _ = Ret _ |- _ => apply number_u64 in E
    | E : value _ _ _ = Ret _ |- _ => apply value_u64 in E; [| by vm_compute]
    | E : narrow _ = Ret _ |- _ => apply narrow_u32 in E as [E _]; [| done]
    end.
    split; [| split; [cbn; case_bool_decide; auto | by split]]. cbn. match goal with U : u64 ?i |- 0 <= ?i < _ => destruct U; lia end.
Qed.

Lemma read_gpu_controls_spec (o : option yaml_node) gpus scheduling l : read_gpu_controls o gpus scheduling = Ret l ->
  zlength l <= 10000 /\ Forall (gpu_control_ok gpus) l /\ (l <> [] -> scheduling = true).
Proof.
  unfold read_gpu_controls. destruct o as [node |]; [| intros [= <-]; split_and!; [by vm_compute | constructor | done]]. intros Hl. tried Hl.
  apply require_true in E. apply andb_true_iff in E as [Hs E]. unfold bounded_sequence in E. apply (read_each_spec _ (gpu_control_ok gpus)) in Hl as [L1 L2].
  - split_and!; [unfold zlength in *; lia | done | done].
  - intros item x Hx. unfold read_gpu_control in Hx. tried Hx. injection Hx as <-.
    repeat match goal with E : require _ _ = Ret _ |- _ => apply require_true in E end.
    repeat match goal with E : number _ = Ret _ |- _ => apply number_u64 in E end.
    split; [| done]. cbn. match goal with U : u64 ?i |- 0 <= ?i < _ => destruct U; lia end.
Qed.

Lemma read_telemetry_valid (o : option yaml_node) c : read_telemetry o = Ret c -> TelemetryMetrics.validate_configuration c = Ret tt.
Proof.
  unfold read_telemetry. destruct o as [node |]; [| intros [= <-]; by vm_compute]. intros Hc. tried Hc. injection Hc as <-.
  match goal with E : TelemetryMetrics.validate_configuration _ = Ret ?u |- _ => by destruct u end.
Qed.

(** What is accepted can be run.  Whatever text is read: a scenario that is returned
    has a Clos size, one to ten thousand jobs with at most a million workers between
    them, each with its workers listed or requested from a scheduler and a compute
    time for each, controls of its own jobs and of GPUs of its topology, a telemetry
    configuration that the session accepts, and machine words everywhere, which is
    what the theorem on reports asks for. *)
Theorem scenario_admitted text s : parse_scenario text = Ret s ->
  scenario_words s /\ (64 <= scn_gpus s <= 8192 /\ scn_gpus s mod 64 = 0) /\
  1 <= zlength (scn_jobs s) <= 10000 /\ entries (scn_jobs s) <= 1000000 /\ Forall job_shape (scn_jobs s) /\
  Forall (fun spec => js_requested_workers spec <> 0 -> is_Some (scn_scheduling s)) (scn_jobs s) /\
  zlength (scn_controls s) <= 10000 /\ Forall (control_ok (zlength (scn_jobs s))) (scn_controls s) /\
  zlength (scn_gpu_controls s) <= 10000 /\ Forall (gpu_control_ok (scn_gpus s)) (scn_gpu_controls s) /\
  (scn_gpu_controls s <> [] -> is_Some (scn_scheduling s)) /\
  TelemetryMetrics.validate_configuration (scn_telemetry s) = Ret tt.
Proof.
  unfold parse_scenario. intros Hs. tried Hs. injection Hs as <-.
  repeat match goal with
  | E : value _ _ _ = Ret _ |- _ => apply value_u64 in E; [| by vm_compute]
  | E : require _ _ = Ret _ |- _ => apply require_true in E
  end.
  match goal with E : read_jobs _ _ _ = Ret _ |- _ => apply read_jobs_spec in E as (J1 & J2 & J3 & J4); [| lia] end.
  match goal with E : read_controls _ _ = Ret _ |- _ => apply read_controls_spec in E as [C1 C2] end.
  match goal with E : read_gpu_controls _ _ _ = Ret _ |- _ => apply read_gpu_controls_spec in E as (G1 & G2 & G3) end.
  match goal with E : read_telemetry _ = Ret _ |- _ => apply read_telemetry_valid in E end.
  assert (forall o : option SchedulingConfiguration, has_value o = true -> is_Some o) as Hhas by (intros [?|]; [eauto | done]).
  match goal with E : (bounded_sequence _ && _) = true |- _ => unfold bounded_sequence in E; rename E into Hjobs end.
  cbn [scn_gpus scn_jobs scn_scheduling scn_controls scn_gpu_controls scn_telemetry].
  split_and!; try done; try lia.
  - split; cbn; try done; [by apply (Forall_impl _ _ _ J2); intros spec [] | apply (Forall_impl _ _ _ C2); by intros c (_ & _ & ? & _) |].
    apply (Forall_impl _ _ _ G2). by intros c [_ ?].
  - unfold zlength in *. lia.
  - unfold zlength in *. lia.
  - apply (Forall_impl _ _ _ J4). intros spec Hsp Hne. by apply Hhas, Hsp.
  - intros Hne. by apply Hhas, G3.
Qed.
End Theorems.

(** ** A small document *)

Definition entry (key : string) (tokens : list YamlToken) : list YamlToken := [YKey; YText key; YValue] ++ tokens.

(** A job on two workers that is cancelled in its first step. *)
Definition demo_tokens : list YamlToken :=
  [YBeginMap] ++ entry "version" [YNumber 1] ++
  entry "jobs" ([YBeginSeq; YBeginMap] ++ entry "workers" [YBeginSeq; YNumber 0; YNumber 9; YEndSeq] ++
    entry "overlap" [YText "true"] ++ [YEndMap; YEndSeq]) ++
  entry "controls" ([YBeginSeq; YBeginMap] ++ entry "job" [YNumber 0] ++ entry "kind" [YText "cancel"] ++
    entry "at_ns" [YNumber 700] ++ [YEndMap; YEndSeq]) ++ [YEndMap].

Definition demo_text : string := default ""%string (emitter_text demo_tokens).

Lemma scenario_admitted_witness : exists s, parse_scenario demo_text = Ret s /\ scenario_words s /\
  (js_workers <$> scn_jobs s) = [[0; 9]] /\ scn_gpus s = 64 /\ scn_controls s = [mkJobControl 0 Entities.Cancel 700 0].
Proof.
  eexists. assert (parse_scenario demo_text = Ret _) as Hs by (vm_compute; reflexivity).
  split; [exact Hs |]. destruct (scenario_admitted demo_text _ Hs) as [Hw _].
  split; [exact Hw | vm_compute; split; [reflexivity | split; reflexivity]].
Defined.
